(* ===== verification/_CoqProject ===== *)
-Q . S2P
Overview.v
Prelude.v
GoStrings.v
Json.v
Policy.v
PolicyTheorems.v
Constraints.v
GoTime.v
Sha256.v
Base64.v
Pkce.v
Digests.v
Effects.v
Storage.v
MemStore.v
MemTheorems.v
Platform.v
ServerTypes.v
Rar.v
Rfc3339.v
JsonCodec.v
Numeric.v
Nonce.v
Records.v
Claims.v
Dpop.v
Jose.v
Federation.v
Resolver.v
ResolverTheorems.v
Canonical.v
Extensions.v
RequestObject.v
Tokens.v
Attestation.v
ClientAuth.v
ClientAuthTheorems.v
ServerState.v
TokenChecks.v
Issue.v
CodeExchange.v
Refresh.v
BackchannelToken.v
Parameters.v
ClaimsParameter.v
Subjects.v
Par.v
Authorization.v
Completion.v
Ciba.v
Signing.v
Client.v
SigningTheorems.v
ClientTheorems.v
Registration.v
ClientFlow.v
TokenSigning.v
Resource.v
ResourceTheorems.v
Frames.v
FrontFrames.v
TokenChecksTheorems.v
HandlerLemmas.v
PushTheorems.v
CompletionTheorems.v
CibaRequestTheorems.v
InteractionTheorems.v
Provenance.v
CibaDecisionTheorems.v
ExchangeTheorems.v
OtherGrants.v
CibaTheorems.v
EndToEnd.v
CibaEndToEnd.v
ResourceEndToEnd.v
RevocationTheorems.v
Examples.v
FlowExamples.v
ResourceExamples.v
