(* ===== verification/Overview.v ===== *)
(** FAPIgo: a verification of its authorization server, resource server and client.

    FAPIgo is a Go library for FAPI 2.0: an authorization server (src/server),
    its stores (src/storage, src/storage/memstore), OpenID Federation
    (src/federation, src/internal/federation), a resource server
    (src/resource) and a client (src/client). This development models the
    authorization server's code flow whole, from the request a client pushes,
    through the interaction that decides it, to the tokens the client gets and
    the records the stores keep, with CIBA, refresh and revocation; the
    resource server that accepts the access tokens; the client that begins an
    authorization, answers its callback and holds the tokens; and the
    federation code that resolves a trust chain and judges what it says.

    * How the program is modelled

    A Go function that computes is a function; one that returns (T, error)
    returns a result. A method that reads or changes state is a function from
    a state to a result and a state (eff, Effects.v), written with the
    monad's let*; an error leaves the changes made before it, as in Go.
    A handler runs in a World (ServerState.v): the transaction, grant,
    revocation, CIBA and nonce stores, the nonce rotator, the random source, the audit log
    and an environment for everything else. The class Server holds the
    configuration and what the server is given or the model does not go into,
    as arbitrary operations: the clock, the client registry, the replay and
    access token stores, an embedder's policies and claim source, signature
    checks, certificate path validation, signing; FrontServer (Subjects.v)
    adds the subject derivers and JARM's signer.
    Every theorem holds for every instance of it. A client likewise runs in a
    World of its own (Client.v): its session store, its nonce cache, the
    latest attestation challenge and the requests it has sent; the class
    ClientLib holds its configuration, and HTTP, keys and JWE decryption as
    operations.

    Instants are Z, nanoseconds from the Unix epoch, and durations are Z with
    the saturation of timeutil and of time.Time.Sub written out (GoTime.v).
    Byte strings are strings, JSON is an inductive type with exact numbers
    (Json.v); a raw message is its JSON, or not a JSON value at all.
    Interfaces (src/storage) are classes of operations, with what their
    documentation promises as classes of laws (Storage.v), which the
    in-memory stores are proved to keep.

    * The files

    Prelude, GoStrings, Json, GoTime, Effects: results, Go's string functions,
    JSON, instants, stateful operations.
    Policy, PolicyTheorems: metadata policies of a trust chain
    (src/internal/federation/policy.go, policy_space_delimited.go,
    src/federation/resolver.go). Constraints: src/federation/constraints.go.
    Federation, Resolver, ResolverTheorems: entity statements
    (src/internal/federation/claims.go, verify.go), and the
    resolver that fetches them, walks the superiors with a budget and caches
    (src/federation/resolver.go); the class FederationEnv adds HTTP and
    signature verification.
    Sha256, Base64, Pkce, Digests: executable SHA-256 and SHA-512, strict base64
    (src/internal/strictb64), PKCE and random identifiers
    (src/internal/pkce, src/server/code.go), the digests stores are keyed by.
    Storage, MemStore, MemTheorems: the interfaces, the in-memory stores, and
    their safety over every interleaving of calls. A store's method holds its
    mutex throughout, so a call is one step.
    Platform, ServerTypes, Rar, Rfc3339, JsonCodec, Records, Claims: the
    standard library the code relies on; errors, forms, limits and clients;
    rich authorization requests (src/extension/rar.go); the stored records
    and their JSON (src/server/records.go); claim names and values.
    Nonce, Dpop: DPoP nonces and proofs (src/internal/dpopnonce,
    src/internal/dpop).
    ServerState, TokenChecks, Issue: the server's state, and
    what the token endpoint's handlers share.
    Numeric, Jose, Canonical: numeric dates, compact JWS and its headers
    (src/internal/jose, critical, strictjson), URI normalisation
    (src/internal/canonical), redirect and endpoint URLs (src/url.go).
    Extensions: registered request parameters (src/extension), and the
    server's configuration (src/server/config.go).
    Attestation, ClientAuth: client authentication by assertion
    (src/internal/clientassertion), by certificate
    (src/server/client_auth_mtls.go, client_certificate_trust.go and
    client_certificate_crl.go) and by attestation
    (src/internal/clientattestation, src/server/attester_trust.go); the class
    X509 is what crypto/x509 parses and the chains it builds.
    RequestObject, Parameters, ClaimsParameter, Subjects, Par: signed request
    objects (src/internal/requestobject), the request's parameters, the claims
    parameter, subject identifiers, and PushAuthorizationRequest.
    Authorization, Completion: BeginAuthorization and CompleteAuthorization
    (src/server/authorization.go, complete_authorization.go), JARM included.
    Registration: NewRegisteredClient (src/storage/client_repository.go,
    client_subject.go), what it guarantees of a client, and that a response
    sent to a registered redirect URI is unambiguous.
    CodeExchange, Refresh, BackchannelToken: the handlers
    ExchangeAuthorizationCode, RefreshAccessToken, RevokeToken and
    ExchangeBackchannelAuthentication, with RevokeGrant in Issue.
    OtherGrants: RequestClientCredentialsToken (src/server/client_credentials.go)
    and the tokens an embedder has issued for a grant type of its own
    (src/server/extension_grants.go, embedder_refresh.go,
    embedder_access_token.go), with their theorems; the class GrantServer adds
    the embedder's policy for the former.
    Ciba: BeginBackchannelAuthentication, LookupBackchannelInteraction and
    CompleteBackchannelAuthentication (src/server/backchannel_*.go,
    complete_backchannel_authentication.go); the class CibaServer adds the
    embedder's hint checker, policy and notifier.
    Tokens: parsing and validating JWT access tokens and ID tokens
    (src/internal/token), and, in Module Jarm, authorization responses
    (src/internal/jarm). Signing: what the program signs (jose.Sign, and the
    creation of DPoP proofs, client assertions, request objects,
    authorization responses, access tokens and ID tokens); the class
    JoseSigner adds signatures and the writing of JSON.
    Resource: Verifier.Verify with the JWT and opaque resolvers
    (src/resource), and the errors it answers (src/internal/httperror); the
    class Verifier holds its configuration and dependencies.
    Client: src/client's BeginAuthorization, HandleAuthorizationResponse,
    ExchangeCode, CompleteAuthorization, RefreshTokens and RevokeToken, with
    the forms they send (src/internal/par/form.go) and the record of a session
    between them. ClientTheorems: what each call reads, sends and writes;
    ClientFlow: executions of a client as sequences of calls in any order.
    Frames, FrontFrames, HandlerLemmas: what a step leaves alone, what a
    successful run writes and establishes. Provenance: everything a
    store hands out was put into it, as classes of laws the in-memory stores
    keep.
    ClientAuthTheorems, PushTheorems, CompletionTheorems, InteractionTheorems,
    CibaRequestTheorems, CibaDecisionTheorems, EndToEnd, CibaEndToEnd: the
    theorems about the request side, and those that join it to the token
    endpoint.
    ResourceTheorems, ResourceEndToEnd: what a verified request shows, and the
    composition of the resource server with the authorization server whose
    stores it reads.
    SigningTheorems, TokenSigning: what is signed is accepted, and read back,
    by the program's own verifiers.
    TokenChecksTheorems, ExchangeTheorems,
    RevocationTheorems, CibaTheorems: the theorems about them.
    Examples, FlowExamples, ResourceExamples: a
    concrete server and resource server whose runs the theorems are applied
    to.

    * What is shown

    The code flow: a code that is exchanged was issued by an interaction in
    which the user it names approved what the client had pushed; a pushed
    request is stored as it was checked, is shown as it was pushed, opens at
    most eight interactions, and its answer goes to a registered redirect URI
    only; an assertion or certificate that authenticates a client is its own,
    and an assertion does so once; an attestation that does is of the client's
    registered attester, in time and unrevoked, and its key signed the request.
    A client that registration accepts has what each of its methods is judged
    by, and its redirect URIs take an answer whose parameters occur once.
    CIBA likewise: a request that yields tokens was signed and sent by their
    client and approved by the user it requires.
    The token endpoint: tokens are issued only for a code, refresh token or
    CIBA request that was stored for the authenticated client and presented
    as it was bound, and are never more than was granted; a code yields
    tokens once; its reuse, a revocation or a withdrawn grant ends everything
    issued from it, whatever calls follow in any order; what another client
    presents changes nothing. A client's own token is for a client registered
    for it, and says that it has no user; an embedder's is bound to a
    credential the server verified for a client it attested, whatever the
    embedder does with what it was told.
    The resource server: a request it verifies carries a live, unrevoked token
    bound to the key or certificate presented, an opaque token only for what
    the token endpoint issued it for; a proof is accepted once; once a grant is
    withdrawn or a code reused, no token of it is accepted.
    The client: tokens a callback is exchanged for answer a request the client
    began, with its verifier, redirect URI and nonce, under the session its
    user agent kept; a session is answered once, and a response of another
    issuer or session changes nothing and sends no code; no call sends more
    than two requests, nor any to an endpoint other than its own; refreshed
    tokens stay the same user's.
    Signed messages: every proof, assertion, request object, response and
    token the program makes is accepted by the verifier it is made for while
    it is in time, and reads back as what it was made of.
    The records: what the server stores reads back exactly, at its issuer
    only; so do the client's sessions and the forms it sends.
    The stores: at most one redemption, decision, completion and use each;
    revocations are never forgotten; pairwise subjects are a stable
    bijection.
    DPoP: what an accepted proof proves, once only, and for how long its
    record must be kept; a nonce is valid for half its lifetime at every
    instance.
    Rich authorization requests and federation: parsed details are bounded
    and well-formed, narrowing is an assignment of objects to granted ones; no
    superior's policy can be repealed; constraints are decided exactly; a
    trust chain the resolver returns ends at a configured anchor, each link
    signed by the next, and obeys every superior on it; resolving sends a
    bounded number of requests whatever the federation answers.
    Encodings: base64url, PKCE and JSON number equality against reference
    definitions.

    * Bounds and fuel

    Recursions are structural, or on a list's or number's bound that the
    definition computes (Sha256, Rfc3339, Canonical: the bound is proved to be
    enough); no theorem assumes fuel. Limits the code names (form sizes,
    depths, lengths) are the code's constants.

    * Not modelled

    Cryptography (signatures, JWE, X.509 path validation): operations of the
    classes DpopCrypto, JoseCrypto, JoseSigner, Server and ClientLib. HTTP,
    SQL, key custody, cookies: glue around the methods modelled. Of the
    server, UserInfo and metadata; of federation, automatic registration, trust marks and the endpoints that issue statements; of the
    client, CIBA, client credentials, UserInfo, protected resources, discovery
    and the sealing of tokens; and the validation of a configuration by any
    New. *)
