(* ===== verification/Prelude.v ===== *)
(** What every component shares: Go's (T, error) pairs as a result type with
    its notations, generic lemmas on lists, maps and options, and the hint
    database fapi. *)
From stdpp Require Export base gmap strings list fin_maps sorting.
From stdpp Require Import options.
From Stdlib Require Export ZArith Lia.

#[global] Arguments String.append !_ _ / : simpl nomatch.

(** * Results: Go's [(T, error)] pairs *)

(** A Go function returning [(T, error)] returns either a value or an
    error; no caller in the modelled code reads the value beside a non-nil
    error. *)
Inductive result (E A : Type) : Type :=
| Ok (a : A)
| Err (e : E).
Arguments Ok {E A} a.
Arguments Err {E A} e.

Definition rbind {E A B} (m : result E A) (f : A → result E B) : result E B :=
  match m with Ok a => f a | Err e => Err e end.
Arguments rbind {E A B} !m f /.

Definition rmap {E A B} (f : A → B) (m : result E A) : result E B :=
  match m with Ok a => Ok (f a) | Err e => Err e end.
Arguments rmap {E A B} f !m /.

Declare Scope result_scope.
Delimit Scope result_scope with result.
Notation "x ← m ; k" := (rbind m (λ x, k%result))
  (at level 20, m at level 100, k at level 200, only parsing) : result_scope.
Notation "' p ← m ; k" := (rbind m (λ p, k%result))
  (at level 20, p pattern, m at level 100, k at level 200, only parsing) : result_scope.
Notation "m ;; k" := (rbind m (λ _, k%result))
  (at level 100, k at level 200, right associativity) : result_scope.
Open Scope result_scope.

#[export] Instance result_eq_dec E A `{EqDecision E, EqDecision A} :
  EqDecision (result E A).
Proof. solve_decision. Defined.

Definition is_ok {E A} (r : result E A) : bool :=
  match r with Ok _ => true | Err _ => false end.

(** [guard_err b e] is the early return [if !b { return e }]. *)
Definition guard_err {E} (b : bool) (e : E) : result E unit :=
  if b then Ok tt else Err e.

Section result_lemmas.
Context {E A B : Type}.

Lemma bind_Ok (m : result E A) (f : A → result E B) b :
  rbind m f = Ok b ↔ ∃ a, m = Ok a ∧ f a = Ok b.
Proof. destruct m; naive_solver. Qed.

Lemma bind_Err (m : result E A) (f : A → result E B) e :
  rbind m f = Err e ↔ m = Err e ∨ ∃ a, m = Ok a ∧ f a = Err e.
Proof. destruct m; naive_solver. Qed.

Lemma fmap_Ok (m : result E A) (f : A → B) b :
  rmap f m = Ok b ↔ ∃ a, m = Ok a ∧ b = f a.
Proof. destruct m; naive_solver. Qed.

Lemma guard_err_Ok (b : bool) (e : E) u : guard_err b e = Ok u ↔ b = true.
Proof. destruct b, u; naive_solver. Qed.

Lemma is_ok_true (r : result E A) : is_ok r = true ↔ ∃ a, r = Ok a.
Proof. destruct r; naive_solver. Qed.
End result_lemmas.

(** [inv_ok] takes a successful monadic computation apart into its steps. *)
Ltac inv_ok :=
  repeat match goal with
  | H : rbind _ _ = Ok _ |- _ =>
      apply bind_Ok in H; let a := fresh "a" in destruct H as (a & ? & H)
  | H : rmap _ _ = Ok _ |- _ =>
      apply fmap_Ok in H; let a := fresh "a" in destruct H as (a & ? & H)
  | H : guard_err _ _ = Ok _ |- _ => apply guard_err_Ok in H
  | H : match ?m with Ok _ => _ | Err _ => _ end = Ok _ |- _ =>
      let Hm := fresh "Hm" in destruct m eqn:Hm; [|discriminate H]
  | H : Ok _ = Ok _ |- _ => injection H as H; try subst
  | H : Err _ = Ok _ |- _ => discriminate H
  | H : Ok _ = Err _ |- _ => discriminate H
  | H : is_ok _ = true |- _ => apply is_ok_true in H; destruct H as [? H]
  end.

(** [x != nil] of an optional dependency. *)
Definition is_Some_bool {A} (o : option A) : bool :=
  match o with Some _ => true | None => false end.

(** [split_match H] cases on the scrutinee of the [match] or [if] that
    blocks [H]. *)
Ltac split_match H :=
  match type of H with
  | context [ match ?x with _ => _ end ] => destruct x eqn:?
  end.

(** ** Loops over slices and maps *)

(** [for _, x := range l { if err := f(x); err != nil { return err } }] *)
Fixpoint for_all {E A} (f : A → result E unit) (l : list A) : result E unit :=
  match l with
  | [] => Ok tt
  | x :: l => f x ;; for_all f l
  end.

Lemma for_all_Ok {E A} (f : A → result E unit) l u :
  for_all f l = Ok u ↔ Forall (λ x, f x = Ok tt) l.
Proof.
  destruct u; induction l as [|x l IH]; simpl; [naive_solver|].
  rewrite Forall_cons, <-IH. destruct (f x) as [[]|]; naive_solver.
Qed.

(** Ranging over a Go map visits its entries in an unspecified order. Every
    map loop of the modelled code computes each key's entry from that key's
    entries alone and either fails or writes it, so the order is not
    observable; [map_list_to_map] fixes one. *)
Section map_loops.
Context {E A B : Type}.

Fixpoint insert_all (f : string → A → result E B) (l : list (string * A))
    (m : gmap string B) : result E (gmap string B) :=
  match l with
  | [] => Ok m
  | (k, a) :: l => b ← f k a; insert_all f l (<[k := b]> m)
  end.

Lemma insert_all_spec f l : ∀ m m',
  NoDup l.*1 →
  insert_all f l m = Ok m' →
  (∀ k a, (k, a) ∈ l → ∃ b, f k a = Ok b ∧ m' !! k = Some b) ∧
  (∀ k, k ∉ l.*1 → m' !! k = m !! k).
Proof.
  induction l as [|[k a] l IH]; simpl; intros m m' Hnd Hok.
  - inv_ok. split; [|done]. intros ?? []%not_elem_of_nil.
  - apply NoDup_cons in Hnd as [Hk Hnd]. inv_ok.
    destruct (IH _ _ Hnd Hok) as [Hin Hout]. split.
    + intros k' a' [[= -> ->]|Hl]%elem_of_cons; [|eauto].
      eexists; split; [eassumption|]. by rewrite Hout, lookup_insert_eq.
    + intros k' [Hne Hk']%not_elem_of_cons. by rewrite Hout, lookup_insert_ne.
Qed.

Lemma insert_all_total f l : ∀ m,
  (∀ k a, (k, a) ∈ l → ∃ b, f k a = Ok b) → ∃ m', insert_all f l m = Ok m'.
Proof.
  induction l as [|[k a] l IH]; simpl; intros m Hf; [eauto|].
  destruct (Hf k a) as [b ->]; [left|]. apply IH.
  intros k' a' Hin. apply (Hf k' a'). by right.
Qed.
End map_loops.

(** [out := make(map); for k, v := range m { out[k] = f(k, v) }] *)
Definition map_range {E A B} (f : string → A → result E B) (m : gmap string A)
    : result E (gmap string B) :=
  insert_all f (map_to_list m) ∅.

Lemma map_range_Ok {E A B} (f : string → A → result E B) m m' k :
  map_range f m = Ok m' →
  match m !! k with
  | Some a => ∃ b, f k a = Ok b ∧ m' !! k = Some b
  | None => m' !! k = None
  end.
Proof.
  intros [Hin Hout]%insert_all_spec; [|apply NoDup_fst_map_to_list].
  destruct (m !! k) as [a|] eqn:Hk.
  - apply Hin. by apply elem_of_map_to_list.
  - rewrite Hout; [apply lookup_empty|].
    intros ([k' a] & -> & Ha%elem_of_map_to_list)%list_elem_of_fmap. simpl in Hk.
    congruence.
Qed.

Lemma map_range_total {E A B} (f : string → A → result E B) m :
  (∀ k a, m !! k = Some a → ∃ b, f k a = Ok b) → ∃ m', map_range f m = Ok m'.
Proof.
  intros Hf. apply insert_all_total. intros k a Hin%elem_of_map_to_list. eauto.
Qed.

(** [for k, v := range m { if err := f(k, v); err != nil { return err } }] *)
Definition map_for_all {E A} (f : string → A → result E unit) (m : gmap string A)
    : result E unit :=
  for_all (λ p, f p.1 p.2) (map_to_list m).

Lemma map_for_all_Ok {E A} (f : string → A → result E unit) m u :
  map_for_all f m = Ok u ↔ ∀ k a, m !! k = Some a → f k a = Ok tt.
Proof.
  unfold map_for_all. rewrite for_all_Ok, Forall_forall. split.
  - intros Hf k a Hk. apply (Hf (k, a)). by apply elem_of_map_to_list.
  - intros Hf [k a] Hin%elem_of_map_to_list. by apply Hf.
Qed.

(** Merging one map into another: [for k, v := range next { cur, ok :=
    merged[k]; if !ok { merged[k] = v } else { merged[k] = f(k, cur, v) } }],
    starting from a copy of [current]. *)
Definition map_merge {E A} (f : string → A → A → result E A)
    (current next : gmap string A) : result E (gmap string A) :=
  insert_all (λ k v, match current !! k with
                     | None => Ok v
                     | Some cur => f k cur v
                     end) (map_to_list next) current.

Lemma map_merge_Ok {E A} (f : string → A → A → result E A) cur next m k :
  map_merge f cur next = Ok m →
  match cur !! k, next !! k with
  | Some a, Some b => ∃ c, f k a b = Ok c ∧ m !! k = Some c
  | Some a, None => m !! k = Some a
  | None, b => m !! k = b
  end.
Proof.
  intros [Hin Hout]%insert_all_spec; [|apply NoDup_fst_map_to_list].
  assert (Hn : next !! k = None → m !! k = cur !! k).
  { intros Hk. apply Hout.
    intros ([k' a] & -> & Ha%elem_of_map_to_list)%list_elem_of_fmap. simpl in Hk.
    congruence. }
  destruct (next !! k) as [b|] eqn:Hk.
  - apply elem_of_map_to_list in Hk. destruct (Hin _ _ Hk) as (c & Hc & Hm).
    destruct (cur !! k); naive_solver.
  - rewrite Hn by done. by destruct (cur !! k).
Qed.

Create HintDb fapi.
Create Rewrite HintDb fapi.
#[export] Hint Resolve lookup_insert_eq lookup_empty : fapi.
#[export] Hint Rewrite @bind_Ok @fmap_Ok @guard_err_Ok : fapi.
