(* ===== verification/GoStrings.v ===== *)
(** Go strings as byte strings: the functions of package [strings] the
    modelled code calls, with Go's own behaviour on non-ASCII bytes, and the
    ASCII-only case folding of src/internal/canonical/ascii.go. *)
From S2P Require Import Prelude.
From stdpp Require Import options.
From Stdlib Require Export Ascii NArith.
Local Open Scope N_scope.

Abbreviation byte_code := N_of_ascii.

(** * Generic facts about Rocq strings *)

Lemma string_app_nil_r (s : string) : s +:+ "" = s.
Proof. induction s; simpl; congruence. Qed.

Lemma string_app_assoc (a b c : string) : a +:+ (b +:+ c) = (a +:+ b) +:+ c.
Proof. induction a; simpl; congruence. Qed.

Lemma string_length_app (a b : string) :
  String.length (a +:+ b) = (String.length a + String.length b)%nat.
Proof. induction a; simpl; congruence. Qed.

Lemma string_app_inj_l (a b c : string) : a +:+ b = a +:+ c → b = c.
Proof. induction a; simpl; naive_solver. Qed.

(** [s[i:]] for [i <= len(s)]. *)
Fixpoint drop_bytes (n : nat) (s : string) : string :=
  match n, s with
  | O, _ => s
  | S n, String _ s => drop_bytes n s
  | S _, EmptyString => EmptyString
  end.

Lemma drop_bytes_app a b : drop_bytes (String.length a) (a +:+ b) = b.
Proof. induction a; simpl; done. Qed.

(** [strings.HasPrefix] and [strings.HasSuffix]. *)
Fixpoint has_prefix (s p : string) : bool :=
  match p, s with
  | EmptyString, _ => true
  | String c p, String d s => if decide (c = d) then has_prefix s p else false
  | String _ _, EmptyString => false
  end.

Lemma has_prefix_spec s p : has_prefix s p = true ↔ ∃ r, s = p +:+ r.
Proof.
  revert s. induction p as [|c p IH]; intros [|d s]; simpl.
  - split; [|done]. intros _. by exists "".
  - split; [|done]. intros _. by eexists.
  - split; [done|]. intros [r [=]].
  - case_decide; subst.
    + rewrite IH. split; intros [r Hr]; exists r; congruence.
    + split; [done|]. intros [r [=]]. congruence.
Qed.

(** [strings.TrimSuffix(s, suffix)]. *)
Definition trim_suffix (s suffix : string) : string :=
  let n := (String.length s - String.length suffix)%nat in
  if bool_decide (String.length suffix ≤ String.length s)%nat &&
     bool_decide (drop_bytes n s = suffix)
  then String.substring 0 n s else s.

(** * [strings.Fields] and [strings.Join]

    [strings.Fields] splits around runs of Unicode white space. The bytes
    that start such a rune never occur inside another rune's encoding, so
    looking for the encodings byte by byte finds the same runes, invalid
    UTF-8 included. *)

(** The number of bytes of the white-space rune (unicode.IsSpace) [s] starts
    with, 0 when it starts with none. *)
Definition space_width (s : string) : nat :=
  match s with
  | EmptyString => 0
  | String c s1 =>
    let a := byte_code c in
    if (a =? 32) || ((9 <=? a) && (a <=? 13)) then 1%nat else
    match s1 with
    | EmptyString => 0
    | String d s2 =>
      let b := byte_code d in
      if (a =? 194) && ((b =? 133) || (b =? 160)) then 2%nat else
      match s2 with
      | EmptyString => 0
      | String e _ =>
        let x := byte_code e in
        if ((a =? 225) && (b =? 154) && (x =? 128)) ||
           ((a =? 226) && (b =? 128) &&
             (((128 <=? x) && (x <=? 138)) || (x =? 168) || (x =? 169) || (x =? 175))) ||
           ((a =? 226) && (b =? 129) && (x =? 159)) ||
           ((a =? 227) && (b =? 128) && (x =? 128))
        then 3%nat else 0%nat
      end
    end
  end.

Definition flush (cur : string) (rest : list string) : list string :=
  match cur with EmptyString => rest | _ => cur :: rest end.

(** [skip] bytes belong to a white-space rune already recognised; [cur] is
    the field being read. *)
Fixpoint fields_from (s : string) (skip : nat) (cur : string) : list string :=
  match s with
  | EmptyString => flush cur []
  | String c s' =>
    match skip with
    | S k => fields_from s' k cur
    | O => match space_width s with
           | O => fields_from s' 0 (cur +:+ String c "")
           | S k => flush cur (fields_from s' k "")
           end
    end
  end.

Definition fields (s : string) : list string := fields_from s 0 "".

(** [strings.Join(parts, sep)] *)
Fixpoint join (sep : string) (parts : list string) : string :=
  match parts with
  | [] => ""
  | [p] => p
  | p :: ps => p +:+ sep +:+ join sep ps
  end.

(** No suffix of [s] starts with a white-space rune. *)
Fixpoint space_free (s : string) : bool :=
  match s with
  | EmptyString => true
  | String _ s' => match space_width s with O => space_free s' | S _ => false end
  end.

(** A field of a [strings.Fields] result: not empty, and without white space. *)
Definition is_field (s : string) : bool :=
  negb (bool_decide (s = "")) && space_free s.

(** [strings.TrimSpace]: what is left between the white-space runes [s]
    starts and ends with. *)
Fixpoint trim_left (s : string) (skip : nat) : string :=
  match s with
  | EmptyString => EmptyString
  | String c s' =>
    match skip with
    | S k => trim_left s' k
    | O => match space_width s with O => s | S k => trim_left s' k end
    end
  end.

Fixpoint trim_right (s : string) : string :=
  match s with
  | EmptyString => EmptyString
  | String c s' => if bool_decide (fields s = []) then EmptyString else String c (trim_right s')
  end.

Definition TrimSpace (s : string) : string := trim_right (trim_left s 0).

(** [strings.Split(s, sep)] for a one-byte separator. *)
Fixpoint split_from (s : string) (sep : ascii) (cur : string) : list string :=
  match s with
  | EmptyString => [cur]
  | String c s =>
    if decide (c = sep) then cur :: split_from s sep "" else split_from s sep (cur +:+ String c "")
  end.

Definition Split (s : string) (sep : ascii) : list string := split_from s sep "".

(** [strings.CutPrefix]: [None] when [s] does not start with [p]. *)
Definition CutPrefix (s p : string) : option string :=
  if has_prefix s p then Some (drop_bytes (String.length p) s) else None.

Lemma CutPrefix_Some s p r : CutPrefix s p = Some r ↔ s = p +:+ r.
Proof.
  unfold CutPrefix. destruct (has_prefix s p) eqn:Hp.
  - apply has_prefix_spec in Hp as [t ->]. rewrite drop_bytes_app.
    split; [by intros [= ->]|]. intros Heq. by apply string_app_inj_l in Heq as ->.
  - split; [done|]. intros ->. assert (has_prefix (p +:+ r) p = true); [|congruence].
    apply has_prefix_spec. by exists r.
Qed.

(** [strings.ContainsAny(s, chars)] for ASCII [chars]. *)
Fixpoint contains_byte (s : string) (c : ascii) : bool :=
  match s with
  | EmptyString => false
  | String d s => if decide (d = c) then true else contains_byte s c
  end.

Fixpoint contains_any (s chars : string) : bool :=
  match chars with
  | EmptyString => false
  | String c chars => contains_byte s c || contains_any s chars
  end.

(** [strings.Contains(s, sub)] for a one-byte [sub]. *)
Definition contains_char := contains_byte.

Lemma space_width_app_space s t :
  s ≠ "" → space_width s = O → space_width (s +:+ String " " t) = O.
Proof.
  destruct s as [|c s]; [done|intros _].
  cbn [String.append space_width].
  destruct (_ || _) eqn:Hc; [discriminate|].
  destruct s as [|d s]; cbn [String.append].
  - intros _. change (byte_code " ") with 32.
    replace ((32 =? 133) || (32 =? 160)) with false by reflexivity.
    rewrite andb_false_r. destruct t as [|e t]; [done|].
    replace (32 =? 154) with false by reflexivity.
    replace (32 =? 128) with false by reflexivity.
    replace (32 =? 129) with false by reflexivity.
    by rewrite !andb_false_r.
  - destruct ((_ =? 194) && _) eqn:Hd; [discriminate|].
    destruct s as [|e s]; cbn [String.append]; [|done].
    intros _. change (byte_code " ") with 32.
    replace (32 =? 128) with false by reflexivity.
    replace (32 =? 159) with false by reflexivity.
    replace ((128 <=? 32) && (32 <=? 138)) with false by reflexivity.
    replace (32 =? 168) with false by reflexivity.
    replace (32 =? 169) with false by reflexivity.
    replace (32 =? 175) with false by reflexivity.
    by rewrite !andb_false_r.
Qed.

Lemma fields_from_field p t cur :
  space_free p = true →
  fields_from (p +:+ String " " t) 0 cur = flush (cur +:+ p) (fields t).
Proof.
  revert cur. induction p as [|c p IH]; intros cur Hp.
  - rewrite string_app_nil_r. done.
  - cbn [space_free] in Hp. destruct (space_width (String c p)) eqn:Hw; [|done].
    change (String c p +:+ String " " t) with (String c (p +:+ String " " t)).
    cbn [fields_from].
    change (String c (p +:+ String " " t)) with (String c p +:+ String " " t).
    rewrite space_width_app_space by done.
    rewrite IH by done. by rewrite <-string_app_assoc.
Qed.

Lemma fields_from_last p cur :
  space_free p = true → fields_from p 0 cur = flush (cur +:+ p) [].
Proof.
  revert cur. induction p as [|c p IH]; intros cur Hp.
  - by rewrite string_app_nil_r.
  - cbn [space_free] in Hp. cbn [fields_from].
    destruct (space_width (String c p)); [|done].
    rewrite IH by done. by rewrite <-string_app_assoc.
Qed.

Lemma is_field_spec p : is_field p = true ↔ p ≠ "" ∧ space_free p = true.
Proof.
  unfold is_field. rewrite andb_true_iff, negb_true_iff, bool_decide_eq_false.
  done.
Qed.

Lemma flush_nonempty p l : p ≠ "" → flush p l = p :: l.
Proof. by destruct p. Qed.

(** Joining fields with single spaces and splitting again gives them back. *)
Lemma fields_join parts :
  Forall (λ p, is_field p = true) parts → fields (join " " parts) = parts.
Proof.
  induction 1 as [|p ps [Hne Hfree]%is_field_spec Hps IH]; [done|].
  destruct ps as [|q ps].
  - unfold fields. simpl. rewrite fields_from_last by done. by apply flush_nonempty.
  - change (join " " (p :: q :: ps)) with (p +:+ String " " (join " " (q :: ps))).
    unfold fields. rewrite fields_from_field by done. rewrite IH.
    by apply flush_nonempty.
Qed.

(** * ASCII case folding (src/internal/canonical/ascii.go) *)

(** IsASCII *)
Fixpoint IsASCII (s : string) : bool :=
  match s with
  | EmptyString => true
  | String c s => if 128 <=? byte_code c then false else IsASCII s
  end.

(** lowerASCIIByte *)
Definition lowerASCIIByte (c : ascii) : ascii :=
  if (65 <=? byte_code c) && (byte_code c <=? 90)
  then ascii_of_N (byte_code c + 97 - 65) else c.

(** LowerASCII: the code copies only once it meets an upper-case letter; the
    bytes before it are unchanged by lowering. *)
Fixpoint LowerASCII (s : string) : string :=
  match s with
  | EmptyString => EmptyString
  | String c s => String (lowerASCIIByte c) (LowerASCII s)
  end.

(** EqualFoldASCII *)
Fixpoint equal_fold_from (a b : string) : bool :=
  match a, b with
  | String c a, String d b =>
      if decide (lowerASCIIByte c = lowerASCIIByte d) then equal_fold_from a b else false
  | _, _ => true
  end.

Definition EqualFoldASCII (a b : string) : bool :=
  if decide (String.length a = String.length b) then equal_fold_from a b else false.

Lemma EqualFoldASCII_spec a b :
  EqualFoldASCII a b = true ↔ LowerASCII a = LowerASCII b.
Proof.
  unfold EqualFoldASCII. revert b.
  induction a as [|c a IH]; intros [|d b]; try done.
  cbn [String.length equal_fold_from LowerASCII].
  specialize (IH b). destruct (decide (S _ = S _)) as [[= Hl]|Hl].
  - rewrite decide_True in IH by done. case_decide as Hc.
    + rewrite IH, Hc. split; congruence.
    + split; congruence.
  - rewrite decide_False in IH by congruence. split; [done|].
    intros [= _ Hab]. exact (proj2 IH Hab).
Qed.

Lemma LowerASCII_length s : String.length (LowerASCII s) = String.length s.
Proof. induction s; simpl; congruence. Qed.

Lemma lowerASCIIByte_idem c : lowerASCIIByte (lowerASCIIByte c) = lowerASCIIByte c.
Proof. destruct c as [[] [] [] [] [] [] [] []]; reflexivity. Qed.

Lemma lowerASCIIByte_high c : 128 <= byte_code c → lowerASCIIByte c = c.
Proof.
  intros Hc. unfold lowerASCIIByte.
  destruct (N.leb_spec (byte_code c) 90); [lia|]. by rewrite andb_false_r.
Qed.
