(* ===== verification/Json.v ===== *)
(** JSON as package [encoding/json] reads and writes it.

    A [json.RawMessage] is modelled by the JSON text's syntax tree: member
    order, duplicate members and the spelling of a number are kept, white
    space and string escapes are not. [decode_any] is [json.Unmarshal] into
    an [any]: numbers become float64 (one out of range is an error), the last
    of several members with one name wins. *)
From S2P Require Import Prelude.
From stdpp Require Import options.
Local Open Scope Z_scope.

(** * Syntax trees *)

(** A number literal: sign, digits with the point removed, power of ten. *)
Record number := Number { num_neg : bool; num_digits : Z; num_exp : Z }.

Inductive json :=
| JNull
| JBool (b : bool)
| JNum (n : number)
| JStr (s : string)
| JArr (l : list json)
| JObj (members : list (string * json)).

(** A [json.RawMessage] field: empty, text that is no JSON value, or a value. *)
Inductive RawMessage := RawNil | RawInvalid | Raw (j : json).

Section json_induction.
Context (P : json → Prop).
Hypotheses (Hnull : P JNull) (Hbool : ∀ b, P (JBool b)) (Hnum : ∀ n, P (JNum n))
  (Hstr : ∀ s, P (JStr s)) (Harr : ∀ l, Forall P l → P (JArr l))
  (Hobj : ∀ l, Forall (λ p, P p.2) l → P (JObj l)).

Fixpoint json_nested_ind (j : json) : P j :=
  match j with
  | JNull => Hnull
  | JBool b => Hbool b
  | JNum n => Hnum n
  | JStr s => Hstr s
  | JArr l => Harr l ((fix go l : Forall P l :=
      match l with
      | [] => Forall_nil_2 _
      | x :: l => Forall_cons_2 _ _ _ (json_nested_ind x) (go l)
      end) l)
  | JObj l => Hobj l ((fix go l : Forall (λ p, P p.2) l :=
      match l with
      | [] => Forall_nil_2 _
      | x :: l => Forall_cons_2 (λ p, P p.2) _ _ (json_nested_ind x.2) (go l)
      end) l)
  end.
End json_induction.

(** * float64 *)

(** A finite float64 [±mant * 2^exp]: [2^52 <= mant < 2^53], or [exp = -1074],
    or zero with [exp = 0]. *)
Record float64 := F64 { f_neg : bool; f_mant : Z; f_exp : Z }.

#[export] Instance float64_eq_dec : EqDecision float64.
Proof. solve_decision. Defined.

(** [scaled num den k] is [num/den / 2^k] as a fraction. *)
Definition scaled (num den k : Z) : Z * Z :=
  if 0 <=? k then (num, den * 2 ^ k) else (num * 2 ^ (- k), den).

(** strconv.ParseFloat(s, 64): the nearest float64, ties to even; [None] when
    the value is out of range. *)
Definition parse_float (n : number) : option float64 :=
  let m := num_digits n in
  let e := num_exp n in
  if m =? 0 then Some (F64 (num_neg n) 0 0) else
  let num := if 0 <=? e then m * 10 ^ e else m in
  let den := if 0 <=? e then 1 else 10 ^ (- e) in
  let k0 := Z.log2 num - Z.log2 den - 52 in
  let k1 := if (scaled num den k0).1 / (scaled num den k0).2 <? 2 ^ 52 then k0 - 1 else k0 in
  let k := Z.max k1 (-1074) in
  let a := (scaled num den k).1 in
  let b := (scaled num den k).2 in
  let r := a mod b in
  let q := if (b <? 2 * r) || ((b =? 2 * r) && Z.odd (a / b)) then a / b + 1 else a / b in
  let qk := if q =? 2 ^ 53 then (2 ^ 52, k + 1) else (q, k) in
  if qk.1 =? 0 then Some (F64 (num_neg n) 0 0)
  else if 971 <? qk.2 then None else Some (F64 (num_neg n) qk.1 qk.2).

(** * Decoded values *)

(** What [json.Unmarshal] stores in an [any]. A [map[string]any] is its
    member list in ascending key order, so equal maps are equal lists. *)
Inductive value :=
| VNull
| VBool (b : bool)
| VNum (f : float64)
| VStr (s : string)
| VArr (l : list value)
| VObj (members : list (string * value)).

Section value_induction.
Context (P : value → Prop).
Hypotheses (Hnull : P VNull) (Hbool : ∀ b, P (VBool b)) (Hnum : ∀ n, P (VNum n))
  (Hstr : ∀ s, P (VStr s)) (Harr : ∀ l, Forall P l → P (VArr l))
  (Hobj : ∀ l, Forall (λ p, P p.2) l → P (VObj l)).

Fixpoint value_nested_ind (v : value) : P v :=
  match v with
  | VNull => Hnull
  | VBool b => Hbool b
  | VNum n => Hnum n
  | VStr s => Hstr s
  | VArr l => Harr l ((fix go l : Forall P l :=
      match l with
      | [] => Forall_nil_2 _
      | x :: l => Forall_cons_2 _ _ _ (value_nested_ind x) (go l)
      end) l)
  | VObj l => Hobj l ((fix go l : Forall (λ p, P p.2) l :=
      match l with
      | [] => Forall_nil_2 _
      | x :: l => Forall_cons_2 (λ p, P p.2) _ _ (value_nested_ind x.2) (go l)
      end) l)
  end.
End value_induction.

Section eqb_list.
Context {A : Type} (eqb : A → A → bool).
Fixpoint eqb_list (l k : list A) : bool :=
  match l, k with
  | [], [] => true
  | x :: l, y :: k => eqb x y && eqb_list l k
  | _, _ => false
  end.

Lemma eqb_list_spec l : Forall (λ x, ∀ y, eqb x y = true ↔ x = y) l →
  ∀ k, eqb_list l k = true ↔ l = k.
Proof.
  induction 1 as [|x l Hx _ IH]; intros [|y k]; simpl; try done.
  rewrite andb_true_iff, Hx, IH. naive_solver.
Qed.
End eqb_list.

Fixpoint value_eqb (v w : value) : bool :=
  match v, w with
  | VNull, VNull => true
  | VBool b, VBool c => Bool.eqb b c
  | VNum f, VNum g => bool_decide (f = g)
  | VStr s, VStr t => bool_decide (s = t)
  | VArr l, VArr k => eqb_list value_eqb l k
  | VObj l, VObj k =>
      eqb_list (λ p q, bool_decide (p.1 = q.1) && value_eqb p.2 q.2) l k
  | _, _ => false
  end.

Lemma value_eqb_spec v w : value_eqb v w = true ↔ v = w.
Proof.
  revert w. induction v as [|b|f|s|l IH|l IH] using value_nested_ind;
    intros [|c|g|t|k|k]; simpl; try done.
  - rewrite Bool.eqb_true_iff. naive_solver.
  - rewrite bool_decide_eq_true. naive_solver.
  - rewrite bool_decide_eq_true. naive_solver.
  - rewrite eqb_list_spec by done. naive_solver.
  - rewrite eqb_list_spec; [naive_solver|].
    eapply Forall_impl; [exact IH|]. intros [a x] Hx [b y]. simpl in *.
    rewrite andb_true_iff, bool_decide_eq_true, Hx. naive_solver.
Qed.

#[export] Instance value_eq_dec : EqDecision value.
Proof.
  intros v w. destruct (value_eqb v w) eqn:H.
  - left. by apply value_eqb_spec.
  - right. intros Heq%value_eqb_spec. congruence.
Defined.

(** Storing a member: the last value of a repeated name wins. *)
Fixpoint set_member {A} (k : string) (a : A) (l : list (string * A)) : list (string * A) :=
  match l with
  | [] => [(k, a)]
  | (k', a') :: l' =>
    match String.compare k k' with
    | Eq => (k, a) :: l'
    | Lt => (k, a) :: l
    | Gt => (k', a') :: set_member k a l'
    end
  end.

Definition sort_members {A} (l : list (string * A)) : list (string * A) :=
  foldl (λ acc p, set_member p.1 p.2 acc) [] l.

Fixpoint decode_any (j : json) : option value :=
  match j with
  | JNull => Some VNull
  | JBool b => Some (VBool b)
  | JNum n => VNum <$> parse_float n
  | JStr s => Some (VStr s)
  | JArr l => VArr <$> mapM decode_any l
  | JObj l => (λ l, VObj (sort_members l)) <$>
      mapM (λ p, (λ v, (p.1, v)) <$> decode_any p.2) l
  end.

(** * [json.Unmarshal] into the Go types the code decodes to

    JSON [null] leaves a Go bool, string, slice or map at its zero value and
    is no error. *)

Definition unmarshal_any (raw : RawMessage) : option value :=
  match raw with Raw j => decode_any j | _ => None end.

Definition unmarshal_slice (raw : RawMessage) : option (list json) :=
  match raw with
  | Raw JNull => Some []
  | Raw (JArr l) => Some l
  | _ => None
  end.

Definition unmarshal_object (raw : RawMessage) : option (gmap string RawMessage) :=
  match raw with
  | Raw JNull => Some ∅
  | Raw (JObj l) => Some (foldl (λ (m : gmap string RawMessage) p, <[p.1 := Raw p.2]> m) ∅ l)
  | _ => None
  end.

Definition unmarshal_bool (raw : RawMessage) : option bool :=
  match raw with
  | Raw JNull => Some false
  | Raw (JBool b) => Some b
  | _ => None
  end.

Definition unmarshal_string (raw : RawMessage) : option string :=
  match raw with
  | Raw JNull => Some ""
  | Raw (JStr s) => Some s
  | _ => None
  end.

(** * [json.Marshal] of the Go types the code encodes *)

(** A RawMessage encodes as itself; an empty one as null. *)
Definition marshal_raw (raw : RawMessage) : option json :=
  match raw with
  | RawNil => Some JNull
  | RawInvalid => None
  | Raw j => Some j
  end.

(** A map encodes with its keys in ascending order. *)
Definition marshal_object (m : gmap string RawMessage) : option RawMessage :=
  (λ l, Raw (JObj (sort_members l))) <$>
    mapM (λ p, (λ j, (p.1, j)) <$> marshal_raw p.2) (map_to_list m).


(** The map a member list decodes to. *)
Definition members_map (m : gmap string RawMessage) (l : list (string * json))
    : gmap string RawMessage :=
  foldl (λ (m : gmap string RawMessage) p, <[p.1 := Raw p.2]> m) m l.

Lemma members_map_lookup l : ∀ m k,
  NoDup l.*1 →
  (∀ j, (k, j) ∈ l → members_map m l !! k = Some (Raw j)) ∧
  (k ∉ l.*1 → members_map m l !! k = m !! k).
Proof.
  induction l as [|[k' j'] l IH]; intros m k Hnd; simpl.
  { split; [intros ? []%not_elem_of_nil|done]. }
  apply NoDup_cons in Hnd as [Hk' Hnd].
  destruct (IH (<[k' := Raw j']> m) k Hnd) as [Hin Hout]. split.
  - intros j [[= -> ->]|Hl]%elem_of_cons; [|by apply Hin].
    rewrite Hout by done. apply lookup_insert_eq.
  - intros [Hne Hk]%not_elem_of_cons. rewrite Hout by done.
    by rewrite lookup_insert_ne.
Qed.

Lemma set_member_perm {A} k (a : A) l : k ∉ l.*1 → set_member k a l ≡ₚ (k, a) :: l.
Proof.
  induction l as [|[k' a'] l IH]; simpl; [done|].
  intros [Hne Hk]%not_elem_of_cons.
  destruct (String.compare k k') eqn:Hc; [|done|].
  - by apply String.compare_eq_iff in Hc.
  - rewrite IH by done. constructor.
Qed.

Lemma sort_members_perm_aux {A} (l : list (string * A)) : ∀ acc,
  NoDup (l ++ acc).*1 → foldl (λ acc p, set_member p.1 p.2 acc) acc l ≡ₚ l ++ acc.
Proof.
  induction l as [|[k a] l IH]; intros acc Hnd; simpl; [done|].
  rewrite fmap_app in Hnd. cbn in Hnd. apply NoDup_cons in Hnd as [Hk Hnd].
  assert (Hka : k ∉ acc.*1) by (intros ?; apply Hk; apply elem_of_app; by right).
  rewrite IH.
  - rewrite set_member_perm by done. by rewrite Permutation_middle.
  - rewrite (Permutation_app_head l (set_member_perm k a acc Hka)).
    rewrite <-Permutation_middle. cbn. rewrite fmap_app. by apply NoDup_cons.
Qed.

Lemma sort_members_perm {A} (l : list (string * A)) :
  NoDup l.*1 → sort_members l ≡ₚ l.
Proof.
  intros Hnd. unfold sort_members.
  rewrite sort_members_perm_aux; rewrite app_nil_r; done.
Qed.

(** A valid RawMessage. *)
Definition raw_ok (raw : RawMessage) : Prop := ∃ j, raw = Raw j.

(** What a map of values encodes to: one member per entry. *)
Lemma marshal_object_members m :
  map_Forall (λ _, raw_ok) m →
  ∃ l, marshal_object m = Some (Raw (JObj l)) ∧ NoDup l.*1 ∧
    ∀ k j, (k, j) ∈ l ↔ m !! k = Some (Raw j).
Proof.
  intros Hok. unfold marshal_object.
  set (f := λ p : string * RawMessage, (λ j, (p.1, j)) <$> marshal_raw p.2).
  assert (Hl : ∃ l, mapM f (map_to_list m) = Some l ∧
    (λ p, (p.1, Raw p.2)) <$> l = map_to_list m).
  { assert (Hall : Forall (λ p, raw_ok p.2) (map_to_list m)).
    { apply Forall_forall. intros [k r] Hin%elem_of_map_to_list. by apply (Hok k). }
    induction Hall as [|[k r] l [j Hj] _ (l' & Hl' & Hf)]; [by exists []|].
    simpl in Hj. subst r. exists ((k, j) :: l'). cbn. rewrite Hl'. cbn.
    split; [done|]. by rewrite Hf. }
  destruct Hl as (l & -> & Hl). exists (sort_members l). split; [done|].
  assert (Hkeys : l.*1 = (map_to_list m).*1).
  { rewrite <-Hl, <-list_fmap_compose. done. }
  assert (Hnd : NoDup l.*1) by (rewrite Hkeys; apply NoDup_fst_map_to_list).
  assert (Hperm := sort_members_perm l Hnd).
  split; [by rewrite (fmap_Permutation fst _ _ Hperm)|].
  intros k j. rewrite Hperm, <-elem_of_map_to_list, <-Hl. split.
  - intros Hin. by apply (list_elem_of_fmap_2 (λ p : string * json, (p.1, Raw p.2)) _ (k, j)).
  - by intros ([k' j'] & [= -> ->] & Hin)%list_elem_of_fmap.
Qed.

(** Encoding a map of values and decoding it gives the map back. *)
Lemma marshal_object_roundtrip m :
  map_Forall (λ _, raw_ok) m →
  ∃ raw, marshal_object m = Some raw ∧ unmarshal_object raw = Some m.
Proof.
  intros Hok. destruct (marshal_object_members m Hok) as (l & Hl & Hnd & Hin).
  exists (Raw (JObj l)). split; [done|]. simpl. f_equal. apply map_eq. intros k.
  fold (members_map ∅ l). destruct (members_map_lookup l ∅ k Hnd) as [Hsome Hnone].
  destruct (m !! k) as [r|] eqn:Hk.
  - destruct (Hok _ _ Hk) as [j ->]. by apply Hsome, Hin.
  - rewrite Hnone; [done|]. intros ([k' j] & -> & Hj%Hin)%list_elem_of_fmap. simpl in Hk.
    congruence.
Qed.
