(* ===== verification/Policy.v ===== *)
(** OpenID Federation metadata policies: src/internal/federation/policy.go and
    policy_space_delimited.go, and the merge over a Trust Chain in
    src/federation/resolver.go.

    Every failure of that code is a policy error for its caller
    ([errors.Is(err, ErrPolicyError)]), which makes the whole Trust Chain
    invalid, so the model has one error. A Go map is a [gmap]; a nil map is
    the empty one. *)
From S2P Require Import Prelude GoStrings Json.
From stdpp Require Import options.

Inductive policy_error := ErrPolicyError.

Abbreviation presult := (result policy_error).
Abbreviation PolicyOperators := (gmap string RawMessage).
Abbreviation MetadataPolicy := (gmap string (gmap string PolicyOperators)).

Definition policyError {A} : presult A := Err ErrPolicyError.

Definition or_policyError {A} (o : option A) : presult A :=
  match o with Some a => Ok a | None => policyError end.

(** * Operators *)

Inductive operator :=
| OpValue | OpAdd | OpDefault | OpOneOf | OpSubsetOf | OpSupersetOf | OpEssential.

#[export] Instance operator_eq_dec : EqDecision operator.
Proof. solve_decision. Defined.

(** The operator names' constants. *)
Definition op_name (o : operator) : string :=
  match o with
  | OpValue => "value"
  | OpAdd => "add"
  | OpDefault => "default"
  | OpOneOf => "one_of"
  | OpSubsetOf => "subset_of"
  | OpSupersetOf => "superset_of"
  | OpEssential => "essential"
  end.

Definition operatorApplicationOrder : list operator :=
  [OpValue; OpAdd; OpDefault; OpOneOf; OpSubsetOf; OpSupersetOf; OpEssential].

(** The standard operator a name stands for: the [switch name] of
    mergeOperatorValue and isStandardOperator. *)
Definition standard_operator (name : string) : option operator :=
  snd <$> list_find (λ o, op_name o = name) operatorApplicationOrder.

Definition isStandardOperator (name : string) : bool :=
  bool_decide (is_Some (standard_operator name)).

(** critSet *)
Definition newCritSet (lists : list (list string)) : gset string :=
  list_to_set (concat lists).

(** * Canonical values and value sets *)

Fixpoint normalizeZero (v : value) : value :=
  match v with
  | VNum f => if (f_mant f =? 0)%Z then VNum (F64 false 0 0) else v
  | VArr l => VArr (normalizeZero <$> l)
  | VObj l => VObj ((λ p, (p.1, normalizeZero p.2)) <$> l)
  | _ => v
  end.

(** canonicalJSON: the code compares the texts encoding/json writes for the
    normalized decoded values; two such texts are equal exactly when the
    values are, so the model compares the values. *)
Definition canonicalJSON (raw : RawMessage) : presult value :=
  v ← or_policyError (unmarshal_any raw); Ok (normalizeZero v).

Definition jsonEqual (a b : RawMessage) : presult bool :=
  ak ← canonicalJSON a; bk ← canonicalJSON b; Ok (bool_decide (ak = bk)).

Definition isJSONNull (raw : RawMessage) : bool :=
  bool_decide (unmarshal_any raw = Some VNull).

Definition valueSet_add (s : list value) (v : json) : presult (list value * bool) :=
  key ← canonicalJSON (Raw v);
  Ok (if decide (key ∈ s) then (s, false) else (key :: s, true)).

Definition valueSet_contains (s : list value) (v : json) : presult bool :=
  key ← canonicalJSON (Raw v); Ok (bool_decide (key ∈ s)).

Fixpoint valueSet_add_all (s : list value) (values : list json) : presult (list value) :=
  match values with
  | [] => Ok s
  | v :: values => r ← valueSet_add s v; valueSet_add_all r.1 values
  end.

Definition newValueSet (values : list json) : presult (list value) :=
  valueSet_add_all [] values.

Definition contains (arr : list json) (target : RawMessage) : presult bool :=
  s ← newValueSet arr; key ← canonicalJSON target; Ok (bool_decide (key ∈ s)).

Definition decodeArray (raw : RawMessage) : presult (list json) :=
  match raw with
  | RawNil => Ok []
  | _ => or_policyError (unmarshal_slice raw)
  end.

(** The loop of unionArrays: the elements of [b] not already seen. *)
Fixpoint union_new (seen : list value) (b : list json) : presult (list json) :=
  match b with
  | [] => Ok []
  | v :: b =>
      r ← valueSet_add seen v;
      rest ← union_new r.1 b;
      Ok (if r.2 then v :: rest else rest)
  end.

Definition unionArrays (a b : RawMessage) : presult RawMessage :=
  aArr ← decodeArray a;
  bArr ← decodeArray b;
  seen ← newValueSet aArr;
  new ← union_new seen bArr;
  Ok (Raw (JArr (aArr ++ new))).

(** The loop of intersectArrays: the elements of [a] in the set. *)
Fixpoint intersect_keep (bSet : list value) (a : list json) : presult (list json) :=
  match a with
  | [] => Ok []
  | v :: a =>
      ok ← valueSet_contains bSet v;
      rest ← intersect_keep bSet a;
      Ok (if (ok : bool) then v :: rest else rest)
  end.

Definition intersectArrays (a b : RawMessage) : presult RawMessage :=
  aArr ← decodeArray a;
  bArr ← decodeArray b;
  bSet ← newValueSet bArr;
  out ← intersect_keep bSet aArr;
  Ok (Raw (JArr out)).

(** * Validation of one parameter's operators *)

Definition policyValues (raw : RawMessage) : presult (list json) :=
  if isJSONNull raw then Ok [] else decodeArray raw.

Definition requireSubset (ops : PolicyOperators) (sub super : operator) : presult unit :=
  match ops !! op_name sub, ops !! op_name super with
  | Some subRaw, Some superRaw =>
      subValues ← policyValues subRaw;
      superValues ← policyValues superRaw;
      superSet ← newValueSet superValues;
      for_all (λ v, found ← valueSet_contains superSet v;
                    guard_err (found : bool) ErrPolicyError) subValues
  | _, _ => Ok tt
  end.

(** [if raw, ok := ops[op]; ok { check(raw) }] *)
Definition if_present (ops : PolicyOperators) (op : operator)
    (check : RawMessage → presult unit) : presult unit :=
  match ops !! op_name op with Some raw => check raw | None => Ok tt end.

Definition validateOperandTypes (ops : PolicyOperators) : presult unit :=
  for_all (λ op, if_present ops op (λ raw, decodeArray raw ;; Ok tt))
    [OpAdd; OpOneOf; OpSubsetOf; OpSupersetOf] ;;
  if_present ops OpEssential (λ raw, or_policyError (unmarshal_bool raw) ;; Ok tt) ;;
  if_present ops OpDefault (λ raw, guard_err (negb (isJSONNull raw)) ErrPolicyError).

Definition validateNullValueCombinations (ops : PolicyOperators) : presult unit :=
  if_present ops OpDefault (λ _, policyError) ;;
  if_present ops OpAdd (λ _, policyError) ;;
  if_present ops OpEssential (λ raw,
    guard_err (negb (default false (unmarshal_bool raw))) ErrPolicyError).

Definition validateValueCombinations (valueRaw : RawMessage) (ops : PolicyOperators)
    : presult unit :=
  (if isJSONNull valueRaw then validateNullValueCombinations ops else Ok tt) ;;
  if_present ops OpOneOf (λ raw,
    found ← contains (match decodeArray raw with Ok l => l | Err _ => [] end) valueRaw;
    guard_err (found : bool) ErrPolicyError) ;;
  for_all (λ p, requireSubset ops p.1 p.2)
    [(OpAdd, OpValue); (OpValue, OpSubsetOf); (OpSupersetOf, OpValue)].

(** The closing loop of validateCombination and applyClaimPolicy: a
    non-standard operator listed in crit is an error. *)
Definition check_critical (ops : PolicyOperators) (crit : gset string) : presult unit :=
  map_for_all (λ name _,
    guard_err (isStandardOperator name || bool_decide (name ∉ crit)) ErrPolicyError) ops.

Definition validateCombination (ops : PolicyOperators) (crit : gset string) : presult unit :=
  validateOperandTypes ops ;;
  if_present ops OpOneOf (λ _,
    for_all (λ other, if_present ops other (λ _, policyError))
      [OpAdd; OpSubsetOf; OpSupersetOf]) ;;
  if_present ops OpValue (λ valueRaw, validateValueCombinations valueRaw ops) ;;
  requireSubset ops OpAdd OpSubsetOf ;;
  requireSubset ops OpSupersetOf OpSubsetOf ;;
  check_critical ops crit.

(** * Merging *)

Definition mergeOperatorValue (name : string) (current next : RawMessage)
    : presult RawMessage :=
  let equal_or_error :=
    equal ← jsonEqual current next;
    if (equal : bool) then Ok current else policyError in
  match standard_operator name with
  | Some OpValue | Some OpDefault => equal_or_error
  | Some OpAdd | Some OpSupersetOf => unionArrays current next
  | Some OpOneOf =>
      r ← intersectArrays current next;
      match unmarshal_slice r with
      | None | Some [] => policyError
      | Some _ => Ok r
      end
  | Some OpSubsetOf => intersectArrays current next
  | Some OpEssential =>
      a ← or_policyError (unmarshal_bool current);
      b ← or_policyError (unmarshal_bool next);
      Ok (Raw (JBool (a || b)))
  | None => equal_or_error
  end.

Definition mergeOperators (current next : PolicyOperators) (crit : gset string)
    : presult PolicyOperators :=
  merged ← map_merge mergeOperatorValue current next;
  validateCombination merged crit ;;
  Ok merged.

(** * Space-delimited parameters (policy_space_delimited.go) *)

Definition spaceDelimitedParameters (claim : string) : bool :=
  bool_decide (claim = "scope").

Definition splitSpaceDelimited (raw : RawMessage) : RawMessage :=
  match unmarshal_any raw with
  | Some (VStr s) => Raw (JArr (JStr <$> fields s))
  | _ => raw
  end.

Definition split_option (j : json) : json :=
  match splitSpaceDelimited (Raw j) with Raw k => k | _ => j end.

Definition splitOneOfOptions (operand : RawMessage) : RawMessage :=
  match unmarshal_slice operand with
  | None => operand
  | Some [] => match operand with Raw JNull => Raw JNull | _ => Raw (JArr []) end
  | Some options => Raw (JArr (split_option <$> options))
  end.

Definition split_operand (name : string) (operand : RawMessage) : RawMessage :=
  match standard_operator name with
  | Some OpValue | Some OpDefault => splitSpaceDelimited operand
  | Some OpOneOf => splitOneOfOptions operand
  | _ => operand
  end.

Definition splitSpaceDelimitedOperators (ops : PolicyOperators) : PolicyOperators :=
  map_imap (λ name operand, Some (split_operand name operand)) ops.

(** [s == "" || strings.ContainsAny(s, " \t\n\r")] *)
Definition unrepresentable (s : string) : bool :=
  bool_decide (s = "") ||
  contains_any s (String "032"%char (String "009"%char (String "010"%char (String "013"%char "")))).

Fixpoint space_delimited_parts (values : list json) : presult (list string) :=
  match values with
  | [] => Ok []
  | v :: values =>
      s ← or_policyError (unmarshal_string (Raw v));
      guard_err (negb (unrepresentable s)) ErrPolicyError ;;
      rest ← space_delimited_parts values;
      Ok (s :: rest)
  end.

Definition joinSpaceDelimited (raw : RawMessage) : presult RawMessage :=
  match unmarshal_slice raw with
  | None => Ok raw
  | Some values =>
      parts ← space_delimited_parts values;
      Ok (Raw (JStr (join " " parts)))
  end.

Definition parameterOperators (claim : string) (ops : PolicyOperators) : PolicyOperators :=
  if spaceDelimitedParameters claim then splitSpaceDelimitedOperators ops else ops.

(** * Whole policies *)

Definition validatePolicy (policy : MetadataPolicy) (crit : gset string) : presult unit :=
  map_for_all (λ _ params,
    map_for_all (λ claim ops, validateCombination (parameterOperators claim ops) crit)
      params) policy.

Definition ValidatePolicy (policy : MetadataPolicy) (crit : list string) : presult unit :=
  validatePolicy policy (newCritSet [crit]).

Definition merge_params (crit : gset string)
    (currentParams nextParams : gmap string PolicyOperators)
    : presult (gmap string PolicyOperators) :=
  map_merge (λ claim currentOps nextOps,
    mergeOperators (parameterOperators claim currentOps)
      (parameterOperators claim nextOps) crit) currentParams nextParams.

Definition MergePolicy (current : MetadataPolicy) (currentCrit : list string)
    (next : MetadataPolicy) (nextCrit : list string) : presult MetadataPolicy :=
  let crit := newCritSet [currentCrit; nextCrit] in
  validatePolicy next crit ;;
  if decide (current = ∅) then Ok next else
  if decide (next = ∅) then Ok current else
  map_merge (λ _ currentParams nextParams, merge_params crit currentParams nextParams)
    current next.

(** * Applying *)

(** The parameter's value and whether it is present. *)
Abbreviation pvalue := (RawMessage * bool)%type.

Definition applyOneOfOperator (operand : RawMessage) (v : pvalue) : presult pvalue :=
  if v.2 then
    options ← or_policyError (unmarshal_slice operand);
    ok ← contains options v.1;
    if (ok : bool) then Ok v else policyError
  else Ok v.

Definition applySubsetOfOperator (operand : RawMessage) (v : pvalue) : presult pvalue :=
  if v.2 then r ← intersectArrays v.1 operand; Ok (r, true) else Ok v.

Definition applySupersetOfOperator (operand : RawMessage) (v : pvalue) : presult pvalue :=
  if v.2 then
    required ← or_policyError (unmarshal_slice operand);
    have ← or_policyError (unmarshal_slice v.1);
    haveSet ← newValueSet have;
    for_all (λ want, ok ← valueSet_contains haveSet want;
                     guard_err (ok : bool) ErrPolicyError) required ;;
    Ok v
  else Ok v.

Definition applyEssentialOperator (operand : RawMessage) (v : pvalue) : presult pvalue :=
  essential ← or_policyError (unmarshal_bool operand);
  if (essential : bool) && negb v.2 then policyError else Ok v.

Definition applyValueOperator (operand : RawMessage) : presult pvalue :=
  v ← or_policyError (unmarshal_any operand);
  Ok (if decide (v = VNull) then (RawNil, false) else (operand, true)).

Definition applyAddOperator (operand : RawMessage) (v : pvalue) : presult pvalue :=
  merged ← unionArrays v.1 operand; Ok (merged, true).

Definition applyDefaultOperator (operand : RawMessage) (v : pvalue) : presult pvalue :=
  Ok (if v.2 then v else (operand, true)).

Definition applyOperator (op : operator) (operand : RawMessage) (v : pvalue)
    : presult pvalue :=
  match op with
  | OpValue => applyValueOperator operand
  | OpAdd => applyAddOperator operand v
  | OpDefault => applyDefaultOperator operand v
  | OpOneOf => applyOneOfOperator operand v
  | OpSubsetOf => applySubsetOfOperator operand v
  | OpSupersetOf => applySupersetOfOperator operand v
  | OpEssential => applyEssentialOperator operand v
  end.

(** The application loop of applyClaimPolicy over the operators left. *)
Fixpoint apply_in_order (order : list operator) (ops : PolicyOperators) (v : pvalue)
    : presult pvalue :=
  match order with
  | [] => Ok v
  | op :: order =>
      v' ← match ops !! op_name op with
           | None => Ok v
           | Some raw => applyOperator op raw v
           end;
      apply_in_order order ops v'
  end.

Definition applyClaimPolicy (ops : PolicyOperators) (crit : gset string) (v : pvalue)
    : presult pvalue :=
  v' ← apply_in_order operatorApplicationOrder ops v;
  check_critical ops crit ;;
  Ok v'.

Definition applyParameterPolicy (claim : string) (ops : PolicyOperators)
    (crit : gset string) (v : pvalue) : presult pvalue :=
  if negb (spaceDelimitedParameters claim) || bool_decide (ops = ∅) then
    applyClaimPolicy ops crit v
  else
    let v := if v.2 then (splitSpaceDelimited v.1, true) else v in
    v' ← applyClaimPolicy (splitSpaceDelimitedOperators ops) crit v;
    if v'.2 then r ← joinSpaceDelimited v'.1; Ok (r, true) else Ok v'.

(** The value applyEntityTypePolicy starts from: a null parameter counts as
    absent. *)
Definition current_value (current : gmap string RawMessage) (claim : string) : pvalue :=
  match current !! claim with
  | Some value => if isJSONNull value then (RawNil, false) else (value, true)
  | None => (RawNil, false)
  end.

Definition applyEntityTypePolicy (params : gmap string PolicyOperators)
    (crit : gset string) (current : gmap string RawMessage)
    : presult (gmap string RawMessage) :=
  let claims : gmap string unit :=
    (λ _, tt) <$> params ∪ ((λ _, ∅) <$> current) in
  resolved ← map_range (λ claim _,
    applyParameterPolicy claim (default ∅ (params !! claim)) crit
      (current_value current claim)) claims;
  Ok (omap (λ v : pvalue, if v.2 then Some v.1 else None) resolved).

Definition ApplyPolicy (policy : MetadataPolicy) (critNames : list string)
    (metadata : gmap string RawMessage) : presult (gmap string RawMessage) :=
  let crit := newCritSet [critNames] in
  validatePolicy policy crit ;;
  map_range (λ entityType raw,
    current ← or_policyError (unmarshal_object raw);
    result ← applyEntityTypePolicy (default ∅ (policy !! entityType)) crit current;
    or_policyError (marshal_object result)) metadata.

(** PermittedStrings: the permitted values, and whether the policy constrains
    the parameter at all. *)
Definition PermittedStrings (ops : PolicyOperators) : presult (list string * bool) :=
  let one_of :=
    match ops !! op_name OpOneOf with
    | None => Ok ([], false)
    | Some raw =>
        options ← decodeArray raw;
        Ok (omap (λ option, unmarshal_string (Raw option)) options, true)
    end in
  match ops !! op_name OpValue with
  | Some raw =>
      if isJSONNull raw then one_of else
      match unmarshal_string raw with
      | None => Ok ([], true)
      | Some v => Ok ([v], true)
      end
  | None => one_of
  end.

(** * Along a Trust Chain (src/federation/resolver.go) *)

Record subordinatePolicy := SubordinatePolicy {
  sp_policy : MetadataPolicy;
  sp_crit : list string;
}.

Fixpoint mergeCrit_from (seen : gset string) (b : list string) : list string :=
  match b with
  | [] => []
  | s :: b => if decide (s ∈ seen) then mergeCrit_from seen b
              else s :: mergeCrit_from ({[s]} ∪ seen) b
  end.

Definition mergeCrit (a b : list string) : list string :=
  a ++ mergeCrit_from (list_to_set a) b.

(** The loop walks the bottom-up list from its end, the most superior entity. *)
Fixpoint resolveMetadataPolicies (policies : list subordinatePolicy)
    : presult (MetadataPolicy * list string) :=
  match policies with
  | [] => Ok (∅, [])
  | p :: above =>
      mc ← resolveMetadataPolicies above;
      merged ← MergePolicy mc.1 mc.2 (sp_policy p) (sp_crit p);
      Ok (merged, mergeCrit mc.2 (sp_crit p))
  end.

Definition resolveMetadata (policies : list subordinatePolicy)
    (leafMetadata : gmap string RawMessage)
    : presult (gmap string RawMessage * MetadataPolicy) :=
  mc ← resolveMetadataPolicies policies;
  resolved ← ApplyPolicy mc.1 mc.2 leafMetadata;
  Ok (resolved, mc.1).

(** applySuperiorMetadata *)
Definition applySuperiorMetadata (subject superior : gmap string RawMessage)
    : presult (gmap string RawMessage) :=
  if decide (superior = ∅) then Ok subject else
  map_range (λ entityType raw,
    match superior !! entityType with
    | None => Ok raw
    | Some override =>
        params ← or_policyError (unmarshal_object raw);
        overrides ← or_policyError (unmarshal_object override);
        or_policyError (marshal_object (overrides ∪ params))
    end) subject.
