(* ===== verification/PolicyTheorems.v ===== *)
(** What metadata policies guarantee: the meaning of each operator, that
    validation, merging and application implement it, that no superior's
    policy can be repealed, that applying a policy twice changes nothing, that
    space-delimited values survive their array form, and the values a policy
    permits a parameter. *)
From S2P Require Import Prelude GoStrings Json Policy.
From stdpp Require Import options.

(** * Sets of JSON values *)

(** [x] is the canonical form of an element of [l]. *)
Definition canon_in (x : value) (l : list json) : Prop :=
  ∃ j, j ∈ l ∧ canonicalJSON (Raw j) = Ok x.

(** The array [a]'s values are all among the array [b]'s. *)
Definition value_subset (a b : RawMessage) : Prop :=
  ∃ la lb, decodeArray a = Ok la ∧ decodeArray b = Ok lb ∧
    ∀ x, canon_in x la → canon_in x lb.

(** The value [v] is one of the array [b]'s. *)
Definition value_among (v b : RawMessage) : Prop :=
  ∃ x lb, canonicalJSON v = Ok x ∧ decodeArray b = Ok lb ∧ canon_in x lb.

(** What each operator demands of a resolved parameter (OpenID Federation 1.0
    section 6.1.3.1). *)
Definition op_ok (o : operator) (operand : RawMessage) (v : pvalue) : Prop :=
  match o with
  | OpValue =>
      if isJSONNull operand then v.2 = false
      else v.2 = true ∧ ∃ x, canonicalJSON operand = Ok x ∧ canonicalJSON v.1 = Ok x
  | OpAdd => v.2 = true ∧ value_subset operand v.1
  | OpDefault => v.2 = true
  | OpOneOf => v.2 = true → value_among v.1 operand
  | OpSubsetOf => v.2 = true → value_subset v.1 operand
  | OpSupersetOf => v.2 = true → value_subset operand v.1
  | OpEssential => unmarshal_bool operand = Some true → v.2 = true
  end.

(** A parameter value meets every standard operator of [ops]. *)
Definition satisfies (ops : PolicyOperators) (v : pvalue) : Prop :=
  ∀ o operand, ops !! op_name o = Some operand → op_ok o operand v.

Lemma canon_in_nil x : ¬ canon_in x [].
Proof. intros (j & []%not_elem_of_nil & _). Qed.

Lemma canon_in_app x l k : canon_in x (l ++ k) ↔ canon_in x l ∨ canon_in x k.
Proof. unfold canon_in. setoid_rewrite elem_of_app. naive_solver. Qed.

Lemma canon_in_cons x y j l :
  canonicalJSON (Raw j) = Ok y → canon_in x (j :: l) ↔ x = y ∨ canon_in x l.
Proof.
  intros Hj. unfold canon_in. setoid_rewrite elem_of_cons. split.
  - intros (k & [->|Hk] & Hx); [left; congruence|right; eauto].
  - intros [->|(k & Hk & Hx)]; [exists j; auto|exists k; auto].
Qed.

Lemma value_subset_trans a b c : value_subset a b → value_subset b c → value_subset a c.
Proof.
  intros (la & lb & Ha & Hb & Hab) (lb' & lc & Hb' & Hc & Hbc).
  assert (lb' = lb) as -> by congruence. exists la, lc. auto.
Qed.

Lemma or_policyError_Ok {A} (o : option A) a : or_policyError o = Ok a ↔ o = Some a.
Proof. destruct o; naive_solver. Qed.

Ltac inv_policy :=
  repeat (inv_ok; try match goal with
  | H : or_policyError _ = Ok _ |- _ => apply or_policyError_Ok in H
  | H : policyError = Ok _ |- _ => discriminate H
  | H : (if ?b then Ok _ else policyError) = Ok _ |- _ =>
      let Hb := fresh "Hb" in destruct b eqn:Hb; [|discriminate H]
  | H : unit |- _ => destruct H
  end).

Lemma valueSet_add_Ok s v r :
  valueSet_add s v = Ok r →
  ∃ x, canonicalJSON (Raw v) = Ok x ∧ (∀ y, y ∈ r.1 ↔ y ∈ s ∨ y = x) ∧
       (r.2 = true ↔ x ∉ s).
Proof.
  unfold valueSet_add. intros. inv_policy. eexists; split; [eassumption|].
  case_decide; simpl; [set_solver|]. setoid_rewrite elem_of_cons. naive_solver.
Qed.

Lemma valueSet_add_all_Ok values : ∀ s s',
  valueSet_add_all s values = Ok s' →
  ∀ y, y ∈ s' ↔ y ∈ s ∨ canon_in y values.
Proof.
  induction values as [|v values IH]; simpl; intros s s' H y; inv_policy.
  - assert (Hn := canon_in_nil y). naive_solver.
  - destruct (valueSet_add_Ok _ _ _ H0) as (x & Hx & Hr & _).
    rewrite (IH _ _ H y), Hr, (canon_in_cons _ _ _ _ Hx). naive_solver.
Qed.

Lemma newValueSet_Ok values s :
  newValueSet values = Ok s → ∀ y, y ∈ s ↔ canon_in y values.
Proof.
  intros H y. rewrite (valueSet_add_all_Ok _ _ _ H y).
  rewrite elem_of_nil. naive_solver.
Qed.

Lemma valueSet_contains_Ok s v b :
  valueSet_contains s v = Ok b →
  ∃ x, canonicalJSON (Raw v) = Ok x ∧ (b = true ↔ x ∈ s).
Proof.
  unfold valueSet_contains. intros. inv_policy. eexists; split; [eassumption|].
  apply bool_decide_eq_true.
Qed.

Lemma contains_Ok arr target b :
  contains arr target = Ok b →
  ∃ x, canonicalJSON target = Ok x ∧ (b = true ↔ canon_in x arr).
Proof.
  unfold contains. intros. inv_policy. eexists; split; [eassumption|].
  rewrite bool_decide_eq_true. by apply newValueSet_Ok.
Qed.

Lemma union_new_Ok b : ∀ seen new,
  union_new seen b = Ok new →
  (∀ x, x ∈ seen ∨ canon_in x new ↔ x ∈ seen ∨ canon_in x b) ∧
  ((∀ x, canon_in x b → x ∈ seen) → new = []).
Proof.
  induction b as [|v b IH]; simpl; intros seen new H; inv_policy; [done|].
  destruct (valueSet_add_Ok _ _ _ H0) as (y & Hy & Hr & Hadd).
  destruct (IH _ _ H1) as [Hin Hnew]. split.
  - intros x. rewrite (canon_in_cons x y v b Hy). specialize (Hin x).
    rewrite Hr in Hin. destruct a.2.
    + rewrite (canon_in_cons x y v a0 Hy). naive_solver.
    + assert (y ∈ seen) by (destruct (decide (y ∈ seen)); naive_solver).
      naive_solver.
  - intros Hsub. assert (Hys : y ∈ seen).
    { apply Hsub. rewrite (canon_in_cons y y v b Hy). by left. }
    destruct a.2; [naive_solver|]. apply Hnew. intros x Hx. apply Hr. left.
    apply Hsub. rewrite (canon_in_cons x y v b Hy). by right.
Qed.

Lemma unionArrays_Ok a b r :
  unionArrays a b = Ok r →
  ∃ la lb new, decodeArray a = Ok la ∧ decodeArray b = Ok lb ∧
    r = Raw (JArr (la ++ new)) ∧
    (∀ x, canon_in x (la ++ new) ↔ canon_in x la ∨ canon_in x lb) ∧
    ((∀ x, canon_in x lb → canon_in x la) → new = []).
Proof.
  unfold unionArrays. intros. inv_policy.
  destruct (union_new_Ok _ _ _ H3) as [Hin Hnew].
  assert (Hs := newValueSet_Ok _ _ H2).
  eexists _, _, _. split_and!; try eassumption; [done| |].
  - intros x. rewrite canon_in_app, <-!Hs. apply Hin.
  - intros Hsub. apply Hnew. intros x Hx. apply Hs. auto.
Qed.

Lemma intersect_keep_Ok s a : ∀ out,
  intersect_keep s a = Ok out →
  (∀ x, canon_in x out ↔ canon_in x a ∧ x ∈ s) ∧
  ((∀ x, canon_in x a → x ∈ s) → out = a).
Proof.
  induction a as [|v a IH]; simpl; intros out H; inv_policy.
  - split; [|done]. intros x. assert (Hn := canon_in_nil x). naive_solver.
  - destruct (valueSet_contains_Ok _ _ _ H0) as (y & Hy & Hb).
    destruct (IH _ H1) as [Hin Hall]. split.
    + intros x. rewrite (canon_in_cons x y v a Hy). specialize (Hin x).
      destruct a0.
      * rewrite (canon_in_cons x y v a1 Hy). naive_solver.
      * assert (y ∉ s) by (intros ?; naive_solver). naive_solver.
    + intros Hsub. assert (Hys : y ∈ s).
      { apply Hsub. rewrite (canon_in_cons y y v a Hy). by left. }
      destruct a0; [|naive_solver]. f_equal. apply Hall. intros x Hx. apply Hsub.
      rewrite (canon_in_cons x y v a Hy). by right.
Qed.

Lemma intersectArrays_Ok a b r :
  intersectArrays a b = Ok r →
  ∃ la lb out, decodeArray a = Ok la ∧ decodeArray b = Ok lb ∧
    r = Raw (JArr out) ∧
    (∀ x, canon_in x out ↔ canon_in x la ∧ canon_in x lb) ∧
    ((∀ x, canon_in x la → canon_in x lb) → out = la).
Proof.
  unfold intersectArrays. intros. inv_policy.
  destruct (intersect_keep_Ok _ _ _ H3) as [Hin Hall].
  assert (Hs := newValueSet_Ok _ _ H2).
  eexists _, _, _. split_and!; try eassumption; [done| |].
  - intros x. rewrite <-Hs. apply Hin.
  - intros Hsub. apply Hall. intros x Hx. apply Hs. auto.
Qed.

Lemma decode_any_null j : decode_any j = Some VNull ↔ j = JNull.
Proof.
  destruct j; simpl; split; try done.
  - by destruct (parse_float n).
  - by destruct (mapM decode_any l).
  - by destruct (mapM _ members).
Qed.

Lemma isJSONNull_spec raw : isJSONNull raw = true ↔ raw = Raw JNull.
Proof.
  unfold isJSONNull. rewrite bool_decide_eq_true.
  destruct raw as [| |j]; simpl; [done..|]. rewrite decode_any_null. naive_solver.
Qed.

Lemma isJSONNull_canonical raw :
  isJSONNull raw = true ↔ canonicalJSON raw = Ok VNull.
Proof.
  rewrite isJSONNull_spec. split; [by intros ->|].
  unfold canonicalJSON. intros. inv_policy.
  destruct raw as [| |j]; simpl in *; [done..|]. f_equal. apply decode_any_null.
  rewrite H0. destruct a; simpl in *; repeat case_match; simplify_eq; done.
Qed.

Lemma policyValues_decodeArray raw : policyValues raw = decodeArray raw.
Proof.
  unfold policyValues. destruct (isJSONNull raw) eqn:H; [|done].
  by apply isJSONNull_spec in H as ->.
Qed.

Lemma requireSubset_Ok ops sub super a b u :
  requireSubset ops sub super = Ok u →
  ops !! op_name sub = Some a → ops !! op_name super = Some b → value_subset a b.
Proof.
  unfold requireSubset. intros H Ha Hb.
  rewrite Ha, Hb, !policyValues_decodeArray in H.
  inv_policy. apply for_all_Ok in H. rewrite Forall_forall in H.
  eexists _, _. split_and!; try eassumption.
  intros x (j & Hj & Hx). specialize (H j Hj). simpl in H. inv_policy.
  destruct (valueSet_contains_Ok _ _ _ H3) as (y & Hy & Hin).
  assert (y = x) as -> by congruence. by apply (newValueSet_Ok _ _ H2), Hin.
Qed.

(** * What validation guarantees *)

Record valid_ops (ops : PolicyOperators) : Prop := {
  valid_one_of : ∀ a, ops !! op_name OpOneOf = Some a →
    ops !! op_name OpAdd = None ∧ ops !! op_name OpSubsetOf = None ∧
    ops !! op_name OpSupersetOf = None;
  valid_null : ∀ a, ops !! op_name OpValue = Some a → isJSONNull a = true →
    ops !! op_name OpAdd = None ∧ ops !! op_name OpDefault = None ∧
    ∀ e, ops !! op_name OpEssential = Some e → unmarshal_bool e ≠ Some true;
  valid_value_one_of : ∀ a b, ops !! op_name OpValue = Some a →
    ops !! op_name OpOneOf = Some b → value_among a b;
  valid_add_value : ∀ a b, ops !! op_name OpAdd = Some a →
    ops !! op_name OpValue = Some b → value_subset a b;
  valid_value_subset : ∀ a b, ops !! op_name OpValue = Some a →
    ops !! op_name OpSubsetOf = Some b → value_subset a b;
  valid_add_subset : ∀ a b, ops !! op_name OpAdd = Some a →
    ops !! op_name OpSubsetOf = Some b → value_subset a b;
}.

Lemma if_present_Ok ops op check u :
  if_present ops op check = Ok u ↔
  ∀ raw, ops !! op_name op = Some raw → check raw = Ok tt.
Proof.
  unfold if_present. destruct u, (ops !! op_name op) as [raw|]; naive_solver.
Qed.

Lemma if_present_error ops op u :
  if_present ops op (λ _, policyError) = Ok u → ops !! op_name op = None.
Proof.
  rewrite if_present_Ok. destruct (ops !! op_name op); [|done].
  intros H. by specialize (H _ eq_refl).
Qed.

Lemma validateCombination_valid ops crit u :
  validateCombination ops crit = Ok u → valid_ops ops.
Proof.
  unfold validateCombination, validateValueCombinations. intros. inv_policy.
  match goal with H : if_present ops OpOneOf _ = _ |- _ =>
    rename H into Hone; rewrite if_present_Ok in Hone end.
  match goal with H : if_present ops OpValue _ = _ |- _ =>
    rename H into Hval; rewrite if_present_Ok in Hval end.
  split.
  - intros a Ha. specialize (Hone a Ha). apply for_all_Ok in Hone.
    rewrite !Forall_cons in Hone. destruct Hone as (H1' & H2' & H3' & _).
    split_and!; eapply if_present_error; eassumption.
  - intros a Ha Hnull. specialize (Hval a Ha). cbv beta in Hval.
    rewrite Hnull in Hval. unfold validateNullValueCombinations in Hval. inv_policy.
    split_and!; [by eapply if_present_error..|].
    intros e He Htrue.
    match goal with H : if_present ops OpEssential _ = Ok () |- _ =>
      rename H into Hess end.
    assert (Hg : guard_err (negb (default false (unmarshal_bool e))) ErrPolicyError = Ok tt).
    { match goal with H : context [unmarshal_bool] |- _ =>
        by apply (proj1 (if_present_Ok _ _ _ _) H) end. }
    rewrite Htrue in Hg. done.
  - intros a b Ha Hb. specialize (Hval a Ha). cbv beta in Hval. inv_policy.
    match goal with H : if_present ops OpOneOf _ = _ |- _ =>
      rewrite if_present_Ok in H; specialize (H b Hb) end.
    inv_policy.
    match goal with H : contains _ _ = _ |- _ =>
      apply contains_Ok in H as (x & Hx & Hin) end.
    destruct (decodeArray b) as [lb|] eqn:Hlb.
    + exists x, lb. split_and!; [done|done|by apply Hin].
    + destruct (canon_in_nil x). apply Hin. assumption.
  - intros a b Ha Hb. specialize (Hval b Hb). cbv beta in Hval. inv_policy.
    apply for_all_Ok in Hval. rewrite !Forall_cons in Hval. destruct Hval as (Hr & _).
    eapply requireSubset_Ok; [exact Hr|done..].
  - intros a b Ha Hb. specialize (Hval a Ha). cbv beta in Hval. inv_policy.
    apply for_all_Ok in Hval. rewrite !Forall_cons in Hval. destruct Hval as (_ & Hr & _).
    eapply requireSubset_Ok; [exact Hr|done..].
  - intros a b Ha Hb. by eapply (requireSubset_Ok _ OpAdd OpSubsetOf).
Qed.

(** * Application meets the policy *)

(** One operator of the application loop. *)
Definition op_step (ops : PolicyOperators) (o : operator) (v v' : pvalue) : Prop :=
  match ops !! op_name o with
  | None => v' = v
  | Some raw => applyOperator o raw v = Ok v'
  end.

Lemma apply_in_order_cons o order ops v w :
  apply_in_order (o :: order) ops v = Ok w →
  ∃ v', op_step ops o v v' ∧ apply_in_order order ops v' = Ok w.
Proof.
  simpl. unfold op_step. destruct (ops !! op_name o) as [raw|].
  - intros H. inv_policy. eexists. split; eassumption.
  - intros H. exists v. done.
Qed.

(** one_of, superset_of and essential only check. *)
Lemma check_step ops o v v' :
  o = OpOneOf ∨ o = OpSupersetOf ∨ o = OpEssential → op_step ops o v v' → v' = v.
Proof.
  unfold op_step. intros Ho. destruct (ops !! op_name o) as [raw|]; [|done].
  destruct Ho as [->|[->| ->]]; cbn; intros H.
  - unfold applyOneOfOperator in H. destruct v.2; inv_policy; congruence.
  - unfold applySupersetOfOperator in H. destruct v.2; inv_policy; congruence.
  - unfold applyEssentialOperator in H. inv_policy.
    destruct (_ && _); [discriminate|congruence].
Qed.

Lemma value_step ops raw v v' :
  ops !! op_name OpValue = Some raw → op_step ops OpValue v v' →
  v' = if isJSONNull raw then (RawNil, false) else (raw, true).
Proof.
  unfold op_step. intros ->. cbn. unfold applyValueOperator. intros. inv_policy.
  unfold isJSONNull. rewrite H0. case_decide; case_bool_decide; naive_solver.
Qed.

Lemma value_subset_raw l k :
  value_subset (Raw (JArr l)) (Raw (JArr k)) ↔ ∀ x, canon_in x l → canon_in x k.
Proof. unfold value_subset. simpl. naive_solver. Qed.

Lemma add_step ops raw v v' :
  ops !! op_name OpAdd = Some raw → op_step ops OpAdd v v' →
  v'.2 = true ∧ value_subset raw v'.1 ∧
  (value_subset raw v.1 → ∃ l, decodeArray v.1 = Ok l ∧ v'.1 = Raw (JArr l)).
Proof.
  unfold op_step. intros ->. cbn. unfold applyAddOperator. intros. inv_policy.
  destruct (unionArrays_Ok _ _ _ H0) as (la & lb & new & Ha & Hb & -> & Hin & Hnew).
  simpl. split_and!; [done| |].
  - exists lb, (la ++ new). split_and!; [done..|]. naive_solver.
  - intros (l1 & l2 & H1 & H2 & Hsub). exists la.
    assert (l1 = lb) as -> by congruence. assert (l2 = la) as -> by congruence.
    rewrite Hnew, app_nil_r by done. done.
Qed.

Lemma default_step ops v v' :
  op_step ops OpDefault v v' → (v.2 = true → v' = v) ∧
  (ops !! op_name OpDefault = None → v' = v) ∧
  (is_Some (ops !! op_name OpDefault) → v'.2 = true).
Proof.
  unfold op_step. destruct (ops !! op_name OpDefault) as [raw|]; cbn.
  - intros H. injection H as <-. destruct v as [v b]. simpl.
    split_and!; [by intros ->|done|]. by destruct b.
  - intros ->. split_and!; [done..|]. by intros [].
Qed.

Lemma subset_step ops v v' :
  op_step ops OpSubsetOf v v' →
  v'.2 = v.2 ∧ (v.2 = false → v' = v) ∧
  (ops !! op_name OpSubsetOf = None → v' = v) ∧
  ∀ raw, ops !! op_name OpSubsetOf = Some raw → v.2 = true →
    value_subset v'.1 raw ∧
    (∀ a, value_subset a v.1 → value_subset a raw → value_subset a v'.1) ∧
    (value_subset v.1 raw → ∃ l, decodeArray v.1 = Ok l ∧ v'.1 = Raw (JArr l)).
Proof.
  unfold op_step. destruct (ops !! op_name OpSubsetOf) as [raw|]; cbn;
    [|intros ->; naive_solver].
  unfold applySubsetOfOperator. destruct v as [v []]; simpl; intros; inv_policy;
    [|naive_solver].
  destruct (intersectArrays_Ok _ _ _ H0) as (la & lb & out & Ha & Hb & -> & Hin & Hall).
  split_and!; [done..|]. intros raw' [= <-] _. simpl. split_and!.
  - exists out, lb. naive_solver.
  - intros b (l1 & l2 & H1 & H2 & H12) (l3 & l4 & H3 & H4 & H34).
    exists l1, out. split_and!; [done..|]. intros x Hx. apply Hin.
    assert (l2 = la) as -> by congruence. assert (l3 = l1) as -> by congruence.
    assert (l4 = lb) as -> by congruence. auto.
  - intros (l1 & l2 & H1 & H2 & H12). exists la. split; [done|].
    assert (l1 = la) as -> by congruence. assert (l2 = lb) as -> by congruence.
    by rewrite Hall.
Qed.

Lemma one_of_step ops raw v v' :
  ops !! op_name OpOneOf = Some raw → op_step ops OpOneOf v v' →
  v.2 = true → value_among v.1 raw.
Proof.
  unfold op_step. intros ->. cbn. unfold applyOneOfOperator. intros H Hv.
  rewrite Hv in H. inv_policy.
  match goal with H : contains _ _ = _ |- _ =>
    apply contains_Ok in H as (x & Hx & Hin) end.
  exists x, a. split_and!; [done| |by apply Hin].
  destruct raw; simpl in *; [done|done|]. by rewrite H0.
Qed.

Lemma superset_step ops raw v v' :
  ops !! op_name OpSupersetOf = Some raw → op_step ops OpSupersetOf v v' →
  v.2 = true → value_subset raw v.1.
Proof.
  unfold op_step. intros ->. cbn. unfold applySupersetOfOperator. intros H Hv.
  rewrite Hv in H. inv_policy.
  match goal with H : for_all _ _ = _ |- _ =>
    apply for_all_Ok in H; rewrite Forall_forall in H; rename H into Hall end.
  exists a, a0. split_and!.
  - destruct raw; simpl in *; [done|done|]. by rewrite H0.
  - destruct v'.1; simpl in *; [done|done|]. by rewrite H1.
  - intros x (j & Hj & Hx). specialize (Hall j Hj). simpl in Hall. inv_policy.
    match goal with H : valueSet_contains _ _ = _ |- _ =>
      apply valueSet_contains_Ok in H as (y & Hy & Hin) end.
    assert (y = x) as -> by congruence. eapply newValueSet_Ok; naive_solver.
Qed.

Lemma essential_step ops raw v v' :
  ops !! op_name OpEssential = Some raw → op_step ops OpEssential v v' →
  unmarshal_bool raw = Some true → v.2 = true.
Proof.
  unfold op_step. intros ->. cbn. unfold applyEssentialOperator.
  intros H Htrue. rewrite Htrue in H. simpl in H. destruct v as [v []]; done.
Qed.

(** The seven steps of applyClaimPolicy. *)
Lemma apply_chain ops crit v w :
  applyClaimPolicy ops crit v = Ok w →
  ∃ v1 v2 v3, op_step ops OpValue v v1 ∧ op_step ops OpAdd v1 v2 ∧
    op_step ops OpDefault v2 v3 ∧ op_step ops OpOneOf v3 v3 ∧
    op_step ops OpSubsetOf v3 w ∧ op_step ops OpSupersetOf w w ∧
    op_step ops OpEssential w w.
Proof.
  unfold applyClaimPolicy, operatorApplicationOrder. intros H. inv_policy.
  match goal with H : apply_in_order _ _ _ = _ |- _ =>
    do 7 (apply apply_in_order_cons in H; destruct H as (? & ? & H));
    injection H as ->
  end.
  repeat match goal with
  | H : op_step _ ?o ?y ?z |- _ =>
      let Hy := fresh in assert (Hy : z = y) by (apply (check_step ops o); [by auto|exact H]);
      subst z
  end.
  eauto 10.
Qed.

Lemma decodeArray_value raw l :
  is_Some (unmarshal_any raw) → isJSONNull raw = false →
  decodeArray raw = Ok l → raw = Raw (JArr l).
Proof.
  intros [x Hx] Hn H. destruct raw as [| |j]; [done..|].
  destruct j; try done; simpl in H; congruence.
Qed.

(** A value operator fixes the parameter for good. *)
Lemma value_operator_final ops crit v w raw :
  valid_ops ops → ops !! op_name OpValue = Some raw →
  applyClaimPolicy ops crit v = Ok w →
  w = if isJSONNull raw then (RawNil, false) else (raw, true).
Proof.
  intros Hv Hraw (v1 & v2 & v3 & S1 & S2 & S3 & S4 & S5 & S6 & S7)%apply_chain.
  assert (Hdec : is_Some (unmarshal_any raw)).
  { unfold op_step in S1. rewrite Hraw in S1. cbn in S1. unfold applyValueOperator in S1.
    inv_policy. eauto. }
  apply (value_step _ _ _ _ Hraw) in S1. destruct (isJSONNull raw) eqn:Hnull; subst v1.
  - destruct (valid_null _ Hv _ Hraw Hnull) as (Hadd & Hdef & _).
    assert (v2 = (RawNil, false)) as ->.
    { unfold op_step in S2. by rewrite Hadd in S2. }
    apply default_step in S3 as (_ & S3 & _). rewrite (S3 Hdef) in S5.
    apply subset_step in S5 as (_ & S5 & _). by apply S5.
  - assert (v2 = (raw, true)) as ->.
    { destruct (ops !! op_name OpAdd) as [a|] eqn:Hadd.
      - destruct (add_step _ _ _ _ Hadd S2) as (Hp & _ & Hsame).
        destruct (Hsame (valid_add_value _ Hv _ _ Hadd Hraw)) as (l & Hl & Heq).
        apply (decodeArray_value _ _ Hdec Hnull) in Hl. destruct v2; simpl in *.
        congruence.
      - unfold op_step in S2. by rewrite Hadd in S2. }
    apply default_step in S3 as (S3 & _). rewrite (S3 eq_refl) in S5.
    apply subset_step in S5 as (Hp & _ & Hnone & Hsome).
    destruct (ops !! op_name OpSubsetOf) as [s|] eqn:Hs; [|by apply Hnone].
    destruct (Hsome s eq_refl eq_refl) as (_ & _ & Hsame).
    destruct (Hsame (valid_value_subset _ Hv _ _ Hraw Hs)) as (l & Hl & Heq).
    apply (decodeArray_value _ _ Hdec Hnull) in Hl. destruct w; simpl in *. congruence.
Qed.

Lemma applyClaimPolicy_satisfies ops crit v w :
  valid_ops ops → applyClaimPolicy ops crit v = Ok w → satisfies ops w.
Proof.
  intros Hv Happ o raw Hraw.
  destruct (apply_chain _ _ _ _ Happ) as (v1 & v2 & v3 & S1 & S2 & S3 & S4 & S5 & S6 & S7).
  assert (Hsub := subset_step _ _ _ S5). destruct Hsub as (Hpres & _ & Hnone & Hsome).
  assert (Hdef := default_step _ _ _ S3). destruct Hdef as (Hdpres & _ & Hdsome).
  destruct o; cbn [op_ok].
  - rewrite (value_operator_final _ _ _ _ _ Hv Hraw Happ).
    destruct (isJSONNull raw) eqn:Hnull; [done|]. split; [done|]. simpl.
    unfold op_step in S1. rewrite Hraw in S1. cbn in S1. unfold applyValueOperator in S1.
    inv_policy. unfold canonicalJSON. rewrite H. simpl. eauto.
  - destruct (add_step _ _ _ _ Hraw S2) as (Hp2 & Hsub2 & _).
    rewrite (Hdpres Hp2) in Hpres, Hnone, Hsome. split; [congruence|].
    destruct (ops !! op_name OpSubsetOf) as [s|] eqn:Hs.
    + destruct (Hsome s eq_refl Hp2) as (_ & Hkeep & _).
      apply Hkeep; [done|]. by eapply valid_add_subset.
    + by rewrite Hnone.
  - rewrite Hpres. by apply Hdsome.
  - destruct (valid_one_of _ Hv _ Hraw) as (_ & Hs & _). rewrite (Hnone Hs).
    intros Hp. by eapply one_of_step.
  - intros Hp. rewrite Hpres in Hp. by apply (Hsome raw).
  - intros Hp. by eapply superset_step.
  - intros Ht. by eapply essential_step.
Qed.

(** * Merging only ever adds demands *)

Lemma standard_operator_name o : standard_operator (op_name o) = Some o.
Proof. by destruct o. Qed.

Lemma jsonEqual_Ok a b c :
  jsonEqual a b = Ok c →
  ∃ x y, canonicalJSON a = Ok x ∧ canonicalJSON b = Ok y ∧ (c = true ↔ x = y).
Proof.
  unfold jsonEqual. intros H. inv_policy. eexists _, _.
  split_and!; [eassumption..|]. apply bool_decide_eq_true.
Qed.

Lemma canonical_null_agree a b x :
  canonicalJSON a = Ok x → canonicalJSON b = Ok x → isJSONNull a = isJSONNull b.
Proof.
  intros Ha Hb. apply Bool.eq_iff_eq_true. rewrite !isJSONNull_canonical.
  split; congruence.
Qed.

(** A value meeting a merged operand meets both operands merged into it. *)
Lemma mergeOperatorValue_stronger o a b c v :
  mergeOperatorValue (op_name o) a b = Ok c → op_ok o c v → op_ok o a v ∧ op_ok o b v.
Proof.
  unfold mergeOperatorValue. rewrite standard_operator_name. intros Hm Hok.
  destruct o; cbn [op_ok] in *.
  - inv_policy. apply jsonEqual_Ok in H as (x & y & Ha & Hb & Heq).
    assert (x = y) as -> by by apply Heq. split; [done|].
    rewrite <-(canonical_null_agree _ _ _ Ha Hb).
    destruct (isJSONNull c); [done|]. destruct Hok as (Hp & z & Hz & Hv).
    split; [done|]. exists y. split; congruence.
  - destruct (unionArrays_Ok _ _ _ Hm) as (la & lb & new & Ha & Hb & -> & Hin & _).
    destruct Hok as (Hp & Hs).
    split; (split; [done|]); (eapply value_subset_trans; [|exact Hs]);
      eexists _, (la ++ new); (split_and!; [eassumption|done|]);
      intros x Hx; apply Hin; auto.
  - inv_policy. done.
  - destruct (intersectArrays a b) as [r|] eqn:Hr; [|done]. simpl in Hm.
    destruct (intersectArrays_Ok _ _ _ Hr) as (la & lb & out & Ha & Hb & -> & Hin & _).
    simpl in Hm. assert (c = Raw (JArr out)) as -> by (destruct out; [done|congruence]).
    split; intros Hp; destruct (Hok Hp) as (x & l & Hx & [= <-] & Hxl);
      apply Hin in Hxl as []; eexists _, _; split_and!; eassumption.
  - destruct (intersectArrays_Ok _ _ _ Hm) as (la & lb & out & Ha & Hb & -> & Hin & _).
    split; intros Hp; (eapply value_subset_trans; [exact (Hok Hp)|]);
      eexists out, _; (split_and!; [done|eassumption|]); intros x Hx; by apply Hin.
  - destruct (unionArrays_Ok _ _ _ Hm) as (la & lb & new & Ha & Hb & -> & Hin & _).
    split; intros Hp; (eapply value_subset_trans; [|exact (Hok Hp)]);
      eexists _, (la ++ new); (split_and!; [eassumption|done|]);
      intros x Hx; apply Hin; auto.
  - inv_policy. split; intros Ht; apply Hok; simpl.
    + assert (a0 = true) as -> by congruence. done.
    + assert (a1 = true) as -> by congruence. by rewrite orb_true_r.
Qed.

Lemma mergeOperators_stronger current next crit merged v :
  mergeOperators current next crit = Ok merged → satisfies merged v →
  satisfies current v ∧ satisfies next v.
Proof.
  unfold mergeOperators. intros H Hsat. inv_policy.
  assert (Hm := λ k, map_merge_Ok _ _ _ _ k H0).
  split; intros o raw Hraw; specialize (Hm (op_name o)); rewrite Hraw in Hm.
  - destruct (next !! op_name o) as [b|]; [|by apply Hsat].
    destruct Hm as (c & Hc & Hl).
    by apply (mergeOperatorValue_stronger _ _ _ _ _ Hc (Hsat _ _ Hl)).
  - destruct (current !! op_name o) as [a|]; [|by apply Hsat].
    destruct Hm as (c & Hc & Hl).
    by apply (mergeOperatorValue_stronger _ _ _ _ _ Hc (Hsat _ _ Hl)).
Qed.

Lemma mergeOperators_valid current next crit merged :
  mergeOperators current next crit = Ok merged →
  validateCombination merged crit = Ok tt.
Proof. unfold mergeOperators. intros H. by inv_policy. Qed.

(** * Space-delimited parameters *)

Lemma splitSpaceDelimited_idem raw :
  splitSpaceDelimited (splitSpaceDelimited raw) = splitSpaceDelimited raw.
Proof.
  unfold splitSpaceDelimited. destruct (unmarshal_any raw) as [v|] eqn:Hv; [|by rewrite Hv].
  destruct v; try by rewrite Hv. simpl. by destruct (mapM decode_any _).
Qed.

Lemma split_option_raw j : Raw (split_option j) = splitSpaceDelimited (Raw j).
Proof.
  unfold split_option. destruct (splitSpaceDelimited (Raw j)) eqn:H; [..|done].
  all: unfold splitSpaceDelimited in H; repeat case_match; done.
Qed.

Lemma split_option_idem j : split_option (split_option j) = split_option j.
Proof.
  assert (H : Raw (split_option (split_option j)) = Raw (split_option j));
    [|congruence].
  by rewrite !split_option_raw, splitSpaceDelimited_idem.
Qed.

Lemma split_operand_idem name raw :
  split_operand name (split_operand name raw) = split_operand name raw.
Proof.
  unfold split_operand.
  destruct (standard_operator name) as [[]|]; try done; try apply splitSpaceDelimited_idem.
  unfold splitOneOfOptions. destruct (unmarshal_slice raw) as [[|j l]|] eqn:Hr.
  - destruct raw as [| |[]]; done.
  - cbn [unmarshal_slice fmap list_fmap]. rewrite split_option_idem. do 3 f_equal.
    rewrite <-list_fmap_compose. apply list_fmap_ext. intros ???. simpl.
    apply split_option_idem.
  - by rewrite Hr.
Qed.

(** An operand the split leaves alone. *)
Definition split_stable (name : string) (raw : RawMessage) : Prop :=
  split_operand name raw = raw.

Lemma split_stable_one_of l :
  split_stable (op_name OpOneOf) (Raw (JArr l)) ↔ Forall (λ j, split_option j = j) l.
Proof.
  unfold split_stable, split_operand. rewrite standard_operator_name.
  unfold splitOneOfOptions. simpl.
  destruct l as [|j l]; [done|]. cbn [fmap list_fmap].
  split.
  - intros [= Hj Hl]. constructor; [done|]. clear Hj. revert Hl.
    induction l as [|k l IH]; cbn [fmap list_fmap]; [done|].
    intros [= Hk Hl]. constructor; auto.
  - intros [Hj Hl]%Forall_cons. rewrite Hj. do 3 f_equal.
    induction Hl; cbn [fmap list_fmap]; congruence.
Qed.

Lemma intersect_keep_incl s a : ∀ out, intersect_keep s a = Ok out → out ⊆ a.
Proof.
  induction a as [|v a IH]; simpl; intros out H; inv_policy; [done|].
  assert (Hincl := IH _ H1). destruct a0; set_solver.
Qed.

Lemma mergeOperatorValue_stable name a b c :
  mergeOperatorValue name a b = Ok c →
  split_stable name a → split_stable name b → split_stable name c.
Proof.
  intros Hm Ha Hb. unfold mergeOperatorValue in Hm.
  destruct (standard_operator name) as [o|] eqn:Ho; [|inv_policy; congruence].
  destruct o; try (by unfold split_stable, split_operand; rewrite Ho);
    try (inv_policy; congruence).
  unfold standard_operator in Ho. destruct (list_find _ _) as [[i o]|] eqn:Hf; [|done].
  simpl in Ho. injection Ho as ->.
  apply list_find_Some in Hf as (_ & <- & _).
  unfold intersectArrays in Hm. inv_policy.
  match goal with H : intersect_keep ?s ?l = Ok ?k |- _ =>
    rename H into Hk, l into la, k into out end.
  simpl in Hm. assert (c = Raw (JArr out)) as -> by (destruct out; [done|congruence]).
  apply split_stable_one_of, Forall_forall. intros j Hj.
  apply (intersect_keep_incl _ _ _ Hk) in Hj.
  assert (Hall : Forall (λ j, split_option j = j) la);
    [|by rewrite Forall_forall in Hall; apply Hall].
  apply split_stable_one_of.
  destruct a as [| |[]]; simpl in *; simplify_eq/=; done.
Qed.

Lemma lookup_split ops name :
  splitSpaceDelimitedOperators ops !! name = split_operand name <$> ops !! name.
Proof. unfold splitSpaceDelimitedOperators. rewrite map_lookup_imap. by destruct (ops !! name). Qed.

Lemma split_operators_idem ops :
  splitSpaceDelimitedOperators (splitSpaceDelimitedOperators ops) =
  splitSpaceDelimitedOperators ops.
Proof.
  apply map_eq. intros name. rewrite !lookup_split.
  destruct (ops !! name); simpl; [|done]. by rewrite split_operand_idem.
Qed.

Lemma parameterOperators_idem claim ops :
  parameterOperators claim (parameterOperators claim ops) = parameterOperators claim ops.
Proof.
  unfold parameterOperators. destruct (spaceDelimitedParameters claim); [|done].
  apply split_operators_idem.
Qed.

(** Operators merged from split operators stay split. *)
Lemma mergeOperators_parameter claim current next crit merged :
  mergeOperators (parameterOperators claim current) (parameterOperators claim next) crit
    = Ok merged →
  parameterOperators claim merged = merged.
Proof.
  unfold parameterOperators. destruct (spaceDelimitedParameters claim); [|done].
  unfold mergeOperators. intros H. inv_policy. apply map_eq. intros name.
  rewrite lookup_split. assert (Hm := map_merge_Ok _ _ _ _ name H0).
  rewrite !lookup_split in Hm.
  destruct (current !! name) as [a|], (next !! name) as [b|]; simpl in Hm.
  - destruct Hm as (c & Hc & ->). simpl. f_equal.
    eapply mergeOperatorValue_stable; [exact Hc|apply split_operand_idem..].
  - rewrite Hm. simpl. f_equal. apply split_operand_idem.
  - rewrite Hm. simpl. f_equal. apply split_operand_idem.
  - by rewrite Hm.
Qed.

(** * Along a Trust Chain *)

(** [v] meets what [policy] says of parameter [claim] of [entityType]; a
    space-delimited parameter is judged as the array of its values. *)
Definition policy_satisfied (policy : MetadataPolicy) (entityType claim : string)
    (v : pvalue) : Prop :=
  ∀ params ops, policy !! entityType = Some params → params !! claim = Some ops →
    satisfies (parameterOperators claim ops) v.

Lemma validatePolicy_lookup policy crit u et params claim ops :
  validatePolicy policy crit = Ok u → policy !! et = Some params →
  params !! claim = Some ops → validateCombination (parameterOperators claim ops) crit = Ok tt.
Proof.
  unfold validatePolicy. intros Hv Het Hcl.
  assert (H := proj1 (map_for_all_Ok _ _ _) Hv et params Het). simpl in H.
  exact (proj1 (map_for_all_Ok _ _ _) H claim ops Hcl).
Qed.

Lemma policy_satisfied_empty et claim v : policy_satisfied ∅ et claim v.
Proof. intros params ops H. by rewrite lookup_empty in H. Qed.

Lemma MergePolicy_stronger cur cc next nc merged et claim v :
  MergePolicy cur cc next nc = Ok merged → policy_satisfied merged et claim v →
  policy_satisfied cur et claim v ∧ policy_satisfied next et claim v.
Proof.
  unfold MergePolicy. intros H Hsat. inv_policy.
  destruct (decide (cur = ∅)) as [->|_].
  { inv_policy. split; [apply policy_satisfied_empty|done]. }
  destruct (decide (next = ∅)) as [->|_].
  { inv_policy. split; [done|apply policy_satisfied_empty]. }
  assert (Hm := map_merge_Ok _ _ _ _ et H). cbv beta in Hm.
  assert (Hboth : ∀ ps ns params, cur !! et = Some ps → next !! et = Some ns →
    merge_params (newCritSet [cc; nc]) ps ns = Ok params → merged !! et = Some params →
    ∀ ops, (ps !! claim = Some ops ∨ ns !! claim = Some ops) →
    satisfies (parameterOperators claim ops) v).
  { intros ps ns params Hps Hns Hmp Hpar ops Hops. unfold merge_params in Hmp.
    assert (Hc := map_merge_Ok _ _ _ _ claim Hmp). cbv beta in Hc.
    destruct (ps !! claim) as [o1|] eqn:H1, (ns !! claim) as [o2|] eqn:H2.
    - destruct Hc as (o & Ho & Hl). specialize (Hsat _ _ Hpar Hl).
      rewrite (mergeOperators_parameter _ _ _ _ _ Ho) in Hsat.
      destruct (mergeOperators_stronger _ _ _ _ _ Ho Hsat).
      by destruct Hops as [[= <-]|[= <-]].
    - destruct Hops as [[= <-]|]; [|done]. by apply (Hsat _ _ Hpar).
    - destruct Hops as [|[= <-]]; [done|]. by apply (Hsat _ _ Hpar).
    - by destruct Hops. }
  split; intros ps ops Hps Hops; rewrite Hps in Hm.
  - destruct (next !! et) as [ns|] eqn:Hns.
    + destruct Hm as (params & Hmp & Hl). eapply (Hboth ps ns params); eauto.
    + by apply (Hsat ps).
  - destruct (cur !! et) as [cs|] eqn:Hcs.
    + destruct Hm as (params & Hmp & Hl). eapply (Hboth cs ps params); eauto.
    + by apply (Hsat ps).
Qed.

Lemma resolveMetadataPolicies_stronger policies : ∀ mc et claim v,
  resolveMetadataPolicies policies = Ok mc → policy_satisfied mc.1 et claim v →
  Forall (λ p, policy_satisfied (sp_policy p) et claim v) policies.
Proof.
  induction policies as [|p above IH]; simpl; intros mc et claim v H Hsat; [done|].
  inv_policy. match goal with H : MergePolicy _ _ _ _ = _ |- _ =>
    destruct (MergePolicy_stronger _ _ _ _ _ _ _ _ H Hsat) as [Habove Hp] end.
  constructor; [done|]. eapply IH; eassumption.
Qed.

(** The value a resolved metadata object gives a parameter. *)
Definition param_value (obj : gmap string RawMessage) (claim : string) : pvalue :=
  match obj !! claim with Some raw => (raw, true) | None => (RawNil, false) end.

Lemma satisfies_absent ops a b : satisfies ops (a, false) → satisfies ops (b, false).
Proof.
  intros H o raw Hraw. specialize (H o raw Hraw).
  destruct o; simpl in *; try done; [destruct (isJSONNull raw); [done|]|]; by destruct H.
Qed.

Lemma applyParameterPolicy_satisfies claim ops crit v w :
  spaceDelimitedParameters claim = false → valid_ops ops →
  applyParameterPolicy claim ops crit v = Ok w → satisfies ops w.
Proof.
  unfold applyParameterPolicy. intros -> Hv H. simpl in H.
  by eapply applyClaimPolicy_satisfies.
Qed.

Lemma applyParameterPolicy_space_delimited claim ops crit v w :
  spaceDelimitedParameters claim = true → ops ≠ ∅ →
  valid_ops (splitSpaceDelimitedOperators ops) →
  applyParameterPolicy claim ops crit v = Ok w →
  ∃ arr, satisfies (splitSpaceDelimitedOperators ops) (arr, w.2) ∧
         (w.2 = true → joinSpaceDelimited arr = Ok w.1).
Proof.
  unfold applyParameterPolicy. intros -> Hne Hv H.
  rewrite bool_decide_eq_false_2 in H by done. simpl in H. inv_policy.
  match goal with H : applyClaimPolicy _ _ _ = Ok ?v' |- _ =>
    apply applyClaimPolicy_satisfies in H; [|done]; exists v'.1; rename H into Hsat;
    destruct v' as [r []] end; simpl in *; inv_policy; done.
Qed.

(** The claims applyEntityTypePolicy resolves. *)
Lemma applyEntityTypePolicy_lookup params crit current result claim :
  applyEntityTypePolicy params crit current = Ok result →
  (is_Some (params !! claim) ∨ is_Some (current !! claim)) →
  ∃ w, applyParameterPolicy claim (default ∅ (params !! claim)) crit
         (current_value current claim) = Ok w ∧
       param_value result claim = if w.2 then w else (RawNil, false).
Proof.
  unfold applyEntityTypePolicy. intros H Hin. inv_policy.
  assert (Hm := map_range_Ok _ _ _ claim H0). cbv beta in Hm.
  rewrite lookup_fmap, lookup_union, lookup_fmap in Hm.
  assert (Hs : ∃ x, union (params !! claim) ((λ _ : RawMessage, ∅) <$> current !! claim) = Some x).
  { destruct (params !! claim), (current !! claim); simpl; eauto.
    by destruct Hin as [[]|[]]. }
  destruct Hs as [x Hx]. rewrite Hx in Hm. simpl in Hm. destruct Hm as (w & Hw & Hl).
  exists w. split; [done|]. unfold param_value. rewrite lookup_omap, Hl.
  by destruct w as [r []].
Qed.

Lemma ApplyPolicy_lookup policy crit metadata resolved et raw :
  ApplyPolicy policy crit metadata = Ok resolved → metadata !! et = Some raw →
  ∃ current result out,
    unmarshal_object raw = Some current ∧
    applyEntityTypePolicy (default ∅ (policy !! et)) (newCritSet [crit]) current = Ok result ∧
    marshal_object result = Some out ∧ resolved !! et = Some out.
Proof.
  unfold ApplyPolicy. intros H Het. inv_policy.
  assert (Hm := map_range_Ok _ _ _ et H). cbv beta in Hm. rewrite Het in Hm.
  destruct Hm as (out & Hout & Hl). inv_policy. eauto 10.
Qed.

(** A single policy: an entity's resolved metadata meets it. *)
Lemma ApplyPolicy_satisfies policy crit metadata resolved et raw :
  ApplyPolicy policy crit metadata = Ok resolved → metadata !! et = Some raw →
  ∃ result out, marshal_object result = Some out ∧ resolved !! et = Some out ∧
    ∀ claim, if spaceDelimitedParameters claim
      then ∃ arr, policy_satisfied policy et claim (arr, (param_value result claim).2) ∧
           ((param_value result claim).2 = true →
             arr = (param_value result claim).1 ∨
             joinSpaceDelimited arr = Ok (param_value result claim).1)
      else policy_satisfied policy et claim (param_value result claim).
Proof.
  intros Happ Het.
  destruct (ApplyPolicy_lookup _ _ _ _ _ _ Happ Het) as (cur & result & out & Hcur & Hres & Hout & Hl).
  exists result, out. split_and!; [done..|]. intros claim.
  assert (Hvalid : ∀ params ops, policy !! et = Some params → params !! claim = Some ops →
    valid_ops (parameterOperators claim ops)).
  { unfold ApplyPolicy in Happ. inv_policy. intros params ops Hp Ho.
    eapply validateCombination_valid, validatePolicy_lookup; eassumption. }
  destruct (policy !! et) as [params|] eqn:Hp; last first.
  { assert (Hnone : ∀ v, policy_satisfied policy et claim v) by (intros v ???; congruence).
    destruct (spaceDelimitedParameters claim); [|done].
    exists (param_value result claim).1. auto. }
  simpl in Hres. destruct (params !! claim) as [ops|] eqn:Ho; last first.
  { assert (Hnone : ∀ v, policy_satisfied policy et claim v).
    { intros v ps os ??. congruence. }
    destruct (spaceDelimitedParameters claim); [|done].
    exists (param_value result claim).1. auto. }
  destruct (applyEntityTypePolicy_lookup _ _ _ _ claim Hres) as (w & Hw & Hpv); [eauto|].
  rewrite Ho in Hw. simpl in Hw. specialize (Hvalid _ _ eq_refl Ho).
  unfold policy_satisfied. unfold parameterOperators in *.
  destruct (spaceDelimitedParameters claim) eqn:Hsd.
  - destruct (decide (ops = ∅)) as [->|Hne].
    + exists (param_value result claim).1. split; [|by left].
      intros ps os Hps Hos. assert (os = ∅) as -> by congruence.
      intros o r. rewrite lookup_split, lookup_empty. done.
    + destruct (applyParameterPolicy_space_delimited _ _ _ _ _ Hsd Hne Hvalid Hw)
        as (arr & Hsat & Hjoin).
      exists arr. rewrite Hpv. destruct w as [r []]; simpl in *.
      * split; [|by right; apply Hjoin]. intros ps os Hps Hos.
        by assert (os = ops) as -> by congruence.
      * split; [|done]. intros ps os Hps Hos.
        by assert (os = ops) as -> by congruence.
  - apply (applyParameterPolicy_satisfies _ _ _ _ _ Hsd Hvalid) in Hw.
    rewrite Hpv. intros ps os Hps Hos. assert (os = ops) as -> by congruence.
    destruct w as [r []]; simpl in *; [done|]. by eapply satisfies_absent.
Qed.

(** * Auxiliary lemmas *)

#[local] Arguments intersectArrays : simpl never.
#[local] Arguments unionArrays : simpl never.

Definition canonical_ok (l : list json) : Prop :=
  Forall (λ j, ∃ x, canonicalJSON (Raw j) = Ok x) l.

Lemma valueSet_add_ok s v : (∃ x, canonicalJSON (Raw v) = Ok x) ↔ ∃ r, valueSet_add s v = Ok r.
Proof.
  unfold valueSet_add. destruct (canonicalJSON (Raw v)); simpl; split; intros []; eauto; done.
Qed.

Lemma valueSet_add_all_ok l : ∀ s, canonical_ok l ↔ ∃ s', valueSet_add_all s l = Ok s'.
Proof.
  induction l as [|v l IH]; intros s; simpl.
  { split; [eauto|]. intros _. constructor. }
  unfold canonical_ok. rewrite Forall_cons, (valueSet_add_ok s v). split.
  - intros ([r ->] & Hl). by apply IH.
  - intros [s' H]. inv_policy. split; [eauto|]. apply (IH a.1). eauto.
Qed.

Lemma union_new_ok b : ∀ seen, canonical_ok b ↔ ∃ new, union_new seen b = Ok new.
Proof.
  induction b as [|v l IH]; intros s; simpl.
  { split; [eauto|]. intros _. constructor. }
  unfold canonical_ok. rewrite Forall_cons, (valueSet_add_ok s v). split.
  - intros ([r ->] & Hl). simpl. destruct (proj1 (IH r.1) Hl) as [new ->]. simpl. eauto.
  - intros [s' H]. inv_policy. split; [eauto|]. apply (IH a.1). eauto.
Qed.

Lemma union_new_incl b : ∀ seen new, union_new seen b = Ok new → new ⊆ b.
Proof.
  induction b as [|v l IH]; simpl; intros s new H; inv_policy; [done|].
  match goal with H : union_new _ _ = Ok _ |- _ => apply IH in H end.
  destruct a.2; set_solver.
Qed.

Lemma intersect_keep_ok s a : canonical_ok a ↔ ∃ out, intersect_keep s a = Ok out.
Proof.
  induction a as [|v l IH]; simpl.
  { split; [eauto|]. intros _. constructor. }
  unfold canonical_ok. rewrite Forall_cons. unfold valueSet_contains. split.
  - intros ([x ->] & Hl). simpl. destruct (proj1 IH Hl) as [out ->]. simpl. eauto.
  - intros [s' H]. inv_policy. split; [eauto|]. apply IH. eauto.
Qed.

Lemma canonical_ok_incl l k : k ⊆ l → canonical_ok l → canonical_ok k.
Proof. unfold canonical_ok. rewrite !Forall_forall. auto. Qed.

(** An array of canonical values absorbs a union with a subset, and an
    intersection with a superset. *)
Lemma unionArrays_absorb l raw :
  canonical_ok l → value_subset raw (Raw (JArr l)) →
  (∃ r v, unionArrays v raw = Ok r) → unionArrays (Raw (JArr l)) raw = Ok (Raw (JArr l)).
Proof.
  intros Hl Hsub (r & v & H). unfold unionArrays in H. inv_policy.
  destruct Hsub as (lb & l' & Hlb & [= <-] & Hin).
  assert (a0 = lb) as -> by congruence.
  unfold unionArrays. simpl. rewrite H1. simpl.
  destruct (proj1 (valueSet_add_all_ok l []) Hl) as [seen Hseen].
  unfold newValueSet. rewrite Hseen. simpl.
  assert (Hb : canonical_ok lb) by (apply (union_new_ok lb a1); eauto).
  destruct (proj1 (union_new_ok lb seen) Hb) as [new Hnew]. rewrite Hnew. simpl.
  apply union_new_Ok in Hnew as [_ Hnil].
  rewrite Hnil, app_nil_r; [done|]. intros x Hx.
  apply (newValueSet_Ok _ _ Hseen). auto.
Qed.

Lemma intersectArrays_absorb l raw :
  canonical_ok l → value_subset (Raw (JArr l)) raw →
  (∃ r v, intersectArrays v raw = Ok r) →
  intersectArrays (Raw (JArr l)) raw = Ok (Raw (JArr l)).
Proof.
  intros Hl Hsub (r & v & H). unfold intersectArrays in H. inv_policy.
  destruct Hsub as (l' & lb & [= <-] & Hlb & Hin).
  assert (a0 = lb) as -> by congruence.
  unfold intersectArrays. simpl. rewrite H1. simpl. rewrite H2. simpl.
  destruct (proj1 (intersect_keep_ok a1 l) Hl) as [out Hout]. rewrite Hout. simpl.
  apply intersect_keep_Ok in Hout as [_ Hall]. rewrite Hall; [done|].
  intros x Hx. apply (newValueSet_Ok _ _ H2). auto.
Qed.

Lemma unionArrays_canonical a b r :
  unionArrays a b = Ok r → ∃ l, r = Raw (JArr l) ∧ canonical_ok l.
Proof.
  unfold unionArrays. intros H. inv_policy. eexists; split; [done|].
  apply Forall_app. split.
  - apply (valueSet_add_all_ok _ []). eauto.
  - eapply canonical_ok_incl; [by eapply union_new_incl|].
    apply (union_new_ok _ a2). eauto.
Qed.

Lemma intersectArrays_canonical a b r :
  intersectArrays a b = Ok r → ∃ l, r = Raw (JArr l) ∧ canonical_ok l.
Proof.
  unfold intersectArrays. intros H. inv_policy. eexists; split; [done|].
  eapply canonical_ok_incl; [by eapply intersect_keep_incl|].
  apply (intersect_keep_ok a2). eauto.
Qed.

(** Seven steps that each leave [w] alone make applyClaimPolicy do so. *)
Lemma apply_fixed ops crit w :
  (∀ o, op_step ops o w w) → check_critical ops crit = Ok tt →
  applyClaimPolicy ops crit w = Ok w.
Proof.
  intros Hs Hc. unfold applyClaimPolicy.
  assert (Hord : ∀ order, apply_in_order order ops w = Ok w).
  { induction order as [|o order IH]; simpl; [done|].
    specialize (Hs o). unfold op_step in Hs.
    destruct (ops !! op_name o); [rewrite Hs|]; done. }
  by rewrite Hord, Hc.
Qed.

Lemma apply_critical ops crit v w :
  applyClaimPolicy ops crit v = Ok w → check_critical ops crit = Ok tt.
Proof. unfold applyClaimPolicy. intros H. by inv_policy. Qed.

(** The add and subset_of steps, taken again from their own result. *)
Lemma add_step_again ops crit v w :
  valid_ops ops → applyClaimPolicy ops crit v = Ok w → op_step ops OpAdd w w.
Proof.
  intros Hv Happ. assert (Hsat := applyClaimPolicy_satisfies _ _ _ _ Hv Happ).
  destruct (apply_chain _ _ _ _ Happ) as (v1 & v2 & v3 & _ & S2 & S3 & _ & S5 & _).
  unfold op_step. destruct (ops !! op_name OpAdd) as [raw|] eqn:Hraw; [|done].
  destruct (Hsat _ _ Hraw) as [Hp Hsub].
  unfold op_step in S2. rewrite Hraw in S2. cbn in S2. unfold applyAddOperator in S2.
  inv_policy. destruct (unionArrays_canonical _ _ _ H) as (l & -> & Hl).
  assert (Hw : ∃ k, w.1 = Raw (JArr k) ∧ canonical_ok k).
  { apply default_step in S3 as (S3 & _). rewrite (S3 eq_refl) in S5.
    destruct (ops !! op_name OpSubsetOf) as [s|] eqn:Hs.
    - unfold op_step in S5. rewrite Hs in S5. cbn in S5.
      unfold applySubsetOfOperator in S5. simpl in S5. inv_policy.
      simpl. by eapply intersectArrays_canonical.
    - apply subset_step in S5 as (_ & _ & S5 & _). rewrite (S5 Hs). simpl. eauto. }
  destruct Hw as (k & Hk & Hck). destruct w as [r []]; simpl in *; [|done]. subst r.
  unfold applyAddOperator. simpl.
  rewrite (unionArrays_absorb k raw Hck Hsub); [done|eauto].
Qed.

Lemma subset_step_again ops crit v w :
  valid_ops ops → applyClaimPolicy ops crit v = Ok w → op_step ops OpSubsetOf w w.
Proof.
  intros Hv Happ. assert (Hsat := applyClaimPolicy_satisfies _ _ _ _ Hv Happ).
  destruct (apply_chain _ _ _ _ Happ) as (v1 & v2 & v3 & _ & _ & _ & _ & S5 & _).
  unfold op_step in *. destruct (ops !! op_name OpSubsetOf) as [raw|] eqn:Hraw; [|done].
  specialize (Hsat _ _ Hraw). cbn in S5, Hsat |- *. unfold applySubsetOfOperator in *.
  destruct v3 as [r3 []]; simpl in S5; inv_policy; [|done]. simpl in *.
  destruct (intersectArrays_canonical _ _ _ H) as (l & -> & Hl).
  rewrite (intersectArrays_absorb l raw Hl (Hsat eq_refl)); [done|eauto].
Qed.

(** A resolved parameter meets every policy along the chain. *)
Lemma resolveMetadata_every_policy policies metadata resolved merged et raw :
  resolveMetadata policies metadata = Ok (resolved, merged) →
  metadata !! et = Some raw →
  ∃ result out, marshal_object result = Some out ∧ resolved !! et = Some out ∧
    ∀ claim, spaceDelimitedParameters claim = false →
    Forall (λ p, policy_satisfied (sp_policy p) et claim (param_value result claim)) policies.
Proof.
  unfold resolveMetadata. intros H Het. inv_policy.
  destruct (ApplyPolicy_satisfies _ _ _ _ _ _ H1 Het) as (result & out & Hm & Hl & Hsat).
  exists result, out. split_and!; [done..|]. intros claim Hsd.
  specialize (Hsat claim). rewrite Hsd in Hsat.
  by eapply resolveMetadataPolicies_stronger.
Qed.

(** * Properties *)

(** No superior's policy can be repealed: when a Trust Chain's policies
    resolve the subject's metadata, the resolved value of every parameter meets
    the policy of every subordinate statement of the chain, whatever the
    statements below it say. *)
Theorem resolveMetadata_meets_every_superior policies metadata resolved merged et raw :
  resolveMetadata policies metadata = Ok (resolved, merged) →
  metadata !! et = Some raw →
  ∃ result out, marshal_object result = Some out ∧ resolved !! et = Some out ∧
    ∀ claim, spaceDelimitedParameters claim = false →
    Forall (λ p, policy_satisfied (sp_policy p) et claim (param_value result claim)) policies.
Proof. apply resolveMetadata_every_policy. Qed.

(** The same for a space-delimited parameter (scope), judged as the array
    of its values: the resolved string is that array joined again. *)
Theorem resolveMetadata_meets_every_superior_scope policies metadata resolved merged et raw :
  resolveMetadata policies metadata = Ok (resolved, merged) →
  metadata !! et = Some raw →
  ∃ result out, marshal_object result = Some out ∧ resolved !! et = Some out ∧
    ∀ claim, spaceDelimitedParameters claim = true →
    ∃ arr, Forall (λ p, policy_satisfied (sp_policy p) et claim
                          (arr, (param_value result claim).2)) policies ∧
      ((param_value result claim).2 = true →
        arr = (param_value result claim).1 ∨
        joinSpaceDelimited arr = Ok (param_value result claim).1).
Proof.
  unfold resolveMetadata. intros H Het. inv_policy.
  destruct (ApplyPolicy_satisfies _ _ _ _ _ _ H1 Het) as (result & out & Hm & Hl & Hsat).
  exists result, out. split_and!; [done..|]. intros claim Hsd.
  specialize (Hsat claim). rewrite Hsd in Hsat. destruct Hsat as (arr & Hsat & Hj).
  exists arr. split; [|done]. by eapply resolveMetadataPolicies_stronger.
Qed.

(** Applying a parameter's policy to a value it has already resolved
    changes nothing and fails nowhere. *)
Theorem applyClaimPolicy_idempotent ops crit v w u :
  validateCombination ops crit = Ok u → applyClaimPolicy ops crit v = Ok w →
  applyClaimPolicy ops crit w = Ok w.
Proof.
  intros Hv%validateCombination_valid Happ.
  assert (Hsat := applyClaimPolicy_satisfies _ _ _ _ Hv Happ).
  apply apply_fixed; [|by eapply apply_critical].
  destruct (apply_chain _ _ _ _ Happ) as (v1 & v2 & v3 & S1 & S2 & S3 & S4 & S5 & S6 & S7).
  intros []; try done.
  - unfold op_step in S1 |- *. destruct (ops !! op_name OpValue) as [raw|] eqn:Hraw; [|done].
    cbn in S1 |- *. rewrite (value_operator_final _ _ _ _ _ Hv Hraw Happ).
    unfold applyValueOperator in *. inv_policy. rewrite H. simpl. unfold isJSONNull.
    rewrite H. case_decide; case_bool_decide; congruence.
  - by eapply add_step_again.
  - unfold op_step. destruct (ops !! op_name OpDefault) as [raw|] eqn:Hraw; [|done].
    cbn. unfold applyDefaultOperator. specialize (Hsat _ _ Hraw). cbn in Hsat.
    by rewrite Hsat.
  - destruct (ops !! op_name OpOneOf) as [raw|] eqn:Hraw.
    + destruct (valid_one_of _ Hv _ Hraw) as (_ & Hs & _).
      apply subset_step in S5 as (_ & _ & S5 & _). by rewrite (S5 Hs).
    + unfold op_step. by rewrite Hraw.
  - by eapply subset_step_again.
Qed.

(** A policy never gives an entity metadata of a type it did not declare,
    and drops none it declared. *)
Theorem resolveMetadata_entity_types policies metadata resolved merged :
  resolveMetadata policies metadata = Ok (resolved, merged) →
  dom resolved = dom metadata.
Proof.
  unfold resolveMetadata, ApplyPolicy. intros H. inv_policy.
  apply set_eq. intros et. rewrite !elem_of_dom.
  assert (Hm := map_range_Ok _ _ _ et H1). destruct (metadata !! et).
  - destruct Hm as (out & _ & ->). split; eauto.
  - rewrite Hm. done.
Qed.

(** Joining the values of a space-delimited parameter and splitting the
    result gives the same array, when no value holds white space of any kind. *)
Theorem split_join_roundtrip parts :
  Forall (λ p, is_field p = true ∧ unrepresentable p = false) parts →
  ∃ raw, joinSpaceDelimited (Raw (JArr (JStr <$> parts))) = Ok raw ∧
         splitSpaceDelimited raw = Raw (JArr (JStr <$> parts)).
Proof.
  intros Hall.
  assert (Hparts : space_delimited_parts (JStr <$> parts) = Ok parts).
  { induction Hall as [|p ps [_ Hp] _ IH]; cbn; [done|].
    change (list_fmap string json JStr ps) with (JStr <$> ps). by rewrite Hp, IH. }
  exists (Raw (JStr (join " " parts))). unfold joinSpaceDelimited. simpl.
  rewrite Hparts. split; [done|]. unfold splitSpaceDelimited. simpl.
  rewrite fields_join; [done|]. eapply Forall_impl; [exact Hall|]. by intros p [].
Qed.

(** PermittedStrings lists every string the policy lets a parameter take:
    a string the policy resolves a constrained parameter to is in the list. *)
Theorem PermittedStrings_complete ops crit u v s permitted :
  validateCombination ops crit = Ok u →
  applyClaimPolicy ops crit v = Ok (Raw (JStr s), true) →
  PermittedStrings ops = Ok (permitted, true) →
  s ∈ permitted.
Proof.
  intros Hv%validateCombination_valid Happ Hp.
  assert (Hsat := applyClaimPolicy_satisfies _ _ _ _ Hv Happ).
  unfold PermittedStrings in Hp.
  destruct (ops !! op_name OpValue) as [raw|] eqn:Hval.
  - assert (Hfin := value_operator_final _ _ _ _ _ Hv Hval Happ).
    destruct (isJSONNull raw); [done|]. injection Hfin as <-. simpl in Hp.
    injection Hp as <-. set_solver.
  - destruct (ops !! op_name OpOneOf) as [raw|] eqn:Hone; [|done].
    destruct (Hsat _ _ Hone eq_refl) as (x & lb & Hx & Hlb & (j & Hj & Hjx)).
    rewrite Hlb in Hp. simpl in Hp. injection Hp as <-.
    apply list_elem_of_omap. exists j. split; [done|].
    unfold canonicalJSON in Hx, Hjx. simpl in Hx. injection Hx as <-. inv_policy.
    destruct j; simpl in *; repeat case_match; simplify_eq/=; try done.
    + by destruct (parse_float n); simplify_eq/=; case_match.
    + by destruct (mapM decode_any l); simplify_eq/=.
    + by destruct (mapM _ members); simplify_eq/=.
Qed.

(** * The theorems on a concrete chain

    A trust anchor restricts the client authentication methods and requires
    the openid scope; an intermediate narrows the methods. *)

Definition example_superior : MetadataPolicy :=
  {["openid_relying_party" :=
     {["token_endpoint_auth_method" :=
        {["one_of" := Raw (JArr [JStr "private_key_jwt"; JStr "tls_client_auth"])]};
       "scope" := {["add" := Raw (JArr [JStr "openid"])]}]}]}.

Definition example_subordinate : MetadataPolicy :=
  {["openid_relying_party" :=
     {["token_endpoint_auth_method" :=
        {["one_of" := Raw (JArr [JStr "private_key_jwt"; JStr "none"]);
          "essential" := Raw (JBool true)]}]}]}.

Definition example_policies : list subordinatePolicy :=
  [{| sp_policy := example_superior; sp_crit := [] |};
   {| sp_policy := example_subordinate; sp_crit := [] |}].

Definition example_metadata : gmap string RawMessage :=
  {["openid_relying_party" :=
     Raw (JObj [("scope", JStr "profile");
                ("token_endpoint_auth_method", JStr "private_key_jwt")])]}.

Definition example_resolution : gmap string RawMessage * MetadataPolicy :=
  match resolveMetadata example_policies example_metadata with
  | Ok r => r
  | Err _ => (∅, ∅)
  end.

Definition example_resolved : gmap string RawMessage := example_resolution.1.
Definition example_merged : MetadataPolicy := example_resolution.2.

Lemma example_resolves :
  resolveMetadata example_policies example_metadata = Ok (example_resolved, example_merged).
Proof.
  assert (Hok : is_ok (resolveMetadata example_policies example_metadata) = true)
    by (vm_compute; reflexivity).
  unfold example_resolved, example_merged, example_resolution.
  destruct (resolveMetadata _ _) as [[]|]; [reflexivity|discriminate].
Qed.

Lemma resolveMetadata_meets_every_superior_witness :
  ∃ result out, marshal_object result = Some out ∧
    example_resolved !! "openid_relying_party" = Some out ∧
    ∀ claim, spaceDelimitedParameters claim = false →
    Forall (λ p, policy_satisfied (sp_policy p) "openid_relying_party" claim
      (param_value result claim)) example_policies.
Proof.
  refine (resolveMetadata_meets_every_superior example_policies example_metadata
    example_resolved example_merged "openid_relying_party" _ example_resolves eq_refl).
Defined.

Lemma resolveMetadata_meets_every_superior_scope_witness :
  ∃ result out, marshal_object result = Some out ∧
    example_resolved !! "openid_relying_party" = Some out ∧
    ∀ claim, spaceDelimitedParameters claim = true →
    ∃ arr, Forall (λ p, policy_satisfied (sp_policy p) "openid_relying_party" claim
                          (arr, (param_value result claim).2)) example_policies ∧
      ((param_value result claim).2 = true →
        arr = (param_value result claim).1 ∨
        joinSpaceDelimited arr = Ok (param_value result claim).1).
Proof.
  refine (resolveMetadata_meets_every_superior_scope example_policies example_metadata
    example_resolved example_merged "openid_relying_party" _ example_resolves eq_refl).
Defined.

Lemma resolveMetadata_entity_types_witness : dom example_resolved = dom example_metadata.
Proof.
  refine (resolveMetadata_entity_types example_policies example_metadata
    example_resolved example_merged example_resolves).
Defined.

Definition example_operators : PolicyOperators :=
  {["add" := Raw (JArr [JStr "b"]);
    "subset_of" := Raw (JArr [JStr "a"; JStr "b"])]}.

Lemma applyClaimPolicy_idempotent_witness :
  applyClaimPolicy example_operators ∅ (Raw (JArr [JStr "a"; JStr "b"]), true) =
    Ok (Raw (JArr [JStr "a"; JStr "b"]), true).
Proof.
  refine (applyClaimPolicy_idempotent example_operators ∅ (Raw (JArr [JStr "a"]), true)
    (Raw (JArr [JStr "a"; JStr "b"]), true) tt _ _); vm_compute; reflexivity.
Defined.

Lemma split_join_roundtrip_witness :
  ∃ raw, joinSpaceDelimited (Raw (JArr (JStr <$> ["openid"; "email"]))) = Ok raw ∧
         splitSpaceDelimited raw = Raw (JArr (JStr <$> ["openid"; "email"])).
Proof.
  refine (split_join_roundtrip ["openid"; "email"] _).
  repeat constructor; vm_compute; reflexivity.
Defined.

Definition example_one_of : PolicyOperators :=
  {["one_of" := Raw (JArr [JStr "private_key_jwt"; JStr "tls_client_auth"])]}.

Lemma PermittedStrings_complete_witness :
  "tls_client_auth" ∈ ["private_key_jwt"; "tls_client_auth"].
Proof.
  refine (PermittedStrings_complete example_one_of ∅ tt
    (Raw (JStr "tls_client_auth"), true) "tls_client_auth" _ _ _ _);
    vm_compute; reflexivity.
Defined.
