(* ===== verification/Constraints.v ===== *)
(** Trust Chain constraints: src/federation/constraints.go.

    [url_hostname] stands for net/url: the host ([URL.Hostname]) of an entity
    identifier [url.Parse] accepts. *)
From S2P Require Import Prelude GoStrings Json.
From stdpp Require Import options.

(** * Data (src/internal/federation/claims.go) *)

Record NamingConstraints := MkNamingConstraints {
  Permitted : list string;
  Excluded : list string;
}.

(** The claim's optional members; [AllowedEntityTypes] tells an absent claim
    (nil) from an empty array. *)
Record Constraints := MkConstraints {
  MaxPathLength : Z;
  HasMaxPathLength : bool;
  NamingConstraintsClaim : option NamingConstraints;
  AllowedEntityTypes : option (list string);
}.

Record subordinateConstraint := MkSubordinateConstraint {
  sc_constraints : Constraints;
  appliesTo : list string;
}.

Inductive constraint_error :=
| ErrInvalidEntityID (entityID : string)
| ErrExcluded (entityID excluded : string)
| ErrNotPermitted (entityID : string)
| ErrPathTooLong (count limit : Z).

Abbreviation cresult := (result constraint_error).

Definition federationEntityType : string := "federation_entity".

(** * Naming constraints *)

Definition domainNameConstraintMatches (constraint host : string) : bool :=
  if has_prefix constraint "." then
    bool_decide (String.length constraint < String.length host)%nat &&
    EqualFoldASCII
      (drop_bytes (String.length host - String.length constraint) host) constraint
  else EqualFoldASCII constraint host.

Section naming.
Context (url_hostname : string → option string).

Definition entityIDHost (entityID : string) : cresult string :=
  match url_hostname entityID with
  | None => Err (ErrInvalidEntityID entityID)
  | Some host => Ok (trim_suffix host ".")
  end.

Definition checkNamingConstraint (nc : NamingConstraints) (entityID : string)
    : cresult unit :=
  host ← entityIDHost entityID;
  for_all (λ excluded,
    guard_err (negb (domainNameConstraintMatches excluded host))
      (ErrExcluded entityID excluded)) (Excluded nc) ;;
  match Permitted nc with
  | [] => Ok tt
  | permitted =>
      guard_err (existsb (λ p, domainNameConstraintMatches p host) permitted)
        (ErrNotPermitted entityID)
  end.

Definition checkNamingConstraints (constraints : list subordinateConstraint)
    : cresult unit :=
  for_all (λ sc,
    match NamingConstraintsClaim (sc_constraints sc) with
    | None => Ok tt
    | Some nc => for_all (checkNamingConstraint nc) (appliesTo sc)
    end) constraints.
End naming.

(** * Path length *)

(** [len(sc.appliesTo) - 1], a Go int: -1 for an empty slice. *)
Definition intermediateCount (sc : subordinateConstraint) : Z :=
  (Z.of_nat (length (appliesTo sc)) - 1)%Z.

Definition checkMaxPathLengthConstraints (constraints : list subordinateConstraint)
    : cresult unit :=
  for_all (λ sc,
    if HasMaxPathLength (sc_constraints sc) then
      guard_err (negb (MaxPathLength (sc_constraints sc) <? intermediateCount sc)%Z)
        (ErrPathTooLong (intermediateCount sc) (MaxPathLength (sc_constraints sc)))
    else Ok tt) constraints.

(** * Entity types *)

Definition allowedSets (constraints : list subordinateConstraint) : list (list string) :=
  omap (λ sc, AllowedEntityTypes (sc_constraints sc)) constraints.

Definition entity_type_allowed (sets : list (list string)) (entityType : string) : bool :=
  bool_decide (entityType = federationEntityType) ||
  forallb (λ set, bool_decide (entityType ∈ set)) sets.

Definition filterAllowedEntityTypes (constraints : list subordinateConstraint)
    (metadata : gmap string RawMessage) : gmap string RawMessage :=
  match allowedSets constraints with
  | [] => metadata
  | sets => filter (λ p, entity_type_allowed sets p.1 = true) metadata
  end.

(** * Lemmas *)

Lemma entity_type_allowed_spec sets et :
  entity_type_allowed sets et = true ↔
  et = federationEntityType ∨ ∀ set, set ∈ sets → et ∈ set.
Proof.
  unfold entity_type_allowed.
  rewrite orb_true_iff, bool_decide_eq_true, forallb_forall.
  setoid_rewrite bool_decide_eq_true. by setoid_rewrite list_elem_of_In.
Qed.

Lemma filterAllowedEntityTypes_lookup constraints metadata et :
  filterAllowedEntityTypes constraints metadata !! et =
  if entity_type_allowed (allowedSets constraints) et then metadata !! et else None.
Proof.
  unfold filterAllowedEntityTypes. destruct (allowedSets constraints) as [|s sets].
  - unfold entity_type_allowed. simpl. by rewrite orb_true_r.
  - rewrite map_lookup_filter. destruct (metadata !! et); simpl; [|by case_match].
    case_guard as H; simpl.
    + by rewrite H.
    + by destruct (entity_type_allowed (s :: sets) et).
Qed.

Lemma elem_of_allowedSets constraints set :
  set ∈ allowedSets constraints ↔
  ∃ sc, sc ∈ constraints ∧ AllowedEntityTypes (sc_constraints sc) = Some set.
Proof. apply list_elem_of_omap. Qed.

Lemma has_prefix_dot c : has_prefix c "." = true ↔ ∃ rest, c = String "." rest.
Proof. rewrite has_prefix_spec. done. Qed.

Lemma LowerASCII_app a b : LowerASCII (a +:+ b) = LowerASCII a +:+ LowerASCII b.
Proof. induction a; simpl; congruence. Qed.

Lemma take_drop_bytes n s :
  (n ≤ String.length s)%nat →
  ∃ p, s = p +:+ drop_bytes n s ∧ String.length p = n.
Proof.
  revert s. induction n as [|n IH]; intros s Hn; [by exists ""|].
  destruct s as [|c s]; simpl in *; [lia|].
  destruct (IH s) as (p & Hp & Hl); [lia|]. exists (String c p). simpl.
  split; congruence.
Qed.

(** What a name constraint matches: the exact host, or, written with a leading
    dot, the hosts with at least one more byte (label) before it; letter case
    is ignored in ASCII only. *)
Definition in_namespace (constraint host : string) : Prop :=
  if has_prefix constraint "."
  then ∃ p, p ≠ "" ∧ LowerASCII host = p +:+ LowerASCII constraint
  else LowerASCII host = LowerASCII constraint.

Lemma string_length_zero s : String.length s = O ↔ s = "".
Proof. by destruct s. Qed.

Lemma domainNameConstraintMatches_spec constraint host :
  domainNameConstraintMatches constraint host = true ↔ in_namespace constraint host.
Proof.
  unfold domainNameConstraintMatches, in_namespace.
  destruct (has_prefix constraint "."); [|rewrite EqualFoldASCII_spec; done].
  rewrite andb_true_iff, bool_decide_eq_true, EqualFoldASCII_spec. split.
  - intros [Hlen Heq].
    destruct (take_drop_bytes (String.length host - String.length constraint) host)
      as (p & Hp & Hl); [lia|].
    exists (LowerASCII p). split.
    + intros H%string_length_zero. rewrite LowerASCII_length in H. lia.
    + rewrite Hp at 1. by rewrite LowerASCII_app, Heq.
  - intros (p & Hne & Hp).
    assert (Hlen := f_equal String.length Hp).
    rewrite string_length_app, !LowerASCII_length in Hlen.
    assert (Hpos : String.length p ≠ O) by by rewrite string_length_zero.
    split; [lia|].
    destruct (take_drop_bytes (String.length host - String.length constraint) host)
      as (q & Hq & Hl); [lia|].
    rewrite Hq, LowerASCII_app in Hp at 1.
    assert (Hq' : String.length (LowerASCII q) = String.length p).
    { rewrite LowerASCII_length. lia. }
    revert Hp Hq'. generalize (LowerASCII q) as q'. clear.
    induction p as [|c p IH]; intros [|d q'] Hp Hl; try done.
    injection Hp as _ Hp. injection Hl as Hl. by apply (IH q').
Qed.

Section naming_lemmas.
Context (url_hostname : string → option string).

Lemma checkNamingConstraint_Ok nc entityID u :
  checkNamingConstraint url_hostname nc entityID = Ok u ↔
  ∃ host, entityIDHost url_hostname entityID = Ok host ∧
    (∀ e, e ∈ Excluded nc → ¬ in_namespace e host) ∧
    (Permitted nc = [] ∨ ∃ p, p ∈ Permitted nc ∧ in_namespace p host).
Proof.
  unfold checkNamingConstraint. rewrite bind_Ok.
  assert (Hex : ∀ host v, for_all (λ e, guard_err
    (negb (domainNameConstraintMatches e host)) (ErrExcluded entityID e)) (Excluded nc) = Ok v
    ↔ ∀ e, e ∈ Excluded nc → ¬ in_namespace e host).
  { intros host v. rewrite for_all_Ok, Forall_forall.
    setoid_rewrite guard_err_Ok. setoid_rewrite negb_true_iff.
    setoid_rewrite <-not_true_iff_false.
    by setoid_rewrite domainNameConstraintMatches_spec. }
  assert (Hperm : ∀ host, existsb (λ p, domainNameConstraintMatches p host) (Permitted nc) = true
    ↔ ∃ p, p ∈ Permitted nc ∧ in_namespace p host).
  { intros host. rewrite existsb_exists. setoid_rewrite domainNameConstraintMatches_spec.
    by setoid_rewrite <-list_elem_of_In. }
  split.
  - intros (host & Hh & H). apply bind_Ok in H as (v & Hv & H).
    exists host. split_and!; [done|by eapply Hex|].
    destruct (Permitted nc) as [|p ps] eqn:Hp; [by left|right].
    apply guard_err_Ok in H. by apply Hperm.
  - intros (host & Hh & He & Hp). exists host. split; [done|].
    apply bind_Ok. exists tt. split; [by apply Hex|]. destruct u.
    destruct (Permitted nc) as [|p ps] eqn:Hpn; [done|].
    apply guard_err_Ok, Hperm. by destruct Hp.
Qed.
End naming_lemmas.

(** Every entity below each constraint's issuer is in its namespaces. *)
Lemma checkNamingConstraints_Ok url_hostname constraints :
  checkNamingConstraints url_hostname constraints = Ok tt ↔
  ∀ sc nc entityID, sc ∈ constraints → NamingConstraintsClaim (sc_constraints sc) = Some nc →
    entityID ∈ appliesTo sc →
    ∃ host, entityIDHost url_hostname entityID = Ok host ∧
      (∀ e, e ∈ Excluded nc → ¬ in_namespace e host) ∧
      (Permitted nc = [] ∨ ∃ p, p ∈ Permitted nc ∧ in_namespace p host).
Proof.
  unfold checkNamingConstraints. rewrite for_all_Ok, Forall_forall. split.
  - intros H sc nc entityID Hsc Hnc Hin. specialize (H sc Hsc). rewrite Hnc in H.
    apply for_all_Ok in H. rewrite Forall_forall in H.
    eapply checkNamingConstraint_Ok. by apply H.
  - intros H sc Hsc. destruct (NamingConstraintsClaim _) as [nc|] eqn:Hnc; [|done].
    apply for_all_Ok, Forall_forall. intros entityID Hin.
    apply checkNamingConstraint_Ok. by eapply H.
Qed.

(** * Properties *)

(** Naming constraints hold exactly when every entity below each
    constraint's issuer has a parseable host outside all of its excluded
    namespaces and, when it lists any, inside one of its permitted ones:
    exclusion wins, and a constraint with a leading dot never matches the bare
    domain. *)
Theorem checkNamingConstraints_correct url_hostname constraints :
  checkNamingConstraints url_hostname constraints = Ok tt ↔
  ∀ sc nc entityID, sc ∈ constraints → NamingConstraintsClaim (sc_constraints sc) = Some nc →
    entityID ∈ appliesTo sc →
    ∃ host, entityIDHost url_hostname entityID = Ok host ∧
      (∀ e, e ∈ Excluded nc → ¬ in_namespace e host) ∧
      (Permitted nc = [] ∨ ∃ p, p ∈ Permitted nc ∧ in_namespace p host).
Proof. apply checkNamingConstraints_Ok. Qed.

(** An entity type of the subject's metadata survives exactly when it is
    federation_entity or every constraint that lists allowed types lists it;
    a surviving type keeps its metadata and nothing is added. *)
Theorem filterAllowedEntityTypes_correct constraints metadata et raw :
  filterAllowedEntityTypes constraints metadata !! et = Some raw ↔
  metadata !! et = Some raw ∧
  (et = federationEntityType ∨
   ∀ sc set, sc ∈ constraints → AllowedEntityTypes (sc_constraints sc) = Some set → et ∈ set).
Proof.
  rewrite filterAllowedEntityTypes_lookup.
  assert (Hspec := entity_type_allowed_spec (allowedSets constraints) et).
  setoid_rewrite elem_of_allowedSets in Hspec.
  destruct (entity_type_allowed _ et).
  - split; [|by intros []]. intros Hm. split; [done|].
    destruct (proj1 Hspec eq_refl) as [|Hall]; [by left|right]. eauto.
  - split; [done|]. intros [_ [Hf|Hall]].
    + discriminate (proj2 Hspec (or_introl Hf)).
    + assert (false = true); [|done]. apply Hspec. right.
      intros set (sc & Hsc & Hset). eauto.
Qed.

(** The path length check holds exactly when no statement with a
    max_path_length has more intermediates below it than that. *)
Theorem checkMaxPathLengthConstraints_correct constraints :
  checkMaxPathLengthConstraints constraints = Ok tt ↔
  ∀ sc, sc ∈ constraints → HasMaxPathLength (sc_constraints sc) = true →
    (Z.of_nat (length (appliesTo sc)) - 1 <= MaxPathLength (sc_constraints sc))%Z.
Proof.
  unfold checkMaxPathLengthConstraints. rewrite for_all_Ok, Forall_forall.
  split; intros H sc Hsc; specialize (H sc Hsc).
  - intros Hhas. rewrite Hhas, guard_err_Ok, negb_true_iff, Z.ltb_ge in H. done.
  - destruct (HasMaxPathLength _); [|done].
    apply guard_err_Ok, negb_true_iff, Z.ltb_ge. by apply H.
Qed.
