(* ===== verification/GoTime.v ===== *)
(** Package [time] as the modelled code uses it, and
    src/internal/timeutil/timeutil.go.

    A [time.Time] is the instant it names, in nanoseconds since the epoch,
    its location dropped; a [time.Duration] is an int64 of nanoseconds.
    [Time.Add] is exact (an instant an int64 of seconds cannot hold is out
    of the model), [Time.Sub] saturates, and a sum of durations wraps. *)
From S2P Require Import Prelude.
From stdpp Require Import options.
Local Open Scope Z_scope.

Definition MaxInt64 : Z := 9223372036854775807.
Definition MinInt64 : Z := -9223372036854775808.

(** The int64 a mathematical integer wraps to. *)
Definition int64 (z : Z) : Z := (z + 2 ^ 63) mod 2 ^ 64 - 2 ^ 63.

Definition is_int64 (z : Z) : Prop := MinInt64 ≤ z ≤ MaxInt64.

Lemma int64_id z : is_int64 z → int64 z = z.
Proof.
  unfold is_int64, MinInt64, MaxInt64, int64. intros Hz.
  rewrite Z.mod_small; lia.
Qed.

Lemma int64_bounds z : is_int64 (int64 z).
Proof.
  unfold is_int64, MinInt64, MaxInt64, int64.
  assert (H := Z.mod_pos_bound (z + 2 ^ 63) (2 ^ 64) ltac:(lia)). lia.
Qed.

Abbreviation Time := Z.
Abbreviation Duration := Z.

Definition Second : Duration := 1000000000.

(** The zero [time.Time]: January 1, year 1, 00:00:00 UTC. *)
Definition zero_time : Time := -62135596800 * Second.
Definition IsZero (t : Time) : bool := bool_decide (t = zero_time).

Definition Before (t u : Time) : bool := bool_decide (t < u).
Definition After (t u : Time) : bool := bool_decide (u < t).
Definition Add (t : Time) (d : Duration) : Time := t + d.
Definition Sub (t u : Time) : Duration := Z.max MinInt64 (Z.min MaxInt64 (t - u)).

(** [time.Unix(sec, 0)] *)
Definition Unix (sec : Z) : Time := sec * Second.

(** * timeutil.SaturatingAdd *)

Fixpoint saturating_add_from (sum : Duration) (durations : list Duration) : Duration :=
  match durations with
  | [] => sum
  | d :: ds =>
    if bool_decide (d > 0) && bool_decide (sum > int64 (MaxInt64 - d)) then MaxInt64
    else saturating_add_from (int64 (sum + d)) ds
  end.

Definition SaturatingAdd (durations : list Duration) : Duration :=
  saturating_add_from 0 durations.

Definition sum_durations (ds : list Duration) : Z := foldr Z.add 0 ds.

Lemma saturating_add_from_spec ds : ∀ sum,
  0 ≤ sum ≤ MaxInt64 → Forall (λ d, 0 ≤ d ≤ MaxInt64) ds →
  saturating_add_from sum ds = Z.min MaxInt64 (sum + sum_durations ds).
Proof.
  induction ds as [|d ds IH]; intros sum Hs Hds; cbn [saturating_add_from sum_durations foldr].
  { lia. }
  apply Forall_cons in Hds as [Hd Hds].
  assert (Hrest : 0 ≤ sum_durations ds).
  { clear IH. induction Hds; cbn [sum_durations foldr]; [lia|].
    unfold sum_durations in *. lia. }
  rewrite (int64_id (MaxInt64 - d)) by (unfold is_int64, MinInt64, MaxInt64 in *; lia).
  fold (sum_durations ds).
  destruct (bool_decide_reflect (d > 0)), (bool_decide_reflect (sum > MaxInt64 - d)); simpl;
    [unfold MaxInt64 in *; lia|..];
    (rewrite int64_id by (unfold is_int64, MinInt64, MaxInt64 in *; lia));
    rewrite IH by (try done; lia); f_equal; lia.
Qed.

(** On the lifetimes and skews the callers add, none of them negative, the
    result is the exact sum capped at the largest Duration. *)
Lemma SaturatingAdd_spec ds :
  Forall (λ d, 0 ≤ d ≤ MaxInt64) ds →
  SaturatingAdd ds = Z.min MaxInt64 (sum_durations ds).
Proof.
  intros Hds. unfold SaturatingAdd. rewrite saturating_add_from_spec; [done|..|done].
  unfold MaxInt64; lia.
Qed.

(** Whatever the durations, the result is a Duration. *)
Lemma SaturatingAdd_bounds ds : is_int64 (SaturatingAdd ds).
Proof.
  unfold SaturatingAdd. assert (H : is_int64 0) by (unfold is_int64, MinInt64, MaxInt64; lia).
  revert H. generalize 0. induction ds as [|d ds IH]; intros sum Hs; simpl; [done|].
  destruct (_ && _); [unfold is_int64, MinInt64, MaxInt64; lia|].
  apply IH, int64_bounds.
Qed.
