(* ===== verification/Sha256.v ===== *)
(** SHA-256 and SHA-512 (FIPS 180-4), which the modelled code takes from
    crypto/sha256 and crypto/sha512. A digest is the string of its 32 or 64
    bytes. *)
From S2P Require Import Prelude GoStrings.
From stdpp Require Import options.

Local Open Scope N_scope.

Definition w32 (x : N) : N := N.land x 4294967295.
Definition add32 (x y : N) : N := w32 (x + y).
Definition not32 (x : N) : N := N.lxor x 4294967295.
Definition rotr (n x : N) : N :=
  N.lor (N.shiftr x n) (w32 (N.shiftl x (32 - n))).

Definition round_constants : list N :=
  [1116352408; 1899447441; 3049323471; 3921009573; 961987163; 1508970993;
   2453635748; 2870763221; 3624381080; 310598401; 607225278; 1426881987;
   1925078388; 2162078206; 2614888103; 3248222580; 3835390401; 4022224774;
   264347078; 604807628; 770255983; 1249150122; 1555081692; 1996064986;
   2554220882; 2821834349; 2952996808; 3210313671; 3336571891; 3584528711;
   113926993; 338241895; 666307205; 773529912; 1294757372; 1396182291;
   1695183700; 1986661051; 2177026350; 2456956037; 2730485921; 2820302411;
   3259730800; 3345764771; 3516065817; 3600352804; 4094571909; 275423344;
   430227734; 506948616; 659060556; 883997877; 958139571; 1322822218;
   1537002063; 1747873779; 1955562222; 2024104815; 2227730452; 2361852424;
   2428436474; 2756734187; 3204031479; 3329325298].

Record state := St { sa : N; sb : N; sc : N; sd : N; se : N; sf : N; sg : N; sh : N }.

Definition initial : state :=
  St 1779033703 3144134277 1013904242 2773480762 1359893119 2600822924 528734635 1541459225.

Definition step (s : state) (kw : N) : state :=
  let '(St a b c d e f g h) := s in
  let s1 := N.lxor (rotr 6 e) (N.lxor (rotr 11 e) (rotr 25 e)) in
  let ch := N.lxor (N.land e f) (N.land (not32 e) g) in
  let t1 := w32 (h + s1 + ch + kw) in
  let s0 := N.lxor (rotr 2 a) (N.lxor (rotr 13 a) (rotr 22 a)) in
  let maj := N.lxor (N.land a b) (N.lxor (N.land a c) (N.land b c)) in
  St (w32 (t1 + s0 + maj)) a b c (add32 d t1) e f g.

(** The message schedule: [window] holds the last 16 words, oldest first. *)
Definition next_word (window : list N) : N :=
  let w i := nth i window 0 in
  let s0 x := N.lxor (rotr 7 x) (N.lxor (rotr 18 x) (N.shiftr x 3)) in
  let s1 x := N.lxor (rotr 17 x) (N.lxor (rotr 19 x) (N.shiftr x 10)) in
  w32 (s1 (w 14%nat) + w 9%nat + s0 (w 1%nat) + w 0%nat).

Fixpoint rounds (ks window : list N) (s : state) : state :=
  match ks with
  | [] => s
  | k :: ks =>
    rounds ks (drop 1 window ++ [next_word window]) (step s (add32 k (nth 0 window 0)))
  end.

Definition compress (s : state) (block : list N) : state :=
  let '(St a b c d e f g h) := s in
  let '(St a' b' c' d' e' f' g' h') := rounds round_constants block s in
  St (add32 a a') (add32 b b') (add32 c c') (add32 d d')
     (add32 e e') (add32 f f') (add32 g g') (add32 h h').

(** * Padding and bytes *)

Fixpoint bytes_of (s : string) : list N :=
  match s with EmptyString => [] | String c s => byte_code c :: bytes_of s end.

Definition string_of (l : list N) : string :=
  foldr (λ b s, String (ascii_of_N b) s) "" l.

(** The [n] big-endian bytes of [x]. *)
Fixpoint be_bytes (n : nat) (x : N) : list N :=
  match n with
  | O => []
  | S n => N.land (N.shiftr x (8 * N.of_nat n)) 255 :: be_bytes n x
  end.

Definition pad (l : list N) : list N :=
  let len := N.of_nat (length l) in
  let zeros := N.to_nat ((119 - len mod 64) mod 64) in
  l ++ [128] ++ replicate zeros 0 ++ be_bytes 8 (8 * len).

Fixpoint words (fuel : nat) (l : list N) : list N :=
  match fuel, l with
  | S fuel, a :: b :: c :: d :: l =>
    N.lor (N.shiftl a 24) (N.lor (N.shiftl b 16) (N.lor (N.shiftl c 8) d)) :: words fuel l
  | _, _ => []
  end.

Fixpoint blocks (fuel : nat) (s : state) (ws : list N) : state :=
  match fuel, ws with
  | S fuel, _ :: _ => blocks fuel (compress s (take 16 ws)) (drop 16 ws)
  | _, _ => s
  end.

Definition digest_words (s : state) : list N :=
  let '(St a b c d e f g h) := s in [a; b; c; d; e; f; g; h].

(** [sha256.Sum256]. The message has at most [length] words and [length]
    blocks, which bounds both recursions. *)
Definition sha256 (msg : string) : string :=
  let l := pad (bytes_of msg) in
  let s := blocks (length l) initial (words (length l) l) in
  string_of (concat (be_bytes 4 <$> digest_words s)).

(** * Facts *)

Lemma string_of_length l : String.length (string_of l) = length l.
Proof. induction l; simpl; congruence. Qed.

Lemma be_bytes_length n x : length (be_bytes n x) = n.
Proof. induction n; simpl; congruence. Qed.

Lemma bytes_of_length s : length (bytes_of s) = String.length s.
Proof. induction s; simpl; congruence. Qed.

Lemma string_of_bytes_of s : string_of (bytes_of s) = s.
Proof. induction s; simpl; [done|]. by rewrite ascii_N_embedding, IHs. Qed.

Lemma bytes_of_bound s : Forall (λ b, b < 256) (bytes_of s).
Proof. induction s; simpl; constructor; [apply N_ascii_bounded|done]. Qed.

Lemma bytes_of_string_of l : Forall (λ b, b < 256) l → bytes_of (string_of l) = l.
Proof. induction 1; simpl; [done|]. rewrite N_ascii_embedding by done. congruence. Qed.

Lemma bytes_of_app a b : bytes_of (a +:+ b) = bytes_of a ++ bytes_of b.
Proof. induction a; simpl; congruence. Qed.

Lemma string_of_app a b : string_of (a ++ b) = string_of a +:+ string_of b.
Proof. induction a; simpl; congruence. Qed.

(** A digest is always 32 bytes. *)
Lemma sha256_length msg : String.length (sha256 msg) = 32%nat.
Proof.
  unfold sha256. rewrite string_of_length.
  destruct (blocks _ _ _). simpl. reflexivity.
Qed.

(** The FIPS 180-4 test vector for "abc". *)
Example sha256_abc :
  bytes_of (sha256 "abc") =
  [186; 120; 22; 191; 143; 1; 207; 234; 65; 65; 64; 222; 93; 174; 34; 35;
   176; 3; 97; 163; 150; 23; 122; 156; 180; 16; 255; 97; 242; 0; 21; 173].
Proof. vm_compute. reflexivity. Qed.

(** * SHA-512 (FIPS 180-4), which at_hash takes from crypto/sha512 for EdDSA
    (src/internal/token/validate.go, computeATHash). A digest is the string of
    its 64 bytes. *)

Module Sha512.

Definition w64 (x : N) : N := N.land x 18446744073709551615.
Definition add64 (x y : N) : N := w64 (x + y).
Definition not64 (x : N) : N := N.lxor x 18446744073709551615.
Definition rotr (n x : N) : N := N.lor (N.shiftr x n) (w64 (N.shiftl x (64 - n))).

Definition round_constants : list N :=
  [4794697086780616226; 8158064640168781261; 13096744586834688815; 16840607885511220156;
   4131703408338449720; 6480981068601479193; 10538285296894168987; 12329834152419229976;
   15566598209576043074; 1334009975649890238; 2608012711638119052; 6128411473006802146;
   8268148722764581231; 9286055187155687089; 11230858885718282805; 13951009754708518548;
   16472876342353939154; 17275323862435702243; 1135362057144423861; 2597628984639134821;
   3308224258029322869; 5365058923640841347; 6679025012923562964; 8573033837759648693;
   10970295158949994411; 12119686244451234320; 12683024718118986047; 13788192230050041572;
   14330467153632333762; 15395433587784984357; 489312712824947311; 1452737877330783856;
   2861767655752347644; 3322285676063803686; 5560940570517711597; 5996557281743188959;
   7280758554555802590; 8532644243296465576; 9350256976987008742; 10552545826968843579;
   11727347734174303076; 12113106623233404929; 14000437183269869457; 14369950271660146224;
   15101387698204529176; 15463397548674623760; 17586052441742319658; 1182934255886127544;
   1847814050463011016; 2177327727835720531; 2830643537854262169; 3796741975233480872;
   4115178125766777443; 5681478168544905931; 6601373596472566643; 7507060721942968483;
   8399075790359081724; 8693463985226723168; 9568029438360202098; 10144078919501101548;
   10430055236837252648; 11840083180663258601; 13761210420658862357; 14299343276471374635;
   14566680578165727644; 15097957966210449927; 16922976911328602910; 17689382322260857208;
   500013540394364858; 748580250866718886; 1242879168328830382; 1977374033974150939;
   2944078676154940804; 3659926193048069267; 4368137639120453308; 4836135668995329356;
   5532061633213252278; 6448918945643986474; 6902733635092675308; 7801388544844847127].

Definition initial : state :=
  St 7640891576956012808 13503953896175478587 4354685564936845355 11912009170470909681
     5840696475078001361 11170449401992604703 2270897969802886507 6620516959819538809.

Definition step (s : state) (kw : N) : state :=
  let '(St a b c d e f g h) := s in
  let s1 := N.lxor (rotr 14 e) (N.lxor (rotr 18 e) (rotr 41 e)) in
  let ch := N.lxor (N.land e f) (N.land (not64 e) g) in
  let t1 := w64 (h + s1 + ch + kw) in
  let s0 := N.lxor (rotr 28 a) (N.lxor (rotr 34 a) (rotr 39 a)) in
  let maj := N.lxor (N.land a b) (N.lxor (N.land a c) (N.land b c)) in
  St (w64 (t1 + s0 + maj)) a b c (add64 d t1) e f g.

(** The message schedule: [window] holds the last 16 words, oldest first. *)
Definition next_word (window : list N) : N :=
  let w i := nth i window 0 in
  let s0 x := N.lxor (rotr 1 x) (N.lxor (rotr 8 x) (N.shiftr x 7)) in
  let s1 x := N.lxor (rotr 19 x) (N.lxor (rotr 61 x) (N.shiftr x 6)) in
  w64 (s1 (w 14%nat) + w 9%nat + s0 (w 1%nat) + w 0%nat).

Fixpoint rounds (ks window : list N) (s : state) : state :=
  match ks with
  | [] => s
  | k :: ks =>
    rounds ks (drop 1 window ++ [next_word window]) (step s (add64 k (nth 0 window 0)))
  end.

Definition compress (s : state) (block : list N) : state :=
  let '(St a b c d e f g h) := s in
  let '(St a' b' c' d' e' f' g' h') := rounds round_constants block s in
  St (add64 a a') (add64 b b') (add64 c c') (add64 d d')
     (add64 e e') (add64 f f') (add64 g g') (add64 h h').

Definition pad (l : list N) : list N :=
  let len := N.of_nat (length l) in
  let zeros := N.to_nat ((239 - len mod 128) mod 128) in
  l ++ [128] ++ replicate zeros 0 ++ be_bytes 16 (8 * len).

Fixpoint words (fuel : nat) (l : list N) : list N :=
  match fuel, l with
  | S fuel, a :: b :: c :: d :: e :: f :: g :: h :: l =>
    N.lor (N.shiftl (N.lor (N.shiftl a 24) (N.lor (N.shiftl b 16) (N.lor (N.shiftl c 8) d))) 32)
          (N.lor (N.shiftl e 24) (N.lor (N.shiftl f 16) (N.lor (N.shiftl g 8) h)))
    :: words fuel l
  | _, _ => []
  end.

Fixpoint blocks (fuel : nat) (s : state) (ws : list N) : state :=
  match fuel, ws with
  | S fuel, _ :: _ => blocks fuel (compress s (take 16 ws)) (drop 16 ws)
  | _, _ => s
  end.

(** [sha512.Sum512]. The message has at most [length] words and [length]
    blocks, which bounds both recursions. *)
Definition sha512 (msg : string) : string :=
  let l := pad (bytes_of msg) in
  let s := blocks (length l) initial (words (length l) l) in
  string_of (concat (be_bytes 8 <$> digest_words s)).

End Sha512.

(** A digest is always 64 bytes. *)
Lemma sha512_length msg : String.length (Sha512.sha512 msg) = 64%nat.
Proof.
  unfold Sha512.sha512. rewrite string_of_length.
  destruct (Sha512.blocks _ _ _). simpl. reflexivity.
Qed.

(** The FIPS 180-4 test vector for the three letters abc. *)
Example sha512_abc :
  bytes_of (Sha512.sha512 "abc") =
  [221; 175; 53; 161; 147; 97; 122; 186; 204; 65; 115; 73; 174; 32; 65; 49; 18; 230; 250; 78;
   137; 169; 126; 162; 10; 158; 238; 230; 75; 85; 211; 154; 33; 146; 153; 42; 39; 79; 193;
   168; 54; 186; 60; 35; 163; 254; 235; 189; 69; 77; 68; 35; 100; 60; 232; 14; 42; 154; 201;
   79; 165; 76; 164; 159].
Proof. vm_compute. reflexivity. Qed.
