(* ===== verification/Base64.v ===== *)
(** Package [encoding/base64] as the modelled code uses it (RawURLEncoding,
    and the Strict decoders), [encoding/hex], and
    src/internal/strictb64/strictb64.go. Byte strings are Rocq strings. *)
From S2P Require Import Prelude GoStrings Sha256.
From stdpp Require Import options.
From Stdlib Require Import Zify ZifyN.
Local Open Scope N_scope.

(** * Alphabets *)

(** The characters of RFC 4648 §4 (62 and 63 are "+" and "/") and §5 ("-"
    and "_"). *)
Definition sextet_char (c62 c63 : ascii) (v : N) : ascii :=
  if v <? 26 then ascii_of_N (65 + v)
  else if v <? 52 then ascii_of_N (71 + v)
  else if v <? 62 then ascii_of_N (v - 4)
  else if v =? 62 then c62 else c63.

Definition sextet_value (c62 c63 : ascii) (c : ascii) : option N :=
  let n := byte_code c in
  if decide (c = c62) then Some 62
  else if decide (c = c63) then Some 63
  else if (65 <=? n) && (n <=? 90) then Some (n - 65)
  else if (97 <=? n) && (n <=? 122) then Some (n - 71)
  else if (48 <=? n) && (n <=? 57) then Some (n + 4)
  else None.

Record Encoding := { enc_62 : ascii; enc_63 : ascii; enc_padded : bool }.

Definition rawURL : Encoding := {| enc_62 := "-"; enc_63 := "_"; enc_padded := false |}.
Definition std : Encoding := {| enc_62 := "+"; enc_63 := "/"; enc_padded := true |}.

Definition char_of (e : Encoding) : N → ascii := sextet_char (enc_62 e) (enc_63 e).
Definition value_of (e : Encoding) : ascii → option N := sextet_value (enc_62 e) (enc_63 e).

(** * Encoding *)

Definition padding (e : Encoding) (n : nat) : string :=
  if enc_padded e then string_of (replicate n 61) else "".

Fixpoint encode_bytes (e : Encoding) (l : list N) : string :=
  match l with
  | [] => ""
  | [a] => String (char_of e (a / 4)) (String (char_of e (a mod 4 * 16)) (padding e 2))
  | [a; b] =>
    String (char_of e (a / 4)) (String (char_of e (a mod 4 * 16 + b / 16))
      (String (char_of e (b mod 16 * 4)) (padding e 1)))
  | a :: b :: c :: l =>
    String (char_of e (a / 4)) (String (char_of e (a mod 4 * 16 + b / 16))
      (String (char_of e (b mod 16 * 4 + c / 64))
        (String (char_of e (c mod 64)) (encode_bytes e l))))
  end.

(** [enc.EncodeToString] *)
Definition EncodeToString (e : Encoding) (s : string) : string := encode_bytes e (bytes_of s).

(** * Strict decoding *)

Definition quad (e : Encoding) (a b c d : ascii) : option (list N) :=
  value_of e a ≫= λ va, value_of e b ≫= λ vb, value_of e c ≫= λ vc, value_of e d ≫= λ vd,
  Some [va * 4 + vb / 16; vb mod 16 * 16 + vc / 4; vc mod 4 * 64 + vd].

(** The last quantum, of two or three characters: the bits they hold beyond
    the last byte must be zero. *)
Definition last2 (e : Encoding) (a b : ascii) : option (list N) :=
  value_of e a ≫= λ va, value_of e b ≫= λ vb,
  if vb mod 16 =? 0 then Some [va * 4 + vb / 16] else None.

Definition last3 (e : Encoding) (a b c : ascii) : option (list N) :=
  value_of e a ≫= λ va, value_of e b ≫= λ vb, value_of e c ≫= λ vc,
  if vc mod 4 =? 0 then Some [va * 4 + vb / 16; vb mod 16 * 16 + vc / 4] else None.

Fixpoint decode_bytes (e : Encoding) (s : string) : option (list N) :=
  match s with
  | EmptyString => Some []
  | String a (String b EmptyString) => if enc_padded e then None else last2 e a b
  | String a (String b (String c EmptyString)) => if enc_padded e then None else last3 e a b c
  | String a (String b (String c (String d s))) =>
    if enc_padded e && bool_decide (s = "") && bool_decide (d = "="%char) then
      if bool_decide (c = "="%char) then last2 e a b else last3 e a b c
    else quad e a b c d ≫= λ q, app q <$> decode_bytes e s
  | String _ EmptyString => None
  end.

(** [enc.Strict().DecodeString] of a value without line breaks, which the
    decoder would skip. *)
Definition DecodeString (e : Encoding) (s : string) : option string :=
  string_of <$> decode_bytes e s.

(** * strictb64 *)

Inductive strictb64_error := ErrLineBreak | CorruptInput.

Definition strictb64_decode (e : Encoding) (s : string) : result strictb64_error string :=
  if contains_any s (String (ascii_of_N 13) (String (ascii_of_N 10) ""))
  then Err ErrLineBreak
  else match DecodeString e s with Some b => Ok b | None => Err CorruptInput end.

Definition URL : string → result strictb64_error string := strictb64_decode rawURL.
Definition Std : string → result strictb64_error string := strictb64_decode std.

(** * [hex.EncodeToString] *)

Definition hex_digit (n : N) : ascii := ascii_of_N (if n <? 10 then 48 + n else 87 + n).

Fixpoint hex_encode (s : string) : string :=
  match s with
  | EmptyString => ""
  | String c s =>
    String (hex_digit (byte_code c / 16)) (String (hex_digit (byte_code c mod 16)) (hex_encode s))
  end.

(** * Canonical base64url *)

(** [char_of] and [value_of] are inverse on the two alphabets. *)
Definition good_encoding (e : Encoding) : Prop := e = rawURL ∨ e = std.

Lemma value_of_char_of e v : good_encoding e → v < 64 → value_of e (char_of e v) = Some v.
Proof.
  intros He Hv.
  assert (Hall : forallb (λ n, bool_decide (value_of rawURL (char_of rawURL (N.of_nat n)) = Some (N.of_nat n))
    && bool_decide (value_of std (char_of std (N.of_nat n)) = Some (N.of_nat n))) (seq 0 64) = true)
    by (vm_compute; reflexivity).
  rewrite forallb_forall in Hall.
  specialize (Hall (N.to_nat v)). rewrite in_seq, N2Nat.id in Hall.
  destruct (andb_prop _ _ (Hall ltac:(lia))) as [H1%bool_decide_eq_true H2%bool_decide_eq_true].
  by destruct He as [-> | ->].
Qed.

Lemma char_of_value_of e c v :
  good_encoding e → value_of e c = Some v → v < 64 ∧ char_of e v = c.
Proof.
  intros [-> | ->]; destruct c as [[] [] [] [] [] [] [] []];
    vm_compute; intros [= <-]; split; reflexivity.
Qed.

Lemma list_ind3 {A} (P : list A → Prop) :
  P [] → (∀ a, P [a]) → (∀ a b, P [a; b]) → (∀ a b c l, P l → P (a :: b :: c :: l)) →
  ∀ l, P l.
Proof.
  intros H0 H1 H2 H3. fix IH 1. intros [|a [|b [|c l]]]; [done|apply H1|apply H2|apply H3, IH].
Qed.

Lemma string_ind4 (P : string → Prop) :
  P "" → (∀ a, P (String a "")) → (∀ a b, P (String a (String b ""))) →
  (∀ a b c, P (String a (String b (String c "")))) →
  (∀ a b c d s, P s → P (String a (String b (String c (String d s))))) → ∀ s, P s.
Proof.
  intros H0 H1 H2 H3 H4. fix IH 1.
  intros [|a [|b [|c [|d s]]]]; [done|apply H1|apply H2|apply H3|apply H4, IH].
Qed.

Local Ltac Zify.zify_post_hook ::= Z.to_euclidean_division_equations.

Section raw_url.
Let good : good_encoding rawURL := or_introl eq_refl.

Local Ltac sextet :=
  repeat (rewrite value_of_char_of by first [exact good|lia]; cbn [mbind option_bind]).

Lemma decode_encode_bytes l :
  Forall (λ b, b < 256) l → decode_bytes rawURL (encode_bytes rawURL l) = Some l.
Proof.
  induction l as [|a|a b|a b c l IH] using list_ind3; intros Hl;
    repeat (apply Forall_cons in Hl as [? Hl]); cbn [encode_bytes decode_bytes];
    unfold quad, last2, last3; cbn [enc_padded rawURL padding andb]; sextet; [done|..].
  - rewrite (proj2 (N.eqb_eq _ _)) by lia. repeat f_equal; lia.
  - rewrite (proj2 (N.eqb_eq _ _)) by lia. repeat f_equal; lia.
  - rewrite IH by done. cbn [fmap option_fmap option_map app]. repeat f_equal; lia.
Qed.

Local Ltac values :=
  repeat match goal with
  | H : (value_of rawURL ?c ≫= _) = Some _ |- _ =>
      let v := fresh "v" in let Hv := fresh "Hv" in
      destruct (value_of rawURL c) as [v|] eqn:Hv; [|discriminate H]; cbn [mbind option_bind] in H;
      apply (char_of_value_of rawURL) in Hv as [? <-]; [|exact good]
  | H : (if ?x =? 0 then _ else _) = Some _ |- _ =>
      destruct (N.eqb_spec x 0); [|discriminate H]
  end.

Local Ltac same_chars := repeat (apply f_equal2; [apply f_equal; lia|]).

Lemma encode_decode_bytes s : ∀ l,
  decode_bytes rawURL s = Some l → Forall (λ b, b < 256) l ∧ encode_bytes rawURL l = s.
Proof.
  induction s as [|a|a b|a b c|a b c d s IH] using string_ind4; intros l;
    cbn [decode_bytes]; unfold quad, last2, last3; cbn [enc_padded rawURL andb]; intros Hd;
    [by injection Hd as <-|discriminate|..].
  - values. injection Hd as <-. split; [repeat constructor; lia|].
    cbn [encode_bytes padding enc_padded rawURL]. by same_chars.
  - values. injection Hd as <-. split; [repeat constructor; lia|].
    cbn [encode_bytes padding enc_padded rawURL]. by same_chars.
  - apply bind_Some in Hd as (q & Hq & Hd). values. injection Hq as <-.
    destruct (decode_bytes rawURL s) as [l'|]; [|discriminate Hd].
    injection Hd as <-. destruct (IH l' eq_refl) as [Hl <-]. cbn [app].
    split; [repeat (constructor; [lia|]); done|]. cbn [encode_bytes]. by same_chars.
Qed.
End raw_url.


(** The strict decoder accepts exactly the encodings, each of the one value
    it encodes. *)
Lemma DecodeString_rawURL s b :
  DecodeString rawURL s = Some b ↔ s = EncodeToString rawURL b.
Proof.
  unfold DecodeString, EncodeToString. rewrite fmap_Some. split.
  - intros (l & [Hl <-]%encode_decode_bytes & ->). by rewrite bytes_of_string_of.
  - intros ->. exists (bytes_of b).
    by rewrite decode_encode_bytes, string_of_bytes_of by apply bytes_of_bound.
Qed.

Lemma char_of_printable v : v < 64 → 33 <= byte_code (char_of rawURL v).
Proof.
  intros Hv.
  assert (Hall : forallb (λ n, 33 <=? byte_code (char_of rawURL (N.of_nat n))) (seq 0 64) = true)
    by (vm_compute; reflexivity).
  rewrite forallb_forall in Hall. specialize (Hall (N.to_nat v)).
  rewrite in_seq, N2Nat.id, N.leb_le in Hall. apply Hall. lia.
Qed.

(** No character of an encoding is a space or a control character. *)
Lemma encode_no_byte l c :
  Forall (λ b, b < 256) l → byte_code c < 33 → contains_byte (encode_bytes rawURL l) c = false.
Proof.
  intros Hl Hc.
  assert (Hv : ∀ v s, v < 64 → contains_byte (String (char_of rawURL v) s) c = contains_byte s c).
  { intros v s Hv%char_of_printable. cbn [contains_byte]. rewrite decide_False; [done|].
    intros <-. lia. }
  induction l as [|a|a b|a b c' l IH] using list_ind3;
    repeat (apply Forall_cons in Hl as [? Hl]); cbn [encode_bytes padding enc_padded rawURL];
    rewrite ?Hv by lia; auto.
Qed.

(** strictb64.URL accepts exactly the canonical unpadded base64url encodings. *)
Lemma URL_spec s b : URL s = Ok b ↔ s = EncodeToString rawURL b.
Proof.
  unfold URL, strictb64_decode. split.
  - destruct (contains_any _ _); [done|].
    destruct (DecodeString rawURL s) as [b'|] eqn:Hd; [|done]. intros [= <-].
    by apply DecodeString_rawURL.
  - intros Hs. rewrite (proj2 (DecodeString_rawURL s b)) by done.
    subst s. unfold EncodeToString. cbn [contains_any].
    by rewrite !encode_no_byte by (try apply bytes_of_bound; vm_compute; reflexivity).
Qed.

(** ** The text encoded: length and characters *)

Lemma encode_length l :
  String.length (encode_bytes rawURL l) = ((4 * length l + 2) / 3)%nat.
Proof.
  induction l as [|a|a b|a b c l IH] using list_ind3; [reflexivity..|].
  cbn [encode_bytes String.length length]. rewrite IH.
  replace (4 * S (S (S (length l))) + 2)%nat with (4 * length l + 2 + 4 * 3)%nat by lia.
  rewrite Nat.div_add by lia. lia.
Qed.

Fixpoint all_bytes (f : ascii → bool) (s : string) : bool :=
  match s with EmptyString => true | String c s => f c && all_bytes f s end.

Lemma encode_all_bytes f l :
  (∀ v, v < 64 → f (char_of rawURL v) = true) →
  Forall (λ b, b < 256) l → all_bytes f (encode_bytes rawURL l) = true.
Proof.
  intros Hf Hl. induction l as [|a|a b|a b c l IH] using list_ind3;
    repeat (apply Forall_cons in Hl as [? Hl]);
    cbn [encode_bytes padding enc_padded rawURL all_bytes]; rewrite ?Hf by lia; auto.
Qed.

Lemma EncodeToString_inj a b :
  EncodeToString rawURL a = EncodeToString rawURL b → a = b.
Proof.
  intros H. assert (Ha : DecodeString rawURL (EncodeToString rawURL a) = Some a)
    by by apply DecodeString_rawURL.
  rewrite H in Ha. assert (Hb : DecodeString rawURL (EncodeToString rawURL b) = Some b)
    by by apply DecodeString_rawURL. congruence.
Qed.
