(* ===== verification/Pkce.v ===== *)
(** PKCE (src/internal/pkce), random tokens (src/server/code.go), and the
    digests and keys derived with SHA-256: src/internal/replaykey,
    src/internal/grantrevocation, and the authorization code and auth_req_id
    digests of src/server/token.go and src/server/backchannel_token.go. *)
From S2P Require Import Prelude GoStrings Sha256 Base64.
From stdpp Require Import options.

(** * Randomness

    An [io.Reader] of random bytes is the bytes it has left. *)

Definition reader := string.

Fixpoint take_bytes (n : nat) (s : string) : option (string * string) :=
  match n, s with
  | O, _ => Some ("", s)
  | S n, String c s => prod_map (String c) id <$> take_bytes n s
  | S _, EmptyString => None
  end.

(** [io.ReadFull] into an [n]-byte buffer. *)
Definition ReadFull (n : nat) (random : reader) : option (string * reader) := take_bytes n random.

Lemma take_bytes_spec n : ∀ s buf rest,
  take_bytes n s = Some (buf, rest) → s = buf +:+ rest ∧ String.length buf = n.
Proof.
  induction n as [|n IH]; intros s buf rest; simpl; [naive_solver|].
  destruct s as [|c s]; [done|]. intros ([buf' rest'] & [-> Hl]%IH & [= -> ->])%fmap_Some.
  simpl. by rewrite Hl.
Qed.

Lemma take_bytes_total n : ∀ s, n ≤ String.length s → ∃ buf rest, take_bytes n s = Some (buf, rest).
Proof.
  induction n as [|n IH]; intros s Hs; simpl; [eauto|].
  destruct s as [|c s]; simpl in Hs; [lia|].
  destruct (IH s ltac:(lia)) as (buf & rest & ->). simpl. eauto.
Qed.

Inductive random_error := ErrRandom.

Definition generateRandomToken (random : reader) (size : nat)
    : result random_error (string * reader) :=
  match ReadFull size random with
  | Some (buf, random) => Ok (EncodeToString rawURL buf, random)
  | None => Err ErrRandom
  end.

Definition authorizationCodeSize : nat := 32.
Definition refreshTokenSize : nat := 32.
Definition opaqueAccessTokenSize : nat := 32.

Definition generateAuthorizationCode (random : reader) :=
  generateRandomToken random authorizationCodeSize.
Definition generateRefreshToken (random : reader) :=
  generateRandomToken random refreshTokenSize.
Definition generateOpaqueAccessToken (random : reader) :=
  generateRandomToken random opaqueAccessTokenSize.

(** * PKCE *)

(** [Method] is a uint8 whose only named value, S256, is 1. *)
Definition Method := N.
Definition S256 : Method := 1%N.

Inductive pkce_error :=
| ErrPlainMethodNotPermitted | ErrUnsupportedMethod
| ErrInvalidVerifierSyntax | ErrChallengeMismatch.

#[export] Instance pkce_error_eq_dec : EqDecision pkce_error.
Proof. solve_decision. Defined.

Definition method_string (m : Method) : string :=
  if decide (m = S256) then "S256" else "".

Definition ParseMethod (s : string) : result pkce_error Method :=
  if decide (s = "S256") then Ok S256
  else if decide (s = "plain") then Err ErrPlainMethodNotPermitted
  else Err ErrUnsupportedMethod.

Definition verifierEntropyBytes : nat := 32.
Definition minVerifierLength : nat := 43.
Definition maxVerifierLength : nat := 128.

Definition isUnreservedChar (c : ascii) : bool :=
  let n := byte_code c in
  ((65 <=? n) && (n <=? 90) || (97 <=? n) && (n <=? 122) || (48 <=? n) && (n <=? 57) ||
   (n =? 45) || (n =? 46) || (n =? 95) || (n =? 126))%N.

Definition validateVerifierSyntax (verifier : string) : result pkce_error unit :=
  if bool_decide (String.length verifier < minVerifierLength) ||
     bool_decide (maxVerifierLength < String.length verifier)
  then Err ErrInvalidVerifierSyntax
  else guard_err (all_bytes isUnreservedChar verifier) ErrInvalidVerifierSyntax.

Definition GenerateVerifier (random : reader) : result random_error (string * reader) :=
  generateRandomToken random verifierEntropyBytes.

Definition Challenge (verifier : string) (method : Method) : result pkce_error string :=
  validateVerifierSyntax verifier ;;
  if decide (method = S256) then Ok (EncodeToString rawURL (sha256 verifier))
  else Err ErrUnsupportedMethod.

(** [pkce.Verify]; ConstantTimeCompare is equality of the byte strings. *)
Definition Verify (challenge : string) (method : Method) (verifier : string)
    : result pkce_error unit :=
  computed ← Challenge verifier method;
  guard_err (bool_decide (computed = challenge)) ErrChallengeMismatch.

(** RFC 7636 §4.1 and §4.6. *)
Definition unreserved_verifier (verifier : string) : Prop :=
  43 ≤ String.length verifier ≤ 128 ∧ all_bytes isUnreservedChar verifier = true.

Lemma validateVerifierSyntax_Ok verifier u :
  validateVerifierSyntax verifier = Ok u ↔ unreserved_verifier verifier.
Proof.
  unfold validateVerifierSyntax, unreserved_verifier, minVerifierLength, maxVerifierLength.
  destruct (bool_decide_reflect (String.length verifier < 43)) as [Hl|Hl]; simpl.
  { split; [done|lia]. }
  destruct (bool_decide_reflect (128 < String.length verifier)) as [Hu|Hu]; simpl.
  { split; [done|lia]. }
  rewrite guard_err_Ok. split; [intros; split; [lia|done]|by intros [_ ?]].
Qed.

(** C40. RFC 7636 §4.6. [Verify] accepts exactly a verifier of 43 to 128
    unreserved characters whose S256 transform is the recorded challenge. *)
Theorem pkce_Verify_correct challenge method verifier u :
  Verify challenge method verifier = Ok u ↔
    method = S256 ∧ unreserved_verifier verifier ∧
    challenge = EncodeToString rawURL (sha256 verifier).
Proof.
  unfold Verify, Challenge. split.
  - intros H. inv_ok.
    match goal with H : validateVerifierSyntax _ = Ok _ |- _ =>
      apply validateVerifierSyntax_Ok in H end.
    destruct (decide (method = S256)); [|discriminate].
    inv_ok. by apply bool_decide_eq_true in H.
  - intros (-> & Hv & ->). apply (validateVerifierSyntax_Ok _ tt) in Hv. rewrite Hv. simpl.
    by rewrite guard_err_Ok, bool_decide_true.
Qed.

(** A generated verifier always satisfies the syntax [Verify] requires,
    so its own challenge verifies: a client following this library never
    fails PKCE by construction, and [GenerateVerifier] fails only when the
    random source has fewer than 32 bytes. *)
Theorem GenerateVerifier_verifies random :
  verifierEntropyBytes ≤ String.length random →
  ∃ verifier rest challenge, GenerateVerifier random = Ok (verifier, rest) ∧
    Challenge verifier S256 = Ok challenge ∧
    Verify challenge S256 verifier = Ok tt ∧
    String.length verifier = 43 ∧ String.length challenge = 43.
Proof.
  intros Hlen. apply take_bytes_total in Hlen as (buf & rest & Hr).
  unfold GenerateVerifier, generateRandomToken, ReadFull. rewrite Hr.
  apply take_bytes_spec in Hr as [_ Hlen].
  assert (Hsyn : unreserved_verifier (EncodeToString rawURL buf)).
  { unfold unreserved_verifier, EncodeToString. rewrite encode_length, bytes_of_length, Hlen.
    split; [vm_compute; lia|].
    apply encode_all_bytes; [|apply bytes_of_bound]. intros v Hv.
    assert (Hall : forallb (λ n, isUnreservedChar (char_of rawURL (N.of_nat n))) (seq 0 64) = true)
      by (vm_compute; reflexivity).
    rewrite forallb_forall in Hall. specialize (Hall (N.to_nat v)).
    rewrite in_seq, N2Nat.id in Hall. apply Hall. lia. }
  eexists _, _, (EncodeToString rawURL (sha256 (EncodeToString rawURL buf))).
  split; [reflexivity|]. split; [|split; [|split]].
  - unfold Challenge. by rewrite (proj2 (validateVerifierSyntax_Ok _ tt) Hsyn).
  - by apply pkce_Verify_correct.
  - unfold EncodeToString. by rewrite encode_length, bytes_of_length, Hlen.
  - unfold EncodeToString at 1. by rewrite encode_length, bytes_of_length, sha256_length.
Qed.

Definition example_random : reader := "0123456789abcdef0123456789abcdef".

Lemma GenerateVerifier_verifies_witness :
  ∃ verifier rest challenge, GenerateVerifier example_random = Ok (verifier, rest) ∧
    Challenge verifier S256 = Ok challenge ∧
    Verify challenge S256 verifier = Ok tt ∧
    String.length verifier = 43 ∧ String.length challenge = 43.
Proof.
  refine (GenerateVerifier_verifies example_random _). vm_compute. lia.
Defined.
