(* ===== verification/Digests.v ===== *)
(** What the program hashes, and the names it derives: the replay digest of
    src/internal/replaykey/replaykey.go, the revocation keys and grant IDs of
    src/internal/grantrevocation/grantrevocation.go, and the digests an
    authorization code and an auth_req_id are stored under
    (authorizationCodeHash in src/server/token.go, backchannelAuthReqIDHash
    in src/server/backchannel_token.go).

    Each digest is SHA-256 of an input built here; the separation theorems
    are about those inputs, so they hold without any assumption on the hash. *)
From S2P Require Import Prelude GoStrings Sha256 Base64.
From stdpp Require Import options.

(** The one-byte string NUL, ["\x00"]. *)
Definition nul : string := String "000" "".

(** [binary.BigEndian.PutUint64(n[:], uint64(len(s)))] *)
Definition uint64_be (n : nat) : string := string_of (be_bytes 8 (N.of_nat n)).

(** The bytes [replaykey.Digest] writes to the hash. *)
Definition replay_input (scope jti : string) : string :=
  uint64_be (String.length scope) +:+ scope +:+ jti.

Definition Digest (scope jti : string) : string := sha256 (replay_input scope jti).

(** * grantrevocation *)

Definition Claim : string := "grant_id".
Definition CodeClaim : string := "code_grant_id".

Definition Key (issuer grantID : string) : string := "grant:" +:+ grantID +:+ "@" +:+ issuer.
Definition Keys (issuer grantID : string) : list string :=
  [Key issuer grantID; "grant:" +:+ grantID].
Definition CodeKey (issuer codeGrantID : string) : string :=
  "code-grant:" +:+ codeGrantID +:+ "@" +:+ issuer.
Definition CodeKeys (issuer codeGrantID : string) : list string :=
  [CodeKey issuer codeGrantID; "code-grant:" +:+ codeGrantID].

Definition CodeGrantID (codeHash : string) : string :=
  EncodeToString rawURL (sha256 ("fapigo code grant v1" +:+ nul +:+ codeHash)).
Definition BackchannelGrantID (authReqIDHash : string) : string :=
  EncodeToString rawURL (sha256 ("fapigo backchannel grant v1" +:+ nul +:+ authReqIDHash)).

(** * The digests of codes and auth_req_ids *)

Definition codeHashPrefix : string := "fapigo authorization code" +:+ nul.
Definition attestedCodeHashPrefix : string := "fapigo attested authorization code" +:+ nul.

Definition code_hash_input (code instanceKey : string) : string :=
  if bool_decide (instanceKey = "") then codeHashPrefix +:+ code
  else attestedCodeHashPrefix +:+ instanceKey +:+ nul +:+ code.

Definition authorizationCodeHash (code instanceKey : string) : string :=
  sha256 (code_hash_input code instanceKey).

(** [strconv.Itoa] of a length. *)
Fixpoint itoa_from (fuel n : nat) (acc : string) : string :=
  match fuel with
  | O => acc
  | S fuel =>
    let acc := String (ascii_of_nat (48 + n mod 10)) acc in
    if bool_decide (n / 10 = 0) then acc else itoa_from fuel (n / 10) acc
  end.
Definition Itoa (n : nat) : string := itoa_from (S n) n "".

Definition backchannelAuthReqIDHashPrefix : string := "fapigo bound auth_req_id" +:+ nul.

Definition auth_req_id_input (authReqID instanceKey dpopJKT : string) : string :=
  if bool_decide (instanceKey = "") && bool_decide (dpopJKT = "") then authReqID
  else backchannelAuthReqIDHashPrefix +:+
    Itoa (String.length instanceKey) +:+ ":" +:+ instanceKey +:+
    Itoa (String.length dpopJKT) +:+ ":" +:+ dpopJKT +:+ authReqID.

Definition backchannelAuthReqIDHash (authReqID instanceKey dpopJKT : string) : string :=
  sha256 (auth_req_id_input authReqID instanceKey dpopJKT).

(** * Concatenations that determine their parts *)

Lemma string_app_inj_length (a b c d : string) :
  String.length a = String.length b → a +:+ c = b +:+ d → a = b ∧ c = d.
Proof.
  revert b. induction a as [|x a IH]; intros [|y b] Hl; simpl in *; try done.
  intros [= -> H]. destruct (IH b ltac:(lia) H) as [-> ->]. done.
Qed.

(** A separator absent from both prefixes splits a string in one way. *)
Lemma string_app_inj_sep (x y a b : string) (c : ascii) :
  contains_byte x c = false → contains_byte y c = false →
  x +:+ String c a = y +:+ String c b → x = y ∧ a = b.
Proof.
  revert y. induction x as [|d x IH]; intros [|e y]; simpl; intros Hx Hy Heq.
  - by injection Heq.
  - injection Heq as -> _. by rewrite decide_True in Hy.
  - injection Heq as -> _. by rewrite decide_True in Hx.
  - injection Heq as -> Heq. case_decide; [done|].
    destruct (IH y Hx Hy Heq) as [-> ->]. done.
Qed.

(** The same, read from the end: a separator absent from both suffixes. *)
Lemma contains_byte_app s t c :
  contains_byte (s +:+ t) c = contains_byte s c || contains_byte t c.
Proof. induction s as [|d s IH]; simpl; [done|]. case_decide; [done|]. apply IH. Qed.

Lemma be_bytes_bound n x : Forall (λ b, (b < 256)%N) (be_bytes n x).
Proof.
  induction n; simpl; constructor; [|done].
  change 255%N with (N.ones 8). rewrite N.land_ones. by apply N.mod_lt.
Qed.

Lemma be_bytes_mod n m x : n ≤ m → be_bytes n (x mod 256 ^ N.of_nat m)%N = be_bytes n x.
Proof.
  change 256%N with (2 ^ 8)%N. rewrite <-N.pow_mul_r.
  induction n as [|n IH]; intros Hle; simpl; [done|]. rewrite IH by lia. f_equal.
  change 255%N with (N.ones 8). apply N.bits_inj. intros i.
  rewrite !N.land_spec, !N.shiftr_spec'.
  destruct (N.ltb_spec i 8).
  - by rewrite N.mod_pow2_bits_low by lia.
  - by rewrite N.ones_spec_high, !andb_false_r by lia.
Qed.

Lemma be_bytes_inj n : ∀ x y,
  (x < 256 ^ N.of_nat n)%N → (y < 256 ^ N.of_nat n)%N → be_bytes n x = be_bytes n y → x = y.
Proof.
  induction n as [|n IH]; intros x y Hx Hy; simpl.
  { change (256 ^ N.of_nat 0)%N with 1%N in *. lia. }
  change 255%N with (N.ones 8). rewrite !N.land_ones, !N.shiftr_div_pow2.
  replace (2 ^ (8 * N.of_nat n))%N with (256 ^ N.of_nat n)%N
    by (change 256%N with (2 ^ 8)%N; by rewrite <-N.pow_mul_r).
  rewrite Nat2N.inj_succ, N.pow_succ_r' in Hx, Hy.
  assert (H0 : (256 ^ N.of_nat n ≠ 0)%N) by by apply N.pow_nonzero.
  set (p := (256 ^ N.of_nat n)%N) in *. intros [= Hd Hrest].
  assert (Hlow : ∀ z, be_bytes n z = be_bytes n (z mod p)).
  { intros z. unfold p. by rewrite be_bytes_mod. }
  rewrite (Hlow x), (Hlow y) in Hrest.
  apply IH in Hrest; try (by apply N.mod_lt).
  rewrite !N.mod_small in Hd by (change (2 ^ 8)%N with 256%N; apply N.Div0.div_lt_upper_bound; lia).
  rewrite (N.div_mod x p), (N.div_mod y p) by done. congruence.
Qed.

(** Reading a decimal numeral back. *)
Fixpoint read_decimal (acc : nat) (s : string) : nat :=
  match s with
  | EmptyString => acc
  | String c s => read_decimal (10 * acc + (nat_of_ascii c - 48)) s
  end.

Lemma digit_code d : d < 10 → nat_of_ascii (ascii_of_nat (48 + d)) = 48 + d.
Proof. intros Hd. apply nat_ascii_embedding. lia. Qed.

Lemma read_itoa_from fuel : ∀ n acc,
  n < fuel → ∀ k, ∃ e, read_decimal k (itoa_from fuel n acc) = read_decimal (10 ^ e * k + n) acc.
Proof.
  induction fuel as [|fuel IH]; intros n acc Hn k; [lia|]. cbn [itoa_from].
  pose proof (Nat.div_mod_eq n 10) as Hdm. pose proof (Nat.mod_upper_bound n 10 ltac:(lia)).
  case_bool_decide as H0.
  - exists 1. cbn [read_decimal]. rewrite digit_code by lia. f_equal. simpl (10 ^ 1). lia.
  - destruct (IH (n / 10) (String (ascii_of_nat (48 + n mod 10)) acc) ltac:(lia) k) as [e ->].
    exists (S e). cbn [read_decimal]. rewrite digit_code by lia. f_equal.
    rewrite Nat.pow_succ_r'. lia.
Qed.

Lemma Itoa_inj a b : Itoa a = Itoa b → a = b.
Proof.
  unfold Itoa. intros H.
  destruct (read_itoa_from (S a) a "" ltac:(lia) 0) as [e Ha].
  destruct (read_itoa_from (S b) b "" ltac:(lia) 0) as [e' Hb].
  rewrite H, Hb in Ha. simpl in Ha. lia.
Qed.

Lemma itoa_from_no_byte c fuel : ∀ n acc,
  (∀ d, d < 10 → ascii_of_nat (48 + d) ≠ c) →
  contains_byte acc c = false → contains_byte (itoa_from fuel n acc) c = false.
Proof.
  induction fuel as [|fuel IH]; intros n acc Hc Hacc; [done|]. cbn [itoa_from].
  assert (Hd : contains_byte (String (ascii_of_nat (48 + n mod 10)) acc) c = false).
  { cbn [contains_byte]. rewrite decide_False; [done|]. apply Hc, Nat.mod_upper_bound. lia. }
  case_bool_decide; [done|]. by apply IH.
Qed.

Lemma Itoa_no_colon n : contains_byte (Itoa n) ":" = false.
Proof.
  apply itoa_from_no_byte; [|done]. intros d Hd.
  do 10 (destruct d as [|d]; [vm_compute; discriminate|]). lia.
Qed.

(** A length-prefixed part, [len(part) + ":" + part], is self-delimiting. *)
Lemma prefixed_inj a b x y :
  Itoa (String.length a) +:+ ":" +:+ a +:+ x = Itoa (String.length b) +:+ ":" +:+ b +:+ y →
  a = b ∧ x = y.
Proof.
  intros [Hlen%Itoa_inj H]%string_app_inj_sep; [|apply Itoa_no_colon..].
  by apply string_app_inj_length in H.
Qed.

(** A value such as the server issues (a base64url text has no NUL). *)
Definition nul_free (s : string) : Prop := contains_byte s "000" = false.

Lemma EncodeToString_nul_free b : nul_free (EncodeToString rawURL b).
Proof. apply encode_no_byte; [apply bytes_of_bound|vm_compute; reflexivity]. Qed.

(** * Separation *)

(** replaykey.Digest hashes a different input for every (scope, jti)
    pair, whatever bytes either holds: one client or key can never use up a
    jti another will send, short of a SHA-256 collision. (A string's length
    fits the eight-byte prefix, so the bound is no restriction.) *)
Theorem replay_input_injective scope jti scope' jti' :
  (N.of_nat (String.length scope) < 2 ^ 64)%N →
  (N.of_nat (String.length scope') < 2 ^ 64)%N →
  replay_input scope jti = replay_input scope' jti' → scope = scope' ∧ jti = jti'.
Proof.
  intros Hs Hs' H. unfold replay_input, uint64_be in H.
  apply string_app_inj_length in H as [Hlen H].
  2: { by rewrite !string_of_length, !be_bytes_length. }
  apply (f_equal bytes_of) in Hlen.
  rewrite !bytes_of_string_of in Hlen by apply be_bytes_bound.
  apply be_bytes_inj in Hlen; [|done..].
  apply string_app_inj_length in H; [done|lia].
Qed.

(** Revocation keys name what they revoke. For grant IDs and code grant
    IDs without "@" (server.validateGrantID allows none, a derived ID is
    base64url), a key that IsRevoked checks for one grant is never one it
    checks for another grant, a code grant's key is never a grant's, and
    the issuer's part is never taken for part of the ID; the key the server
    writes also determines the issuer. *)
Theorem revocation_keys_separate issuer issuer' g g' k :
  contains_byte g "@" = false → contains_byte g' "@" = false →
  (k ∈ Keys issuer g → k ∈ Keys issuer' g' → g = g') ∧
  (k ∈ CodeKeys issuer g → k ∈ CodeKeys issuer' g' → g = g') ∧
  (k ∈ Keys issuer g → k ∉ CodeKeys issuer' g') ∧
  (Key issuer g = Key issuer' g' → issuer = issuer') ∧
  (CodeKey issuer g = CodeKey issuer' g' → issuer = issuer').
Proof.
  intros Hg Hg'.
  assert (Hlegacy : ∀ p x y i, contains_byte x "@" = false → p +:+ x = p +:+ y +:+ "@" +:+ i → x = y).
  { intros p x y i Hx H%string_app_inj_l. subst x.
    rewrite !contains_byte_app in Hx. simpl in Hx. by rewrite orb_true_r in Hx. }
  assert (Hboth : ∀ p i i' x y, contains_byte x "@" = false → contains_byte y "@" = false →
    p +:+ x +:+ "@" +:+ i = p +:+ y +:+ "@" +:+ i' → x = y ∧ i = i').
  { intros p i i' x y Hx Hy H%string_app_inj_l. by apply (string_app_inj_sep _ _ _ _ "@") in H. }
  unfold Keys, CodeKeys, Key, CodeKey. repeat split.
  - intros [->|[->|[]%not_elem_of_nil]%elem_of_cons]%elem_of_cons
      [H|[H|[]%not_elem_of_nil]%elem_of_cons]%elem_of_cons.
    + by apply Hboth in H as [-> ->].
    + symmetry. by eapply Hlegacy.
    + by eapply Hlegacy.
    + by apply string_app_inj_l in H.
  - intros [->|[->|[]%not_elem_of_nil]%elem_of_cons]%elem_of_cons
      [H|[H|[]%not_elem_of_nil]%elem_of_cons]%elem_of_cons.
    + by apply Hboth in H as [-> ->].
    + symmetry. by eapply Hlegacy.
    + by eapply Hlegacy.
    + by apply string_app_inj_l in H.
  - intros [->|[->|[]%not_elem_of_nil]%elem_of_cons]%elem_of_cons
      [H|[H|[]%not_elem_of_nil]%elem_of_cons]%elem_of_cons; discriminate H.
  - intros H. by apply Hboth in H as [_ ->].
  - intros H. by apply Hboth in H as [_ ->].
Qed.

(** The digest a code is stored under covers the code and the client
    instance it is bound to: two (code, instance) pairs hash one input only
    if they are the same pair, when the instance keys hold no NUL; and no
    such input is a refresh token's (or any other value's) plain text
    without NUL, so a code is never found under a refresh token's digest. *)
Theorem code_hash_input_injective code key code' key' :
  nul_free key → nul_free key' →
  (code_hash_input code key = code_hash_input code' key' → code = code' ∧ key = key') ∧
  (∀ token, nul_free token → code_hash_input code key ≠ token).
Proof.
  intros Hk Hk'. unfold code_hash_input. split.
  - case_bool_decide as He; case_bool_decide as He'.
    + intros H%string_app_inj_l. by subst.
    + discriminate.
    + discriminate.
    + intros H%string_app_inj_l. by apply (string_app_inj_sep _ _ _ _ "000") in H as [-> ->].
  - intros token Ht <-. unfold nul_free in Ht.
    case_bool_decide; rewrite contains_byte_app in Ht; discriminate Ht.
Qed.

(** The digest an auth_req_id is stored under covers the auth_req_id, the
    client instance and the dpop_jkt it is bound to: for the values the
    server issues (base64url, without NUL) two triples hash one input only
    if they are the same triple. *)
Theorem auth_req_id_input_injective id key jkt id' key' jkt' :
  nul_free id → nul_free id' →
  auth_req_id_input id key jkt = auth_req_id_input id' key' jkt' →
  id = id' ∧ key = key' ∧ jkt = jkt'.
Proof.
  intros Hid Hid'. unfold auth_req_id_input, nul_free in *.
  assert (Hnul : ∀ s, contains_byte (backchannelAuthReqIDHashPrefix +:+ s) "000" = true).
  { intros s. by rewrite contains_byte_app. }
  destruct (bool_decide (key = "") && bool_decide (jkt = "")) eqn:Hb;
    destruct (bool_decide (key' = "") && bool_decide (jkt' = "")) eqn:Hb'.
  - intros <-. apply andb_true_iff in Hb as [->%bool_decide_eq_true ->%bool_decide_eq_true].
    apply andb_true_iff in Hb' as [->%bool_decide_eq_true ->%bool_decide_eq_true]. done.
  - intros ->. rewrite Hnul in Hid. done.
  - intros <-. rewrite Hnul in Hid'. done.
  - intros H%string_app_inj_l. apply prefixed_inj in H as [-> H].
    by apply prefixed_inj in H as [-> ->].
Qed.

(** * The theorems on concrete inputs *)

Lemma replay_input_injective_witness : "client" = "client" ∧ "jti" = "jti".
Proof. refine (replay_input_injective "client" "jti" "client" "jti" _ _ _); reflexivity. Defined.

Lemma revocation_keys_separate_witness :
  ("grant:g" ∈ Keys "https://a" "g" → "grant:g" ∈ Keys "https://b" "h" → "g" = "h") ∧
  ("grant:g" ∈ CodeKeys "https://a" "g" → "grant:g" ∈ CodeKeys "https://b" "h" → "g" = "h") ∧
  ("grant:g" ∈ Keys "https://a" "g" → "grant:g" ∉ CodeKeys "https://b" "h") ∧
  (Key "https://a" "g" = Key "https://b" "h" → "https://a" = "https://b") ∧
  (CodeKey "https://a" "g" = CodeKey "https://b" "h" → "https://a" = "https://b").
Proof.
  refine (revocation_keys_separate "https://a" "https://b" "g" "h" "grant:g" _ _); reflexivity.
Defined.

Lemma code_hash_input_injective_witness :
  (code_hash_input "c" "k" = code_hash_input "c" "" → "c" = "c" ∧ "k" = "") ∧
  (∀ token, nul_free token → code_hash_input "c" "k" ≠ token).
Proof. refine (code_hash_input_injective "c" "k" "c" "" _ _); reflexivity. Defined.

Lemma auth_req_id_input_injective_witness : "id" = "id" ∧ "k" = "k" ∧ "" = "".
Proof. refine (auth_req_id_input_injective "id" "k" "" "id" "k" "" _ _ _); reflexivity. Defined.
