(* ===== verification/Effects.v ===== *)
(** Stateful operations: a Go method that reads and changes shared state and
    returns [(T, error)] is a function [S → result E A * S]. An error does
    not undo the changes made before it, as in the code.

    [respects R m] says that [m] takes every state to one related by [R],
    whatever it returns; for a preorder [R] it composes, which is how the
    theorems follow a fact about the state through a whole handler. *)
From S2P Require Import Prelude.
From stdpp Require Import options.

Set Default Proof Using "Type*".

Definition eff (S E A : Type) : Type := S → result E A * S.

Definition ret {S E A} (a : A) : eff S E A := λ s, (Ok a, s).
Definition fail {S E A} (e : E) : eff S E A := λ s, (Err e, s).
Definition lift {S E A} (r : result E A) : eff S E A := λ s, (r, s).
Definition gets {S E A} (f : S → A) : eff S E A := λ s, (Ok (f s), s).

Definition ebind {S E A B} (m : eff S E A) (k : A → eff S E B) : eff S E B := λ s,
  match m s with
  | (Ok a, s') => k a s'
  | (Err e, s') => (Err e, s')
  end.

(** Running an operation whose error the code inspects or discards. *)
Definition try {S E E' A} (m : eff S E A) : eff S E' (result E A) := λ s,
  let '(r, s') := m s in (Ok r, s').

(** [if err != nil { return f(err) }] *)
Definition map_err {S E E' A} (f : E → E') (m : eff S E A) : eff S E' A := λ s,
  match m s with
  | (Ok a, s') => (Ok a, s')
  | (Err e, s') => (Err (f e), s')
  end.

(** An operation on a part of the state. *)
Definition zoom {S T E A} (get : S → T) (put : T → S → S) (m : eff T E A) : eff S E A := λ s,
  let '(r, t) := m (get s) in (r, put t s).

Declare Scope eff_scope.
Delimit Scope eff_scope with eff.
Notation "'let*' x ':=' m 'in' k" := (ebind m (λ x, k%eff))
  (at level 10, x name, m at level 100, k at level 200, only parsing) : eff_scope.
Notation "'let*' ' p ':=' m 'in' k" := (ebind m (λ p, k%eff))
  (at level 10, p pattern, m at level 100, k at level 200, only parsing) : eff_scope.
Notation "'do*' m 'in' k" := (ebind m (λ _, k%eff))
  (at level 10, m at level 100, k at level 200, only parsing) : eff_scope.
Open Scope eff_scope.

Definition respects {S E A} (R : S → S → Prop) (m : eff S E A) : Prop :=
  ∀ s r s', m s = (r, s') → R s s'.

Section effects.
Context {S : Type}.

Lemma ebind_Ok {E A B} (m : eff S E A) (k : A → eff S E B) s b s' :
  ebind m k s = (Ok b, s') ↔ ∃ a s1, m s = (Ok a, s1) ∧ k a s1 = (Ok b, s').
Proof. unfold ebind. destruct (m s) as [[a|e] s1]; naive_solver. Qed.

Lemma ebind_Err {E A B} (m : eff S E A) (k : A → eff S E B) s e s' :
  ebind m k s = (Err e, s') ↔
    m s = (Err e, s') ∨ ∃ a s1, m s = (Ok a, s1) ∧ k a s1 = (Err e, s').
Proof. unfold ebind. destruct (m s) as [[a|e'] s1]; naive_solver. Qed.

Lemma lift_Ok {E A} (r : result E A) (s : S) a s' : lift r s = (Ok a, s') ↔ r = Ok a ∧ s' = s.
Proof. unfold lift. naive_solver. Qed.

Lemma ret_Ok {E A} (a b : A) (s s' : S) : @ret S E A a s = (Ok b, s') ↔ b = a ∧ s' = s.
Proof. unfold ret. naive_solver. Qed.

Lemma map_err_Ok {E E' A} (f : E → E') (m : eff S E A) s a s' :
  map_err f m s = (Ok a, s') ↔ m s = (Ok a, s').
Proof. unfold map_err. destruct (m s) as [[]]; naive_solver. Qed.

Lemma map_err_Err {E E' A} (f : E → E') (m : eff S E A) s e s' :
  map_err f m s = (Err e, s') ↔ ∃ e0, m s = (Err e0, s') ∧ e = f e0.
Proof. unfold map_err. destruct (m s) as [[]]; naive_solver. Qed.

Lemma try_Ok {E E' A} (m : eff S E A) s (r : result E A) s' :
  @try S E E' A m s = (Ok r, s') ↔ m s = (r, s').
Proof. unfold try. destruct (m s). naive_solver. Qed.

Lemma zoom_run {T E A} (get : S → T) put (m : eff T E A) s r s' :
  zoom get put m s = (r, s') ↔ ∃ t, m (get s) = (r, t) ∧ s' = put t s.
Proof. unfold zoom. destruct (m (get s)). naive_solver. Qed.

Context (R : S → S → Prop) `{!PreOrder R}.

Lemma respects_ret {E A} (a : A) : respects R (@ret S E A a).
Proof. intros s r s' [= <- <-]. reflexivity. Qed.

Lemma respects_fail {E A} (e : E) : respects R (@fail S E A e).
Proof. intros s r s' [= <- <-]. reflexivity. Qed.

Lemma respects_lift {E A} (x : result E A) : respects R (lift x).
Proof. intros s r s' [= <- <-]. reflexivity. Qed.

Lemma respects_gets {E A} (f : S → A) : respects R (@gets S E A f).
Proof. intros s r s' [= <- <-]. reflexivity. Qed.

Lemma respects_bind {E A B} (m : eff S E A) (k : A → eff S E B) :
  respects R m → (∀ a, respects R (k a)) → respects R (ebind m k).
Proof.
  unfold ebind. intros Hm Hk s r s' Hs. destruct (m s) as [[a|e] s1] eqn:H1.
  - transitivity s1; [by eapply Hm|by eapply Hk].
  - injection Hs as <- <-. by eapply Hm.
Qed.

Lemma respects_try {E E' A} (m : eff S E A) : respects R m → respects R (@try S E E' A m).
Proof.
  unfold try. intros Hm s r s' Hs. destruct (m s) eqn:H1. injection Hs as <- <-. by eapply Hm.
Qed.

Lemma respects_map_err {E E' A} (f : E → E') (m : eff S E A) :
  respects R m → respects R (map_err f m).
Proof.
  unfold map_err. intros Hm s r s' Hs.
  destruct (m s) as [[a|e] s1] eqn:H1; injection Hs as <- <-; by eapply Hm.
Qed.
End effects.

(** A part of the state and the rest of it. *)
Lemma respects_zoom {S T E A} (R : S → S → Prop) (get : S → T) put (m : eff T E A) :
  (∀ s r t, m (get s) = (r, t) → R s (put t s)) → respects R (zoom get put m).
Proof.
  intros HR s r s' Hs. apply zoom_run in Hs as (t & Hm & ->). by eapply HR.
Qed.

(** Taking a run of a handler apart. *)
Ltac inv_eff :=
  repeat match goal with
  | H : ebind _ _ _ = (Ok _, _) |- _ =>
      apply ebind_Ok in H; let a := fresh "a" in let s := fresh "s" in
      let Ha := fresh "Hrun" in destruct H as (a & s & Ha & H)
  | H : lift _ _ = (Ok _, _) |- _ => apply lift_Ok in H; destruct H as [H ->]
  | H : ret _ _ = (Ok _, _) |- _ => apply ret_Ok in H; destruct H as [-> ->]
  | H : gets _ _ = (Ok _, _) |- _ => injection H as <- <-
  | H : fail _ _ = (Ok _, _) |- _ => discriminate H
  | H : map_err _ _ _ = (Ok _, _) |- _ => apply map_err_Ok in H
  | H : try _ _ = (Ok _, _) |- _ => apply try_Ok in H
  end.

Create HintDb frames.

(** Proves [respects R m] step by step; what remains are the writes. *)
Ltac frame :=
  repeat first
    [ solve [auto with frames]
    | apply (respects_ret _) | apply (respects_fail _) | apply (respects_lift _)
    | apply (respects_gets _)
    | apply (respects_bind _); [|intros ?]
    | apply (respects_try _)
    | apply (respects_map_err _)
    | match goal with
      | |- respects _ (match ?x with _ => _ end) => destruct x
      | |- respects _ (let '(_, _) := ?x in _) => destruct x
      end ].
