(* ===== verification/Storage.v ===== *)
(** The records of src/storage/ (grant.go, backchannel.go, transaction.go,
    session.go, nonce.go, replay.go, revocation.go, access_token.go,
    pairwise_subject.go), and the store interfaces as type classes over the
    state of an implementation: the operations, and for the stores whose
    contract the server's safety rests on, the laws the interface's
    documentation states. A digest ([32]byte) is its 32-byte string. *)
From S2P Require Import Prelude Json GoTime Effects.
From stdpp Require Import options.

Abbreviation digest := string.
Abbreviation ClientID := string.
Abbreviation Secret := string.
Abbreviation Issuer := string.

(** * Grants *)

Record NewAuthorizationCode := {
  nac_CodeHash : digest;
  nac_ClientID : ClientID;
  nac_Grant : RawMessage;
  nac_ExpiresAt : Time }.

Record AuthorizationCodeRedemption := {
  acr_CodeHash : digest;
  acr_ClientID : ClientID }.

Record RedeemedAuthorizationCode := {
  rac_ClientID : ClientID;
  rac_Grant : RawMessage;
  rac_ExpiresAt : Time }.

Record NewRefreshToken := {
  nrt_TokenHash : digest;
  nrt_ClientID : ClientID;
  nrt_Grant : RawMessage;
  nrt_ExpiresAt : Time }.

Record RefreshTokenRedemption := { rtr_TokenHash : digest }.

Record RedeemedRefreshToken := {
  rrt_ClientID : ClientID;
  rrt_Grant : RawMessage;
  rrt_ExpiresAt : Time }.

Record AuthorizationCodeAlreadyRedeemedError := {
  arr_IssuedAccessTokenKey : string;
  arr_IssuedRefreshTokenHash : option digest;
  arr_ClientID : ClientID }.

(** The errors a store returns: the typed ones a caller finds with
    errors.As or errors.Is, and any other. StoreUnavailable is one that
    wraps ErrStoreUnavailable, or a request whose context has ended. *)
Inductive store_error :=
| StoreFailed
| StoreUnavailable
| CodeAlreadyRedeemed (e : AuthorizationCodeAlreadyRedeemedError)
| BackchannelAuthenticationAlreadyRedeemedError
| BackchannelAuthenticationExpiredError
| BackchannelAuthenticationSlowDownError
| ErrPairwiseSubjectCollision
| ErrPairwiseSubjectNotFound.

(** * Access tokens *)

Inductive SenderConstrain := SenderConstrainDPoP | SenderConstrainMTLS.

#[export] Instance sender_constrain_eq_dec : EqDecision SenderConstrain.
Proof. solve_decision. Defined.

Record NewAccessToken := {
  nat_TokenHash : digest;
  nat_ClientID : ClientID;
  nat_Subject : string;
  nat_Scope : list string;
  nat_Thumbprint : string;
  nat_SenderConstrain : SenderConstrain;
  nat_Claims : gmap string RawMessage;
  nat_ExpiresAt : Time }.

Record AccessTokenLookup := { atl_TokenHash : digest }.

Record LookedUpAccessToken := {
  lat_ClientID : ClientID;
  lat_Subject : string;
  lat_Scope : list string;
  lat_Thumbprint : string;
  lat_SenderConstrain : SenderConstrain;
  lat_Claims : gmap string RawMessage;
  lat_ExpiresAt : Time }.

(** * CIBA *)

(** The iota constants of BackchannelAuthenticationStatus: 0 is none of
    them, 1 is Pending. *)
Definition BackchannelAuthenticationStatus := N.
Definition BackchannelAuthenticationPending : BackchannelAuthenticationStatus := 1%N.
Definition BackchannelAuthenticationApproved : BackchannelAuthenticationStatus := 2%N.
Definition BackchannelAuthenticationDenied : BackchannelAuthenticationStatus := 3%N.
Definition BackchannelAuthenticationAuthenticationFailed
  : BackchannelAuthenticationStatus := 4%N.

Record NewBackchannelAuthentication := {
  nba_AuthReqIDHash : digest;
  nba_AuthReqID : string;
  nba_HandleHash : digest;
  nba_ClientID : ClientID;
  nba_Request : RawMessage;
  nba_DeliveryMode : string;
  nba_ClientNotificationToken : Secret;
  nba_PollInterval : Duration;
  nba_ExpiresAt : Time }.

Record LookedUpBackchannelAuthentication := {
  lba_ClientID : ClientID;
  lba_Request : RawMessage }.

Record DecideBackchannelAuthentication := {
  dba_HandleHash : digest;
  dba_Status : BackchannelAuthenticationStatus;
  dba_Grant : RawMessage;
  dba_Reason : string }.

Record DecidedBackchannelAuthentication := {
  dcd_ClientID : ClientID;
  dcd_DeliveryMode : string;
  dcd_ClientNotificationToken : Secret;
  dcd_AuthReqID : string }.

Record PollBackchannelAuthentication := {
  pba_AuthReqIDHash : digest;
  pba_Now : Time;
  pba_ClientID : ClientID }.

Record PolledBackchannelAuthentication := {
  plb_Status : BackchannelAuthenticationStatus;
  plb_ClientID : ClientID;
  plb_Request : RawMessage;
  plb_Grant : RawMessage;
  plb_Reason : string }.

(** * Transactions, sessions, nonces, replays, pairwise subjects *)

Record NewPARRecord := {
  par_Reference : string;
  par_ClientID : ClientID;
  par_Request : RawMessage;
  par_ExpiresAt : Time }.

Record PushedAuthorizationRequest := {
  pushed_ClientID : ClientID;
  pushed_Request : RawMessage;
  pushed_ExpiresAt : Time }.

Record BeginAuthorizationTransaction := {
  bat_Reference : string;
  bat_Handle : string;
  bat_HandleExpiresAt : Time;
  bat_Now : Time }.

Record CompletedInteraction := {
  ci_ClientID : ClientID;
  ci_Request : RawMessage;
  ci_ExpiresAt : Time }.

Record CompleteAuthorizationTransaction := { cat_Handle : string }.

Record NewSession := {
  ns_State : string;
  ns_Record : RawMessage;
  ns_ExpiresAt : Time }.

Record SessionConsumption := { sc_State : string }.

Record ConsumedSession := {
  cs_Record : RawMessage;
  cs_ExpiresAt : Time }.

Record NonceIssuance := { ni_Nonce : string; ni_ExpiresAt : Time }.
Record NonceLookup := { nl_Nonce : string }.
Record NonceRecord := { nr_ExpiresAt : Time }.

Record ReplayUse := {
  ru_Namespace : string;
  ru_Digest : digest;
  ru_ExpiresAt : Time }.

Record PairwiseSubjectKey := {
  psk_Issuer : string;
  psk_Sector : string;
  psk_Subject : string }.

#[export] Instance pairwise_subject_key_eq_dec : EqDecision PairwiseSubjectKey.
Proof. solve_decision. Defined.

#[export] Instance pairwise_subject_key_countable : Countable PairwiseSubjectKey.
Proof.
  apply (inj_countable' (λ k, (psk_Issuer k, psk_Sector k, psk_Subject k))
    (λ p, {| psk_Issuer := p.1.1; psk_Sector := p.1.2; psk_Subject := p.2 |})).
  by intros [].
Defined.

(** * The interfaces *)

(** [storage.GrantStore], with the optional [IssuedTokensRecorder]: the
    result of the server's type assertion. *)
Class GrantStore (G : Type) := {
  CreateAuthorizationCode : NewAuthorizationCode → eff G store_error unit;
  RedeemAuthorizationCode :
    AuthorizationCodeRedemption → eff G store_error RedeemedAuthorizationCode;
  RecordIssuedAccessToken : digest → string → Time → eff G store_error unit;
  RecordIssuedRefreshToken : digest → digest → Time → eff G store_error unit;
  CreateRefreshToken : NewRefreshToken → eff G store_error unit;
  RedeemRefreshToken : RefreshTokenRedemption → eff G store_error RedeemedRefreshToken;
  RevokeRefreshToken : digest → eff G store_error unit;
  RecordIssuedTokens :
    option (digest → string → Time → digest → Time → eff G store_error unit) }.

(** [server.RevocationSink], and what the server finds by type assertion:
    the reader (absent for [NoRevocation]) and its batch form. *)
Class RevocationSink (V : Type) := {
  Revoke : string → Time → eff V store_error unit;
  IsRevoked : option (string → eff V store_error bool);
  IsAnyRevoked : option (list string → eff V store_error bool) }.

Class BackchannelAuthenticationStore (B : Type) := {
  CreateBackchannelAuthentication : NewBackchannelAuthentication → eff B store_error unit;
  LookupBackchannelAuthentication :
    digest → eff B store_error LookedUpBackchannelAuthentication;
  DecideBackchannel :
    DecideBackchannelAuthentication → eff B store_error DecidedBackchannelAuthentication;
  PollBackchannel :
    PollBackchannelAuthentication → eff B store_error PolledBackchannelAuthentication }.

Class TransactionStore (T : Type) := {
  CreatePAR : NewPARRecord → eff T store_error unit;
  BeginAuthorization :
    BeginAuthorizationTransaction → eff T store_error PushedAuthorizationRequest;
  CompleteAuthorization :
    CompleteAuthorizationTransaction → eff T store_error CompletedInteraction }.

Class SessionStore (S : Type) := {
  Create : NewSession → eff S store_error unit;
  Consume : SessionConsumption → eff S store_error ConsumedSession }.

Class NonceStore (N : Type) := {
  Issue : NonceIssuance → eff N store_error unit;
  Lookup : NonceLookup → eff N store_error NonceRecord }.

Class ReplayStore (R : Type) := {
  UseOnce : ReplayUse → eff R store_error unit }.

Class PairwiseSubjectStore (P : Type) := {
  GetOrCreate : PairwiseSubjectKey → string → eff P store_error string;
  LookupSubject : string → string → string → eff P store_error string }.

Class AccessTokenStore (A : Type) := {
  CreateAccessToken : NewAccessToken → eff A store_error unit;
  LookupAccessToken : AccessTokenLookup → eff A store_error LookedUpAccessToken }.

(** * The grant store's contract

    What the interface's documentation promises, for the three observations
    the server's safety rests on: which codes have been redeemed, which
    refresh tokens are revoked, and the client a live code was issued to. *)
Class GrantStoreLaws (G : Type) `{GrantStore G} := {
  code_redeemed : G → digest → Prop;
  refresh_revoked : G → digest → Prop;
  code_client : G → digest → option ClientID;

  (** No operation forgets a redemption or a revocation. *)
  grants_le := λ s s' : G,
    (∀ h, code_redeemed s h → code_redeemed s' h) ∧
    (∀ h, refresh_revoked s h → refresh_revoked s' h);
  create_code_le c : respects grants_le (CreateAuthorizationCode c);
  redeem_code_le c : respects grants_le (RedeemAuthorizationCode c);
  record_access_le h k t : respects grants_le (RecordIssuedAccessToken h k t);
  record_refresh_le h r t : respects grants_le (RecordIssuedRefreshToken h r t);
  create_refresh_le t : respects grants_le (CreateRefreshToken t);
  redeem_refresh_le t : respects grants_le (RedeemRefreshToken t);
  revoke_refresh_le h : respects grants_le (RevokeRefreshToken h);
  record_tokens_le f h k t r t' :
    RecordIssuedTokens = Some f → respects grants_le (f h k t r t');

  (** A redemption succeeds once, and marks the code redeemed. *)
  redeem_code_once c s r s' :
    RedeemAuthorizationCode c s = (Ok r, s') →
    ¬ code_redeemed s (acr_CodeHash c) ∧ code_redeemed s' (acr_CodeHash c);
  redeem_code_again c s :
    code_redeemed s (acr_CodeHash c) →
    ∃ e s', RedeemAuthorizationCode c s = (Err (CodeAlreadyRedeemed e), s');

  (** A redemption that fails, and one naming a client the code was not
      issued to in particular, changes nothing. *)
  redeem_code_Err c s e s' : RedeemAuthorizationCode c s = (Err e, s') → s' = s;
  redeem_code_other_client c s k :
    code_client s (acr_CodeHash c) = Some k →
    acr_ClientID c ≠ "" → acr_ClientID c ≠ k →
    ∃ e, RedeemAuthorizationCode c s = (Err e, s) ∧
      ∀ a, e = CodeAlreadyRedeemed a → arr_ClientID a = k ∨ arr_ClientID a = "";

  (** Redeeming a refresh token never consumes it, and a revoked one is
      never redeemed. *)
  redeem_refresh_same t s r s' : RedeemRefreshToken t s = (r, s') → s' = s;
  redeem_refresh_revoked t s :
    refresh_revoked s (rtr_TokenHash t) → ∃ e, RedeemRefreshToken t s = (Err e, s);
  revoke_refresh_done h s s' :
    RevokeRefreshToken h s = (Ok tt, s') → refresh_revoked s' h }.

#[export] Instance grants_le_preorder `{GrantStoreLaws G} : PreOrder grants_le.
Proof. split; [by split|]. intros s1 s2 s3 [? ?] [? ?]. split; eauto. Qed.

(** * The revocation store's contract *)

Class RevocationLaws (V : Type) `{RevocationSink V} := {
  revoked : V → string → Prop;
  revoked_le := λ s s' : V, ∀ k, revoked s k → revoked s' k;
  revoke_le k t : respects revoked_le (Revoke k t);
  revoke_done k t s s' : Revoke k t s = (Ok tt, s') → revoked s' k;
  (** Reading changes nothing, and a revoked key is never reported live. *)
  is_revoked_same f k s r s' : IsRevoked = Some f → f k s = (r, s') → s' = s;
  is_revoked_sound f k s :
    IsRevoked = Some f → revoked s k → (f k s).1 ≠ Ok false;
  is_any_revoked_same f ks s r s' : IsAnyRevoked = Some f → f ks s = (r, s') → s' = s;
  is_any_revoked_sound f ks s k :
    IsAnyRevoked = Some f → revoked s k → k ∈ ks → (f ks s).1 ≠ Ok false }.

#[export] Instance revoked_le_preorder `{RevocationLaws V} : PreOrder revoked_le.
Proof. split; [by intros ? ?|]. intros s1 s2 s3 H1 H2 k Hk. by apply H2, H1. Qed.

#[export] Hint Resolve create_code_le redeem_code_le record_access_le record_refresh_le
  create_refresh_le redeem_refresh_le revoke_refresh_le record_tokens_le revoke_le : fapi.

(** * The replay store's contract

    A digest is used once, and stays used. A store may drop a digest once its
    expiry has passed, when nothing it came from is accepted any more
    (Dpop.dpop_replay_record_outlasts_proof); the law is for the time
    before. *)
Class ReplayLaws (R : Type) `{ReplayStore R} := {
  digest_used : R → string → digest → Prop;
  used_le := λ s s' : R, ∀ n d, digest_used s n d → digest_used s' n d;
  use_once_le u : respects used_le (UseOnce u);
  use_once_Ok u s s' :
    UseOnce u s = (Ok tt, s') →
    ¬ digest_used s (ru_Namespace u) (ru_Digest u) ∧ digest_used s' (ru_Namespace u) (ru_Digest u) }.

#[export] Instance used_le_preorder `{ReplayLaws R} : PreOrder used_le.
Proof. split; [by intros ???|]. intros s1 s2 s3 H1 H2 n d Hd. by apply H2, H1. Qed.

(** * The access token store's contract

    A record is found under its digest until it expires, and what is found
    was created. *)
Definition looked_up (t : NewAccessToken) : LookedUpAccessToken := {|
  lat_ClientID := nat_ClientID t; lat_Subject := nat_Subject t; lat_Scope := nat_Scope t;
  lat_Thumbprint := nat_Thumbprint t; lat_SenderConstrain := nat_SenderConstrain t;
  lat_Claims := nat_Claims t; lat_ExpiresAt := nat_ExpiresAt t |}.

Class AccessTokenLaws (A : Type) `{AccessTokenStore A} := {
  token_record : A → digest → NewAccessToken → Prop;
  create_token_record t s s' :
    CreateAccessToken t s = (Ok tt, s') → token_record s' (nat_TokenHash t) t;
  create_token_new t s r s' :
    CreateAccessToken t s = (r, s') → ∀ h t', token_record s' h t' →
    token_record s h t' ∨ h = nat_TokenHash t ∧ t' = t;
  lookup_token_same l s r s' : LookupAccessToken l s = (r, s') → s' = s;
  lookup_token_record l s r s' :
    LookupAccessToken l s = (Ok r, s') →
    ∃ t, token_record s (atl_TokenHash l) t ∧ r = looked_up t;
  lookup_token_found l s t :
    token_record s (atl_TokenHash l) t → LookupAccessToken l s = (Ok (looked_up t), s) }.
