(* ===== verification/MemStore.v ===== *)
(** The in-memory stores of src/storage/memstore/. Each holds its mutex for
    the whole of every method, so an execution is a sequence of whole
    operations; a Go map is a [gmap], an absent key reading as the zero value
    where the code indexes without asking. The clones of raw messages and
    slices keep the stored values from being aliased, which values here never
    are; the one shared pointer, [backchannelRecord], is a heap location. *)
From S2P Require Import Prelude Json GoTime Effects Storage.
From stdpp Require Import options.

Definition plain {A} : result store_error A := Err StoreFailed.

(** * GrantStore (grant_store.go) *)

Module Grants.
Record GrantStore := {
  codes : gmap digest NewAuthorizationCode;
  codeRedeemed : gmap digest bool;
  codeAccessKey : gmap digest string;
  codeRefreshHash : gmap digest digest;
  refresh : gmap digest NewRefreshToken;
  refreshRevoked : gmap digest bool }.

Definition NewGrantStore : GrantStore :=
  {| codes := ∅; codeRedeemed := ∅; codeAccessKey := ∅; codeRefreshHash := ∅;
     refresh := ∅; refreshRevoked := ∅ |}.

Definition CreateAuthorizationCode (code : NewAuthorizationCode)
    : eff GrantStore store_error unit := λ s,
  (Ok tt, {| codes := <[nac_CodeHash code := code]> (codes s);
             codeRedeemed := codeRedeemed s; codeAccessKey := codeAccessKey s;
             codeRefreshHash := codeRefreshHash s; refresh := refresh s;
             refreshRevoked := refreshRevoked s |}).

Definition RedeemAuthorizationCode (redemption : AuthorizationCodeRedemption)
    : eff GrantStore store_error RedeemedAuthorizationCode := λ s,
  let h := acr_CodeHash redemption in
  if default false (codeRedeemed s !! h) then
    (Err (CodeAlreadyRedeemed
       {| arr_IssuedAccessTokenKey := default "" (codeAccessKey s !! h);
          arr_IssuedRefreshTokenHash := codeRefreshHash s !! h;
          arr_ClientID := default "" (nac_ClientID <$> codes s !! h) |}), s)
  else
    match codes s !! h with
    | None => (plain, s)
    | Some code =>
      if negb (bool_decide (acr_ClientID redemption = "")) &&
         negb (bool_decide (acr_ClientID redemption = nac_ClientID code))
      then (plain, s)
      else
        (Ok {| rac_ClientID := nac_ClientID code; rac_Grant := nac_Grant code;
               rac_ExpiresAt := nac_ExpiresAt code |},
         {| codes := codes s; codeRedeemed := <[h := true]> (codeRedeemed s);
            codeAccessKey := codeAccessKey s; codeRefreshHash := codeRefreshHash s;
            refresh := refresh s; refreshRevoked := refreshRevoked s |})
    end.

Definition RecordIssuedAccessToken (codeHash : digest) (key : string) (_ : Time)
    : eff GrantStore store_error unit := λ s,
  (Ok tt, {| codes := codes s; codeRedeemed := codeRedeemed s;
             codeAccessKey := <[codeHash := key]> (codeAccessKey s);
             codeRefreshHash := codeRefreshHash s; refresh := refresh s;
             refreshRevoked := refreshRevoked s |}).

Definition RecordIssuedRefreshToken (codeHash refreshTokenHash : digest) (_ : Time)
    : eff GrantStore store_error unit := λ s,
  (Ok tt, {| codes := codes s; codeRedeemed := codeRedeemed s;
             codeAccessKey := codeAccessKey s;
             codeRefreshHash := <[codeHash := refreshTokenHash]> (codeRefreshHash s);
             refresh := refresh s; refreshRevoked := refreshRevoked s |}).

Definition CreateRefreshToken (token : NewRefreshToken) : eff GrantStore store_error unit := λ s,
  (Ok tt, {| codes := codes s; codeRedeemed := codeRedeemed s;
             codeAccessKey := codeAccessKey s; codeRefreshHash := codeRefreshHash s;
             refresh := <[nrt_TokenHash token := token]> (refresh s);
             refreshRevoked := refreshRevoked s |}).

Definition RedeemRefreshToken (redemption : RefreshTokenRedemption)
    : eff GrantStore store_error RedeemedRefreshToken := λ s,
  let h := rtr_TokenHash redemption in
  if default false (refreshRevoked s !! h) then (plain, s)
  else
    match refresh s !! h with
    | None => (plain, s)
    | Some token =>
      (Ok {| rrt_ClientID := nrt_ClientID token; rrt_Grant := nrt_Grant token;
             rrt_ExpiresAt := nrt_ExpiresAt token |}, s)
    end.

Definition RevokeRefreshToken (tokenHash : digest) : eff GrantStore store_error unit := λ s,
  (Ok tt, {| codes := codes s; codeRedeemed := codeRedeemed s;
             codeAccessKey := codeAccessKey s; codeRefreshHash := codeRefreshHash s;
             refresh := refresh s;
             refreshRevoked := <[tokenHash := true]> (refreshRevoked s) |}).

#[export] Instance grant_store : Storage.GrantStore GrantStore := {|
  Storage.CreateAuthorizationCode := CreateAuthorizationCode;
  Storage.RedeemAuthorizationCode := RedeemAuthorizationCode;
  Storage.RecordIssuedAccessToken := RecordIssuedAccessToken;
  Storage.RecordIssuedRefreshToken := RecordIssuedRefreshToken;
  Storage.CreateRefreshToken := CreateRefreshToken;
  Storage.RedeemRefreshToken := RedeemRefreshToken;
  Storage.RevokeRefreshToken := RevokeRefreshToken;
  Storage.RecordIssuedTokens := None |}.

Definition is_redeemed (s : GrantStore) (h : digest) : Prop := codeRedeemed s !! h = Some true.
Definition is_refresh_revoked (s : GrantStore) (h : digest) : Prop :=
  refreshRevoked s !! h = Some true.

Lemma insert_true_mono (m : gmap digest bool) h k :
  m !! k = Some true → <[h := true]> m !! k = Some true.
Proof. intros Hk. destruct (decide (h = k)) as [->|]; simplify_map_eq; done. Qed.

Lemma default_false_true (o : option bool) : default false o = true ↔ o = Some true.
Proof. destruct o as [[]|]; simpl; naive_solver. Qed.

(** memstore's GrantStore keeps the interface's contract. *)
#[export] Instance grant_store_laws : GrantStoreLaws GrantStore.
Proof.
  refine {| code_redeemed := is_redeemed; refresh_revoked := is_refresh_revoked;
            code_client := λ s h, nac_ClientID <$> codes s !! h |};
    unfold respects, is_redeemed, is_refresh_revoked.
  1, 3-5: by intros; simpl in *; repeat match goal with H : _ = (_, _) |- _ => injection H as <- <- end.
  - intros c s r s' Hrun. simpl in Hrun. unfold RedeemAuthorizationCode in Hrun.
    repeat case_match; simplify_eq/=; eauto using insert_true_mono.
  - intros t s r s' Hrun. simpl in Hrun. unfold RedeemRefreshToken in Hrun.
    repeat case_match; simplify_eq/=; eauto.
  - intros h s r s' Hrun. simpl in Hrun. unfold RevokeRefreshToken in Hrun.
    simplify_eq/=. eauto using insert_true_mono.
  - intros; discriminate.
  - intros c s r s' Hrun. simpl in Hrun. unfold RedeemAuthorizationCode in Hrun.
    destruct (default false _) eqn:Hd; [done|].
    assert (Hn : ¬ codeRedeemed s !! acr_CodeHash c = Some true)
      by (rewrite <-default_false_true; congruence).
    repeat case_match; simplify_eq/=. split; [done|]. apply lookup_insert_eq.
  - intros c s Hr. simpl. unfold RedeemAuthorizationCode.
    rewrite (proj2 (default_false_true _) Hr). eauto.
  - intros c s e s' Hrun. simpl in Hrun. unfold RedeemAuthorizationCode, plain in Hrun.
    repeat case_match; simplify_eq/=; done.
  - intros c s k (code & Hc & ->)%fmap_Some He Hk. simpl. unfold RedeemAuthorizationCode.
    rewrite Hc. destruct (default false _).
    + eexists. split; [done|]. intros a [= <-]. by left.
    + rewrite !bool_decide_false by done. eexists. split; [done|]. intros a [=].
  - intros t s r s' Hrun. simpl in Hrun. unfold RedeemRefreshToken in Hrun.
    repeat case_match; simplify_eq/=; done.
  - intros t s Hr. simpl. unfold RedeemRefreshToken.
    rewrite (proj2 (default_false_true _) Hr). eauto.
  - intros h s s' Hrun. simpl in Hrun. injection Hrun as <-. apply lookup_insert_eq.
Defined.
End Grants.

(** * RevocationStore (revocation_store.go) *)

Module Revocations.
Abbreviation RevocationStore := (gmap string Time).
Definition NewRevocationStore : RevocationStore := ∅.

Definition Revoke (key : string) (expiresAt : Time) : eff RevocationStore store_error unit :=
  λ s, (Ok tt, <[key := expiresAt]> s).

Definition IsRevoked (key : string) : eff RevocationStore store_error bool :=
  λ s, (Ok (bool_decide (is_Some (s !! key))), s).

#[export] Instance revocation_sink : Storage.RevocationSink RevocationStore := {|
  Storage.Revoke := Revoke;
  Storage.IsRevoked := Some IsRevoked;
  Storage.IsAnyRevoked := None |}.

#[export] Instance revocation_laws : RevocationLaws RevocationStore.
Proof.
  refine {| revoked := λ s k, is_Some (s !! k) |}; unfold respects.
  - intros k t s r s' [= <- <-] k' Hk. rewrite lookup_insert_is_Some'. by right.
  - intros k t s s' [= <-]. rewrite lookup_insert_is_Some'. by left.
  - intros f k s r s' [= <-] [= <- <-]. done.
  - intros f k s [= <-] Hk. simpl. by rewrite bool_decide_true.
  - intros; discriminate.
  - intros; discriminate.
Defined.
End Revocations.

(** * BackchannelAuthenticationStore (backchannel_authentication_store.go) *)

Module Backchannel.
Record backchannelRecord := {
  clientID : ClientID;
  request : RawMessage;
  deliveryMode : string;
  clientNotificationToken : Secret;
  authReqID : string;
  pollInterval : Duration;
  expiresAt : Time;
  status : BackchannelAuthenticationStatus;
  grant : RawMessage;
  reason : string;
  redeemed : bool;
  polledBefore : bool;
  lastPolledAt : Time }.

(** Both lookup maps hold pointers to the records: [heap] maps the
    pointers to what they point to. *)
Record BackchannelAuthenticationStore := {
  heap : gmap nat backchannelRecord;
  next : nat;
  byAuthReqIDHash : gmap digest nat;
  byHandleHash : gmap digest nat }.

Definition NewBackchannelAuthenticationStore : BackchannelAuthenticationStore :=
  {| heap := ∅; next := 0; byAuthReqIDHash := ∅; byHandleHash := ∅ |}.

Definition set_record (l : nat) (rec : backchannelRecord) (s : BackchannelAuthenticationStore)
    : BackchannelAuthenticationStore :=
  {| heap := <[l := rec]> (heap s); next := next s;
     byAuthReqIDHash := byAuthReqIDHash s; byHandleHash := byHandleHash s |}.

Definition deref (p : option nat) (s : BackchannelAuthenticationStore)
    : option (nat * backchannelRecord) :=
  match p with
  | Some l => (λ rec, (l, rec)) <$> heap s !! l
  | None => None
  end.

Definition CreateBackchannelAuthentication (record : NewBackchannelAuthentication)
    : eff BackchannelAuthenticationStore store_error unit := λ s,
  let rec := {| clientID := nba_ClientID record; request := nba_Request record;
                deliveryMode := nba_DeliveryMode record;
                clientNotificationToken := nba_ClientNotificationToken record;
                authReqID := nba_AuthReqID record;
                pollInterval := nba_PollInterval record;
                expiresAt := nba_ExpiresAt record;
                status := BackchannelAuthenticationPending;
                grant := RawNil; reason := "";
                redeemed := false; polledBefore := false; lastPolledAt := zero_time |} in
  (Ok tt, {| heap := <[next s := rec]> (heap s); next := S (next s);
             byAuthReqIDHash := <[nba_AuthReqIDHash record := next s]> (byAuthReqIDHash s);
             byHandleHash := <[nba_HandleHash record := next s]> (byHandleHash s) |}).

Definition LookupBackchannelAuthentication (handleHash : digest)
    : eff BackchannelAuthenticationStore store_error LookedUpBackchannelAuthentication := λ s,
  match deref (byHandleHash s !! handleHash) s with
  | None => (plain, s)
  | Some (_, rec) => (Ok {| lba_ClientID := clientID rec; lba_Request := request rec |}, s)
  end.

Definition decided (decision : DecideBackchannelAuthentication) (rec : backchannelRecord)
    : backchannelRecord :=
  {| clientID := clientID rec; request := request rec; deliveryMode := deliveryMode rec;
     clientNotificationToken := clientNotificationToken rec; authReqID := authReqID rec;
     pollInterval := pollInterval rec; expiresAt := expiresAt rec;
     status := dba_Status decision; grant := dba_Grant decision;
     reason := dba_Reason decision; redeemed := redeemed rec;
     polledBefore := if bool_decide (deliveryMode rec = "ping") then false else polledBefore rec;
     lastPolledAt := lastPolledAt rec |}.

Definition DecideBackchannelAuthentication (decision : Storage.DecideBackchannelAuthentication)
    : eff BackchannelAuthenticationStore store_error DecidedBackchannelAuthentication := λ s,
  match deref (byHandleHash s !! dba_HandleHash decision) s with
  | None => (plain, s)
  | Some (l, rec) =>
    if negb (bool_decide (status rec = BackchannelAuthenticationPending)) then (plain, s)
    else
      (Ok {| dcd_ClientID := clientID rec; dcd_DeliveryMode := deliveryMode rec;
             dcd_ClientNotificationToken := clientNotificationToken rec;
             dcd_AuthReqID := authReqID rec |},
       set_record l (decided decision rec) s)
  end.

Definition polled (redeemed' polledBefore' : bool) (now : Time) (rec : backchannelRecord)
    : backchannelRecord :=
  {| clientID := clientID rec; request := request rec; deliveryMode := deliveryMode rec;
     clientNotificationToken := clientNotificationToken rec; authReqID := authReqID rec;
     pollInterval := pollInterval rec; expiresAt := expiresAt rec; status := status rec;
     grant := grant rec; reason := reason rec; redeemed := redeemed';
     polledBefore := polledBefore'; lastPolledAt := now |}.

Definition PollBackchannelAuthentication (poll : Storage.PollBackchannelAuthentication)
    : eff BackchannelAuthenticationStore store_error PolledBackchannelAuthentication := λ s,
  match deref (byAuthReqIDHash s !! pba_AuthReqIDHash poll) s with
  | None => (plain, s)
  | Some (l, rec) =>
    if negb (bool_decide (pba_ClientID poll = "")) &&
       negb (bool_decide (pba_ClientID poll = clientID rec)) then (plain, s)
    else if redeemed rec then (Err BackchannelAuthenticationAlreadyRedeemedError, s)
    else if negb (Before (pba_Now poll) (expiresAt rec))
    then (Err BackchannelAuthenticationExpiredError, s)
    else if polledBefore rec &&
            bool_decide (Sub (pba_Now poll) (lastPolledAt rec) < pollInterval rec)%Z
    then (Err BackchannelAuthenticationSlowDownError,
          set_record l (polled (redeemed rec) (polledBefore rec) (pba_Now poll) rec) s)
    else
      (Ok {| plb_Status := status rec; plb_ClientID := clientID rec;
             plb_Request := request rec; plb_Grant := grant rec; plb_Reason := reason rec |},
       set_record l
         (polled (bool_decide (status rec = BackchannelAuthenticationApproved) || redeemed rec)
            true (pba_Now poll) rec) s)
  end.

#[export] Instance backchannel_store
    : Storage.BackchannelAuthenticationStore BackchannelAuthenticationStore := {|
  Storage.CreateBackchannelAuthentication := CreateBackchannelAuthentication;
  Storage.LookupBackchannelAuthentication := LookupBackchannelAuthentication;
  Storage.DecideBackchannel := DecideBackchannelAuthentication;
  Storage.PollBackchannel := PollBackchannelAuthentication |}.
End Backchannel.

(** * TransactionStore (transaction_store.go) *)

Module Transactions.
Record pendingInteraction := {
  reference : string;
  interaction : CompletedInteraction }.

Record TransactionStore := {
  byReference : gmap string NewPARRecord;
  referenceCompleted : gmap string bool;
  byHandle : gmap string pendingInteraction;
  handleConsumed : gmap string bool }.

Definition NewTransactionStore : TransactionStore :=
  {| byReference := ∅; referenceCompleted := ∅; byHandle := ∅; handleConsumed := ∅ |}.

Definition CreatePAR (record : NewPARRecord) : eff TransactionStore store_error unit := λ s,
  (Ok tt, {| byReference := <[par_Reference record := record]> (byReference s);
             referenceCompleted := referenceCompleted s; byHandle := byHandle s;
             handleConsumed := handleConsumed s |}).

Definition BeginAuthorization (txn : BeginAuthorizationTransaction)
    : eff TransactionStore store_error PushedAuthorizationRequest := λ s,
  if default false (referenceCompleted s !! bat_Reference txn) then (plain, s)
  else
    match byReference s !! bat_Reference txn with
    | None => (plain, s)
    | Some record =>
      if negb (Before (bat_Now txn) (par_ExpiresAt record)) then (plain, s)
      else
        (Ok {| pushed_ClientID := par_ClientID record; pushed_Request := par_Request record;
               pushed_ExpiresAt := par_ExpiresAt record |},
         {| byReference := byReference s; referenceCompleted := referenceCompleted s;
            byHandle := <[bat_Handle txn :=
              {| reference := bat_Reference txn;
                 interaction := {| ci_ClientID := par_ClientID record;
                                   ci_Request := par_Request record;
                                   ci_ExpiresAt := bat_HandleExpiresAt txn |} |}]> (byHandle s);
            handleConsumed := handleConsumed s |})
    end.

Definition CompleteAuthorization (txn : CompleteAuthorizationTransaction)
    : eff TransactionStore store_error CompletedInteraction := λ s,
  if default false (handleConsumed s !! cat_Handle txn) then (plain, s)
  else
    match byHandle s !! cat_Handle txn with
    | None => (plain, s)
    | Some pending =>
      if default false (referenceCompleted s !! reference pending) then (plain, s)
      else
        (Ok (interaction pending),
         {| byReference := byReference s;
            referenceCompleted := <[reference pending := true]> (referenceCompleted s);
            byHandle := byHandle s;
            handleConsumed := <[cat_Handle txn := true]> (handleConsumed s) |})
    end.

#[export] Instance transaction_store : Storage.TransactionStore TransactionStore := {|
  Storage.CreatePAR := CreatePAR;
  Storage.BeginAuthorization := BeginAuthorization;
  Storage.CompleteAuthorization := CompleteAuthorization |}.
End Transactions.

(** * SessionStore (session_store.go) *)

Module Sessions.
Abbreviation SessionStore := (gmap string NewSession).
Definition NewSessionStore : SessionStore := ∅.

Definition Create (session : NewSession) : eff SessionStore store_error unit := λ s,
  (Ok tt, <[ns_State session := session]> s).

Definition Consume (consumption : SessionConsumption)
    : eff SessionStore store_error ConsumedSession := λ s,
  let s' := delete (sc_State consumption) s in
  match s !! sc_State consumption with
  | None => (plain, s')
  | Some session =>
    (Ok {| cs_Record := ns_Record session; cs_ExpiresAt := ns_ExpiresAt session |}, s')
  end.

#[export] Instance session_store : Storage.SessionStore SessionStore :=
  {| Storage.Create := Create; Storage.Consume := Consume |}.
End Sessions.

(** * NonceStore (nonce_store.go) *)

Module Nonces.
Abbreviation NonceStore := (gmap string NonceRecord).
Definition NewNonceStore : NonceStore := ∅.

Definition Issue (issuance : NonceIssuance) : eff NonceStore store_error unit := λ s,
  (Ok tt, <[ni_Nonce issuance := {| nr_ExpiresAt := ni_ExpiresAt issuance |}]> s).

Definition Lookup (lookup : NonceLookup) : eff NonceStore store_error NonceRecord := λ s,
  (match s !! nl_Nonce lookup with Some record => Ok record | None => plain end, s).

#[export] Instance nonce_store : Storage.NonceStore NonceStore :=
  {| Storage.Issue := Issue; Storage.Lookup := Lookup |}.
End Nonces.

(** * ReplayStore (replay_store.go) *)

Module Replays.
Abbreviation ReplayStore := (gmap string (gmap digest bool)).
Definition NewReplayStore : ReplayStore := ∅.

Definition UseOnce (use : ReplayUse) : eff ReplayStore store_error unit := λ s,
  let byDigest := default ∅ (s !! ru_Namespace use) in
  if default false (byDigest !! ru_Digest use)
  then (plain, <[ru_Namespace use := byDigest]> s)
  else (Ok tt, <[ru_Namespace use := <[ru_Digest use := true]> byDigest]> s).

#[export] Instance replay_store : Storage.ReplayStore ReplayStore :=
  {| Storage.UseOnce := UseOnce |}.
End Replays.

(** * PairwiseSubjectStore (pairwise_subject_store.go) *)

Module Pairwise.
Abbreviation pairwiseBody := (string * string * string)%type.

Record PairwiseSubjectStore := {
  bodies : gmap PairwiseSubjectKey string;
  subjects : gmap pairwiseBody string }.

Definition NewPairwiseSubjectStore : PairwiseSubjectStore := {| bodies := ∅; subjects := ∅ |}.

Definition GetOrCreate (key : PairwiseSubjectKey) (candidate : string)
    : eff PairwiseSubjectStore store_error string := λ s,
  match bodies s !! key with
  | Some body => (Ok body, s)
  | None =>
    let index := (psk_Issuer key, psk_Sector key, candidate) in
    match subjects s !! index with
    | Some _ => (Err ErrPairwiseSubjectCollision, s)
    | None =>
      (Ok candidate,
       {| bodies := <[key := candidate]> (bodies s);
          subjects := <[index := psk_Subject key]> (subjects s) |})
    end
  end.

Definition Lookup (issuer sector body : string) : eff PairwiseSubjectStore store_error string := λ s,
  match subjects s !! (issuer, sector, body) with
  | Some subject => (Ok subject, s)
  | None => (Err ErrPairwiseSubjectNotFound, s)
  end.

#[export] Instance pairwise_subject_store : Storage.PairwiseSubjectStore PairwiseSubjectStore :=
  {| Storage.GetOrCreate := GetOrCreate; Storage.LookupSubject := Lookup |}.
End Pairwise.

(** * AccessTokenStore (access_token_store.go) *)

Module AccessTokens.
Abbreviation AccessTokenStore := (gmap digest NewAccessToken).
Definition NewAccessTokenStore : AccessTokenStore := ∅.

Definition CreateAccessToken (tok : NewAccessToken) : eff AccessTokenStore store_error unit := λ s,
  (Ok tt, <[nat_TokenHash tok := tok]> s).

Definition LookupAccessToken (lookup : AccessTokenLookup)
    : eff AccessTokenStore store_error LookedUpAccessToken := λ s,
  match s !! atl_TokenHash lookup with
  | None => (plain, s)
  | Some tok =>
    (Ok {| lat_ClientID := nat_ClientID tok; lat_Subject := nat_Subject tok;
           lat_Scope := nat_Scope tok; lat_Thumbprint := nat_Thumbprint tok;
           lat_SenderConstrain := nat_SenderConstrain tok; lat_Claims := nat_Claims tok;
           lat_ExpiresAt := nat_ExpiresAt tok |}, s)
  end.

#[export] Instance access_token_store : Storage.AccessTokenStore AccessTokenStore :=
  {| Storage.CreateAccessToken := CreateAccessToken;
     Storage.LookupAccessToken := LookupAccessToken |}.
End AccessTokens.
