(* ===== verification/MemTheorems.v ===== *)
(** What the stores promise, over every sequence of their operations.

    A [_step] relation has one constructor per method, called with any
    argument and with any outcome; [rtc] of it is what an execution can do
    between two observations, whoever makes the calls. *)
From S2P Require Import Prelude Json GoTime Effects Storage MemStore.
From stdpp Require Import relations.
From stdpp Require Import options.

(** A property of states that every step keeps holds along executions. *)
Lemma rtc_invariant {S} (step : S → S → Prop) (P : S → Prop) s s' :
  (∀ x y, P x → step x y → P y) → P s → rtc step s s' → P s'.
Proof. intros Hstep Hs. induction 1; eauto. Qed.

(** * Authorization codes *)

Section grants.
Set Default Proof Using "All".
Context `{GrantStoreLaws G}.

Inductive grant_step : G → G → Prop :=
| step_create_code c s r s' : CreateAuthorizationCode c s = (r, s') → grant_step s s'
| step_redeem_code c s r s' : RedeemAuthorizationCode c s = (r, s') → grant_step s s'
| step_record_access h k t s r s' : RecordIssuedAccessToken h k t s = (r, s') → grant_step s s'
| step_record_refresh h k t s r s' : RecordIssuedRefreshToken h k t s = (r, s') → grant_step s s'
| step_record_tokens f h k t k' t' s r s' :
    RecordIssuedTokens = Some f → f h k t k' t' s = (r, s') → grant_step s s'
| step_create_refresh t s r s' : CreateRefreshToken t s = (r, s') → grant_step s s'
| step_redeem_refresh t s r s' : RedeemRefreshToken t s = (r, s') → grant_step s s'
| step_revoke_refresh h s r s' : RevokeRefreshToken h s = (r, s') → grant_step s s'.

Lemma grant_step_le s s' : grant_step s s' → grants_le s s'.
Proof.
  destruct 1; [eapply create_code_le|eapply redeem_code_le|eapply record_access_le
    |eapply record_refresh_le|eapply record_tokens_le|eapply create_refresh_le
    |eapply redeem_refresh_le|eapply revoke_refresh_le]; eauto.
Qed.

Lemma grant_steps_le s s' : rtc grant_step s s' → grants_le s s'.
Proof.
  induction 1 as [|s s1 s2 Hstep _ IH]; [reflexivity|].
  transitivity s1; [by apply grant_step_le|done].
Qed.

(** An authorization code is redeemed at most once, whatever operations
    any callers interleave: after a redemption succeeded, every later
    redemption of the same digest, by any client, fails with the
    already-redeemed error. Proved against the store interface's contract
    (GrantStoreLaws), which memstore's GrantStore satisfies. *)
Theorem code_redeemed_at_most_once c c' r s s1 s2 :
  RedeemAuthorizationCode c s = (Ok r, s1) →
  rtc grant_step s1 s2 →
  acr_CodeHash c' = acr_CodeHash c →
  ∃ e s3, RedeemAuthorizationCode c' s2 = (Err (CodeAlreadyRedeemed e), s3).
Proof.
  intros [_ Hr]%redeem_code_once [Hle _]%grant_steps_le Hh.
  apply redeem_code_again. rewrite Hh. auto.
Qed.

(** A revoked refresh token stays revoked: once RevokeRefreshToken
    succeeded, no sequence of operations, creating a token under the same
    digest included, makes it redeemable again. *)
Theorem refresh_revoked_forever h s s1 s2 :
  RevokeRefreshToken h s = (Ok tt, s1) →
  rtc grant_step s1 s2 →
  ∃ e, RedeemRefreshToken {| rtr_TokenHash := h |} s2 = (Err e, s2).
Proof.
  intros Hr%revoke_refresh_done [_ Hle]%grant_steps_le.
  apply redeem_refresh_revoked. by apply Hle.
Qed.
End grants.

(** * CIBA requests *)

Section backchannel.
Import Backchannel.

Inductive ciba_step : BackchannelAuthenticationStore → BackchannelAuthenticationStore → Prop :=
| step_create r s x s' : CreateBackchannelAuthentication r s = (x, s') → ciba_step s s'
| step_lookup h s x s' : LookupBackchannelAuthentication h s = (x, s') → ciba_step s s'
| step_decide d s x s' : DecideBackchannelAuthentication d s = (x, s') → ciba_step s s'
| step_poll p s x s' : PollBackchannelAuthentication p s = (x, s') → ciba_step s s'.

(** What a record keeps: its identity always, its decision once made, its
    redemption once spent. *)
Definition record_le (rec rec' : backchannelRecord) : Prop :=
  clientID rec' = clientID rec ∧ expiresAt rec' = expiresAt rec ∧
  deliveryMode rec' = deliveryMode rec ∧
  (status rec ≠ BackchannelAuthenticationPending →
    status rec' = status rec ∧ grant rec' = grant rec ∧ reason rec' = reason rec) ∧
  (redeemed rec = true → redeemed rec' = true).

Instance record_le_preorder : PreOrder record_le.
Proof.
  split; [by intros ?; repeat split|].
  intros r1 r2 r3 (Hc & He & Hd & Hdec & Hred) (Hc' & He' & Hd' & Hdec' & Hred').
  repeat split; try congruence; auto; destruct Hdec as (Hs & Hg & Hr); try done;
    destruct Hdec' as (Hs' & Hg' & Hr'); congruence.
Qed.

(** Pointers are never reused. *)
Definition fresh_next (s : BackchannelAuthenticationStore) : Prop :=
  ∀ l, is_Some (heap s !! l) → l < next s.

Definition heap_le (s s' : BackchannelAuthenticationStore) : Prop :=
  ∀ l rec, heap s !! l = Some rec → ∃ rec', heap s' !! l = Some rec' ∧ record_le rec rec'.

Lemma deref_Some p s l rec : deref p s = Some (l, rec) → p = Some l ∧ heap s !! l = Some rec.
Proof. destruct p as [l'|]; simpl; [|done]. by intros (? & ? & [= -> ->])%fmap_Some. Qed.

Lemma set_record_le s l rec rec' :
  fresh_next s → heap s !! l = Some rec → record_le rec rec' →
  fresh_next (set_record l rec' s) ∧ heap_le s (set_record l rec' s).
Proof.
  intros Hwf Hl Hle. split.
  - intros k. simpl. rewrite lookup_insert_is_Some'. intros [<-|Hk]; eauto.
  - intros k r Hk. simpl. destruct (decide (l = k)) as [<-|Hne].
    + rewrite lookup_insert_eq. eexists; split; [done|]. congruence.
    + rewrite lookup_insert_ne by done. eexists; split; [done|]. reflexivity.
Qed.

Lemma ciba_step_le s s' : ciba_step s s' → fresh_next s → fresh_next s' ∧ heap_le s s'.
Proof.
  assert (Hrefl : ∀ x, fresh_next x → fresh_next x ∧ heap_le x x).
  { intros x Hx. split; [done|]. intros l r Hl. exists r. split; [done|reflexivity]. }
  destruct 1 as [r s x s' Hr|h s x s' Hr|d s x s' Hr|p s x s' Hr]; intros Hwf.
  - injection Hr as <- <-. split.
    + intros l. simpl. rewrite lookup_insert_is_Some'. intros [<-|Hl]; [lia|].
      apply Hwf in Hl. lia.
    + intros l rec Hl. simpl. rewrite lookup_insert_ne.
      { exists rec. split; [done|reflexivity]. }
      intros <-. assert (next s < next s); [|lia]. apply Hwf. eauto.
  - unfold LookupBackchannelAuthentication in Hr. repeat case_match; simplify_eq/=; auto.
  - unfold DecideBackchannelAuthentication in Hr.
    destruct (deref _ s) as [[l rec]|] eqn:Hd; [|simplify_eq/=; auto].
    apply deref_Some in Hd as [_ Hl].
    destruct (bool_decide_reflect (status rec = BackchannelAuthenticationPending)) as [Hp|];
      simplify_eq/=; [|auto].
    apply set_record_le with rec; [done..|]. by repeat split.
  - unfold PollBackchannelAuthentication in Hr.
    destruct (deref _ s) as [[l rec]|] eqn:Hd; [|simplify_eq/=; auto].
    apply deref_Some in Hd as [_ Hl].
    destruct (_ && _); [simplify_eq/=; auto|].
    destruct (redeemed rec) eqn:Hred; [simplify_eq/=; auto|].
    destruct (negb _); [simplify_eq/=; auto|].
    destruct (_ && _); simplify_eq/=;
      (apply set_record_le with rec; [done..|]; repeat split; simpl; congruence).
Qed.

Lemma ciba_steps_le s s' : rtc ciba_step s s' → fresh_next s → fresh_next s' ∧ heap_le s s'.
Proof.
  induction 1 as [s|s s1 s2 Hstep _ IH]; intros Hwf.
  - split; [done|]. intros l r Hl. exists r. split; [done|reflexivity].
  - destruct (ciba_step_le _ _ Hstep Hwf) as [Hwf1 Hle1]. destruct (IH Hwf1) as [Hwf2 Hle2].
    split; [done|]. intros l r (r1 & Hr1 & Hle)%Hle1.
    destruct (Hle2 _ _ Hr1) as (r2 & Hr2 & Hle').
    exists r2. split; [done|]. by transitivity r1.
Qed.

Lemma reachable_fresh s : rtc ciba_step NewBackchannelAuthenticationStore s → fresh_next s.
Proof.
  intros Hr%ciba_steps_le; [by destruct Hr|]. intros l [? Hl]. done.
Qed.

(** An approved CIBA request yields its approval at most once. After a
    poll returned Approved, whatever operations are interleaved, as long as
    no new request was created under the same digest, every further poll
    of it fails with the already-redeemed error, or, from another client,
    with a plain error; either way the store is unchanged. *)
Theorem ciba_approved_at_most_once p p' a s s1 s2 :
  rtc ciba_step NewBackchannelAuthenticationStore s →
  PollBackchannelAuthentication p s = (Ok a, s1) →
  plb_Status a = BackchannelAuthenticationApproved →
  rtc ciba_step s1 s2 →
  pba_AuthReqIDHash p' = pba_AuthReqIDHash p →
  byAuthReqIDHash s2 !! pba_AuthReqIDHash p = byAuthReqIDHash s1 !! pba_AuthReqIDHash p →
  PollBackchannelAuthentication p' s2 =
    ((if bool_decide (pba_ClientID p' = "" ∨ pba_ClientID p' = plb_ClientID a)
      then Err BackchannelAuthenticationAlreadyRedeemedError else plain), s2).
Proof.
  intros Hreach Hpoll Happ Hsteps Hh Hsame. pose proof (reachable_fresh _ Hreach) as Hwf.
  assert (Hwf1 : fresh_next s1) by (eapply ciba_step_le; [by econstructor|done]).
  destruct (ciba_steps_le _ _ Hsteps Hwf1) as [_ Hle].
  unfold PollBackchannelAuthentication in Hpoll.
  destruct (deref _ s) as [[l rec]|] eqn:Hd; [|simplify_eq/=].
  apply deref_Some in Hd as [Hl Hrec].
  destruct (_ && _); [simplify_eq/=|]. destruct (redeemed rec); [simplify_eq/=|].
  destruct (negb _); [simplify_eq/=|]. destruct (_ && _); simplify_eq/=.
  destruct (Hle l _ (lookup_insert_eq _ _ _)) as (rec2 & Hrec2 & Hc & _ & _ & _ & Hred).
  simpl in Hc, Hred. rewrite bool_decide_true in Hred by done. specialize (Hred eq_refl).
  unfold PollBackchannelAuthentication. rewrite Hh, Hsame, Hl. simpl. rewrite Hrec2. simpl.
  rewrite Hred, Hc.
  destruct (bool_decide_reflect (pba_ClientID p' = "")),
    (bool_decide_reflect (pba_ClientID p' = clientID rec)); simpl;
    first [rewrite bool_decide_true by auto|rewrite bool_decide_false by naive_solver]; done.
Qed.

(** A CIBA decision is final. Once DecideBackchannelAuthentication
    recorded a decision for a request, whatever operations follow, a
    second decision for it fails and leaves the store unchanged, and every
    poll that succeeds reports exactly that decision: its status, grant
    and reason, and the request's own client. *)
Theorem ciba_decision_final d d' p a b s s1 s2 s3 l :
  rtc ciba_step NewBackchannelAuthenticationStore s →
  dba_Status d ≠ BackchannelAuthenticationPending →
  byHandleHash s !! dba_HandleHash d = Some l →
  DecideBackchannelAuthentication d s = (Ok a, s1) →
  rtc ciba_step s1 s2 →
  (byHandleHash s2 !! dba_HandleHash d' = Some l →
    DecideBackchannelAuthentication d' s2 = (plain, s2)) ∧
  (byAuthReqIDHash s2 !! pba_AuthReqIDHash p = Some l →
    PollBackchannelAuthentication p s2 = (Ok b, s3) →
    plb_Status b = dba_Status d ∧ plb_Grant b = dba_Grant d ∧
    plb_Reason b = dba_Reason d ∧ plb_ClientID b = dcd_ClientID a).
Proof.
  intros Hreach Hnp Hl Hdec Hsteps. pose proof (reachable_fresh _ Hreach) as Hwf.
  assert (Hwf1 : fresh_next s1) by (eapply ciba_step_le; [by eapply step_decide|done]).
  destruct (ciba_steps_le _ _ Hsteps Hwf1) as [_ Hle].
  unfold DecideBackchannelAuthentication in Hdec. rewrite Hl in Hdec. simpl in Hdec.
  destruct (heap s !! l) as [rec|] eqn:Hrec; [|simplify_eq/=]. simpl in Hdec.
  destruct (negb _); simplify_eq/=.
  destruct (Hle l _ (lookup_insert_eq _ _ _)) as (rec2 & Hrec2 & Hc & _ & _ & Hst & _).
  simpl in Hst, Hc. destruct (Hst Hnp) as (Hs & Hg & Hr). split.
  - intros Hl2. unfold DecideBackchannelAuthentication. rewrite Hl2. simpl. rewrite Hrec2. simpl.
    rewrite bool_decide_false by congruence. done.
  - intros Hl2 Hpoll. unfold PollBackchannelAuthentication in Hpoll. rewrite Hl2 in Hpoll.
    simpl in Hpoll. rewrite Hrec2 in Hpoll. simpl in Hpoll.
    repeat (match goal with H : (if ?x then _ else _) = _ |- _ => destruct x end; [simplify_eq/=|]).
    simplify_eq/=. done.
Qed.

(** The polling interval (CIBA §11). For a request found, of the
    polling client, unredeemed and unexpired: a poll sooner than the
    interval after the previous one, successful or itself too soon, is
    answered slow_down and restarts the interval; the first poll ever, and
    the first after a ping request's decision (CIBA §10.2), never is, and
    neither is one at or after the interval. *)
Theorem ciba_poll_interval p s l rec :
  byAuthReqIDHash s !! pba_AuthReqIDHash p = Some l →
  heap s !! l = Some rec →
  pba_ClientID p = "" ∨ pba_ClientID p = clientID rec →
  redeemed rec = false → (pba_Now p < expiresAt rec)%Z →
  let '(r, s') := PollBackchannelAuthentication p s in
  (∃ rec', heap s' !! l = Some rec' ∧ polledBefore rec' = true ∧ lastPolledAt rec' = pba_Now p ∧
    pollInterval rec' = pollInterval rec) ∧
  (r = Err BackchannelAuthenticationSlowDownError ↔
    polledBefore rec = true ∧ (Sub (pba_Now p) (lastPolledAt rec) < pollInterval rec)%Z) ∧
  (r = Err BackchannelAuthenticationSlowDownError ∨ ∃ a, r = Ok a) ∧
  (∀ d h, deliveryMode rec = "ping" → byHandleHash s !! dba_HandleHash d = Some l →
    DecideBackchannelAuthentication d s = (Ok h, snd (DecideBackchannelAuthentication d s)) →
    ∃ a, fst (PollBackchannelAuthentication p (snd (DecideBackchannelAuthentication d s))) = Ok a).
Proof.
  intros Hl Hrec Hc Hred Hexp.
  assert (Hclient : negb (bool_decide (pba_ClientID p = "")) &&
    negb (bool_decide (pba_ClientID p = clientID rec)) = false).
  { destruct Hc as [-> | ->]; [done|].
    by rewrite (bool_decide_true (clientID rec = clientID rec)), andb_false_r. }
  assert (Hbefore : Before (pba_Now p) (expiresAt rec) = true) by by apply bool_decide_true.
  unfold PollBackchannelAuthentication at 1. rewrite Hl. simpl. rewrite Hrec. simpl.
  rewrite Hclient, Hred, Hbefore. simpl.
  assert (Hping : ∀ d h, deliveryMode rec = "ping" → byHandleHash s !! dba_HandleHash d = Some l →
    DecideBackchannelAuthentication d s = (Ok h, snd (DecideBackchannelAuthentication d s)) →
    ∃ a, fst (PollBackchannelAuthentication p (snd (DecideBackchannelAuthentication d s))) = Ok a).
  { intros d h Hp Hh. unfold DecideBackchannelAuthentication. rewrite Hh. simpl. rewrite Hrec. simpl.
    destruct (bool_decide (status rec = _)); simpl; [|done]. intros _. unfold PollBackchannelAuthentication. simpl.
    rewrite Hl. simpl. rewrite lookup_insert_eq. simpl.
    rewrite Hclient, Hred, Hbefore, Hp. simpl. eauto. }
  destruct (polledBefore rec) eqn:Hpb; simpl;
    [destruct (bool_decide_reflect (Sub (pba_Now p) (lastPolledAt rec) < pollInterval rec)%Z)|]; simpl;
    (split; [rewrite lookup_insert_eq; eexists; repeat split; eauto|]);
    (split; [split; [intros [=]; try done|naive_solver]|]); (split; [eauto|done]).
Qed.
End backchannel.

(** * Transactions *)

Section transactions.
Import Transactions.

Inductive transaction_step : TransactionStore → TransactionStore → Prop :=
| step_create_par r s x s' : CreatePAR r s = (x, s') → transaction_step s s'
| step_begin t s x s' : BeginAuthorization t s = (x, s') → transaction_step s s'
| step_complete t s x s' : CompleteAuthorization t s = (x, s') → transaction_step s s'.

Definition completed (s : TransactionStore) (r : string) : Prop :=
  referenceCompleted s !! r = Some true.
Definition consumed (s : TransactionStore) (h : string) : Prop :=
  handleConsumed s !! h = Some true.

Lemma transaction_step_mono s s' :
  transaction_step s s' →
  (∀ r, completed s r → completed s' r) ∧ (∀ h, consumed s h → consumed s' h).
Proof.
  unfold completed, consumed.
  destruct 1 as [r s x s' Hr|t s x s' Hr|t s x s' Hr];
    unfold CreatePAR, BeginAuthorization, CompleteAuthorization in Hr;
    repeat case_match; simplify_eq/=; eauto using Grants.insert_true_mono.
Qed.

Lemma transaction_steps_mono s s' :
  rtc transaction_step s s' →
  (∀ r, completed s r → completed s' r) ∧ (∀ h, consumed s h → consumed s' h).
Proof.
  induction 1 as [|s s1 s2 [? ?]%transaction_step_mono _ [? ?]]; [done|]. split; eauto.
Qed.

(** A pushed authorization request is completed at most once, across
    all the interaction handles minted from it. Once a handle of a
    reference completed, whatever follows: the handle itself never
    completes again, the reference can never be begun again (pushing it
    again included), and no other handle minted from it, before or after,
    completes. All three leave the store as it was. *)
Theorem reference_completed_at_most_once h h' t s s1 s2 x p p' :
  byHandle s !! cat_Handle h = Some p →
  CompleteAuthorization h s = (Ok x, s1) →
  rtc transaction_step s1 s2 →
  CompleteAuthorization h s2 = (plain, s2) ∧
  (bat_Reference t = reference p → BeginAuthorization t s2 = (plain, s2)) ∧
  (byHandle s2 !! cat_Handle h' = Some p' → reference p' = reference p →
    CompleteAuthorization h' s2 = (plain, s2)).
Proof.
  intros Hp Hc Hsteps. unfold CompleteAuthorization in Hc. rewrite Hp in Hc.
  destruct (default false (handleConsumed s !! _)); [simplify_eq/=|].
  destruct (default false (referenceCompleted s !! _)); simplify_eq/=.
  destruct (transaction_steps_mono _ _ Hsteps) as [Hcomp Hcons].
  specialize (Hcomp (reference p)). specialize (Hcons (cat_Handle h)).
  unfold completed, consumed in *. simpl in *. rewrite !lookup_insert_eq in *.
  specialize (Hcomp eq_refl). specialize (Hcons eq_refl).
  unfold CompleteAuthorization, BeginAuthorization. split; [|split].
  - by rewrite Hcons.
  - intros ->. by rewrite Hcomp.
  - intros -> ->. rewrite Hcomp. simpl. by destruct (default false _).
Qed.
End transactions.

(** * Sessions *)

Section sessions.
Import Sessions.

(** A step that does not create a session for [state]. *)
Inductive session_step (state : string) : SessionStore → SessionStore → Prop :=
| step_create_other n s x s' :
    ns_State n ≠ state → Create n s = (x, s') → session_step state s s'
| step_consume c s x s' : Consume c s = (x, s') → session_step state s s'.

(** A client session is consumed at most once: after any Consume of a
    state, successful or not, no later Consume of it succeeds until a
    session is created for that state again; and a Consume never disturbs
    another state's session. *)
Theorem session_consumed_at_most_once c s s1 s2 r :
  Consume c s = (r, s1) →
  rtc (session_step (sc_State c)) s1 s2 →
  fst (Consume c s2) = plain ∧
  (∀ k, k ≠ sc_State c → s1 !! k = s !! k).
Proof.
  intros Hc Hsteps. unfold Consume in Hc.
  assert (H1 : s1 = delete (sc_State c) s) by (repeat case_match; by simplify_eq/=).
  split; [|intros k Hk; subst s1; by rewrite lookup_delete_ne].
  assert (Hnone : s2 !! sc_State c = None).
  { revert Hsteps. apply (rtc_invariant _ (λ x, x !! sc_State c = None));
      [|subst s1; apply lookup_delete_eq].
    intros x y Hx Hstep. destruct Hstep as [n x o y Hne Hr|c' x o y Hr].
    - injection Hr as _ <-. by rewrite lookup_insert_ne.
    - unfold Consume in Hr. assert (y = delete (sc_State c') x) as ->
        by (repeat case_match; by simplify_eq/=).
      rewrite lookup_delete_None. by right. }
  unfold Consume. by rewrite Hnone.
Qed.
End sessions.

(** * Access tokens *)

Section access_tokens.
Import AccessTokens.

#[export] Instance access_token_laws : Storage.AccessTokenLaws AccessTokenStore.
Proof.
  refine {| token_record := λ s h t, s !! h = Some t |}; simpl.
  - intros t s s' [= <-]. apply lookup_insert_eq.
  - intros t s r s' [= _ <-] h t'. rewrite lookup_insert_Some. naive_solver.
  - unfold LookupAccessToken. intros l s r s'. by destruct (s !! _); intros [= _ <-].
  - unfold LookupAccessToken. intros l s r s'. destruct (s !! _) as [t|]; intros [= <- <-].
    by exists t.
  - unfold LookupAccessToken. by intros l s t ->.
Defined.
End access_tokens.

(** * Replay *)

Section replays.
Import Replays.

Definition use_step (s s' : ReplayStore) : Prop := ∃ u r, UseOnce u s = (r, s').

Definition seen (s : ReplayStore) (namespace : string) (d : digest) : Prop :=
  s !! namespace ≫= (λ m, m !! d) = Some true.

Lemma UseOnce_spec u s :
  let '(r, s') := UseOnce u s in
  (seen s (ru_Namespace u) (ru_Digest u) → r = plain) ∧
  (¬ seen s (ru_Namespace u) (ru_Digest u) → r = Ok tt) ∧
  (r = Ok tt → seen s' (ru_Namespace u) (ru_Digest u)) ∧
  (∀ n d, (n, d) ≠ (ru_Namespace u, ru_Digest u) → seen s' n d ↔ seen s n d) ∧
  (∀ n d, seen s n d → seen s' n d).
Proof.
  unfold UseOnce, seen.
  set (n := ru_Namespace u). set (dg := ru_Digest u).
  assert (Hd : default false (default ∅ (s !! n) !! dg) = true ↔
    s !! n ≫= (λ m, m !! dg) = Some true).
  { destruct (s !! n) as [m|]; simpl; [|by rewrite lookup_empty].
    apply Grants.default_false_true. }
  assert (Hsame : ∀ k e, default ∅ (s !! k) !! e = Some true ↔
    s !! k ≫= (λ m, m !! e) = Some true).
  { intros k e. destruct (s !! k); simpl; [done|]. by rewrite lookup_empty. }
  destruct (default false _) eqn:Hdef; simpl.
  - assert (Hkeep : ∀ k e, <[n := default ∅ (s !! n)]> s !! k ≫= (λ m, m !! e) = Some true ↔
      s !! k ≫= (λ m, m !! e) = Some true).
    { intros k e. destruct (decide (n = k)) as [<-|Hk].
      - rewrite lookup_insert_eq. apply Hsame.
      - by rewrite lookup_insert_ne. }
    split; [done|]. split; [naive_solver|]. split; [done|].
    split; intros k e; [intros _; apply Hkeep|apply Hkeep].
  - assert (Hnot : ¬ s !! n ≫= (λ m, m !! dg) = Some true) by (rewrite <-Hd; congruence).
    split; [done|]. split; [done|]. split; [|split].
    + intros _. rewrite lookup_insert_eq. simpl. apply lookup_insert_eq.
    + intros k e Hne. destruct (decide (n = k)) as [<-|Hk].
      * rewrite lookup_insert_eq. simpl. rewrite lookup_insert_ne by congruence. apply Hsame.
      * by rewrite lookup_insert_ne.
    + intros k e Hk. destruct (decide (n = k)) as [<-|Hk'].
      * rewrite lookup_insert_eq. simpl. destruct (decide (dg = e)) as [<-|He].
        { apply lookup_insert_eq. }
        rewrite lookup_insert_ne by done. by apply Hsame.
      * by rewrite lookup_insert_ne.
Qed.

#[export] Instance replay_laws : Storage.ReplayLaws ReplayStore.
Proof.
  refine {| digest_used := seen |}.
  - intros u s r s' Hr. pose proof (UseOnce_spec u s) as H. simpl in Hr. rewrite Hr in H.
    destruct H as (_ & _ & _ & _ & H). exact H.
  - intros u s s' Hr. pose proof (UseOnce_spec u s) as H. simpl in Hr. rewrite Hr in H.
    destruct H as (Hold & _ & Hnew & _). split; [|by apply Hnew].
    intros Hs. by specialize (Hold Hs).
Defined.

(** Uses of other pairs only. *)
Definition use_other_step (n : string) (d : digest) (s s' : ReplayStore) : Prop :=
  ∃ u r, (n, d) ≠ (ru_Namespace u, ru_Digest u) ∧ UseOnce u s = (r, s').

(** A digest once spent is never accepted again. *)
Lemma spent_digest_refused u u' s s1 s2 s3 :
  ru_Namespace u' = ru_Namespace u → ru_Digest u' = ru_Digest u →
  UseOnce u s = (Ok tt, s1) → rtc use_step s1 s2 → UseOnce u' s2 ≠ (Ok tt, s3).
Proof.
  intros Hn Hd Hu Hsteps Hu'. pose proof (UseOnce_spec u s) as H1. rewrite Hu in H1.
  destruct H1 as (_ & _ & Hnew & _). specialize (Hnew eq_refl).
  assert (Hs : seen s2 (ru_Namespace u) (ru_Digest u)).
  { revert Hsteps. apply (rtc_invariant _ (λ x, seen x (ru_Namespace u) (ru_Digest u))); [|done].
    intros x y Hx (v & r & Hv). pose proof (UseOnce_spec v x) as Hsp. rewrite Hv in Hsp.
    destruct Hsp as (_ & _ & _ & _ & Hmono). by apply Hmono. }
  pose proof (UseOnce_spec u' s2) as H2. rewrite Hu', Hn, Hd in H2. destruct H2 as [H2 _].
  by specialize (H2 Hs).
Qed.

(** A digest is accepted at most once per namespace, and only a use of
    that very namespace and digest can spend it: after a success every
    later use of the pair fails, whatever uses come between; and an
    execution that uses only other pairs, from a store in which the pair
    was not spent, leaves it usable. *)
Theorem replay_used_at_most_once u u' s s1 s2 s3 :
  ru_Namespace u' = ru_Namespace u → ru_Digest u' = ru_Digest u →
  UseOnce u s = (Ok tt, s1) →
  rtc use_step s1 s2 →
  rtc (use_other_step (ru_Namespace u) (ru_Digest u)) s s3 →
  fst (UseOnce u' s2) = plain ∧ fst (UseOnce u' s3) = Ok tt.
Proof.
  intros Hn Hd Hu Hsteps Hothers. pose proof (UseOnce_spec u s) as H1. rewrite Hu in H1.
  destruct H1 as (Hold & _ & Hnew & _). split.
  - assert (Hs : seen s2 (ru_Namespace u) (ru_Digest u)).
    { revert Hsteps. apply (rtc_invariant _ (λ x, seen x (ru_Namespace u) (ru_Digest u)));
        [|by apply Hnew].
      intros x y Hx (v & r & Hv). pose proof (UseOnce_spec v x) as Hsp. rewrite Hv in Hsp.
      destruct Hsp as (_ & _ & _ & _ & Hmono). by apply Hmono. }
    pose proof (UseOnce_spec u' s2) as H2. destruct (UseOnce u' s2). rewrite Hn, Hd in H2.
    destruct H2 as [H2 _]. by apply H2.
  - assert (Hs : ¬ seen s3 (ru_Namespace u) (ru_Digest u)).
    { revert Hothers. apply (rtc_invariant _ (λ x, ¬ seen x (ru_Namespace u) (ru_Digest u))).
      - intros x y Hx (v & r & Hne & Hv). pose proof (UseOnce_spec v x) as Hsp.
        rewrite Hv in Hsp. destruct Hsp as (_ & _ & _ & Hsame & _). by rewrite Hsame.
      - intros Hseen. by apply Hold in Hseen. }
    pose proof (UseOnce_spec u' s3) as H2. destruct (UseOnce u' s3). rewrite Hn, Hd in H2.
    destruct H2 as (_ & H2 & _). by apply H2.
Qed.
End replays.

(** * Pairwise subjects *)

Section pairwise.
Import Pairwise.

Definition pairwise_step (s s' : PairwiseSubjectStore) : Prop :=
  (∃ k c r, GetOrCreate k c s = (r, s')) ∨ (∃ i c b r, Lookup i c b s = (r, s')).

(** The two maps are inverse to each other. *)
Definition inverse_maps (s : PairwiseSubjectStore) : Prop :=
  ∀ i c u b, bodies s !! {| psk_Issuer := i; psk_Sector := c; psk_Subject := u |} = Some b ↔
    subjects s !! (i, c, b) = Some u.

Lemma pairwise_step_spec s s' :
  pairwise_step s s' → inverse_maps s →
  inverse_maps s' ∧ (∀ k b, bodies s !! k = Some b → bodies s' !! k = Some b).
Proof.
  intros [(k & cand & r & Hr)|(i & c & b & r & Hr)] Hinv; last first.
  { unfold Lookup in Hr. repeat case_match; by simplify_eq/=. }
  unfold GetOrCreate in Hr.
  destruct (bodies s !! k) as [b|] eqn:Hk; [by simplify_eq/=|].
  destruct (subjects s !! _) as [u|] eqn:Hu; [by simplify_eq/=|]. simplify_eq/=.
  destruct k as [i0 c0 u0]; simpl in *. split.
  - intros i c u b. simpl. specialize (Hinv i c u b).
    destruct (decide ((i0, c0, u0) = (i, c, u))) as [[= <- <- <-]|Hne].
    + rewrite lookup_insert_eq. destruct (decide (cand = b)) as [<-|Hb].
      * by rewrite lookup_insert_eq.
      * rewrite lookup_insert_ne by congruence. rewrite <-Hinv, Hk. naive_solver.
    + rewrite lookup_insert_ne by congruence. rewrite Hinv.
      destruct (decide ((i0, c0, cand) = (i, c, b))) as [[= <- <- <-]|Hb].
      * rewrite lookup_insert_eq, Hu. naive_solver.
      * by rewrite lookup_insert_ne.
  - intros k b Hb. simpl. rewrite lookup_insert_ne; [done|]. intros <-. congruence.
Qed.

(** C38. Pairwise identifiers are a stable bijection. In every reachable
    store, within an issuer and sector two users never share a body; once
    GetOrCreate returned a body for a user, every later GetOrCreate for
    that user returns the same body, whatever the candidate, and Lookup of
    the body under that issuer and sector returns that user. *)
Theorem pairwise_stable_bijection i c u u' cand cand' b s s1 s2 :
  rtc pairwise_step NewPairwiseSubjectStore s →
  GetOrCreate {| psk_Issuer := i; psk_Sector := c; psk_Subject := u |} cand s = (Ok b, s1) →
  rtc pairwise_step s1 s2 →
  GetOrCreate {| psk_Issuer := i; psk_Sector := c; psk_Subject := u |} cand' s2 = (Ok b, s2) ∧
  Lookup i c b s2 = (Ok u, s2) ∧
  (u' ≠ u → fst (GetOrCreate {| psk_Issuer := i; psk_Sector := c; psk_Subject := u' |} cand' s2)
    ≠ Ok b).
Proof.
  intros Hreach Hget Hsteps.
  assert (Hinv : inverse_maps s).
  { revert Hreach. apply (rtc_invariant _ inverse_maps); [intros x y Hx Hy; by eapply pairwise_step_spec|].
    intros ????. simpl. by rewrite !lookup_empty. }
  assert (Hstep1 : pairwise_step s s1) by (left; eauto).
  destruct (pairwise_step_spec _ _ Hstep1 Hinv) as [Hinv1 _].
  assert (Hb1 : bodies s1 !! {| psk_Issuer := i; psk_Sector := c; psk_Subject := u |} = Some b).
  { unfold GetOrCreate in Hget. repeat case_match; simplify_eq/=; [done|]. apply lookup_insert_eq. }
  assert (H2 : inverse_maps s2 ∧
    bodies s2 !! {| psk_Issuer := i; psk_Sector := c; psk_Subject := u |} = Some b).
  { revert Hsteps. apply (rtc_invariant _ (λ x, inverse_maps x ∧ bodies x !!
      {| psk_Issuer := i; psk_Sector := c; psk_Subject := u |} = Some b)); [|done].
    intros x y [Hx Hbx] Hy.
    destruct (pairwise_step_spec _ _ Hy Hx) as [Hy1 Hy2]. auto. }
  destruct H2 as [Hinv2 Hb2]. pose proof Hb2 as Hs2. apply Hinv2 in Hs2.
  unfold GetOrCreate, Lookup. rewrite Hb2, Hs2. split_and!; [done..|].
  intros Hne. simpl. destruct (bodies s2 !! {| psk_Issuer := i; psk_Sector := c; psk_Subject := u' |})
    as [b'|] eqn:Hb'.
  - simpl. intros [= ->]. apply Hinv2 in Hb'. congruence.
  - destruct (subjects s2 !! (i, c, cand')) eqn:Hc; simpl; [done|]. congruence.
Qed.
End pairwise.

(** * The theorems on concrete executions *)

Section witnesses.
Import Grants.

Definition example_grants : Grants.GrantStore :=
  snd (Grants.CreateRefreshToken
    {| nrt_TokenHash := "t"; nrt_ClientID := "a"; nrt_Grant := Raw JNull; nrt_ExpiresAt := 9%Z |}
    (snd (Grants.CreateAuthorizationCode
      {| nac_CodeHash := "h"; nac_ClientID := "a"; nac_Grant := Raw JNull;
         nac_ExpiresAt := 7%Z |} NewGrantStore))).

Definition example_redemption (client : ClientID) : AuthorizationCodeRedemption :=
  {| acr_CodeHash := "h"; acr_ClientID := client |}.

Lemma code_redeemed_at_most_once_witness :
  ∃ e s3, Storage.RedeemAuthorizationCode (example_redemption "b")
    (snd (Grants.RecordIssuedAccessToken "h" "key" 5%Z
      (snd (Grants.RedeemAuthorizationCode (example_redemption "a") example_grants)))) =
    (Err (CodeAlreadyRedeemed e), s3).
Proof.
  refine (code_redeemed_at_most_once (example_redemption "a") (example_redemption "b")
    {| rac_ClientID := "a"; rac_Grant := Raw JNull; rac_ExpiresAt := 7%Z |}
    example_grants (snd (Grants.RedeemAuthorizationCode (example_redemption "a") example_grants))
    _ _ _ _).
  - vm_compute; reflexivity.
  - apply rtc_once. eapply (step_record_access "h" "key" 5%Z). vm_compute; reflexivity.
  - reflexivity.
Defined.

Lemma refresh_revoked_forever_witness :
  ∃ e, Storage.RedeemRefreshToken {| rtr_TokenHash := "t" |}
      (snd (Grants.RevokeRefreshToken "t" example_grants)) =
    (Err e, snd (Grants.RevokeRefreshToken "t" example_grants)).
Proof.
  refine (refresh_revoked_forever "t" example_grants
    (snd (Grants.RevokeRefreshToken "t" example_grants)) _ _ _).
  - vm_compute; reflexivity.
  - reflexivity.
Defined.
End witnesses.

Section ciba_witnesses.
Import Backchannel.

Definition example_request : NewBackchannelAuthentication :=
  {| nba_AuthReqIDHash := "q"; nba_AuthReqID := "id"; nba_HandleHash := "h";
     nba_ClientID := "a"; nba_Request := Raw JNull; nba_DeliveryMode := "ping";
     nba_ClientNotificationToken := "n"; nba_PollInterval := (5 * Second)%Z;
     nba_ExpiresAt := (100 * Second)%Z |}.

Definition example_ciba : BackchannelAuthenticationStore :=
  snd (CreateBackchannelAuthentication example_request NewBackchannelAuthenticationStore).

Definition example_decision (s : BackchannelAuthenticationStatus)
    : Storage.DecideBackchannelAuthentication :=
  {| dba_HandleHash := "h"; dba_Status := s; dba_Grant := Raw (JStr "g"); dba_Reason := "" |}.

Definition example_poll (client : ClientID) (sec : Z) : Storage.PollBackchannelAuthentication :=
  {| pba_AuthReqIDHash := "q"; pba_Now := (sec * Second)%Z; pba_ClientID := client |}.

Definition example_approved : BackchannelAuthenticationStore :=
  snd (DecideBackchannelAuthentication
    (example_decision BackchannelAuthenticationApproved) example_ciba).

Definition example_polled : BackchannelAuthenticationStore :=
  snd (PollBackchannelAuthentication (example_poll "a" 10) example_approved).

Lemma example_ciba_step : ciba_step NewBackchannelAuthenticationStore example_ciba.
Proof. by apply (step_create example_request _ (Ok tt)). Qed.

Lemma example_approved_step : ciba_step example_ciba example_approved.
Proof.
  eapply (step_decide (example_decision BackchannelAuthenticationApproved)), surjective_pairing.
Qed.

Lemma ciba_approved_at_most_once_witness :
  PollBackchannelAuthentication (example_poll "a" 20) example_polled =
    (Err BackchannelAuthenticationAlreadyRedeemedError, example_polled).
Proof.
  refine (ciba_approved_at_most_once (example_poll "a" 10) (example_poll "a" 20)
    {| plb_Status := BackchannelAuthenticationApproved; plb_ClientID := "a";
       plb_Request := Raw JNull; plb_Grant := Raw (JStr "g"); plb_Reason := "" |}
    example_approved example_polled example_polled _ _ _ _ _ _).
  - eapply rtc_l; [apply example_ciba_step|]. apply rtc_once, example_approved_step.
  - vm_compute; reflexivity.
  - reflexivity.
  - reflexivity.
  - reflexivity.
  - reflexivity.
Defined.

Lemma ciba_decision_final_witness :
  (byHandleHash example_approved !! "h" = Some 0 →
    DecideBackchannelAuthentication (example_decision BackchannelAuthenticationDenied)
      example_approved = (plain, example_approved)) ∧
  (byAuthReqIDHash example_approved !! "q" = Some 0 →
    PollBackchannelAuthentication (example_poll "a" 10) example_approved =
      (Ok {| plb_Status := BackchannelAuthenticationApproved; plb_ClientID := "a";
             plb_Request := Raw JNull; plb_Grant := Raw (JStr "g"); plb_Reason := "" |},
       example_polled) →
    BackchannelAuthenticationApproved = BackchannelAuthenticationApproved ∧
    Raw (JStr "g") = Raw (JStr "g") ∧ "" = "" ∧ "a" = "a").
Proof.
  refine (ciba_decision_final (example_decision BackchannelAuthenticationApproved)
    (example_decision BackchannelAuthenticationDenied) (example_poll "a" 10)
    {| dcd_ClientID := "a"; dcd_DeliveryMode := "ping"; dcd_ClientNotificationToken := "n";
       dcd_AuthReqID := "id" |}
    {| plb_Status := BackchannelAuthenticationApproved; plb_ClientID := "a";
       plb_Request := Raw JNull; plb_Grant := Raw (JStr "g"); plb_Reason := "" |}
    example_ciba example_approved example_approved example_polled 0 _ _ _ _ _).
  - apply rtc_once, example_ciba_step.
  - discriminate.
  - vm_compute; reflexivity.
  - vm_compute; reflexivity.
  - reflexivity.
Defined.

(** A second poll, one second after the first, of a pending request with a
    five-second interval. *)
Definition example_pending : BackchannelAuthenticationStore :=
  snd (PollBackchannelAuthentication (example_poll "a" 10) example_ciba).

Definition example_record : backchannelRecord :=
  {| clientID := "a"; request := Raw JNull; deliveryMode := "ping";
     clientNotificationToken := "n"; authReqID := "id"; pollInterval := (5 * Second)%Z;
     expiresAt := (100 * Second)%Z; status := BackchannelAuthenticationPending;
     grant := RawNil; reason := ""; redeemed := false; polledBefore := true;
     lastPolledAt := (10 * Second)%Z |}.

Lemma ciba_poll_interval_witness :
  let '(r, s') := PollBackchannelAuthentication (example_poll "a" 11) example_pending in
  (∃ rec', heap s' !! 0 = Some rec' ∧ polledBefore rec' = true ∧
    lastPolledAt rec' = (11 * Second)%Z ∧ pollInterval rec' = (5 * Second)%Z) ∧
  (r = Err BackchannelAuthenticationSlowDownError ↔
    true = true ∧ (Sub (11 * Second) (10 * Second) < 5 * Second)%Z) ∧
  (r = Err BackchannelAuthenticationSlowDownError ∨ ∃ a, r = Ok a) ∧
  (∀ d h, "ping" = "ping" → byHandleHash example_pending !! dba_HandleHash d = Some 0 →
    DecideBackchannelAuthentication d example_pending =
      (Ok h, snd (DecideBackchannelAuthentication d example_pending)) →
    ∃ a, fst (PollBackchannelAuthentication (example_poll "a" 11)
      (snd (DecideBackchannelAuthentication d example_pending))) = Ok a).
Proof.
  refine (ciba_poll_interval (example_poll "a" 11) example_pending 0 example_record _ _ _ _ _).
  - vm_compute; reflexivity.
  - vm_compute; reflexivity.
  - right; reflexivity.
  - reflexivity.
  - vm_compute; reflexivity.
Defined.
End ciba_witnesses.

Section transaction_witnesses.
Import Transactions.

Definition example_begin (handle : string) : BeginAuthorizationTransaction :=
  {| bat_Reference := "urn:r"; bat_Handle := handle; bat_HandleExpiresAt := 50%Z; bat_Now := 1%Z |}.

(** Two handles minted from one pushed request. *)
Definition example_transactions : TransactionStore :=
  snd (BeginAuthorization (example_begin "h2") (snd (BeginAuthorization (example_begin "h1")
    (snd (CreatePAR {| par_Reference := "urn:r"; par_ClientID := "a"; par_Request := Raw JNull;
                       par_ExpiresAt := 9%Z |} NewTransactionStore))))).

Definition example_interaction : CompletedInteraction :=
  {| ci_ClientID := "a"; ci_Request := Raw JNull; ci_ExpiresAt := 50%Z |}.

Definition example_completed : TransactionStore :=
  snd (CompleteAuthorization {| cat_Handle := "h1" |} example_transactions).

Lemma reference_completed_at_most_once_witness :
  CompleteAuthorization {| cat_Handle := "h1" |} example_completed = (plain, example_completed) ∧
  ("urn:r" = "urn:r" →
    BeginAuthorization (example_begin "h3") example_completed = (plain, example_completed)) ∧
  (byHandle example_completed !! "h2" =
      Some {| reference := "urn:r"; interaction := example_interaction |} → "urn:r" = "urn:r" →
    CompleteAuthorization {| cat_Handle := "h2" |} example_completed =
      (plain, example_completed)).
Proof.
  refine (reference_completed_at_most_once {| cat_Handle := "h1" |} {| cat_Handle := "h2" |}
    (example_begin "h3") example_transactions example_completed example_completed
    example_interaction {| reference := "urn:r"; interaction := example_interaction |}
    {| reference := "urn:r"; interaction := example_interaction |} _ _ _).
  - vm_compute; reflexivity.
  - vm_compute; reflexivity.
  - reflexivity.
Defined.
End transaction_witnesses.

Section session_witnesses.
Import Sessions.

Definition example_sessions : SessionStore :=
  snd (Create {| ns_State := "x"; ns_Record := Raw JNull; ns_ExpiresAt := 9%Z |} NewSessionStore).

Lemma session_consumed_at_most_once_witness :
  fst (Consume {| sc_State := "x" |} (snd (Consume {| sc_State := "x" |} example_sessions))) =
    plain ∧
  (∀ k, k ≠ "x" →
    snd (Consume {| sc_State := "x" |} example_sessions) !! k = example_sessions !! k).
Proof.
  refine (session_consumed_at_most_once {| sc_State := "x" |} example_sessions
    (snd (Consume {| sc_State := "x" |} example_sessions))
    (snd (Consume {| sc_State := "x" |} example_sessions))
    (Ok {| cs_Record := Raw JNull; cs_ExpiresAt := 9%Z |}) _ _).
  - vm_compute; reflexivity.
  - reflexivity.
Defined.
End session_witnesses.

Section replay_witnesses.
Import Replays.

Definition example_use (d : digest) : ReplayUse :=
  {| ru_Namespace := "dpop"; ru_Digest := d; ru_ExpiresAt := 9%Z |}.

Lemma replay_used_at_most_once_witness :
  fst (UseOnce (example_use "d") (snd (UseOnce (example_use "d") NewReplayStore))) = plain ∧
  fst (UseOnce (example_use "d") (snd (UseOnce (example_use "e") NewReplayStore))) = Ok tt.
Proof.
  refine (replay_used_at_most_once (example_use "d") (example_use "d") NewReplayStore
    (snd (UseOnce (example_use "d") NewReplayStore))
    (snd (UseOnce (example_use "d") NewReplayStore))
    (snd (UseOnce (example_use "e") NewReplayStore)) _ _ _ _ _).
  - reflexivity.
  - reflexivity.
  - vm_compute; reflexivity.
  - reflexivity.
  - apply rtc_once. exists (example_use "e"), (Ok tt). split; [discriminate|].
    vm_compute; reflexivity.
Defined.
End replay_witnesses.

Section pairwise_witnesses.
Import Pairwise.

Definition example_key (u : string) : PairwiseSubjectKey :=
  {| psk_Issuer := "https://op"; psk_Sector := "rp"; psk_Subject := u |}.

Definition example_subjects : PairwiseSubjectStore :=
  snd (GetOrCreate (example_key "u") "body" NewPairwiseSubjectStore).

Lemma pairwise_stable_bijection_witness :
  GetOrCreate (example_key "u") "other" example_subjects = (Ok "body", example_subjects) ∧
  Lookup "https://op" "rp" "body" example_subjects = (Ok "u", example_subjects) ∧
  ("v" ≠ "u" → fst (GetOrCreate (example_key "v") "other" example_subjects) ≠ Ok "body").
Proof.
  refine (pairwise_stable_bijection "https://op" "rp" "u" "v" "body" "other" "body"
    NewPairwiseSubjectStore example_subjects example_subjects _ _ _).
  - reflexivity.
  - vm_compute; reflexivity.
  - reflexivity.
Defined.
End pairwise_witnesses.
