(* ===== verification/Platform.v ===== *)
(** Standard-library functions whose definition the model does not give, as
    operations of one class. The modelled code is parameterised by an
    instance, and every theorem holds for every instance.

    - [url_parse]: [url.Parse], the parts of a URL the code reads;
    - [url_string]: [URL.String], the text of a URL from its parts;
    - [ip_is_loopback]: [net.ParseIP], then [IP.IsLoopback], [None] when the
      text is no IP address;
    - [raw_length]: the byte length of a raw message's text;
    - [fold_key]: Unicode simple case folding of a name, rune by rune
      ([unicode.SimpleFold]), as strictjson.FoldKey applies it;
    - [decodes_losslessly]: whether a raw message's text is valid UTF-8
      without unpaired surrogate escapes (strictjson.DecodesLosslessly, which
      reads the text a RawMessage does not keep);
    - [unicode_Cf], [unicode_visible]: unicode.Is(unicode.Cf, r), and
      unicode.In(r, unicode.L, unicode.N, unicode.P, unicode.S), of a rune;
    - [json_text]: the raw message a text is (RawInvalid for text that is no
      JSON value). *)
From S2P Require Import Prelude Json.
From stdpp Require Import options.

Record ParsedURL := {
  url_Scheme : string;
  url_Opaque : string;
  url_HasUser : bool;
  url_Host : string;
  url_Hostname : string;
  url_Port : string;
  url_Path : string;
  url_EscapedPath : string;
  url_RawQuery : string;
  url_ForceQuery : bool;
  url_Fragment : string;
  url_RawFragment : string }.

Class Platform := {
  url_parse : string → option ParsedURL;
  url_string : ParsedURL → string;
  ip_is_loopback : string → option bool;
  raw_length : RawMessage → nat;
  fold_key : string → string;
  decodes_losslessly : RawMessage → bool;
  json_text : string → RawMessage;
  unicode_Cf : N → bool;
  unicode_visible : N → bool;
  raw_length_nil : ∀ r, raw_length r = 0 → r = RawNil;
  raw_length_RawNil : raw_length RawNil = 0 }.

(** A concrete instance, for evaluating the model on examples. *)
Definition example_platform : Platform := {|
  url_parse _ := None;
  url_string _ := "";
  ip_is_loopback _ := None;
  raw_length r := match r with RawNil => 0 | _ => 2 end;
  fold_key s := s;
  decodes_losslessly _ := true;
  json_text _ := RawInvalid;
  unicode_Cf _ := false;
  unicode_visible _ := true;
  raw_length_nil := ltac:(by intros []);
  raw_length_RawNil := eq_refl |}.
