(* ===== verification/ServerTypes.v ===== *)
(** The types the token server works with: errors (src/server/errors.go,
    src/internal/httperror/httperror.go), form parameters (src/server/par.go),
    limits and configuration (src/server/config.go, src/server/subjects.go),
    and registered clients (src/storage/client_repository.go). *)
From S2P Require Import Prelude GoStrings Json GoTime Storage Platform.
From stdpp Require Import options.

(** * Errors *)

Inductive ErrorCode :=
| ErrorInvalidRequest | ErrorInvalidClient | ErrorInvalidRequestObject
| ErrorInvalidGrant | ErrorInvalidScope | ErrorUnsupportedGrantType | ErrorServerError
| ErrorUnauthorizedClient | ErrorUnsupportedResponseType | ErrorUnsupportedTokenType
| ErrorInvalidRequestURI | ErrorRequestNotSupported | ErrorUseDPoPNonce
| ErrorAuthorizationPending | ErrorSlowDown | ErrorExpiredToken | ErrorAccessDenied
| ErrorInvalidBindingMessage | ErrorInvalidDPoPProof | ErrorUnknownUserID
| ErrorExpiredLoginHintToken | ErrorInvalidAuthorizationDetails | ErrorInvalidTarget
| ErrorUseFreshAttestation.

#[export] Instance error_code_eq_dec : EqDecision ErrorCode.
Proof. solve_decision. Defined.

(** [*server.Error], without the internal cause, which no response and none
    of the modelled code reads. *)
Record Error := {
  code : ErrorCode;
  httpStatus : Z;
  description : string;
  nonce : string }.

(** httperror.IsErrorText: 1*NQSCHAR, %x20-21 / %x23-5B / %x5D-7E. *)
Definition nqschar (c : ascii) : bool :=
  let n := byte_code c in
  negb ((n <? 32) || (n =? 34) || (n =? 92) || (126 <? n))%N.

Fixpoint all_nqschar (s : string) : bool :=
  match s with EmptyString => true | String c s => nqschar c && all_nqschar s end.

Definition IsErrorText (s : string) : bool :=
  negb (bool_decide (s = "")) && all_nqschar s.

(** [strings.ReplaceAll], every double quote by an apostrophe. *)
Fixpoint replace_quotes (s : string) : string :=
  match s with
  | EmptyString => ""
  | String c s => String (if decide (c = "034"%char) then "'"%char else c) (replace_quotes s)
  end.

Definition Description (s : string) : string :=
  if bool_decide (s = "") || IsErrorText s then s
  else let s := replace_quotes s in if IsErrorText s then s else "".

Definition newError (c : ErrorCode) (status : Z) (desc : string) : Error :=
  {| code := c; httpStatus := status; description := Description desc; nonce := "" |}.

Definition with_nonce (n : string) (e : Error) : Error :=
  {| code := code e; httpStatus := httpStatus e; description := description e; nonce := n |}.

(** Whatever built it, a description is RFC 6749 §5.2 text or empty. *)
Lemma Description_text s : Description s = "" ∨ IsErrorText (Description s) = true.
Proof.
  unfold Description. case_bool_decide; simpl; [by left|].
  destruct (IsErrorText s) eqn:H1; [by right|].
  destruct (IsErrorText (replace_quotes s)) eqn:H2; [by right|by left].
Qed.

(** * Form requests *)

Record FormParameter := { Name : string; Value : string }.

Definition maxFormParameters : nat := 100.
Definition maxFormRequestBytes : N := 1048576.
Definition maxFormParameterBytes : N := maxFormRequestBytes.

Definition string_size (s : string) : N := N.of_nat (String.length s).

Definition parameters_size (params : list FormParameter) : N :=
  foldr (λ p n, string_size (Name p) + string_size (Value p) + n)%N 0%N params.

Fixpoint collect_parameters (params : list FormParameter) (seen : gset string)
    (out : gmap string string) : option (gmap string string) :=
  match params with
  | [] => Some out
  | p :: ps =>
    if bool_decide (Name p ∈ seen) then None
    else
      let seen := {[Name p]} ∪ seen in
      if bool_decide (Value p = "") then collect_parameters ps seen out
      else collect_parameters ps seen (<[Name p := Value p]> out)
  end.

(** [None] is the error. *)
Definition formParametersToMap (params : list FormParameter) : option (gmap string string) :=
  if bool_decide (maxFormParameters < length params) then None
  else if bool_decide (maxFormParameterBytes < parameters_size params)%N then None
  else collect_parameters params ∅ ∅.

(** [params["name"]], "" when absent. *)
Definition param (params : gmap string string) (name : string) : string :=
  default "" (params !! name).

(** * Limits and configuration *)

Record Limits := {
  PushedRequestLifetime : Duration;
  MaxClientAssertionLifetime : Duration;
  MaxRequestObjectLifetime : Duration;
  InteractionLifetime : Duration;
  AuthorizationCodeLifetime : Duration;
  JARMResponseLifetime : Duration;
  AccessTokenLifetime : Duration;
  IDTokenLifetime : Duration;
  MaxIDTokenClaimsBytes : Z;
  MaxAccessTokenClaimsBytes : Z;
  RefreshTokenLifetime : Duration;
  MaxDPoPProofAge : Duration;
  MaxClockSkew : Duration;
  DPoPNonceLifetime : Duration;
  BackchannelAuthenticationRequestLifetime : Duration;
  MaxBackchannelAuthenticationRequestLifetime : Duration;
  BackchannelAuthenticationPollInterval : Duration;
  MaxClientAttestationLifetime : Duration;
  MaxClientAttestationPoPAge : Duration }.

Definition maxAccessTokenFixedBytes : Z := 8192.
Definition defaultMaxAccessTokenBytes : Z := 16384.

Definition MaxAccessTokenBytes (l : Limits) : Z :=
  let encoded := Z.quot (MaxAccessTokenClaimsBytes l * 4 + 2) 3 in
  Z.max defaultMaxAccessTokenBytes (maxAccessTokenFixedBytes + encoded)%Z.

(** fapi.SubjectType and SubjectTypeEnforcement, with the zero values that
    are neither. *)
Inductive SubjectType := SubjectTypeUnset | SubjectTypePublic | SubjectTypePairwise.
Inductive SubjectTypeEnforcement :=
| SubjectTypesUnset | SubjectTypesPerClient | SubjectTypesPairwiseOnly.

#[export] Instance subject_type_eq_dec : EqDecision SubjectType.
Proof. solve_decision. Defined.
#[export] Instance enforcement_eq_dec : EqDecision SubjectTypeEnforcement.
Proof. solve_decision. Defined.

(** [Prefix] is a pairwise.Prefix: [None] when it is not set. *)
Record SubjectConfig := {
  Default : SubjectType;
  Enforcement : SubjectTypeEnforcement;
  Prefix : option string }.

#[export] Instance subject_config_eq_dec : EqDecision SubjectConfig.
Proof. solve_decision. Defined.

Definition PublicSubjects : SubjectConfig :=
  {| Default := SubjectTypePublic; Enforcement := SubjectTypesPerClient; Prefix := None |}.

Definition zero_subjects : SubjectConfig :=
  {| Default := SubjectTypeUnset; Enforcement := SubjectTypesUnset; Prefix := None |}.

Definition SubjectConfig_IsZero (c : SubjectConfig) : bool := bool_decide (c = zero_subjects).

(** * Registered clients *)

Inductive ApplicationType := ApplicationTypeWeb | ApplicationTypeNative.
#[export] Instance application_type_eq_dec : EqDecision ApplicationType.
Proof. solve_decision. Defined.

(** fapi.SignatureAlgorithm, KeyManagementAlgorithm and
    ContentEncryptionAlgorithm: the iota constants, 0 for none. *)
Definition SignatureAlgorithm := N.
Definition ES256 : SignatureAlgorithm := 1%N.
Definition PS256 : SignatureAlgorithm := 2%N.
Definition EdDSA : SignatureAlgorithm := 3%N.

#[export] Instance signature_algorithm_eq_dec : EqDecision SignatureAlgorithm := N.eq_dec.

Definition SignatureAlgorithm_IsValid (a : SignatureAlgorithm) : bool :=
  bool_decide (a ∈ [ES256; PS256; EdDSA]).

Definition ParseSignatureAlgorithm (alg : string) : option SignatureAlgorithm :=
  if bool_decide (alg = "ES256") then Some ES256
  else if bool_decide (alg = "PS256") then Some PS256
  else if bool_decide (alg = "EdDSA") then Some EdDSA
  else None.

Inductive ClientAuthMethod :=
| ClientAuthMethodPrivateKeyJWT | ClientAuthMethodSelfSignedTLSClientAuth
| ClientAuthMethodTLSClientAuth | ClientAuthMethodTLSClientAuthSANDNS
| ClientAuthMethodTLSClientAuthSANURI | ClientAuthMethodTLSClientAuthSANIP
| ClientAuthMethodTLSClientAuthSANEmail | ClientAuthMethodAttestation.
#[export] Instance client_auth_method_eq_dec : EqDecision ClientAuthMethod.
Proof. solve_decision. Defined.

Inductive BackchannelTokenDeliveryMode :=
| BackchannelTokenDeliveryModePoll | BackchannelTokenDeliveryModePing.
#[export] Instance delivery_mode_eq_dec : EqDecision BackchannelTokenDeliveryMode.
Proof. solve_decision. Defined.

(** A registered client. Left out: the primary clientAuthMethod and
    clientAssertionAlgorithm, the first of each list, and the display
    details, which nothing modelled reads. *)
Record RegisteredClient := {
  client_id : ClientID;
  redirectURIs : list string;
  applicationType : ApplicationType;
  clientAssertionAlgorithms : list SignatureAlgorithm;
  requestObjectAlgorithm : SignatureAlgorithm;
  senderConstrain : SenderConstrain;
  clientAuthMethods : list ClientAuthMethod;
  expectedCertificateThumbprint : string;
  additionalCertificateThumbprints : list string;
  certificateKeyThumbprints : list string;
  expectedSubjectDN : string;
  expectedSANDNS : string;
  expectedSANURI : string;
  expectedSANIP : string;
  expectedSANEmail : string;
  expectedAttesterIssuer : string;
  clientAttestationAlgorithm : SignatureAlgorithm;
  allowedScopes : gset string;
  allowedScopesLength : nat;
  authorizationDetailsTypes : gset string;
  allowedResources : gset string;
  idTokenEncryptionKeyManagement : N;
  idTokenEncryptionContentEncryption : N;
  userInfoEncryptionKeyManagement : N;
  userInfoEncryptionContentEncryption : N;
  backchannelAuthenticationRequestAlgorithm : SignatureAlgorithm;
  backchannelTokenDeliveryMode : BackchannelTokenDeliveryMode;
  backchannelClientNotificationEndpoint : option ParsedURL;
  allowsClientCredentialsGrant : bool;
  automaticFederationRegistration : bool;
  subjectType : SubjectType;
  sector : string }.

Definition AllowsAuthorizationCodeGrant (c : RegisteredClient) : bool :=
  negb (bool_decide (redirectURIs c = [])).

(** The second result is whether the client may use CIBA. *)
Definition BackchannelAuthenticationRequestAlgorithm (c : RegisteredClient) : N * bool :=
  (backchannelAuthenticationRequestAlgorithm c,
   negb (bool_decide (backchannelAuthenticationRequestAlgorithm c = 0%N))).

(** The second result is whether the client may submit request objects. *)
Definition RequestObjectAlgorithm (c : RegisteredClient) : SignatureAlgorithm * bool :=
  (requestObjectAlgorithm c, negb (bool_decide (requestObjectAlgorithm c = 0%N))).

Definition AllowsClientAssertionAlgorithm (c : RegisteredClient) (alg : SignatureAlgorithm)
    : bool := bool_decide (alg ∈ clientAssertionAlgorithms c).

Definition AllowsClientAuthMethod (c : RegisteredClient) (method : ClientAuthMethod) : bool :=
  bool_decide (method ∈ clientAuthMethods c).

Definition ExpectedCertificateThumbprints (c : RegisteredClient) : list string :=
  if bool_decide (expectedCertificateThumbprint c = "") then []
  else expectedCertificateThumbprint c :: additionalCertificateThumbprints c.

Definition AllowsScope (c : RegisteredClient) (scope : string) : bool :=
  bool_decide (scope ∈ allowedScopes c).

Definition AllowsResource (c : RegisteredClient) (resource : string) : bool :=
  if bool_decide (allowedResources c = ∅) then true
  else bool_decide (resource ∈ allowedResources c).

(** [slices.Sort] of a set's elements. *)
Definition string_leb (a b : string) : bool :=
  match String.compare a b with Gt => false | _ => true end.

Definition sorted_elements (s : gset string) : list string :=
  merge_sort (λ a b, Is_true (string_leb a b)) (elements s).

Definition AllowedResources (c : RegisteredClient) : list string :=
  if bool_decide (allowedResources c = ∅) then [] else sorted_elements (allowedResources c).

Definition AllowsAuthorizationDetailsType (c : RegisteredClient) (typ : string) : bool :=
  bool_decide (typ ∈ authorizationDetailsTypes c).

Lemma AllowedResources_elem c r :
  r ∈ AllowedResources c ↔ r ∈ allowedResources c.
Proof.
  unfold AllowedResources, sorted_elements. case_bool_decide as He.
  - rewrite He. split; [intros []%not_elem_of_nil|set_solver].
  - rewrite (merge_sort_Permutation _ _). apply elem_of_elements.
Qed.

Lemma AllowedResources_nil c : AllowedResources c = [] ↔ allowedResources c = ∅.
Proof.
  split; intros H.
  - apply set_eq. intros r. rewrite <-AllowedResources_elem, H. set_solver.
  - unfold AllowedResources. by rewrite bool_decide_true.
Qed.

Section redirects.
Context `{Platform}.

(** [strconv.Atoi] of a URL's port, which holds only digits: 1 to 65535. *)
Fixpoint digits (acc : N) (s : string) : option N :=
  match s with
  | EmptyString => Some acc
  | String c s =>
    let n := byte_code c in
    if (48 <=? n)%N && (n <=? 57)%N then digits (10 * acc + (n - 48))%N s else None
  end.

Definition valid_port (port : string) : bool :=
  match digits 0 port with Some n => (1 <=? n)%N && (n <=? 65535)%N | None => false end.

Definition withoutLoopbackPort (uri : string) : option string :=
  if negb (has_prefix uri "http://") then None
  else
    match url_parse uri with
    | None => None
    | Some u =>
      if url_HasUser u || contains_char uri "#" || negb (has_prefix (drop_bytes 7 uri) (url_Host u))
      then None
      else
        match ip_is_loopback (url_Hostname u) with
        | Some true =>
          let rest := drop_bytes (7 + String.length (url_Host u)) uri in
          if bool_decide (url_Port u = "") then Some ("http://" +:+ url_Host u +:+ rest)
          else if valid_port (url_Port u)
          then Some ("http://" +:+ trim_suffix (url_Host u) (":" +:+ url_Port u) +:+ rest)
          else None
        | _ => None
        end
    end.

Definition loopbackMatchesAnyPort (registered candidate : string) : bool :=
  match withoutLoopbackPort registered, withoutLoopbackPort candidate with
  | Some r, Some c => bool_decide (r = c)
  | _, _ => false
  end.

Definition HasRedirectURI (c : RegisteredClient) (candidate : string) : bool :=
  existsb (λ u, bool_decide (u = candidate) ||
    (bool_decide (applicationType c = ApplicationTypeNative) && loopbackMatchesAnyPort u candidate))
    (redirectURIs c).
End redirects.
