(* ===== verification/Rar.v ===== *)
(** Rich Authorization Requests: src/extension/rar.go.

    A RARDefinition[T] is a record over its Go type T, with T's JSON codec
    (which reflection derives from the type) among its fields; the registry
    holds each behind the type-erased interface registeredRAR. *)
From S2P Require Import Prelude Json Platform.
From stdpp Require Import options.

Inductive rar_error :=
| ErrRARTooLarge | ErrRARTooDeep | ErrRARUnregisteredType | ErrRARObjectTooLarge
| ErrRARTooManyObjects | ErrRARGrantExceedsRequest | ErrDuplicateMember
| ErrMalformed | ErrHook.

#[export] Instance rar_error_eq_dec : EqDecision rar_error.
Proof. solve_decision. Defined.

(** [values.byType] *)
Abbreviation RARValues := (gmap string (list RawMessage)).

(** * Definitions *)

Record RARDefinition (T : Type) := {
  def_Type : string;
  def_MaxObjects : nat;
  def_MaxBytesPerObject : nat;
  Validate : option (T → bool);
  ValidateRequest : option (T → bool);
  ValidateGrant : option (T → T → bool);
  ValidateNarrowing : option (T → T → bool);
  (* What encoding/json and strictjson derive from T by reflection. *)
  declaresTypeMember : bool;
  tagged_field_case_ok : RawMessage → bool;
  decode_known_fields : RawMessage → option T;
  unmarshal : RawMessage → option T;
  marshal : T → option string }.
Arguments def_Type {T}. Arguments def_MaxObjects {T}. Arguments def_MaxBytesPerObject {T}.
Arguments Validate {T}. Arguments ValidateRequest {T}. Arguments ValidateGrant {T}.
Arguments ValidateNarrowing {T}. Arguments declaresTypeMember {T}.
Arguments tagged_field_case_ok {T}. Arguments decode_known_fields {T}.
Arguments unmarshal {T}. Arguments marshal {T}.

Record registeredRAR := {
  rarType : string;
  maxObjects : nat;
  maxBytesPerObject : nat;
  decodeCheck : RawMessage → bool → result rar_error unit;
  validateGrant : RawMessage → RawMessage → result rar_error unit;
  validateNarrowing : RawMessage → RawMessage → result rar_error unit }.

Definition of_option {E A} (e : E) (o : option A) : result E A :=
  match o with Some a => Ok a | None => Err e end.

Definition hook_ok {T} (hook : option (T → bool)) (v : T) : bool :=
  match hook with Some f => f v | None => true end.

(** A JSON object without its type member. *)
Definition withoutTypeMember (raw : RawMessage) : option RawMessage :=
  match unmarshal_object raw with
  | None => None
  | Some members => marshal_object (delete "type" members)
  end.

Section definition.
Context {T : Type} (d : RARDefinition T).

Definition rar_decodeCheck (raw : RawMessage) (request : bool) : result rar_error unit :=
  raw ← (if declaresTypeMember d then Ok raw else of_option ErrMalformed (withoutTypeMember raw));
  guard_err (tagged_field_case_ok d raw) ErrMalformed ;;
  v ← of_option ErrMalformed (decode_known_fields d raw);
  guard_err (hook_ok (Validate d) v) ErrHook ;;
  guard_err (negb request || hook_ok (ValidateRequest d) v) ErrHook.

Definition compare (baseRaw candidateRaw : RawMessage) (hook : option (T → T → bool))
    : result rar_error unit :=
  base ← of_option ErrMalformed (unmarshal d baseRaw);
  candidate ← of_option ErrMalformed (unmarshal d candidateRaw);
  match hook with
  | Some hook => guard_err (hook base candidate) ErrHook
  | None =>
    canonicalBase ← of_option ErrMalformed (marshal d base);
    canonicalCandidate ← of_option ErrMalformed (marshal d candidate);
    guard_err (bool_decide (canonicalBase = canonicalCandidate)) ErrRARGrantExceedsRequest
  end.

Definition rar_validateGrant (requestedRaw grantedRaw : RawMessage) : result rar_error unit :=
  compare requestedRaw grantedRaw (ValidateGrant d).

Definition rar_validateNarrowing (grantedRaw narrowedRaw : RawMessage) : result rar_error unit :=
  compare grantedRaw narrowedRaw
    (match ValidateNarrowing d with Some hook => Some hook | None => ValidateGrant d end).

(** The definition as the interface value the registry holds. *)
Definition registered : registeredRAR := {|
  rarType := def_Type d; maxObjects := def_MaxObjects d;
  maxBytesPerObject := def_MaxBytesPerObject d; decodeCheck := rar_decodeCheck;
  validateGrant := rar_validateGrant; validateNarrowing := rar_validateNarrowing |}.
End definition.

(** * The registry *)

Record RARRegistry := {
  byType : gmap string registeredRAR;
  maxTotalBytes : nat;
  maxDepth : nat }.

Fixpoint index_definitions (defs : list registeredRAR) (byType : gmap string registeredRAR)
    : option (gmap string registeredRAR) :=
  match defs with
  | [] => Some byType
  | d :: defs =>
    if bool_decide (rarType d = "") || bool_decide (maxObjects d = 0) ||
       bool_decide (maxBytesPerObject d = 0) || bool_decide (is_Some (byType !! rarType d))
    then None
    else index_definitions defs (<[rarType d := d]> byType)
  end.

Definition NewRARRegistry (maxTotalBytes maxDepth : nat) (defs : list registeredRAR)
    : option RARRegistry :=
  if bool_decide (maxTotalBytes = 0) || bool_decide (maxDepth = 0) then None
  else (λ m, {| byType := m; maxTotalBytes := maxTotalBytes; maxDepth := maxDepth |}) <$>
    index_definitions defs ∅.

(** How deep arrays and objects nest. *)
Fixpoint depth (j : json) : nat :=
  match j with
  | JArr l => S (foldr (λ x n, max (depth x) n) 0 l)
  | JObj l => S (foldr (λ p n, max (depth p.2) n) 0 l)
  | _ => 0
  end.

Definition checkJSONDepth (raw : RawMessage) (maxDepth : nat) : result rar_error unit :=
  match raw with
  | RawNil => Ok tt
  | RawInvalid => Err ErrMalformed
  | Raw j => guard_err (bool_decide (depth j ≤ maxDepth)) ErrRARTooDeep
  end.

Section registry.
Context `{Platform}.

(** checkObjectMembers and checkValueMembers: no object at any depth
    repeats a member up to case folding; the top one spells type exactly. *)
Fixpoint checkValueMembers (top : bool) (j : json) : result rar_error unit :=
  match j with
  | JObj members =>
    (fix checkObjectMembers (seen : list string) (members : list (string * json)) :=
      match members with
      | [] => Ok tt
      | (key, v) :: members =>
        let folded := fold_key key in
        guard_err (negb (bool_decide (folded ∈ seen))) ErrDuplicateMember ;;
        guard_err (negb (top && bool_decide (folded = fold_key "type") &&
                         negb (bool_decide (key = "type")))) ErrDuplicateMember ;;
        checkValueMembers false v ;;
        checkObjectMembers (folded :: seen) members
      end) [] members
  | JArr l =>
    (fix check_elements (l : list json) :=
      match l with
      | [] => Ok tt
      | x :: l => checkValueMembers false x ;; check_elements l
      end) l
  | _ => Ok tt
  end.

Definition checkMembers (raw : json) : result rar_error unit :=
  match raw with
  | JObj _ => checkValueMembers true raw
  | _ => Err ErrMalformed
  end.

(** [json.Unmarshal] into rarObjectHead: its last member folding to type,
    which must be a string or null. *)
Fixpoint head_type (members : list (string * json)) (cur : string) : option string :=
  match members with
  | [] => Some cur
  | (k, v) :: members =>
    if bool_decide (fold_key k = fold_key "type") then
      match v with
      | JStr s => head_type members s
      | JNull => head_type members cur
      | _ => None
      end
    else head_type members cur
  end.

Definition object_type (j : json) : option string :=
  match j with JObj members => head_type members "" | JNull => Some "" | _ => None end.

(** One turn of parse's loop: [counts] and [values] so far. *)
Definition parse_object (r : RARRegistry) (request : bool)
    (st : gmap string nat * RARValues) (obj : json)
    : result rar_error (gmap string nat * RARValues) :=
  let '(counts, values) := st in
  checkMembers obj ;;
  match object_type obj with
  | None => Err ErrMalformed
  | Some typ =>
    if bool_decide (typ = "") then Err ErrMalformed else
    def ← of_option ErrRARUnregisteredType (byType r !! typ);
    guard_err (bool_decide (raw_length (Raw obj) ≤ maxBytesPerObject def)) ErrRARObjectTooLarge ;;
    let n := S (default 0 (counts !! typ)) in
    guard_err (bool_decide (n ≤ maxObjects def)) ErrRARTooManyObjects ;;
    decodeCheck def (Raw obj) request ;;
    Ok (<[typ := n]> counts, <[typ := default [] (values !! typ) ++ [Raw obj]]> values)
  end.

Fixpoint parse_objects (r : RARRegistry) (request : bool)
    (st : gmap string nat * RARValues) (objects : list json)
    : result rar_error (gmap string nat * RARValues) :=
  match objects with
  | [] => Ok st
  | obj :: objects => st ← parse_object r request st obj; parse_objects r request st objects
  end.

Definition parse (r : RARRegistry) (raw : RawMessage) (request : bool)
    : result rar_error RARValues :=
  guard_err (bool_decide (raw_length raw ≤ maxTotalBytes r)) ErrRARTooLarge ;;
  guard_err (negb request || decodes_losslessly raw) ErrMalformed ;;
  checkJSONDepth raw (maxDepth r) ;;
  objects ← of_option ErrMalformed (unmarshal_slice raw);
  st ← parse_objects r request (∅, ∅) objects;
  Ok st.2.

Definition Parse (r : RARRegistry) (raw : RawMessage) : result rar_error RARValues :=
  parse r raw false.
Definition ParseRequest (r : RARRegistry) (raw : RawMessage) : result rar_error RARValues :=
  parse r raw true.
End registry.

(** * Matching *)

(** matchObject: the first unused entry of [baseRaws] that accepts the
    candidate is marked used. *)
Fixpoint match_from (check : RawMessage → RawMessage → result rar_error unit)
    (candidateRaw : RawMessage) (baseRaws : list RawMessage) (usedIdx : list bool)
    : option (list bool) :=
  match baseRaws, usedIdx with
  | baseRaw :: bs, u :: us =>
    if u then cons u <$> match_from check candidateRaw bs us
    else if is_ok (check baseRaw candidateRaw) then Some (true :: us)
    else cons u <$> match_from check candidateRaw bs us
  | _, _ => None
  end.

Definition matchObject (def : registeredRAR) (candidateRaw : RawMessage)
    (baseRaws : list RawMessage) (usedIdx : list bool) (narrowing : bool) : option (list bool) :=
  match_from (if narrowing then validateNarrowing def else validateGrant def)
    candidateRaw baseRaws usedIdx.

Fixpoint match_objects (def : registeredRAR) (candidateRaws baseRaws : list RawMessage)
    (usedIdx : list bool) (narrowing : bool) : result rar_error unit :=
  match candidateRaws with
  | [] => Ok tt
  | c :: cs =>
    used ← of_option ErrRARGrantExceedsRequest (matchObject def c baseRaws usedIdx narrowing);
    match_objects def cs baseRaws used narrowing
  end.

(** Types are matched independently of each other, so the order in which the
    map of candidates is visited cannot change whether an error results. *)
Definition matchAll (r : RARRegistry) (base candidates : RARValues) (narrowing : bool)
    : result rar_error unit :=
  map_for_all (λ typ candidateRaws,
    def ← of_option ErrRARUnregisteredType (byType r !! typ);
    let baseRaws := default [] (base !! typ) in
    match_objects def candidateRaws baseRaws (replicate (length baseRaws) false) narrowing)
    candidates.

Definition RAR_ValidateGrant (r : RARRegistry) (requested granted : RARValues)
    : result rar_error unit := matchAll r requested granted false.
Definition RAR_ValidateNarrowing (r : RARRegistry) (granted narrowed : RARValues)
    : result rar_error unit := matchAll r granted narrowed true.

(** * Theorems *)

Section theorems.
Context `{Platform}.

(** [used] with the positions [idx] marked. *)
Lemma match_from_spec check c : ∀ baseRaws used used',
  match_from check c baseRaws used = Some used' →
  ∃ i b, baseRaws !! i = Some b ∧ used !! i = Some false ∧ used' = <[i := true]> used ∧
    is_ok (check b c) = true.
Proof.
  induction baseRaws as [|b bs IH]; intros [|u us] used'; simpl; try done.
  assert (Hrec : cons u <$> match_from check c bs us = Some used' →
    ∃ i b', (b :: bs) !! i = Some b' ∧ (u :: us) !! i = Some false ∧
      used' = <[i := true]> (u :: us) ∧ is_ok (check b' c) = true).
  { intros (us' & (i & b' & Hb & Hu & -> & Hc)%IH & ->)%fmap_Some.
    exists (S i), b'. done. }
  destruct u; [exact Hrec|]. destruct (is_ok (check b c)) eqn:Hok; [|exact Hrec].
  intros [= <-]. by exists 0, b.
Qed.

Lemma match_objects_spec def narrowing baseRaws : ∀ cs used u,
  match_objects def cs baseRaws used narrowing = Ok u →
  ∃ idx : list nat, length idx = length cs ∧ NoDup idx ∧
    (∀ i, i ∈ idx → used !! i = Some false) ∧
    Forall2 (λ c i, ∃ b, baseRaws !! i = Some b ∧
      (if narrowing then validateNarrowing def b c else validateGrant def b c) = Ok tt) cs idx.
Proof.
  induction cs as [|c cs IH]; intros used u; simpl; intros Hm.
  { exists []. split; [done|]. split; [constructor|]. split; [by intros ? []%not_elem_of_nil|constructor]. }
  apply bind_Ok in Hm as (used' & Hu & Hm). unfold matchObject in Hu.
  destruct (match_from _ _ _ _) as [used''|] eqn:Hf; simpl in Hu; [|done]. injection Hu as ->.
  apply match_from_spec in Hf as (i & b & Hb & Hi & -> & Hok).
  apply IH in Hm as (idx & Hlen & Hnd & Hused & Hall).
  exists (i :: idx). split; [simpl; congruence|]. split; [|split].
  - constructor; [|done]. intros Hin%Hused.
    rewrite list_lookup_insert_eq in Hin by (by eapply lookup_lt_Some). done.
  - intros j [->|Hj]%elem_of_cons; [done|]. apply Hused in Hj.
    destruct (decide (i = j)) as [->|]; [done|]. by rewrite list_lookup_insert_ne in Hj.
  - constructor; [|done]. exists b. split; [done|].
    apply is_ok_true in Hok as [[] Hok]. by destruct narrowing.
Qed.

(** An accepted grant, or narrowing of one, never exceeds its base: for
    every type there is an assignment of the candidate objects to pairwise
    different base objects of that type, each accepted by the type's own
    check (ValidateNarrowing, ValidateGrant or the exact comparison)
    against the object it is assigned to. *)
Lemma matchAll_assignment r base candidates narrowing u typ cs :
  matchAll r base candidates narrowing = Ok u →
  candidates !! typ = Some cs →
  ∃ def (idx : list nat), byType r !! typ = Some def ∧
    length idx = length cs ∧ NoDup idx ∧
    Forall2 (λ c i, ∃ b, default [] (base !! typ) !! i = Some b ∧
      (if narrowing then validateNarrowing def b c else validateGrant def b c) = Ok tt) cs idx.
Proof.
  intros Hm Hcs. unfold matchAll in Hm. apply map_for_all_Ok with (k := typ) (a := cs) in Hm; [|done].
  apply bind_Ok in Hm as (def & Hdef & Hm).
  destruct (byType r !! typ) as [def'|]; simpl in Hdef; [|done]. injection Hdef as ->.
  apply match_objects_spec in Hm as (idx & Hlen & Hnd & _ & Hall). eauto 10.
Qed.

(** What parse has established of the objects read so far. *)
Definition parsed_ok (r : RARRegistry) (request : bool) (objects : list json)
    (st : gmap string nat * RARValues) : Prop :=
  ∀ typ,
    default 0 (st.1 !! typ) = length (default [] (st.2 !! typ)) ∧
    default [] (st.2 !! typ) =
      Raw <$> filter (λ obj, object_type obj = Some typ) objects ∧
    (∀ l, st.2 !! typ = Some l → ∃ def, byType r !! typ = Some def ∧
      length l ≤ maxObjects def ∧
      Forall (λ raw, raw_length raw ≤ maxBytesPerObject def ∧
        decodeCheck def raw request = Ok tt) l).

Lemma parse_object_spec r request objects st obj st' :
  parsed_ok r request objects st →
  parse_object r request st obj = Ok st' →
  parsed_ok r request (objects ++ [obj]) st'.
Proof.
  destruct st as [counts values]. intros Hok Hp. unfold parse_object in Hp.
  apply bind_Ok in Hp as ([] & _ & Hp).
  destruct (object_type obj) as [t|] eqn:Ht; [|done].
  case_bool_decide; [done|]. inv_ok.
  destruct (byType r !! t) as [def|] eqn:Hdef; [|done]. simpl in *. simplify_eq.
  repeat match goal with H : bool_decide _ = true |- _ => apply bool_decide_eq_true in H end.
  repeat match goal with x : () |- _ => destruct x end.
  intros typ. simpl. destruct (Hok typ) as (Hc & Hf & Hdefs). simpl in *.
  rewrite filter_app, fmap_app. destruct (decide (t = typ)) as [->|Hne].
  - rewrite !lookup_insert_eq. simpl. rewrite length_app, <-Hc. simpl.
    rewrite filter_cons_True by done. cbn. rewrite <-Hf. split; [lia|]. split; [done|].
    intros l [= <-]. eexists. split; [exact Hdef|]. rewrite length_app, <-Hc. simpl.
    split; [lia|]. apply Forall_app. split; [|by repeat constructor].
    destruct (values !! typ) as [l|]; [|constructor]. simpl.
    destruct (Hdefs l eq_refl) as (def' & Hd' & _ & Hall).
    rewrite Hdef in Hd'. by injection Hd' as <-.
  - rewrite !lookup_insert_ne by done. rewrite filter_cons_False by congruence. cbn.
    rewrite app_nil_r. auto.
Qed.

Lemma parse_objects_spec r request : ∀ todo objects st st',
  parsed_ok r request objects st →
  parse_objects r request st todo = Ok st' →
  parsed_ok r request (objects ++ todo) st'.
Proof.
  induction todo as [|obj todo IH]; intros objects st st' Hok Hp; simpl in Hp.
  - injection Hp as <-. by rewrite app_nil_r.
  - apply bind_Ok in Hp as (st1 & H1 & Hp). rewrite cons_middle, app_assoc.
    eapply IH; [|done]. by eapply parse_object_spec.
Qed.

(** What RARRegistry.Parse returns is bounded and well-formed, and is
    the request: the text is within the registry's size and depth; every
    type it holds is registered, with at most MaxObjects objects, each
    within MaxBytesPerObject and accepted by the type's strict decoding
    and validation; and a type's values are exactly the array's objects
    of that type, in order. *)
Theorem parse_sound r raw request values :
  parse r raw request = Ok values →
  raw_length raw ≤ maxTotalBytes r ∧
  ∃ objects, unmarshal_slice raw = Some objects ∧
    Forall (λ obj, depth obj < maxDepth r) objects ∧
    ∀ typ, default [] (values !! typ) =
        Raw <$> filter (λ obj, object_type obj = Some typ) objects ∧
      ∀ l, values !! typ = Some l → ∃ def, byType r !! typ = Some def ∧
        length l ≤ maxObjects def ∧
        Forall (λ raw, raw_length raw ≤ maxBytesPerObject def ∧
          decodeCheck def raw request = Ok tt) l.
Proof.
  intros Hp. unfold parse in Hp.
  apply bind_Ok in Hp as (? & Hsize%guard_err_Ok%bool_decide_eq_true & Hp).
  apply bind_Ok in Hp as (? & _ & Hp). apply bind_Ok in Hp as (? & Hdepth & Hp).
  apply bind_Ok in Hp as (objects & Hobjects & Hp). apply bind_Ok in Hp as (st & Hst & Hp).
  split; [done|]. exists objects. split.
  { by destruct (unmarshal_slice raw); simplify_eq/=. }
  split.
  - destruct raw as [| |[]]; simplify_eq/=; try constructor.
    apply guard_err_Ok, bool_decide_eq_true in Hdepth. apply Forall_forall. intros y Hy.
    clear -Hdepth Hy. induction objects as [|z l IH]; [by apply elem_of_nil in Hy|]. simpl in *.
    apply elem_of_cons in Hy as [<-|Hy]; [lia|]. apply IH; [lia|done].
  - injection Hp as <-. apply (parse_objects_spec _ _ _ []) in Hst.
    + intros typ. destruct (Hst typ) as (_ & Hf & Hd). done.
    + intros typ. simpl. by rewrite !lookup_empty.
Qed.
End theorems.

(** * The theorems on a concrete type

    A payment of at most the granted amount: {type: payment, amount: n}. *)

Definition example_amount (raw : RawMessage) : option Z :=
  match unmarshal_object raw with
  | Some m => match m !! "amount" with Some (Raw (JNum n)) => Some (num_digits n) | _ => None end
  | None => None
  end.

Definition example_payment : RARDefinition Z := {|
  def_Type := "payment"; def_MaxObjects := 2; def_MaxBytesPerObject := 100;
  Validate := Some (λ n, bool_decide (0 < n)%Z); ValidateRequest := None;
  ValidateGrant := Some (λ requested granted, bool_decide (granted ≤ requested)%Z);
  ValidateNarrowing := None;
  declaresTypeMember := false; tagged_field_case_ok _ := true;
  decode_known_fields := example_amount; unmarshal := example_amount;
  marshal _ := Some "" |}.

Definition example_payment_object (n : Z) : json :=
  JObj [("type", JStr "payment"); ("amount", JNum (Number false n 0))].

Definition example_registry : RARRegistry :=
  {| byType := {["payment" := registered example_payment]}; maxTotalBytes := 1000; maxDepth := 4 |}.

Lemma parse_sound_witness :
  2 ≤ 1000 ∧
  ∃ objects, unmarshal_slice (Raw (JArr [example_payment_object 5])) = Some objects ∧
    Forall (λ obj, depth obj < 4) objects ∧
    ∀ typ, default [] (({["payment" := [Raw (example_payment_object 5)]]} : RARValues) !! typ) =
        Raw <$> filter (λ obj, @object_type example_platform obj = Some typ) objects ∧
      ∀ l, ({["payment" := [Raw (example_payment_object 5)]]} : RARValues) !! typ = Some l →
        ∃ def, byType example_registry !! typ = Some def ∧
        length l ≤ maxObjects def ∧
        Forall (λ raw, @raw_length example_platform raw ≤ maxBytesPerObject def ∧
          decodeCheck def raw true = Ok tt) l.
Proof.
  refine (@parse_sound example_platform example_registry
    (Raw (JArr [example_payment_object 5])) true
    {["payment" := [Raw (example_payment_object 5)]]} _).
  vm_compute; reflexivity.
Defined.
