(* ===== verification/Rfc3339.v ===== *)
(** How [time.Time] is written to and read from JSON: RFC 3339 text with
    nanoseconds, here in UTC, as the instants of the model carry no location.
    [MarshalJSON] fails outside the years 0 to 9999. *)
From S2P Require Import Prelude GoStrings GoTime.
From stdpp Require Import options.
From Stdlib Require Import Zify.
Local Open Scope Z_scope.

(** * The proleptic Gregorian calendar *)

(** Days from 0000-01-01 to January 1 of year [y ≥ 0]; year 0 is leap. *)
Definition year_start (y : Z) : Z :=
  365 * y + (y + 3) / 4 - (y + 99) / 100 + (y + 399) / 400.

Definition is_leap (y : Z) : bool :=
  (y mod 4 =? 0) && (negb (y mod 100 =? 0) || (y mod 400 =? 0)).

(** 0000-01-01 is 719528 days before the epoch. *)
Definition epoch_days : Z := 719528.

(** The year of a day counted from 0000-01-01. *)
Definition year_of (d : Z) : Z :=
  let y := 400 * d / 146097 in
  if year_start (y + 1) <=? d then y + 1 else if d <? year_start y then y - 1 else y.

Definition month_lengths (leap : bool) : list Z :=
  [31; if leap then 29 else 28; 31; 30; 31; 30; 31; 31; 30; 31; 30; 31].

(** Month (from [m]) and day of month (from 1) of a day of the year (from 0). *)
Fixpoint split_months (lengths : list Z) (m doy : Z) : Z * Z :=
  match lengths with
  | [] => (m, doy + 1)
  | len :: rest =>
    if doy <? len then (m, doy + 1) else split_months rest (m + 1) (doy - len)
  end.

(** Days of the year before month [m]. *)
Fixpoint days_before (lengths : list Z) (m : Z) : Z :=
  match lengths with
  | [] => 0
  | len :: rest => if m <=? 1 then 0 else len + days_before rest (m - 1)
  end.

Record civil := Civil { c_year : Z; c_month : Z; c_day : Z }.

Definition civil_of_days (d : Z) : civil :=
  let y := year_of d in
  let '(m, dd) := split_months (month_lengths (is_leap y)) 1 (d - year_start y) in
  Civil y m dd.

Definition days_of_civil (c : civil) : Z :=
  year_start (c_year c) + days_before (month_lengths (is_leap (c_year c))) (c_month c) +
  (c_day c - 1).

Definition valid_civil (c : civil) : bool :=
  (1 <=? c_month c) && (c_month c <=? 12) && (1 <=? c_day c) &&
  (c_day c <=? nth (Z.to_nat (c_month c - 1)) (month_lengths (is_leap (c_year c))) 0).

(** * Decimal fields *)

Definition digit (n : Z) : ascii := ascii_of_N (Z.to_N (48 + n)).
Definition digit_value (c : ascii) : option Z :=
  let n := Z.of_N (byte_code c) in
  if (48 <=? n) && (n <=? 57) then Some (n - 48) else None.

(** [w] decimal digits, most significant first. *)
Fixpoint pad (w : nat) (n : Z) : string :=
  match w with
  | O => ""
  | S w => String (digit (n / 10 ^ Z.of_nat w mod 10)) (pad w n)
  end.

(** Reads [w] digits after [acc]. *)
Fixpoint read (w : nat) (acc : Z) (s : string) : option (Z * string) :=
  match w with
  | O => Some (acc, s)
  | S w =>
    match s with
    | String c s => match digit_value c with Some d => read w (10 * acc + d) s | None => None end
    | EmptyString => None
    end
  end.

Definition expect (c : ascii) (s : string) : option string :=
  match s with String d s => if decide (d = c) then Some s else None | _ => None end.

(** * Text *)

(** The digits of a fraction of a second, trailing zeros dropped. *)
Fixpoint fraction_digits (w : nat) (ns : Z) : string :=
  match w with
  | O => ""
  | S w => if ns =? 0 then "" else
           String (digit (ns / 10 ^ Z.of_nat w)) (fraction_digits w (ns mod 10 ^ Z.of_nat w))
  end.

Definition fraction (ns : Z) : string :=
  if ns =? 0 then "" else String "." (fraction_digits 9 ns).

(** Reads at most [w] digits as a fraction, the first worth [10^(w-1)]. Go
    reads and drops any further digits; none is ever written. *)
Fixpoint read_fraction (w : nat) (s : string) : Z * string :=
  match w, s with
  | S w, String c s' =>
    match digit_value c with
    | Some d => let '(ns, rest) := read_fraction w s' in (d * 10 ^ Z.of_nat w + ns, rest)
    | None => (0, s)
    end
  | _, _ => (0, s)
  end.

Definition day_seconds : Z := 86400.

Definition format_time (t : Time) : option string :=
  let secs := t / Second in
  let d := secs / day_seconds + epoch_days in
  let c := civil_of_days d in
  let sod := secs mod day_seconds in
  if (0 <=? c_year c) && (c_year c <=? 9999) then
    Some (pad 4 (c_year c) +:+ "-" +:+ pad 2 (c_month c) +:+ "-" +:+ pad 2 (c_day c) +:+ "T" +:+
      pad 2 (sod / 3600) +:+ ":" +:+ pad 2 (sod / 60 mod 60) +:+ ":" +:+ pad 2 (sod mod 60) +:+
      fraction (t mod Second) +:+ "Z")
  else None.

(** The offset from UTC in seconds: Z, or +hh:mm or -hh:mm. *)
Definition parse_offset (s : string) : option Z :=
  match s with
  | String c s =>
    if decide (c = "Z"%char) then (if bool_decide (s = "") then Some 0 else None) else
    match read 2 0 s with
    | Some (h, s) =>
      match expect ":" s with
      | Some s =>
        match read 2 0 s with
        | Some (m, EmptyString) =>
          if (h <=? 23) && (m <=? 59) then
            if decide (c = "+"%char) then Some (h * 3600 + m * 60)
            else if decide (c = "-"%char) then Some (- (h * 3600 + m * 60)) else None
          else None
        | _ => None
        end
      | None => None
      end
    | None => None
    end
  | EmptyString => None
  end.

Definition parse_time (s : string) : option Time :=
  read 4 0 s ≫= λ '(y, s), expect "-" s ≫= λ s,
  read 2 0 s ≫= λ '(mo, s), expect "-" s ≫= λ s,
  read 2 0 s ≫= λ '(dd, s), expect "T" s ≫= λ s,
  read 2 0 s ≫= λ '(h, s), expect ":" s ≫= λ s,
  read 2 0 s ≫= λ '(mi, s), expect ":" s ≫= λ s,
  read 2 0 s ≫= λ '(sec, s),
  let c := Civil y mo dd in
  if valid_civil c && (h <=? 23) && (mi <=? 59) && (sec <=? 59) then
    let secs := (days_of_civil c - epoch_days) * day_seconds + h * 3600 + mi * 60 + sec in
    match expect "." s with
    | Some s' =>
      let '(ns, rest) := read_fraction 9 s' in
      parse_offset rest ≫= λ off, Some ((secs - off) * Second + ns)
    | None => parse_offset s ≫= λ off, Some ((secs - off) * Second)
    end
  else None.

(** * The calendar is a bijection *)

Local Ltac Zify.zify_post_hook ::= Z.to_euclidean_division_equations.

Lemma year_length y :
  0 ≤ y → year_start (y + 1) - year_start y = if is_leap y then 366 else 365.
Proof.
  unfold year_start, is_leap. intros Hy.
  destruct (Z.eqb_spec (y mod 4) 0), (Z.eqb_spec (y mod 100) 0), (Z.eqb_spec (y mod 400) 0);
    simpl; lia.
Qed.

Lemma year_start_near y :
  0 ≤ y → 400 * year_start y - 146097 * y ≤ 700 ∧ -400 < 400 * year_start y - 146097 * y.
Proof. unfold year_start. intros Hy. lia. Qed.

Lemma year_of_spec d :
  0 ≤ d → 0 ≤ year_of d ∧ year_start (year_of d) ≤ d < year_start (year_of d + 1).
Proof.
  intros Hd. unfold year_of. set (y := 400 * d / 146097).
  assert (Hy : 0 ≤ y) by (subst y; apply Z.div_pos; lia).
  assert (Hb : 146097 * y ≤ 400 * d < 146097 * y + 146097) by (subst y; lia).
  clearbody y.
  pose proof (year_start_near y Hy). pose proof (year_start_near (y + 1) ltac:(lia)).
  pose proof (year_start_near (y + 2) ltac:(lia)).
  destruct (Z.leb_spec (year_start (y + 1)) d).
  { split; [lia|]. replace (y + 1 + 1) with (y + 2) by lia. lia. }
  destruct (Z.ltb_spec d (year_start y)); [|lia].
  assert (y ≠ 0) by (intros ->; change (year_start 0) with 0 in *; lia).
  pose proof (year_start_near (y - 1) ltac:(lia)).
  split; [lia|]. replace (y - 1 + 1) with y by lia. lia.
Qed.

Definition month_total (lengths : list Z) : Z := foldr Z.add 0 lengths.

Lemma split_months_spec lengths : ∀ m doy,
  0 ≤ doy < month_total lengths →
  let '(m', dd) := split_months lengths m doy in
  m ≤ m' ∧ days_before lengths (m' - m + 1) + (dd - 1) = doy ∧
  1 ≤ dd ≤ nth (Z.to_nat (m' - m)) lengths 0 ∧ m' - m < Z.of_nat (length lengths).
Proof.
  induction lengths as [|len lengths IH]; intros m doy Hdoy; cbn [month_total foldr] in *; [lia|].
  cbn [split_months days_before]. destruct (Z.ltb_spec doy len).
  - replace (m - m) with 0 by lia. simpl. lia.
  - specialize (IH (m + 1) (doy - len)). fold (month_total lengths) in Hdoy.
    destruct (split_months lengths (m + 1) (doy - len)) as [m' dd].
    destruct IH as (Hm & Hd & Hdd & Hlen); [lia|].
    replace (m' - m + 1 <=? 1) with false by (symmetry; apply Z.leb_gt; lia).
    replace (m' - m + 1 - 1) with (m' - (m + 1) + 1) by lia.
    replace (Z.to_nat (m' - m)) with (S (Z.to_nat (m' - (m + 1)))) by lia.
    cbn [nth length]. rewrite Nat2Z.inj_succ. lia.
Qed.

Lemma civil_of_days_spec d :
  0 ≤ d →
  let c := civil_of_days d in
  days_of_civil c = d ∧ valid_civil c = true ∧ 0 ≤ c_year c ∧
  1 ≤ c_month c ≤ 12 ∧ 1 ≤ c_day c ≤ 31.
Proof.
  intros Hd. unfold civil_of_days. destruct (year_of_spec d Hd) as [Hy Hb].
  pose proof (year_length _ Hy) as Hlen. set (y := year_of d) in *.
  assert (Hdoy : 0 ≤ d - year_start y < month_total (month_lengths (is_leap y))).
  { destruct (is_leap y); unfold month_total; simpl; lia. }
  pose proof (split_months_spec _ 1 _ Hdoy) as Hs.
  destruct (split_months _ 1 _) as [m dd]. destruct Hs as (Hm & Hdays & Hdd & Hml).
  assert (Hlen12 : length (month_lengths (is_leap y)) = 12%nat) by by destruct (is_leap y).
  rewrite Hlen12 in Hml.
  assert (Hmax : nth (Z.to_nat (m - 1)) (month_lengths (is_leap y)) 0 ≤ 31).
  { destruct (Z.to_nat (m - 1)) as [|[|[|[|[|[|[|[|[|[|[|[|n]]]]]]]]]]]] eqn:Hn; [..|lia];
      simpl; destruct (is_leap y); lia. }
  unfold days_of_civil, valid_civil. cbn [c_year c_month c_day].
  replace (m - 1 + 1) with m in Hdays by lia.
  split; [lia|]. split; [|lia].
  rewrite !andb_true_iff, !Z.leb_le. lia.
Qed.

Lemma year_of_negative d : d < 0 → year_of d < 0.
Proof.
  intros Hd. unfold year_of. set (y := 400 * d / 146097).
  assert (Hy : y ≤ -1) by (subst y; lia). clearbody y.
  destruct (Z.leb_spec (year_start (y + 1)) d).
  - destruct (decide (y = -1)) as [->|]; [|lia]. change (year_start (-1 + 1)) with 0 in *. lia.
  - destruct (_ <? _); lia.
Qed.

(** * Fields read back *)

Lemma digit_value_digit n : 0 ≤ n < 10 → digit_value (digit n) = Some n.
Proof.
  intros Hn. assert (n ∈ [0;1;2;3;4;5;6;7;8;9]) as Hin.
  { rewrite !list_elem_of_In. simpl. lia. }
  repeat (apply elem_of_cons in Hin as [->|Hin]; [reflexivity|]). by apply elem_of_nil in Hin.
Qed.

Lemma pow10_pos w : 0 < 10 ^ Z.of_nat w.
Proof. apply Z.pow_pos_nonneg; lia. Qed.

Lemma read_pad w : ∀ n acc s,
  0 ≤ n → read w acc (pad w n +:+ s) = Some (acc * 10 ^ Z.of_nat w + n mod 10 ^ Z.of_nat w, s).
Proof.
  induction w as [|w IH]; intros n acc s Hn.
  - simpl. change (10 ^ Z.of_nat 0) with 1. rewrite Z.mod_1_r. f_equal. f_equal. lia.
  - cbn [pad String.append read]. pose proof (pow10_pos w) as Hp.
    rewrite digit_value_digit by (apply Z.mod_pos_bound; lia). rewrite IH by done.
    f_equal. f_equal. rewrite Nat2Z.inj_succ, Z.pow_succ_r by lia.
    set (p := 10 ^ Z.of_nat w) in *. rewrite (Z.mul_comm 10 p), Z.rem_mul_r by lia. ring.
Qed.

Lemma read_pad_small w n s :
  0 ≤ n < 10 ^ Z.of_nat w → read w 0 (pad w n +:+ s) = Some (n, s).
Proof. intros Hn. rewrite read_pad by lia. by rewrite Z.mod_small. Qed.

Lemma some_bind {A B} (a : A) (f : A → option B) : Some a ≫= f = f a.
Proof. done. Qed.

Lemma expect_same c s : expect c (String c "" +:+ s) = Some s.
Proof. simpl. by rewrite decide_True. Qed.

Lemma read_fraction_digits w : ∀ ns c rest,
  0 ≤ ns < 10 ^ Z.of_nat w → digit_value c = None →
  read_fraction w (fraction_digits w ns +:+ String c rest) = (ns, String c rest).
Proof.
  induction w as [|w IH]; intros ns c rest Hns Hc.
  - simpl in *. change (10 ^ Z.of_nat 0) with 1 in Hns. by replace ns with 0 by lia.
  - pose proof (pow10_pos w) as Hp. rewrite Nat2Z.inj_succ, Z.pow_succ_r in Hns by lia.
    cbn [fraction_digits]. destruct (Z.eqb_spec ns 0) as [->|Hne].
    { simpl. by rewrite Hc. }
    cbn [String.append read_fraction]. rewrite digit_value_digit.
    2: { split; [apply Z.div_pos; lia|]. apply Z.div_lt_upper_bound; lia. }
    rewrite IH by (try done; apply Z.mod_pos_bound; lia).
    f_equal. rewrite (Z.div_mod ns (10 ^ Z.of_nat w)) at 3 by lia. ring.
Qed.

Lemma parse_fraction ns secs :
  0 ≤ ns < Second →
  match expect "." (fraction ns +:+ "Z") with
  | Some s' =>
    let '(ns, rest) := read_fraction 9 s' in
    parse_offset rest ≫= λ off, Some ((secs - off) * Second + ns)
  | None => parse_offset (fraction ns +:+ "Z") ≫= λ off, Some ((secs - off) * Second)
  end = Some (secs * Second + ns).
Proof.
  intros Hns. unfold fraction. destruct (Z.eqb_spec ns 0) as [->|Hne].
  - simpl. f_equal. lia.
  - cbn [String.append expect decide]. destruct (decide _) as [_|]; [|done].
    rewrite read_fraction_digits by done. simpl. f_equal. lia.
Qed.

(** Writing an instant and reading it back gives the instant, for every
    instant MarshalJSON accepts. *)
Lemma parse_format_time t s : format_time t = Some s → parse_time s = Some t.
Proof.
  unfold format_time. set (secs := t / Second). set (d := secs / day_seconds + epoch_days).
  set (sod := secs mod day_seconds).
  destruct (_ && _) eqn:Hy; [|done]. intros Hsome. apply (inj Some) in Hsome. subst s.
  apply andb_true_iff in Hy as [Hy0%Z.leb_le Hy1%Z.leb_le].
  assert (Hd : 0 ≤ d).
  { destruct (Z.lt_ge_cases d 0) as [Hneg|]; [|done]. apply year_of_negative in Hneg.
    unfold civil_of_days in Hy0. destruct (split_months _ _ _). simpl in Hy0. lia. }
  destruct (civil_of_days_spec d Hd) as (Hdays & Hvalid & _ & Hmonth & Hday).
  destruct (civil_of_days d) as [y m dd]. cbn [c_year c_month c_day] in *.
  assert (Hsod : 0 ≤ sod < day_seconds) by (apply Z.mod_pos_bound; done).
  assert (Hns : 0 ≤ t mod Second < Second) by (apply Z.mod_pos_bound; done).
  assert (Hh : 0 ≤ sod / 3600 ≤ 23) by (unfold day_seconds in Hsod; lia).
  assert (Hm : 0 ≤ sod / 60 mod 60 ≤ 59) by (pose proof (Z.mod_pos_bound (sod / 60) 60); lia).
  assert (Hs : 0 ≤ sod mod 60 ≤ 59) by (pose proof (Z.mod_pos_bound sod 60); lia).
  assert (Hp2 : 10 ^ Z.of_nat 2 = 100) by done. assert (Hp4 : 10 ^ Z.of_nat 4 = 10000) by done.
  unfold parse_time.
  repeat (rewrite read_pad_small by lia; rewrite some_bind; cbv beta iota;
          rewrite ?expect_same, ?some_bind; cbv beta iota).
  cbv zeta. rewrite Hvalid. cbn [andb].
  rewrite !(proj2 (Z.leb_le _ _)) by lia. cbn [andb].
  rewrite parse_fraction by done. f_equal. rewrite Hdays.
  assert (Hsec : (d - epoch_days) * day_seconds + sod / 3600 * 3600 + sod / 60 mod 60 * 60 +
    sod mod 60 = secs).
  { unfold d. replace (secs / day_seconds + epoch_days - epoch_days) with (secs / day_seconds) by lia.
    rewrite (Z.div_mod secs day_seconds) at 2 by done. fold sod. unfold day_seconds in *.
    clear -Hsod. lia. }
  rewrite Hsec. unfold secs. rewrite (Z.div_mod t Second) at 3 by done. lia.
Qed.
