(* ===== verification/JsonCodec.v ===== *)
(** How encoding/json writes a struct's fields and reads them back, as the
    stored records use it (src/server/records.go): one member per field,
    [omitempty] fields left out when empty; reading, a member is stored in the
    field it names exactly, or else the field it names up to case folding, and
    a field named several times keeps what the last one leaves.

    A field's writer returns [None] for a value that can't be encoded, and
    [Some None] for one left out. A slice read twice keeps no element of the
    first, and the spelling 1e0 of an integer reads as 1, neither of which any
    record the server wrote holds. *)
From S2P Require Import Prelude GoStrings Json GoTime Platform Rfc3339.
From stdpp Require Import options.

Abbreviation Acceptable := (gmap string (list RawMessage)).

(** [len(raw) == 0] *)
Definition raw_empty (raw : RawMessage) : bool :=
  match raw with RawNil => true | _ => false end.

(** * UTF-8 (unicode/utf8.ValidString) *)

Definition in_range (lo hi : N) (c : ascii) : bool :=
  ((lo <=? byte_code c) && (byte_code c <=? hi))%N.

Definition cont_byte : ascii → bool := in_range 128 191.

Fixpoint ValidString (s : string) : bool :=
  match s with
  | EmptyString => true
  | String a s1 =>
    if in_range 0 127 a then ValidString s1 else
    match s1 with
    | EmptyString => false
    | String b s2 =>
      if in_range 194 223 a then cont_byte b && ValidString s2 else
      match s2 with
      | EmptyString => false
      | String c s3 =>
        if in_range 224 239 a then
          in_range (if bool_decide (byte_code a = 224%N) then 160 else 128)
                   (if bool_decide (byte_code a = 237%N) then 159 else 191) b &&
          cont_byte c && ValidString s3
        else
        match s3 with
        | EmptyString => false
        | String d s4 =>
          in_range 240 244 a &&
          in_range (if bool_decide (byte_code a = 240%N) then 144 else 128)
                   (if bool_decide (byte_code a = 244%N) then 143 else 191) b &&
          cont_byte c && cont_byte d && ValidString s4
        end
      end
    end
  end.

(** The number of bytes of the valid UTF-8 rune [s] starts with, 0 when it
    starts with none. *)
Definition rune_width (s : string) : nat :=
  match s with
  | EmptyString => 0
  | String a s1 =>
    if in_range 0 127 a then 1 else
    match s1 with
    | EmptyString => 0
    | String b s2 =>
      if in_range 194 223 a then (if cont_byte b then 2 else 0) else
      match s2 with
      | EmptyString => 0
      | String c s3 =>
        if in_range 224 239 a then
          if in_range (if bool_decide (byte_code a = 224%N) then 160 else 128)
                      (if bool_decide (byte_code a = 237%N) then 159 else 191) b && cont_byte c
          then 3 else 0
        else
        match s3 with
        | EmptyString => 0
        | String d _ =>
          if in_range 240 244 a &&
             in_range (if bool_decide (byte_code a = 240%N) then 144 else 128)
                      (if bool_decide (byte_code a = 244%N) then 143 else 191) b &&
             cont_byte c && cont_byte d
          then 4 else 0
        end
      end
    end
  end.

(** The code point of a rune of one to four bytes. *)
Definition rune_value (s : string) : N :=
  let low b := (byte_code b mod 64)%N in
  match rune_width s, s with
  | 1, String a _ => byte_code a
  | 2, String a (String b _) => (byte_code a mod 32 * 64 + low b)%N
  | 3, String a (String b (String c _)) => (byte_code a mod 16 * 4096 + low b * 64 + low c)%N
  | 4, String a (String b (String c (String d _))) =>
    (byte_code a mod 8 * 262144 + low b * 4096 + low c * 64 + low d)%N
  | _, _ => 65533%N
  end.

(** The runes a range loop over [s] yields: U+FFFD for each byte that is part
    of none. [skip] bytes belong to a rune already read. *)
Fixpoint runes_from (s : string) (skip : nat) : list N :=
  match s with
  | EmptyString => []
  | String _ s' =>
    match skip with
    | S k => runes_from s' k
    | O => rune_value s :: runes_from s' (rune_width s - 1)
    end
  end.

Definition runes (s : string) : list N := runes_from s 0.

(** U+FFFD *)
Definition replacement : string := String "239" (String "191" (String "189" "")).

(** The string [json.Marshal] writes for [s]: each byte that is part of no
    rune replaced by U+FFFD. [skip] bytes belong to a rune already read. *)
Fixpoint coerce_from (s : string) (skip : nat) : string :=
  match s with
  | EmptyString => EmptyString
  | String c s' =>
    match skip with
    | S k => String c (coerce_from s' k)
    | O => match rune_width s with
           | O => replacement +:+ coerce_from s' 0
           | S k => String c (coerce_from s' k)
           end
    end
  end.

Definition coerce_utf8 (s : string) : string := coerce_from s 0.

(** A valid string is written as it is. *)
Lemma coerce_utf8_valid s : ValidString s = true → coerce_utf8 s = s.
Proof.
  unfold coerce_utf8. remember (String.length s) as n eqn:Hn.
  revert s Hn. induction n as [n IH] using lt_wf_ind. intros s -> Hv.
  destruct s as [|a s1]; [done|]. cbn [ValidString] in Hv. cbn [coerce_from rune_width].
  destruct (in_range 0 127 a); [rewrite (IH (String.length s1)); simpl; by auto with lia|].
  destruct s1 as [|b s2]; [done|].
  destruct (in_range 194 223 a).
  { apply andb_true_iff in Hv as [-> Hv]. cbn [coerce_from].
    rewrite (IH (String.length s2)); simpl; by auto with lia. }
  destruct s2 as [|c s3]; [done|].
  destruct (in_range 224 239 a).
  { rewrite !andb_true_iff in Hv. destruct Hv as [[-> ->] Hv]. cbn [coerce_from andb].
    rewrite (IH (String.length s3)); simpl; by auto with lia. }
  destruct s3 as [|d s4]; [done|].
  rewrite !andb_true_iff in Hv. destruct Hv as [[[[-> ->] ->] ->] Hv]. cbn [coerce_from andb].
  rewrite (IH (String.length s4)); simpl; by auto with lia.
Qed.

(** * Writing *)

Definition enc_int (n : Z) : option (option json) :=
  Some (Some (JNum (Number (Z.ltb n 0) (Z.abs n) 0))).
Definition enc_int_omit (n : Z) : option (option json) :=
  if bool_decide (n = 0%Z) then Some None else enc_int n.
Definition enc_str (s : string) : option (option json) := Some (Some (JStr s)).
Definition enc_str_omit (s : string) : option (option json) :=
  if bool_decide (s = "") then Some None else enc_str s.
Definition enc_strs_omit (l : list string) : option (option json) :=
  Some (if bool_decide (l = []) then None else Some (JArr (JStr <$> l))).
Definition enc_raw_omit (r : RawMessage) : option (option json) :=
  match r with RawNil => Some None | RawInvalid => None | Raw j => Some (Some j) end.
Definition enc_map (m : gmap string RawMessage) : option (option json) :=
  match marshal_object m with Some (Raw j) => Some (Some j) | _ => None end.
Definition enc_map_omit (m : gmap string RawMessage) : option (option json) :=
  if bool_decide (m = ∅) then Some None else enc_map m.

(** A map of slices, each slice an array of its messages. *)
Definition slice_message (l : list RawMessage) : RawMessage :=
  match mapM marshal_raw l with Some l => Raw (JArr l) | None => RawInvalid end.
Definition enc_values_omit (m : Acceptable) : option (option json) :=
  enc_map_omit (slice_message <$> m).

Definition enc_time (t : Time) : option (option json) :=
  (λ s, Some (JStr s)) <$> format_time t.
Definition enc_time_opt (t : option Time) : option (option json) :=
  match t with None => Some None | Some t => enc_time t end.

(** The members written for a struct's fields, in order. *)
Fixpoint encode_members (fields : list (string * option (option json)))
    : option (list (string * json)) :=
  match fields with
  | [] => Some []
  | (name, v) :: fields =>
    v ≫= λ v, encode_members fields ≫= λ l,
    Some (match v with Some j => (name, j) :: l | None => l end)
  end.

(** * Reading, given the field's value so far *)

Definition dec_int (old : Z) (j : json) : option Z :=
  match j with
  | JNum (Number neg d 0) => Some (if neg then - d else d)%Z
  | JNull => Some old
  | _ => None
  end.
Definition dec_str (old : string) (j : json) : option string :=
  match j with JStr s => Some s | JNull => Some old | _ => None end.
Definition dec_strs (_ : list string) (j : json) : option (list string) :=
  match j with JArr l => mapM (dec_str "") l | JNull => Some [] | _ => None end.
Definition dec_raw (_ : RawMessage) (j : json) : option RawMessage := Some (Raw j).
Definition dec_map (old : gmap string RawMessage) (j : json) : option (gmap string RawMessage) :=
  match j with JObj l => Some (members_map old l) | JNull => Some ∅ | _ => None end.

Definition dec_slice (j : json) : option (list RawMessage) :=
  match j with JArr l => Some (Raw <$> l) | JNull => Some [] | _ => None end.
Fixpoint dec_slices (m : Acceptable) (l : list (string * json)) : option Acceptable :=
  match l with
  | [] => Some m
  | (k, j) :: l => match dec_slice j with Some v => dec_slices (<[k := v]> m) l | None => None end
  end.
Definition dec_values (old : Acceptable) (j : json) : option Acceptable :=
  match j with JObj l => dec_slices old l | JNull => Some ∅ | _ => None end.

Definition dec_time (old : Time) (j : json) : option Time :=
  match j with JStr s => parse_time s | JNull => Some old | _ => None end.
Definition dec_time_opt (_ : option Time) (j : json) : option (option Time) :=
  match j with JStr s => Some <$> parse_time s | JNull => Some None | _ => None end.

Section reading.
Context `{Platform}.

(** Whether the member named [k] belongs to the field [name] of a struct
    whose fields are [names]. *)
Definition matches (names : list string) (name k : string) : bool :=
  bool_decide (k = name) ||
  (negb (bool_decide (k ∈ names)) && bool_decide (fold_key k = fold_key name)).

Fixpoint get {A} (names : list string) (name : string) (dec : A → json → option A) (old : A)
    (members : list (string * json)) : option A :=
  match members with
  | [] => Some old
  | (k, j) :: members =>
    if matches names name k then
      match dec old j with Some v => get names name dec v members | None => None end
    else get names name dec old members
  end.

(** * Reading back what was written *)

Lemma get_other {A} names name (dec : A → json → option A) old members :
  Forall (λ p, p.1 ∈ names ∧ p.1 ≠ name) members →
  get names name dec old members = Some old.
Proof.
  induction 1 as [|[k j] members [Hin Hne] _ IH]; simpl in *; [done|].
  unfold matches. by rewrite (bool_decide_false (k = name)), (bool_decide_true (k ∈ names)).
Qed.

Lemma encode_members_names fields members :
  encode_members fields = Some members → Forall (λ p, p.1 ∈ fields.*1) members.
Proof.
  revert members. induction fields as [|[name v] fields IH]; simpl; intros members Henc.
  - injection Henc as <-. constructor.
  - destruct v as [v|]; [|done]. simpl in Henc.
    destruct (encode_members fields) as [l|]; [|done]. injection Henc as <-.
    assert (Hl : Forall (λ p, p.1 ∈ name :: fields.*1) l).
    { eapply Forall_impl; [by apply IH|]. intros p Hp. by right. }
    destruct v; [|done]. constructor; [by left|done].
Qed.

(** A field's member reads back as the field's value: [a] when it was
    written, [old] when it was left out. *)
Lemma get_encoded {A} fields members name v (dec : A → json → option A) old a :
  NoDup fields.*1 → encode_members fields = Some members →
  (name, v) ∈ fields →
  (∀ j, v = Some (Some j) → dec old j = Some a) → (v = Some None → old = a) →
  get fields.*1 name dec old members = Some a.
Proof.
  assert (Hgen : ∀ names fs members, encode_members fs = Some members → NoDup fs.*1 →
    fs.*1 ⊆ names → (name, v) ∈ fs →
    (∀ j, v = Some (Some j) → dec old j = Some a) → (v = Some None → old = a) →
    get names name dec old members = Some a).
  2: { intros. by eapply Hgen. }
  intros names fs. induction fs as [|[name' v'] fs IH]; intros ms Henc Hnd Hsub Hin Hdec Hold.
  { by apply elem_of_nil in Hin. }
  simpl in *. apply NoDup_cons in Hnd as [Hnin Hnd].
  destruct v' as [v'|]; [|done]. simpl in Henc.
  destruct (encode_members fs) as [l|] eqn:Hl; [|done]. injection Henc as <-.
  pose proof (encode_members_names _ _ Hl) as Hnames.
  apply elem_of_cons in Hin as [[= <- ->]|Hin].
  - assert (Hrest : ∀ x : A, get names name dec x l = Some x).
    { intros x. apply get_other. eapply Forall_impl; [done|]. intros p Hp.
      split; [apply Hsub; by right|]. simpl in Hp. intros Heq. apply Hnin. by rewrite <-Heq. }
    destruct v' as [j|].
    + simpl. unfold matches. rewrite bool_decide_true by done. simpl.
      by rewrite (Hdec j).
    + rewrite Hrest. f_equal. auto.
  - assert (Hne : name' ≠ name).
    { intros ->. apply Hnin. by apply (list_elem_of_fmap_2 fst _ (name, v)). }
    assert (IHl : get names name dec old l = Some a)
      by (apply IH; auto; intros x Hx; apply Hsub; by right).
    destruct v' as [j|]; [|done]. simpl. unfold matches.
    rewrite bool_decide_false by done.
    rewrite (bool_decide_true (name' ∈ names)) by (apply Hsub; by left). done.
Qed.
End reading.

(** The readers undo the writers. *)

Lemma enc_int_dec n old j : enc_int n = Some (Some j) → dec_int old j = Some n.
Proof. intros [= <-]. simpl. f_equal. destruct (Z.ltb_spec n 0); lia. Qed.

Lemma enc_int_omit_dec n j : enc_int_omit n = Some (Some j) → dec_int 0%Z j = Some n.
Proof. unfold enc_int_omit. case_bool_decide; [done|]. apply enc_int_dec. Qed.

Lemma enc_int_omit_none n : enc_int_omit n = Some None → 0%Z = n.
Proof. unfold enc_int_omit. by case_bool_decide. Qed.

Lemma enc_str_dec s old j : enc_str s = Some (Some j) → dec_str old j = Some s.
Proof. by intros [= <-]. Qed.

Lemma enc_str_omit_dec s j : enc_str_omit s = Some (Some j) → dec_str "" j = Some s.
Proof. unfold enc_str_omit. case_bool_decide; [done|]. apply enc_str_dec. Qed.

Lemma enc_str_omit_none s : enc_str_omit s = Some None → "" = s.
Proof. unfold enc_str_omit. by case_bool_decide. Qed.

Lemma mapM_dec_str l : mapM (dec_str "") (JStr <$> l) = Some l.
Proof. induction l as [|s l IH]; [done|]. cbn. cbn in IH. by rewrite IH. Qed.

Lemma enc_strs_omit_dec l j : enc_strs_omit l = Some (Some j) → dec_strs [] j = Some l.
Proof. unfold enc_strs_omit. case_bool_decide; [done|]. intros [= <-]. apply mapM_dec_str. Qed.

Lemma enc_strs_omit_none l : enc_strs_omit l = Some None → [] = l.
Proof. unfold enc_strs_omit. by case_bool_decide. Qed.

Lemma enc_raw_omit_dec r j : enc_raw_omit r = Some (Some j) → dec_raw RawNil j = Some r.
Proof. destruct r; simpl; try done. by intros [= <-]. Qed.

Lemma enc_raw_omit_none r : enc_raw_omit r = Some None → RawNil = r.
Proof. by destruct r. Qed.

Lemma enc_time_dec t old j : enc_time t = Some (Some j) → dec_time old j = Some t.
Proof.
  unfold enc_time. intros (s & Hs & Hj)%fmap_Some. injection Hj as ->. simpl. by apply parse_format_time.
Qed.

Lemma enc_time_never_none t : enc_time t ≠ Some None.
Proof. unfold enc_time. by destruct (format_time t). Qed.

Lemma enc_time_opt_dec t j : enc_time_opt t = Some (Some j) → dec_time_opt None j = Some t.
Proof.
  destruct t as [t|]; [|done]. simpl. unfold enc_time. intros (s & Hs & Hj)%fmap_Some.
  injection Hj as ->. simpl. by rewrite (parse_format_time _ _ Hs).
Qed.

Lemma enc_time_opt_none t : enc_time_opt t = Some None → None = t.
Proof. destruct t; [|done]. simpl. by intros ?%enc_time_never_none. Qed.

Lemma enc_map_dec m j :
  map_Forall (λ _, raw_ok) m → enc_map m = Some (Some j) → dec_map ∅ j = Some m.
Proof.
  intros Hok. destruct (marshal_object_roundtrip m Hok) as (raw & Hm & Hu).
  destruct (marshal_object_members m Hok) as (l & Hl & _). rewrite Hm in Hl. injection Hl as ->.
  unfold enc_map. rewrite Hm. intros [= <-]. exact Hu.
Qed.

Lemma enc_map_never_none m : enc_map m ≠ Some None.
Proof. unfold enc_map. by destruct (marshal_object m) as [[]|]. Qed.

Lemma enc_map_omit_dec m j :
  map_Forall (λ _, raw_ok) m → enc_map_omit m = Some (Some j) → dec_map ∅ j = Some m.
Proof. unfold enc_map_omit. case_bool_decide; [done|]. apply enc_map_dec. Qed.

Lemma enc_map_omit_none m : enc_map_omit m = Some None → ∅ = m.
Proof. unfold enc_map_omit. case_bool_decide; [done|]. by intros ?%enc_map_never_none. Qed.

(** ** Maps of slices *)

Lemma slice_message_dec l j :
  Forall raw_ok l → slice_message l = Raw j → dec_slice j = Some l.
Proof.
  intros Hok. unfold slice_message.
  assert (Hm : ∃ js, mapM marshal_raw l = Some js ∧ l = Raw <$> js).
  { induction Hok as [|r l [x ->] _ (js & Hjs & ->)]; [by exists []|].
    exists (x :: js). cbn. cbn in Hjs. by rewrite Hjs. }
  destruct Hm as (js & -> & ->). by intros [= <-].
Qed.

Lemma slice_message_ok l : Forall raw_ok l → raw_ok (slice_message l).
Proof.
  intros Hok. unfold slice_message. destruct (mapM marshal_raw l) eqn:Hm; [by eexists|].
  exfalso. revert Hm. induction Hok as [|r l [x ->] _ IH]; [done|]. cbn.
  destruct (mapM marshal_raw l); [done|]. intros _. by apply IH.
Qed.

Lemma dec_slices_spec l : ∀ acc,
  NoDup l.*1 → (∀ k j, (k, j) ∈ l → is_Some (dec_slice j)) →
  ∃ r, dec_slices acc l = Some r ∧
    (∀ k j v, (k, j) ∈ l → dec_slice j = Some v → r !! k = Some v) ∧
    (∀ k, k ∉ l.*1 → r !! k = acc !! k).
Proof.
  induction l as [|[k j] l IH]; intros acc Hnd Hall; simpl.
  { exists acc. split_and!; [done| |done]. by intros ??? ?%elem_of_nil. }
  apply NoDup_cons in Hnd as [Hk Hnd].
  destruct (Hall k j) as [v Hv]; [by left|]. rewrite Hv.
  destruct (IH (<[k:=v]> acc) Hnd) as (r & -> & Hin & Hout).
  { intros k' j' Hkj. apply (Hall k'). by right. }
  exists r. split; [done|]. split.
  - intros k' j' v' [[= -> ->]|Hkj]%elem_of_cons Hv'; [|eauto].
    rewrite Hout by done. rewrite lookup_insert_eq. congruence.
  - intros k' [Hne Hk']%not_elem_of_cons. rewrite Hout by done. by rewrite lookup_insert_ne.
Qed.

Lemma enc_values_omit_dec m j :
  map_Forall (λ _, Forall raw_ok) m → enc_values_omit m = Some (Some j) → dec_values ∅ j = Some m.
Proof.
  intros Hok. unfold enc_values_omit, enc_map_omit. case_bool_decide; [done|].
  assert (Hok' : map_Forall (λ _, raw_ok) (slice_message <$> m)).
  { intros k r. rewrite lookup_fmap. intros (l & Hl & ->)%fmap_Some.
    apply slice_message_ok. by apply (Hok k). }
  destruct (marshal_object_members _ Hok') as (l & Hl & Hnd & Hin).
  unfold enc_map. rewrite Hl. intros [= <-]. simpl.
  assert (Hdec : ∀ k x, (k, x) ∈ l → ∃ v, m !! k = Some v ∧ dec_slice x = Some v).
  { intros k x Hkx. apply Hin in Hkx. rewrite lookup_fmap in Hkx.
    apply fmap_Some in Hkx as (v & Hv & Hx). exists v. split; [done|].
    apply slice_message_dec; [by apply (Hok k)|done]. }
  destruct (dec_slices_spec l ∅ Hnd) as (r & -> & Hsome & Hnone).
  { intros k x Hkx. destruct (Hdec k x Hkx) as (v & _ & ->). eauto. }
  f_equal. apply map_eq. intros k. destruct (m !! k) as [v|] eqn:Hk.
  - assert (Hs : ∃ x, slice_message v = Raw x) by (apply slice_message_ok, (Hok k v Hk)).
    destruct Hs as [x Hx]. apply (Hsome k x).
    + apply Hin. by rewrite lookup_fmap, Hk, <-Hx.
    + apply slice_message_dec; [by apply (Hok k)|done].
  - rewrite Hnone; [done|]. intros ([k' x] & -> & Hkx)%list_elem_of_fmap.
    destruct (Hdec _ _ Hkx) as (v & Hv & _). simpl in Hk. congruence.
Qed.

Lemma enc_values_omit_none m : enc_values_omit m = Some None → ∅ = m.
Proof.
  unfold enc_values_omit. intros H%enc_map_omit_none. symmetry in H. symmetry.
  by apply fmap_empty_inv in H.
Qed.
