(* ===== verification/Numeric.v ===== *)
(** Numbers in JSON and in text: src/internal/numericdate/numericdate.go, and
    [strconv.ParseInt] as src/server/max_age.go calls it.

    A NumericDate is whole seconds: an integer literal that fits an int64 as
    it is, any other number the floor of its nearest float64. *)
From S2P Require Import Prelude GoStrings Json GoTime JsonCodec.
From stdpp Require Import options.
Local Open Scope Z_scope.

(** December 31, 9999, 23:59:59 UTC. *)
Definition Max : Z := 253402300799.

(** [math.Floor]. *)
Definition floor_float (f : float64) : Z :=
  let m := if f_neg f then - f_mant f else f_mant f in
  if 0 <=? f_exp f then m * 2 ^ f_exp f else m / 2 ^ (- f_exp f).

(** [json.Unmarshal] into an int64: [None] is an error. *)
Definition unmarshal_int64 (n : number) : option Z :=
  let z := if num_neg n then - num_digits n else num_digits n in
  if bool_decide (num_exp n = 0) && bool_decide (MinInt64 ≤ z ≤ MaxInt64) then Some z else None.

(** parse: a float64 [f] is in range when its floor is, its bounds being
    whole numbers. *)
Definition parse_date (raw : RawMessage) : option Z :=
  match raw with
  | Raw JNull => Some 0
  | Raw (JNum n) =>
    match unmarshal_int64 n with
    | Some z => Some z
    | None =>
      match parse_float n with
      | None => None
      | Some f =>
        let z := floor_float f in
        if bool_decide (2 ^ 63 ≤ z) || bool_decide (z < - 2 ^ 63) then None else Some z
      end
    end
  | _ => None
  end.

(** numericdate.Parse; [None] is ErrInvalid. *)
Definition ParseDate (raw : RawMessage) : option Z :=
  match parse_date raw with
  | Some n => if bool_decide (Max < n) then None else Some n
  | None => None
  end.

(** A NumericDate is an int64 at most the last second of year 9999, so an
    instant [time.Unix] and [time.Time.Add] handle without wrapping. *)
Lemma ParseDate_bounds raw n : ParseDate raw = Some n → MinInt64 ≤ n ≤ Max.
Proof.
  unfold ParseDate, parse_date, Max. intros H.
  destruct raw as [| |[]]; try discriminate.
  - injection H as <-. unfold MinInt64. lia.
  - assert (∀ z, (if bool_decide (253402300799 < z) then None else Some z) = Some n →
      MinInt64 ≤ z → MinInt64 ≤ n ≤ 253402300799) as Hz.
    { intros z. case_bool_decide; intros [=]; lia. }
    destruct (unmarshal_int64 n0) as [z|] eqn:Hi.
    + apply (Hz z H). clear Hz. unfold unmarshal_int64 in Hi.
      destruct (bool_decide (num_exp n0 = 0)); [|done]. simpl in Hi. clear H.
      case_bool_decide as Hb; [|done]. injection Hi as <-. by destruct Hb.
    + destruct (parse_float n0) as [f|]; [|done].
      destruct (bool_decide_reflect (2 ^ 63 ≤ floor_float f)); [done|].
      destruct (bool_decide_reflect (floor_float f < - 2 ^ 63)); [done|]. simpl in H.
      apply (Hz _ H). unfold MinInt64. lia.
Qed.

(** A field of type numericdate.Value. *)
Definition dec_date (_ : Z) (j : json) : option Z := ParseDate (Raw j).

(** * [strconv.ParseInt(s, 10, 64)] *)

Fixpoint decimal_digits (acc : N) (s : string) : option N :=
  match s with
  | EmptyString => Some acc
  | String c s =>
    let n := byte_code c in
    if ((48 <=? n) && (n <=? 57))%N then decimal_digits (10 * acc + (n - 48))%N s else None
  end.

(** [None] is an error: no digits, another character, or out of range. *)
Definition ParseInt (s : string) : option Z :=
  let '(neg, digits) :=
    match s with
    | String "+" s => (false, s)
    | String "-" s => (true, s)
    | _ => (false, s)
    end in
  if bool_decide (digits = "") then None
  else
    match decimal_digits 0 digits with
    | None => None
    | Some n =>
      let z := if neg then - Z.of_N n else Z.of_N n in
      if bool_decide (MinInt64 ≤ z ≤ MaxInt64) then Some z else None
    end.

Lemma ParseInt_bounds s z : ParseInt s = Some z → is_int64 z.
Proof.
  unfold ParseInt. destruct (match s with EmptyString => _ | String _ _ => _ end) as [neg digits].
  case_bool_decide; [done|]. destruct (decimal_digits _ _); [|done].
  case_bool_decide; [|done]. by intros [= <-].
Qed.
