(* ===== verification/Nonce.v ===== *)
(** DPoP nonces (RFC 9449 §8): src/internal/dpopnonce/dpopnonce.go.

    A verifier hands out one current nonce, replaced before half its lifetime
    has passed; every instance of a horizontally scaled verifier has its own
    Rotator over one shared store. *)
From stdpp Require Import relations.
From S2P Require Import Prelude GoTime Base64 Pkce Effects Storage MemStore MemTheorems.
From stdpp Require Import options.

(** Reading [size] random bytes. A reader that comes up short is drained. *)
Definition draw (size : nat) : eff reader random_error string := λ random,
  match generateRandomToken random size with
  | Ok (token, random) => (Ok token, random)
  | Err e => (Err e, "")
  end.

Inductive nonce_error := ErrGenerateNonce | ErrIssueNonce (e : store_error).

Definition nonceSize : nat := 32.

Record Rotator := { current : string; expiresAt : Time }.

Definition zero_rotator : Rotator := {| current := ""; expiresAt := zero_time |}.

Section rotator.
Context {N : Type} `{NonceStore N}.

Definition generate : eff (Rotator * (N * reader)) nonce_error string :=
  map_err (λ _, ErrGenerateNonce)
    (zoom (λ s, s.2.2) (λ r s, (s.1, (s.2.1, r))) (draw nonceSize)).

Definition issue (issuance : NonceIssuance) : eff (Rotator * (N * reader)) nonce_error unit :=
  map_err ErrIssueNonce (zoom (λ s, s.2.1) (λ n s, (s.1, (n, s.2.2))) (Issue issuance)).

Definition set_rotator (r : Rotator) : eff (Rotator * (N * reader)) nonce_error unit :=
  λ s, (Ok tt, (r, s.2)).

(** [Rotator.Current]. A Duration division truncates towards zero. *)
Definition Current (lifetime : Duration) (now : Time)
    : eff (Rotator * (N * reader)) nonce_error string :=
  let* r := gets fst in
  if negb (bool_decide (current r = "")) && Before now (Add (expiresAt r) (Z.quot (- lifetime) 2))
  then ret (current r)
  else
    let* nonce := generate in
    do* issue {| ni_Nonce := nonce; ni_ExpiresAt := Add now lifetime |} in
    do* set_rotator {| current := nonce; expiresAt := Add now lifetime |} in
    ret nonce.

Definition Valid (presented : string) (now : Time) : eff N store_error bool :=
  if bool_decide (presented = "") then ret false
  else
    let* record := Lookup {| nl_Nonce := presented |} in
    ret (negb (After now (nr_ExpiresAt record))).
End rotator.

(** * Instances sharing a store *)

Section instances.
Context (lifetime : Duration).

Record verifiers := {
  rotators : gmap nat Rotator;
  store : Nonces.NonceStore;
  random : reader;
  time : Time }.

Definition rotator_of (i : nat) (v : verifiers) : Rotator :=
  default zero_rotator (rotators v !! i).

(** Instance [i] hands out a nonce at the present time. *)
Definition hand_out (i : nat) (v : verifiers) : result nonce_error string * verifiers :=
  let '(res, (r, (s, rnd))) :=
    @Current _ Nonces.nonce_store lifetime (time v) (rotator_of i v, (store v, random v)) in
  (res, {| rotators := <[i := r]> (rotators v); store := s; random := rnd; time := time v |}).

(** The present time as every instance reads it only moves forward; the
    reader may produce any bytes. *)
Inductive verifier_step : verifiers → verifiers → Prop :=
| step_hand_out i v : verifier_step v (hand_out i v).2
| step_time v t rnd :
    (time v ≤ t)%Z →
    verifier_step v {| rotators := rotators v; store := store v; random := rnd; time := t |}.

Definition start (rnd : reader) (t : Time) : verifiers :=
  {| rotators := ∅; store := ∅; random := rnd; time := t |}.

(** Every rotator's nonce is in the store for at least as long as the
    rotator means it to be, which is within a lifetime from now. *)
Definition rotators_ok (v : verifiers) : Prop :=
  ∀ i r, rotators v !! i = Some r → current r ≠ "" →
    (expiresAt r ≤ time v + lifetime)%Z ∧
    ∃ rec, store v !! current r = Some rec ∧ (expiresAt r ≤ nr_ExpiresAt rec)%Z.

(** The store holds [n] until at least [t]. *)
Definition lasts (n : string) (t : Time) (v : verifiers) : Prop :=
  ∃ rec, store v !! n = Some rec ∧ (t ≤ nr_ExpiresAt rec)%Z.

Lemma zoom_Err_run (i : nat) v :
  let '(res, v') := hand_out i v in
  time v' = time v ∧
  ((∃ r, store v' = store v ∧ rotators v' = <[i := r]> (rotators v) ∧ r = rotator_of i v ∧
     ∀ n, res = Ok n → n = current r ∧ n ≠ "" ∧ (time v < expiresAt r + Z.quot (- lifetime) 2)%Z) ∨
   (∃ n, res = Ok n ∧
     store v' = <[n := {| nr_ExpiresAt := (time v + lifetime)%Z |}]> (store v) ∧
     rotators v' =
       <[i := {| current := n; expiresAt := (time v + lifetime)%Z |}]> (rotators v))).
Proof.
  unfold hand_out, Current, generate, issue, set_rotator, ebind, gets, ret, map_err, zoom, draw.
  cbn [fst snd].
  destruct (negb _ && _) eqn:Hc; cbn.
  - split; [done|]. left. eexists. split_and!; [done..|]. intros n [= <-].
    apply andb_true_iff in Hc as [Hn%negb_true_iff%bool_decide_eq_false Hb%bool_decide_eq_true].
    done.
  - destruct (generateRandomToken _ _) as [[n rnd]|e]; cbn; (split; [done|]).
    + right. by eexists.
    + left. eexists. by split_and!.
Qed.

Lemma hand_out_ok i v :
  rotators_ok v → rotators_ok (hand_out i v).2 ∧
  ∀ n t, (t ≤ time v + lifetime)%Z → lasts n t v → lasts n t (hand_out i v).2.
Proof.
  intros Hok. pose proof (zoom_Err_run i v) as H. destruct (hand_out i v) as [res v'].
  cbn [snd]. destruct H as (Ht & [(r & Hs & Hr & -> & _)|(n & _ & Hs & Hr)]).
  - split.
    + intros j r. rewrite Ht, Hs, Hr.
      destruct (decide (i = j)) as [<-|Hij];
        [rewrite lookup_insert_eq; intros [= <-]|rewrite lookup_insert_ne by done; apply Hok].
      unfold rotator_of. destruct (rotators v !! i) eqn:Hi; simpl; [by apply Hok in Hi|done].
    + intros n t _. unfold lasts. by rewrite Hs.
  - assert (Hlasts : ∀ m t, (t ≤ time v + lifetime)%Z → lasts m t v → lasts m t v').
    { intros m t Hm (rec & Hrec & Hle). unfold lasts. rewrite Hs.
      destruct (decide (n = m)) as [<-|Hnm].
      - rewrite lookup_insert_eq. eexists. split; [done|]. simpl. lia.
      - rewrite lookup_insert_ne by done. eauto. }
    split; [|done]. intros j r. simpl. rewrite Ht, Hr.
    destruct (decide (i = j)) as [<-|Hij].
    + rewrite lookup_insert_eq. intros [= <-] _. simpl. split; [done|].
      rewrite Hs, lookup_insert_eq. eexists. split; [done|]. simpl. done.
    + rewrite lookup_insert_ne by done. intros Hj Hne.
      destruct (Hok _ _ Hj Hne) as [Hle Hin]. split; [done|]. by apply (Hlasts _ (expiresAt r)).
Qed.

Lemma verifier_step_ok v v' :
  verifier_step v v' → rotators_ok v →
  rotators_ok v' ∧ (time v ≤ time v')%Z ∧
  ∀ n t, (t ≤ time v + lifetime)%Z → lasts n t v → lasts n t v'.
Proof.
  intros [i u|u t rnd Ht] Hok.
  - pose proof (zoom_Err_run i u) as H. destruct (hand_out_ok i u Hok) as [Hok' Hl].
    split; [done|]. split; [|done]. destruct (hand_out i u), H as [Ht _]. simpl. rewrite Ht. done.
  - split; [|done]. intros i r Hr Hne. destruct (Hok i r Hr Hne) as [Hle Hin].
    simpl. split; [lia|done].
Qed.

Lemma verifier_steps_ok v v' :
  rtc verifier_step v v' → rotators_ok v →
  rotators_ok v' ∧ ∀ n t, (t ≤ time v + lifetime)%Z → lasts n t v → lasts n t v'.
Proof.
  induction 1 as [|v v1 v2 Hstep _ IH]; intros Hok; [done|].
  destruct (verifier_step_ok _ _ Hstep Hok) as (Hok1 & Ht & Hl).
  destruct (IH Hok1) as [Hok2 Hl2]. split; [done|].
  intros n t Hle Hn. apply Hl2; [lia|]. by apply Hl.
Qed.

(** C39. A nonce an instance hands out stays valid at every instance for at
    least half its lifetime, however many nonces any instance hands out in
    between: a client that keeps the last nonce it was given is never
    challenged within that time. *)
Theorem nonce_valid_half_lifetime i rnd t0 v n v' :
  (0 ≤ lifetime)%Z →
  rtc verifier_step (start rnd t0) v →
  (hand_out i v).1 = Ok n → n ≠ "" →
  rtc verifier_step (hand_out i v).2 v' →
  (time v' ≤ time v + lifetime / 2)%Z →
  @Valid _ Nonces.nonce_store n (time v') (store v') = (Ok true, store v').
Proof.
  intros Hl Hreach Hn Hne Hsteps Hle.
  assert (Hok : rotators_ok v).
  { apply (verifier_steps_ok _ _ Hreach). intros j r. simpl. by rewrite lookup_empty. }
  destruct (hand_out_ok i v Hok) as [Hok' _].
  assert (Hlast : lasts n (time v + lifetime / 2)%Z (hand_out i v).2).
  { pose proof (zoom_Err_run i v) as H. destruct (hand_out i v) as [res u]. simpl in Hn. subst res.
    cbn [snd]. destruct H as (Ht & [(r & Hs & Hr & -> & Hcur)|(m & [= <-] & Hs & Hr)]).
    - destruct (Hcur n eq_refl) as (-> & Hr0 & Hbefore). unfold rotator_of in *.
      destruct (rotators v !! i) as [r|] eqn:Hi; simpl in *; [|done].
      destruct (Hok _ _ Hi Hr0) as (_ & rec & Hrec & Hexp). exists rec. rewrite Hs.
      split; [done|]. rewrite Z.quot_opp_l, Z.quot_div_nonneg in Hbefore by lia. lia.
    - exists {| nr_ExpiresAt := (time v + lifetime)%Z |}. rewrite Hs, lookup_insert_eq.
      split; [done|]. simpl. assert (lifetime / 2 ≤ lifetime)%Z by (apply Z.div_le_upper_bound; lia).
      lia. }
  assert (Htime : time (hand_out i v).2 = time v).
  { pose proof (zoom_Err_run i v) as H. by destruct (hand_out i v), H as [Ht _]. }
  destruct (verifier_steps_ok _ _ Hsteps Hok') as [_ Hkeep].
  destruct (Hkeep n (time v + lifetime / 2)%Z) as (rec & Hrec & Hexp); [|done|].
  { rewrite Htime. assert (lifetime / 2 ≤ lifetime)%Z by (apply Z.div_le_upper_bound; lia). lia. }
  unfold Valid. rewrite bool_decide_false by done.
  unfold ebind, ret. cbn. unfold Nonces.Lookup. cbn. rewrite Hrec.
  unfold After. by rewrite bool_decide_false by lia.
Qed.
End instances.

(** * The theorem on a concrete run: a ten-minute lifetime, five minutes later *)

Definition example_lifetime : Duration := (600 * Second)%Z.

Definition example_bytes : reader := "0123456789abcdef0123456789abcdef".

Definition example_start : verifiers := start example_bytes (1800000000 * Second)%Z.

Definition example_nonce : string := EncodeToString rawURL example_bytes.

Definition example_handed : verifiers := (hand_out example_lifetime 0 example_start).2.

Definition example_later : verifiers :=
  {| rotators := rotators example_handed; store := store example_handed; random := "";
     time := (1800000300 * Second)%Z |}.

Lemma nonce_valid_half_lifetime_witness :
  @Valid _ Nonces.nonce_store example_nonce (1800000300 * Second)%Z (store example_later) =
    (Ok true, store example_later).
Proof.
  refine (nonce_valid_half_lifetime example_lifetime 0 example_bytes (1800000000 * Second)%Z
    example_start example_nonce example_later _ _ _ _ _ _).
  - vm_compute. discriminate.
  - reflexivity.
  - vm_compute. reflexivity.
  - vm_compute. discriminate.
  - apply rtc_once. apply (step_time example_lifetime example_handed). vm_compute. discriminate.
  - vm_compute. discriminate.
Defined.
