(* ===== verification/Records.v ===== *)
(** The records the server keeps in its stores: src/server/records.go, with
    withRequestedUserinfoClaims (src/server/token.go) and
    withAuthorizationDetails (src/server/rar.go).

    A grantRecord is the complete authorization an authorization code, a
    refresh token or an approved CIBA request stands for; a requestRecord is
    what a pushed authorization request or a CIBA request persists. Both are
    stored as JSON, stamped with the issuer of the server that wrote them. *)
From S2P Require Import Prelude GoStrings Json GoTime Digests Platform Rfc3339 JsonCodec.
From S2P Require Import Storage ServerTypes.
From stdpp Require Import options.

Definition recordVersion : Z := 1.

(** grantKind *)
Definition grantKindAuthorizationCode : string := "authorization_code".
Definition grantKindRefreshToken : string := "refresh_token".
Definition grantKindBackchannel : string := "backchannel_authentication".

Record grantRecord := {
  g_Version : Z;
  g_Kind : string;
  g_Issuer : string;
  g_RedirectURI : string;
  g_CodeChallenge : string;
  g_Nonce : string;
  g_DPoPJKT : string;
  g_Thumbprint : string;
  g_ClientInstanceKey : string;
  g_Subject : string;
  g_ClientSubject : string;
  g_PairwiseSector : string;
  g_PairwisePrefix : string;
  g_Scope : list string;
  g_AuthTime : Time;
  g_ACR : string;
  g_AMR : list string;
  g_AuthorizationDetails : RawMessage;
  g_Resources : list string;
  g_TokenClaims : gmap string RawMessage;
  g_RequestedIDTokenClaims : list string;
  g_RequestedUserinfoClaims : list string;
  g_RequestedIDTokenClaimValues : Acceptable;
  g_RequestedUserinfoClaimValues : Acceptable;
  g_IDTokenClaims : gmap string RawMessage;
  g_GrantID : string;
  g_CodeGrantID : string;
  g_GrantType : string;
  g_IssuedAt : option Time }.

Record requestRecord := {
  rq_Version : Z;
  rq_Issuer : string;
  rq_Parameters : gmap string RawMessage;
  rq_TokenClaims : gmap string RawMessage;
  rq_DPoPJKT : string;
  rq_ExtensionSource : Z;
  rq_ExpiresAt : option Time;
  rq_PushedAt : option Time;
  rq_EssentialACRValues : list string;
  rq_RequiredSubject : string;
  rq_RequiredInternalSubject : string;
  rq_Resources : list string;
  rq_ClientInstanceKey : string }.

Definition zero_grant : grantRecord := {|
  g_Version := 0%Z;
  g_Kind := "";
  g_Issuer := "";
  g_RedirectURI := "";
  g_CodeChallenge := "";
  g_Nonce := "";
  g_DPoPJKT := "";
  g_Thumbprint := "";
  g_ClientInstanceKey := "";
  g_Subject := "";
  g_ClientSubject := "";
  g_PairwiseSector := "";
  g_PairwisePrefix := "";
  g_Scope := [];
  g_AuthTime := zero_time;
  g_ACR := "";
  g_AMR := [];
  g_AuthorizationDetails := RawNil;
  g_Resources := [];
  g_TokenClaims := ∅;
  g_RequestedIDTokenClaims := [];
  g_RequestedUserinfoClaims := [];
  g_RequestedIDTokenClaimValues := ∅;
  g_RequestedUserinfoClaimValues := ∅;
  g_IDTokenClaims := ∅;
  g_GrantID := "";
  g_CodeGrantID := "";
  g_GrantType := "";
  g_IssuedAt := None |}.

Definition zero_request : requestRecord := {|
  rq_Version := 0%Z;
  rq_Issuer := "";
  rq_Parameters := ∅;
  rq_TokenClaims := ∅;
  rq_DPoPJKT := "";
  rq_ExtensionSource := 0%Z;
  rq_ExpiresAt := None;
  rq_PushedAt := None;
  rq_EssentialACRValues := [];
  rq_RequiredSubject := "";
  rq_RequiredInternalSubject := "";
  rq_Resources := [];
  rq_ClientInstanceKey := "" |}.

Definition requiredSubjectForApplication (r : requestRecord) : string :=
  if bool_decide (rq_RequiredInternalSubject r = "") then rq_RequiredSubject r
  else rq_RequiredInternalSubject r.

Record refreshBinding := { rb_Thumbprint : string; rb_InstanceKey : string }.

(** A refresh token's record: without the code-exchange-only fields, bound to
    [binding] and issued at [issuedAt]. *)
Definition forRefreshToken (g : grantRecord) (binding : refreshBinding) (issuedAt : Time) : grantRecord := {|
  g_Version := g_Version g; g_Kind := grantKindRefreshToken; g_Issuer := g_Issuer g;
  g_RedirectURI := ""; g_CodeChallenge := ""; g_Nonce := ""; g_DPoPJKT := g_DPoPJKT g;
  g_Thumbprint := rb_Thumbprint binding; g_ClientInstanceKey := rb_InstanceKey binding;
  g_Subject := g_Subject g; g_ClientSubject := g_ClientSubject g;
  g_PairwiseSector := g_PairwiseSector g; g_PairwisePrefix := g_PairwisePrefix g;
  g_Scope := g_Scope g; g_AuthTime := g_AuthTime g; g_ACR := g_ACR g; g_AMR := g_AMR g;
  g_AuthorizationDetails := g_AuthorizationDetails g; g_Resources := g_Resources g;
  g_TokenClaims := g_TokenClaims g; g_RequestedIDTokenClaims := g_RequestedIDTokenClaims g;
  g_RequestedUserinfoClaims := g_RequestedUserinfoClaims g;
  g_RequestedIDTokenClaimValues := g_RequestedIDTokenClaimValues g;
  g_RequestedUserinfoClaimValues := g_RequestedUserinfoClaimValues g;
  g_IDTokenClaims := g_IDTokenClaims g; g_GrantID := g_GrantID g;
  g_CodeGrantID := g_CodeGrantID g; g_GrantType := g_GrantType g; g_IssuedAt := Some issuedAt |}.

(** [grant.CodeGrantID = id] and [grant.AuthorizationDetails = details] *)
Definition with_code_grant_id (id : string) (g : grantRecord) : grantRecord := {|
  g_Version := g_Version g; g_Kind := g_Kind g; g_Issuer := g_Issuer g;
  g_RedirectURI := g_RedirectURI g; g_CodeChallenge := g_CodeChallenge g; g_Nonce := g_Nonce g;
  g_DPoPJKT := g_DPoPJKT g; g_Thumbprint := g_Thumbprint g;
  g_ClientInstanceKey := g_ClientInstanceKey g; g_Subject := g_Subject g;
  g_ClientSubject := g_ClientSubject g; g_PairwiseSector := g_PairwiseSector g;
  g_PairwisePrefix := g_PairwisePrefix g; g_Scope := g_Scope g; g_AuthTime := g_AuthTime g;
  g_ACR := g_ACR g; g_AMR := g_AMR g; g_AuthorizationDetails := g_AuthorizationDetails g;
  g_Resources := g_Resources g; g_TokenClaims := g_TokenClaims g;
  g_RequestedIDTokenClaims := g_RequestedIDTokenClaims g;
  g_RequestedUserinfoClaims := g_RequestedUserinfoClaims g;
  g_RequestedIDTokenClaimValues := g_RequestedIDTokenClaimValues g;
  g_RequestedUserinfoClaimValues := g_RequestedUserinfoClaimValues g;
  g_IDTokenClaims := g_IDTokenClaims g; g_GrantID := g_GrantID g; g_CodeGrantID := id;
  g_GrantType := g_GrantType g; g_IssuedAt := g_IssuedAt g |}.

Definition with_details (details : RawMessage) (g : grantRecord) : grantRecord := {|
  g_Version := g_Version g; g_Kind := g_Kind g; g_Issuer := g_Issuer g;
  g_RedirectURI := g_RedirectURI g; g_CodeChallenge := g_CodeChallenge g; g_Nonce := g_Nonce g;
  g_DPoPJKT := g_DPoPJKT g; g_Thumbprint := g_Thumbprint g;
  g_ClientInstanceKey := g_ClientInstanceKey g; g_Subject := g_Subject g;
  g_ClientSubject := g_ClientSubject g; g_PairwiseSector := g_PairwiseSector g;
  g_PairwisePrefix := g_PairwisePrefix g; g_Scope := g_Scope g; g_AuthTime := g_AuthTime g;
  g_ACR := g_ACR g; g_AMR := g_AMR g; g_AuthorizationDetails := details;
  g_Resources := g_Resources g; g_TokenClaims := g_TokenClaims g;
  g_RequestedIDTokenClaims := g_RequestedIDTokenClaims g;
  g_RequestedUserinfoClaims := g_RequestedUserinfoClaims g;
  g_RequestedIDTokenClaimValues := g_RequestedIDTokenClaimValues g;
  g_RequestedUserinfoClaimValues := g_RequestedUserinfoClaimValues g;
  g_IDTokenClaims := g_IDTokenClaims g; g_GrantID := g_GrantID g;
  g_CodeGrantID := g_CodeGrantID g; g_GrantType := g_GrantType g; g_IssuedAt := g_IssuedAt g |}.

(** The version and issuer stamped on a record as it is written. *)
Definition stamped_grant (issuer : string) (g : grantRecord) : grantRecord := {|
  g_Version := recordVersion; g_Kind := g_Kind g; g_Issuer := issuer;
  g_RedirectURI := g_RedirectURI g; g_CodeChallenge := g_CodeChallenge g; g_Nonce := g_Nonce g;
  g_DPoPJKT := g_DPoPJKT g; g_Thumbprint := g_Thumbprint g;
  g_ClientInstanceKey := g_ClientInstanceKey g; g_Subject := g_Subject g;
  g_ClientSubject := g_ClientSubject g; g_PairwiseSector := g_PairwiseSector g;
  g_PairwisePrefix := g_PairwisePrefix g; g_Scope := g_Scope g; g_AuthTime := g_AuthTime g;
  g_ACR := g_ACR g; g_AMR := g_AMR g; g_AuthorizationDetails := g_AuthorizationDetails g;
  g_Resources := g_Resources g; g_TokenClaims := g_TokenClaims g;
  g_RequestedIDTokenClaims := g_RequestedIDTokenClaims g;
  g_RequestedUserinfoClaims := g_RequestedUserinfoClaims g;
  g_RequestedIDTokenClaimValues := g_RequestedIDTokenClaimValues g;
  g_RequestedUserinfoClaimValues := g_RequestedUserinfoClaimValues g;
  g_IDTokenClaims := g_IDTokenClaims g; g_GrantID := g_GrantID g;
  g_CodeGrantID := g_CodeGrantID g; g_GrantType := g_GrantType g; g_IssuedAt := g_IssuedAt g |}.

Definition stamped_request (issuer : string) (r : requestRecord) : requestRecord := {|
  rq_Version := recordVersion; rq_Issuer := issuer; rq_Parameters := rq_Parameters r;
  rq_TokenClaims := rq_TokenClaims r; rq_DPoPJKT := rq_DPoPJKT r;
  rq_ExtensionSource := rq_ExtensionSource r; rq_ExpiresAt := rq_ExpiresAt r;
  rq_PushedAt := rq_PushedAt r; rq_EssentialACRValues := rq_EssentialACRValues r;
  rq_RequiredSubject := rq_RequiredSubject r;
  rq_RequiredInternalSubject := rq_RequiredInternalSubject r; rq_Resources := rq_Resources r;
  rq_ClientInstanceKey := rq_ClientInstanceKey r |}.

(** * Reading a grant *)

Definition isKind (g : grantRecord) (kind : string) : bool :=
  if negb (bool_decide (g_Kind g = "")) then bool_decide (g_Kind g = kind)
  else negb (bool_decide (kind = grantKindAuthorizationCode)) &&
    bool_decide (g_RedirectURI g = "") && bool_decide (g_CodeChallenge g = "") &&
    bool_decide (g_Nonce g = "").

Definition clientSubject (g : grantRecord) : string :=
  if negb (bool_decide (g_ClientSubject g = "")) then g_ClientSubject g else g_Subject g.

(** The sub of an access token, and the internal subject when it differs. *)
Definition accessTokenSubjects (g : grantRecord) : string * string :=
  if bool_decide (g_ClientSubject g = "") then (g_Subject g, "")
  else (g_ClientSubject g, g_Subject g).

Definition issuedWithin (issuedAt : option Time) (lifetime : Duration) (now : Time) : bool :=
  match issuedAt with None => true | Some t => Before now (Add t lifetime) end.

(** * Access token claims *)

Definition RequestedUserinfoClaimsKey : string := "requested_userinfo_claims".
Definition RequestedUserinfoClaimValuesKey : string := "requested_userinfo_claim_values".
Definition authorizationDetailsParameter : string := "authorization_details".
Definition PairwiseSectorClaim : string := "pairwise_sector".

(** [json.Marshal] of a []string and of an Acceptable. *)
Definition marshal_strings (l : list string) : RawMessage := Raw (JArr (JStr <$> l)).
Definition marshal_values (values : Acceptable) : option RawMessage :=
  marshal_object (slice_message <$> values).

Definition withRequestedUserinfoClaims (names : list string) (values : Acceptable)
    (base : gmap string RawMessage) : option (gmap string RawMessage) :=
  if bool_decide (names = []) then Some base
  else
    let merged := <[RequestedUserinfoClaimsKey := marshal_strings names]> base in
    if bool_decide (values = ∅) then Some merged
    else (λ encoded, <[RequestedUserinfoClaimValuesKey := encoded]> merged) <$>
      marshal_values values.

Definition withAuthorizationDetails (details : RawMessage) (base : gmap string RawMessage)
    : gmap string RawMessage :=
  if raw_empty details then base
  else <[authorizationDetailsParameter := details]> base.

Definition withManagedClaim (claims : gmap string RawMessage) (name value : string)
    : gmap string RawMessage :=
  if bool_decide (value = "") then claims else claims ∪ {[name := Raw (JStr value)]}.

Definition accessTokenClaims (g : grantRecord) : option (gmap string RawMessage) :=
  withRequestedUserinfoClaims (g_RequestedUserinfoClaims g) (g_RequestedUserinfoClaimValues g)
    (g_TokenClaims g) ≫= λ claims,
  let claims := withAuthorizationDetails (g_AuthorizationDetails g) claims in
  let claims := withManagedClaim claims Claim (g_GrantID g) in
  let claims := withManagedClaim claims CodeClaim (g_CodeGrantID g) in
  Some (if negb (bool_decide (g_ClientSubject g = ""))
        then withManagedClaim claims PairwiseSectorClaim (g_PairwiseSector g) else claims).

(** * Writing records *)

Definition requireUTF8 (values : list string) : bool := forallb ValidString values.
Definition requireUTF8Keys (maps : list (gmap string RawMessage)) : bool :=
  forallb (λ m, requireUTF8 (map_to_list m).*1) maps.

Definition grant_fields (g : grantRecord) : list (string * option (option json)) := [
  ("v", enc_int (g_Version g));
  ("kind", enc_str_omit (g_Kind g));
  ("iss", enc_str_omit (g_Issuer g));
  ("redirect_uri", enc_str_omit (g_RedirectURI g));
  ("code_challenge", enc_str_omit (g_CodeChallenge g));
  ("nonce", enc_str_omit (g_Nonce g));
  ("dpop_jkt", enc_str_omit (g_DPoPJKT g));
  ("thumbprint", enc_str_omit (g_Thumbprint g));
  ("client_instance_jkt", enc_str_omit (g_ClientInstanceKey g));
  ("sub", enc_str (g_Subject g));
  ("client_sub", enc_str_omit (g_ClientSubject g));
  ("pairwise_sector", enc_str_omit (g_PairwiseSector g));
  ("pairwise_prefix", enc_str_omit (g_PairwisePrefix g));
  ("scope", enc_strs_omit (g_Scope g));
  ("auth_time", enc_time (g_AuthTime g));
  ("acr", enc_str_omit (g_ACR g));
  ("amr", enc_strs_omit (g_AMR g));
  ("authorization_details", enc_raw_omit (g_AuthorizationDetails g));
  ("resources", enc_strs_omit (g_Resources g));
  ("token_claims", enc_map_omit (g_TokenClaims g));
  ("requested_id_token_claims", enc_strs_omit (g_RequestedIDTokenClaims g));
  ("requested_userinfo_claims", enc_strs_omit (g_RequestedUserinfoClaims g));
  ("requested_id_token_claim_values", enc_values_omit (g_RequestedIDTokenClaimValues g));
  ("requested_userinfo_claim_values", enc_values_omit (g_RequestedUserinfoClaimValues g));
  ("id_token_claims", enc_map_omit (g_IDTokenClaims g));
  ("grant_id", enc_str_omit (g_GrantID g));
  ("code_grant_id", enc_str_omit (g_CodeGrantID g));
  ("grant_type", enc_str_omit (g_GrantType g));
  ("issued_at", enc_time_opt (g_IssuedAt g))].

Definition request_fields (r : requestRecord) : list (string * option (option json)) := [
  ("v", enc_int (rq_Version r));
  ("iss", enc_str_omit (rq_Issuer r));
  ("parameters", enc_map (rq_Parameters r));
  ("token_claims", enc_map_omit (rq_TokenClaims r));
  ("dpop_jkt", enc_str_omit (rq_DPoPJKT r));
  ("extension_source", enc_int_omit (rq_ExtensionSource r));
  ("expires_at", enc_time_opt (rq_ExpiresAt r));
  ("pushed_at", enc_time_opt (rq_PushedAt r));
  ("essential_acr_values", enc_strs_omit (rq_EssentialACRValues r));
  ("required_subject", enc_str_omit (rq_RequiredSubject r));
  ("required_internal_subject", enc_str_omit (rq_RequiredInternalSubject r));
  ("resources", enc_strs_omit (rq_Resources r));
  ("client_instance_jkt", enc_str_omit (rq_ClientInstanceKey r))].

Definition marshal_record (fields : list (string * option (option json))) : option RawMessage :=
  (λ l, Raw (JObj l)) <$> encode_members fields.

(** The package functions encodeRequestRecord and encodeGrantRecord on a
    record the methods of the same names have stamped with [issuer]. *)
Definition encodeRequestRecord (issuer : string) (r : requestRecord) : option RawMessage :=
  let r := stamped_request issuer r in
  if requireUTF8 [rq_DPoPJKT r; rq_ClientInstanceKey r] &&
     requireUTF8Keys [rq_Parameters r; rq_TokenClaims r]
  then marshal_record (request_fields r) else None.

Definition encodeGrantRecord (issuer : string) (g : grantRecord) : option RawMessage :=
  let g := stamped_grant issuer g in
  let strs := [g_RedirectURI g; g_CodeChallenge g; g_Nonce g; g_DPoPJKT g; g_Thumbprint g;
    g_Subject g; g_ClientSubject g; g_PairwiseSector g; g_ACR g] ++
    g_Scope g ++ g_AMR g ++ g_RequestedIDTokenClaims g ++ g_RequestedUserinfoClaims g in
  if requireUTF8 strs && requireUTF8Keys [g_TokenClaims g; g_IDTokenClaims g]
  then marshal_record (grant_fields g) else None.

(** * Reading records *)

(** errForeignRecord, and every other failure. *)
Inductive record_error := ErrForeignRecord | ErrRecord.

Definition ownsRecord (configured issuer : string) : bool :=
  negb (bool_decide (issuer = "")) && bool_decide (issuer = configured).

Definition grant_names : list string :=
  ["v"; "kind"; "iss"; "redirect_uri"; "code_challenge"; "nonce"; "dpop_jkt"; "thumbprint";
   "client_instance_jkt"; "sub"; "client_sub"; "pairwise_sector"; "pairwise_prefix"; "scope";
   "auth_time"; "acr"; "amr"; "authorization_details"; "resources"; "token_claims";
   "requested_id_token_claims"; "requested_userinfo_claims"; "requested_id_token_claim_values";
   "requested_userinfo_claim_values"; "id_token_claims"; "grant_id"; "code_grant_id";
   "grant_type"; "issued_at"].

Definition request_names : list string :=
  ["v"; "iss"; "parameters"; "token_claims"; "dpop_jkt"; "extension_source"; "expires_at";
   "pushed_at"; "essential_acr_values"; "required_subject"; "required_internal_subject";
   "resources"; "client_instance_jkt"].

Section decoding.
Context `{Platform}.

(** [json.Unmarshal] into a grantRecord and a requestRecord. *)
Definition unmarshal_grant (members : list (string * json)) : option grantRecord :=
  get grant_names "v" dec_int 0%Z members ≫= λ Version,
  get grant_names "kind" dec_str "" members ≫= λ Kind,
  get grant_names "iss" dec_str "" members ≫= λ Issuer,
  get grant_names "redirect_uri" dec_str "" members ≫= λ RedirectURI,
  get grant_names "code_challenge" dec_str "" members ≫= λ CodeChallenge,
  get grant_names "nonce" dec_str "" members ≫= λ Nonce,
  get grant_names "dpop_jkt" dec_str "" members ≫= λ DPoPJKT,
  get grant_names "thumbprint" dec_str "" members ≫= λ Thumbprint,
  get grant_names "client_instance_jkt" dec_str "" members ≫= λ ClientInstanceKey,
  get grant_names "sub" dec_str "" members ≫= λ Subject,
  get grant_names "client_sub" dec_str "" members ≫= λ ClientSubject,
  get grant_names "pairwise_sector" dec_str "" members ≫= λ PairwiseSector,
  get grant_names "pairwise_prefix" dec_str "" members ≫= λ PairwisePrefix,
  get grant_names "scope" dec_strs [] members ≫= λ Scope,
  get grant_names "auth_time" dec_time zero_time members ≫= λ AuthTime,
  get grant_names "acr" dec_str "" members ≫= λ ACR,
  get grant_names "amr" dec_strs [] members ≫= λ AMR,
  get grant_names "authorization_details" dec_raw RawNil members ≫= λ AuthorizationDetails,
  get grant_names "resources" dec_strs [] members ≫= λ Resources,
  get grant_names "token_claims" dec_map ∅ members ≫= λ TokenClaims,
  get grant_names "requested_id_token_claims" dec_strs [] members ≫= λ RequestedIDTokenClaims,
  get grant_names "requested_userinfo_claims" dec_strs [] members ≫= λ RequestedUserinfoClaims,
  get grant_names "requested_id_token_claim_values" dec_values ∅ members ≫= λ RequestedIDTokenClaimValues,
  get grant_names "requested_userinfo_claim_values" dec_values ∅ members ≫= λ RequestedUserinfoClaimValues,
  get grant_names "id_token_claims" dec_map ∅ members ≫= λ IDTokenClaims,
  get grant_names "grant_id" dec_str "" members ≫= λ GrantID,
  get grant_names "code_grant_id" dec_str "" members ≫= λ CodeGrantID,
  get grant_names "grant_type" dec_str "" members ≫= λ GrantType,
  get grant_names "issued_at" dec_time_opt None members ≫= λ IssuedAt,
  Some {|
    g_Version := Version; g_Kind := Kind; g_Issuer := Issuer; g_RedirectURI := RedirectURI;
    g_CodeChallenge := CodeChallenge; g_Nonce := Nonce; g_DPoPJKT := DPoPJKT;
    g_Thumbprint := Thumbprint; g_ClientInstanceKey := ClientInstanceKey; g_Subject := Subject;
    g_ClientSubject := ClientSubject; g_PairwiseSector := PairwiseSector;
    g_PairwisePrefix := PairwisePrefix; g_Scope := Scope; g_AuthTime := AuthTime; g_ACR := ACR;
    g_AMR := AMR; g_AuthorizationDetails := AuthorizationDetails; g_Resources := Resources;
    g_TokenClaims := TokenClaims; g_RequestedIDTokenClaims := RequestedIDTokenClaims;
    g_RequestedUserinfoClaims := RequestedUserinfoClaims;
    g_RequestedIDTokenClaimValues := RequestedIDTokenClaimValues;
    g_RequestedUserinfoClaimValues := RequestedUserinfoClaimValues;
    g_IDTokenClaims := IDTokenClaims; g_GrantID := GrantID; g_CodeGrantID := CodeGrantID;
    g_GrantType := GrantType; g_IssuedAt := IssuedAt |}.

Definition unmarshal_request (members : list (string * json)) : option requestRecord :=
  get request_names "v" dec_int 0%Z members ≫= λ Version,
  get request_names "iss" dec_str "" members ≫= λ Issuer,
  get request_names "parameters" dec_map ∅ members ≫= λ Parameters,
  get request_names "token_claims" dec_map ∅ members ≫= λ TokenClaims,
  get request_names "dpop_jkt" dec_str "" members ≫= λ DPoPJKT,
  get request_names "extension_source" dec_int 0%Z members ≫= λ ExtensionSource,
  get request_names "expires_at" dec_time_opt None members ≫= λ ExpiresAt,
  get request_names "pushed_at" dec_time_opt None members ≫= λ PushedAt,
  get request_names "essential_acr_values" dec_strs [] members ≫= λ EssentialACRValues,
  get request_names "required_subject" dec_str "" members ≫= λ RequiredSubject,
  get request_names "required_internal_subject" dec_str "" members ≫= λ RequiredInternalSubject,
  get request_names "resources" dec_strs [] members ≫= λ Resources,
  get request_names "client_instance_jkt" dec_str "" members ≫= λ ClientInstanceKey,
  Some {|
    rq_Version := Version; rq_Issuer := Issuer; rq_Parameters := Parameters;
    rq_TokenClaims := TokenClaims; rq_DPoPJKT := DPoPJKT; rq_ExtensionSource := ExtensionSource;
    rq_ExpiresAt := ExpiresAt; rq_PushedAt := PushedAt;
    rq_EssentialACRValues := EssentialACRValues; rq_RequiredSubject := RequiredSubject;
    rq_RequiredInternalSubject := RequiredInternalSubject; rq_Resources := Resources;
    rq_ClientInstanceKey := ClientInstanceKey |}.

(** decodeRecord: the text must be a record of this version. JSON null leaves
    the record, and its version, zero. *)
Definition decodeRecord {A} (unmarshal : list (string * json) → option A) (version : A → Z)
    (raw : RawMessage) : option A :=
  match raw with
  | Raw (JObj members) =>
    unmarshal members ≫= λ r, if bool_decide (version r = recordVersion) then Some r else None
  | _ => None
  end.

Definition decodeRequestRecord : RawMessage → option requestRecord :=
  decodeRecord unmarshal_request rq_Version.
Definition decodeGrantRecord : RawMessage → option grantRecord :=
  decodeRecord unmarshal_grant g_Version.

Definition decodeOwnRequestRecord (configured : string) (raw : RawMessage)
    : result record_error requestRecord :=
  match decodeRequestRecord raw with
  | None => Err ErrRecord
  | Some r => if ownsRecord configured (rq_Issuer r) then Ok r else Err ErrForeignRecord
  end.

Definition decodeOwnGrantRecord (configured : string) (raw : RawMessage)
    : result record_error grantRecord :=
  match decodeGrantRecord raw with
  | None => Err ErrRecord
  | Some g => if ownsRecord configured (g_Issuer g) then Ok g else Err ErrForeignRecord
  end.
End decoding.

(** The issuer an opaque access token's record keeps. *)
Definition IssuerRecordClaim : string := "iss".

Definition ownsAccessTokenRecord (configured : string) (claims : gmap string RawMessage) : bool :=
  match unmarshal_string (default RawNil (claims !! IssuerRecordClaim)) with
  | Some issuer => ownsRecord configured issuer
  | None => false
  end.

Definition recordFailure (err : record_error) (unknown : Error) (what : string) : Error :=
  match err with
  | ErrForeignRecord => unknown
  | ErrRecord => newError ErrorServerError 500 ("failed to decode " +:+ what)
  end.

(** * Round trip *)

(** What a stored claims map holds: JSON values. *)
Definition grant_claims_ok (g : grantRecord) : Prop :=
  map_Forall (λ _, raw_ok) (g_TokenClaims g) ∧ map_Forall (λ _, raw_ok) (g_IDTokenClaims g) ∧
  map_Forall (λ _, Forall raw_ok) (g_RequestedIDTokenClaimValues g) ∧
  map_Forall (λ _, Forall raw_ok) (g_RequestedUserinfoClaimValues g).

Definition request_claims_ok (r : requestRecord) : Prop :=
  map_Forall (λ _, raw_ok) (rq_Parameters r) ∧ map_Forall (λ _, raw_ok) (rq_TokenClaims r).

(** One field of a record just written reads back. *)
Ltac read_field fields Hnd Hm :=
  match goal with
  | |- context [get _ ?name ?dec ?old ?members] =>
    let Hf := fresh "Hf" in
    eassert (Hf : (name, _) ∈ fields) by
      (repeat first [apply elem_of_cons; left; reflexivity | apply elem_of_cons; right]);
    erewrite (get_encoded fields members name _ dec old _ Hnd Hm Hf);
    [ rewrite some_bind; clear Hf
    | solve [eauto 3 using enc_int_dec, enc_int_omit_dec, enc_str_dec, enc_str_omit_dec,
        enc_strs_omit_dec, enc_raw_omit_dec, enc_time_dec, enc_time_opt_dec, enc_map_dec,
        enc_map_omit_dec, enc_values_omit_dec]
    | solve [ auto using enc_int_omit_none, enc_str_omit_none, enc_strs_omit_none,
        enc_raw_omit_none, enc_time_opt_none, enc_map_omit_none, enc_values_omit_none
      | discriminate
      | intros Hnone; exfalso; first [by apply enc_time_never_none in Hnone
                                     |by apply enc_map_never_none in Hnone] ] ]
  end.

Section roundtrip.
Context `{Platform}.

Lemma unmarshal_grant_fields g members :
  grant_claims_ok g → encode_members (grant_fields g) = Some members →
  unmarshal_grant members = Some g.
Proof.
  intros (Ht & Hi & Hvi & Hvu) Hm.
  assert (Hnd : NoDup (grant_fields g).*1) by (apply (bool_decide_unpack _); by vm_compute).
  unfold unmarshal_grant. change grant_names with ((grant_fields g).*1).
  repeat read_field (grant_fields g) Hnd Hm.
  by destruct g.
Qed.

Lemma unmarshal_request_fields r members :
  request_claims_ok r → encode_members (request_fields r) = Some members →
  unmarshal_request members = Some r.
Proof.
  intros (Hp & Ht) Hm.
  assert (Hnd : NoDup (request_fields r).*1) by (apply (bool_decide_unpack _); by vm_compute).
  unfold unmarshal_request. change request_names with ((request_fields r).*1).
  repeat read_field (request_fields r) Hnd Hm.
  by destruct r.
Qed.

Lemma decode_encoded_grant issuer g raw :
  encodeGrantRecord issuer g = Some raw → grant_claims_ok g →
  decodeGrantRecord raw = Some (stamped_grant issuer g).
Proof.
  unfold encodeGrantRecord, marshal_record. intros Henc Hok.
  destruct (_ && _); [|done]. apply fmap_Some in Henc as (members & Hm & ->).
  unfold decodeGrantRecord, decodeRecord.
  by rewrite (unmarshal_grant_fields (stamped_grant issuer g) members Hok Hm).
Qed.

Lemma decode_encoded_request issuer r raw :
  encodeRequestRecord issuer r = Some raw → request_claims_ok r →
  decodeRequestRecord raw = Some (stamped_request issuer r).
Proof.
  unfold encodeRequestRecord, marshal_record. intros Henc Hok.
  destruct (_ && _); [|done]. apply fmap_Some in Henc as (members & Hm & ->).
  unfold decodeRequestRecord, decodeRecord.
  by rewrite (unmarshal_request_fields (stamped_request issuer r) members Hok Hm).
Qed.
End roundtrip.

Section theorems.
Context `{Platform}.

(** What is stored is what is redeemed. A grant record the server writes
    decodes at a server of the same issuer to exactly the grant it wrote,
    stamped with the version and issuer, and at a server of any other issuer
    to errForeignRecord. *)
Theorem grant_record_roundtrip issuer configured g raw :
  encodeGrantRecord issuer g = Some raw → grant_claims_ok g →
  decodeOwnGrantRecord configured raw =
    if ownsRecord configured issuer then Ok (stamped_grant issuer g) else Err ErrForeignRecord.
Proof.
  intros Henc Hok. unfold decodeOwnGrantRecord. by rewrite (decode_encoded_grant _ _ _ Henc Hok).
Qed.

(** The same for the record of a pushed authorization request or a CIBA
    request. *)
Theorem request_record_roundtrip issuer configured r raw :
  encodeRequestRecord issuer r = Some raw → request_claims_ok r →
  decodeOwnRequestRecord configured raw =
    if ownsRecord configured issuer then Ok (stamped_request issuer r) else Err ErrForeignRecord.
Proof.
  intros Henc Hok. unfold decodeOwnRequestRecord. by rewrite (decode_encoded_request _ _ _ Henc Hok).
Qed.
End theorems.

(** * The theorems on concrete records *)

Definition example_grant : grantRecord := {|
  g_Version := 0%Z; g_Kind := grantKindAuthorizationCode; g_Issuer := "";
  g_RedirectURI := "https://rp/cb"; g_CodeChallenge := "c"; g_Nonce := "n"; g_DPoPJKT := "";
  g_Thumbprint := ""; g_ClientInstanceKey := ""; g_Subject := "alice"; g_ClientSubject := "";
  g_PairwiseSector := ""; g_PairwisePrefix := ""; g_Scope := ["openid"; "offline_access"];
  g_AuthTime := (1700000000 * Second + 5)%Z; g_ACR := ""; g_AMR := [];
  g_AuthorizationDetails := Raw (JArr []); g_Resources := [];
  g_TokenClaims := {["tenant" := Raw (JStr "t1")]}; g_RequestedIDTokenClaims := ["email"];
  g_RequestedUserinfoClaims := [];
  g_RequestedIDTokenClaimValues := {["acr" := [Raw (JStr "1")]]};
  g_RequestedUserinfoClaimValues := ∅; g_IDTokenClaims := ∅; g_GrantID := "";
  g_CodeGrantID := ""; g_GrantType := "authorization_code";
  g_IssuedAt := Some (1700000001 * Second)%Z |}.

Definition example_stored_request : requestRecord := {|
  rq_Version := 0%Z; rq_Issuer := ""; rq_Parameters := {["scope" := Raw (JStr "openid")]};
  rq_TokenClaims := ∅; rq_DPoPJKT := "jkt"; rq_ExtensionSource := 1%Z;
  rq_ExpiresAt := Some (1700000001 * Second)%Z; rq_PushedAt := None;
  rq_EssentialACRValues := []; rq_RequiredSubject := ""; rq_RequiredInternalSubject := "";
  rq_Resources := []; rq_ClientInstanceKey := "" |}.

Lemma example_grant_ok : grant_claims_ok example_grant.
Proof.
  split_and!; intros k v; cbn [g_TokenClaims g_IDTokenClaims g_RequestedIDTokenClaimValues
    g_RequestedUserinfoClaimValues example_grant]; rewrite ?lookup_empty; try done;
    intros [<- <-]%lookup_singleton_Some; [|constructor; [|constructor]]; by eexists.
Qed.

Lemma example_stored_request_ok : request_claims_ok example_stored_request.
Proof.
  split; intros k v; cbn [rq_Parameters rq_TokenClaims example_stored_request];
    rewrite ?lookup_empty; try done. intros [<- <-]%lookup_singleton_Some. by eexists.
Qed.

Definition example_grant_raw : RawMessage :=
  default RawNil (encodeGrantRecord "https://op" example_grant).
Definition example_request_raw : RawMessage :=
  default RawNil (encodeRequestRecord "https://op" example_stored_request).

Lemma grant_record_roundtrip_witness :
  @decodeOwnGrantRecord example_platform "https://op" example_grant_raw =
    Ok (stamped_grant "https://op" example_grant).
Proof.
  refine (@grant_record_roundtrip example_platform "https://op" "https://op" example_grant
    example_grant_raw _ example_grant_ok).
  vm_compute. reflexivity.
Defined.

Lemma request_record_roundtrip_witness :
  @decodeOwnRequestRecord example_platform "https://other" example_request_raw =
    Err ErrForeignRecord.
Proof.
  refine (@request_record_roundtrip example_platform "https://op" "https://other"
    example_stored_request example_request_raw _ example_stored_request_ok).
  vm_compute. reflexivity.
Defined.
