(* ===== verification/Claims.v ===== *)
(** What a token may claim: the reserved claim names of
    src/internal/claimnames/claimnames.go, and the equality and the value
    constraints of src/internal/claimvalues/claimvalues.go, applied by
    withIdentityClaims (src/server/token.go) and claimsSize
    (src/server/granted_id_token_claims.go). *)
From S2P Require Import Prelude GoStrings Json Platform JsonCodec.
From stdpp Require Import options.

(** * Reserved names *)

Inductive Kind := IDToken | AccessToken | UserInfo.
Inductive Source := Embedder | ClientSource.

#[export] Instance source_eq_dec : EqDecision Source.
Proof. solve_decision. Defined.

Definition setByIssuer (kind : Kind) : list string :=
  match kind with
  | IDToken => ["iss"; "sub"; "aud"; "exp"; "iat"; "nonce"; "auth_time"; "acr"; "amr"; "at_hash"]
  | AccessToken => ["iss"; "sub"; "aud"; "client_id"; "scope"; "exp"; "iat"; "jti"; "cnf"]
  | UserInfo => ["iss"; "aud"]
  end.

Definition processingClaims : list string :=
  ["_claim_names"; "_claim_sources"; "sub_jwk"; "events"].
Definition idTokenBindingClaims : list string := ["azp"; "nonce"; "at_hash"; "c_hash"; "s_hash"].
Definition tokenMetadataClaims : list string := ["jti"; "nbf"; "cnf"].
Definition authorizationResponseClaims : list string := ["code"; "state"; "error"].
Definition authorityClaims : list string :=
  ["roles"; "groups"; "entitlements"; "act"; "may_act"; "authorization_details"].
Definition standardClaims : list string :=
  ["name"; "given_name"; "family_name"; "middle_name"; "nickname";
   "preferred_username"; "profile"; "picture"; "website"; "email";
   "email_verified"; "gender"; "birthdate"; "zoneinfo"; "locale";
   "phone_number"; "phone_number_verified"; "address"; "updated_at"].

Definition listed (names : list string) (name : string) : bool := bool_decide (name ∈ names).

Definition Reserved (kind : Kind) (source : Source) (name : string) : bool :=
  if listed (setByIssuer kind) name || listed processingClaims name then true
  else if
    match kind with
    | IDToken => listed idTokenBindingClaims name || listed tokenMetadataClaims name ||
                 listed authorizationResponseClaims name
    | UserInfo => listed idTokenBindingClaims name || listed authorizationResponseClaims name
    | AccessToken => false
    end
  then true
  else bool_decide (source = ClientSource) &&
    (listed authorityClaims name || listed standardClaims name).

Definition ReservedInTokens (source : Source) (name : string) : bool :=
  Reserved IDToken source name || Reserved AccessToken source name.

Definition isServerManagedIDTokenClaim (name : string) : bool := Reserved IDToken Embedder name.

(** * Equality of requested values *)

(** A decoded number: significant digits without trailing zeros, zero with
    no sign and exponent 0. *)
Fixpoint strip_zeros (fuel : nat) (digits exp : Z) : Z * Z :=
  match fuel with
  | O => (digits, exp)
  | S fuel =>
    if bool_decide (digits mod 10 = 0)%Z then strip_zeros fuel (digits / 10) (exp + 1)
    else (digits, exp)
  end.

Definition canonicalNumber (n : number) : number :=
  if bool_decide (num_digits n = 0)%Z then Number false 0 0
  else
    let '(d, e) := strip_zeros (Z.to_nat (Z.log2 (num_digits n))) (num_digits n) (num_exp n) in
    Number (num_neg n) d e.

#[export] Instance number_eq_dec : EqDecision number.
Proof. solve_decision. Defined.

Definition equalNumbers (a b : number) : bool :=
  bool_decide (canonicalNumber a = canonicalNumber b).

(** Decoding: maps in ascending key order, numbers kept as their text. *)
Fixpoint decode (j : json) : json :=
  match j with
  | JArr l => JArr (decode <$> l)
  | JObj l => JObj (sort_members ((λ p, (p.1, decode p.2)) <$> l))
  | _ => j
  end.

Fixpoint equalValues (a b : json) : bool :=
  match a, b with
  | JNull, JNull => true
  | JBool x, JBool y => Bool.eqb x y
  | JNum x, JNum y => equalNumbers x y
  | JStr x, JStr y => bool_decide (x = y)
  | JArr l, JArr k => eqb_list equalValues l k
  | JObj l, JObj k => eqb_list (λ p q, bool_decide (p.1 = q.1) && equalValues p.2 q.2) l k
  | _, _ => false
  end.

Definition Equal (a b : RawMessage) : bool :=
  match a, b with
  | Raw a, Raw b => equalValues (decode a) (decode b)
  | _, _ => false
  end.

Definition Allows (a : Acceptable) (name : string) (value : RawMessage) : bool :=
  match a !! name with
  | None => true
  | Some acceptable => existsb (λ v, Equal v value) acceptable
  end.

(** The constraint one claim's entry in a claims location places on it;
    [None] when it places none. *)
Definition FromRequest (request : RawMessage) : option (list RawMessage) :=
  match request with
  | Raw (JObj _) =>
    match unmarshal_object request with
    | None => None
    | Some members =>
      match members !! "value", members !! "values" with
      | None, None => None
      | Some value, None => Some [value]
      | value, Some valuesRaw =>
        match unmarshal_slice valuesRaw with
        | None => Some []
        | Some values =>
          Some (filter (λ v, match value with Some x => Is_true (Equal v x) | None => True end)
                  (Raw <$> values))
        end
      end
    end
  | _ => None
  end.

(** * Identity claims *)

(** withIdentityClaims once [identity] was resolved for [names]. *)
Definition merge_identity (identity : gmap string RawMessage) (names : list string)
    (values : Acceptable) (base : gmap string RawMessage) : gmap string RawMessage :=
  filter (λ p, Is_true (listed names p.1 && negb (isServerManagedIDTokenClaim p.1) &&
                        Allows values p.1 p.2)) identity ∪ base.

Section size.
Context `{Platform}.

Definition claimsSize (claims : gmap string RawMessage) : Z :=
  Z.of_nat (map_fold (λ name value n, String.length name + raw_length value + n) 0 claims).
End size.

(** * Numbers compare by value *)

(** The value of a number scaled by [10^-m], for [m] at most its exponent. *)
Definition scaled_value (n : number) (m : Z) : Z :=
  ((if num_neg n then -1 else 1) * num_digits n * 10 ^ (num_exp n - m))%Z.

Definition canonical (n : number) : Prop :=
  (0 ≤ num_digits n)%Z ∧
  (num_digits n = 0%Z → num_neg n = false ∧ num_exp n = 0%Z) ∧
  (num_digits n ≠ 0 → num_digits n mod 10 ≠ 0)%Z.

Lemma strip_zeros_spec fuel : ∀ digits exp,
  (0 < digits < 2 ^ (Z.of_nat fuel + 1))%Z →
  let '(d, e) := strip_zeros fuel digits exp in
  (0 < d ∧ d mod 10 ≠ 0 ∧ exp ≤ e ∧ digits = d * 10 ^ (e - exp))%Z.
Proof.
  induction fuel as [|fuel IH]; intros digits exp Hd; cbn [strip_zeros].
  - replace digits with 1%Z by (change (2 ^ (Z.of_nat 0 + 1))%Z with 2%Z in Hd; lia).
    rewrite Z.sub_diag. split_and!; done.
  - case_bool_decide as H0.
    + apply Z.div_exact in H0; [|lia]. set (q := (digits / 10)%Z) in *.
      rewrite Nat2Z.inj_succ in Hd. replace (Z.succ (Z.of_nat fuel) + 1)%Z
        with (1 + (Z.of_nat fuel + 1))%Z in Hd by lia. rewrite Z.pow_add_r in Hd by lia.
      specialize (IH q (exp + 1)%Z). destruct (strip_zeros fuel q (exp + 1)) as [d e].
      destruct IH as (Hpos & Hmod & Hle & Hq); [change (2 ^ 1)%Z with 2%Z in Hd; lia|].
      split_and!; [done|done|lia|]. rewrite H0, Hq.
      replace (e - exp)%Z with (1 + (e - (exp + 1)))%Z by lia. rewrite Z.pow_add_r by lia. lia.
    + rewrite Z.sub_diag. split_and!; try done; lia.
Qed.

Lemma canonicalNumber_spec n m :
  (0 ≤ num_digits n)%Z → (m ≤ num_exp n)%Z → (m ≤ 0)%Z →
  canonical (canonicalNumber n) ∧ (m ≤ num_exp (canonicalNumber n))%Z ∧
  scaled_value (canonicalNumber n) m = scaled_value n m.
Proof.
  intros Hd Hm Hm0. unfold canonicalNumber, scaled_value. destruct n as [neg digits exp].
  cbn [num_neg num_digits num_exp] in *. case_bool_decide as H0.
  - subst. split_and!; simpl; try done; lia.
  - pose proof (strip_zeros_spec (Z.to_nat (Z.log2 digits)) digits exp) as Hs.
    destruct (strip_zeros _ _ _) as [d e]. destruct Hs as (Hpos & Hmod & Hle & Hdig).
    { pose proof (Z.log2_spec digits ltac:(lia)). pose proof (Z.log2_nonneg digits).
      rewrite Z2Nat.id by done. rewrite Z.add_1_r. lia. }
    cbn [num_neg num_digits num_exp]. split; [|split; [lia|]].
    + split; [simpl; lia|]. cbn [num_neg num_digits num_exp]. split; [lia|done].
    + rewrite Hdig. rewrite <-!Z.mul_assoc, <-Z.pow_add_r by lia.
      by replace (e - exp + (exp - m))%Z with (e - m)%Z by lia.
Qed.

Lemma canonical_unique a b m :
  canonical a → canonical b → (m ≤ num_exp a)%Z → (m ≤ num_exp b)%Z →
  scaled_value a m = scaled_value b m → a = b.
Proof.
  destruct a as [na da ea], b as [nb db eb]. unfold canonical, scaled_value.
  cbn [num_neg num_digits num_exp]. intros (Ha & Ha0 & Ha1) (Hb & Hb0 & Hb1) Hma Hmb Heq.
  assert (Hpa : (0 < 10 ^ (ea - m))%Z) by (apply Z.pow_pos_nonneg; lia).
  assert (Hpb : (0 < 10 ^ (eb - m))%Z) by (apply Z.pow_pos_nonneg; lia).
  assert (Hsign : ∀ neg : bool, ((if neg then -1 else 1) = 1 ∨ (if neg then -1 else 1) = -1)%Z)
    by (intros []; lia).
  destruct (decide (da = 0%Z)) as [->|Hda].
  { destruct (Ha0 eq_refl) as [-> ->].
    assert (db = 0%Z) by (destruct (Hsign nb) as [Hn|Hn]; rewrite Hn in Heq; nia).
    subst. by destruct (Hb0 eq_refl) as [-> ->]. }
  destruct (decide (db = 0%Z)) as [->|Hdb].
  { destruct (Hsign na) as [Hn|Hn]; rewrite Hn in Heq; nia. }
  assert (Hneg : na = nb) by (destruct na, nb; try done; nia).
  assert (Habs : (da * 10 ^ (ea - m) = db * 10 ^ (eb - m))%Z) by (destruct na, nb; nia).
  assert (Hexp : ∀ x y dx dy, (m ≤ x)%Z → (m ≤ y)%Z → (dx mod 10 ≠ 0)%Z →
    (dx * 10 ^ (x - m) = dy * 10 ^ (y - m))%Z → ¬ (x < y)%Z).
  { intros x y dx dy Hx Hy Hmod H Hlt. apply Hmod.
    replace (y - m)%Z with ((y - x - 1) + 1 + (x - m))%Z in H by lia.
    rewrite !Z.pow_add_r in H by lia.
    assert (0 < 10 ^ (x - m))%Z by (apply Z.pow_pos_nonneg; lia).
    assert (dx = dy * 10 ^ (y - x - 1) * 10)%Z as -> by (change (10 ^ 1)%Z with 10%Z in H; nia).
    by apply Z.mod_mul. }
  assert (ea = eb) as ->.
  { pose proof (Hexp ea eb da db Hma Hmb (Ha1 Hda) Habs).
    pose proof (Hexp eb ea db da Hmb Hma (Hb1 Hdb) (eq_sym Habs)). lia. }
  f_equal; [done|nia].
Qed.

(** Two numbers of a claims request are equal exactly when they denote
    the same value, however they are spelled and however large: no rounding
    to a float64, which would equate integers above 2^53. *)
Theorem equalNumbers_exact a b m :
  (0 ≤ num_digits a)%Z → (0 ≤ num_digits b)%Z →
  (m ≤ num_exp a)%Z → (m ≤ num_exp b)%Z → (m ≤ 0)%Z →
  equalNumbers a b = true ↔ scaled_value a m = scaled_value b m.
Proof.
  intros Ha Hb Hma Hmb Hm. unfold equalNumbers. rewrite bool_decide_eq_true.
  destruct (canonicalNumber_spec a m Ha Hma Hm) as (Hca & Hea & Hva).
  destruct (canonicalNumber_spec b m Hb Hmb Hm) as (Hcb & Heb & Hvb).
  rewrite <-Hva, <-Hvb. split; [by intros ->|]. by apply canonical_unique.
Qed.

Lemma equalNumbers_exact_witness :
  equalNumbers (Number false 100 0) (Number false 1 2) = true ↔
  scaled_value (Number false 100 0) 0 = scaled_value (Number false 1 2) 0.
Proof.
  refine (equalNumbers_exact (Number false 100 0) (Number false 1 2) 0 _ _ _ _ _);
    vm_compute; discriminate.
Defined.

(** What merge_identity releases. *)
Lemma merge_identity_lookup identity names values base name v :
  merge_identity identity names values base !! name = Some v →
  base !! name = Some v ∨
  (name ∈ names ∧ isServerManagedIDTokenClaim name = false ∧
   Allows values name v = true ∧ identity !! name = Some v).
Proof.
  unfold merge_identity. intros [Hf|[_ Hb]]%lookup_union_Some_raw; [|by left].
  apply map_lookup_filter_Some in Hf as [Hi Hf]. right. simpl in Hf.
  rewrite !andb_True in Hf. destruct Hf as [[Hn Hm] Ha].
  apply bool_decide_unpack in Hn. apply Is_true_true in Ha.
  apply Is_true_true, negb_true_iff in Hm. done.
Qed.
