(* ===== verification/Dpop.v ===== *)
(** DPoP proof verification: src/internal/dpop/verify.go, proof.go and
    header.go, with the replay namespace of src/server/replay.go.

    Parsing a compact JWS and checking its signature (src/internal/jose),
    strict decoding of the claims (src/internal/strictjson) and URL
    canonicalization (src/internal/canonical/uri.go) are operations of the
    class DpopCrypto, which every theorem is quantified over. *)
From stdpp Require Import relations.
From S2P Require Import Prelude GoStrings Json GoTime Sha256 Base64 Digests Platform.
From S2P Require Import Effects Storage MemStore MemTheorems.
From stdpp Require Import options.

(** * Header values *)

(** [None] when the request carried more than one. *)
Definition ResolveHeaderValues (values : list string) : option string :=
  match values with
  | [] => Some ""
  | [proof] => Some proof
  | _ => None
  end.

(** jose.TypeIs *)
Definition mediaType (typ : string) : string :=
  let typ := LowerASCII typ in
  if negb (contains_byte typ "/") then "application/" +:+ typ else typ.
Definition TypeIs (typ want : string) : bool := bool_decide (mediaType typ = mediaType want).

Definition jwtType : string := "dpop+jwt".

(** * Proofs *)

(** A parsed compact JWS: its header's typ, whether it embeds a public key,
    whether its signature verifies under that key and the header's algorithm,
    the payload, and the key's thumbprint. *)
Record CompactJWS := {
  jws_Type : string;
  jws_HasJWK : bool;
  jws_Verifies : bool;
  jws_Payload : string;
  jws_Thumbprint : option string }.

Record claims := {
  JTI : string;
  HTM : string;
  HTU : string;
  IAT : Z;
  NBF : Z;
  EXP : Z;
  ATH : string;
  c_Nonce : string }.

Class DpopCrypto := {
  ParseCompact : string → option CompactJWS;
  strict_claims : string → option claims;
  canonical_URI : ParsedURL → string }.

Inductive dpop_error :=
| ErrInvalidRequest | ErrMalformedProof | ErrWrongType | ErrMissingJWK | ErrMalformedClaims
| ErrMethodMismatch | ErrURIMismatch | ErrIssuedInFuture | ErrNotYetValid | ErrExpired
| ErrAccessTokenHashMismatch | ErrNonceMismatch | ErrReplay.

#[export] Instance dpop_error_eq_dec : EqDecision dpop_error.
Proof. solve_decision. Defined.

Record VerifyRequest (R : Type) := {
  vr_Proof : string;
  vr_Method : string;
  vr_URL : option ParsedURL;
  vr_AlternateURLs : list ParsedURL;
  vr_AccessToken : string;
  vr_RequiredNonce : string;
  vr_Now : Time;
  vr_MaxProofAge : Duration;
  vr_MaxClockSkew : Duration;
  (* UseOnce key jti expiresAt *)
  vr_Replay : option (string → string → Time → eff R store_error unit) }.
Arguments vr_Proof {R}. Arguments vr_Method {R}. Arguments vr_URL {R}.
Arguments vr_AlternateURLs {R}. Arguments vr_AccessToken {R}. Arguments vr_RequiredNonce {R}.
Arguments vr_Now {R}. Arguments vr_MaxProofAge {R}. Arguments vr_MaxClockSkew {R}.
Arguments vr_Replay {R}.

Record VerifiedProof := {
  vp_Thumbprint : string;
  vp_IssuedAt : Time;
  vp_Nonce : string;
  vp_JTI : string }.

Definition isAbsoluteHTTP (u : ParsedURL) : bool :=
  if negb (bool_decide (url_Opaque u = "")) || bool_decide (url_Host u = "") then false
  else
    let scheme := LowerASCII (url_Scheme u) in
    bool_decide (scheme = "https") || bool_decide (scheme = "http").

Definition accessTokenHash (token : string) : string := EncodeToString rawURL (sha256 token).

(** [if !b { return err }] *)
Definition require {R} (b : bool) (e : dpop_error) : eff R dpop_error unit := lift (guard_err b e).

Section verify.
Context `{Platform} `{DpopCrypto}.

Definition parseClaims (payload : string) : result dpop_error claims :=
  match strict_claims payload with
  | None => Err ErrMalformedClaims
  | Some c =>
    if bool_decide (JTI c = "") || bool_decide (HTM c = "") || bool_decide (HTU c = "")
    then Err ErrMalformedClaims else Ok c
  end.

Definition namesTarget (htu : string) (targets : list ParsedURL) : bool :=
  existsb (λ u, IsASCII (url_Host u) && bool_decide (canonical_URI u = htu)) targets.

Section request.
Context {R : Type} (req : VerifyRequest R).

Definition targets : list ParsedURL :=
  match vr_URL req with Some u => u :: vr_AlternateURLs req | None => [] end.

Definition checkProofTimes (c : claims) (iat : Time) : result dpop_error unit :=
  let latest := Add (vr_Now req) (vr_MaxClockSkew req) in
  guard_err (negb (After iat latest)) ErrIssuedInFuture ;;
  guard_err (negb (negb (bool_decide (NBF c = 0%Z)) && After (Unix (NBF c)) latest))
    ErrNotYetValid ;;
  guard_err (bool_decide (Sub (vr_Now req) iat ≤ vr_MaxProofAge req)%Z) ErrExpired ;;
  guard_err (negb (negb (bool_decide (EXP c = 0%Z)) &&
                   After (vr_Now req) (Add (Unix (EXP c)) (vr_MaxClockSkew req)))) ErrExpired.

Definition verifyProofClaims (c : claims) (iat : Time) : result dpop_error unit :=
  guard_err (bool_decide (HTM c = vr_Method req)) ErrMethodMismatch ;;
  match url_parse (HTU c) with
  | None => Err ErrURIMismatch
  | Some htu =>
    guard_err (isAbsoluteHTTP htu && IsASCII (url_Host htu)) ErrURIMismatch ;;
    guard_err (namesTarget (canonical_URI htu) targets) ErrURIMismatch ;;
    checkProofTimes c iat ;;
    guard_err
      (if negb (bool_decide (vr_AccessToken req = ""))
       then bool_decide (ATH c = accessTokenHash (vr_AccessToken req))
       else bool_decide (ATH c = "")) ErrAccessTokenHashMismatch ;;
    guard_err (bool_decide (vr_RequiredNonce req = "") ||
               bool_decide (c_Nonce c = vr_RequiredNonce req)) ErrNonceMismatch
  end.

Definition Verify : eff R dpop_error VerifiedProof :=
  do* require (negb (bool_decide (vr_Method req = ""))) ErrInvalidRequest in
  do* require (match vr_URL req with Some _ => true | None => false end) ErrInvalidRequest in
  do* require (forallb isAbsoluteHTTP targets) ErrInvalidRequest in
  do* require (negb (IsZero (vr_Now req))) ErrInvalidRequest in
  do* require (bool_decide (0 < vr_MaxProofAge req)%Z) ErrInvalidRequest in
  match ParseCompact (vr_Proof req) with
  | None => fail ErrMalformedProof
  | Some compact =>
    do* require (TypeIs (jws_Type compact) jwtType) ErrWrongType in
    do* require (jws_HasJWK compact) ErrMissingJWK in
    do* require (jws_Verifies compact) ErrMalformedProof in
    let* c := lift (parseClaims (jws_Payload compact)) in
    let iat := Unix (IAT c) in
    do* lift (verifyProofClaims c iat) in
    match jws_Thumbprint compact with
    | None => fail ErrMalformedProof
    | Some thumbprint =>
      do* match vr_Replay req with
          | None => ret tt
          | Some UseOnce =>
            map_err (λ _, ErrReplay)
              (UseOnce thumbprint (JTI c)
                 (Add iat (SaturatingAdd
                   [vr_MaxProofAge req; vr_MaxClockSkew req; vr_MaxClockSkew req])))
          end in
      ret {| vp_Thumbprint := thumbprint; vp_IssuedAt := iat; vp_Nonce := c_Nonce c;
             vp_JTI := JTI c |}
    end
  end.
End request.

(** * The server's replay checker *)

Definition dpopReplayNamespace : string := "server:dpop".

Definition dpopReplayChecker {R} `{ReplayStore R} (key jti : string) (expiresAt : Time)
    : eff R store_error unit :=
  UseOnce {| ru_Namespace := dpopReplayNamespace; ru_Digest := Digest key jti;
             ru_ExpiresAt := expiresAt |}.

(** * What an accepted proof has shown *)

Lemma require_Ok {R} b e (s : R) u s' : require b e s = (Ok u, s') ↔ b = true ∧ s' = s.
Proof. unfold require. rewrite lift_Ok, guard_err_Ok. done. Qed.

(** The claims and the key of a proof, when its signature verifies. *)
Definition signed_claims (proof : string) (c : claims) (thumbprint : string) : Prop :=
  ∃ compact, ParseCompact proof = Some compact ∧
    TypeIs (jws_Type compact) jwtType = true ∧ jws_HasJWK compact = true ∧
    jws_Verifies compact = true ∧ strict_claims (jws_Payload compact) = Some c ∧
    jws_Thumbprint compact = Some thumbprint.

Lemma signed_claims_fun proof c t c' t' :
  signed_claims proof c t → signed_claims proof c' t' → c = c' ∧ t = t'.
Proof. intros (j & ? & ? & ? & ? & ? & ?) (k & ? & ? & ? & ? & ? & ?). naive_solver. Qed.

Lemma Verify_inv {R} (req : VerifyRequest R) s v s' :
  Verify req s = (Ok v, s') →
  ∃ c, signed_claims (vr_Proof req) c (vp_Thumbprint v) ∧
    vp_IssuedAt v = Unix (IAT c) ∧ vp_Nonce v = c_Nonce c ∧ vp_JTI v = JTI c ∧ JTI c ≠ "" ∧
    verifyProofClaims req c (Unix (IAT c)) = Ok tt ∧
    match vr_Replay req with
    | None => s' = s
    | Some f =>
      f (vp_Thumbprint v) (JTI c) (Add (Unix (IAT c)) (SaturatingAdd
        [vr_MaxProofAge req; vr_MaxClockSkew req; vr_MaxClockSkew req])) s = (Ok tt, s')
    end.
Proof.
  unfold Verify. intros Hrun.
  repeat match goal with
  | H : ebind (require _ _) _ _ = (Ok _, _) |- _ =>
    apply ebind_Ok in H as (? & ? & [? ->]%require_Ok & H)
  end.
  destruct (ParseCompact (vr_Proof req)) as [compact|] eqn:Hp; [|done].
  repeat match goal with
  | H : ebind (require _ _) _ _ = (Ok _, _) |- _ =>
    apply ebind_Ok in H as (? & ? & [? ->]%require_Ok & H)
  end.
  apply ebind_Ok in Hrun as (c & ? & [Hc ->]%lift_Ok & Hrun).
  apply ebind_Ok in Hrun as ([] & ? & [Hv ->]%lift_Ok & Hrun).
  destruct (jws_Thumbprint compact) as [t|] eqn:Ht; [|done].
  apply ebind_Ok in Hrun as ([] & s1 & Hreplay & [-> ->]%ret_Ok).
  unfold parseClaims in Hc. destruct (strict_claims _) as [c'|] eqn:Hs; [|done].
  destruct (bool_decide (JTI c' = "")) eqn:Hj; [done|]. simpl in Hc.
  destruct (_ || _); [done|]. injection Hc as ->.
  apply bool_decide_eq_false in Hj.
  exists c. simpl. split_and!; try done; [by exists compact|].
  destruct (vr_Replay req).
  - by apply map_err_Ok in Hreplay.
  - by apply ret_Ok in Hreplay as [_ ->].
Qed.

Lemma verifyProofClaims_times {R} (req : VerifyRequest R) c iat :
  verifyProofClaims req c iat = Ok tt →
  HTM c = vr_Method req ∧
  (∃ htu, url_parse (HTU c) = Some htu ∧ isAbsoluteHTTP htu = true ∧
    ∃ u, u ∈ targets req ∧ canonical_URI u = canonical_URI htu) ∧
  (iat ≤ vr_Now req + vr_MaxClockSkew req)%Z ∧
  (Sub (vr_Now req) iat ≤ vr_MaxProofAge req)%Z ∧
  (vr_AccessToken req ≠ "" → ATH c = accessTokenHash (vr_AccessToken req)) ∧
  (vr_AccessToken req = "" → ATH c = "") ∧
  (vr_RequiredNonce req ≠ "" → c_Nonce c = vr_RequiredNonce req).
Proof.
  unfold verifyProofClaims. intros H1.
  apply bind_Ok in H1 as (? & Hm%guard_err_Ok%bool_decide_eq_true & H1).
  destruct (url_parse (HTU c)) as [htu|] eqn:Hu; [|done].
  apply bind_Ok in H1 as (? & Ha%guard_err_Ok%andb_true_iff & H1). destruct Ha as [Ha _].
  apply bind_Ok in H1 as (? & Hn%guard_err_Ok & H1).
  apply bind_Ok in H1 as (? & Ht & H1). apply bind_Ok in H1 as (? & Hath%guard_err_Ok & H1).
  apply guard_err_Ok, orb_true_iff in H1. unfold checkProofTimes in Ht.
  apply bind_Ok in Ht as (? & Hf%guard_err_Ok & Ht). apply bind_Ok in Ht as (? & _ & Ht).
  apply bind_Ok in Ht as (? & Hage%guard_err_Ok%bool_decide_eq_true & _).
  apply negb_true_iff, bool_decide_eq_false in Hf. unfold Add in Hf.
  split; [done|]. split.
  { exists htu. split; [done|]. split; [done|]. unfold namesTarget in Hn.
    apply existsb_exists in Hn as (u & Hin & Heq). apply andb_true_iff in Heq as [_ Heq].
    exists u. split; [by apply list_elem_of_In|]. by apply bool_decide_eq_true in Heq. }
  split; [lia|]. split; [done|]. split_and!.
  - intros Hne. rewrite bool_decide_false in Hath by done. by apply bool_decide_eq_true in Hath.
  - intros He. rewrite bool_decide_true in Hath by done. by apply bool_decide_eq_true in Hath.
  - intros Hne. destruct H1 as [H1|H1]; by apply bool_decide_eq_true in H1.
Qed.

(** C37. An accepted DPoP proof is one the holder of the key made for this
    request: its signature verifies under the embedded key whose thumbprint
    is returned, its htm is the request's method, its htu canonically names
    the request's URI or one of its alternates, its ath is the presented
    access token's hash (and absent without a token), its nonce is the
    required one, and its iat is at most MaxClockSkew ahead and MaxProofAge
    behind. *)
Theorem dpop_proof_accepted {R} (req : VerifyRequest R) s v s' :
  Verify req s = (Ok v, s') →
  ∃ c htu u, signed_claims (vr_Proof req) c (vp_Thumbprint v) ∧
    HTM c = vr_Method req ∧
    url_parse (HTU c) = Some htu ∧ isAbsoluteHTTP htu = true ∧
    u ∈ targets req ∧ canonical_URI u = canonical_URI htu ∧
    (vr_AccessToken req ≠ "" → ATH c = accessTokenHash (vr_AccessToken req)) ∧
    (vr_AccessToken req = "" → ATH c = "") ∧
    (vr_RequiredNonce req ≠ "" → vp_Nonce v = vr_RequiredNonce req) ∧
    (vp_IssuedAt v ≤ vr_Now req + vr_MaxClockSkew req)%Z ∧
    (Sub (vr_Now req) (vp_IssuedAt v) ≤ vr_MaxProofAge req)%Z.
Proof.
  intros (c & Hs & Hi & Hn & _ & _ & Hv & _)%Verify_inv.
  apply verifyProofClaims_times in Hv as (? & (htu & ? & ? & u & ? & ?) & ? & ? & ? & ? & ?).
  exists c, htu, u. rewrite Hi, Hn. by split_and!.
Qed.

(** A proof is accepted at most once. With the server's replay checker
    over the in-memory replay store, once a proof was accepted, no proof
    signed with the same key under the same jti, this one included, is ever
    accepted again, whatever other digests are spent in between. *)
Theorem dpop_proof_accepted_once (req req' : VerifyRequest Replays.ReplayStore) s v s1 s2 v' s3 :
  vr_Replay req = Some (@dpopReplayChecker _ Replays.replay_store) →
  vr_Replay req' = Some (@dpopReplayChecker _ Replays.replay_store) →
  Verify req s = (Ok v, s1) → rtc use_step s1 s2 →
  Verify req' s2 = (Ok v', s3) →
  ¬ (vp_Thumbprint v' = vp_Thumbprint v ∧ vp_JTI v' = vp_JTI v).
Proof.
  intros Hr Hr' Hv Hsteps Hv' [Ht Hj].
  destruct (Verify_inv _ _ _ _ Hv) as (c & _ & _ & _ & Hjc & _ & _ & Hu).
  destruct (Verify_inv _ _ _ _ Hv') as (c' & _ & _ & _ & Hjc' & _ & _ & Hu').
  rewrite Hr in Hu. rewrite Hr' in Hu'. rewrite <-Hjc in Hu. rewrite <-Hjc', Ht, Hj in Hu'.
  unfold dpopReplayChecker in Hu, Hu'. simpl in Hu, Hu'.
  by apply (spent_digest_refused _ _ _ _ _ _ eq_refl eq_refl Hu Hsteps Hu').
Qed.

(** The replay record outlasts the proof. The expiry an accepted proof is
    recorded with is at least two clock skews after the last instant at which
    any verifier with the same limits accepts the proof, so a store that drops
    a record when it expires, by a clock that runs up to twice the skew ahead,
    still refuses it. (The sum saturates only for limits over 292 years.) *)
Theorem dpop_replay_record_outlasts_proof {R R'} (req : VerifyRequest R) (req' : VerifyRequest R')
    s v s1 t v' t1 c :
  Verify req s = (Ok v, s1) → Verify req' t = (Ok v', t1) →
  vr_Proof req' = vr_Proof req → signed_claims (vr_Proof req) c (vp_Thumbprint v) →
  vr_MaxProofAge req' = vr_MaxProofAge req →
  (0 ≤ vr_MaxClockSkew req)%Z →
  (vr_MaxProofAge req + 2 * vr_MaxClockSkew req < MaxInt64)%Z →
  (vr_Now req' + 2 * vr_MaxClockSkew req ≤
    Add (Unix (IAT c)) (SaturatingAdd
      [vr_MaxProofAge req; vr_MaxClockSkew req; vr_MaxClockSkew req]))%Z.
Proof.
  intros _ Hv' Hp Hc Hage Hskew Hbound.
  destruct (Verify_inv _ _ _ _ Hv') as (c' & Hc' & _ & _ & _ & _ & Hclaims & _).
  rewrite Hp in Hc'. destruct (signed_claims_fun _ _ _ _ _ Hc Hc') as [-> _].
  apply verifyProofClaims_times in Hclaims as (_ & _ & _ & Hsub & _).
  assert (Hpos : (0 < vr_MaxProofAge req)%Z).
  { rewrite <-Hage. unfold Verify in Hv'.
    do 4 apply ebind_Ok in Hv' as (? & ? & [_ ->]%require_Ok & Hv').
    by apply ebind_Ok in Hv' as (? & ? & [Hpos%bool_decide_eq_true ->]%require_Ok & _). }
  rewrite SaturatingAdd_spec by (repeat constructor; lia).
  unfold sum_durations. simpl foldr. unfold Add. rewrite Hage in Hsub. unfold Sub in Hsub.
  unfold MaxInt64, MinInt64 in *. lia.
Qed.
End verify.

(** * The theorems on a concrete proof *)

Definition example_target : ParsedURL :=
  {| url_Scheme := "https"; url_Opaque := ""; url_HasUser := false; url_Host := "op.example";
     url_Hostname := "op.example"; url_Port := ""; url_Path := "/token"; url_EscapedPath := "/token";
     url_RawQuery := ""; url_ForceQuery := false;
     url_Fragment := ""; url_RawFragment := "" |}.

Definition dpop_platform : Platform := {|
  url_parse s := if bool_decide (s = "https://op.example/token") then Some example_target else None;
  url_string u := "https://" +:+ url_Host u +:+ url_EscapedPath u;
  ip_is_loopback _ := None;
  raw_length r := match r with RawNil => 0 | _ => 2 end;
  fold_key s := s;
  decodes_losslessly _ := true;
  json_text _ := RawInvalid;
  unicode_Cf _ := false; unicode_visible _ := true;
  raw_length_nil := ltac:(by intros []);
  raw_length_RawNil := eq_refl |}.

Definition example_claims : claims :=
  {| JTI := "jti"; HTM := "POST"; HTU := "https://op.example/token"; IAT := 1700000000;
     NBF := 0; EXP := 0; ATH := ""; c_Nonce := "n" |}.

Definition example_crypto : DpopCrypto := {|
  ParseCompact s := if bool_decide (s = "proof") then
    Some {| jws_Type := "dpop+jwt"; jws_HasJWK := true; jws_Verifies := true;
            jws_Payload := "payload"; jws_Thumbprint := Some "jkt" |} else None;
  strict_claims _ := Some example_claims;
  canonical_URI u := "https://" +:+ url_Host u +:+ url_EscapedPath u |}.

Definition example_verify (now : Z) : VerifyRequest Replays.ReplayStore := {|
  vr_Proof := "proof"; vr_Method := "POST"; vr_URL := Some example_target;
  vr_AlternateURLs := []; vr_AccessToken := ""; vr_RequiredNonce := "n";
  vr_Now := Unix now; vr_MaxProofAge := (60 * Second)%Z; vr_MaxClockSkew := (10 * Second)%Z;
  vr_Replay := Some (@dpopReplayChecker _ Replays.replay_store) |}.

(** A verifier that leaves replay detection to its caller. *)
Definition example_verify_unrecorded (now : Z) : VerifyRequest unit := {|
  vr_Proof := "proof"; vr_Method := "POST"; vr_URL := Some example_target;
  vr_AlternateURLs := []; vr_AccessToken := ""; vr_RequiredNonce := "n";
  vr_Now := Unix now; vr_MaxProofAge := (60 * Second)%Z; vr_MaxClockSkew := (10 * Second)%Z;
  vr_Replay := None |}.

Definition example_verified : VerifiedProof :=
  {| vp_Thumbprint := "jkt"; vp_IssuedAt := Unix 1700000000; vp_Nonce := "n"; vp_JTI := "jti" |}.

Definition example_spent : Replays.ReplayStore :=
  (@Verify dpop_platform example_crypto _ (example_verify 1700000010) Replays.NewReplayStore).2.

Lemma dpop_proof_accepted_witness :
  ∃ c htu u, @signed_claims example_crypto "proof" c "jkt" ∧
    HTM c = "POST" ∧
    @url_parse dpop_platform (HTU c) = Some htu ∧ isAbsoluteHTTP htu = true ∧
    u ∈ [example_target] ∧
    @canonical_URI example_crypto u = @canonical_URI example_crypto htu ∧
    ("" ≠ "" → ATH c = accessTokenHash "") ∧ ("" = "" → ATH c = "") ∧
    ("n" ≠ "" → "n" = "n") ∧
    (Unix 1700000000 ≤ Unix 1700000010 + 10 * Second)%Z ∧
    (Sub (Unix 1700000010) (Unix 1700000000) ≤ 60 * Second)%Z.
Proof.
  refine (@dpop_proof_accepted dpop_platform example_crypto _ (example_verify 1700000010)
    Replays.NewReplayStore example_verified example_spent _).
  vm_compute. reflexivity.
Defined.

(** A second proof, with another jti: the two are not the same. *)
Definition other_claims : claims :=
  {| JTI := "jti2"; HTM := "POST"; HTU := "https://op.example/token"; IAT := 1700000000;
     NBF := 0; EXP := 0; ATH := ""; c_Nonce := "n" |}.

Definition two_proofs : DpopCrypto := {|
  ParseCompact s :=
    Some {| jws_Type := "dpop+jwt"; jws_HasJWK := true; jws_Verifies := true;
            jws_Payload := s; jws_Thumbprint := Some "jkt" |};
  strict_claims r := Some (if bool_decide (r = "proof") then example_claims
                           else other_claims);
  canonical_URI u := "https://" +:+ url_Host u +:+ url_EscapedPath u |}.

Definition other_verify (now : Z) : VerifyRequest Replays.ReplayStore := {|
  vr_Proof := "other"; vr_Method := "POST"; vr_URL := Some example_target;
  vr_AlternateURLs := []; vr_AccessToken := ""; vr_RequiredNonce := "n";
  vr_Now := Unix now; vr_MaxProofAge := (60 * Second)%Z; vr_MaxClockSkew := (10 * Second)%Z;
  vr_Replay := Some (@dpopReplayChecker _ Replays.replay_store) |}.

Definition other_verified : VerifiedProof :=
  {| vp_Thumbprint := "jkt"; vp_IssuedAt := Unix 1700000000; vp_Nonce := "n"; vp_JTI := "jti2" |}.

Definition two_spent : Replays.ReplayStore :=
  (@Verify dpop_platform two_proofs _ (example_verify 1700000010) Replays.NewReplayStore).2.

Lemma dpop_proof_accepted_once_witness : ¬ ("jkt" = "jkt" ∧ "jti2" = "jti").
Proof.
  refine (@dpop_proof_accepted_once dpop_platform two_proofs (example_verify 1700000010)
    (other_verify 1700000020) Replays.NewReplayStore example_verified two_spent two_spent
    other_verified
    ((@Verify dpop_platform two_proofs _ (other_verify 1700000020) two_spent).2) _ _ _ _ _).
  - reflexivity.
  - reflexivity.
  - vm_compute. reflexivity.
  - reflexivity.
  - vm_compute. reflexivity.
Defined.

Lemma dpop_replay_record_outlasts_proof_witness :
  (Unix 1700000050 + 2 * (10 * Second) ≤
    Add (Unix 1700000000) (SaturatingAdd [60 * Second; 10 * Second; 10 * Second]))%Z.
Proof.
  refine (@dpop_replay_record_outlasts_proof dpop_platform example_crypto _ _
    (example_verify 1700000010) (example_verify_unrecorded 1700000050)
    Replays.NewReplayStore example_verified example_spent tt example_verified tt
    example_claims _ _ _ _ _ _ _).
  - vm_compute. reflexivity.
  - vm_compute. reflexivity.
  - reflexivity.
  - eexists. split_and!; reflexivity.
  - reflexivity.
  - vm_compute. discriminate.
  - vm_compute. reflexivity.
Defined.
