(* ===== verification/Jose.v ===== *)
(** JSON Web Signatures as src/internal/jose/ reads them (compact.go,
    header.go, typ.go), with src/internal/critical/critical.go, the member
    checks of src/internal/strictjson/, and the claims of a DPoP proof
    (src/internal/dpop/proof.go).

    Signature verification itself (crypto/ecdsa, crypto/rsa,
    crypto/ed25519) and the parsing of a JWK's key are operations of the
    class JoseCrypto. *)
From S2P Require Import Prelude GoStrings Json GoTime Base64 Platform JsonCodec Numeric.
From S2P Require Import Storage ServerTypes Dpop.
From stdpp Require Import options.

(** * Lossless text (strictjson/lossless.go) *)

Definition hex_value (c : ascii) : option N :=
  let n := byte_code c in
  if ((48 <=? n) && (n <=? 57))%N then Some (n - 48)%N
  else if ((97 <=? n) && (n <=? 102))%N then Some (n - 87)%N
  else if ((65 <=? n) && (n <=? 70))%N then Some (n - 55)%N
  else None.

(** The four hexadecimal digits [s] starts with, and what follows. *)
Definition hexRune (s : string) : option (N * string) :=
  match s with
  | String a (String b (String c (String d s))) =>
    match hex_value a, hex_value b, hex_value c, hex_value d with
    | Some w, Some x, Some y, Some z => Some (((w * 16 + x) * 16 + y) * 16 + z, s)%N
    | _, _, _, _ => None
    end
  | _ => None
  end.

(** unicodeEscapeLength: whether the escape whose digits [s] starts with is a
    rune, or a surrogate pair. *)
Definition unicode_escape_ok (s : string) : bool :=
  match hexRune s with
  | None => false
  | Some (r, rest) =>
    if negb ((55296 <=? r) && (r <? 57344))%N then true
    else if (56320 <=? r)%N then false
    else
      match rest with
      | String "\" (String "u" rest) =>
        match hexRune rest with
        | Some (low, _) => ((56320 <=? low) && (low <=? 57343))%N
        | None => false
        end
      | _ => false
      end
  end.

(** Every escape of [s]. [low] says that the escape [s] starts with is the
    second half of a pair already checked. *)
Fixpoint escapes_ok (s : string) (skip : nat) : bool :=
  match s with
  | EmptyString => true
  | String c s' =>
    match skip with
    | S k => escapes_ok s' k
    | O =>
      if decide (c = "\"%char) then
        match s' with
        | String "u" s'' =>
          unicode_escape_ok s'' &&
          escapes_ok s' (match hexRune s'' with
                         | Some (r, _) => if ((55296 <=? r) && (r <? 56320))%N then 11 else 5
                         | None => 0
                         end)
        | _ => escapes_ok s' 1
        end
      else escapes_ok s' 0
    end
  end.

Definition DecodesLosslessly (raw : string) : bool := ValidString raw && escapes_ok raw 0.

(** * Typed headers (typ.go) *)

Definition explicitTypes : list string :=
  ["dpop+jwt"; "at+jwt"; "oauth-authz-req+jwt"; "oauth-client-attestation+jwt";
   "oauth-client-attestation-pop+jwt"; "client-authentication+jwt"; "entity-statement+jwt";
   "trust-mark+jwt"; "trust-mark-delegation+jwt"; "trust-mark-status-response+jwt";
   "resolve-response+jwt"; "jwk-set+jwt"; "logout+jwt"; "secevent+jwt";
   "token-introspection+jwt"].

(** false is ErrUnexpectedType, and ErrOtherExplicitType. *)
Definition RequireGenericType (typ : string) : bool :=
  bool_decide (typ = "") || TypeIs typ "JWT".

Definition RefuseOtherExplicitType (typ : string) (own : list string) : bool :=
  bool_decide (typ = "") || existsb (TypeIs typ) own || negb (existsb (TypeIs typ) explicitTypes).

(** * Critical parameters (critical.go) *)

Definition registered_parameters : list string :=
  ["alg"; "jku"; "jwk"; "kid"; "x5u"; "x5c"; "x5t"; "x5t#S256"; "typ"; "cty"; "crit"; "enc";
   "zip"; "epk"; "apu"; "apv"; "iv"; "tag"; "p2s"; "p2c"].

Fixpoint critical_names_ok (understood seen names : list string) : bool :=
  match names with
  | [] => true
  | name :: names =>
    negb (bool_decide (name ∈ seen)) && negb (bool_decide (name ∈ registered_parameters)) &&
    bool_decide (name ∈ understood) && critical_names_ok understood (name :: seen) names
  end.

(** false is an error. *)
Definition critical_Check (raw : RawMessage) (understood : list string) : bool :=
  match raw with
  | RawNil => true
  | Raw (JArr l) =>
    match mapM (dec_str "") l with
    | Some names => negb (bool_decide (names = [])) && critical_names_ok understood [] names
    | None => false
    end
  | _ => false
  end.

(** * Parsing *)

Record Header (K : Type) := {
  hd_Algorithm : SignatureAlgorithm;
  hd_Type : string;
  hd_KeyID : string;
  hd_JWK : option K;
  hd_X5C : RawMessage }.
Arguments hd_Algorithm {K}. Arguments hd_Type {K}. Arguments hd_KeyID {K}.
Arguments hd_JWK {K}. Arguments hd_X5C {K}.

Record Compact (K : Type) := {
  cp_Header : Header K;
  cp_Payload : string;
  cp_signingInput : string;
  cp_signature : string }.
Arguments cp_Header {K}. Arguments cp_Payload {K}. Arguments cp_signingInput {K}.
Arguments cp_signature {K}.

Class JoseCrypto := {
  PublicKey : Type;
  verify_signature : SignatureAlgorithm → PublicKey → string → string → bool;
  ParseJWK : RawMessage → SignatureAlgorithm → option PublicKey;
  jwk_Thumbprint : PublicKey → option string }.

Definition DefaultMaxCompactBytes : nat := N.to_nat 16384.

Definition rawHeader_names : list string := ["alg"; "typ"; "kid"; "jwk"; "x5c"; "crit"].

Section jose.
Context `{Platform}.

(** strictjson.CheckFieldCase on a struct none of whose fields holds another
    struct: a member is spelled as its field, or names none up to case
    folding. *)
Definition field_case_ok (names : list string) (members : list (string * json)) : bool :=
  forallb (λ p, bool_decide (p.1 ∈ names) ||
                negb (existsb (λ n, bool_decide (fold_key p.1 = fold_key n)) names)) members.

(** [strictjson.Unmarshal] of a JSON object; null leaves the struct zero. *)
Definition strict_members (names : list string) (text : string) : option (list (string * json)) :=
  match json_text text with
  | Raw (JObj members) => if field_case_ok names members then Some members else None
  | Raw JNull => Some []
  | _ => None
  end.

Definition dpop_claim_names : list string :=
  ["jti"; "htm"; "htu"; "iat"; "nbf"; "exp"; "ath"; "nonce"].

(** What parseClaims of src/internal/dpop/proof.go decodes. *)
Definition dpop_claims (text : string) : option claims :=
  strict_members dpop_claim_names text ≫= λ members,
  get dpop_claim_names "jti" dec_str "" members ≫= λ jti,
  get dpop_claim_names "htm" dec_str "" members ≫= λ htm,
  get dpop_claim_names "htu" dec_str "" members ≫= λ htu,
  get dpop_claim_names "iat" dec_date 0%Z members ≫= λ iat,
  get dpop_claim_names "nbf" dec_date 0%Z members ≫= λ nbf,
  get dpop_claim_names "exp" dec_date 0%Z members ≫= λ exp,
  get dpop_claim_names "ath" dec_str "" members ≫= λ ath,
  get dpop_claim_names "nonce" dec_str "" members ≫= λ nonce,
  Some {| JTI := jti; HTM := htm; HTU := htu; IAT := iat; NBF := nbf; EXP := exp; ATH := ath;
          c_Nonce := nonce |}.

Context `{JoseCrypto}.

Definition parseHeader (data : string) : option (Header PublicKey) :=
  if negb (DecodesLosslessly data) then None
  else
    strict_members rawHeader_names data ≫= λ members,
    get rawHeader_names "alg" dec_str "" members ≫= λ alg,
    get rawHeader_names "typ" dec_str "" members ≫= λ typ,
    get rawHeader_names "kid" dec_str "" members ≫= λ kid,
    get rawHeader_names "jwk" dec_raw RawNil members ≫= λ jwk,
    get rawHeader_names "x5c" dec_raw RawNil members ≫= λ x5c,
    get rawHeader_names "crit" dec_raw RawNil members ≫= λ crit,
    if negb (critical_Check crit []) then None
    else
      ParseSignatureAlgorithm alg ≫= λ alg,
      match jwk with
      | RawNil =>
        Some {| hd_Algorithm := alg; hd_Type := typ; hd_KeyID := kid; hd_JWK := None; hd_X5C := x5c |}
      | _ => ParseJWK jwk alg ≫= λ key,
        Some {| hd_Algorithm := alg; hd_Type := typ; hd_KeyID := kid; hd_JWK := Some key;
                hd_X5C := x5c |}
      end.

Definition ParseCompactMax (s : string) (maxBytes : nat) : option (Compact PublicKey) :=
  if bool_decide (maxBytes < String.length s) then None
  else
    match Split s "." with
    | [headerB64; payloadB64; sigB64] =>
      if bool_decide (headerB64 = "") || bool_decide (payloadB64 = "") || bool_decide (sigB64 = "")
      then None
      else
        match URL headerB64 with
        | Err _ => None
        | Ok headerJSON =>
          parseHeader headerJSON ≫= λ header,
          match URL payloadB64, URL sigB64 with
          | Ok payload, Ok sig =>
            if negb (DecodesLosslessly payload) then None
            else Some {| cp_Header := header; cp_Payload := payload;
                         cp_signingInput := headerB64 +:+ "." +:+ payloadB64; cp_signature := sig |}
          | _, _ => None
          end
        end
    | _ => None
    end.

Definition jose_ParseCompact (s : string) : option (Compact PublicKey) :=
  ParseCompactMax s DefaultMaxCompactBytes.

Inductive verify_error := ErrAlgorithmMismatch | ErrInvalidSignature.

(** Every other failure of the three algorithms wraps ErrInvalidSignature. *)
Definition Compact_Verify (c : Compact PublicKey) (pub : PublicKey) (alg : SignatureAlgorithm)
    : result verify_error unit :=
  if negb (bool_decide (hd_Algorithm (cp_Header c) = alg)) then Err ErrAlgorithmMismatch
  else guard_err (verify_signature alg pub (cp_signingInput c) (cp_signature c)) ErrInvalidSignature.

(** What DPoP verification reads of a proof, given how its htu is
    canonicalized. *)
Definition jose_dpop (canonical : ParsedURL → string) : DpopCrypto := {|
  ParseCompact s := (λ c, {|
    jws_Type := hd_Type (cp_Header c);
    jws_HasJWK := is_Some_bool (hd_JWK (cp_Header c));
    jws_Verifies := match hd_JWK (cp_Header c) with
                    | Some key => is_ok (Compact_Verify c key (hd_Algorithm (cp_Header c)))
                    | None => false
                    end;
    jws_Payload := cp_Payload c;
    jws_Thumbprint := hd_JWK (cp_Header c) ≫= jwk_Thumbprint |}) <$> jose_ParseCompact s;
  strict_claims := dpop_claims;
  canonical_URI := canonical |}.

(** A compact JWS is bound to its text: what was signed is the text before
    the last dot, and the payload is what that text encodes. *)
Lemma ParseCompact_signed s c :
  jose_ParseCompact s = Some c →
  ∃ headerB64, cp_signingInput c = headerB64 +:+ "." +:+ EncodeToString rawURL (cp_Payload c) ∧
    (String.length s ≤ DefaultMaxCompactBytes)%nat.
Proof.
  unfold jose_ParseCompact, ParseCompactMax. case_bool_decide as Hl; [done|].
  destruct (Split s ".") as [|h [|p [|g [|]]]]; try done. destruct (_ || _); [done|].
  destruct (URL h); [|done]. destruct (parseHeader _); [|done].
  cbn [mbind option_bind]. destruct (URL p) eqn:Hp; [|done]. destruct (URL g); [|done].
  destruct (negb _); [done|]. intros [= <-]. exists h. simpl.
  apply URL_spec in Hp as <-. split; [done|lia].
Qed.
End jose.
