(* ===== verification/Federation.v ===== *)
(** OpenID Federation entity statements and Trust Chain resolution:
    src/internal/federation/claims.go, claims_validation.go and verify.go,
    src/internal/jose/jwkset.go, and src/federation/resolver.go, fetch.go and
    entity_metadata.go.

    The class FederationEnv holds what the code is given: the HTTP client's
    Fetch (the body of a response of the expected content type), the clock,
    and two operations of package net/url. A resolution's error is the tree of
    the branches it tried; the texts of errors are dropped. *)
From S2P Require Import Prelude GoStrings Json GoTime Effects Platform JsonCodec Numeric.
From S2P Require Import Policy Constraints Base64 Storage ServerTypes Dpop Jose.
From stdpp Require Import options.

Module Fed.

(** * Key sets (jose/jwkset.go) *)

Section jwks.
Context `{Platform} `{JoseCrypto}.

Record ParsedJWK := {
  pk_KeyID : string;
  pk_Algorithm : SignatureAlgorithm;
  pk_PublicKey : PublicKey;
  pk_Certificates : list string }.

Record jwkSetAlgHint := { Kty : string; Crv : string; Alg : string; Kid : string; Use : string;
                          X5C : list string }.

(** [strictjson.Unmarshal] of a raw message into a struct none of whose
    fields holds another struct. *)
Definition strict_raw (names : list string) (raw : RawMessage) : option (list (string * json)) :=
  match raw with
  | Raw (JObj members) => if field_case_ok names members then Some members else None
  | Raw JNull => Some []
  | _ => None
  end.

Definition hint_names : list string := ["kty"; "crv"; "alg"; "kid"; "use"; "x5c"].

Definition decode_hint (raw : RawMessage) : option jwkSetAlgHint :=
  strict_raw hint_names raw ≫= λ members,
  get hint_names "kty" dec_str "" members ≫= λ kty,
  get hint_names "crv" dec_str "" members ≫= λ crv,
  get hint_names "alg" dec_str "" members ≫= λ alg,
  get hint_names "kid" dec_str "" members ≫= λ kid,
  get hint_names "use" dec_str "" members ≫= λ use,
  get hint_names "x5c" dec_strs [] members ≫= λ x5c,
  Some {| Kty := kty; Crv := crv; Alg := alg; Kid := kid; Use := use; X5C := x5c |}.

Definition algorithmForJWKSetHint (h : jwkSetAlgHint) : option SignatureAlgorithm :=
  if negb (bool_decide (Alg h = "")) then ParseSignatureAlgorithm (Alg h)
  else if bool_decide (Kty h = "EC") then
    if bool_decide (Crv h = "P-256") then Some ES256 else None
  else if bool_decide (Kty h = "RSA") then Some PS256
  else if bool_decide (Kty h = "OKP") then
    if bool_decide (Crv h = "Ed25519") then Some EdDSA else None
  else None.

Definition decodeX5C (x5c : list string) : list string :=
  omap (λ entry, match Std entry with Ok der => Some der | Err _ => None end) x5c.

(** One entry of the set; [None] is one the loop skips. *)
Definition parse_entry (raw : RawMessage) : option ParsedJWK :=
  decode_hint raw ≫= λ hint,
  if bool_decide (Use hint = "enc") then None
  else
    algorithmForJWKSetHint hint ≫= λ alg,
    ParseJWK raw alg ≫= λ key,
    Some {| pk_KeyID := Kid hint; pk_Algorithm := alg; pk_PublicKey := key;
            pk_Certificates := decodeX5C (X5C hint) |}.

(** [None] is an error. *)
Definition ParseJWKSet (body : RawMessage) : option (list ParsedJWK) :=
  strict_raw ["keys"] body ≫= λ members,
  get ["keys"] "keys" (λ _, dec_slice) ([] : list RawMessage) members ≫= λ keys : list RawMessage,
  Some (omap parse_entry keys).
End jwks.

(** * Claims (claims.go) *)

Definition jwtType : string := "entity-statement+jwt".

Record RawTrustMark := { rtm_TrustMarkType : string; rtm_TrustMark : string }.
Record TrustMarkOwner := { tmo_Subject : string; tmo_JWKS : RawMessage }.

Record Claims := {
  c_Issuer : string;
  c_Subject : string;
  c_IssuedAt : Time;
  c_ExpiresAt : Time;
  c_JWKS : RawMessage;
  c_Metadata : gmap string RawMessage;
  c_AuthorityHints : list string;
  c_TrustAnchorHints : list string;
  c_MetadataPolicy : MetadataPolicy;
  c_MetadataPolicyCritical : list string;
  c_SourceEndpoint : string;
  c_Constraints : option Constraints;
  c_TrustMarks : list RawTrustMark;
  c_TrustMarkOwners : gmap string TrustMarkOwner;
  c_TrustMarkIssuers : gmap string (list string) }.

Inductive statement_error :=
| ErrJose | ErrWrongType | ErrMissingKeyID | ErrForbiddenHeader | ErrMalformedClaims
| ErrMalformedJWKS | ErrUnsupportedCriticalClaim | ErrVerifyPolicy
| ErrSignature (e : verify_error) | ErrIssuerMismatch | ErrSubjectMismatch | ErrExpired
| ErrLifetimeExceeded | ErrNotYetValid.

Abbreviation members := (gmap string RawMessage).
Abbreviation parsed := (result statement_error).

Definition malformed {A} (o : option A) : parsed A :=
  match o with Some a => Ok a | None => Err ErrMalformedClaims end.

Definition popRequiredString (m : members) (key : string) : parsed (string * members) :=
  s ← malformed (m !! key ≫= unmarshal_string);
  guard_err (negb (bool_decide (s = ""))) ErrMalformedClaims ;;
  Ok (s, delete key m).

Definition popRequiredInt64 (m : members) (key : string) : parsed (Z * members) :=
  n ← malformed (m !! key ≫= ParseDate);
  Ok (n, delete key m).

Definition subordinateOnlyClaims : list string :=
  ["metadata_policy"; "metadata_policy_crit"; "constraints"; "source_endpoint"].
Definition entityConfigurationOnlyClaims : list string :=
  ["authority_hints"; "trust_anchor_hints"; "trust_marks"; "trust_mark_issuers";
   "trust_mark_owners"].

Definition has_claim (m : members) (claim : string) : bool := bool_decide (is_Some (m !! claim)).

Definition checkParsedClaimPlacement (m : members) (selfSigned : bool) : parsed unit :=
  guard_err (negb (existsb (has_claim m)
    (if selfSigned then subordinateOnlyClaims else entityConfigurationOnlyClaims)))
    ErrMalformedClaims.

Definition explicitRegistrationClaims : list string := ["aud"; "trust_anchor"].
Definition refuseExplicitRegistrationClaims (m : members) : parsed unit :=
  guard_err (negb (existsb (has_claim m) explicitRegistrationClaims)) ErrMalformedClaims.

Definition rejectCriticalClaims (m : members) : parsed unit :=
  guard_err (negb (has_claim m "crit")) ErrUnsupportedCriticalClaim.

(** Decoding into an int: out of range is an error. *)
Definition dec_int_opt (_ : option Z) (j : json) : option (option Z) :=
  match j with
  | JNull => Some None
  | JNum n => Some <$> unmarshal_int64 n
  | _ => None
  end.
Definition dec_str_opt (_ : option string) (j : json) : option (option string) :=
  match j with JNull => Some None | JStr s => Some (Some s) | _ => None end.
(** Into a []string that tells nil from the empty array. *)
Definition dec_strs_opt (_ : option (list string)) (j : json) : option (option (list string)) :=
  match j with JNull => Some None | JArr l => Some <$> mapM (dec_str "") l | _ => None end.

Section claims.
Context `{Platform}.

(** ** validateKeyIDs *)

Definition key_id (j : json) : option (option string) :=
  strict_raw ["kid"] (Raw j) ≫= get ["kid"] "kid" dec_str_opt None.

Fixpoint key_ids_ok (seen : list string) (keys : list (option string)) : bool :=
  match keys with
  | [] => true
  | None :: _ => false
  | Some kid :: keys =>
    negb (bool_decide (kid = "")) && negb (bool_decide (kid ∈ seen)) &&
    key_ids_ok (kid :: seen) keys
  end.

Definition dec_keys (_ : list json) (j : json) : option (list json) :=
  match j with JArr l => Some l | JNull => Some [] | _ => None end.

Definition validateKeyIDs (jwks : RawMessage) : parsed unit :=
  match strict_raw ["keys"] jwks ≫= λ members,
        get ["keys"] "keys" dec_keys [] members ≫= λ keys, mapM key_id keys with
  | Some kids => guard_err (key_ids_ok [] kids) ErrMalformedJWKS
  | None => Err ErrMalformedJWKS
  end.

(** ** Claim values (claims_validation.go) *)

Definition isHTTPSURL (s : string) : bool :=
  match url_parse s with
  | None => false
  | Some u => bool_decide (url_Scheme u = "https") && negb (bool_decide (url_Host u = "")) &&
      negb (contains_any s (String "035" (String "032" (String "009" (String "013" (String "010" ""))))))
  end.

Definition parseMetadataClaim (raw : RawMessage) : parsed members :=
  guard_err (negb (isJSONNull raw)) ErrMalformedClaims ;;
  metadata ← malformed (unmarshal_object raw);
  map_range (λ _ value,
    guard_err (negb (isJSONNull value)) ErrMalformedClaims ;;
    params ← malformed (unmarshal_object value);
    map_for_all (λ _ param, guard_err (negb (isJSONNull param)) ErrMalformedClaims) params ;;
    Ok value) metadata.

Definition parseNonEmptyStrings (raw : RawMessage) : parsed (list string) :=
  values ← malformed (unmarshal_slice raw ≫= mapM (dec_str ""));
  guard_err (negb (bool_decide (values = []))) ErrMalformedClaims ;;
  guard_err (negb (bool_decide ("" ∈ values))) ErrMalformedClaims ;;
  Ok values.

Definition parseEntityIdentifiers (raw : RawMessage) : parsed (list string) :=
  ids ← parseNonEmptyStrings raw;
  guard_err (forallb isHTTPSURL ids) ErrMalformedClaims ;;
  Ok ids.

Definition parseSourceEndpoint (raw : RawMessage) : parsed string :=
  source ← malformed (unmarshal_string raw);
  guard_err (isHTTPSURL source) ErrMalformedClaims ;;
  Ok source.

Definition maxJSONDepth : nat := 64.

(** checkJSONValue, on the value of which the decoder reads the tokens. *)
Fixpoint checkJSONValue (depth : nat) (j : json) : bool :=
  match j with
  | JArr l => bool_decide (depth < maxJSONDepth)%nat && forallb (checkJSONValue (S depth)) l
  | JObj l => bool_decide (depth < maxJSONDepth)%nat && bool_decide (NoDup l.*1) &&
      forallb (λ p, checkJSONValue (S depth) p.2) l
  | _ => true
  end.

Definition refuseDuplicateMembers (payload : string) : parsed unit :=
  match json_text payload with
  | Raw j => guard_err (checkJSONValue 0 j) ErrMalformedClaims
  | _ => Err ErrMalformedClaims
  end.

Definition forbiddenStatementHeaders : list string := ["trust_chain"; "peer_trust_chain"].

Definition refuseForbiddenHeaders (token : string) : parsed unit :=
  match URL (hd "" (Split token ".")) with
  | Err _ => Err ErrForbiddenHeader
  | Ok headerJSON =>
    match unmarshal_object (json_text headerJSON) with
    | None => Err ErrForbiddenHeader
    | Some header => guard_err (negb (existsb (has_claim header) forbiddenStatementHeaders))
        ErrForbiddenHeader
    end
  end.

(** ** Members (claims.go) *)

(** [if raw, ok := m[name]; ok { ... }], the zero value otherwise. *)
Definition optional {A} (m : members) (name : string) (parse : RawMessage → parsed A) (zero : A)
    : parsed A :=
  match m !! name with Some raw => parse raw | None => Ok zero end.

Definition parse_policy (raw : RawMessage) : parsed MetadataPolicy :=
  types ← malformed (unmarshal_object raw);
  map_range (λ _ value,
    params ← malformed (unmarshal_object value);
    map_range (λ _ operators, malformed (unmarshal_object operators)) params) types.

Definition trust_mark_names : list string := ["trust_mark_type"; "trust_mark"].
Definition parse_trust_mark (j : json) : parsed RawTrustMark :=
  members ← malformed (match j with JObj l => Some l | JNull => Some [] | _ => None end);
  type ← malformed (get trust_mark_names "trust_mark_type" dec_str "" members);
  mark ← malformed (get trust_mark_names "trust_mark" dec_str "" members);
  guard_err (negb (bool_decide (type = "")) && negb (bool_decide (mark = ""))) ErrMalformedClaims ;;
  Ok {| rtm_TrustMarkType := type; rtm_TrustMark := mark |}.

Fixpoint map_ok {A B} (f : A → parsed B) (l : list A) : parsed (list B) :=
  match l with
  | [] => Ok []
  | a :: l => b ← f a; bs ← map_ok f l; Ok (b :: bs)
  end.

Definition parseTrustMarks (raw : RawMessage) : parsed (list RawTrustMark) :=
  l ← malformed (unmarshal_slice raw);
  map_ok parse_trust_mark l.

Definition owner_names : list string := ["sub"; "jwks"].
Definition parse_owner (raw : RawMessage) : parsed TrustMarkOwner :=
  members ← malformed (match raw with Raw (JObj l) => Some l | Raw JNull => Some [] | _ => None end);
  sub ← malformed (get owner_names "sub" dec_str "" members);
  jwks ← malformed (get owner_names "jwks" dec_raw RawNil members);
  guard_err (negb (bool_decide (sub = "")) && negb (match jwks with RawNil => true | _ => false end))
    ErrMalformedClaims ;;
  Ok {| tmo_Subject := sub; tmo_JWKS := jwks |}.

Definition parseTrustMarkOwners (raw : RawMessage) : parsed (gmap string TrustMarkOwner) :=
  owners ← malformed (unmarshal_object raw);
  map_range (λ _, parse_owner) owners.

Definition parse_issuers (raw : RawMessage) : parsed (gmap string (list string)) :=
  issuers ← malformed (unmarshal_object raw);
  map_range (λ _ value, malformed (unmarshal_slice value ≫= mapM (dec_str ""))) issuers.

Definition naming_names : list string := ["permitted"; "excluded"].
(** A second spelling of the member decodes into the same struct. *)
Definition dec_naming (old : option NamingConstraints) (j : json)
    : option (option NamingConstraints) :=
  match j with
  | JNull => Some None
  | JObj members =>
    let o := default (MkNamingConstraints [] []) old in
    get naming_names "permitted" dec_strs (Permitted o) members ≫= λ permitted,
    get naming_names "excluded" dec_strs (Excluded o) members ≫= λ excluded,
    Some (Some (MkNamingConstraints permitted excluded))
  | _ => None
  end.

Definition constraint_names : list string :=
  ["max_path_length"; "naming_constraints"; "allowed_entity_types"].
Definition parseConstraints (payload : RawMessage) : parsed Constraints :=
  members ← malformed (match payload with
    | Raw (JObj l) => Some l | Raw JNull => Some [] | _ => None end);
  len ← malformed (get constraint_names "max_path_length" dec_int_opt None members);
  naming ← malformed (get constraint_names "naming_constraints" dec_naming None members);
  types ← malformed (get constraint_names "allowed_entity_types" dec_strs_opt None members);
  guard_err (bool_decide (0 ≤ default 0 len)%Z) ErrMalformedClaims ;;
  Ok (MkConstraints (default 0%Z len) (bool_decide (is_Some len)) naming types).

Definition claims_of_members (raw : members) : parsed Claims :=
  '(iss, raw) ← popRequiredString raw "iss";
  '(sub, raw) ← popRequiredString raw "sub";
  '(iat, raw) ← popRequiredInt64 raw "iat";
  '(exp, raw) ← popRequiredInt64 raw "exp";
  checkParsedClaimPlacement raw (bool_decide (iss = sub)) ;;
  refuseExplicitRegistrationClaims raw ;;
  jwks ← malformed (raw !! "jwks");
  validateKeyIDs jwks ;;
  rejectCriticalClaims raw ;;
  metadata ← optional raw "metadata" parseMetadataClaim ∅;
  hints ← optional raw "authority_hints" parseEntityIdentifiers [];
  anchors ← optional raw "trust_anchor_hints" parseEntityIdentifiers [];
  policy ← optional raw "metadata_policy" parse_policy ∅;
  crit ← optional raw "metadata_policy_crit" parseNonEmptyStrings [];
  source ← optional raw "source_endpoint" parseSourceEndpoint "";
  constraints ← optional raw "constraints" (λ r, c ← parseConstraints r; Ok (Some c)) None;
  marks ← optional raw "trust_marks" parseTrustMarks [];
  owners ← optional raw "trust_mark_owners" parseTrustMarkOwners ∅;
  issuers ← optional raw "trust_mark_issuers" parse_issuers ∅;
  Ok {| c_Issuer := iss; c_Subject := sub; c_IssuedAt := Unix iat; c_ExpiresAt := Unix exp;
        c_JWKS := jwks; c_Metadata := metadata; c_AuthorityHints := hints;
        c_TrustAnchorHints := anchors; c_MetadataPolicy := policy;
        c_MetadataPolicyCritical := crit; c_SourceEndpoint := source;
        c_Constraints := constraints; c_TrustMarks := marks; c_TrustMarkOwners := owners;
        c_TrustMarkIssuers := issuers |}.

Definition parseClaims (payload : string) : parsed Claims :=
  raw ← malformed (unmarshal_object (json_text payload));
  claims_of_members raw.
End claims.

(** * Statements (verify.go) *)

Section statements.
Context `{Platform} `{JoseCrypto}.

Record Statement := { st_compact : Compact PublicKey; st_claims : Claims }.

Definition Parse (token : string) : parsed Statement :=
  match jose_ParseCompact token with
  | None => Err ErrJose
  | Some compact =>
    guard_err (TypeIs (hd_Type (cp_Header compact)) jwtType) ErrWrongType ;;
    guard_err (negb (bool_decide (hd_KeyID (cp_Header compact) = ""))) ErrMissingKeyID ;;
    refuseForbiddenHeaders token ;;
    refuseDuplicateMembers (cp_Payload compact) ;;
    claims ← parseClaims (cp_Payload compact);
    Ok {| st_compact := compact; st_claims := claims |}
  end.

Definition KeyID (s : Statement) : string := hd_KeyID (cp_Header (st_compact s)).
Definition Algorithm (s : Statement) : SignatureAlgorithm :=
  hd_Algorithm (cp_Header (st_compact s)).
Definition ClaimedIssuer (s : Statement) : string := c_Issuer (st_claims s).
Definition ClaimedSubject (s : Statement) : string := c_Subject (st_claims s).
Definition ClaimedJWKS (s : Statement) : RawMessage := c_JWKS (st_claims s).
Definition ClaimedMetadataPolicy (s : Statement) : MetadataPolicy * list string :=
  (c_MetadataPolicy (st_claims s), c_MetadataPolicyCritical (st_claims s)).
Definition ClaimedMetadata (s : Statement) : members := c_Metadata (st_claims s).
Definition ClaimedConstraints (s : Statement) : option Constraints := c_Constraints (st_claims s).

Record VerifyPolicy := {
  ExpectedIssuer : string;
  ExpectedSubject : string;
  Policy_Algorithm : SignatureAlgorithm;
  Policy_Now : Time;
  MaxLifetime : Duration;
  Policy_MaxClockSkew : Duration }.

Definition Verify (s : Statement) (pub : PublicKey) (policy : VerifyPolicy) : parsed Claims :=
  guard_err (negb (bool_decide (ExpectedIssuer policy = ""))) ErrVerifyPolicy ;;
  guard_err (negb (bool_decide (ExpectedSubject policy = ""))) ErrVerifyPolicy ;;
  guard_err (negb (IsZero (Policy_Now policy))) ErrVerifyPolicy ;;
  guard_err (bool_decide (0 < MaxLifetime policy)%Z) ErrVerifyPolicy ;;
  match Compact_Verify (st_compact s) pub (Policy_Algorithm policy) with
  | Err e => Err (ErrSignature e)
  | Ok _ =>
    let c := st_claims s in
    let now := Policy_Now policy in
    let skew := Policy_MaxClockSkew policy in
    guard_err (bool_decide (c_Issuer c = ExpectedIssuer policy)) ErrIssuerMismatch ;;
    guard_err (bool_decide (c_Subject c = ExpectedSubject policy)) ErrSubjectMismatch ;;
    guard_err (negb (After now (Add (c_ExpiresAt c) skew))) ErrExpired ;;
    guard_err (negb (bool_decide
      (SaturatingAdd [MaxLifetime policy; skew] < Sub (c_ExpiresAt c) now)%Z)) ErrLifetimeExceeded ;;
    guard_err (negb (Before now (Add (c_IssuedAt c) (- skew)))) ErrNotYetValid ;;
    Ok c
  end.
End statements.
End Fed.
