(* ===== verification/Resolver.v ===== *)
(** Trust Chain resolution: src/federation/resolver.go, fetch.go and
    entity_metadata.go.

    The class FederationEnv holds what a Resolver is given: its
    configuration, the HTTP client's Fetch (the body of a response of the
    expected content type), the clock, and two operations of package net/url.
    A resolution's error is the tree of the branches it tried; the texts of
    errors are dropped.

    A resolution runs in a [RState]: the environment, what it has fetched so
    far (statementCache) and how many superiors it may still try. Its walk
    recurses on the hops left before MaxPathLength, as the code's [hop] counts
    up to it. *)
From S2P Require Import Prelude GoStrings Json GoTime Effects Platform JsonCodec.
From S2P Require Import Policy Constraints Storage ServerTypes Dpop Jose Federation.
From stdpp Require Import options.

Module Resolver.
Export Fed.

(** * Configuration *)

Record TrustAnchor := { EntityID : string; JWKS : RawMessage }.

Record Limits := {
  MaxPathLength : Z;
  MaxAuthorityHints : Z;
  MaxStatementLifetime : Duration;
  MaxClockSkew : Duration;
  MaxTrustMarkStatusAge : Duration }.

Record Config := { TrustAnchors : list TrustAnchor; cfg_Limits : Limits }.

(** len(a.JWKS) == 0 *)
Definition jwks_empty (raw : RawMessage) : bool := match raw with RawNil => true | _ => false end.

Fixpoint anchors_by_id (anchors : list TrustAnchor) (m : gmap string TrustAnchor)
    : option (gmap string TrustAnchor) :=
  match anchors with
  | [] => Some m
  | a :: anchors =>
    if bool_decide (EntityID a = "") || jwks_empty (JWKS a) then None
    else anchors_by_id anchors (<[EntityID a := a]> m)
  end.

(** The trust anchors by their entity ID; [None] is an error. Fetch and the
    clock are always set. *)
Definition NewResolver (cfg : Config) : option (gmap string TrustAnchor) :=
  let l := cfg_Limits cfg in
  if bool_decide (TrustAnchors cfg = []) then None
  else
    anchors_by_id (TrustAnchors cfg) ∅ ≫= λ byID,
    if bool_decide (MaxPathLength l ≤ 0)%Z || bool_decide (MaxAuthorityHints l ≤ 0)%Z ||
       bool_decide (MaxStatementLifetime l ≤ 0)%Z || bool_decide (MaxClockSkew l < 0)%Z ||
       bool_decide (MaxTrustMarkStatusAge l < 0)%Z
    then None else Some byID.

Class FederationEnv := {
  f_platform :: Platform;
  f_jose :: JoseCrypto;
  f_cfg : Config;
  f_Env : Type;
  f_Clock : f_Env → Time * f_Env;
  f_Fetch : ParsedURL → eff f_Env unit string;
  (* the URL with another Path, as URL.EscapedPath then spells it *)
  set_path : ParsedURL → string → ParsedURL;
  (* the URL with the query parameter "sub" set, by url.Values *)
  set_sub : ParsedURL → string → ParsedURL }.

(** * Errors *)

Inductive resolve_error :=
| EmptySubject
| InvalidEntityID (entityID : string)
| FetchFailed (target : ParsedURL)
| ParseFailed (e : statement_error)
| InvalidFetchEndpoint (endpoint : string)
| ClaimedPartiesMismatch (iss sub : string)
| MalformedJWKS
| NoCandidateKey
| VerificationFailed (e : statement_error)
| MalformedEntityMetadata (entityID : string)
| NoFetchEndpoint (entityID : string)
| NamingOrLength (e : constraint_error)
| MetadataRefused (e : policy_error)
| MaxPathLengthExceeded
| NoAuthorityHints (entityID : string)
| TooManyAuthorityHints (entityID : string)
| NoUnvisitedSuperior (entityID : string)
| NoPath (entityID : string) (branches : list (string * resolve_error))
| TriedTooManySuperiors (entityID : string) (branches : list (string * resolve_error)).

Section resolver.
Context {F : FederationEnv}.

(** A statement with its token, or why there is none. *)
Definition fetchedStatement : Type := result resolve_error (Statement * string).

Record RState := {
  rs_env : f_Env;
  rs_configs : gmap string fetchedStatement;
  rs_subordinates : gmap string fetchedStatement;
  rs_budget : Z }.

Abbreviation resolving := (eff RState resolve_error).

Definition on_env {E A} : eff f_Env E A → eff RState E A :=
  zoom rs_env (λ x s, {| rs_env := x; rs_configs := rs_configs s;
    rs_subordinates := rs_subordinates s; rs_budget := rs_budget s |}).

Definition trustAnchorsByID : gmap string TrustAnchor := default ∅ (NewResolver f_cfg).
Definition f_limits : Limits := cfg_Limits f_cfg.

(** * Fetching (fetch.go) *)

Definition hostNameByte (c : ascii) : bool :=
  let n := byte_code c in
  ((97 <=? n) && (n <=? 122))%N || ((65 <=? n) && (n <=? 90))%N || ((48 <=? n) && (n <=? 57))%N ||
  bool_decide (c = "-"%char) || bool_decide (c = "."%char).

Fixpoint all_hostname (s : string) : bool :=
  match s with EmptyString => true | String c s => hostNameByte c && all_hostname s end.

Definition asciiHost (u : ParsedURL) : bool :=
  let host := url_Hostname u in
  if is_Some_bool (ip_is_loopback host) then true
  else all_hostname host && negb (bool_decide (host = "")).

Definition WellKnownPath : string := "/.well-known/openid-federation".

(** [None] is an error. *)
Definition wellKnownURL (entityID : string) : option ParsedURL :=
  url_parse entityID ≫= λ u,
  if negb (bool_decide (url_Scheme u = "https")) || bool_decide (url_Host u = "") then None
  else if negb (bool_decide (url_RawQuery u = "")) || url_ForceQuery u ||
          contains_byte entityID "#"
  then None
  else if url_HasUser u then None
  else if bool_decide (trim_suffix (url_Hostname u) "." ≠ url_Hostname u) then None
  else if negb (asciiHost u) then None
  else Some (set_path u (trim_suffix (url_Path u) "/" +:+ WellKnownPath)).

Definition ValidEntityID (id : string) : bool := is_Some_bool (wellKnownURL id).

(** Fetching and parsing one statement, with its token. *)
Definition fetch_statement (target : ParsedURL) : eff f_Env resolve_error (Statement * string) :=
  let* token := map_err (λ _, FetchFailed target) (f_Fetch target) in
  match Parse token with
  | Ok stmt => ret (stmt, token)
  | Err e => fail (ParseFailed e)
  end.

Definition fetchEntityConfiguration (entityID : string)
    : eff f_Env resolve_error (Statement * string) :=
  match wellKnownURL entityID with
  | None => fail (InvalidEntityID entityID)
  | Some target => fetch_statement target
  end.

Definition fetchSubordinateStatement (issuerFetchEndpoint subjectID : string)
    : eff f_Env resolve_error (Statement * string) :=
  match url_parse issuerFetchEndpoint with
  | None => fail (InvalidFetchEndpoint issuerFetchEndpoint)
  | Some target =>
    if negb (bool_decide (url_Scheme target = "https"))
    then fail (InvalidFetchEndpoint issuerFetchEndpoint)
    else fetch_statement (set_sub target subjectID)
  end.

(** * The cache (statementCache) *)

Definition entityConfiguration (entityID : string) : resolving (Statement * string) := λ s,
  match rs_configs s !! entityID with
  | Some f => (f, s)
  | None =>
    let '(f, env) := fetchEntityConfiguration entityID (rs_env s) in
    (f, {| rs_env := env; rs_configs := <[entityID := f]> (rs_configs s);
           rs_subordinates := rs_subordinates s; rs_budget := rs_budget s |})
  end.

Definition subordinateStatement (fetchEndpoint subjectID : string)
    : resolving (Statement * string) := λ s,
  let key := fetchEndpoint +:+ String "000" subjectID in
  match rs_subordinates s !! key with
  | Some f => (f, s)
  | None =>
    let '(f, env) := fetchSubordinateStatement fetchEndpoint subjectID (rs_env s) in
    (f, {| rs_env := env; rs_configs := rs_configs s;
           rs_subordinates := <[key := f]> (rs_subordinates s);
           rs_budget := rs_budget s |})
  end.

(** * Verification *)

Definition statement_policy (expectedIssuer expectedSubject : string)
    (algorithm : SignatureAlgorithm) (now : Time) : VerifyPolicy := {|
  ExpectedIssuer := expectedIssuer; ExpectedSubject := expectedSubject;
  Policy_Algorithm := algorithm; Policy_Now := now;
  MaxLifetime := MaxStatementLifetime f_limits; Policy_MaxClockSkew := MaxClockSkew f_limits |}.

(** The loop over the candidate keys; [last] is the last failure. *)
Fixpoint try_candidates (stmt : Statement) (policy : VerifyPolicy) (kid : string)
    (candidates : list ParsedJWK) (last : resolve_error) : result resolve_error Claims :=
  match candidates with
  | [] => Err last
  | c :: candidates =>
    if negb (bool_decide (pk_Algorithm c = Policy_Algorithm policy)) ||
       negb (bool_decide (pk_KeyID c = kid))
    then try_candidates stmt policy kid candidates last
    else match Verify stmt (pk_PublicKey c) policy with
         | Ok claims => Ok claims
         | Err e => try_candidates stmt policy kid candidates (VerificationFailed e)
         end
  end.

Definition verifyAgainstJWKS (stmt : Statement) (jwksRaw : RawMessage)
    (expectedIssuer expectedSubject : string) (algorithm : SignatureAlgorithm) (now : Time)
    : result resolve_error Claims :=
  match ParseJWKSet jwksRaw with
  | None => Err MalformedJWKS
  | Some candidates =>
    try_candidates stmt (statement_policy expectedIssuer expectedSubject algorithm now)
      (KeyID stmt) candidates NoCandidateKey
  end.

Definition verifySelfSigned (stmt : Statement) (entityID : string) (now : Time)
    : result resolve_error Claims :=
  verifyAgainstJWKS stmt (ClaimedJWKS stmt) entityID entityID (Algorithm stmt) now.

(** * Entity metadata (entity_metadata.go) *)

Record entityMetadata := { FetchEndpoint : string; TrustMarkStatusEndpoint : string }.

Definition entity_metadata_names : list string :=
  ["federation_fetch_endpoint"; "federation_trust_mark_status_endpoint"].

Definition parseEntityMetadata (metadata : members) : option entityMetadata :=
  match metadata !! federationEntityType with
  | None => Some {| FetchEndpoint := ""; TrustMarkStatusEndpoint := "" |}
  | Some raw =>
    strict_raw entity_metadata_names raw ≫= λ m,
    get entity_metadata_names "federation_fetch_endpoint" dec_str "" m ≫= λ fetch,
    get entity_metadata_names "federation_trust_mark_status_endpoint" dec_str "" m ≫= λ status,
    Some {| FetchEndpoint := fetch; TrustMarkStatusEndpoint := status |}
  end.

(** * The walk *)

Record ResolvedEntity := {
  re_EntityID : string;
  re_TrustAnchor : string;
  re_Chain : list string;
  re_Metadata : members;
  re_ExpiresAt : Time;
  re_JWKS : RawMessage;
  re_TrustMarks : list RawTrustMark;
  re_TrustMarkOwners : gmap string TrustMarkOwner;
  re_TrustMarkIssuers : gmap string (list string);
  re_Tokens : list string;
  re_policy : MetadataPolicy;
  re_configurationMetadata : members }.

Record chainWalkState := {
  cw_subjectID : string;
  cw_leafClaims : Claims;
  cw_minExpiry : Time;
  cw_belowStmt : Statement;
  cw_belowIssuer : string;
  cw_belowSubject : string;
  cw_entityAt : string;
  cw_visited : list string;
  cw_chain : list string;
  cw_tokens : list string;
  cw_subordinatePolicies : list subordinatePolicy;
  cw_subordinateConstraints : list subordinateConstraint;
  cw_superiorMetadata : members;
  cw_subjectJWKS : RawMessage;
  cw_entityAtClaims : Claims }.

Definition newChainWalkState (subjectID : string) (leafStmt : Statement) (leafToken : string)
    (leafClaims : Claims) : chainWalkState := {|
  cw_subjectID := subjectID; cw_leafClaims := leafClaims;
  cw_minExpiry := c_ExpiresAt leafClaims; cw_belowStmt := leafStmt;
  cw_belowIssuer := subjectID; cw_belowSubject := subjectID; cw_entityAt := subjectID;
  cw_visited := [subjectID]; cw_chain := [subjectID]; cw_tokens := [leafToken];
  cw_subordinatePolicies := []; cw_subordinateConstraints := []; cw_superiorMetadata := ∅;
  cw_subjectJWKS := RawNil; cw_entityAtClaims := leafClaims |}.

Definition earlier (exp min : Time) : Time := if Before exp min then exp else min.

Definition foldExpiry (exp : Time) (st : chainWalkState) : chainWalkState := {|
  cw_subjectID := cw_subjectID st; cw_leafClaims := cw_leafClaims st;
  cw_minExpiry := earlier exp (cw_minExpiry st); cw_belowStmt := cw_belowStmt st;
  cw_belowIssuer := cw_belowIssuer st; cw_belowSubject := cw_belowSubject st;
  cw_entityAt := cw_entityAt st; cw_visited := cw_visited st; cw_chain := cw_chain st;
  cw_tokens := cw_tokens st; cw_subordinatePolicies := cw_subordinatePolicies st;
  cw_subordinateConstraints := cw_subordinateConstraints st;
  cw_superiorMetadata := cw_superiorMetadata st; cw_subjectJWKS := cw_subjectJWKS st;
  cw_entityAtClaims := cw_entityAtClaims st |}.

(** hopSuperior *)
Record hopSuperior := {
  hs_id : string;
  hs_config : Statement;
  hs_claims : Claims;
  hs_token : string;
  hs_aboveStmt : Statement }.

(** tryHint's branch: one more superior. *)
Definition branch_state (st : chainWalkState) (hint : string) (claims : Claims)
    (aboveToken : string) : chainWalkState := {|
  cw_subjectID := cw_subjectID st; cw_leafClaims := cw_leafClaims st;
  cw_minExpiry := earlier (c_ExpiresAt claims) (cw_minExpiry st);
  cw_belowStmt := cw_belowStmt st; cw_belowIssuer := cw_belowIssuer st;
  cw_belowSubject := cw_belowSubject st; cw_entityAt := cw_entityAt st;
  cw_visited := hint :: cw_visited st; cw_chain := cw_chain st ++ [hint];
  cw_tokens := cw_tokens st ++ [aboveToken];
  cw_subordinatePolicies := cw_subordinatePolicies st;
  cw_subordinateConstraints := cw_subordinateConstraints st;
  cw_superiorMetadata := cw_superiorMetadata st; cw_subjectJWKS := cw_subjectJWKS st;
  cw_entityAtClaims := cw_entityAtClaims st |}.

(** What a hop's superior says of the subtree below it. *)
Definition add_policies (hop : nat) (jwks : RawMessage) (metadata : members)
    (policy : MetadataPolicy) (crit : list string) (constraints : option Constraints)
    (st : chainWalkState) : chainWalkState := {|
  cw_subjectID := cw_subjectID st; cw_leafClaims := cw_leafClaims st;
  cw_minExpiry := cw_minExpiry st; cw_belowStmt := cw_belowStmt st;
  cw_belowIssuer := cw_belowIssuer st; cw_belowSubject := cw_belowSubject st;
  cw_entityAt := cw_entityAt st; cw_visited := cw_visited st; cw_chain := cw_chain st;
  cw_tokens := cw_tokens st;
  cw_subordinatePolicies := cw_subordinatePolicies st ++ [SubordinatePolicy policy crit];
  cw_subordinateConstraints := cw_subordinateConstraints st ++
    match constraints with
    | Some c => [MkSubordinateConstraint c (removelast (cw_chain st))]
    | None => []
    end;
  cw_superiorMetadata := match hop with O => metadata | S _ => cw_superiorMetadata st end;
  cw_subjectJWKS := match hop with O => jwks | S _ => cw_subjectJWKS st end;
  cw_entityAtClaims := cw_entityAtClaims st |}.

(** The constraint checks read the host of an entity ID. *)
Definition url_hostname (entityID : string) : option string := url_Hostname <$> url_parse entityID.

Definition or_err {E A} (f : E → resolve_error) (r : result E A) : result resolve_error A :=
  match r with Ok a => Ok a | Err e => Err (f e) end.

Definition resolved_entity (st : chainWalkState) (sup : hopSuperior) (metadata : members)
    (policy : MetadataPolicy) : ResolvedEntity := {|
  re_EntityID := cw_subjectID st; re_TrustAnchor := hs_id sup; re_Chain := cw_chain st;
  re_Metadata := metadata; re_ExpiresAt := cw_minExpiry st; re_JWKS := cw_subjectJWKS st;
  re_TrustMarks := c_TrustMarks (cw_leafClaims st);
  re_TrustMarkOwners := c_TrustMarkOwners (cw_leafClaims st);
  re_TrustMarkIssuers := c_TrustMarkIssuers (cw_leafClaims st);
  re_Tokens := cw_tokens st ++ [hs_token sup]; re_policy := policy;
  re_configurationMetadata := c_Metadata (cw_leafClaims st) |}.

Definition finalizeTrustChain (st : chainWalkState) (hop : nat) (sup : hopSuperior)
    (anchor : TrustAnchor) (now : Time) : result resolve_error ResolvedEntity :=
  verifyAgainstJWKS (hs_config sup) (JWKS anchor) (hs_id sup) (hs_id sup)
    (Algorithm (hs_config sup)) now ;;
  aboveClaims ← verifyAgainstJWKS (hs_aboveStmt sup) (c_JWKS (hs_claims sup)) (hs_id sup)
    (cw_entityAt st) (Algorithm (hs_aboveStmt sup)) now;
  belowClaims ← verifyAgainstJWKS (cw_belowStmt st) (c_JWKS aboveClaims) (cw_belowIssuer st)
    (cw_belowSubject st) (Algorithm (cw_belowStmt st)) now;
  let st := foldExpiry (c_ExpiresAt belowClaims) (foldExpiry (c_ExpiresAt aboveClaims) st) in
  let st := add_policies hop (c_JWKS aboveClaims) (c_Metadata aboveClaims)
    (c_MetadataPolicy aboveClaims) (c_MetadataPolicyCritical aboveClaims)
    (c_Constraints aboveClaims) st in
  or_err NamingOrLength (checkNamingConstraints url_hostname (cw_subordinateConstraints st)) ;;
  or_err NamingOrLength (checkMaxPathLengthConstraints (cw_subordinateConstraints st)) ;;
  declared ← or_err MetadataRefused
    (applySuperiorMetadata (c_Metadata (cw_leafClaims st)) (cw_superiorMetadata st));
  let leafMetadata := filterAllowedEntityTypes (cw_subordinateConstraints st) declared in
  rp ← or_err MetadataRefused (resolveMetadata (cw_subordinatePolicies st) leafMetadata);
  Ok (resolved_entity st sup rp.1 rp.2).

Definition advanceIntermediateHop (st : chainWalkState) (hop : nat) (sup : hopSuperior)
    (now : Time) : result resolve_error chainWalkState :=
  let above := hs_aboveStmt sup in
  belowClaims ← verifyAgainstJWKS (cw_belowStmt st) (ClaimedJWKS above) (cw_belowIssuer st)
    (cw_belowSubject st) (Algorithm (cw_belowStmt st)) now;
  let st := add_policies hop (ClaimedJWKS above) (ClaimedMetadata above)
    (ClaimedMetadataPolicy above).1 (ClaimedMetadataPolicy above).2 (ClaimedConstraints above)
    (foldExpiry (c_ExpiresAt belowClaims) st) in
  Ok {| cw_subjectID := cw_subjectID st; cw_leafClaims := cw_leafClaims st;
        cw_minExpiry := cw_minExpiry st; cw_belowStmt := above; cw_belowIssuer := hs_id sup;
        cw_belowSubject := cw_entityAt st; cw_entityAt := hs_id sup;
        cw_visited := cw_visited st; cw_chain := cw_chain st; cw_tokens := cw_tokens st;
        cw_subordinatePolicies := cw_subordinatePolicies st;
        cw_subordinateConstraints := cw_subordinateConstraints st;
        cw_superiorMetadata := cw_superiorMetadata st; cw_subjectJWKS := cw_subjectJWKS st;
        cw_entityAtClaims := hs_claims sup |}.

Definition resolveSelfAsTrustAnchor (subjectID : string) (leafStmt : Statement)
    (leafToken : string) (leafClaims : Claims) (anchor : TrustAnchor) (now : Time)
    : result resolve_error ResolvedEntity :=
  verifyAgainstJWKS leafStmt (JWKS anchor) subjectID subjectID (Algorithm leafStmt) now ;;
  Ok {| re_EntityID := subjectID; re_TrustAnchor := subjectID; re_Chain := [subjectID];
        re_Metadata := c_Metadata leafClaims; re_ExpiresAt := c_ExpiresAt leafClaims;
        re_JWKS := JWKS anchor; re_TrustMarks := c_TrustMarks leafClaims;
        re_TrustMarkOwners := c_TrustMarkOwners leafClaims;
        re_TrustMarkIssuers := c_TrustMarkIssuers leafClaims; re_Tokens := [leafToken];
        re_policy := ∅; re_configurationMetadata := c_Metadata leafClaims |}.

Definition is_anchor (id : string) : bool := is_Some_bool (trustAnchorsByID !! id).

Definition trustAnchorsFirst (hints : list string) : list string :=
  List.filter is_anchor hints ++ List.filter (λ h, negb (is_anchor h)) hints.

(** The configuration of an entity, which it signed itself. *)
Definition own_configuration (entityID : string) (now : Time)
    : resolving (Statement * string * Claims) :=
  let* '(config, token) := entityConfiguration entityID in
  if negb (bool_decide (ClaimedIssuer config = entityID)) ||
     negb (bool_decide (ClaimedSubject config = entityID))
  then fail (ClaimedPartiesMismatch (ClaimedIssuer config) (ClaimedSubject config))
  else
    let* claims := lift (verifySelfSigned config entityID now) in
    ret (config, token, claims).

Definition fetchAboveStatement (superiorID : string) (superiorClaims : Claims)
    (entityAt : string) : resolving (Statement * string) :=
  match parseEntityMetadata (c_Metadata superiorClaims) with
  | None => fail (MalformedEntityMetadata superiorID)
  | Some aboveMeta =>
    if bool_decide (FetchEndpoint aboveMeta = "") then fail (NoFetchEndpoint superiorID)
    else
      let* '(aboveStmt, aboveToken) := subordinateStatement (FetchEndpoint aboveMeta) entityAt in
      if negb (bool_decide (ClaimedIssuer aboveStmt = superiorID)) ||
         negb (bool_decide (ClaimedSubject aboveStmt = entityAt))
      then fail (ClaimedPartiesMismatch (ClaimedIssuer aboveStmt) (ClaimedSubject aboveStmt))
      else ret (aboveStmt, aboveToken)
  end.

(** [next] walks on from an intermediate. *)
Definition tryHint (next : chainWalkState → resolving ResolvedEntity) (st : chainWalkState)
    (hop : nat) (hint : string) (now : Time) : resolving ResolvedEntity :=
  let* '(config, token, claims) := own_configuration hint now in
  let* '(aboveStmt, aboveToken) := fetchAboveStatement hint claims (cw_entityAt st) in
  let branch := branch_state st hint claims aboveToken in
  let sup := {| hs_id := hint; hs_config := config; hs_claims := claims; hs_token := token;
                hs_aboveStmt := aboveStmt |} in
  match trustAnchorsByID !! hint with
  | Some anchor => lift (finalizeTrustChain branch hop sup anchor now)
  | None =>
    let* branch := lift (advanceIntermediateHop branch hop sup now) in
    next branch
  end.

Definition decrement (s : RState) : RState := {|
  rs_env := rs_env s; rs_configs := rs_configs s; rs_subordinates := rs_subordinates s;
  rs_budget := (rs_budget s - 1)%Z |}.

(** The loop of walk over the hints; [branches] is what failed so far. *)
Fixpoint try_hints (next : chainWalkState → resolving ResolvedEntity) (st : chainWalkState)
    (hop : nat) (now : Time) (hints : list string) (branches : list (string * resolve_error))
    : resolving ResolvedEntity :=
  match hints with
  | [] => fail (if bool_decide (List.length branches = 0) then NoUnvisitedSuperior (cw_entityAt st)
                else NoPath (cw_entityAt st) branches)
  | hint :: hints =>
    if bool_decide (hint ∈ cw_visited st) then try_hints next st hop now hints branches
    else
      let* budget := gets rs_budget in
      if bool_decide (budget ≤ 0)%Z then fail (TriedTooManySuperiors (cw_entityAt st) branches)
      else
        do* (λ s, (Ok tt, decrement s)) in
        let* r := try (tryHint next st hop hint now) in
        match r with
        | Ok entity => ret entity
        | Err e => try_hints next st hop now hints (branches ++ [(hint, e)])
        end
  end.

(** [more] hops are left before MaxPathLength; [hop] have been made. *)
Fixpoint walk (more : nat) (hop : nat) (now : Time) (st : chainWalkState)
    : resolving ResolvedEntity :=
  match more with
  | O => fail MaxPathLengthExceeded
  | S more =>
    let hints := c_AuthorityHints (cw_entityAtClaims st) in
    if bool_decide (hints = []) then fail (NoAuthorityHints (cw_entityAt st))
    else if bool_decide (MaxAuthorityHints f_limits < Z.of_nat (List.length hints))%Z
    then fail (TooManyAuthorityHints (cw_entityAt st))
    else try_hints (walk more (S hop) now) st hop now (trustAnchorsFirst hints) []
  end.

(** MaxPathLength * MaxAuthorityHints, an int. *)
Definition initial_budget : Z := int64 (MaxPathLength f_limits * MaxAuthorityHints f_limits).

(** Resolve, in the state of its own cache and budget. *)
Definition resolve (subjectID : string) (now : Time) : resolving ResolvedEntity :=
  let* '(leafStmt, leafToken, leafClaims) := own_configuration subjectID now in
  match trustAnchorsByID !! subjectID with
  | Some anchor =>
    lift (resolveSelfAsTrustAnchor subjectID leafStmt leafToken leafClaims anchor now)
  | None =>
    walk (Z.to_nat (MaxPathLength f_limits)) 0 now
      (newChainWalkState subjectID leafStmt leafToken leafClaims)
  end.

Definition Resolve (subjectID : string) : eff f_Env resolve_error ResolvedEntity :=
  if bool_decide (subjectID = "") then fail EmptySubject
  else
    let* now := (λ x, let '(t, x) := f_Clock x in (Ok t, x)) in
    λ env,
      let '(r, s) := resolve subjectID now {| rs_env := env; rs_configs := ∅;
        rs_subordinates := ∅; rs_budget := initial_budget |} in
      (r, rs_env s).
End resolver.
End Resolver.
