(* ===== verification/ResolverTheorems.v ===== *)
(** What a resolved Trust Chain is: src/federation/resolver.go. Every
    statement of it is signed by a key the statement above it vouches for, up
    to a trust anchor's configured keys; it keeps every superior's constraints
    and policy; and finding it takes a bounded number of requests. *)
From S2P Require Import Prelude GoStrings Json GoTime Base64 Effects Storage Platform.
From S2P Require Import JsonCodec.
From S2P Require Import Policy PolicyTheorems Constraints ServerTypes Dpop Jose.
From S2P Require Import Federation.
From S2P Require Import Resolver.
From stdpp Require Import options.

Set Default Proof Using "Type*".

Import Resolver.

Section chains.
Context {F : FederationEnv}.

(** * Signed statements *)

(** A statement is current: issued, unexpired and not too long-lived, the
    clock skew allowed. *)
Definition current (s : Statement) (now : Time) : Prop :=
  let skew := MaxClockSkew f_limits in
  (now ≤ c_ExpiresAt (st_claims s) + skew)%Z ∧
  (c_IssuedAt (st_claims s) - skew ≤ now)%Z ∧
  (Sub (c_ExpiresAt (st_claims s)) now ≤
    SaturatingAdd [MaxStatementLifetime f_limits; skew])%Z.

(** A statement issuer [iss] made about [sub], signed by the key of [jwks] it
    names, and current. *)
Definition vouched (jwks : RawMessage) (iss sub : string) (s : Statement) (now : Time) : Prop :=
  ClaimedIssuer s = iss ∧ ClaimedSubject s = sub ∧
  (∃ keys k, ParseJWKSet jwks = Some keys ∧ k ∈ keys ∧ pk_KeyID k = KeyID s ∧
     Compact_Verify (st_compact s) (pk_PublicKey k) (Algorithm s) = Ok tt) ∧
  current s now.

Lemma Verify_vouches stmt key policy claims :
  Verify stmt key policy = Ok claims →
  claims = st_claims stmt ∧ ClaimedIssuer stmt = ExpectedIssuer policy ∧
  ClaimedSubject stmt = ExpectedSubject policy ∧
  Compact_Verify (st_compact stmt) key (Policy_Algorithm policy) = Ok tt ∧
  (Policy_Now policy ≤ c_ExpiresAt (st_claims stmt) + Policy_MaxClockSkew policy)%Z ∧
  (c_IssuedAt (st_claims stmt) - Policy_MaxClockSkew policy ≤ Policy_Now policy)%Z ∧
  (Sub (c_ExpiresAt (st_claims stmt)) (Policy_Now policy) ≤
    SaturatingAdd [MaxLifetime policy; Policy_MaxClockSkew policy])%Z.
Proof.
  unfold Verify. intros H.
  apply bind_Ok in H as ([] & _ & H). apply bind_Ok in H as ([] & _ & H).
  apply bind_Ok in H as ([] & _ & H). apply bind_Ok in H as ([] & _ & H).
  destruct (Compact_Verify _ _ _) as [[]|]; [|done].
  apply bind_Ok in H as ([] & Hi%guard_err_Ok%bool_decide_eq_true & H).
  apply bind_Ok in H as ([] & Hs%guard_err_Ok%bool_decide_eq_true & H).
  apply bind_Ok in H as ([] & He%guard_err_Ok & H).
  apply bind_Ok in H as ([] & Hl%guard_err_Ok & H).
  apply bind_Ok in H as ([] & Hn%guard_err_Ok & [= <-]).
  unfold After, Before, Add in *. rewrite negb_true_iff, bool_decide_eq_false in He, Hl, Hn.
  split_and!; try done; lia.
Qed.

Lemma try_candidates_Ok stmt policy kid candidates : ∀ last claims,
  try_candidates stmt policy kid candidates last = Ok claims →
  ∃ k, k ∈ candidates ∧ pk_KeyID k = kid ∧ pk_Algorithm k = Policy_Algorithm policy ∧
    Verify stmt (pk_PublicKey k) policy = Ok claims.
Proof.
  induction candidates as [|c candidates IH]; intros last claims H; simpl in H; [done|].
  destruct (negb _ || negb _) eqn:Hm.
  - destruct (IH _ _ H) as (k & Hin & ?). exists k. split; [by right|done].
  - apply orb_false_iff in Hm as [Ha Hk].
    apply negb_false_iff, bool_decide_eq_true in Ha, Hk.
    destruct (Verify stmt _ policy) as [cl|e] eqn:Hv.
    + injection H as <-. exists c. split_and!; [left|done..].
    + destruct (IH _ _ H) as (k & Hin & ?). exists k. split; [by right|done].
Qed.

Lemma verifyAgainstJWKS_Ok stmt jwks iss sub now claims :
  verifyAgainstJWKS stmt jwks iss sub (Algorithm stmt) now = Ok claims →
  claims = st_claims stmt ∧ vouched jwks iss sub stmt now.
Proof.
  unfold verifyAgainstJWKS. destruct (ParseJWKSet jwks) as [keys|] eqn:Hk; [|done].
  intros (k & Hin & Hkid & _ & Hv)%try_candidates_Ok.
  apply Verify_vouches in Hv as (-> & Hi & Hs & Hsig & Hcur). simpl in *.
  split; [done|]. split_and!; [done..|by eauto 10|done].
Qed.

(** * Chains *)

(** The superiors above a subject in order, each with its statement about the
    entity below it: the statement below is signed by a key that statement
    vouches for. *)
Inductive linked (subject : string) (leaf : Statement) (now : Time)
  : list (string * Statement) → string → Statement → Prop :=
| linked_leaf : linked subject leaf now [] subject leaf
| linked_superior links entity below iss sub superior above :
    linked subject leaf now links entity below →
    vouched (ClaimedJWKS above) iss sub below now →
    ClaimedIssuer above = superior → ClaimedSubject above = entity →
    linked subject leaf now (links ++ [(superior, above)]) superior above.

Definition link_policy (l : string * Statement) : subordinatePolicy :=
  SubordinatePolicy (c_MetadataPolicy (st_claims l.2)) (c_MetadataPolicyCritical (st_claims l.2)).

(** The constraints along a chain, each with the entities below its issuer. *)
Fixpoint link_constraints (below : list string) (links : list (string * Statement))
    : list subordinateConstraint :=
  match links with
  | [] => []
  | (superior, s) :: links =>
    match ClaimedConstraints s with
    | Some c => [MkSubordinateConstraint c below]
    | None => []
    end ++ link_constraints (below ++ [superior]) links
  end.

Lemma link_constraints_snoc links : ∀ below superior s,
  link_constraints below (links ++ [(superior, s)]) =
  link_constraints below links ++
    match ClaimedConstraints s with
    | Some c => [MkSubordinateConstraint c (below ++ links.*1)]
    | None => []
    end.
Proof.
  induction links as [|[id st] links IH]; intros below superior s; simpl.
  - by rewrite !app_nil_r.
  - by rewrite IH, <-!app_assoc.
Qed.

(** What the immediate superior says of the subject. *)
Definition first_metadata (links : list (string * Statement)) : members :=
  match links with [] => ∅ | l :: _ => ClaimedMetadata l.2 end.
Definition first_jwks (links : list (string * Statement)) : RawMessage :=
  match links with [] => RawNil | l :: _ => ClaimedJWKS l.2 end.

(** What holds of a walk after [links]. *)
Record walked (subject : string) (leaf : Statement) (now : Time) (st : chainWalkState)
    (links : list (string * Statement)) : Prop := {
  wk_linked : linked subject leaf now links (cw_entityAt st) (cw_belowStmt st);
  wk_subject : cw_subjectID st = subject;
  wk_leaf : cw_leafClaims st = st_claims leaf;
  wk_chain : cw_chain st = subject :: links.*1;
  wk_visited : ∀ id, id ∈ cw_visited st ↔ id ∈ cw_chain st;
  wk_nodup : NoDup (cw_chain st);
  wk_policies : cw_subordinatePolicies st = link_policy <$> links;
  wk_constraints : cw_subordinateConstraints st = link_constraints [subject] links;
  wk_metadata : cw_superiorMetadata st = first_metadata links;
  wk_jwks : cw_subjectJWKS st = first_jwks links;
  wk_leaf_expiry : (cw_minExpiry st ≤ c_ExpiresAt (st_claims leaf))%Z;
  wk_expiry : ∀ l, l ∈ links →
    l.2 = cw_belowStmt st ∨ (cw_minExpiry st ≤ c_ExpiresAt (st_claims l.2))%Z }.

(** What a resolution establishes. *)
Record anchored (subject : string) (now : Time) (r : ResolvedEntity) (leaf : Statement)
    (links : list (string * Statement)) (config : Statement) (anchor : TrustAnchor) : Prop := {
  an_leaf : vouched (ClaimedJWKS leaf) subject subject leaf now;
  an_entity : re_EntityID r = subject;
  an_anchor : trustAnchorsByID !! re_TrustAnchor r = Some anchor;
  an_links : ∃ last, linked subject leaf now links (re_TrustAnchor r) last ∧
    ∃ below, vouched (ClaimedJWKS config) (re_TrustAnchor r) below last now;
  an_config : vouched (JWKS anchor) (re_TrustAnchor r) (re_TrustAnchor r) config now;
  an_chain : re_Chain r = subject :: links.*1;
  an_nodup : NoDup (re_Chain r);
  an_jwks : re_JWKS r = first_jwks links;
  an_expiry : Forall (λ s, re_ExpiresAt r ≤ c_ExpiresAt (st_claims s))%Z
    (leaf :: config :: links.*2);
  an_naming : checkNamingConstraints url_hostname (link_constraints [subject] links) = Ok tt;
  an_length : checkMaxPathLengthConstraints (link_constraints [subject] links) = Ok tt;
  an_metadata : ∃ declared,
    applySuperiorMetadata (c_Metadata (st_claims leaf)) (first_metadata links) = Ok declared ∧
    resolveMetadata (link_policy <$> links)
      (filterAllowedEntityTypes (link_constraints [subject] links) declared) =
      Ok (re_Metadata r, re_policy r) }.

Lemma earlier_le a b : (earlier a b ≤ a ∧ earlier a b ≤ b)%Z.
Proof. unfold earlier, Before. case_bool_decide; lia. Qed.

Lemma first_metadata_snoc links superior above :
  first_metadata (links ++ [(superior, above)]) =
  match List.length links with O => ClaimedMetadata above | S _ => first_metadata links end.
Proof. by destruct links. Qed.

Lemma first_jwks_snoc links superior above :
  first_jwks (links ++ [(superior, above)]) =
  match List.length links with O => ClaimedJWKS above | S _ => first_jwks links end.
Proof. by destruct links. Qed.

Lemma or_err_Ok {E A} (f : E → resolve_error) (r : result E A) a :
  or_err f r = Ok a → r = Ok a.
Proof. by destruct r; intros [= ->]. Qed.

Section hop.
Context (subject : string) (leaf : Statement) (now : Time).
Context (st : chainWalkState) (links : list (string * Statement)).
Context (Hst : walked subject leaf now st links).
Context (hint token aboveToken : string) (config above : Statement).
Context (Hhint : hint ∉ cw_visited st).
Context (Habove : ClaimedIssuer above = hint) (Hsubject : ClaimedSubject above = cw_entityAt st).

Let branch := branch_state st hint (st_claims config) aboveToken.
Let sup := {| hs_id := hint; hs_config := config; hs_claims := st_claims config;
              hs_token := token; hs_aboveStmt := above |}.

Lemma branch_chain : cw_chain branch = subject :: (links ++ [(hint, above)]).*1.
Proof. simpl. rewrite (wk_chain _ _ _ _ _ Hst), fmap_app. done. Qed.

Lemma branch_nodup : NoDup (cw_chain branch).
Proof.
  simpl. apply NoDup_app. split_and!; [apply (wk_nodup _ _ _ _ _ Hst)| |apply NoDup_singleton].
  intros id Hid ->%list_elem_of_singleton. by apply Hhint, (wk_visited _ _ _ _ _ Hst).
Qed.

Lemma branch_constraints :
  cw_subordinateConstraints branch ++
    match ClaimedConstraints above with
    | Some c => [MkSubordinateConstraint c (removelast (cw_chain branch))]
    | None => []
    end = link_constraints [subject] (links ++ [(hint, above)]).
Proof.
  simpl. rewrite link_constraints_snoc, removelast_last, (wk_constraints _ _ _ _ _ Hst).
  by rewrite (wk_chain _ _ _ _ _ Hst).
Qed.

Lemma branch_policies :
  cw_subordinatePolicies branch ++
    [SubordinatePolicy (c_MetadataPolicy (st_claims above))
       (c_MetadataPolicyCritical (st_claims above))] = link_policy <$> (links ++ [(hint, above)]).
Proof. simpl. by rewrite fmap_app, (wk_policies _ _ _ _ _ Hst). Qed.

(** A bound on every expiry folded into the branch. *)
Lemma branch_expiry min :
  (min ≤ c_ExpiresAt (st_claims (cw_belowStmt st)))%Z → (min ≤ cw_minExpiry branch)%Z →
  (min ≤ c_ExpiresAt (st_claims leaf))%Z ∧ (min ≤ c_ExpiresAt (st_claims config))%Z ∧
  ∀ l, l ∈ links → (min ≤ c_ExpiresAt (st_claims l.2))%Z.
Proof.
  simpl. intros Hb Hm. destruct (earlier_le (c_ExpiresAt (st_claims config)) (cw_minExpiry st)).
  pose proof (wk_leaf_expiry _ _ _ _ _ Hst). split_and!; [lia..|].
  intros l Hl. destruct (wk_expiry _ _ _ _ _ Hst l Hl) as [->|]; [done|lia].
Qed.

Lemma advance_walked st' :
  advanceIntermediateHop branch (List.length links) sup now = Ok st' →
  walked subject leaf now st' (links ++ [(hint, above)]).
Proof.
  unfold advanceIntermediateHop. intros (claims & Hv & [= <-])%bind_Ok.
  apply verifyAgainstJWKS_Ok in Hv as (-> & Hv).
  destruct (earlier_le (c_ExpiresAt (st_claims (cw_belowStmt branch))) (cw_minExpiry branch))
    as [He1 He2].
  destruct (branch_expiry _ He1 He2) as (Hleaf & _ & Hl).
  split; cbn [cw_entityAt cw_belowStmt cw_subjectID cw_leafClaims cw_chain cw_visited
    cw_subordinatePolicies cw_subordinateConstraints cw_superiorMetadata cw_subjectJWKS
    cw_minExpiry add_policies foldExpiry hs_id].
  - eapply linked_superior; [apply (wk_linked _ _ _ _ _ Hst)|exact Hv|done..].
  - apply (wk_subject _ _ _ _ _ Hst).
  - apply (wk_leaf _ _ _ _ _ Hst).
  - apply branch_chain.
  - intros id. simpl. rewrite elem_of_cons, elem_of_app, list_elem_of_singleton.
    rewrite (wk_visited _ _ _ _ _ Hst). tauto.
  - apply branch_nodup.
  - apply branch_policies.
  - apply branch_constraints.
  - rewrite first_metadata_snoc. simpl. by rewrite (wk_metadata _ _ _ _ _ Hst).
  - rewrite first_jwks_snoc. simpl. by rewrite (wk_jwks _ _ _ _ _ Hst).
  - exact Hleaf.
  - intros l [Hin| ->%list_elem_of_singleton]%elem_of_app; [right; by apply Hl|by left].
Qed.

Lemma finalize_anchored anchor r :
  trustAnchorsByID !! hint = Some anchor →
  vouched (ClaimedJWKS leaf) subject subject leaf now →
  finalizeTrustChain branch (List.length links) sup anchor now = Ok r →
  anchored subject now r leaf (links ++ [(hint, above)]) config anchor.
Proof.
  intros Hanchor Hself H. unfold finalizeTrustChain in H.
  apply bind_Ok in H as (cc & [_ Hc]%verifyAgainstJWKS_Ok & H).
  apply bind_Ok in H as (ac & [-> Ha]%verifyAgainstJWKS_Ok & H).
  apply bind_Ok in H as (bc & [-> Hb]%verifyAgainstJWKS_Ok & H).
  cbn zeta in H. apply bind_Ok in H as ([] & Hn%or_err_Ok & H). apply bind_Ok in H as ([] & Hlen%or_err_Ok & H).
  apply bind_Ok in H as (declared & Hd%or_err_Ok & H). apply bind_Ok in H as ([resolved policy] & Hrp%or_err_Ok & [= <-]).
  set (m1 := earlier (c_ExpiresAt (st_claims above)) (cw_minExpiry branch)) in *.
  destruct (earlier_le (c_ExpiresAt (st_claims above)) (cw_minExpiry branch)) as [Ea1 Ea2].
  destruct (earlier_le (c_ExpiresAt (st_claims (cw_belowStmt branch))) m1) as [He1 He2].
  destruct (branch_expiry _ He1 ltac:(etrans; [exact He2|exact Ea2])) as (Hleaf & Hconf & Hl).
  pose proof branch_policies as Hpol. pose proof branch_constraints as Hcon.
  split.
  - exact Hself.
  - apply (wk_subject _ _ _ _ _ Hst).
  - exact Hanchor.
  - exists above. split; [|by eexists].
    eapply linked_superior; [apply (wk_linked _ _ _ _ _ Hst)|exact Hb|done..].
  - exact Hc.
  - apply branch_chain.
  - apply branch_nodup.
  - simpl. rewrite first_jwks_snoc. by rewrite (wk_jwks _ _ _ _ _ Hst).
  - rewrite fmap_app. repeat apply Forall_cons_2; [exact Hleaf|exact Hconf|].
    apply Forall_app_2; [|apply Forall_singleton; etrans; [exact He2|exact Ea1]].
    apply Forall_fmap, Forall_forall. exact Hl.
  - rewrite <-Hcon. exact Hn.
  - rewrite <-Hcon. exact Hlen.
  - exists declared. rewrite <-Hcon, <-Hpol, first_metadata_snoc.
    rewrite <-(wk_leaf _ _ _ _ _ Hst), <-(wk_metadata _ _ _ _ _ Hst).
    exact (conj Hd Hrp).
Qed.
End hop.

Lemma own_configuration_Ok id now s config token claims s' :
  own_configuration id now s = (Ok (config, token, claims), s') →
  claims = st_claims config ∧ vouched (ClaimedJWKS config) id id config now.
Proof.
  unfold own_configuration. intros ([c t] & s1 & _ & H)%ebind_Ok.
  destruct (negb _ || negb _); [done|].
  apply ebind_Ok in H as (cl & s2 & [Hv ->]%lift_Ok & [[= -> -> ->] ->]%ret_Ok).
  by apply verifyAgainstJWKS_Ok in Hv.
Qed.

Lemma fetchAboveStatement_Ok superior claims entity s above token s' :
  fetchAboveStatement superior claims entity s = (Ok (above, token), s') →
  ClaimedIssuer above = superior ∧ ClaimedSubject above = entity.
Proof.
  unfold fetchAboveStatement. destruct (parseEntityMetadata _); [|done].
  destruct (bool_decide (_ = "")); [done|].
  intros ([a t] & s1 & _ & H)%ebind_Ok. destruct (negb _ || negb _) eqn:Hc; [done|].
  apply ret_Ok in H as [[= -> ->] ->]. apply orb_false_iff in Hc as [H1 H2].
  by apply negb_false_iff, bool_decide_eq_true in H1, H2.
Qed.

(** A walk that returns an entity returns an anchored one. *)
Definition finds (subject : string) (leaf : Statement) (now : Time) (bound : nat)
    (m : eff RState resolve_error ResolvedEntity) : Prop :=
  ∀ s r s', m s = (Ok r, s') → ∃ links config anchor,
    anchored subject now r leaf links config anchor ∧ List.length links ≤ bound.

Lemma tryHint_finds subject leaf now st links next hint bound :
  vouched (ClaimedJWKS leaf) subject subject leaf now →
  walked subject leaf now st links → hint ∉ cw_visited st → List.length links < bound →
  (∀ st' links', walked subject leaf now st' links' →
    List.length links' = S (List.length links) → finds subject leaf now bound (next st')) →
  finds subject leaf now bound (tryHint next st (List.length links) hint now).
Proof.
  intros Hself Hst Hhint Hb Hnext s r s' H. unfold tryHint in H.
  apply ebind_Ok in H as ([[config token] claims] & s1 & [-> Hc]%own_configuration_Ok & H).
  apply ebind_Ok in H as ([above atoken] & s2 & [Hi Hs]%fetchAboveStatement_Ok & H).
  cbn zeta in H. destruct (trustAnchorsByID !! hint) as [anchor|] eqn:Ha.
  - apply lift_Ok in H as [H ->].
    exists (links ++ [(hint, above)]), config, anchor. split; [by eapply finalize_anchored|].
    rewrite length_app. simpl. lia.
  - apply ebind_Ok in H as (st' & s3 & [Hadv ->]%lift_Ok & H).
    eapply (Hnext st' (links ++ [(hint, above)])); [by eapply advance_walked| |exact H].
    rewrite length_app. simpl. lia.
Qed.

Lemma try_hints_finds subject leaf now st hop next bound hints : ∀ branches,
  (∀ hint, hint ∉ cw_visited st → finds subject leaf now bound (tryHint next st hop hint now)) →
  finds subject leaf now bound (try_hints next st hop now hints branches).
Proof.
  induction hints as [|hint hints IH]; intros branches Hh s r s' H; simpl in H; [done|].
  case_bool_decide as Hv; [by eapply IH|].
  apply ebind_Ok in H as (budget & s1 & _ & H). case_bool_decide; [done|].
  apply ebind_Ok in H as ([] & s2 & _ & H). apply ebind_Ok in H as (x & s3 & Ht & H).
  rewrite try_Ok in Ht. destruct x as [entity|e].
  - apply ret_Ok in H as [-> ->]. by eapply Hh.
  - by eapply IH.
Qed.

Lemma walk_finds subject leaf now : vouched (ClaimedJWKS leaf) subject subject leaf now →
  ∀ more st links, walked subject leaf now st links →
  finds subject leaf now (more + List.length links) (walk more (List.length links) now st).
Proof.
  intros Hself. induction more as [|more IH]; intros st links Hst s r s' H; [done|].
  cbn [walk] in H. destruct (bool_decide (_ = [])); [done|].
  destruct (bool_decide (_ < _)%Z); [done|].
  eapply try_hints_finds; [|exact H]. intros hint Hhint.
  apply tryHint_finds; [done..|lia|]. intros st' links' Hst' Hlen.
  rewrite <-Hlen. replace (S more + List.length links) with (more + List.length links') by lia.
  by apply IH.
Qed.

Lemma walked_start subject leaf token now :
  walked subject leaf now (newChainWalkState subject leaf token (st_claims leaf)) [].
Proof.
  split; try done; simpl.
  - constructor.
  - apply NoDup_singleton.
  - by intros l ?%elem_of_nil.
Qed.

(** A subject that is itself a trust anchor. *)
Definition self_anchored (subject : string) (now : Time) (r : ResolvedEntity) : Prop :=
  ∃ leaf anchor, trustAnchorsByID !! subject = Some anchor ∧
    vouched (ClaimedJWKS leaf) subject subject leaf now ∧
    vouched (JWKS anchor) subject subject leaf now ∧
    re_EntityID r = subject ∧ re_TrustAnchor r = subject ∧ re_Chain r = [subject] ∧
    re_Metadata r = c_Metadata (st_claims leaf) ∧
    re_ExpiresAt r = c_ExpiresAt (st_claims leaf) ∧ re_JWKS r = JWKS anchor.

Lemma Resolve_Ok subject env r env' :
  Resolve subject env = (Ok r, env') →
  self_anchored subject (f_Clock env).1 r ∨
  ∃ leaf links config anchor,
    anchored subject (f_Clock env).1 r leaf links config anchor ∧
    List.length links ≤ Z.to_nat (MaxPathLength f_limits).
Proof.
  unfold Resolve. case_bool_decide as Hne; [done|].
  intros (now & env1 & Hnow & H)%ebind_Ok. destruct (f_Clock env) as [t x]. injection Hnow as <- <-.
  simpl. destruct (resolve _ _ _) as [r' s] eqn:Hr. injection H as -> _.
  unfold resolve in Hr.
  apply ebind_Ok in Hr as ([[leaf token] claims] & s1 & [-> Hself]%own_configuration_Ok & Hr).
  destruct (trustAnchorsByID !! subject) as [anchor|] eqn:Ha.
  - left. apply lift_Ok in Hr as [Hr ->]. unfold resolveSelfAsTrustAnchor in Hr.
    apply bind_Ok in Hr as (c & [-> Hc]%verifyAgainstJWKS_Ok & [= <-]).
    exists leaf, anchor. by split_and!.
  - right. destruct (walk_finds subject leaf t Hself (Z.to_nat (MaxPathLength f_limits)) _ []
      (walked_start subject leaf token t) _ _ _ Hr) as (links & config & anchor & Han & Hlen).
    exists leaf, links, config, anchor. split; [done|]. simpl in Hlen. lia.
Qed.

(** * What every superior of a chain is owed *)

Lemma link_constraints_in pre superior s post c : ∀ below,
  ClaimedConstraints s = Some c →
  MkSubordinateConstraint c (below ++ pre.*1) ∈
    link_constraints below (pre ++ (superior, s) :: post).
Proof.
  induction pre as [|[id st] pre IH]; intros below Hc; simpl.
  - rewrite Hc, app_nil_r. left.
  - apply elem_of_app. right. rewrite (cons_middle id below), app_assoc. by apply IH.
Qed.

(** The entity [superior], speaking with [s] of the subtree whose entities
    are [below], has its way with the resolved metadata. *)
Definition superior_obeyed (r : ResolvedEntity) (below : list string) (s : Statement) : Prop :=
  (∀ et out, re_Metadata r !! et = Some out →
     ∃ result, marshal_object result = Some out ∧
       ∀ claim, spaceDelimitedParameters claim = false →
         policy_satisfied (c_MetadataPolicy (st_claims s)) et claim (param_value result claim)) ∧
  (∀ c, ClaimedConstraints s = Some c →
     (∀ nc id, NamingConstraintsClaim c = Some nc → id ∈ below →
        ∃ host, entityIDHost url_hostname id = Ok host ∧
          (∀ e, e ∈ Excluded nc → ¬ in_namespace e host) ∧
          (Permitted nc = [] ∨ ∃ p, p ∈ Permitted nc ∧ in_namespace p host)) ∧
     (HasMaxPathLength c = true →
        (Z.of_nat (List.length below) - 1 ≤ Constraints.MaxPathLength c)%Z) ∧
     (∀ types et, AllowedEntityTypes c = Some types → is_Some (re_Metadata r !! et) →
        et = federationEntityType ∨ et ∈ types)).

Lemma anchored_obeyed subject now r leaf links config anchor pre superior s post :
  anchored subject now r leaf links config anchor → links = pre ++ (superior, s) :: post →
  superior_obeyed r (subject :: pre.*1) s.
Proof.
  intros [_ _ _ _ _ _ _ _ _ Hn Hl (declared & _ & Hres)] ->.
  pose proof (resolveMetadata_entity_types _ _ _ _ Hres) as Hdom. split.
  - intros et out Hout.
    assert (Hraw : is_Some (filterAllowedEntityTypes
      (link_constraints [subject] (pre ++ (superior, s) :: post)) declared !! et)).
    { apply elem_of_dom. rewrite <-Hdom. apply elem_of_dom. eauto. }
    destruct Hraw as [raw Hraw].
    destruct (resolveMetadata_every_policy _ _ _ _ _ _ Hres Hraw) as (result & out' & Hm & Ho & Hall).
    rewrite Hout in Ho. injection Ho as <-. exists result. split; [done|]. intros claim Hsd.
    specialize (Hall claim Hsd). rewrite Forall_fmap, Forall_forall in Hall.
    apply (Hall (superior, s)). apply elem_of_app. right. left.
  - intros c Hc. pose proof (link_constraints_in pre superior s post c [subject] Hc) as Hin.
    split_and!.
    + intros nc id Hnc Hid. eapply (proj1 (checkNamingConstraints_Ok _ _) Hn); [exact Hin|done..].
    + intros Hhas. exact (proj1 (checkMaxPathLengthConstraints_correct _) Hl _ Hin Hhas).
    + intros types et Ht Hsome. apply elem_of_dom in Hsome. rewrite Hdom in Hsome.
      apply elem_of_dom in Hsome as [raw [_ [|Hall]]%filterAllowedEntityTypes_correct];
        [by left|right]. by eapply Hall.
Qed.

(** * Bounds *)

(** [n] calls of Fetch. *)
Inductive fetches : nat → f_Env → f_Env → Prop :=
| fetches_none env : fetches 0 env env
| fetches_one n env env1 env2 target r :
    fetches n env env1 → f_Fetch target env1 = (r, env2) → fetches (S n) env env2.

Lemma fetches_trans n m e1 e2 e3 : fetches n e1 e2 → fetches m e2 e3 → fetches (n + m) e1 e3.
Proof.
  intros H1 H2. induction H2 as [|m e e' e'' target r _ IH Hf]; [by rewrite Nat.add_0_r|].
  rewrite <-plus_n_Sm. by eapply fetches_one; [apply IH|].
Qed.

(** At most [k] fetches besides two for each superior taken from the budget. *)
Definition spends (k : Z) (s s' : RState) : Prop :=
  ∃ n, fetches n (rs_env s) (rs_env s') ∧
    (Z.of_nat n + 2 * Z.max 0 (rs_budget s') ≤ k + 2 * Z.max 0 (rs_budget s))%Z.

Lemma spends_refl s : spends 0 s s.
Proof. exists 0. split; [constructor|lia]. Qed.

Lemma spends_trans j k s1 s2 s3 : spends j s1 s2 → spends k s2 s3 → spends (j + k) s1 s3.
Proof.
  intros (n & Hn & H1) (m & Hm & H2). exists (n + m). split; [by eapply fetches_trans|lia].
Qed.

Lemma spends_weaken j k s s' : spends j s s' → (j ≤ k)%Z → spends k s s'.
Proof. intros (n & Hn & H) Hle. exists n. split; [done|lia]. Qed.

(** A run that spends at most [k], whatever it returns. *)
Definition costs {A} (k : Z) (m : eff RState resolve_error A) : Prop := respects (spends k) m.

Lemma costs_bind {A B} j k l (m : eff RState resolve_error A) (f : A → eff RState resolve_error B) :
  costs j m → (∀ a, costs k (f a)) → (j + k ≤ l)%Z → (0 ≤ k)%Z → costs l (ebind m f).
Proof.
  intros Hm Hf Hl Hk s r s' H. unfold ebind in H. destruct (m s) as [[a|e] s1] eqn:Hr.
  - eapply spends_weaken; [eapply spends_trans; [by eapply Hm|by eapply Hf]|done].
  - injection H as <- <-. eapply spends_weaken; [by eapply Hm|lia].
Qed.

Lemma costs_pure {A} (r : result resolve_error A) : costs 0 (lift r).
Proof. intros s ? s' [= <- <-]. apply spends_refl. Qed.

Lemma fetch_statement_once target env r env' :
  fetch_statement target env = (r, env') → fetches 1 env env'.
Proof.
  unfold fetch_statement, ebind, map_err. destruct (f_Fetch target env) as [[token|e] env1] eqn:Hf.
  - intros H. assert (env' = env1) as ->.
    { destruct (Parse token); by injection H. }
    by eapply fetches_one; [constructor|].
  - intros [= _ <-]. by eapply fetches_one; [constructor|].
Qed.

Lemma entityConfiguration_costs id : costs 1 (entityConfiguration id).
Proof.
  intros s r s'. unfold entityConfiguration. destruct (rs_configs s !! id).
  { intros [= _ <-]. eapply spends_weaken; [apply spends_refl|lia]. }
  destruct (fetchEntityConfiguration id (rs_env s)) as [f env] eqn:Hf. intros [= _ <-].
  unfold fetchEntityConfiguration in Hf. destruct (wellKnownURL id).
  - exists 1. split; [by eapply fetch_statement_once|simpl; lia].
  - injection Hf as _ <-. exists 0. split; [constructor|simpl; lia].
Qed.

Lemma subordinateStatement_costs endpoint id : costs 1 (subordinateStatement endpoint id).
Proof.
  intros s r s'. unfold subordinateStatement. destruct (rs_subordinates s !! _).
  { intros [= _ <-]. eapply spends_weaken; [apply spends_refl|lia]. }
  destruct (fetchSubordinateStatement endpoint id (rs_env s)) as [f env] eqn:Hf. intros [= _ <-].
  assert (Hone : fetches 0 (rs_env s) env ∨ fetches 1 (rs_env s) env).
  { unfold fetchSubordinateStatement in Hf. destruct (url_parse endpoint) as [u|].
    - destruct (negb _); [injection Hf as _ <-; left; constructor|].
      right. by eapply fetch_statement_once.
    - injection Hf as _ <-. left. constructor. }
  destruct Hone; [exists 0|exists 1]; (split; [done|simpl; lia]).
Qed.

Lemma own_configuration_costs id now : costs 1 (own_configuration id now).
Proof.
  unfold own_configuration. eapply (costs_bind 1 0); [apply entityConfiguration_costs| |lia|done].
  intros [config token]. destruct (negb _ || negb _); [apply (costs_pure (Err _))|].
  eapply (costs_bind 0 0); [apply costs_pure|intros claims; apply (costs_pure (Ok _))|lia|done].
Qed.

Lemma fetchAboveStatement_costs superior claims entity :
  costs 1 (fetchAboveStatement superior claims entity).
Proof.
  assert (Hfail : ∀ e, costs 1 (@fail RState _ (Statement * string) e)).
  { intros e s r s' [= _ <-]. eapply spends_weaken; [apply spends_refl|lia]. }
  unfold fetchAboveStatement. destruct (parseEntityMetadata _); [|apply Hfail].
  destruct (bool_decide _); [apply Hfail|].
  eapply (costs_bind 1 0); [apply subordinateStatement_costs| |lia|done].
  intros [above token]. destruct (negb _ || negb _);
    [apply (costs_pure (Err _))|apply (costs_pure (Ok _))].
Qed.

Lemma tryHint_costs next st hop hint now :
  (∀ st', costs 0 (next st')) → costs 2 (tryHint next st hop hint now).
Proof.
  intros Hnext. unfold tryHint.
  eapply (costs_bind 1 1); [apply own_configuration_costs| |lia|done].
  intros [[config token] claims].
  eapply (costs_bind 1 0); [apply fetchAboveStatement_costs| |lia|done].
  intros [above atoken]. cbn zeta. destruct (trustAnchorsByID !! hint); [apply costs_pure|].
  eapply (costs_bind 0 0); [apply costs_pure|done|lia|done].
Qed.

Lemma try_hints_costs next st hop now hints : ∀ branches,
  (∀ st', costs 0 (next st')) → costs 0 (try_hints next st hop now hints branches).
Proof.
  induction hints as [|hint hints IH]; intros branches Hnext; simpl.
  { apply (costs_pure (Err _)). }
  case_bool_decide as Hv; [by apply IH|].
  intros s r s' H. unfold ebind, gets in H. case_bool_decide as Hb.
  { injection H as _ <-. apply spends_refl. }
  unfold try in H. destruct (tryHint next st hop hint now (decrement s)) as [x s1] eqn:Ht.
  assert (Hspent : spends 0 s s1).
  { apply (tryHint_costs next st hop hint now Hnext) in Ht as (n & Hn & Hle).
    exists n. split; [done|]. simpl in Hle. lia. }
  destruct x as [entity|e].
  - injection H as _ <-. done.
  - apply (IH _ Hnext) in H. by eapply (spends_trans 0 0).
Qed.

Lemma walk_costs more : ∀ hop now st, costs 0 (walk more hop now st).
Proof.
  induction more as [|more IH]; intros hop now st; simpl; [apply (costs_pure (Err _))|].
  destruct (bool_decide (_ = [])); [apply (costs_pure (Err _))|].
  destruct (bool_decide (_ < _)%Z); [apply (costs_pure (Err _))|].
  apply try_hints_costs. intros st'. apply IH.
Qed.

(** * Properties *)

(** C28. A resolved entity is anchored: unless it is itself a configured trust
    anchor, its chain leads to one, within MaxPathLength and without
    repetition. The subject's configuration is its own; each statement of the
    chain is current and signed by a key the statement above it vouches for,
    the last by a key of the trust anchor's configuration, which is signed by
    a key configured for it. The keys resolved are those the immediate
    superior vouches for, and the resolution expires no later than any
    statement it rests on. *)
Theorem resolved_chain_anchored subject env r env' :
  Resolve subject env = (Ok r, env') →
  self_anchored subject (f_Clock env).1 r ∨
  ∃ leaf links config anchor,
    anchored subject (f_Clock env).1 r leaf links config anchor ∧
    List.length links ≤ Z.to_nat (MaxPathLength f_limits).
Proof. apply Resolve_Ok. Qed.


(** C30. A resolution makes a bounded number of requests, whatever the entities it
    asks answer: one for the subject and at most two for each of the
    MaxPathLength * MaxAuthorityHints superiors it may try. *)
Theorem resolution_bounded subject env r env' :
  Resolve subject env = (r, env') →
  ∃ n env0, fetches n env0 env' ∧ (env0 = env ∨ env0 = (f_Clock env).2) ∧
    (Z.of_nat n ≤ 1 + 2 * Z.max 0 initial_budget)%Z.
Proof.
  unfold Resolve. case_bool_decide as Hne.
  { intros [= _ <-]. exists 0, env. split_and!; [constructor|by left|lia]. }
  unfold ebind. destruct (f_Clock env) as [now x]. simpl.
  destruct (resolve _ _ _) as [r' s] eqn:Hr. intros [= _ <-].
  assert (Hcost : costs 1 (resolve subject now)).
  { unfold resolve. eapply (costs_bind 1 0); [apply own_configuration_costs| |lia|done].
    intros [[leaf token] claims]. destruct (trustAnchorsByID !! subject);
      [apply costs_pure|apply walk_costs]. }
  apply Hcost in Hr as (n & Hn & Hle). simpl in Hn, Hle.
  exists n, x. split_and!; [done|by right|lia].
Qed.
End chains.

(** * A concrete federation

    A relying party https://rp below an intermediate https://im below a trust
    anchor https://ta. Keys are named by their kid, and a signature of [input]
    by [key] is [key ++ input]. *)

Definition example_date (sec : Z) : json := JNum (Number false sec 0).
Definition example_jwks (kid : string) : json :=
  JObj [("keys", JArr [JObj [("kty", JStr "EC"); ("crv", JStr "P-256"); ("kid", JStr kid)]])].

Definition example_statement (iss sub kid : string) (rest : list (string * json)) : json :=
  JObj (("iss", JStr iss) :: ("sub", JStr sub) :: ("iat", example_date 1700000000) ::
        ("exp", example_date 1700003600) :: ("jwks", example_jwks kid) :: rest).

Definition example_fetch_endpoint (url : string) : string * json :=
  ("metadata", JObj [("federation_entity", JObj [("federation_fetch_endpoint", JStr url)])]).

Definition federation_texts : gmap string json := {[
  "Hrp" := JObj [("alg", JStr "ES256"); ("typ", JStr jwtType); ("kid", JStr "rp")];
  "Him" := JObj [("alg", JStr "ES256"); ("typ", JStr jwtType); ("kid", JStr "im")];
  "Hta" := JObj [("alg", JStr "ES256"); ("typ", JStr jwtType); ("kid", JStr "ta")];
  "rp" := example_statement "https://rp" "https://rp" "rp"
    [("authority_hints", JArr [JStr "https://im"]);
     ("metadata", JObj [("openid_relying_party", JObj [("client_name", JStr "rp")])])];
  "im" := example_statement "https://im" "https://im" "im"
    [("authority_hints", JArr [JStr "https://ta"]); example_fetch_endpoint "https://im/fetch"];
  "ta" := example_statement "https://ta" "https://ta" "ta"
    [example_fetch_endpoint "https://ta/fetch"];
  "im-rp" := example_statement "https://im" "https://rp" "rp" [];
  "ta-im" := example_statement "https://ta" "https://im" "im"
    [("constraints", JObj [("max_path_length", example_date 1)])] ]}.

Definition example_url (s : string) : option ParsedURL :=
  if has_prefix s "https://" then
    let rest := drop_bytes 8 s in
    let host := hd "" (Split rest "/") in
    let path := drop_bytes (String.length host) rest in
    Some {| url_Scheme := "https"; url_Opaque := ""; url_HasUser := false; url_Host := host;
      url_Hostname := host; url_Port := ""; url_Path := path; url_EscapedPath := path;
      url_RawQuery := ""; url_ForceQuery := false; url_Fragment := ""; url_RawFragment := "" |}
  else None.

Definition federation_platform : Platform := {|
  url_parse := example_url;
  url_string u := url_Scheme u +:+ "://" +:+ url_Host u +:+ url_EscapedPath u;
  ip_is_loopback _ := None;
  raw_length r := match r with RawNil => 0 | _ => 2 end;
  fold_key s := s;
  decodes_losslessly _ := true;
  json_text s := match federation_texts !! s with Some j => Raw j | None => RawInvalid end;
  unicode_Cf _ := false; unicode_visible _ := true;
  raw_length_nil := ltac:(by intros []);
  raw_length_RawNil := eq_refl |}.

Definition federation_jose : JoseCrypto := {|
  PublicKey := string;
  verify_signature _ key input sig := bool_decide (sig = key +:+ input);
  ParseJWK raw _ := unmarshal_object raw ≫= λ m, m !! "kid" ≫= unmarshal_string;
  jwk_Thumbprint key := Some key |}.

(** [payload] signed by the key [kid] names. *)
Definition example_token (kid payload : string) : string :=
  let input := EncodeToString rawURL ("H" +:+ kid) +:+ "." +:+ EncodeToString rawURL payload in
  input +:+ "." +:+ EncodeToString rawURL (kid +:+ input).

Definition federation_tokens : gmap string string := {[
  "rp/.well-known/openid-federation" := example_token "rp" "rp";
  "im/.well-known/openid-federation" := example_token "im" "im";
  "ta/.well-known/openid-federation" := example_token "ta" "ta";
  "im/fetch?https://rp" := example_token "im" "im-rp";
  "ta/fetch?https://im" := example_token "ta" "ta-im" ]}.

Definition with_path (u : ParsedURL) (path query : string) : ParsedURL := {|
  url_Scheme := url_Scheme u; url_Opaque := url_Opaque u; url_HasUser := url_HasUser u;
  url_Host := url_Host u; url_Hostname := url_Hostname u; url_Port := url_Port u;
  url_Path := path; url_EscapedPath := path; url_RawQuery := query;
  url_ForceQuery := url_ForceQuery u; url_Fragment := url_Fragment u;
  url_RawFragment := url_RawFragment u |}.

Definition example_federation : FederationEnv := {|
  f_platform := federation_platform; f_jose := federation_jose;
  f_cfg := {|
    TrustAnchors := [{| EntityID := "https://ta"; JWKS := Raw (example_jwks "ta") |}];
    cfg_Limits := {| MaxPathLength := 3; MaxAuthorityHints := 4;
      MaxStatementLifetime := 86400 * Second; MaxClockSkew := 10 * Second;
      MaxTrustMarkStatusAge := 0 |} |}%Z;
  f_Env := Time;
  f_Clock t := (t, t);
  f_Fetch u := match federation_tokens !!
      (url_Host u +:+ url_Path u +:+
       (if bool_decide (url_RawQuery u = "") then "" else "?" +:+ url_RawQuery u)) with
    | Some token => ret token
    | None => fail tt
    end;
  set_path u path := with_path u path (url_RawQuery u);
  set_sub u id := with_path u (url_Path u) id |}.

#[local] Existing Instance example_federation.

Definition example_resolution_time : Time := (1700000100 * Second)%Z.
Definition example_run := Resolve "https://rp" example_resolution_time.

Lemma example_run_Ok : ∃ r, example_run = (Ok r, example_run.2).
Proof.
  assert (H : is_ok example_run.1 = true) by (vm_compute; reflexivity).
  destruct example_run as [[r|e] env]; [by exists r|done].
Qed.

Lemma example_chain :
  match example_run.1 with
  | Ok r => bool_decide (re_Chain r = ["https://rp"; "https://im"; "https://ta"])
  | Err _ => false
  end = true.
Proof. vm_compute. reflexivity. Qed.

Lemma example_not_self r : example_run.1 = Ok r →
  ¬ self_anchored "https://rp" example_resolution_time r.
Proof.
  intros Hr (leaf & anchor & Hself & _). revert Hself. vm_compute. discriminate.
Qed.

Lemma resolved_chain_anchored_witness :
  ∃ r leaf links config anchor, example_run = (Ok r, example_run.2) ∧
    anchored "https://rp" example_resolution_time r leaf links config anchor.
Proof.
  destruct example_run_Ok as [r Hr].
  destruct (@resolved_chain_anchored example_federation "https://rp" example_resolution_time r example_run.2 Hr)
    as [Hself|(leaf & links & config & anchor & Han & _)].
  - destruct (example_not_self r); [by rewrite Hr|exact Hself].
  - exists r, leaf, links, config, anchor. exact (conj Hr Han).
Defined.


Lemma resolution_bounded_witness :
  ∃ n env0, fetches n env0 example_run.2 ∧ (Z.of_nat n ≤ 25)%Z.
Proof.
  destruct (@resolution_bounded example_federation "https://rp" example_resolution_time example_run.1 example_run.2)
    as (n & env0 & Hn & _ & Hle).
  - unfold example_run. apply surjective_pairing.
  - exists n, env0. split; [exact Hn|exact Hle].
Defined.
