(* ===== verification/Canonical.v ===== *)
(** URI canonicalization: src/internal/canonical/uri.go, with the functions
    of package [net] it calls. [URI] is what a DPoP proof's htu and the
    request's own URI are compared by (RFC 3986 §6.2).

    removeDotSegments' loop is a fuelled function; it consumes at least one
    byte a turn, so the length of its input is fuel enough
    ([remove_dot_segments_total]). After it, redirect and endpoint URLs
    (src/url.go). *)
From S2P Require Import Prelude GoStrings Json Base64 Platform.
From stdpp Require Import options.

(** * Hosts and ports (package net) *)

Fixpoint last_index (s : string) (c : ascii) : option nat :=
  match s with
  | EmptyString => None
  | String d s =>
    match last_index s c with
    | Some i => Some (S i)
    | None => if decide (d = c) then Some 0 else None
    end
  end.

Fixpoint first_index (s : string) (c : ascii) : option nat :=
  match s with
  | EmptyString => None
  | String d s => if decide (d = c) then Some 0 else S <$> first_index s c
  end.

Fixpoint take_prefix (n : nat) (s : string) : string :=
  match n, s with
  | S n, String c s => String c (take_prefix n s)
  | _, _ => EmptyString
  end.

(** [net.SplitHostPort]; [None] is an error. *)
Definition SplitHostPort (hostport : string) : option (string * string) :=
  match last_index hostport ":" with
  | None => None
  | Some i =>
    let port := drop_bytes (S i) hostport in
    match hostport with
    | String "[" rest =>
      match first_index hostport "]" with
      | None => None
      | Some e =>
        if negb (bool_decide (S e = i)) then None
        else if contains_byte rest "[" || contains_byte (drop_bytes (S e) hostport) "]" then None
        else Some (take_prefix (e - 1) rest, port)
      end
    | _ =>
      let host := take_prefix i hostport in
      if contains_byte host ":" || contains_byte hostport "[" || contains_byte hostport "]"
      then None else Some (host, port)
    end
  end.

Definition JoinHostPort (host port : string) : string :=
  if contains_byte host ":" then "[" +:+ host +:+ "]:" +:+ port else host +:+ ":" +:+ port.

Definition isDefaultPort (scheme port : string) : bool :=
  if bool_decide (scheme = "https") then bool_decide (port = "443")
  else if bool_decide (scheme = "http") then bool_decide (port = "80")
  else false.

Definition canonicalHost (host scheme : string) : string :=
  let '(stripped, h, port) :=
    match SplitHostPort host with
    | Some (h, port) => (true, h, port)
    | None => (false, host, "")
    end in
  let h := LowerASCII h in
  if bool_decide (port = "") || isDefaultPort scheme port then
    if stripped && contains_byte h ":" then "[" +:+ h +:+ "]" else h
  else JoinHostPort h port.

(** * Paths *)

Definition isUnreserved (c : ascii) : bool :=
  let n := byte_code c in
  (((97 <=? n) && (n <=? 122)) || ((65 <=? n) && (n <=? 90)) || ((48 <=? n) && (n <=? 57)) ||
   (n =? 45) || (n =? 46) || (n =? 95) || (n =? 126))%N.

Definition unhex (c : ascii) : option N :=
  let n := byte_code c in
  if ((48 <=? n) && (n <=? 57))%N then Some (n - 48)%N
  else if ((97 <=? n) && (n <=? 102))%N then Some (n - 87)%N
  else if ((65 <=? n) && (n <=? 70))%N then Some (n - 55)%N
  else None.

Definition upperHex (c : ascii) : ascii :=
  if ((97 <=? byte_code c) && (byte_code c <=? 102))%N
  then ascii_of_N (byte_code c - 32) else c.

(** The first loop of normalizePath: an escape of an unreserved character is
    decoded, any other spelled in upper case. *)
Fixpoint normalize_escapes (s : string) : string :=
  match s with
  | String c (String x (String y rest) as s') =>
    if decide (c = "%"%char) then
      match unhex x, unhex y with
      | Some a, Some b =>
        let decoded := ascii_of_N (a * 16 + b) in
        if isUnreserved decoded then String decoded (normalize_escapes rest)
        else String "%" (String (upperHex x) (String (upperHex y) (normalize_escapes rest)))
      | _, _ => String c (normalize_escapes s')
      end
    else String c (normalize_escapes s')
  | String c s' => String c (normalize_escapes s')
  | EmptyString => EmptyString
  end.

(** The segment up to the next slash, and what follows. *)
Fixpoint cut_slash (s : string) : string * string :=
  match s with
  | EmptyString => ("", "")
  | String c s' =>
    if decide (c = "/"%char) then ("", s)
    else let '(seg, rest) := cut_slash s' in (String c seg, rest)
  end.

Definition cut_segment (s : string) : string * string :=
  match s with
  | EmptyString => ("", "")
  | String c s => let '(seg, rest) := cut_slash s in (String c seg, rest)
  end.

Definition pop_segment (out : list string) : list string := take (length out - 1) out.

(** One turn of removeDotSegments' loop. *)
Definition dot_segment_step (out : list string) (input : string) : list string * string :=
  if has_prefix input "../" then (out, drop_bytes 3 input)
  else if has_prefix input "./" then (out, drop_bytes 2 input)
  else if has_prefix input "/./" then (out, drop_bytes 2 input)
  else if bool_decide (input = "/.") then (out, "/")
  else if has_prefix input "/../" then (pop_segment out, drop_bytes 3 input)
  else if bool_decide (input = "/..") then (pop_segment out, "/")
  else if bool_decide (input = ".") || bool_decide (input = "..") then (out, "")
  else let '(seg, rest) := cut_segment input in (out ++ [seg], rest).

Fixpoint remove_dot_segments (fuel : nat) (out : list string) (input : string) : option string :=
  if bool_decide (input = "") then Some (join "" out)
  else
    match fuel with
    | O => None
    | S fuel =>
      let '(out, input) := dot_segment_step out input in remove_dot_segments fuel out input
    end.

Definition removeDotSegments (s : string) : string :=
  default "" (remove_dot_segments (String.length s) [] s).

Definition normalizePath (escaped : string) : string :=
  removeDotSegments (normalize_escapes escaped).

(** [url.PathUnescape] of a well-formed escaped path. *)
Fixpoint path_unescape (s : string) : string :=
  match s with
  | String c (String x (String y rest) as s') =>
    if decide (c = "%"%char) then
      match unhex x, unhex y with
      | Some a, Some b => String (ascii_of_N (a * 16 + b)) (path_unescape rest)
      | _, _ => String c (path_unescape s')
      end
    else String c (path_unescape s')
  | String c s' => String c (path_unescape s')
  | EmptyString => EmptyString
  end.

(** The parts of the canonical form: no user, query or fragment. *)
Definition canonical_parts (u : ParsedURL) : ParsedURL :=
  let scheme := LowerASCII (url_Scheme u) in
  let host := canonicalHost (url_Host u) scheme in
  let path := normalizePath (url_EscapedPath u) in
  let path := if bool_decide (path = "") && negb (bool_decide (host = "")) &&
                 (bool_decide (scheme = "https") || bool_decide (scheme = "http"))
              then "/" else path in
  let path := if bool_decide (path = "%2A") then "*" else path in
  let dotted := bool_decide (host = "") && has_prefix (path_unescape path) "//" in
  let path := if dotted then "/." +:+ path else path in {|
  url_Scheme := scheme; url_Opaque := url_Opaque u; url_HasUser := false; url_Host := host;
  url_Hostname := LowerASCII (url_Hostname u); url_Port := url_Port u;
  url_Path := path_unescape path; url_EscapedPath := path; url_RawQuery := "";
  url_ForceQuery := url_ForceQuery u; url_Fragment := ""; url_RawFragment := "" |}.

Definition URI `{Platform} (u : ParsedURL) : string := url_string (canonical_parts u).

(** [upperPercentEncodings]: the hexadecimal digits of each well-formed escape. *)
Fixpoint upperPercentEncodings (s : string) : string :=
  match s with
  | String c (String x (String y rest) as s') =>
    if decide (c = "%"%char) then
      match unhex x, unhex y with
      | Some _, Some _ =>
        String "%" (String (upperHex x) (String (upperHex y) (upperPercentEncodings rest)))
      | _, _ => String c (upperPercentEncodings s')
      end
    else String c (upperPercentEncodings s')
  | String c s' => String c (upperPercentEncodings s')
  | EmptyString => EmptyString
  end.

Definition HasNormalPath (u : ParsedURL) : bool :=
  bool_decide (url_Opaque u = "") &&
  bool_decide (normalizePath (url_EscapedPath u) = upperPercentEncodings (url_EscapedPath u)).

(** * Dot segments *)

Lemma drop_bytes_length n s : String.length (drop_bytes n s) = String.length s - n.
Proof. revert s. induction n as [|n IH]; intros [|c s]; simpl; auto with lia. Qed.

Lemma cut_slash_spec s : s = (cut_slash s).1 +:+ (cut_slash s).2.
Proof.
  induction s as [|c s IH]; simpl; [done|]. case_decide; [done|].
  destruct (cut_slash s) as [seg rest]. simpl in *. by rewrite IH.
Qed.

Lemma cut_segment_spec s : s = (cut_segment s).1 +:+ (cut_segment s).2.
Proof.
  destruct s as [|c s]; simpl; [done|]. pose proof (cut_slash_spec s) as Hs.
  destruct (cut_slash s). simpl in *. by rewrite Hs.
Qed.

Lemma has_prefix_length s p : has_prefix s p = true → String.length p ≤ String.length s.
Proof. intros [r ->]%has_prefix_spec. rewrite string_length_app. lia. Qed.

(** Every turn shortens what is left to read. *)
Lemma dot_segment_step_shrinks out input :
  input ≠ "" → String.length (dot_segment_step out input).2 < String.length input.
Proof.
  intros Hne. unfold dot_segment_step.
  assert (Hlen : 0 < String.length input) by (destruct input; simpl; [done|lia]).
  repeat match goal with
  | |- context [if has_prefix ?s ?p then _ else _] => destruct (has_prefix s p) eqn:?
  | H : has_prefix _ _ = true |- _ => apply has_prefix_length in H; simpl in H
  | |- context [bool_decide (?a = ?b)] => destruct (bool_decide_reflect (a = b))
  end; subst; cbn [snd]; rewrite ?drop_bytes_length; try (simpl; lia).
  destruct input as [|c s]; [done|]. simpl. pose proof (cut_slash_spec s) as Hs.
  destruct (cut_slash s) as [seg rest]. simpl in *.
  rewrite Hs, string_length_app. lia.
Qed.

Lemma remove_dot_segments_fuel fuel : ∀ out input,
  String.length input ≤ fuel → is_Some (remove_dot_segments fuel out input).
Proof.
  induction fuel as [|fuel IH]; intros out input Hlen; cbn [remove_dot_segments];
    case_bool_decide as Hne; try by eexists.
  - destruct input; simpl in *; [done|lia].
  - pose proof (dot_segment_step_shrinks out input Hne) as Hlt.
    destruct (dot_segment_step out input) as [out' input']. apply IH. simpl in Hlt. lia.
Qed.

(** C36. removeDotSegments always returns: its result is the loop's, never the
    default. *)
Theorem remove_dot_segments_total s :
  remove_dot_segments (String.length s) [] s = Some (removeDotSegments s).
Proof.
  unfold removeDotSegments. destruct (remove_dot_segments_fuel (String.length s) [] s) as [t ->];
    [done|]. done.
Qed.

(** * URLs: the parsing of redirect, endpoint and issuer URLs (src/url.go),
    query strings (src/internal/querystring/querystring.go), and
    [url.Values.Encode] as the authorization endpoint calls it. A parsed
    [fapi.URL] is the ParsedURL it holds; options are two booleans. *)

Record urlOptions := {
  allowLoopbackHTTP : bool;
  allowPrivateUseScheme : bool }.

Definition no_options : urlOptions := {| allowLoopbackHTTP := false; allowPrivateUseScheme := false |}.
Definition loopback_option : urlOptions :=
  {| allowLoopbackHTTP := true; allowPrivateUseScheme := false |}.
(** AllowLoopbackHTTP and AllowPrivateUseScheme. *)
Definition native_options : urlOptions :=
  {| allowLoopbackHTTP := true; allowPrivateUseScheme := true |}.

(** [strings.Contains(raw, "#")] *)
Definition hasFragment (raw : string) : bool := contains_byte raw "#".

Definition isLabelRune (c : ascii) : bool :=
  let n := byte_code c in
  (((97 <=? n) && (n <=? 122)) || ((65 <=? n) && (n <=? 90)) ||
   ((48 <=? n) && (n <=? 57)) || (n =? 45))%N.

Fixpoint all_label (s : string) : bool :=
  match s with EmptyString => true | String c s => isLabelRune c && all_label s end.

(** A label neither empty nor starting or ending with a hyphen. *)
Definition label_ok (label : string) : bool :=
  negb (bool_decide (label = "")) && negb (has_prefix label "-") &&
  negb (bool_decide (drop_bytes (String.length label - 1) label = "-")) && all_label label.

Definition isReverseDomainScheme (scheme : string) : bool :=
  let labels := Split scheme "." in
  bool_decide (2 ≤ length labels) && forallb label_ok labels.

Section urls.
Context `{Platform}.

Definition isLoopbackHost (hostname : string) : bool :=
  EqualFoldASCII hostname "localhost" || bool_decide (ip_is_loopback hostname = Some true).

(** The parsed URL with its scheme and host in lowercase. *)
Definition lowered (u : ParsedURL) : ParsedURL := {|
  url_Scheme := LowerASCII (url_Scheme u); url_Opaque := url_Opaque u;
  url_HasUser := url_HasUser u; url_Host := LowerASCII (url_Host u);
  url_Hostname := LowerASCII (url_Hostname u); url_Port := url_Port u; url_Path := url_Path u;
  url_EscapedPath := url_EscapedPath u; url_RawQuery := url_RawQuery u;
  url_ForceQuery := url_ForceQuery u; url_Fragment := url_Fragment u;
  url_RawFragment := url_RawFragment u |}.

(** [None] is an error. A URL is absolute when it has a scheme. *)
Definition parseSecureURL (raw : string) (o : urlOptions) : option ParsedURL :=
  if bool_decide (raw = "") then None
  else
    url_parse raw ≫= λ u,
    if bool_decide (url_Scheme u = "") || bool_decide (url_Host u = "") ||
       negb (IsASCII (url_Host u)) || url_HasUser u || hasFragment raw
    then None
    else if bool_decide (url_Scheme u = "https") then Some (lowered u)
    else if bool_decide (url_Scheme u = "http") then
      if allowLoopbackHTTP o && isLoopbackHost (url_Hostname u) then Some (lowered u) else None
    else None.

Definition parsePrivateUseURL (raw : string) (u : ParsedURL) : option ParsedURL :=
  if negb (isReverseDomainScheme (url_Scheme u)) then None
  else if negb (bool_decide (url_Opaque u = "")) || negb (bool_decide (url_Host u = "")) ||
          url_HasUser u || negb (has_prefix (url_Path u) "/") || has_prefix (url_Path u) "//" ||
          has_prefix (url_string u) (url_Scheme u +:+ "://")
  then None
  else if hasFragment raw then None
  else Some u.

Definition ParseRedirectURL (raw : string) (o : urlOptions) : option ParsedURL :=
  match url_parse raw with
  | Some u =>
    if allowPrivateUseScheme o && negb (bool_decide (url_Scheme u ∈ ["http"; "https"; ""]))
    then parsePrivateUseURL raw u
    else parseSecureURL raw o
  | None => parseSecureURL raw o
  end.

Definition ParseEndpointURL (raw : string) (o : urlOptions) : option ParsedURL :=
  parseSecureURL raw o.

Definition ParseIssuerURL (raw : string) (o : urlOptions) : option ParsedURL :=
  parseSecureURL raw o ≫= λ u,
  if negb (bool_decide (url_RawQuery u = "")) || url_ForceQuery u then None else Some u.

(** A redirect destination is https, loopback http where it is allowed, or a
    private-use scheme where those are; it never carries a fragment. *)
Lemma ParseRedirectURL_scheme raw o u :
  ParseRedirectURL raw o = Some u →
  hasFragment raw = false ∧ url_HasUser u = false ∧
  (url_Scheme u = "https" ∧ url_Host u ≠ "" ∨
   url_Scheme u = "http" ∧ allowLoopbackHTTP o = true ∨
   allowPrivateUseScheme o = true ∧ isReverseDomainScheme (url_Scheme u) = true).
Proof.
  assert (∀ raw o u, parseSecureURL raw o = Some u →
    hasFragment raw = false ∧ url_HasUser u = false ∧
    (url_Scheme u = "https" ∧ url_Host u ≠ "" ∨ url_Scheme u = "http" ∧ allowLoopbackHTTP o = true))
    as Hsecure.
  { clear. intros raw o u. unfold parseSecureURL. case_bool_decide; [done|].
    destruct (url_parse raw) as [v|]; [|done]. cbn [mbind option_bind].
    destruct (bool_decide_reflect (url_Scheme v = "")); [done|].
    destruct (bool_decide_reflect (url_Host v = "")) as [|Hhost]; [done|]. cbn [orb].
    destruct (IsASCII _); [|done]. destruct (url_HasUser v) eqn:Hu; [done|].
    destruct (hasFragment raw); [done|]. cbn [orb negb].
    assert (LowerASCII (url_Host v) ≠ "") as Hlow by (intros He; by destruct (url_Host v)).
    destruct (bool_decide_reflect (url_Scheme v = "https")) as [Hs|].
    { intros [= <-]. simpl. rewrite Hs. split_and!; [done..|]. by left. }
    destruct (bool_decide_reflect (url_Scheme v = "http")) as [Hs|]; [|done].
    destruct (allowLoopbackHTTP o) eqn:Hl; [|done]. cbn [andb]. destruct (isLoopbackHost _); [|done].
    intros [= <-]. simpl. rewrite Hs. split_and!; [done..|]. by right. }
  unfold ParseRedirectURL. destruct (url_parse raw) as [v|] eqn:Hp.
  2: { intros (?&?&?)%Hsecure. naive_solver. }
  destruct (_ && _) eqn:Hpriv.
  2: { intros (?&?&?)%Hsecure. naive_solver. }
  apply andb_true_iff in Hpriv as [Hpriv _]. unfold parsePrivateUseURL.
  destruct (isReverseDomainScheme _) eqn:Hr; [|done]. cbn [negb].
  destruct (url_HasUser v) eqn:Hu; [by rewrite !orb_true_r|].
  destruct (_ || _); [done|]. destruct (hasFragment raw); [done|]. intros [= <-].
  split_and!; [done..|]. by right; right.
Qed.
End urls.

(** * Query strings *)

(** [strings.HasSuffix(raw, "&")] *)
Definition ends_ampersand (raw : string) : bool :=
  bool_decide (drop_bytes (String.length raw - 1) raw = "&").

(** querystring.Append *)
Definition Append (raw add : string) : string :=
  if bool_decide (add = "") then raw
  else if bool_decide (raw = "") then add
  else if ends_ampersand raw then raw +:+ add
  else raw +:+ "&" +:+ add.

Definition upper_hex (n : N) : ascii :=
  ascii_of_N (if (n <? 10)%N then n + 48 else n + 55)%N.

(** [url.QueryEscape] *)
Fixpoint QueryEscape (s : string) : string :=
  match s with
  | EmptyString => EmptyString
  | String c s =>
    let n := byte_code c in
    if (isLabelRune c || (n =? 95) || (n =? 46) || (n =? 126))%N then String c (QueryEscape s)
    else if (n =? 32)%N then String "+" (QueryEscape s)
    else String "%" (String (upper_hex (n / 16)) (String (upper_hex (n mod 16)) (QueryEscape s)))
  end.

(** [url.Values.Encode] of one value for each of the names, which are in
    ascending order. *)
Definition Encode (values : list (string * string)) : string :=
  join "&" ((λ p, QueryEscape p.1 +:+ "=" +:+ QueryEscape p.2) <$> values).

(** What was there stays first. *)
Lemma Append_prefix raw add : ∃ rest, Append raw add = raw +:+ rest.
Proof.
  unfold Append. case_bool_decide; [exists ""; by rewrite string_app_nil_r|].
  case_bool_decide; [subst; by exists add|]. destruct (ends_ampersand raw); eauto.
Qed.
