(* ===== verification/Extensions.v ===== *)
(** Registered custom request parameters: src/extension/definition.go,
    registry.go and source.go, with isManagedTokenClaim and
    checkExtensionClaimNames of src/server/identity_claims.go.

    A Definition[T] is a record over its Go type T, with what reflection and
    encoding/json derive from T among its fields; the registry holds each
    behind the interface Registered. A map is visited in no particular order:
    [Registry_Parse] succeeds when every member of it would. The server's
    configuration, which holds a registry, is src/server/config.go's. *)
From S2P Require Import Prelude GoStrings Json GoTime Digests Storage Platform.
From S2P Require Import ServerTypes Rar JsonCodec Records Claims.
From stdpp Require Import options.

(** * Definitions *)

(** Source, a bit mask. *)
Definition SourceMask := N.
Definition SourcePlainParameter : SourceMask := 1%N.
Definition SourceRequestObject : SourceMask := 2%N.
Definition Allows_source (s one : SourceMask) : bool := negb (bool_decide (N.land s one = 0%N)).

(** Cardinality and Sensitivity: the iota constants, 0 for none. *)
Definition Single : N := 1%N.
Definition Multiple : N := 2%N.
Definition NotSensitive : N := 1%N.
Definition Sensitive : N := 2%N.

Record ExtDefinition (T : Type) := {
  ext_Name : string;
  ext_Cardinality : N;
  ext_AllowedSources : SourceMask;
  ext_MaxBytes : Z;
  ext_Sensitivity : N;
  ext_ReturnInTokenClaims : bool;
  ext_Validate : option (T → bool);
  (* What reflection and encoding/json derive from T. *)
  ext_isSlice : bool;
  ext_tagged_field_case_ok : RawMessage → bool;
  ext_decode_known_fields : RawMessage → option T }.
Arguments ext_Name {T}. Arguments ext_Cardinality {T}. Arguments ext_AllowedSources {T}.
Arguments ext_MaxBytes {T}. Arguments ext_Sensitivity {T}. Arguments ext_ReturnInTokenClaims {T}.
Arguments ext_Validate {T}. Arguments ext_isSlice {T}. Arguments ext_tagged_field_case_ok {T}.
Arguments ext_decode_known_fields {T}.

Record Registered := {
  reg_name : string;
  reg_cardinalityOK : bool;
  reg_sensitivityOK : bool;
  reg_returnInTokenClaims : bool;
  (* whether validate accepts a value from a source *)
  reg_validate : RawMessage → SourceMask → bool }.

Section definition.
Context `{Platform} {T : Type} (d : ExtDefinition T).

Definition sensitivityOK : bool :=
  bool_decide (ext_Sensitivity d = NotSensitive) || bool_decide (ext_Sensitivity d = Sensitive).

Definition cardinalityOK : bool :=
  if bool_decide (ext_Cardinality d = Single) then negb (ext_isSlice d)
  else if bool_decide (ext_Cardinality d = Multiple) then ext_isSlice d
  else false.

Definition checkDuplicateMembers (raw : RawMessage) : bool :=
  match raw with Raw j => is_ok (checkValueMembers false j) | _ => false end.

Definition ext_validate (raw : RawMessage) (source : SourceMask) : bool :=
  Allows_source (ext_AllowedSources d) source &&
  bool_decide (0 < ext_MaxBytes d)%Z &&
  bool_decide (Z.of_nat (raw_length raw) ≤ ext_MaxBytes d)%Z &&
  checkDuplicateMembers raw && ext_tagged_field_case_ok d raw &&
  match ext_decode_known_fields d raw with
  | Some v => hook_ok (ext_Validate d) v
  | None => false
  end.

(** The definition as the interface value the registry holds. *)
Definition ext_registered : Registered := {|
  reg_name := ext_Name d; reg_cardinalityOK := cardinalityOK; reg_sensitivityOK := sensitivityOK;
  reg_returnInTokenClaims := ext_ReturnInTokenClaims d; reg_validate := ext_validate |}.
End definition.

(** * The registry *)

Abbreviation Registry := (gmap string Registered).
Abbreviation Values := (gmap string RawMessage).

Definition checkDefinition (d : Registered) : bool :=
  negb (bool_decide (reg_name d = "")) && reg_cardinalityOK d && reg_sensitivityOK d &&
  negb (reg_returnInTokenClaims d && ReservedInTokens ClientSource (reg_name d)).

Fixpoint index_registered (defs : list Registered) (byName : Registry) : option Registry :=
  match defs with
  | [] => Some byName
  | d :: defs =>
    if negb (checkDefinition d) then None
    else if bool_decide (is_Some (byName !! reg_name d)) then None
    else index_registered defs (<[reg_name d := d]> byName)
  end.

Definition NewRegistry (defs : list Registered) : option Registry := index_registered defs ∅.

(** Whether Parse keeps a parameter, and whether it is one it validates. *)
Definition known (r : Registry) (core : list string) (name : string) : bool :=
  bool_decide (name ∈ core) || is_Some_bool (r !! name).
Definition custom (r : Registry) (core : list string) (name : string) : bool :=
  negb (bool_decide (name ∈ core)) && is_Some_bool (r !! name).

(** The values, and the parameters without the unregistered names Parse
    deletes; [None] is an error. *)
Definition Registry_Parse (r : Registry) (params : gmap string RawMessage) (core : list string)
    (source : SourceMask) : option (Values * gmap string RawMessage) :=
  let values := filter (λ p, Is_true (custom r core p.1)) params in
  let ok name raw :=
    match r !! name with Some d => reg_validate d raw source | None => true end in
  if forallb (λ p, ok p.1 p.2) (map_to_list values)
  then Some (values, filter (λ p, Is_true (known r core p.1)) params)
  else None.

(** AsParameters of the registry's own Definitions. *)
Definition AsParameters (r : Registry) (values : Values) : gmap string RawMessage :=
  filter (λ p, Is_true (match r !! p.1 with
                        | Some d => reg_returnInTokenClaims d
                        | None => false
                        end)) values.

(** ** The claims of a token no extension may name *)

Definition GrantTypeClaim : string := "grant_type".

Definition serverTokenClaims : list string :=
  [RequestedUserinfoClaimsKey; RequestedUserinfoClaimValuesKey; Digests.Claim; CodeClaim;
   GrantTypeClaim; PairwiseSectorClaim; "client_sub"].

Definition isManagedTokenClaim (name : string) : bool :=
  ReservedInTokens ClientSource name || bool_decide (name ∈ serverTokenClaims).

Definition TokenClaimNames (r : Registry) : list string :=
  (filter (λ p, Is_true (reg_returnInTokenClaims p.2)) (map_to_list r)).*1.

(** false is an error. *)
Definition checkExtensionClaimNames (r : Registry) : bool :=
  forallb (λ name, negb (isManagedTokenClaim name)) (TokenClaimNames r).

(** * Laws *)

Lemma index_registered_spec defs : ∀ m r,
  index_registered defs m = Some r →
  (∀ name d, m !! name = Some d → reg_name d = name ∧ checkDefinition d = true) →
  ∀ name d, r !! name = Some d → reg_name d = name ∧ checkDefinition d = true.
Proof.
  induction defs as [|d defs IH]; intros m r; simpl; [by intros [= <-]|].
  destruct (checkDefinition d) eqn:Hc; [|done]. case_bool_decide; [done|].
  intros Hr Hm. apply (IH _ _ Hr). intros name e [[<- <-]|[_ ?]]%lookup_insert_Some; by auto.
Qed.

Lemma Registry_Parse_spec r params core source values params' :
  Registry_Parse r params core source = Some (values, params') →
  (∀ name raw, values !! name = Some raw ↔
    params !! name = Some raw ∧ (name ∉ core) ∧
    ∃ d, r !! name = Some d ∧ reg_validate d raw source = true) ∧
  (∀ name raw, params' !! name = Some raw ↔
    params !! name = Some raw ∧ (name ∈ core ∨ is_Some (r !! name))).
Proof.
  unfold Registry_Parse. destruct (forallb _ _) eqn:Hok; [|done]. intros [= <- <-].
  rewrite forallb_forall in Hok. split; intros name raw; rewrite map_lookup_filter_Some; simpl.
  - unfold custom. rewrite andb_True, negb_True, bool_decide_spec. split.
    + intros [Hp [Hc Hr]]. apply Is_true_true in Hr.
      split; [done|]. split; [done|]. destruct (r !! name) as [d|] eqn:Hd; [|done].
      exists d. split; [done|].
      specialize (Hok (name, raw)). simpl in Hok. rewrite Hd in Hok. apply Hok, list_elem_of_In.
      apply elem_of_map_to_list, map_lookup_filter_Some. simpl. split; [done|].
      unfold custom. rewrite Hd. rewrite bool_decide_false by done. done.
    + intros (Hp & Hc & d & Hd & _). rewrite Hd. done.
  - unfold known. rewrite orb_True, bool_decide_spec. split; intros [Hp Hk]; (split; [done|]).
    + destruct Hk as [Hk|Hk]; [by left|right]. by destruct (r !! name).
    + destruct Hk as [Hk|[d ->]]; [by left|by right].
Qed.

(** A client's own parameter never becomes a claim a token's recipient reads
    as the server's: whatever the registry an accepted configuration holds,
    the extension parameters a request is granted name no registered,
    authority or server-managed claim. *)
Lemma extension_claims_unmanaged r params core source values params' name :
  checkExtensionClaimNames r = true →
  Registry_Parse r params core source = Some (values, params') →
  is_Some (AsParameters r values !! name) → isManagedTokenClaim name = false ∧ (name ∉ core) ∧
  AsParameters r values !! name = params !! name.
Proof.
  intros Hr Hp [raw Hraw]. destruct (Registry_Parse_spec _ _ _ _ _ _ Hp) as [Hv _].
  pose proof Hraw as Hl. apply map_lookup_filter_Some in Hl as [Hval Hret]. simpl in Hret.
  apply Hv in Hval as (Hpar & Hcore & d & Hd & _). rewrite Hd in Hret. apply Is_true_true in Hret.
  split; [|split; [done|by rewrite Hraw]].
  unfold checkExtensionClaimNames in Hr. rewrite forallb_forall in Hr.
  apply negb_true_iff, Hr, list_elem_of_In. unfold TokenClaimNames.
  apply list_elem_of_fmap. exists (name, d). split; [done|].
  apply list_elem_of_filter. split; [by apply Is_true_true|]. by apply elem_of_map_to_list.
Qed.

(** * The server's configuration: Config of src/server/config.go, what the
    modelled code reads of it. *)

(** Profile and Assurance: the iota constants, 0 for none. *)
Definition Profile := N.
Definition ProfileFAPISecurity : Profile := 1%N.
Definition ProfileFAPISecurityWithMessageSigning : Profile := 2%N.
Definition Assurance := N.
Definition AssuranceDevelopment : Assurance := 1%N.
Definition AssuranceProduction : Assurance := 2%N.

(** A [fapi.URL] is the URL it holds, [None] when it is zero. *)
Record Config := {
  cfg_Issuer : string;
  cfg_Profile : Profile;
  cfg_Assurance : Assurance;
  PushedAuthorizationRequestEndpoint : option ParsedURL;
  MTLSPushedAuthorizationRequestEndpoint : option ParsedURL;
  TokenEndpoint : option ParsedURL;
  MTLSTokenEndpoint : option ParsedURL;
  BackchannelAuthenticationEndpoint : option ParsedURL;
  MTLSBackchannelAuthenticationEndpoint : option ParsedURL;
  RevocationEndpoint : option ParsedURL;
  MTLSRevocationEndpoint : option ParsedURL;
  ClientAssertionAlgorithms : list SignatureAlgorithm;
  RequestObjectAlgorithms : list SignatureAlgorithm;
  BackchannelAuthenticationRequestAlgorithms : list SignatureAlgorithm;
  cfg_Limits : Limits;
  cfg_Subjects : SubjectConfig;
  cfg_Extensions : Registry;
  cfg_RAR : option RARRegistry;
  AdditionalGrantTypes : list string;
  cfg_Resources : list string;
  RequireBindingMessage : bool;
  OAuthOnly : bool;
  AttestationBasedClientAuthentication : bool;
  ClientAttestationAlgorithms : list SignatureAlgorithm;
  ClientAttestationPoPAlgorithms : list SignatureAlgorithm;
  ClientCredentialsGrant : bool }.
