(* ===== verification/RequestObject.v ===== *)
(** Signed request objects (RFC 9101): src/internal/requestobject/claims.go
    and verify.go. A claims set is the payload's members less the registered
    JWT claims, which leave the authorization request parameters. *)
From S2P Require Import Prelude GoStrings Json GoTime Platform JsonCodec Numeric.
From S2P Require Import Effects Storage ServerTypes Dpop Jose.
From stdpp Require Import options.

Module Objects.

Definition jwtType : string := "oauth-authz-req+jwt".
Definition isRequestObjectType (typ : string) : bool := TypeIs typ jwtType || TypeIs typ "JWT".

Inductive error :=
| ErrMalformedClaims | ErrClientIDIssuerMismatch | ErrWrongType | ErrJose (e : verify_error)
| ErrPolicy | ErrNoCandidate | ErrIssuerMismatch | ErrUnexpectedSubject | ErrAudienceMismatch
| ErrMissingIssuedAt | ErrIssuedInFuture | ErrExpired | ErrLifetimeExceeded | ErrMissingNotBefore
| ErrNotYetValid | ErrNotBeforeTooOld | ErrMissingJTI | ErrReplay.

Definition is_signature_error (e : error) : bool :=
  match e with ErrJose ErrInvalidSignature => true | _ => false end.

(** * Claims *)

(** Each pop also removes the member it reads. *)
Abbreviation members := (gmap string RawMessage).
Abbreviation pop A := (members → result error (A * members)).

(** The string and whether it was present. *)
Definition popString (key : string) (required : bool) : pop (string * bool) := λ m,
  match m !! key with
  | None => if required then Err ErrMalformedClaims else Ok ("", false, m)
  | Some raw =>
    match unmarshal_string raw with
    | Some s => if bool_decide (s = "") then Err ErrMalformedClaims else Ok (s, true, delete key m)
    | None => Err ErrMalformedClaims
    end
  end.

Definition popStringOrArray (key : string) : pop (list string) := λ m,
  match m !! key with
  | None => Err ErrMalformedClaims
  | Some raw =>
    match unmarshal_string raw with
    | Some s => if bool_decide (s = "") then Err ErrMalformedClaims else Ok ([s], delete key m)
    | None =>
      match unmarshal_slice raw ≫= mapM (dec_str "") with
      | Some arr =>
        if bool_decide (arr = []) || bool_decide ("" ∈ arr) then Err ErrMalformedClaims
        else Ok (arr, delete key m)
      | None => Err ErrMalformedClaims
      end
    end
  end.

Definition popInt64 (key : string) (required : bool) : pop (Z * bool) := λ m,
  match m !! key with
  | None => if required then Err ErrMalformedClaims else Ok (0%Z, false, m)
  | Some raw =>
    match ParseDate raw with
    | Some n => Ok (n, true, delete key m)
    | None => Err ErrMalformedClaims
    end
  end.

Definition popIssuedAt : pop (Z * bool) := λ m,
  match m !! "iat" with
  | Some (Raw JNull) => Ok (0%Z, false, delete "iat" m)
  | _ =>
    '(iat, present, m) ← popInt64 "iat" false m;
    if present && bool_decide (iat ≤ 0)%Z then Err ErrMalformedClaims else Ok (iat, present, m)
  end.

(** A time is zero when its claim is absent. *)
Record Claims := {
  c_Issuer : string;
  c_Audience : list string;
  c_ExpiresAt : Time;
  c_IssuedAt : Time;
  c_NotBefore : Time;
  c_JTI : string;
  c_HasSubject : bool;
  c_Parameters : gmap string RawMessage }.

(** The client_id parameter, when there is one, is the issuer. *)
Definition check_client_id (m : members) (iss : string) : result error unit :=
  match m !! "client_id" with
  | None => Ok tt
  | Some raw =>
    match unmarshal_string raw with
    | None => Err ErrMalformedClaims
    | Some clientID => guard_err (bool_decide (clientID = iss)) ErrClientIDIssuerMismatch
    end
  end.

Definition parse_members (m : members) : result error Claims :=
  '(iss, _, m) ← popString "iss" true m;
  '(aud, m) ← popStringOrArray "aud" m;
  '(exp, _, m) ← popInt64 "exp" true m;
  '(nbf, hasNbf, m) ← popInt64 "nbf" false m;
  '(iat, hasIat, m) ← popIssuedAt m;
  '(jti, _, m) ← popString "jti" false m;
  '(_, hasSub, m) ← popString "sub" false m;
  check_client_id m iss ;;
  Ok {| c_Issuer := iss; c_Audience := aud; c_ExpiresAt := Unix exp;
        c_IssuedAt := if hasIat : bool then Unix iat else zero_time;
        c_NotBefore := if hasNbf : bool then Unix nbf else zero_time;
        c_JTI := jti; c_HasSubject := hasSub; c_Parameters := m |}.

Section objects.
Context `{Platform} `{JoseCrypto}.

Definition parseClaims (payload : string) : result error Claims :=
  match unmarshal_object (json_text payload) with
  | Some m => parse_members m
  | None => Err ErrMalformedClaims
  end.

Record Object := { ob_compact : Compact PublicKey; ob_claims : Claims }.

(** [None] is any error. *)
Definition Parse (token : string) : option Object :=
  jose_ParseCompact token ≫= λ compact,
  let typ := hd_Type (cp_Header compact) in
  if negb (bool_decide (typ = "")) && negb (isRequestObjectType typ) then None
  else
    match parseClaims (cp_Payload compact) with
    | Ok claims => Some {| ob_compact := compact; ob_claims := claims |}
    | Err _ => None
    end.

Definition KeyID (o : Object) : string := hd_KeyID (cp_Header (ob_compact o)).

(** * Verification *)

Record VerifyPolicy (R : Type) := {
  ExpectedClientID : string;
  ExpectedAudience : string;
  Algorithm : SignatureAlgorithm;
  Policy_Now : Time;
  MaxLifetime : Duration;
  Policy_MaxClockSkew : Duration;
  RequireNotBefore : bool;
  RequireIssuedAt : bool;
  Replay : option (string → Time → eff R store_error unit);
  RequireJTI : bool;
  AutomaticFederationRegistration : bool }.
#[global] Arguments ExpectedClientID {R}. #[global] Arguments ExpectedAudience {R}.
#[global] Arguments Algorithm {R}. #[global] Arguments Policy_Now {R}.
#[global] Arguments MaxLifetime {R}. #[global] Arguments Policy_MaxClockSkew {R}.
#[global] Arguments RequireNotBefore {R}. #[global] Arguments RequireIssuedAt {R}.
#[global] Arguments Replay {R}. #[global] Arguments RequireJTI {R}.
#[global] Arguments AutomaticFederationRegistration {R}.

Record VerifiedObject := {
  vo_ClientID : string;
  vo_Parameters : gmap string RawMessage;
  vo_ExpiresAt : Time }.

Section policy.
Context {R : Type} (policy : VerifyPolicy R).

Definition checkAudienceAndSubject (c : Claims) : result error unit :=
  guard_err (negb (c_HasSubject c)) ErrUnexpectedSubject ;;
  if AutomaticFederationRegistration policy
  then guard_err (bool_decide (c_Audience c = [ExpectedAudience policy])) ErrAudienceMismatch
  else guard_err (bool_decide (ExpectedAudience policy ∈ c_Audience c)) ErrAudienceMismatch.

Definition checkIssuedAt (c : Claims) : result error unit :=
  if IsZero (c_IssuedAt c) then guard_err (negb (RequireIssuedAt policy)) ErrMissingIssuedAt
  else guard_err (negb (After (c_IssuedAt c) (Add (Policy_Now policy) (Policy_MaxClockSkew policy))))
    ErrIssuedInFuture.

Definition checkLifetime (c : Claims) : result error unit :=
  let now := Policy_Now policy in
  let skew := Policy_MaxClockSkew policy in
  guard_err (negb (After now (Add (c_ExpiresAt c) skew))) ErrExpired ;;
  guard_err (negb (bool_decide (SaturatingAdd [MaxLifetime policy; skew] <
                                Sub (c_ExpiresAt c) now)%Z)) ErrLifetimeExceeded ;;
  if IsZero (c_NotBefore c) then guard_err (negb (RequireNotBefore policy)) ErrMissingNotBefore
  else
    guard_err (negb (Before now (Add (c_NotBefore c) (- skew)))) ErrNotYetValid ;;
    guard_err (negb (bool_decide (MaxLifetime policy < Sub now (c_NotBefore c))%Z))
      ErrNotBeforeTooOld ;;
    guard_err (negb (bool_decide (MaxLifetime policy < Sub (c_ExpiresAt c) (c_NotBefore c))%Z))
      ErrLifetimeExceeded.

(** The policy's own fields, which a caller must have set. *)
Definition policy_set : bool :=
  negb (bool_decide (ExpectedClientID policy = "")) &&
  negb (bool_decide (ExpectedAudience policy = "")) &&
  negb (IsZero (Policy_Now policy)) && bool_decide (0 < MaxLifetime policy)%Z.

Definition Verify (o : Object) (pub : PublicKey) : eff R error VerifiedObject :=
  let c := ob_claims o in
  do* lift (guard_err policy_set ErrPolicy) in
  do* map_err ErrJose (lift (Compact_Verify (ob_compact o) pub (Algorithm policy))) in
  do* lift (guard_err (bool_decide (c_Issuer c = ExpectedClientID policy)) ErrIssuerMismatch) in
  do* lift (checkAudienceAndSubject c) in
  do* lift (checkIssuedAt c) in
  do* lift (checkLifetime c) in
  do* lift (guard_err (negb (bool_decide (c_JTI c = "") &&
      (RequireJTI policy || AutomaticFederationRegistration policy))) ErrMissingJTI) in
  do* match Replay policy with
      | Some UseOnce =>
        if bool_decide (c_JTI c = "") then ret tt
        else map_err (λ _, ErrReplay) (UseOnce (c_JTI c) (Add (c_ExpiresAt c)
          (SaturatingAdd [Policy_MaxClockSkew policy; Policy_MaxClockSkew policy])))
      | None => ret tt
      end in
  ret {| vo_ClientID := c_Issuer c; vo_Parameters := c_Parameters c;
         vo_ExpiresAt := c_ExpiresAt c |}.
End policy.

(** * What an accepted object has shown *)

(** Every pop takes exactly its member away. *)
Lemma popString_rest key required m s p m' :
  popString key required m = Ok (s, p, m') → m' = delete key m.
Proof.
  unfold popString. destruct (m !! key) as [raw|] eqn:Hk.
  - destruct (unmarshal_string raw); [|done]. case_bool_decide; [done|]. by intros [= _ _ <-].
  - destruct required; [done|]. intros [= _ _ <-]. by rewrite delete_id.
Qed.

Lemma popStringOrArray_rest key m l m' : popStringOrArray key m = Ok (l, m') → m' = delete key m.
Proof.
  unfold popStringOrArray. destruct (m !! key) as [raw|]; [|done].
  destruct (unmarshal_string raw); [case_bool_decide; [done|]; by intros [= _ <-]|].
  destruct (_ ≫= _); [|done]. destruct (_ || _); [done|]. by intros [= _ <-].
Qed.

Lemma popInt64_rest key required m n p m' : popInt64 key required m = Ok (n, p, m') → m' = delete key m.
Proof.
  unfold popInt64. destruct (m !! key) as [raw|] eqn:Hk.
  - destruct (ParseDate raw); [|done]. by intros [= _ _ <-].
  - destruct required; [done|]. intros [= _ _ <-]. by rewrite delete_id.
Qed.

Lemma popIssuedAt_rest m n p m' : popIssuedAt m = Ok (n, p, m') → m' = delete "iat" m.
Proof.
  unfold popIssuedAt. intros Hp.
  assert (Hcase : (popInt64 "iat" false m = Ok (n, p, m') ∨ m' = delete "iat" m)).
  { destruct (m !! "iat") as [[| |[]]|];
      try (apply bind_Ok in Hp as ([[n' p'] m''] & Hp' & Hp); destruct (_ && _); [done|];
           injection Hp as <- <- <-; by left).
    right. by injection Hp as <- <- <-. }
  destruct Hcase as [?%popInt64_rest|]; done.
Qed.

(** The claims that are no request parameters. *)
Definition registered_claims : list string := ["iss"; "aud"; "exp"; "nbf"; "iat"; "jti"; "sub"].

(** The parameters are exactly the other members. *)
Lemma parse_members_parameters m c :
  parse_members m = Ok c → c_Parameters c = filter (λ p, p.1 ∉ registered_claims) m.
Proof.
  unfold parse_members. intros Hp.
  repeat match goal with
    | H : rbind (popString _ _ _) _ = Ok _ |- _ =>
        apply bind_Ok in H as ([[? ?] ?] & ->%popString_rest & H)
    | H : rbind (popStringOrArray _ _) _ = Ok _ |- _ =>
        apply bind_Ok in H as ([? ?] & ->%popStringOrArray_rest & H)
    | H : rbind (popInt64 _ _ _) _ = Ok _ |- _ =>
        apply bind_Ok in H as ([[? ?] ?] & ->%popInt64_rest & H)
    | H : rbind (popIssuedAt _) _ = Ok _ |- _ =>
        apply bind_Ok in H as ([[? ?] ?] & ->%popIssuedAt_rest & H)
    end.
  apply bind_Ok in Hp as ([] & _ & Hp). injection Hp as <-. simpl. apply map_eq. intros k.
  apply option_eq. intros raw. rewrite map_lookup_filter_Some, !lookup_delete_Some. simpl.
  unfold registered_claims. set_solver.
Qed.

(** What [Verify] establishes of an object it accepts. *)
Lemma Verify_Ok {R} (policy : VerifyPolicy R) o pub s v s' :
  Verify policy o pub s = (Ok v, s') →
  let c := ob_claims o in
  Compact_Verify (ob_compact o) pub (Algorithm policy) = Ok tt ∧
  c_Issuer c = ExpectedClientID policy ∧ ExpectedAudience policy ∈ c_Audience c ∧
  c_HasSubject c = false ∧ checkLifetime policy c = Ok tt ∧ vo_Parameters v = c_Parameters c ∧
  match Replay policy with
  | Some UseOnce => c_JTI c = "" ∧ s' = s ∨
      c_JTI c ≠ "" ∧ UseOnce (c_JTI c) (Add (c_ExpiresAt c)
        (SaturatingAdd [Policy_MaxClockSkew policy; Policy_MaxClockSkew policy])) s = (Ok tt, s')
  | None => s' = s
  end.
Proof.
  intros Hrun c. subst c. unfold Verify in Hrun. inv_eff.
  repeat match goal with H : unit |- _ => destruct H end.
  repeat match goal with H : guard_err _ _ = Ok _ |- _ => apply guard_err_Ok in H end.
  match goal with H : bool_decide (c_Issuer _ = _) = true |- _ => apply bool_decide_eq_true in H end.
  match goal with H : checkAudienceAndSubject _ _ = Ok _ |- _ =>
    unfold checkAudienceAndSubject in H; apply bind_Ok in H as ([] & Hs%guard_err_Ok & H);
    apply negb_true_iff in Hs end.
  split_and!; try done.
  - destruct (AutomaticFederationRegistration policy);
      match goal with H : guard_err _ ErrAudienceMismatch = Ok _ |- _ =>
        apply guard_err_Ok, bool_decide_eq_true in H end; [|done].
    match goal with H : c_Audience _ = _ |- _ => rewrite H end. by left.
  - destruct (Replay policy) as [f|]; [case_bool_decide; [left|right]|].
    + unfold ret in *. by simplify_eq.
    + by inv_eff.
    + unfold ret in *. by simplify_eq.
Qed.
End objects.
End Objects.
