(* ===== verification/Tokens.v ===== *)
(** Reading JWT tokens: src/internal/token/claims.go, accesstoken.go,
    idtoken.go and validate.go. An access token is an RFC 9068 JWT whose
    registered claims are taken out of its payload's members, the rest being
    its parameters; an ID token is the same with OpenID Connect's claims, and
    a JARM response (src/internal/jarm/claims.go, verify.go) with an
    authorization response's.

    [time.Time{}] is [zero_time]. A claim's absence is an empty string, an
    empty list or [zero_time], as in the code. *)
From S2P Require Import Prelude GoStrings Json GoTime Sha256 Base64 Platform.
From S2P Require Import Effects Storage ServerTypes JsonCodec Numeric Dpop Jose.
From stdpp Require Import options.

Module Tokens.

Inductive error :=
| ErrMalformedClaims | ErrMalformedToken | ErrWrongType | ErrPolicy | ErrJose (e : verify_error)
| ErrIssuerMismatch | ErrAudienceMismatch | ErrExpired | ErrLifetimeExceeded
| ErrIssuedInFuture | ErrNotYetValid | ErrIssuedAtTooOld | ErrAuthTimeInvalid | ErrNonceMismatch
| ErrMissingAuthorizedParty | ErrAuthorizedPartyMismatch | ErrNoAccessToken
| ErrUnsupportedAlgorithm | ErrAccessTokenHashMismatch.

(** * Claims (claims.go) *)

Abbreviation members := (gmap string RawMessage).
(** Each pop also removes the member it reads. *)
Abbreviation pop A := (members → result error (A * members)).

(** The string and whether it was present. *)
Definition popString (key : string) (required : bool) : pop (string * bool) := λ m,
  match m !! key with
  | None => if required then Err ErrMalformedClaims else Ok ("", false, m)
  | Some raw =>
    match unmarshal_string raw with
    | Some s => if bool_decide (s = "") then Err ErrMalformedClaims else Ok (s, true, delete key m)
    | None => Err ErrMalformedClaims
    end
  end.

Definition popInt64 (key : string) (required : bool) : pop (Z * bool) := λ m,
  match m !! key with
  | None => if required then Err ErrMalformedClaims else Ok (0%Z, false, m)
  | Some raw =>
    match ParseDate raw with
    | Some n => Ok (n, true, delete key m)
    | None => Err ErrMalformedClaims
    end
  end.

(** [json.Unmarshal] into a []string. *)
Definition unmarshal_string_slice (raw : RawMessage) : option (list string) :=
  unmarshal_slice raw ≫= mapM (dec_str "").

Definition popStringOrStringSlice (key : string) : pop (list string) := λ m,
  match m !! key with
  | None => Err ErrMalformedClaims
  | Some raw =>
    match unmarshal_string raw with
    | Some s => if bool_decide (s = "") then Err ErrMalformedClaims else Ok ([s], delete key m)
    | None =>
      match unmarshal_string_slice raw with
      | Some arr =>
        if bool_decide (arr = []) || bool_decide ("" ∈ arr) then Err ErrMalformedClaims
        else Ok (arr, delete key m)
      | None => Err ErrMalformedClaims
      end
    end
  end.

Definition popStringSlice (key : string) : pop (list string * bool) := λ m,
  match m !! key with
  | None => Ok ([], false, m)
  | Some raw =>
    match unmarshal_string_slice raw with
    | Some arr => if bool_decide (arr = []) then Err ErrMalformedClaims
                  else Ok (arr, true, delete key m)
    | None => Err ErrMalformedClaims
    end
  end.

Definition containsString (have : list string) (want : string) : bool := bool_decide (want ∈ have).
Definition containsAny (values wants : list string) : bool := existsb (containsString values) wants.

(** * Access tokens (accesstoken.go) *)

Definition atJWTType : string := "at+jwt".

Record Confirmation := { JKT : string; X5TS256 : string }.

Record AccessTokenClaims := {
  at_Issuer : string;
  at_Subject : string;
  at_Audience : list string;
  at_ClientID : string;
  at_Scope : string;
  at_ExpiresAt : Time;
  at_IssuedAt : Time;
  at_NotBefore : Time;
  at_JTI : string;
  at_Confirmation : option Confirmation;
  at_Parameters : members }.

Definition peekNotBefore (m : members) : result error Time :=
  match m !! "nbf" with
  | None => Ok zero_time
  | Some raw =>
    match ParseDate raw with
    | Some nbf => Ok (Unix nbf)
    | None => Err ErrMalformedClaims
    end
  end.

(** accessTokenTimes: exp, iat and nbf. *)
Definition popAccessTokenTimes : pop (Time * Time * Time) := λ m,
  '(exp, _, m) ← popInt64 "exp" true m;
  '(iat, _, m) ← popInt64 "iat" true m;
  nbf ← peekNotBefore m;
  Ok (Unix exp, Unix iat, nbf, m).

Definition confirmation_names : list string := ["jkt"; "x5t#S256"].

Section tokens.
Context `{Platform} `{JoseCrypto}.

(** strictjson.CheckFieldCase, then a Decoder that disallows unknown fields,
    into a rawConfirmation; null leaves it zero. *)
Definition decode_confirmation (raw : RawMessage) : option Confirmation :=
  match raw with
  | Raw (JObj l) =>
    if field_case_ok confirmation_names l && forallb (λ p, bool_decide (p.1 ∈ confirmation_names)) l
    then
      get confirmation_names "jkt" dec_str "" l ≫= λ jkt,
      get confirmation_names "x5t#S256" dec_str "" l ≫= λ x5t,
      Some {| JKT := jkt; X5TS256 := x5t |}
    else None
  | Raw JNull => Some {| JKT := ""; X5TS256 := "" |}
  | _ => None
  end.

Definition pop_confirmation : pop (option Confirmation) := λ m,
  match m !! "cnf" with
  | None => Ok (None, m)
  | Some raw =>
    match decode_confirmation raw with
    | Some c =>
      if Bool.eqb (bool_decide (JKT c = "")) (bool_decide (X5TS256 c = ""))
      then Err ErrMalformedClaims else Ok (Some c, delete "cnf" m)
    | None => Err ErrMalformedClaims
    end
  end.

Definition access_token_members (m : members) : result error AccessTokenClaims :=
  '(iss, _, m) ← popString "iss" true m;
  '(sub, _, m) ← popString "sub" true m;
  '(aud, m) ← popStringOrStringSlice "aud" m;
  '(clientID, _, m) ← popString "client_id" true m;
  '(exp, iat, nbf, m) ← popAccessTokenTimes m;
  '(jti, _, m) ← popString "jti" true m;
  '(scope, _, m) ← popString "scope" false m;
  '(confirmation, m) ← pop_confirmation m;
  Ok {| at_Issuer := iss; at_Subject := sub; at_Audience := aud; at_ClientID := clientID;
        at_Scope := scope; at_ExpiresAt := exp; at_IssuedAt := iat; at_NotBefore := nbf;
        at_JTI := jti; at_Confirmation := confirmation; at_Parameters := m |}.

Definition parseAccessTokenClaims (payload : string) : result error AccessTokenClaims :=
  match unmarshal_object (json_text payload) with
  | Some m => access_token_members m
  | None => Err ErrMalformedClaims
  end.

Record AccessToken := { at_compact : Compact PublicKey; at_claims : AccessTokenClaims }.

Definition ParseAccessTokenMax (tok : string) (maxBytes : nat) : result error AccessToken :=
  match ParseCompactMax tok maxBytes with
  | None => Err ErrMalformedToken
  | Some compact =>
    guard_err (TypeIs (hd_Type (cp_Header compact)) atJWTType) ErrWrongType ;;
    claims ← parseAccessTokenClaims (cp_Payload compact);
    Ok {| at_compact := compact; at_claims := claims |}
  end.

Definition ParseAccessToken (tok : string) : result error AccessToken :=
  ParseAccessTokenMax tok DefaultMaxCompactBytes.

Definition AccessToken_KeyID (t : AccessToken) : string := hd_KeyID (cp_Header (at_compact t)).
Definition AccessToken_Algorithm (t : AccessToken) : SignatureAlgorithm :=
  hd_Algorithm (cp_Header (at_compact t)).
Definition AccessToken_ClaimedIssuer (t : AccessToken) : string := at_Issuer (at_claims t).

Definition SignedClaims (t : AccessToken) (pub : PublicKey) (alg : SignatureAlgorithm)
    : result error AccessTokenClaims :=
  match Compact_Verify (at_compact t) pub alg with
  | Ok _ => Ok (at_claims t)
  | Err e => Err (ErrJose e)
  end.

(** * Validating an access token (validate.go) *)

Record AccessTokenValidatePolicy := {
  ExpectedIssuer : string;
  ExpectedAudience : string;
  AdditionalAudiences : list string;
  Algorithm : SignatureAlgorithm;
  Policy_Now : Time;
  MaxLifetime : Duration;
  Policy_MaxClockSkew : Duration }.

Record ValidatedAccessToken := {
  va_Subject : string;
  va_ClientID : string;
  va_Scope : string;
  va_Parameters : members;
  va_ExpiresAt : Time;
  va_JTI : string;
  va_JKT : string;
  va_X5TS256 : string;
  va_Issuer : string;
  va_Audience : list string;
  va_IssuedAt : Time }.

Definition checkAccessTokenTimes (c : AccessTokenClaims) (policy : AccessTokenValidatePolicy)
    : result error unit :=
  guard_err (negb (bool_decide
    (SaturatingAdd [MaxLifetime policy; Policy_MaxClockSkew policy] <
     Sub (at_ExpiresAt c) (Policy_Now policy))%Z)) ErrLifetimeExceeded ;;
  let latest := Add (Policy_Now policy) (Policy_MaxClockSkew policy) in
  guard_err (negb (After (at_IssuedAt c) latest)) ErrIssuedInFuture ;;
  guard_err (negb (After (at_NotBefore c) latest)) ErrNotYetValid.

Definition validated (c : AccessTokenClaims) : ValidatedAccessToken := {|
  va_Subject := at_Subject c; va_ClientID := at_ClientID c; va_Scope := at_Scope c;
  va_Parameters := at_Parameters c; va_ExpiresAt := at_ExpiresAt c; va_JTI := at_JTI c;
  va_JKT := match at_Confirmation c with Some cnf => JKT cnf | None => "" end;
  va_X5TS256 := match at_Confirmation c with Some cnf => X5TS256 cnf | None => "" end;
  va_Issuer := at_Issuer c; va_Audience := at_Audience c; va_IssuedAt := at_IssuedAt c |}.

Definition Validate (t : AccessToken) (pub : PublicKey) (policy : AccessTokenValidatePolicy)
    : result error ValidatedAccessToken :=
  let c := at_claims t in
  guard_err (negb (bool_decide (ExpectedIssuer policy = ""))) ErrPolicy ;;
  guard_err (negb (bool_decide (ExpectedAudience policy = ""))) ErrPolicy ;;
  guard_err (negb (IsZero (Policy_Now policy))) ErrPolicy ;;
  guard_err (bool_decide (0 < MaxLifetime policy)%Z) ErrPolicy ;;
  match Compact_Verify (at_compact t) pub (Algorithm policy) with
  | Err e => Err (ErrJose e)
  | Ok _ =>
    guard_err (bool_decide (at_Issuer c = ExpectedIssuer policy)) ErrIssuerMismatch ;;
    guard_err (containsString (at_Audience c) (ExpectedAudience policy) ||
               containsAny (at_Audience c) (AdditionalAudiences policy)) ErrAudienceMismatch ;;
    checkAccessTokenTimes c policy ;;
    Ok (validated c)
  end.

(** * ID tokens (idtoken.go) *)

Record IDTokenClaims := {
  id_Issuer : string;
  id_Subject : string;
  id_Audience : list string;
  id_ExpiresAt : Time;
  id_IssuedAt : Time;
  id_Nonce : string;
  id_AuthTime : Time;
  id_ACR : string;
  id_AMR : list string;
  id_AZP : string;
  id_ATHash : string;
  id_Parameters : members }.

Definition id_token_members (m : members) : result error IDTokenClaims :=
  '(iss, _, m) ← popString "iss" true m;
  '(sub, _, m) ← popString "sub" true m;
  '(aud, m) ← popStringOrStringSlice "aud" m;
  '(exp, _, m) ← popInt64 "exp" true m;
  '(iat, _, m) ← popInt64 "iat" true m;
  '(nonce, _, m) ← popString "nonce" false m;
  '(authTime, hasAuthTime, m) ← popInt64 "auth_time" false m;
  guard_err (negb (hasAuthTime && bool_decide (authTime < 0)%Z)) ErrMalformedClaims ;;
  '(acr, _, m) ← popString "acr" false m;
  '(amr, _, m) ← popStringSlice "amr" m;
  '(azp, _, m) ← popString "azp" false m;
  '(atHash, _, m) ← popString "at_hash" false m;
  Ok {| id_Issuer := iss; id_Subject := sub; id_Audience := aud; id_ExpiresAt := Unix exp;
        id_IssuedAt := Unix iat; id_Nonce := nonce;
        id_AuthTime := if hasAuthTime : bool then Unix authTime else zero_time;
        id_ACR := acr; id_AMR := amr; id_AZP := azp; id_ATHash := atHash; id_Parameters := m |}.

Definition parseIDTokenClaims (payload : string) : result error IDTokenClaims :=
  match unmarshal_object (json_text payload) with
  | Some m => id_token_members m
  | None => Err ErrMalformedClaims
  end.

Record IDToken := { id_compact : Compact PublicKey; id_claims : IDTokenClaims }.

Definition ParseIDTokenMax (tok : string) (maxBytes : nat) : result error IDToken :=
  match ParseCompactMax tok maxBytes with
  | None => Err ErrMalformedToken
  | Some compact =>
    guard_err (RequireGenericType (hd_Type (cp_Header compact))) ErrWrongType ;;
    claims ← parseIDTokenClaims (cp_Payload compact);
    Ok {| id_compact := compact; id_claims := claims |}
  end.

Definition ParseIDToken (tok : string) : result error IDToken :=
  ParseIDTokenMax tok DefaultMaxCompactBytes.

Definition IDToken_KeyID (t : IDToken) : string := hd_KeyID (cp_Header (id_compact t)).
Definition IDToken_Algorithm (t : IDToken) : SignatureAlgorithm :=
  hd_Algorithm (cp_Header (id_compact t)).
Definition IDToken_ClaimedIssuer (t : IDToken) : string := id_Issuer (id_claims t).

Record IDTokenValidatePolicy := {
  ip_ExpectedIssuer : string;
  ip_ExpectedAudience : string;
  ip_TrustedAudiences : list string;
  ip_Algorithm : SignatureAlgorithm;
  ip_ExpectedNonce : string;
  ip_AccessToken : string;
  ip_Now : Time;
  ip_MaxLifetime : Duration;
  ip_MaxClockSkew : Duration }.

Record ValidatedIDToken := {
  vi_Subject : string;
  vi_AuthTime : Time;
  vi_ACR : string;
  vi_AMR : list string;
  vi_Parameters : members;
  vi_ExpiresAt : Time;
  vi_IssuedAt : Time;
  vi_Issuer : string;
  vi_Audience : list string;
  vi_Nonce : string;
  vi_AZP : string }.

Definition checkIDTokenAudience (c : IDTokenClaims) (policy : IDTokenValidatePolicy)
    : result error unit :=
  guard_err (forallb (λ aud, bool_decide (aud = ip_ExpectedAudience policy) ||
                             containsString (ip_TrustedAudiences policy) aud) (id_Audience c))
    ErrAudienceMismatch ;;
  guard_err (containsString (id_Audience c) (ip_ExpectedAudience policy)) ErrAudienceMismatch ;;
  guard_err (negb (bool_decide (1 < length (id_Audience c)) && bool_decide (id_AZP c = "")))
    ErrMissingAuthorizedParty ;;
  guard_err (bool_decide (id_AZP c = "") || bool_decide (id_AZP c = ip_ExpectedAudience policy))
    ErrAuthorizedPartyMismatch.

(** The left half of the token's hash under the ID token's own algorithm. *)
Definition computeATHash (accessToken : string) (alg : SignatureAlgorithm) : result error string :=
  if bool_decide (alg = ES256) || bool_decide (alg = PS256)
  then Ok (EncodeToString rawURL (String.substring 0 16 (sha256 accessToken)))
  else if bool_decide (alg = EdDSA)
  then Ok (EncodeToString rawURL (String.substring 0 32 (Sha512.sha512 accessToken)))
  else Err ErrUnsupportedAlgorithm.

Definition checkATHash (c : IDTokenClaims) (policy : IDTokenValidatePolicy) : result error unit :=
  if bool_decide (id_ATHash c = "") then Ok tt
  else
    guard_err (negb (bool_decide (ip_AccessToken policy = ""))) ErrNoAccessToken ;;
    wantHash ← computeATHash (ip_AccessToken policy) (ip_Algorithm policy);
    guard_err (bool_decide (id_ATHash c = wantHash)) ErrAccessTokenHashMismatch.

Definition checkAuthTime (authTime : Time) (policy : IDTokenValidatePolicy) : result error unit :=
  guard_err (negb (negb (IsZero authTime) &&
      After authTime (Add (ip_Now policy) (ip_MaxClockSkew policy)))) ErrAuthTimeInvalid.

(** exp, iat and auth_time. *)
Definition check_id_token_times (c : IDTokenClaims) (policy : IDTokenValidatePolicy)
    : result error unit :=
  let now := ip_Now policy in
  let skew := ip_MaxClockSkew policy in
  guard_err (negb (After now (Add (id_ExpiresAt c) skew))) ErrExpired ;;
  guard_err (negb (bool_decide (SaturatingAdd [ip_MaxLifetime policy; skew] <
                                Sub (id_ExpiresAt c) now)%Z)) ErrLifetimeExceeded ;;
  guard_err (negb (bool_decide (ip_MaxLifetime policy < Sub now (id_IssuedAt c))%Z))
    ErrIssuedAtTooOld ;;
  guard_err (negb (After (id_IssuedAt c) (Add now skew))) ErrIssuedInFuture ;;
  checkAuthTime (id_AuthTime c) policy.

Definition validated_id (c : IDTokenClaims) : ValidatedIDToken := {|
  vi_Subject := id_Subject c; vi_AuthTime := id_AuthTime c; vi_ACR := id_ACR c;
  vi_AMR := id_AMR c; vi_Parameters := id_Parameters c; vi_ExpiresAt := id_ExpiresAt c;
  vi_IssuedAt := id_IssuedAt c; vi_Issuer := id_Issuer c; vi_Audience := id_Audience c;
  vi_Nonce := id_Nonce c; vi_AZP := id_AZP c |}.

Definition ValidateID (t : IDToken) (pub : PublicKey) (policy : IDTokenValidatePolicy)
    : result error ValidatedIDToken :=
  let c := id_claims t in
  guard_err (negb (bool_decide (ip_ExpectedIssuer policy = ""))) ErrPolicy ;;
  guard_err (negb (bool_decide (ip_ExpectedAudience policy = ""))) ErrPolicy ;;
  guard_err (negb (IsZero (ip_Now policy))) ErrPolicy ;;
  guard_err (bool_decide (0 < ip_MaxLifetime policy)%Z) ErrPolicy ;;
  match Compact_Verify (id_compact t) pub (ip_Algorithm policy) with
  | Err e => Err (ErrJose e)
  | Ok _ =>
    guard_err (bool_decide (id_Issuer c = ip_ExpectedIssuer policy)) ErrIssuerMismatch ;;
    checkIDTokenAudience c policy ;;
    check_id_token_times c policy ;;
    guard_err (bool_decide (ip_ExpectedNonce policy = "") ||
               bool_decide (id_Nonce c = ip_ExpectedNonce policy)) ErrNonceMismatch ;;
    checkATHash c policy ;;
    Ok (validated_id c)
  end.

Record IDTokenHintPolicy := {
  hint_ExpectedIssuer : string;
  hint_Client : string;
  hint_Algorithm : SignatureAlgorithm }.

Definition VerifyHint (t : IDToken) (pub : PublicKey) (policy : IDTokenHintPolicy)
    : result error string :=
  let c := id_claims t in
  guard_err (negb (bool_decide (hint_ExpectedIssuer policy = ""))) ErrPolicy ;;
  guard_err (negb (bool_decide (hint_Client policy = ""))) ErrPolicy ;;
  match Compact_Verify (id_compact t) pub (hint_Algorithm policy) with
  | Err e => Err (ErrJose e)
  | Ok _ =>
    guard_err (bool_decide (id_Issuer c = hint_ExpectedIssuer policy)) ErrIssuerMismatch ;;
    guard_err (containsString (id_Audience c) (hint_Client policy)) ErrAudienceMismatch ;;
    guard_err (bool_decide (id_AZP c = "") || bool_decide (id_AZP c = hint_Client policy))
      ErrAuthorizedPartyMismatch ;;
    Ok (id_Subject c)
  end.
End tokens.
End Tokens.

(** * Authorization responses (internal/jarm) *)

Module Jarm.
Import Tokens.

Inductive error :=
| ErrMalformedClaims | ErrMalformedToken | ErrWrongType | ErrPolicy | ErrJose (e : verify_error)
| ErrNoCandidate | ErrIssuerMismatch | ErrAudienceMismatch | ErrExpired | ErrLifetimeExceeded
| ErrNotYetValid | ErrNotAuthorizationResponse | ErrIDTokenClaims.

Record Claims := {
  r_Issuer : string;
  r_Audience : string;
  r_ExpiresAt : Time;
  r_IssuedAt : Time;
  r_NotBefore : Time;
  r_Parameters : members }.

(** popString and popInt64 are those of the tokens. *)
Definition response_members (m : members) : result Tokens.error Claims :=
  '(iss, _, m) ← popString "iss" true m;
  '(aud, _, m) ← popString "aud" true m;
  '(exp, _, m) ← popInt64 "exp" true m;
  '(nbf, hasNbf, m) ← popInt64 "nbf" false m;
  '(iat, hasIat, m) ← popInt64 "iat" false m;
  Ok {| r_Issuer := iss; r_Audience := aud; r_ExpiresAt := Unix exp;
        r_IssuedAt := if hasIat : bool then Unix iat else zero_time;
        r_NotBefore := if hasNbf : bool then Unix nbf else zero_time; r_Parameters := m |}.

Definition idTokenClaims : list string :=
  ["sub"; "nonce"; "auth_time"; "acr"; "amr"; "azp"; "at_hash"; "c_hash"; "s_hash"].

Record VerifyPolicy := {
  ExpectedIssuer : string;
  ExpectedAudience : string;
  Algorithm : SignatureAlgorithm;
  Policy_Now : Time;
  MaxLifetime : Duration;
  Policy_MaxClockSkew : Duration }.

Record VerifiedResponse := {
  vr_Issuer : string;
  vr_Parameters : members;
  vr_ExpiresAt : Time }.

Definition checkAuthorizationResponseShape (params : members) : result error unit :=
  guard_err (is_Some_bool (params !! "code") || is_Some_bool (params !! "error"))
    ErrNotAuthorizationResponse ;;
  guard_err (forallb (λ name, negb (is_Some_bool (params !! name))) idTokenClaims) ErrIDTokenClaims.

Section jarm.
Context `{Platform} `{JoseCrypto}.

Definition parseClaims (payload : string) : result error Claims :=
  match unmarshal_object (json_text payload) with
  | Some m => match response_members m with Ok c => Ok c | Err _ => Err ErrMalformedClaims end
  | None => Err ErrMalformedClaims
  end.

Record Response := { rs_compact : Compact PublicKey; rs_claims : Claims }.

Definition Parse (token : string) : result error Response :=
  match jose_ParseCompact token with
  | None => Err ErrMalformedToken
  | Some compact =>
    guard_err (RequireGenericType (hd_Type (cp_Header compact))) ErrWrongType ;;
    claims ← parseClaims (cp_Payload compact);
    Ok {| rs_compact := compact; rs_claims := claims |}
  end.

Definition KeyID (r : Response) : string := hd_KeyID (cp_Header (rs_compact r)).

Definition Verify (r : Response) (pub : PublicKey) (policy : VerifyPolicy)
    : result error VerifiedResponse :=
  let c := rs_claims r in
  let now := Policy_Now policy in
  let skew := Policy_MaxClockSkew policy in
  guard_err (negb (bool_decide (ExpectedIssuer policy = ""))) ErrPolicy ;;
  guard_err (negb (bool_decide (ExpectedAudience policy = ""))) ErrPolicy ;;
  guard_err (negb (IsZero now)) ErrPolicy ;;
  guard_err (bool_decide (0 < MaxLifetime policy)%Z) ErrPolicy ;;
  match Compact_Verify (rs_compact r) pub (Algorithm policy) with
  | Err e => Err (ErrJose e)
  | Ok _ =>
    guard_err (bool_decide (r_Issuer c = ExpectedIssuer policy)) ErrIssuerMismatch ;;
    guard_err (bool_decide (r_Audience c = ExpectedAudience policy)) ErrAudienceMismatch ;;
    guard_err (negb (After now (Add (r_ExpiresAt c) skew))) ErrExpired ;;
    guard_err (negb (bool_decide (SaturatingAdd [MaxLifetime policy; skew] <
                                  Sub (r_ExpiresAt c) now)%Z)) ErrLifetimeExceeded ;;
    guard_err (negb (negb (IsZero (r_NotBefore c)) &&
                     Before now (Add (r_NotBefore c) (- skew)))) ErrNotYetValid ;;
    checkAuthorizationResponseShape (r_Parameters c) ;;
    Ok {| vr_Issuer := r_Issuer c; vr_Parameters := r_Parameters c;
          vr_ExpiresAt := r_ExpiresAt c |}
  end.
End jarm.
End Jarm.
