(* ===== verification/Attestation.v ===== *)
(** Client attestations and the certificates behind them. Module Attestation
    is src/internal/clientattestation (attestation.go, pop.go, claims.go):
    a Client Attestation JWT and the proof of possession of the key it
    confirms. After it: the rules for a key a caller supplies
    (src/internal/jose/callerkey.go), key candidates
    (src/server/key_candidates.go), certificate chains and their revocation
    (src/server/client_certificate_trust.go, client_certificate_crl.go), and
    the trust in an attester (src/server/attester_trust.go,
    attester_leaf_policy.go, client_attestation_status.go).

    A parsed certificate is its DER encoding; the class X509 is what
    crypto/x509 makes of it, its path building included. The class
    ClientAuthEnv is what client authentication calls: the clock, the client
    repository, the clients' keys, and the trust the server is given. *)
From S2P Require Import Prelude GoStrings Json GoTime Sha256 Base64 Platform JsonCodec.
From S2P Require Import Numeric.
From S2P Require Import Digests Effects Storage ServerTypes Rar Dpop Jose Extensions.
From stdpp Require Import options.

(** * Attestations *)

Module Attestation.

Definition TypHeader : string := "oauth-client-attestation+jwt".
Definition PoPTypHeader : string := "oauth-client-attestation-pop+jwt".
Definition MaxCertificateChainLength : nat := 10.

Inductive error :=
| ErrPolicy | ErrJose (e : verify_error) | ErrConfirmationKey | ErrReplay
| ErrMalformedClaims | ErrTypMismatch | ErrIssuerMismatch | ErrSubjectMismatch
| ErrAudienceMismatch | ErrChallengeMismatch | ErrExpired | ErrNotYetValid | ErrLifetimeExceeded.

(** The RawMessage of [confirmationClaims] is [c_JWK]. *)
Record attestationClaims := {
  c_Issuer : string;
  c_Subject : string;
  c_ExpiresAt : Z;
  c_IssuedAt : Z;
  c_NotBefore : Z;
  c_JWK : RawMessage }.

Record popClaims := {
  p_Issuer : string;
  p_Audience : string;
  p_JTI : string;
  p_IssuedAt : Z;
  p_ExpiresAt : Z;
  p_Challenge : string;
  p_NotBefore : Z }.

Definition attestation_names : list string := ["iss"; "sub"; "exp"; "iat"; "nbf"; "cnf"].
Definition confirmation_names : list string := ["jwk"].
Definition pop_names : list string := ["iss"; "aud"; "jti"; "iat"; "exp"; "challenge"; "nbf"].

(** popAudience.UnmarshalJSON: a string, or an array of exactly one. *)
Definition dec_aud (_ : string) (j : json) : option string :=
  match j with
  | JArr l =>
    match mapM (dec_str "") l with
    | Some [aud] => Some aud
    | _ => None
    end
  | JStr s => Some s
  | JNull => Some ""
  | _ => None
  end.

Record VerifyPolicy := {
  ExpectedIssuer : string;
  ExpectedSubject : string;
  Algorithm : SignatureAlgorithm;
  Policy_Now : Time;
  MaxLifetime : Duration;
  Policy_MaxClockSkew : Duration }.

(** IssuedAt is the zero time when the attestation has none. *)
Record VerifiedAttestation := {
  va_ClientID : string;
  va_ExpiresAt : Time;
  va_IssuedAt : Time;
  va_Claims : gmap string RawMessage;
  ConfirmationJWK : RawMessage }.

(** Replay: the checker's UseOnce, from the instance key and the jti. *)
Record PoPVerifyPolicy (R : Type) := {
  pp_ClientID : string;
  pp_ExpectedAudience : string;
  pp_ExpectedChallenge : string;
  pp_Now : Time;
  pp_MaxAge : Duration;
  pp_MaxClockSkew : Duration;
  pp_Replay : option (string → string → Time → eff R store_error unit) }.
Arguments pp_ClientID {R}. Arguments pp_ExpectedAudience {R}. Arguments pp_ExpectedChallenge {R}.
Arguments pp_Now {R}. Arguments pp_MaxAge {R}. Arguments pp_MaxClockSkew {R}.
Arguments pp_Replay {R}.

Record VerifiedPoP := {
  vp_ClientID : string;
  vp_IssuedAt : Time;
  vp_InstanceKey : string }.

Section attestation.
Context `{Platform} `{JoseCrypto}.

(** The nested struct: a member "cnf" that repeats adds to what it held. *)
Definition dec_confirmation (old : RawMessage) (j : json) : option RawMessage :=
  match j with
  | JObj l =>
    if field_case_ok confirmation_names l then get confirmation_names "jwk" dec_raw old l else None
  | JNull => Some old
  | _ => None
  end.

Definition parseAttestationClaims (payload : string) : option attestationClaims :=
  strict_members attestation_names payload ≫= λ members,
  get attestation_names "iss" dec_str "" members ≫= λ iss,
  get attestation_names "sub" dec_str "" members ≫= λ sub,
  get attestation_names "exp" dec_date 0%Z members ≫= λ exp,
  get attestation_names "iat" dec_date 0%Z members ≫= λ iat,
  get attestation_names "nbf" dec_date 0%Z members ≫= λ nbf,
  get attestation_names "cnf" dec_confirmation RawNil members ≫= λ jwk,
  if bool_decide (sub = "") || bool_decide (exp = 0%Z) || raw_empty jwk
  then None
  else Some {| c_Issuer := iss; c_Subject := sub; c_ExpiresAt := exp; c_IssuedAt := iat;
               c_NotBefore := nbf; c_JWK := jwk |}.

Definition parsePoPClaims (payload : string) : option popClaims :=
  strict_members pop_names payload ≫= λ members,
  get pop_names "iss" dec_str "" members ≫= λ iss,
  get pop_names "aud" dec_aud "" members ≫= λ aud,
  get pop_names "jti" dec_str "" members ≫= λ jti,
  get pop_names "iat" dec_date 0%Z members ≫= λ iat,
  get pop_names "exp" dec_date 0%Z members ≫= λ exp,
  get pop_names "challenge" dec_str "" members ≫= λ challenge,
  get pop_names "nbf" dec_date 0%Z members ≫= λ nbf,
  if bool_decide (aud = "") || bool_decide (jti = "") || bool_decide (iat = 0%Z) then None
  else Some {| p_Issuer := iss; p_Audience := aud; p_JTI := jti; p_IssuedAt := iat;
               p_ExpiresAt := exp; p_Challenge := challenge; p_NotBefore := nbf |}.

Record Attestation := { at_compact : Compact PublicKey; at_claims : attestationClaims }.
Record PoP := { po_compact : Compact PublicKey; po_claims : popClaims }.

Definition Parse (attestation : string) : option Attestation :=
  jose_ParseCompact attestation ≫= λ compact,
  (λ c, {| at_compact := compact; at_claims := c |}) <$> parseAttestationClaims (cp_Payload compact).

Definition ParsePoP (pop : string) : option PoP :=
  jose_ParseCompact pop ≫= λ compact,
  (λ c, {| po_compact := compact; po_claims := c |}) <$> parsePoPClaims (cp_Payload compact).

Definition KeyID (a : Attestation) : string := hd_KeyID (cp_Header (at_compact a)).
Definition ClaimedSubject (a : Attestation) : string := c_Subject (at_claims a).
Definition PoP_Algorithm (p : PoP) : SignatureAlgorithm := hd_Algorithm (cp_Header (po_compact p)).

(** [None] is an error, [Some None] no x5c at all. *)
Definition CertificateChain (a : Attestation) : option (option (list string)) :=
  match hd_X5C (cp_Header (at_compact a)) with
  | RawNil => Some None
  | Raw (JArr l) =>
    match mapM (dec_str "") l with
    | Some entries =>
      if bool_decide (entries = []) || bool_decide (MaxCertificateChainLength < length entries)
      then None
      else Some <$> mapM (λ e, match Std e with
                               | Ok der => if bool_decide (der = "") then None else Some der
                               | Err _ => None
                               end) entries
    | None => None
    end
  | _ => None
  end.

Definition VerifySignature (a : Attestation) (pub : PublicKey) (alg : SignatureAlgorithm)
    : result verify_error unit := Compact_Verify (at_compact a) pub alg.

Definition checkAttestationTimes (c : attestationClaims) (policy : VerifyPolicy)
    : result error unit :=
  let exp := Unix (c_ExpiresAt c) in
  let now := Policy_Now policy in
  guard_err (negb (After now (Add exp (Policy_MaxClockSkew policy)))) ErrExpired ;;
  guard_err (negb (bool_decide (SaturatingAdd [MaxLifetime policy; Policy_MaxClockSkew policy] <
                                Sub exp now)%Z)) ErrLifetimeExceeded ;;
  let latest := Add now (Policy_MaxClockSkew policy) in
  guard_err (bool_decide (c_NotBefore c = 0%Z) || negb (After (Unix (c_NotBefore c)) latest))
    ErrNotYetValid ;;
  guard_err (bool_decide (c_IssuedAt c = 0%Z) || negb (After (Unix (c_IssuedAt c)) latest))
    ErrNotYetValid.

(** The payload, an object, as a map of its members. *)
Definition all_claims (payload : string) : option (gmap string RawMessage) :=
  match json_text payload with
  | Raw (JObj l) => Some (members_map ∅ l)
  | Raw JNull => Some ∅
  | _ => None
  end.

Definition Verify (a : Attestation) (pub : PublicKey) (policy : VerifyPolicy)
    : result error VerifiedAttestation :=
  guard_err (negb (bool_decide (ExpectedIssuer policy = ""))) ErrPolicy ;;
  guard_err (negb (bool_decide (ExpectedSubject policy = ""))) ErrPolicy ;;
  guard_err (negb (IsZero (Policy_Now policy))) ErrPolicy ;;
  guard_err (bool_decide (0 < MaxLifetime policy)%Z) ErrPolicy ;;
  guard_err (TypeIs (hd_Type (cp_Header (at_compact a))) TypHeader) ErrTypMismatch ;;
  match Compact_Verify (at_compact a) pub (Algorithm policy) with
  | Err e => Err (ErrJose e)
  | Ok _ =>
    let c := at_claims a in
    guard_err (bool_decide (c_Issuer c = "") || bool_decide (c_Issuer c = ExpectedIssuer policy))
      ErrIssuerMismatch ;;
    guard_err (bool_decide (c_Subject c = ExpectedSubject policy)) ErrSubjectMismatch ;;
    checkAttestationTimes c policy ;;
    match all_claims (cp_Payload (at_compact a)) with
    | None => Err ErrMalformedClaims
    | Some all =>
      Ok {| va_ClientID := c_Subject c; va_ExpiresAt := Unix (c_ExpiresAt c);
            va_IssuedAt := if bool_decide (c_IssuedAt c = 0%Z) then zero_time
                           else Unix (c_IssuedAt c);
            va_Claims := all; ConfirmationJWK := c_JWK c |}
    end
  end.

Section policy.
Context {R : Type} (policy : PoPVerifyPolicy R).

Definition checkPoPTimes (c : popClaims) (iat : Time) : result error unit :=
  let latest := Add (pp_Now policy) (pp_MaxClockSkew policy) in
  guard_err (negb (After iat latest)) ErrNotYetValid ;;
  guard_err (negb (bool_decide (pp_MaxAge policy < Sub (pp_Now policy) iat)%Z)) ErrExpired ;;
  guard_err (bool_decide (p_ExpiresAt c = 0%Z) ||
             negb (After (pp_Now policy) (Add (Unix (p_ExpiresAt c)) (pp_MaxClockSkew policy))))
    ErrExpired ;;
  guard_err (bool_decide (p_NotBefore c = 0%Z) || negb (After (Unix (p_NotBefore c)) latest))
    ErrNotYetValid.

(** PoP.Verify, the confirmation key's JWK given. *)
Definition VerifyPoP (p : PoP) (confirmationJWK : RawMessage) : eff R error VerifiedPoP :=
  do* lift (guard_err (negb (bool_decide (pp_ClientID policy = ""))) ErrPolicy) in
  do* lift (guard_err (negb (bool_decide (pp_ExpectedAudience policy = ""))) ErrPolicy) in
  do* lift (guard_err (negb (IsZero (pp_Now policy))) ErrPolicy) in
  do* lift (guard_err (bool_decide (0 < pp_MaxAge policy)%Z) ErrPolicy) in
  do* lift (guard_err (TypeIs (hd_Type (cp_Header (po_compact p))) PoPTypHeader) ErrTypMismatch) in
  match ParseJWK confirmationJWK (PoP_Algorithm p) with
  | None => fail ErrConfirmationKey
  | Some jwk =>
    do* map_err ErrJose (lift (Compact_Verify (po_compact p) jwk (PoP_Algorithm p))) in
    let c := po_claims p in
    do* lift (guard_err (bool_decide (p_Issuer c = "") ||
                         bool_decide (p_Issuer c = pp_ClientID policy)) ErrIssuerMismatch) in
    do* lift (guard_err (bool_decide (p_Audience c = pp_ExpectedAudience policy))
                ErrAudienceMismatch) in
    do* lift (guard_err (bool_decide (pp_ExpectedChallenge policy = "") ||
                         bool_decide (p_Challenge c = pp_ExpectedChallenge policy))
                ErrChallengeMismatch) in
    let iat := Unix (p_IssuedAt c) in
    do* lift (checkPoPTimes c iat) in
    match jwk_Thumbprint jwk with
    | None => fail ErrConfirmationKey
    | Some instanceKey =>
      do* match pp_Replay policy with
          | None => ret tt
          | Some UseOnce =>
            map_err (λ _, ErrReplay) (UseOnce instanceKey (p_JTI c) (Add iat (SaturatingAdd
              [pp_MaxAge policy; pp_MaxClockSkew policy; pp_MaxClockSkew policy])))
          end in
      ret {| vp_ClientID := pp_ClientID policy; vp_IssuedAt := iat; vp_InstanceKey := instanceKey |}
    end
  end.
End policy.
End attestation.
End Attestation.

(** * What client authentication calls *)

Inductive env_error := EnvFailed.

(** A failure of ResolveClient, as clientStoreUnavailable sorts it. *)
Inductive client_error := ClientStoreUnavailable | ClientUnknown.

Inductive VerificationPurpose :=
| ClientAssertionVerification | RequestObjectVerification
| BackchannelAuthenticationRequestVerification.

Record VerificationKey (K : Type) := {
  vk_KeyID : string;
  vk_Algorithm : SignatureAlgorithm;
  vk_PublicKey : K }.
Arguments vk_KeyID {K}. Arguments vk_Algorithm {K}. Arguments vk_PublicKey {K}.

(** The Go type of a public key, with what the rules for a key read of it:
    whether an ECDSA key is on P-256 and whether its point is on its curve,
    an RSA key's modulus length and exponent. *)
Inductive KeyMaterial :=
| KeyECDSA (p256 on_curve : bool)
| KeyRSA (modulusBits exponent : Z)
| KeyEd25519
| KeyOther.

(** What x509 parses of a certificate: its subject as an RDN sequence
    ([None] when that doesn't parse) and as the text of a pkix.Name, each
    attribute's type and whether its value is a string, its alternative
    names, the thumbprint of its key; its extended key usages, whether it is a
    CA, its key usage; issuer, subject, and key as they are encoded, its
    serial number, and whether its own key verifies its signature. *)
Record Certificate := {
  cert_RDNs : option string;
  cert_Subject : string;
  cert_SubjectNames : list (list N * bool);
  cert_DNSNames : list string;
  cert_URIs : list string;
  cert_IPAddresses : list string;
  cert_EmailAddresses : list string;
  cert_KeyThumbprint : option string;
  cert_ExtKeyUsage : list N;
  cert_UnknownExtKeyUsage : list (list N);
  cert_IsCA : bool;
  cert_KeyUsage : N;
  cert_RawIssuer : string;
  cert_RawSubject : string;
  cert_RawSubjectPublicKeyInfo : string;
  cert_SerialNumber : Z;
  cert_SignedByOwnKey : bool }.

Definition ExtKeyUsageAny : N := 0.
Definition ExtKeyUsageClientAuth : N := 2.
Definition KeyUsageDigitalSignature : N := 1.

(** A revocation list x509 parsed; [rl_SignedBy] is CheckSignatureFrom. *)
Record RevocationList := {
  rl_RawIssuer : string;
  rl_ThisUpdate : Time;
  rl_NextUpdate : Time;
  rl_RevokedSerialNumbers : list (option Z);
  rl_Extensions : list (list N);
  rl_SignedBy : string → bool }.

(** crypto/x509: what a DER encoding is as a certificate, its key, and the
    chains Certificate.Verify builds for it from roots and intermediates. *)
Class X509 `{JoseCrypto} := {
  x509 : string → Certificate;
  ParseCertificate : string → option PublicKey;
  key_material : PublicKey → KeyMaterial;
  CertPool : Type;
  NewCertPool : list string → CertPool;
  x509_Verify : string → CertPool → CertPool → N → Time → option (list (list string)) }.

(** ** Revocation *)

(** ErrCertificateRevoked, and every other error. *)
Inductive revocation_error := CertificateRevoked | RevocationUndecided.

Inductive ClientCertificateRevocation (Env : Type) :=
| NoClientCertificateRevocationCheck
| ClientCertificateCRLs (Lists : eff Env env_error (list (option RevocationList)))
| OtherCertificateRevocation (CheckRevocation : list string → Time → eff Env revocation_error unit).
Arguments NoClientCertificateRevocationCheck {Env}.
Arguments ClientCertificateCRLs {Env}. Arguments OtherCertificateRevocation {Env}.

(** ** Trust *)

Inductive ClientCertificateTrust (Env : Type) `{X509} :=
| TrustedClientCAs (Roots Intermediates : CertPool) (Revocation : ClientCertificateRevocation Env)
| NoPKIClientAuthentication
| ClientCertificateChainVerifiedUpstream
| NoClientCertificateChainTrust.
Arguments TrustedClientCAs {Env _ _}. Arguments NoPKIClientAuthentication {Env _ _}.
Arguments ClientCertificateChainVerifiedUpstream {Env _ _}.
Arguments NoClientCertificateChainTrust {Env _ _}.

Inductive AttesterIssuerBinding :=
| AttesterIssuerInCertificate | AttesterIssuerByTrustAnchors | AttesterIssuerBoundToAnchor.
#[export] Instance issuer_binding_eq_dec : EqDecision AttesterIssuerBinding.
Proof. solve_decision. Defined.

Inductive AttesterLeafPolicy (Env : Type) :=
| DefaultAttesterLeafPolicy
| AnyAttesterLeaf
| AttesterLeafPolicyFunc (f : list string → eff Env env_error unit).
Arguments DefaultAttesterLeafPolicy {Env}. Arguments AnyAttesterLeaf {Env}.
Arguments AttesterLeafPolicyFunc {Env}.

Record AttesterAnchor := {
  aa_Certificate : option string;
  aa_Issuers : list string }.

(** As New leaves it: the source its binding reads is set. *)
Record X5CAttesterChain (Env : Type) `{X509} := {
  x5c_TrustAnchors : RegisteredClient → eff Env env_error (option CertPool);
  x5c_Anchors : RegisteredClient → eff Env env_error (list AttesterAnchor);
  x5c_IssuerBinding : AttesterIssuerBinding;
  x5c_Revocation : ClientCertificateRevocation Env;
  x5c_LeafPolicy : option (AttesterLeafPolicy Env) }.
Arguments x5c_TrustAnchors {Env _ _}. Arguments x5c_Anchors {Env _ _}.
Arguments x5c_IssuerBinding {Env _ _}. Arguments x5c_Revocation {Env _ _}.
Arguments x5c_LeafPolicy {Env _ _}.

Inductive AttesterTrust (Env : Type) `{X509} :=
| RegisteredAttesterKeys
    (ResolveAttesterKeys : string → SignatureAlgorithm → string →
       eff Env env_error (list (VerificationKey PublicKey)))
| AttesterX5C (chain : X5CAttesterChain Env).
Arguments RegisteredAttesterKeys {Env _ _}. Arguments AttesterX5C {Env _ _}.

Record attesterSigner (Env : Type) `{JoseCrypto} := {
  as_key : PublicKey;
  as_chain : list string;
  as_chains : list (list string);
  as_revocation : option (ClientCertificateRevocation Env) }.
Arguments as_key {Env _}. Arguments as_chain {Env _}. Arguments as_chains {Env _}.
Arguments as_revocation {Env _}.

Record VerifiedClientAttestation `{JoseCrypto} := {
  vca_Client : RegisteredClient;
  vca_Claims : gmap string RawMessage;
  vca_IssuedAt : Time;
  vca_ExpiresAt : Time;
  vca_InstanceKey : string;
  vca_SignerKey : PublicKey;
  vca_SignerCertificates : list string }.

(** ErrClientAttestationRevoked, and every other error. *)
Inductive status_error := ClientAttestationRevoked | StatusUnknown.

Class ClientAuthEnv (Env : Type) `{JoseCrypto} := {
  Clock : Env → Time * Env;
  ResolveClient : ClientID → eff Env client_error RegisteredClient;
  ResolveVerificationKeys :
    ClientID → VerificationPurpose → SignatureAlgorithm → string →
    eff Env env_error (list (VerificationKey PublicKey));
  env_x509 :: X509;
  (* [ip.Equal(net.ParseIP(text))] *)
  ip_Equal : string → string → bool;
  client_certificate_trust : ClientCertificateTrust Env;
  attester_trust : AttesterTrust Env;
  ClientAttestationStatus : option (VerifiedClientAttestation → eff Env status_error unit) }.

(** * Key candidates *)

Definition maxKeyCandidates : nat := 8.

Definition verificationKeyCandidates {K} (keys : list (VerificationKey K))
    (alg : SignatureAlgorithm) (kid : string) : list K :=
  take maxKeyCandidates (vk_PublicKey <$>
    filter (λ k, (kid = "" ∨ vk_KeyID k = kid) ∧ vk_Algorithm k = alg) keys).

(** [verify] under each candidate until one fails for anything but its
    signature, or succeeds. *)
Fixpoint verifyWithCandidates {S K E A} (is_signature_error : E → bool) (none : E)
    (candidates : list K) (verify : K → eff S E A) : eff S E A :=
  match candidates with
  | [] => fail none
  | pub :: candidates =>
    let* r := try (verify pub) in
    match r with
    | Ok a => ret a
    | Err e =>
      if is_signature_error e then verifyWithCandidates is_signature_error e candidates verify
      else fail e
    end
  end.

(** * Keys a caller supplies (internal/jose/callerkey.go, rsa.go) *)

Definition maxCallerRSAModulusBits : Z := 4096.
Definition rsaPublicExponent : Z := 65537.

Definition checkCallerKeyMaterial (key : KeyMaterial) : bool :=
  match key with
  | KeyRSA bits e =>
    bool_decide (bits ≤ maxCallerRSAModulusBits)%Z && bool_decide (e = rsaPublicExponent)
  | KeyECDSA _ on_curve => on_curve
  | KeyEd25519 | KeyOther => true
  end.

Definition keyFitsAlgorithm (key : KeyMaterial) (alg : SignatureAlgorithm) : bool :=
  if bool_decide (alg = ES256) then match key with KeyECDSA p256 _ => p256 | _ => false end
  else if bool_decide (alg = PS256) then match key with KeyRSA _ _ => true | _ => false end
  else if bool_decide (alg = EdDSA) then match key with KeyEd25519 => true | _ => false end
  else false.

(** * Revocation *)

Definition oidDeltaCRLIndicator : list N := [2; 5; 29; 27]%N.
Definition oidIssuingDistributionPoint : list N := [2; 5; 29; 28]%N.

(** checkAgainstCRLs, its usable flag and the entries of a list *)
Definition revokes (list : RevocationList) (serial : Z) : bool :=
  bool_decide (Some serial ∈ rl_RevokedSerialNumbers list).

Section trust.
Context `{Platform} {Env : Type} `{ClientAuthEnv Env}.

Abbreviation env := (eff Env env_error).

(** [s.deps.Clock.Now()] *)
Definition env_now {E} : eff Env E Time := λ x, let '(t, x) := Clock x in (Ok t, x).

Definition ValidateCallerCertificateKey (pub : PublicKey) : bool :=
  checkCallerKeyMaterial (key_material pub).

(** The certificates of a chain are DER, as x509.Certificate holds it. *)
Definition crlUsableFor (list : option RevocationList) (issuer : string) (now : Time) : bool :=
  match list with
  | None => false
  | Some list =>
    bool_decide (rl_RawIssuer list = cert_RawSubject (x509 issuer)) &&
    negb (IsZero (rl_NextUpdate list) || Before now (rl_ThisUpdate list) ||
          negb (Before now (rl_NextUpdate list))) &&
    negb (existsb (λ id, bool_decide (id = oidDeltaCRLIndicator) ||
                         bool_decide (id = oidIssuingDistributionPoint)) (rl_Extensions list)) &&
    rl_SignedBy list issuer
  end.

Fixpoint check_crls (cert issuer : string) (lists : list (option RevocationList)) (now : Time)
    (usable : bool) : result revocation_error unit :=
  match lists with
  | [] => guard_err usable RevocationUndecided
  | list :: lists =>
    if crlUsableFor list issuer now then
      match list with
      | Some l => guard_err (negb (revokes l (cert_SerialNumber (x509 cert)))) CertificateRevoked ;;
                  check_crls cert issuer lists now true
      | None => check_crls cert issuer lists now usable
      end
    else check_crls cert issuer lists now usable
  end.

Definition checkAgainstCRLs (cert issuer : string) (lists : list (option RevocationList))
    (now : Time) : result revocation_error unit := check_crls cert issuer lists now false.

(** The loop of ClientCertificateCRLs.CheckRevocation. *)
Fixpoint check_links (chain : list string) (lists : list (option RevocationList)) (now : Time)
    : result revocation_error unit :=
  match chain with
  | cert :: (issuer :: _) as rest =>
    checkAgainstCRLs cert issuer lists now ;; check_links rest lists now
  | _ => Ok tt
  end.

Definition CheckRevocation (revocation : ClientCertificateRevocation Env) (chain : list string)
    (now : Time) : eff Env revocation_error unit :=
  match revocation with
  | NoClientCertificateRevocationCheck => ret tt
  | ClientCertificateCRLs Lists =>
    let* lists := map_err (λ _, RevocationUndecided) Lists in
    lift (check_links chain lists now)
  | OtherCertificateRevocation check => check chain now
  end.

(** The loop of checkChainsRevocation, with the failures so far. *)
Fixpoint check_chains (revocation : ClientCertificateRevocation Env) (chains : list (list string))
    (now : Time) (revoked undecided : bool) : eff Env revocation_error (list string) :=
  match chains with
  | [] => fail (if undecided then RevocationUndecided
                else if revoked then CertificateRevoked else RevocationUndecided)
  | chain :: chains =>
    let* r := try (CheckRevocation revocation chain now) in
    match r with
    | Ok _ => ret chain
    | Err CertificateRevoked => check_chains revocation chains now true undecided
    | Err RevocationUndecided => check_chains revocation chains now revoked true
    end
  end.

Definition checkChainsRevocation (revocation : ClientCertificateRevocation Env)
    (chains : list (list string)) (now : Time) : eff Env revocation_error (list string) :=
  check_chains revocation chains now false false.

Definition revocationError (subject : string) (err : revocation_error) : Error :=
  match err with
  | CertificateRevoked => newError ErrorInvalidClient 401 (subject +:+ " is revoked")
  | RevocationUndecided =>
    newError ErrorServerError 500 ("failed to check the " +:+ subject +:+ "'s revocation status")
  end.

(** ClientCertificateTrust.verifyChain *)
Definition verifyChain (der : string) (now : Time) : eff Env Error unit :=
  match client_certificate_trust with
  | TrustedClientCAs roots intermediates revocation =>
    match x509_Verify der roots intermediates ExtKeyUsageClientAuth now with
    | None =>
      fail (newError ErrorInvalidClient 401 "client certificate does not chain to a trusted root")
    | Some chains =>
      let* _ := map_err (revocationError "client certificate")
        (checkChainsRevocation revocation chains now) in ret tt
    end
  | NoPKIClientAuthentication =>
    fail (newError ErrorInvalidClient 401
      "this server accepts no CA-issued client certificate (tls_client_auth)")
  | ClientCertificateChainVerifiedUpstream => ret tt
  | NoClientCertificateChainTrust => ret tt
  end.

(** * The trust in an attester *)

(** otherSigningRoles, without the names *)
Definition otherSigningRoles : list (list N) := [
  [1; 0; 18013; 5; 1; 2]; [1; 0; 18013; 5; 1; 3]; [1; 0; 18013; 5; 1; 6]; [1; 0; 18013; 5; 1; 8];
  [1; 0; 23220; 4; 1; 2]; [1; 0; 23220; 4; 1; 6]; [1; 3; 6; 1; 5; 5; 7; 3; 36];
  [1; 3; 6; 1; 5; 5; 7; 3; 21]; [1; 3; 6; 1; 5; 5; 7; 3; 22]]%N.

Definition isOtherSigningRole (oid : list N) : bool := bool_decide (oid ∈ otherSigningRoles).

Definition restrictedToOtherRoles (ca : Certificate) : bool :=
  if bool_decide (cert_ExtKeyUsage ca = []) && bool_decide (cert_UnknownExtKeyUsage ca = [])
  then false
  else negb (bool_decide (ExtKeyUsageAny ∈ cert_ExtKeyUsage ca)) &&
       negb (existsb (λ oid, negb (isOtherSigningRole oid)) (cert_UnknownExtKeyUsage ca)).

(** DefaultAttesterLeafPolicy.CheckAttesterChain *)
Definition default_leaf_policy (chain : list string) : bool :=
  match x509 <$> chain with
  | [] => false
  | leaf :: cas =>
    forallb (λ eku, bool_decide (eku = ExtKeyUsageAny)) (cert_ExtKeyUsage leaf) &&
    forallb (λ oid, negb (isOtherSigningRole oid)) (cert_UnknownExtKeyUsage leaf) &&
    forallb (λ ca, negb (restrictedToOtherRoles ca)) cas
  end.

Definition CheckAttesterChain (policy : AttesterLeafPolicy Env) (chain : list string) : env unit :=
  match policy with
  | DefaultAttesterLeafPolicy => lift (guard_err (default_leaf_policy chain) EnvFailed)
  | AnyAttesterLeaf => ret tt
  | AttesterLeafPolicyFunc f => f chain
  end.

Fixpoint approved_chains (policy : AttesterLeafPolicy Env) (chains : list (list string))
    : env (list (list string)) :=
  match chains with
  | [] => ret []
  | chain :: chains =>
    let* r := try (CheckAttesterChain policy chain) in
    let* rest := approved_chains policy chains in
    ret (if is_ok r then chain :: rest else rest)
  end.

Definition approvedAttesterChains (policy : option (AttesterLeafPolicy Env))
    (chains : list (list string)) : env (list (list string)) :=
  let* approved := approved_chains (default DefaultAttesterLeafPolicy policy) chains in
  if bool_decide (approved = []) then fail EnvFailed else ret approved.

Definition checkAttesterAnchors (anchors : list AttesterAnchor) : bool :=
  negb (bool_decide (length anchors = 0)) &&
  forallb (λ a, is_Some_bool (aa_Certificate a) && negb (bool_decide (aa_Issuers a = [])) &&
                forallb (λ i, negb (bool_decide (i = ""))) (aa_Issuers a)) anchors.

(** StaticAttesterAnchors, StaticAttesterTrustAnchors *)
Definition StaticAttesterAnchors (anchors : list AttesterAnchor) (_ : RegisteredClient)
    : env (list AttesterAnchor) := ret anchors.
Definition StaticAttesterTrustAnchors (roots : CertPool) (_ : RegisteredClient)
    : env (option CertPool) := ret (Some roots).

Definition resolveAnchors (c : X5CAttesterChain Env) (client : RegisteredClient)
    : env (CertPool * list AttesterAnchor) :=
  if bool_decide (x5c_IssuerBinding c = AttesterIssuerBoundToAnchor) then
    let* anchors := x5c_Anchors c client in
    do* lift (guard_err (checkAttesterAnchors anchors) EnvFailed) in
    ret (NewCertPool (omap aa_Certificate anchors), anchors)
  else
    let* roots := x5c_TrustAnchors c client in
    match roots with
    | None => fail EnvFailed
    | Some roots => ret (roots, [])
    end.

Definition isSelfSigned (cert : Certificate) : bool :=
  bool_decide (cert_RawIssuer cert = cert_RawSubject cert) && cert_SignedByOwnKey cert.

(** A chain Certificate.Verify returns is not empty. *)
Definition checkX5CReachesUnsentAnchor (extra : list string) (chains : list (list string)) : bool :=
  existsb (λ chain, match last chain with
    | Some anchor => negb (existsb (λ c,
        bool_decide (cert_RawSubject (x509 c) = cert_RawSubject (x509 anchor)) &&
        bool_decide (cert_RawSubjectPublicKeyInfo (x509 c) =
                     cert_RawSubjectPublicKeyInfo (x509 anchor))) extra)
    | None => false
    end) chains.

(** The leaf, its key, and the chains it verifies along. *)
Definition verifyAttesterChain (ders : list string) (roots : CertPool) (now : Time)
    : option (string * PublicKey * list (list string)) :=
  mapM (λ der, ParseCertificate der ≫= λ pub,
               if ValidateCallerCertificateKey pub then Some pub else None) ders ≫= λ keys,
  match ders, keys with
  | leaf :: extra, key :: _ =>
    let cert := x509 leaf in
    if isSelfSigned cert || cert_IsCA cert ||
       (negb (bool_decide (cert_KeyUsage cert = 0%N)) &&
        bool_decide (N.land (cert_KeyUsage cert) KeyUsageDigitalSignature = 0%N)) ||
       existsb (λ c, isSelfSigned (x509 c)) extra
    then None
    else
      x509_Verify leaf roots (NewCertPool extra) ExtKeyUsageAny now ≫= λ chains,
      if checkX5CReachesUnsentAnchor extra chains then Some (leaf, key, chains) else None
  | _, _ => None
  end.

Definition hasURIName (cert : Certificate) (uri : string) : bool :=
  bool_decide (uri ∈ cert_URIs cert).

Definition chainsEndingAtAnchorFor (chains : list (list string)) (anchors : list AttesterAnchor)
    (issuer : string) : list (list string) :=
  filter (λ chain, match last chain with
    | Some root => existsb (λ a, bool_decide (aa_Certificate a = Some root) &&
                                 bool_decide (issuer ∈ aa_Issuers a)) anchors
    | None => false
    end = true) chains.

(** RegisteredAttesterKeys.attesterKey: the key that signed the attestation. *)
Definition registered_attester_key
    (resolve : string → SignatureAlgorithm → string → env (list (VerificationKey PublicKey)))
    (client : RegisteredClient) (a : Attestation.Attestation) : env (attesterSigner Env) :=
  let alg := clientAttestationAlgorithm client in
  let kid := Attestation.KeyID a in
  let* keys := resolve (expectedAttesterIssuer client) alg kid in
  let candidates := verificationKeyCandidates keys alg kid in
  do* lift (guard_err (negb (bool_decide (length candidates = 0))) EnvFailed) in
  let* key := map_err (λ _, EnvFailed)
    (verifyWithCandidates (λ e, match e with ErrInvalidSignature => true | _ => false end)
       ErrAlgorithmMismatch candidates
       (λ pub, do* lift (Attestation.VerifySignature a pub alg) in ret pub)) in
  ret {| as_key := key; as_chain := []; as_chains := []; as_revocation := None |}.

(** X5CAttesterChain.attesterKey: the key of the certificate that names the
    client's attester. *)
Definition x5c_attester_key (c : X5CAttesterChain Env) (client : RegisteredClient)
    (a : Attestation.Attestation) : env (attesterSigner Env) :=
  match Attestation.CertificateChain a with
  | None | Some None => fail EnvFailed
  | Some (Some ders) =>
    let* '(roots, anchors) := resolveAnchors c client in
    let* now := env_now in
    match verifyAttesterChain ders roots now with
    | None => fail EnvFailed
    | Some (leaf, key, chains) =>
      let* chains := approvedAttesterChains (x5c_LeafPolicy c) chains in
      do* lift (guard_err (keyFitsAlgorithm (key_material key) (clientAttestationAlgorithm client))
                  EnvFailed) in
      let expected := expectedAttesterIssuer client in
      do* lift (guard_err (bool_decide (x5c_IssuerBinding c = AttesterIssuerByTrustAnchors) ||
                           hasURIName (x509 leaf) expected) EnvFailed) in
      let bound :=
        if bool_decide (x5c_IssuerBinding c = AttesterIssuerBoundToAnchor)
        then chainsEndingAtAnchorFor chains anchors expected else chains in
      match bound with
      | [] => fail EnvFailed
      | chain :: _ =>
        ret {| as_key := key; as_chain := chain; as_chains := bound;
               as_revocation := Some (x5c_Revocation c) |}
      end
    end
  end.

Definition attesterKey (client : RegisteredClient) (a : Attestation.Attestation)
    : env (attesterSigner Env) :=
  match attester_trust with
  | RegisteredAttesterKeys resolve => registered_attester_key resolve client a
  | AttesterX5C c => x5c_attester_key c client a
  end.

Definition checkAttestationStillValid (client : RegisteredClient)
    (verified : Attestation.VerifiedAttestation) (signer : attesterSigner Env)
    (instanceKey : string) : eff Env Error unit :=
  let* chain :=
    match as_revocation signer with
    | None => ret (as_chain signer)
    | Some revocation =>
      let* now := env_now in
      map_err (revocationError "attester certificate")
        (checkChainsRevocation revocation (as_chains signer) now)
    end in
  match ClientAttestationStatus with
  | None => ret tt
  | Some CheckClientAttestationStatus =>
    map_err (λ e, match e with
        | ClientAttestationRevoked =>
          newError ErrorInvalidClient 401 "client attestation has been revoked"
        | StatusUnknown =>
          newError ErrorServerError 500 "failed to check the client attestation's status"
        end)
      (CheckClientAttestationStatus {|
         vca_Client := client; vca_Claims := Attestation.va_Claims verified;
         vca_IssuedAt := Attestation.va_IssuedAt verified;
         vca_ExpiresAt := Attestation.va_ExpiresAt verified; vca_InstanceKey := instanceKey;
         vca_SignerKey := as_key signer; vca_SignerCertificates := chain |})
  end.
End trust.
