(* ===== verification/ClientAuth.v ===== *)
(** Client authentication: authenticateClient and its three methods of
    src/server/par.go (private_key_jwt), src/server/client_auth_mtls.go
    (certificates) and src/server/client_auth_attestation.go (attestations),
    the replay namespaces of src/server/replay.go, and client assertions
    (src/internal/clientassertion/). What they call is the class ClientAuthEnv
    of Attestation.v. *)
From S2P Require Import Prelude GoStrings Json GoTime Sha256 Base64 Platform JsonCodec.
From S2P Require Import Numeric.
From S2P Require Import Digests Effects Storage ServerTypes Rar Dpop Jose Attestation.
From S2P Require Import Extensions.

From stdpp Require Import options.

(** * Replay namespaces *)

Definition clientSignedJWTReplayNamespace : string := "server:client-signed-jwt".
Definition clientAttestationPoPReplayNamespace : string := "server:client-attestation-pop".

Definition clientSignedJWTReplayChecker {R} `{ReplayStore R} (client : ClientID) (jti : string)
    (expiresAt : Time) : eff R store_error unit :=
  UseOnce {| ru_Namespace := clientSignedJWTReplayNamespace; ru_Digest := Digest client jti;
             ru_ExpiresAt := expiresAt |}.

Definition clientAttestationPoPReplayChecker {R} `{ReplayStore R} (client : ClientID)
    (instanceKey jti : string) (expiresAt : Time) : eff R store_error unit :=
  UseOnce {| ru_Namespace := clientAttestationPoPReplayNamespace;
             ru_Digest := Digest client (instanceKey +:+ jti); ru_ExpiresAt := expiresAt |}.

(** * Client assertions *)

Module ClientAssertion.

Definition AssertionType : string := "urn:ietf:params:oauth:client-assertion-type:jwt-bearer".
Definition clientAuthenticationJWTType : string := "client-authentication+jwt".

Definition requestClaims : list string :=
  ["response_type"; "redirect_uri"; "scope"; "state"; "nonce"; "code_challenge"; "request";
   "request_uri"; "claims"; "authorization_details"; "login_hint"; "login_hint_token";
   "id_token_hint"; "binding_message"; "client_notification_token"].

Record claims := {
  c_Issuer : string;
  c_Subject : string;
  c_Audience : string;
  c_JTI : string;
  c_ExpiresAt : Z;
  c_IssuedAt : Z;
  c_NotBefore : Z }.

Definition claim_names : list string := ["iss"; "sub"; "aud"; "jti"; "exp"; "iat"; "nbf"].

Record VerifyPolicy (R : Type) := {
  ExpectedClientID : string;
  ExpectedAudiences : list string;
  Algorithm : SignatureAlgorithm;
  Policy_Now : Time;
  MaxLifetime : Duration;
  Policy_MaxClockSkew : Duration;
  Replay : option (string → Time → eff R store_error unit) }.
Arguments ExpectedClientID {R}. Arguments ExpectedAudiences {R}. Arguments Algorithm {R}.
Arguments Policy_Now {R}. Arguments MaxLifetime {R}. Arguments Policy_MaxClockSkew {R}.
Arguments Replay {R}.

Record VerifiedAssertion := {
  va_ClientID : string;
  va_ExpiresAt : Time;
  va_InstanceKey : string }.

Inductive error :=
| ErrPolicy | ErrNoCandidate | ErrJose (e : verify_error) | ErrIssuerSubjectMismatch
| ErrAudienceMismatch | ErrExpired | ErrLifetimeExceeded | ErrIssuedInFuture | ErrNotYetValid
| ErrReplay.

Definition is_signature_error (e : error) : bool :=
  match e with ErrJose ErrInvalidSignature => true | _ => false end.

Section assertion.
Context `{Platform} `{JoseCrypto}.

Definition refuseRequestClaims (members : list (string * json)) : bool :=
  forallb (λ name, negb (bool_decide (name ∈ members.*1))) requestClaims.

Definition parseClaims (payload : string) : option claims :=
  strict_members claim_names payload ≫= λ members,
  get claim_names "iss" dec_str "" members ≫= λ iss,
  get claim_names "sub" dec_str "" members ≫= λ sub,
  get claim_names "aud" dec_str "" members ≫= λ aud,
  get claim_names "jti" dec_str "" members ≫= λ jti,
  get claim_names "exp" dec_date 0%Z members ≫= λ exp,
  get claim_names "iat" dec_date 0%Z members ≫= λ iat,
  get claim_names "nbf" dec_date 0%Z members ≫= λ nbf,
  if negb (refuseRequestClaims members) then None
  else if bool_decide (iss = "") || bool_decide (sub = "") || bool_decide (aud = "") ||
          bool_decide (jti = "") || bool_decide (exp = 0%Z)
  then None
  else Some {| c_Issuer := iss; c_Subject := sub; c_Audience := aud; c_JTI := jti;
               c_ExpiresAt := exp; c_IssuedAt := iat; c_NotBefore := nbf |}.

Record Assertion := { as_compact : Compact PublicKey; as_claims : claims }.

Definition Parse (assertion : string) : option Assertion :=
  jose_ParseCompact assertion ≫= λ compact,
  if negb (RefuseOtherExplicitType (hd_Type (cp_Header compact)) [clientAuthenticationJWTType])
  then None
  else (λ c, {| as_compact := compact; as_claims := c |}) <$> parseClaims (cp_Payload compact).

Definition KeyID (a : Assertion) : string := hd_KeyID (cp_Header (as_compact a)).
Definition as_Algorithm (a : Assertion) : SignatureAlgorithm :=
  hd_Algorithm (cp_Header (as_compact a)).
Definition ClaimedSubject (a : Assertion) : string := c_Subject (as_claims a).

Section policy.
Context {R : Type} (policy : VerifyPolicy R).

Definition checkTimes (c : claims) (exp : Time) : result error unit :=
  guard_err (negb (bool_decide (SaturatingAdd [MaxLifetime policy; Policy_MaxClockSkew policy] <
                                Sub exp (Policy_Now policy))%Z)) ErrLifetimeExceeded ;;
  let latest := Add (Policy_Now policy) (Policy_MaxClockSkew policy) in
  guard_err (bool_decide (c_IssuedAt c = 0%Z) || negb (After (Unix (c_IssuedAt c)) latest))
    ErrIssuedInFuture ;;
  guard_err (bool_decide (c_NotBefore c = 0%Z) || negb (After (Unix (c_NotBefore c)) latest))
    ErrNotYetValid.

Definition Verify (a : Assertion) (pub : PublicKey) : eff R error VerifiedAssertion :=
  let c := as_claims a in
  let exp := Unix (c_ExpiresAt c) in
  do* lift (guard_err (negb (bool_decide (ExpectedClientID policy = ""))) ErrPolicy) in
  do* lift (guard_err (negb (bool_decide (ExpectedAudiences policy = []))) ErrPolicy) in
  do* lift (guard_err (negb (IsZero (Policy_Now policy))) ErrPolicy) in
  do* lift (guard_err (bool_decide (0 < MaxLifetime policy)%Z) ErrPolicy) in
  do* map_err ErrJose (lift (Compact_Verify (as_compact a) pub (Algorithm policy))) in
  do* lift (guard_err (bool_decide (c_Issuer c = ExpectedClientID policy) &&
                       bool_decide (c_Subject c = ExpectedClientID policy))
              ErrIssuerSubjectMismatch) in
  do* lift (guard_err (bool_decide (c_Audience c ∈ ExpectedAudiences policy)) ErrAudienceMismatch) in
  do* lift (guard_err (negb (After (Policy_Now policy) (Add exp (Policy_MaxClockSkew policy))))
              ErrExpired) in
  do* lift (checkTimes c exp) in
  do* match Replay policy with
      | None => ret tt
      | Some UseOnce =>
        map_err (λ _, ErrReplay) (UseOnce (c_JTI c) (Add exp (SaturatingAdd
          [Policy_MaxClockSkew policy; Policy_MaxClockSkew policy])))
      end in
  ret {| va_ClientID := c_Subject c; va_ExpiresAt := exp; va_InstanceKey := "" |}.
End policy.
End assertion.
End ClientAssertion.

(** * Authentication *)

Import ClientAssertion.

(** mtls.Thumbprint *)
Definition mtls_Thumbprint (der : string) : string := EncodeToString rawURL (sha256 der).

Definition unresolvedClientError (err : client_error) : Error :=
  match err with
  | ClientStoreUnavailable => newError ErrorServerError 500 "failed to look up the client"
  | ClientUnknown => newError ErrorInvalidClient 401 "unknown client"
  end.

(** ** Certificates *)

Definition isCertificateAuthMethod (method : ClientAuthMethod) : bool :=
  match method with
  | ClientAuthMethodSelfSignedTLSClientAuth | ClientAuthMethodTLSClientAuth
  | ClientAuthMethodTLSClientAuthSANDNS | ClientAuthMethodTLSClientAuthSANURI
  | ClientAuthMethodTLSClientAuthSANIP | ClientAuthMethodTLSClientAuthSANEmail => true
  | ClientAuthMethodPrivateKeyJWT | ClientAuthMethodAttestation => false
  end.

Definition oidCommonName : list N := [2; 5; 4; 3]%N.
Definition oidSerialNumber : list N := [2; 5; 4; 5]%N.

Definition subjectStringDropsAttributes (names : list (list N * bool)) : bool :=
  negb (forallb snd names) ||
  bool_decide (1 < length (filter (λ n, n.1 = oidCommonName) names)) ||
  bool_decide (1 < length (filter (λ n, n.1 = oidSerialNumber) names)).

Definition matchesRegisteredThumbprint (der : string) (expected : list string) : bool :=
  existsb (λ e, negb (bool_decide (e = "")) && bool_decide (e = mtls_Thumbprint der)) expected.

Definition carriesRegisteredKey (cert : Certificate) (registered : list string) : bool :=
  if bool_decide (registered = []) then true
  else match cert_KeyThumbprint cert with
       | Some thumbprint => bool_decide (thumbprint ∈ registered)
       | None => false
       end.

Definition matchesRegisteredSubjectDN (cert : Certificate) (expected : string) : bool :=
  if bool_decide (expected = "") then false
  else bool_decide (cert_RDNs cert = Some expected) ||
    (bool_decide (cert_Subject cert = expected) &&
     negb (subjectStringDropsAttributes (cert_SubjectNames cert))).

Definition matchesRegisteredSANDNS (cert : Certificate) (expected : string) : bool :=
  bool_decide (expected ∈ cert_DNSNames cert).
Definition matchesRegisteredSANURI (cert : Certificate) (expected : string) : bool :=
  bool_decide (expected ∈ cert_URIs cert).
Definition matchesRegisteredSANEmail (cert : Certificate) (expected : string) : bool :=
  bool_decide (expected ∈ cert_EmailAddresses cert).

Section authentication.
Context `{Platform} {Env : Type} `{ClientAuthEnv Env} `{ReplayStore Env} (c : Config).

Abbreviation auth := (eff Env Error).

Definition invalid_client (desc : string) : Error := newError ErrorInvalidClient 401 desc.

Definition matchesRegisteredSANIP (cert : Certificate) (expected : string) : bool :=
  existsb (λ ip, ip_Equal ip expected) (cert_IPAddresses cert).

Definition checkChainsToRoot (der : string) : auth unit :=
  let* now := env_now in verifyChain der now.

Definition verifyChainedFieldMatch (client : RegisteredClient) (der : string) (fieldMatched : bool)
    : auth unit :=
  do* checkChainsToRoot der in
  do* lift (guard_err fieldMatched
    (invalid_client "client certificate subject does not match the registered subject")) in
  lift (guard_err (carriesRegisteredKey (x509 der) (certificateKeyThumbprints client))
    (invalid_client "client certificate's public key is not one of the client's registered keys")).

(** [None] for a method that is not certificate-based. *)
Definition verifyClientCertificateFor (method : ClientAuthMethod) (client : RegisteredClient)
    (der : string) : option (auth unit) :=
  let cert := x509 der in
  match method with
  | ClientAuthMethodSelfSignedTLSClientAuth =>
    Some (lift (guard_err (matchesRegisteredThumbprint der (ExpectedCertificateThumbprints client))
      (invalid_client "client certificate does not match the registered thumbprint")))
  | ClientAuthMethodTLSClientAuth =>
    Some (verifyChainedFieldMatch client der
      (matchesRegisteredSubjectDN cert (expectedSubjectDN client)))
  | ClientAuthMethodTLSClientAuthSANDNS =>
    Some (verifyChainedFieldMatch client der (matchesRegisteredSANDNS cert (expectedSANDNS client)))
  | ClientAuthMethodTLSClientAuthSANURI =>
    Some (verifyChainedFieldMatch client der (matchesRegisteredSANURI cert (expectedSANURI client)))
  | ClientAuthMethodTLSClientAuthSANIP =>
    Some (verifyChainedFieldMatch client der (matchesRegisteredSANIP cert (expectedSANIP client)))
  | ClientAuthMethodTLSClientAuthSANEmail =>
    Some (verifyChainedFieldMatch client der
      (matchesRegisteredSANEmail cert (expectedSANEmail client)))
  | ClientAuthMethodPrivateKeyJWT | ClientAuthMethodAttestation => None
  end.

(** The loop of verifyClientCertificate, with the last error so far. *)
Fixpoint verify_certificate_methods (methods : list ClientAuthMethod) (client : RegisteredClient)
    (der : string) (lastErr : Error) : auth unit :=
  match methods with
  | [] => fail lastErr
  | method :: methods =>
    match verifyClientCertificateFor method client der with
    | None => verify_certificate_methods methods client der lastErr
    | Some verify =>
      let* r := try verify in
      match r with
      | Ok _ => ret tt
      | Err err => verify_certificate_methods methods client der err
      end
    end
  end.

Definition verifyClientCertificate (client : RegisteredClient) (der : string) : auth unit :=
  verify_certificate_methods (clientAuthMethods client) client der
    (invalid_client "client is not registered for certificate-based client authentication").

Definition authenticateClientViaCertificate (clientID : ClientID) (peerCert : option string)
    : auth (RegisteredClient * VerifiedAssertion) :=
  let* client := map_err unresolvedClientError (ResolveClient clientID) in
  do* lift (guard_err (existsb isCertificateAuthMethod (clientAuthMethods client))
    (invalid_client "client authentication is required")) in
  match peerCert with
  | None => fail (invalid_client "a client certificate is required for client authentication")
  | Some der =>
    do* verifyClientCertificate client der in
    ret (client, {| va_ClientID := clientID; va_ExpiresAt := zero_time; va_InstanceKey := "" |})
  end.

(** ** Assertions *)

(** The candidate keys; no matching key is an error too. *)
Definition resolveClientKeys (id : ClientID) (purpose : VerificationPurpose)
    (alg : SignatureAlgorithm) (kid : string) : eff Env env_error (list PublicKey) :=
  let* keys := ResolveVerificationKeys id purpose alg kid in
  let candidates := verificationKeyCandidates keys alg kid in
  if bool_decide (length candidates = 0) then fail EnvFailed else ret candidates.

Definition url_texts (urls : list (option ParsedURL)) : list string := url_string <$> omap id urls.

Definition acceptableClientAssertionAudiences (client : RegisteredClient)
    (endpoints mtlsEndpoints : list (option ParsedURL)) : list string :=
  if negb (BackchannelAuthenticationRequestAlgorithm client).2 then [cfg_Issuer c]
  else if negb (bool_decide (senderConstrain client = SenderConstrainMTLS))
  then cfg_Issuer c :: url_texts endpoints
  else cfg_Issuer c :: url_texts endpoints ++ url_texts mtlsEndpoints.

(** The policy an assertion of [client] is verified under. *)
Definition assertion_policy (client : RegisteredClient) (audiences : list string)
    (alg : SignatureAlgorithm) (now : Time) : VerifyPolicy Env := {|
  ExpectedClientID := client_id client; ExpectedAudiences := audiences; Algorithm := alg;
  Policy_Now := now; MaxLifetime := MaxClientAssertionLifetime (cfg_Limits c);
  Policy_MaxClockSkew := MaxClockSkew (cfg_Limits c);
  Replay := Some (clientSignedJWTReplayChecker (client_id client)) |}.

Definition authenticateClientViaAssertion (params : gmap string string)
    (endpoints mtlsEndpoints : list (option ParsedURL))
    : auth (RegisteredClient * VerifiedAssertion) :=
  do* lift (guard_err (bool_decide (param params "client_assertion_type" = AssertionType))
    (invalid_client "unsupported client_assertion_type")) in
  match Parse (param params "client_assertion") with
  | None => fail (invalid_client "malformed client assertion")
  | Some assertion =>
    do* lift (guard_err (bool_decide (param params "client_id" = "") ||
                         bool_decide (param params "client_id" = ClaimedSubject assertion))
      (invalid_client "client_id does not match the client assertion's subject")) in
    let* client := map_err unresolvedClientError (ResolveClient (ClaimedSubject assertion)) in
    do* lift (guard_err (AllowsClientAuthMethod client ClientAuthMethodPrivateKeyJWT)
      (invalid_client "client is not registered for private_key_jwt client authentication")) in
    let alg := as_Algorithm assertion in
    do* lift (guard_err (AllowsClientAssertionAlgorithm client alg &&
                         bool_decide (alg ∈ ClientAssertionAlgorithms c))
      (invalid_client "client assertion algorithm is not permitted")) in
    let* candidates := map_err (λ _, invalid_client "no matching client key")
      (resolveClientKeys (client_id client) ClientAssertionVerification alg (KeyID assertion)) in
    let* now := env_now in
    let policy := assertion_policy client
      (acceptableClientAssertionAudiences client endpoints mtlsEndpoints) alg now in
    let* verified := map_err (λ _, invalid_client "client assertion verification failed")
      (verifyWithCandidates is_signature_error ErrNoCandidate candidates
         (λ pub, Verify policy assertion pub)) in
    ret (client, verified)
  end.

(** ** Attestations *)

(** The policy an attestation of [client] is verified under. *)
Definition attestation_policy (client : RegisteredClient) (now : Time)
    : Attestation.VerifyPolicy := {|
  Attestation.ExpectedIssuer := expectedAttesterIssuer client;
  Attestation.ExpectedSubject := client_id client;
  Attestation.Algorithm := clientAttestationAlgorithm client; Attestation.Policy_Now := now;
  Attestation.MaxLifetime := MaxClientAttestationLifetime (cfg_Limits c);
  Attestation.Policy_MaxClockSkew := MaxClockSkew (cfg_Limits c) |}.

(** The policy its proof of possession is verified under. *)
Definition pop_policy (client : RegisteredClient) (now : Time)
    : Attestation.PoPVerifyPolicy Env := {|
  Attestation.pp_ClientID := client_id client;
  Attestation.pp_ExpectedAudience := cfg_Issuer c; Attestation.pp_ExpectedChallenge := "";
  Attestation.pp_Now := now; Attestation.pp_MaxAge := MaxClientAttestationPoPAge (cfg_Limits c);
  Attestation.pp_MaxClockSkew := MaxClockSkew (cfg_Limits c);
  Attestation.pp_Replay := Some (clientAttestationPoPReplayChecker (client_id client)) |}.

Definition verifyClientAttestation (client : RegisteredClient)
    (attestation : Attestation.Attestation)
    : auth (Attestation.VerifiedAttestation * attesterSigner Env) :=
  do* lift (guard_err
    (bool_decide (clientAttestationAlgorithm client ∈ ClientAttestationAlgorithms c))
    (invalid_client "client attestation algorithm is not permitted")) in
  let* signer := map_err (λ _, invalid_client "no matching attester key")
    (attesterKey client attestation) in
  let* now := env_now in
  match Attestation.Verify attestation (as_key signer) (attestation_policy client now) with
  | Ok verified => ret (verified, signer)
  | Err Attestation.ErrExpired =>
    fail (newError ErrorUseFreshAttestation 400 "client attestation has expired")
  | Err _ => fail (invalid_client "client attestation verification failed")
  end.

Definition authenticateClientViaAttestation (formClientID attestation pop : string)
    : auth (RegisteredClient * VerifiedAssertion) :=
  do* lift (guard_err (AttestationBasedClientAuthentication c)
    (invalid_client "attestation-based client authentication is not enabled")) in
  match Attestation.Parse attestation with
  | None => fail (invalid_client "malformed client attestation")
  | Some parsedAttestation =>
    match Attestation.ParsePoP pop with
    | None => fail (invalid_client "malformed client attestation pop")
    | Some parsedPoP =>
      let subject := Attestation.ClaimedSubject parsedAttestation in
      do* lift (guard_err (bool_decide (formClientID = "") || bool_decide (formClientID = subject))
        (invalid_client "client_id does not match the client attestation's subject")) in
      let* client := map_err unresolvedClientError (ResolveClient subject) in
      do* lift (guard_err (AllowsClientAuthMethod client ClientAuthMethodAttestation)
        (invalid_client
           "client is not registered for attestation-based client authentication")) in
      let* '(verified, signer) := verifyClientAttestation client parsedAttestation in
      do* lift (guard_err
        (bool_decide (Attestation.PoP_Algorithm parsedPoP ∈ ClientAttestationPoPAlgorithms c))
        (invalid_client "client attestation pop algorithm is not permitted")) in
      let* now := env_now in
      let* verifiedPoP :=
        map_err (λ _, invalid_client "client attestation pop verification failed")
          (Attestation.VerifyPoP (pop_policy client now) parsedPoP
             (Attestation.ConfirmationJWK verified)) in
      let instanceKey := Attestation.vp_InstanceKey verifiedPoP in
      do* checkAttestationStillValid client verified signer instanceKey in
      ret (client, {| va_ClientID := Attestation.vp_ClientID verifiedPoP;
                      va_ExpiresAt := Attestation.va_ExpiresAt verified;
                      va_InstanceKey := instanceKey |})
    end
  end.

Definition authenticateClient (params : gmap string string) (peerCert : option string)
    (attestation attestationPoP : string) (endpoints mtlsEndpoints : list (option ParsedURL))
    : auth (RegisteredClient * VerifiedAssertion) :=
  let carriesAttestation :=
    negb (bool_decide (attestation = "")) || negb (bool_decide (attestationPoP = "")) in
  let carriesAssertion := negb (bool_decide (param params "client_assertion" = "")) ||
    negb (bool_decide (param params "client_assertion_type" = "")) in
  if carriesAttestation && carriesAssertion then
    fail (newError ErrorInvalidRequest 400
      "a client attestation cannot be combined with another client authentication method")
  else if carriesAttestation then
    authenticateClientViaAttestation (param params "client_id") attestation attestationPoP
  else if negb (bool_decide (param params "client_assertion" = "")) then
    authenticateClientViaAssertion params endpoints mtlsEndpoints
  else if negb (bool_decide (param params "client_id" = "")) then
    authenticateClientViaCertificate (param params "client_id") peerCert
  else fail (invalid_client "client authentication is required").
End authentication.
