(* ===== verification/ClientAuthTheorems.v ===== *)
(** Client authentication: what an accepted client assertion, certificate or
    attestation has shown, and that a client-signed JWT (a client assertion or
    a signed request object) and a proof of possession are accepted at most
    once. *)
From stdpp Require Import relations.
From S2P Require Import Prelude GoStrings Json GoTime Sha256 Base64 Platform JsonCodec.
From S2P Require Import Numeric.
From S2P Require Import Digests Effects Storage MemStore MemTheorems ServerTypes Rar Dpop.
From S2P Require Import Jose Extensions RequestObject Attestation ClientAuth.
From stdpp Require Import options.

Set Default Proof Using "Type*".

(** * Key candidates *)

Lemma verifyWithCandidates_Ok {S K E A} (sig : E → bool) (verify : K → eff S E A) candidates :
  ∀ none s a s', verifyWithCandidates sig none candidates verify s = (Ok a, s') →
  ∃ pub s0, pub ∈ candidates ∧ verify pub s0 = (Ok a, s').
Proof.
  induction candidates as [|pub candidates IH]; intros none s a s' Hrun; [done|]. simpl in Hrun.
  apply ebind_Ok in Hrun as (r & s1 & Hr & Hrun). rewrite try_Ok in Hr. destruct r as [b|e].
  - apply ret_Ok in Hrun as [-> ->]. exists pub, s. split; [by left|done].
  - destruct (sig e); [|done]. apply IH in Hrun as (p & s0 & Hp & Hv). exists p, s0.
    split; [by right|done].
Qed.

Section candidates.
Context `{Platform} {Env : Type} `{ClientAuthEnv Env} `{ReplayStore Env}.

(** A key the deployment's resolver returns for this client, purpose and
    algorithm, and under this key ID when one is named. *)
Definition client_key (id : ClientID) (purpose : VerificationPurpose) (alg : SignatureAlgorithm)
    (kid : string) (pub : PublicKey) : Prop :=
  ∃ keys k x x', ResolveVerificationKeys id purpose alg kid x = (Ok keys, x') ∧ k ∈ keys ∧
    vk_PublicKey k = pub ∧ vk_Algorithm k = alg ∧ (kid = "" ∨ vk_KeyID k = kid).

Lemma resolveClientKeys_Ok id purpose alg kid x candidates x' :
  resolveClientKeys id purpose alg kid x = (Ok candidates, x') →
  length candidates ≤ maxKeyCandidates ∧ ∀ pub, pub ∈ candidates → client_key id purpose alg kid pub.
Proof.
  unfold resolveClientKeys. intros Hrun. apply ebind_Ok in Hrun as (keys & x1 & Hk & Hrun).
  case_bool_decide; [done|]. apply ret_Ok in Hrun as [-> ->]. unfold verificationKeyCandidates.
  split; [rewrite length_take; lia|]. intros pub Hpub.
  apply subseteq_take, list_elem_of_fmap in Hpub as (k & -> & Hk').
  apply list_elem_of_filter in Hk' as [[Hkid Halg] Hin]. by exists keys, k, x, x1.
Qed.
End candidates.

(** * Client assertions *)

Section assertions.
Context `{Platform} `{JoseCrypto}.
Import ClientAssertion.

(** What an accepted assertion says, and what it was checked against. *)
Definition assertion_accepted {R} (policy : VerifyPolicy R) (a : Assertion) (pub : PublicKey) : Prop :=
  Compact_Verify (as_compact a) pub (Algorithm policy) = Ok tt ∧
  c_Issuer (as_claims a) = ExpectedClientID policy ∧
  c_Subject (as_claims a) = ExpectedClientID policy ∧
  c_Audience (as_claims a) ∈ ExpectedAudiences policy ∧
  (Policy_Now policy ≤ Unix (c_ExpiresAt (as_claims a)) + Policy_MaxClockSkew policy)%Z ∧
  (Sub (Unix (c_ExpiresAt (as_claims a))) (Policy_Now policy) ≤
    SaturatingAdd [MaxLifetime policy; Policy_MaxClockSkew policy])%Z.

Lemma Assertion_Verify_Ok {R} (policy : VerifyPolicy R) a pub s v s' :
  Verify policy a pub s = (Ok v, s') →
  assertion_accepted policy a pub ∧ va_ClientID v = ExpectedClientID policy ∧
  match Replay policy with
  | None => s' = s
  | Some UseOnce => ∃ expiresAt, UseOnce (c_JTI (as_claims a)) expiresAt s = (Ok tt, s')
  end.
Proof.
  unfold Verify. intros Hrun.
  repeat (apply ebind_Ok in Hrun as ([] & ? & ?Hstep & Hrun)).
  apply ret_Ok in Hrun as [-> ->].
  repeat match goal with
    | H : lift _ _ = (Ok _, _) |- _ => apply lift_Ok in H as [H ->]
    | H : map_err ErrJose _ _ = (Ok _, _) |- _ => apply map_err_Ok in H
    | H : guard_err _ _ = Ok _ |- _ => apply guard_err_Ok in H
    end.
  repeat match goal with
    | H : _ && _ = true |- _ => apply andb_true_iff in H as [? ?]
    | H : bool_decide _ = true |- _ => apply bool_decide_eq_true in H
    | H : negb _ = true |- _ => apply negb_true_iff in H
    | H : After _ _ = false |- _ => apply bool_decide_eq_false in H
    end.
  match goal with H : checkTimes _ _ _ = _ |- _ => unfold checkTimes in H;
    apply bind_Ok in H as ([] & Hlife & _) end.
  apply guard_err_Ok, negb_true_iff, bool_decide_eq_false in Hlife.
  match goal with H : ¬ (_ < Policy_Now policy)%Z |- _ => unfold Add in H end.
  split_and!; [unfold assertion_accepted; split_and!; (done || lia)|done|].
  destruct (Replay policy); [|by apply ret_Ok in Hstep8 as [_ ->]].
  apply map_err_Ok in Hstep8. eauto.
Qed.
End assertions.

(** * Signed request objects *)

Section objects.
Context `{Platform} `{JoseCrypto}.

(** A JWT one client signed (a client assertion, or a request object), with
    this jti, accepted in a state of the replay store. *)
Inductive client_jwt_accepted {R} `{ReplayStore R} (client : ClientID) (jti : string) (s s' : R)
    : Prop :=
| assertion_jwt policy a pub v :
    ClientAssertion.Replay policy = Some (clientSignedJWTReplayChecker client) →
    ClientAssertion.c_JTI (ClientAssertion.as_claims a) = jti →
    ClientAssertion.Verify policy a pub s = (Ok v, s') → client_jwt_accepted client jti s s'
| object_jwt policy o pub v :
    Objects.Replay policy = Some (clientSignedJWTReplayChecker client) →
    Objects.c_JTI (Objects.ob_claims o) = jti → jti ≠ "" →
    Objects.Verify policy o pub s = (Ok v, s') → client_jwt_accepted client jti s s'.

Lemma client_jwt_spent {R} `{ReplayStore R} client jti (s s' : R) :
  client_jwt_accepted client jti s s' →
  ∃ t, clientSignedJWTReplayChecker client jti t s = (Ok tt, s').
Proof.
  intros [policy a pub v Hp <- Hv|policy o pub v Hp <- Hne Hv].
  - apply Assertion_Verify_Ok in Hv as (_ & _ & Hu). by rewrite Hp in Hu.
  - apply Objects.Verify_Ok in Hv as (_ & _ & _ & _ & _ & _ & Hu). rewrite Hp in Hu.
    destruct Hu as [[? _]|[_ Hu]]; [done|]. by eexists.
Qed.

(** A client-signed JWT is accepted at most once. With the in-memory replay
    store, once a client's assertion or request object with some jti was
    accepted, no assertion and no request object of that client with that
    jti, the same one included, is ever accepted again, whatever other
    digests are spent in between. *)
Theorem client_jwt_accepted_once client jti (s s1 s2 s3 : Replays.ReplayStore) :
  @client_jwt_accepted _ Replays.replay_store client jti s s1 → rtc use_step s1 s2 →
  ¬ @client_jwt_accepted _ Replays.replay_store client jti s2 s3.
Proof.
  intros [t1 H1]%client_jwt_spent Hsteps [t2 H2]%client_jwt_spent.
  unfold clientSignedJWTReplayChecker in H1, H2.
  exact (spent_digest_refused _ _ _ _ _ _ eq_refl eq_refl H1 Hsteps H2).
Qed.
End objects.

(** * Who is authenticated *)

Section authentication.
Context `{Platform} {Env : Type} `{ClientAuthEnv Env} `{ReplayStore Env} (c : Config).
Import ClientAssertion.

Definition resolves_client (id : ClientID) (client : RegisteredClient) : Prop :=
  ∃ x x', ResolveClient id x = (Ok client, x').

(** The assertion of a request whose client it authenticates. *)
Definition assertion_authenticates (params : gmap string string) (client : RegisteredClient)
    (audiences : list string) (now : Time) (a : Assertion) (pub : PublicKey) : Prop :=
  param params "client_assertion_type" = AssertionType ∧
  Parse (param params "client_assertion") = Some a ∧
  (param params "client_id" = "" ∨ param params "client_id" = client_id client) ∧
  resolves_client (client_id client) client ∧
  AllowsClientAuthMethod client ClientAuthMethodPrivateKeyJWT = true ∧
  AllowsClientAssertionAlgorithm client (as_Algorithm a) = true ∧
  as_Algorithm a ∈ ClientAssertionAlgorithms c ∧
  client_key (client_id client) ClientAssertionVerification (as_Algorithm a) (KeyID a) pub ∧
  assertion_accepted (assertion_policy c client audiences (as_Algorithm a) now) a pub ∧
  ∃ x expiresAt x',
    clientSignedJWTReplayChecker (client_id client) (c_JTI (as_claims a)) expiresAt x = (Ok tt, x').

(** C17. A client authenticated by an assertion made it. The request's
    client_assertion is a JWT whose signature verifies under a key the
    deployment resolves for the client, for client assertions and the JWT's
    algorithm, which client and server both permit; its issuer and subject
    are the client, its audience one this server accepts, and it has neither
    expired nor longer to live than the limit; the client is registered for
    private_key_jwt, the request names no other client, and the JWT's jti was
    unused. *)
Theorem client_assertion_authenticated params endpoints mtlsEndpoints x client verified x' :
  authenticateClientViaAssertion c params endpoints mtlsEndpoints x = (Ok (client, verified), x') →
  va_ClientID verified = client_id client ∧
  ∃ now a pub, (∃ y, (Clock y).1 = now) ∧
    assertion_authenticates params client
      (acceptableClientAssertionAudiences c client endpoints mtlsEndpoints) now a pub.
Proof.
  unfold authenticateClientViaAssertion. intros Hrun.
  apply ebind_Ok in Hrun as ([] & x0 & Htype & Hrun). apply lift_Ok in Htype as [Htype ->].
  destruct (Parse _) as [a|] eqn:Hparse; [|done].
  apply ebind_Ok in Hrun as ([] & x1 & Hid & Hrun). apply lift_Ok in Hid as [Hid ->].
  apply ebind_Ok in Hrun as (client' & x2 & Hclient & Hrun). apply map_err_Ok in Hclient.
  apply ebind_Ok in Hrun as ([] & x3 & Hmethod & Hrun). apply lift_Ok in Hmethod as [Hmethod ->].
  apply ebind_Ok in Hrun as ([] & x4 & Halg & Hrun). apply lift_Ok in Halg as [Halg ->].
  apply ebind_Ok in Hrun as (candidates & x5 & Hkeys & Hrun). apply map_err_Ok in Hkeys.
  apply ebind_Ok in Hrun as (now & x6 & Hnow & Hrun).
  apply ebind_Ok in Hrun as (v & x7 & Hv & Hrun). apply ret_Ok in Hrun as [[= -> ->] _].
  apply map_err_Ok, verifyWithCandidates_Ok in Hv as (pub & x8 & Hpub & Hv).
  apply Assertion_Verify_Ok in Hv as (Hacc & Hvid & expiresAt & Hu). split; [done|].
  apply resolveClientKeys_Ok in Hkeys as [_ Hkeys].
  apply guard_err_Ok in Htype, Hid, Hmethod, Halg.
  apply bool_decide_eq_true in Htype. apply andb_true_iff in Halg as [Halg1 Halg2%bool_decide_eq_true].
  assert (Hsub : ClaimedSubject a = client_id client') by apply Hacc.
  rewrite Hsub in Hclient, Hid. exists now, a, pub. split.
  { exists x5. unfold env_now in Hnow. destruct (Clock x5). by injection Hnow as -> _. }
  unfold assertion_authenticates. split_and!; try done; eauto.
  - apply orb_true_iff in Hid as [?%bool_decide_eq_true|?%bool_decide_eq_true]; auto.
  - by eexists _, _.
Qed.

(** ** Certificates *)

(** What a certificate has to be for a certificate-based method a client is
    registered for. *)
Definition certificate_matches (client : RegisteredClient) (der : string) (method : ClientAuthMethod)
    : Prop :=
  let cert := x509 der in
  let chained := (∃ now y y' x, (Clock x).1 = now ∧ verifyChain der now y = (Ok tt, y')) ∧
    carriesRegisteredKey cert (certificateKeyThumbprints client) = true in
  match method with
  | ClientAuthMethodSelfSignedTLSClientAuth =>
    ∃ thumbprint, thumbprint ∈ ExpectedCertificateThumbprints client ∧ thumbprint ≠ "" ∧
      thumbprint = mtls_Thumbprint der
  | ClientAuthMethodTLSClientAuth =>
    chained ∧ expectedSubjectDN client ≠ "" ∧
    (cert_RDNs cert = Some (expectedSubjectDN client) ∨
     cert_Subject cert = expectedSubjectDN client ∧
     subjectStringDropsAttributes (cert_SubjectNames cert) = false)
  | ClientAuthMethodTLSClientAuthSANDNS => chained ∧ expectedSANDNS client ∈ cert_DNSNames cert
  | ClientAuthMethodTLSClientAuthSANURI => chained ∧ expectedSANURI client ∈ cert_URIs cert
  | ClientAuthMethodTLSClientAuthSANIP =>
    chained ∧ ∃ ip, ip ∈ cert_IPAddresses cert ∧ ip_Equal ip (expectedSANIP client) = true
  | ClientAuthMethodTLSClientAuthSANEmail =>
    chained ∧ expectedSANEmail client ∈ cert_EmailAddresses cert
  | ClientAuthMethodPrivateKeyJWT | ClientAuthMethodAttestation => False
  end.

Lemma verifyChainedFieldMatch_Ok client der matched x x' :
  verifyChainedFieldMatch client der matched x = (Ok tt, x') →
  ((∃ now y y' x, (Clock x).1 = now ∧ verifyChain der now y = (Ok tt, y')) ∧
   carriesRegisteredKey (x509 der) (certificateKeyThumbprints client) = true) ∧ matched = true.
Proof.
  unfold verifyChainedFieldMatch, checkChainsToRoot. intros Hrun.
  apply ebind_Ok in Hrun as ([] & x1 & Hchain & Hrun).
  apply ebind_Ok in Hrun as ([] & x2 & Hm & Hrun).
  apply lift_Ok in Hm as [Hm%guard_err_Ok ->]. apply lift_Ok in Hrun as [Hk%guard_err_Ok _].
  apply ebind_Ok in Hchain as (now & x3 & Hnow & Hchain). split; [|done]. split; [|done].
  exists now, x3, x1, x. split; [|done]. unfold env_now in Hnow. destruct (Clock x).
  by injection Hnow as -> _.
Qed.

Lemma verifyClientCertificateFor_Ok method client der verify x x' :
  verifyClientCertificateFor method client der = Some verify → verify x = (Ok tt, x') →
  certificate_matches client der method.
Proof.
  unfold verifyClientCertificateFor, certificate_matches.
  destruct method; intros [= <-] Hv; cbv zeta;
    try (apply verifyChainedFieldMatch_Ok in Hv as [Hchain Hm]; split; [exact Hchain|]).
  - apply lift_Ok in Hv as [Hv%guard_err_Ok _]. unfold matchesRegisteredThumbprint in Hv.
    apply existsb_exists in Hv as (e & Hin & He). apply andb_true_iff in He as [Hne Heq].
    apply bool_decide_eq_true in Heq. apply negb_true_iff, bool_decide_eq_false in Hne.
    exists e. split_and!; [by apply list_elem_of_In|done..].
  - unfold matchesRegisteredSubjectDN in Hm. case_bool_decide as Hne; [done|]. split; [done|].
    apply orb_true_iff in Hm as [?%bool_decide_eq_true|Hm]; [by left|right].
    by apply andb_true_iff in Hm as [?%bool_decide_eq_true ?%negb_true_iff].
  - by apply bool_decide_eq_true in Hm.
  - by apply bool_decide_eq_true in Hm.
  - apply existsb_exists in Hm as (ip & Hin & Heq). exists ip. split; [by apply list_elem_of_In|done].
  - by apply bool_decide_eq_true in Hm.
Qed.

Lemma verify_certificate_methods_Ok client der methods : ∀ lastErr x x',
  verify_certificate_methods methods client der lastErr x = (Ok tt, x') →
  ∃ method, method ∈ methods ∧ certificate_matches client der method.
Proof.
  induction methods as [|method methods IH]; intros lastErr x x' Hrun; [done|]. simpl in Hrun.
  destruct (verifyClientCertificateFor method client der) as [verify|] eqn:Hfor.
  - apply ebind_Ok in Hrun as (r & x1 & Hr & Hrun). rewrite try_Ok in Hr. destruct r as [[]|err].
    + exists method. split; [by left|]. by eapply verifyClientCertificateFor_Ok.
    + apply IH in Hrun as (m & Hm & ?). exists m. split; [by right|done].
  - apply IH in Hrun as (m & Hm & ?). exists m. split; [by right|done].
Qed.

(** C19. A client authenticated by its certificate presented a registered one. The
    client is the one the request names, and the certificate of its TLS
    connection satisfies one of the certificate-based methods the client is
    registered for: for a self-signed one its thumbprint is registered; for
    one from a certification authority its chain verifies at the server's
    time, its subject or alternative name is the registered one, and its key
    is among the registered ones when there are any. *)
Theorem client_certificate_authenticated clientID peerCert x client verified x' :
  authenticateClientViaCertificate clientID peerCert x = (Ok (client, verified), x') →
  resolves_client clientID client ∧
  ∃ der method, peerCert = Some der ∧ method ∈ clientAuthMethods client ∧
    isCertificateAuthMethod method = true ∧ certificate_matches client der method.
Proof.
  unfold authenticateClientViaCertificate. intros Hrun.
  apply ebind_Ok in Hrun as (client' & x1 & Hclient & Hrun). apply map_err_Ok in Hclient.
  apply ebind_Ok in Hrun as ([] & x2 & _ & Hrun). destruct peerCert as [der|]; [|done].
  apply ebind_Ok in Hrun as ([] & x3 & Hcert & Hrun). apply ret_Ok in Hrun as [[= -> ->] _].
  split; [by exists x, x1|].
  apply verify_certificate_methods_Ok in Hcert as (method & Hin & Hm). exists der, method.
  split_and!; try done. by destruct method.
Qed.
End authentication.

(** * Attestations *)

Section attestations.
Context `{Platform} `{JoseCrypto}.
Import Attestation.

(** What an accepted Client Attestation says. *)
Record attestation_accepted (policy : VerifyPolicy) (a : Attestation) (pub : PublicKey)
    (v : VerifiedAttestation) : Prop := {
  ok_signed : Compact_Verify (at_compact a) pub (Algorithm policy) = Ok tt;
  ok_type : TypeIs (hd_Type (cp_Header (at_compact a))) TypHeader = true;
  ok_issuer : c_Issuer (at_claims a) = "" ∨ c_Issuer (at_claims a) = ExpectedIssuer policy;
  ok_subject : c_Subject (at_claims a) = ExpectedSubject policy;
  ok_current :
    (Policy_Now policy ≤ Unix (c_ExpiresAt (at_claims a)) + Policy_MaxClockSkew policy)%Z;
  ok_lifetime : (Sub (Unix (c_ExpiresAt (at_claims a))) (Policy_Now policy) ≤
    SaturatingAdd [MaxLifetime policy; Policy_MaxClockSkew policy])%Z;
  ok_confirms : ConfirmationJWK v = c_JWK (at_claims a);
  ok_expiry : va_ExpiresAt v = Unix (c_ExpiresAt (at_claims a));
  ok_claims : all_claims (cp_Payload (at_compact a)) = Some (va_Claims v) }.

Lemma Attestation_Verify_Ok a pub policy v :
  Verify a pub policy = Ok v → attestation_accepted policy a pub v.
Proof.
  unfold Verify, checkAttestationTimes. intros Hv. inv_ok. split_match Hv; [|done]. inv_ok.
  repeat match goal with
    | H : _ || _ = true |- _ => apply orb_true_iff in H
    | H : negb _ = true |- _ => apply negb_true_iff in H
    | H : bool_decide _ = true |- _ => apply bool_decide_eq_true in H
    | H : bool_decide _ = false |- _ => apply bool_decide_eq_false in H
    | H : After _ _ = false |- _ => unfold After in H
    end.
  repeat match goal with H : unit |- _ => destruct H end.
  split; try done; unfold Add in *; try lia.
  match goal with H : _ ∨ bool_decide (c_Issuer _ = _) = true |- _ =>
    by rewrite !bool_decide_eq_true in H end.
Qed.

(** What an accepted proof of possession says, and that its jti is spent. *)
Record pop_accepted {R} (policy : PoPVerifyPolicy R) (p : PoP) (jwk : PublicKey)
    (instanceKey : string) : Prop := {
  pop_signed : Compact_Verify (po_compact p) jwk (PoP_Algorithm p) = Ok tt;
  pop_type : TypeIs (hd_Type (cp_Header (po_compact p))) PoPTypHeader = true;
  pop_issuer : p_Issuer (po_claims p) = "" ∨ p_Issuer (po_claims p) = pp_ClientID policy;
  pop_audience : p_Audience (po_claims p) = pp_ExpectedAudience policy;
  pop_started :
    (Unix (p_IssuedAt (po_claims p)) ≤ pp_Now policy + pp_MaxClockSkew policy)%Z;
  pop_fresh : (Sub (pp_Now policy) (Unix (p_IssuedAt (po_claims p))) ≤ pp_MaxAge policy)%Z;
  pop_key : jwk_Thumbprint jwk = Some instanceKey }.

Lemma VerifyPoP_Ok {R} (policy : PoPVerifyPolicy R) p jwk s v s' :
  VerifyPoP policy p jwk s = (Ok v, s') →
  vp_ClientID v = pp_ClientID policy ∧
  ∃ pub, ParseJWK jwk (PoP_Algorithm p) = Some pub ∧
    pop_accepted policy p pub (vp_InstanceKey v) ∧
    match pp_Replay policy with
    | None => s' = s
    | Some UseOnce => ∃ t, UseOnce (vp_InstanceKey v) (p_JTI (po_claims p)) t s = (Ok tt, s')
    end.
Proof.
  unfold VerifyPoP, checkPoPTimes. intros Hv. inv_eff. destruct (ParseJWK _ _) as [pub|]; [|done].
  inv_eff. destruct (jwk_Thumbprint pub) eqn:Hthumb; [|done]. inv_eff. inv_ok.
  repeat match goal with
    | H : _ || _ = true |- _ => apply orb_true_iff in H
    | H : negb _ = true |- _ => apply negb_true_iff in H
    | H : bool_decide _ = true |- _ => apply bool_decide_eq_true in H
    | H : bool_decide _ = false |- _ => apply bool_decide_eq_false in H
    | H : After _ _ = false |- _ => unfold After in H
    | H : unit |- _ => destruct H
    end.
  split; [done|]. exists pub. split; [done|]. split.
  - split; try done; unfold Add in *; try lia.
    match goal with H : _ ∨ bool_decide (p_Issuer _ = _) = true |- _ =>
      by rewrite !bool_decide_eq_true in H end.
  - destruct (pp_Replay policy); inv_eff; [by eexists|].
    by match goal with H : ret _ _ = _ |- _ => injection H end.
Qed.

(** A proof of possession of one client's instance key, with this jti,
    accepted in a state of the replay store. *)
Definition client_pop_accepted {R} `{ReplayStore R} (client : ClientID) (instanceKey jti : string)
    (s s' : R) : Prop :=
  ∃ policy p jwk v,
    pp_Replay policy = Some (clientAttestationPoPReplayChecker client) ∧
    p_JTI (po_claims p) = jti ∧ vp_InstanceKey v = instanceKey ∧
    VerifyPoP policy p jwk s = (Ok v, s').

(** A proof of possession is accepted at most once. With the in-memory replay
    store, once a client instance's proof with some jti was accepted, no
    proof of that client under that instance's key with that jti, the same
    one included, is ever accepted again, whatever is spent in between. *)
Theorem client_pop_accepted_once client instanceKey jti (s s1 s2 s3 : Replays.ReplayStore) :
  @client_pop_accepted _ Replays.replay_store client instanceKey jti s s1 → rtc use_step s1 s2 →
  ¬ @client_pop_accepted _ Replays.replay_store client instanceKey jti s2 s3.
Proof.
  intros (q1 & p1 & k1 & v1 & Hr1 & <- & <- & H1) Hsteps (q2 & p2 & k2 & v2 & Hr2 & Hj & Hk & H2).
  apply VerifyPoP_Ok in H1 as (_ & _ & _ & _ & H1), H2 as (_ & _ & _ & _ & H2).
  rewrite Hr1 in H1. rewrite Hr2 in H2. destruct H1 as [t1 H1], H2 as [t2 H2].
  rewrite Hj, Hk in H2. unfold clientAttestationPoPReplayChecker in H1, H2.
  exact (spent_digest_refused _ _ _ _ _ _ eq_refl eq_refl H1 Hsteps H2).
Qed.
End attestations.

(** * Chains and revocation lists *)

Section chains.
Context `{Platform} {Env : Type} `{ClientAuthEnv Env}.

(** A certificate of a chain that revocation lists clear: a usable list of
    the issuer's is there, and none of them lists its serial number. *)
Definition link_clear (lists : list (option RevocationList)) (now : Time) (cert issuer : string)
    : Prop :=
  (∃ l, Some l ∈ lists ∧ crlUsableFor (Some l) issuer now = true) ∧
  ∀ l, Some l ∈ lists → crlUsableFor (Some l) issuer now = true →
    Some (cert_SerialNumber (x509 cert)) ∉ rl_RevokedSerialNumbers l.

Lemma check_crls_Ok cert issuer lists now : ∀ usable,
  check_crls cert issuer lists now usable = Ok tt →
  (usable = true ∨ ∃ l, Some l ∈ lists ∧ crlUsableFor (Some l) issuer now = true) ∧
  ∀ l, Some l ∈ lists → crlUsableFor (Some l) issuer now = true →
    Some (cert_SerialNumber (x509 cert)) ∉ rl_RevokedSerialNumbers l.
Proof.
  induction lists as [|list lists IH]; intros usable Hc; cbn [check_crls] in Hc.
  { apply guard_err_Ok in Hc. split; [by left|]. by intros l Hl%elem_of_nil. }
  destruct (crlUsableFor list issuer now) eqn:Huse.
  - destruct list as [l|]; [|done]. apply bind_Ok in Hc as ([] & Hr & Hc).
    apply guard_err_Ok, negb_true_iff, bool_decide_eq_false in Hr.
    apply IH in Hc as [_ Hall]. split; [right; exists l; split; [by left|done]|].
    intros l' [[= ->]|Hl']%elem_of_cons Hu; [done|by apply Hall].
  - apply IH in Hc as [Hu Hall]. split.
    + destruct Hu as [?|(l & Hl & ?)]; [by left|right; exists l]. split; [by right|done].
    + intros l [<-|Hl]%elem_of_cons Hu'; [congruence|by apply Hall].
Qed.

(** Every certificate of the chain but its last is cleared by its issuer's
    lists. *)
Fixpoint chain_clear (lists : list (option RevocationList)) (now : Time) (chain : list string)
    : Prop :=
  match chain with
  | cert :: (issuer :: _) as rest => link_clear lists now cert issuer ∧ chain_clear lists now rest
  | _ => True
  end.

Lemma check_links_Ok chain lists now :
  check_links chain lists now = Ok tt → chain_clear lists now chain.
Proof.
  induction chain as [|cert rest IH]; [done|]. destruct rest as [|issuer rest]; [done|].
  intros Hc. cbn [check_links] in Hc. apply bind_Ok in Hc as ([] & Hl & Hc).
  apply check_crls_Ok in Hl as [[?|Hu] Hall]; [done|]. split; [by split|by apply IH].
Qed.

(** What a revocation check that passes has established. *)
Definition unrevoked (revocation : ClientCertificateRevocation Env) (chain : list string)
    (now : Time) : Prop :=
  match revocation with
  | NoClientCertificateRevocationCheck => True
  | ClientCertificateCRLs Lists =>
    ∃ lists x x', Lists x = (Ok lists, x') ∧ chain_clear lists now chain
  | OtherCertificateRevocation check => ∃ x x', check chain now x = (Ok tt, x')
  end.

Lemma CheckRevocation_Ok revocation chain now x x' :
  CheckRevocation revocation chain now x = (Ok tt, x') → unrevoked revocation chain now.
Proof.
  unfold CheckRevocation, unrevoked. destruct revocation as [|Lists|check]; intros Hc; [done|..].
  - apply ebind_Ok in Hc as (lists & x1 & Hl%map_err_Ok & Hc%lift_Ok).
    exists lists, x, x1. split; [done|]. by apply check_links_Ok, Hc.
  - by exists x, x'.
Qed.

Lemma checkChainsRevocation_Ok revocation chains now x chain x' :
  checkChainsRevocation revocation chains now x = (Ok chain, x') →
  chain ∈ chains ∧ unrevoked revocation chain now.
Proof.
  unfold checkChainsRevocation. generalize false at 1 as revoked. generalize false as undecided.
  revert x. induction chains as [|c chains IH]; intros x undecided revoked Hc; [done|].
  cbn [check_chains] in Hc. apply ebind_Ok in Hc as (r & x1 & Hr & Hc). rewrite try_Ok in Hr.
  destruct r as [[]|[]]; [|by destruct (IH _ _ _ Hc); split; [right|]..].
  apply ret_Ok in Hc as [-> ->]. split; [by left|]. by eapply CheckRevocation_Ok.
Qed.

(** A certificate accepted on a certification authority's word is unrevoked. With
    trusted authorities, a certificate whose chain the server accepts has a
    chain from it to one of the configured roots that is valid at the time,
    and the revocation check the server is configured with clears that chain:
    with revocation lists, each certificate of it has a current list its
    issuer signed, and no current one lists it. *)
Theorem trusted_certificate_unrevoked roots intermediates revocation der now x x' :
  client_certificate_trust = TrustedClientCAs roots intermediates revocation →
  verifyChain der now x = (Ok tt, x') →
  ∃ chains chain, x509_Verify der roots intermediates ExtKeyUsageClientAuth now = Some chains ∧
    chain ∈ chains ∧ unrevoked revocation chain now.
Proof.
  unfold verifyChain. intros -> Hv. destruct (x509_Verify _ _ _ _ _) as [chains|]; [|done].
  apply ebind_Ok in Hv as (chain & x1 & Hc%map_err_Ok & _).
  apply checkChainsRevocation_Ok in Hc as [Hin Hu]. by exists chains, chain.
Qed.

(** ** The key an attester signs with *)

(** The leaf certificate of an attestation's x5c chain, under the server's
    trust in attesters. *)
Record x5c_vouches (c : X5CAttesterChain Env) (client : RegisteredClient)
    (leaf : string) (extra : list string) (key : PublicKey) (chains : list (list string)) : Prop := {
  vouch_key : ParseCertificate leaf = Some key;
  vouch_material : ValidateCallerCertificateKey key = true;
  vouch_fits : keyFitsAlgorithm (key_material key) (clientAttestationAlgorithm client) = true;
  vouch_signer : cert_IsCA (x509 leaf) = false ∧ isSelfSigned (x509 leaf) = false;
  vouch_chains : ∃ x x1 x2 roots anchors now verified,
    resolveAnchors c client x = (Ok (roots, anchors), x1) ∧
    Clock x1 = (now, x2) ∧
    x509_Verify leaf roots (NewCertPool extra) ExtKeyUsageAny now = Some verified ∧
    ∀ chain, chain ∈ chains → chain ∈ verified ∧
      (∃ y y', CheckAttesterChain (default DefaultAttesterLeafPolicy (x5c_LeafPolicy c)) chain y =
               (Ok tt, y')) ∧
      (x5c_IssuerBinding c = AttesterIssuerBoundToAnchor → ∃ anchor root, anchor ∈ anchors ∧
         last chain = Some root ∧ aa_Certificate anchor = Some root ∧
         expectedAttesterIssuer client ∈ aa_Issuers anchor);
  vouch_names : x5c_IssuerBinding c ≠ AttesterIssuerByTrustAnchors →
    expectedAttesterIssuer client ∈ cert_URIs (x509 leaf) }.

Lemma approved_chains_Ok policy chains : ∀ x approved x',
  approved_chains policy chains x = (Ok approved, x') →
  ∀ chain, chain ∈ approved → chain ∈ chains ∧
    ∃ y y', CheckAttesterChain policy chain y = (Ok tt, y').
Proof.
  induction chains as [|c chains IH]; intros x approved x' Ha chain Hin.
  { apply ret_Ok in Ha as [-> _]. by apply elem_of_nil in Hin. }
  cbn [approved_chains] in Ha. apply ebind_Ok in Ha as (r & x1 & Hr & Ha). rewrite try_Ok in Hr.
  apply ebind_Ok in Ha as (rest & x2 & Hrest & [-> ->]%ret_Ok).
  assert (chain ∈ rest → chain ∈ c :: chains ∧ ∃ y y', CheckAttesterChain policy chain y = (Ok tt, y')).
  { intros Hc. destruct (IH _ _ _ Hrest _ Hc). split; [by right|done]. }
  destruct r as [[]|]; simpl in Hin; [|by auto].
  apply elem_of_cons in Hin as [->|?]; [|by auto]. split; [by left|by eexists _, _].
Qed.

Lemma verifyAttesterChain_Ok ders roots now leaf key chains :
  verifyAttesterChain ders roots now = Some (leaf, key, chains) →
  ∃ extra, ders = leaf :: extra ∧ ParseCertificate leaf = Some key ∧
    ValidateCallerCertificateKey key = true ∧
    cert_IsCA (x509 leaf) = false ∧ isSelfSigned (x509 leaf) = false ∧
    x509_Verify leaf roots (NewCertPool extra) ExtKeyUsageAny now = Some chains.
Proof.
  unfold verifyAttesterChain. destruct (mapM _ ders) as [keys|] eqn:Hkeys; [|done].
  destruct ders as [|l extra]; [done|]. simpl in Hkeys.
  destruct (ParseCertificate l) as [pub|] eqn:Hparse; [|done]. simpl in Hkeys.
  destruct (ValidateCallerCertificateKey pub) eqn:Hval; [|done]. simpl in Hkeys.
  destruct (mapM _ extra); [|done]. injection Hkeys as <-. cbn [mbind option_bind].
  destruct (_ || _ || _ || _) eqn:Hbad; [done|].
  destruct (x509_Verify _ _ _ _ _) as [cs|] eqn:Hv; [|done]. cbn [mbind option_bind].
  destruct (checkX5CReachesUnsentAnchor _ _); [|done]. intros [= <- <- <-].
  apply orb_false_iff in Hbad as [[[??]%orb_false_iff _]%orb_false_iff _]. by exists extra.
Qed.
End chains.

Section attested.
Context `{Platform} {Env : Type} `{ClientAuthEnv Env} `{ReplayStore Env} (c : Config).
Import Attestation.

(** A key the server takes for the attester's this client is registered
    with: one its attester published, or the one in a certificate the
    attestation carries, along a chain that is not revoked. *)
Definition attester_key (client : RegisteredClient) (a : Attestation) (key : PublicKey) : Prop :=
  match attester_trust with
  | RegisteredAttesterKeys resolve =>
    ∃ keys k x x',
      resolve (expectedAttesterIssuer client) (clientAttestationAlgorithm client) (KeyID a) x =
        (Ok keys, x') ∧ k ∈ keys ∧ vk_PublicKey k = key ∧
      vk_Algorithm k = clientAttestationAlgorithm client ∧ (KeyID a = "" ∨ vk_KeyID k = KeyID a)
  | AttesterX5C x5c =>
    ∃ leaf extra chains chain now, CertificateChain a = Some (Some (leaf :: extra)) ∧
      x5c_vouches x5c client leaf extra key chains ∧ chain ∈ chains ∧
      unrevoked (x5c_Revocation x5c) chain now
  end.

Lemma registered_attester_key_Ok resolve client a x (signer : attesterSigner Env) x' :
  registered_attester_key resolve client a x = (Ok signer, x') →
  as_revocation signer = None ∧
  ∃ keys k x x',
    resolve (expectedAttesterIssuer client) (clientAttestationAlgorithm client) (KeyID a) x =
      (Ok keys, x') ∧ k ∈ keys ∧ vk_PublicKey k = as_key signer ∧
    vk_Algorithm k = clientAttestationAlgorithm client ∧ (KeyID a = "" ∨ vk_KeyID k = KeyID a).
Proof.
  unfold registered_attester_key. intros Hrun. apply ebind_Ok in Hrun as (keys & x1 & Hk & Hrun).
  apply ebind_Ok in Hrun as ([] & x2 & _ & Hrun).
  apply ebind_Ok in Hrun as (key & x3 & Hv%map_err_Ok & [-> ->]%ret_Ok). split; [done|].
  apply verifyWithCandidates_Ok in Hv as (pub & x4 & Hpub & Hv).
  apply ebind_Ok in Hv as ([] & x5 & _ & [-> _]%ret_Ok).
  unfold verificationKeyCandidates in Hpub.
  apply subseteq_take, list_elem_of_fmap in Hpub as (k & -> & Hin).
  apply list_elem_of_filter in Hin as [[Hkid Halg] Hin]. by exists keys, k, x, x1.
Qed.

Lemma chainsEndingAtAnchorFor_elem chains anchors issuer chain :
  chain ∈ chainsEndingAtAnchorFor chains anchors issuer →
  chain ∈ chains ∧ ∃ anchor root, anchor ∈ anchors ∧ last chain = Some root ∧
    aa_Certificate anchor = Some root ∧ issuer ∈ aa_Issuers anchor.
Proof.
  unfold chainsEndingAtAnchorFor. intros [Hroot Hin]%list_elem_of_filter. split; [done|].
  destruct (last chain) as [root|]; [|done].
  apply existsb_exists in Hroot as (anchor & Ha%list_elem_of_In & Hb).
  apply andb_true_iff in Hb as [?%bool_decide_eq_true ?%bool_decide_eq_true].
  by exists anchor, root.
Qed.

Lemma x5c_attester_key_Ok x5c client a x (signer : attesterSigner Env) x' :
  x5c_attester_key x5c client a x = (Ok signer, x') →
  as_revocation signer = Some (x5c_Revocation x5c) ∧
  ∃ leaf extra, CertificateChain a = Some (Some (leaf :: extra)) ∧
    x5c_vouches x5c client leaf extra (as_key signer) (as_chains signer).
Proof.
  unfold x5c_attester_key. intros Hrun. destruct (CertificateChain a) as [[ders|]|]; [|done..].
  apply ebind_Ok in Hrun as ([roots anchors] & x1 & Hanchors & Hrun).
  apply ebind_Ok in Hrun as (now & x2 & Hnow & Hrun).
  destruct (verifyAttesterChain _ _ _) as [[[leaf key] verified]|] eqn:Hchain; [|done].
  apply verifyAttesterChain_Ok in Hchain as (extra & -> & Hparse & Hval & Hca & Hself & Hverify).
  apply ebind_Ok in Hrun as (chains & x3 & Happ & Hrun).
  apply ebind_Ok in Hrun as ([] & x4 & [Hfits%guard_err_Ok ->]%lift_Ok & Hrun).
  apply ebind_Ok in Hrun as ([] & x5 & [Hname%guard_err_Ok ->]%lift_Ok & Hrun).
  apply ebind_Ok in Happ as (approved & x6 & Happ & Hne).
  destruct (bool_decide (approved = [])); [done|].
  apply ret_Ok in Hne as [-> ->].
  pose proof (approved_chains_Ok _ _ _ _ _ Happ) as Happroved.
  set (bound := if bool_decide _ then _ else _) in Hrun.
  assert (Hbound : ∀ chain, chain ∈ bound → chain ∈ approved ∧
    (x5c_IssuerBinding x5c = AttesterIssuerBoundToAnchor → ∃ anchor root, anchor ∈ anchors ∧
       last chain = Some root ∧ aa_Certificate anchor = Some root ∧
       expectedAttesterIssuer client ∈ aa_Issuers anchor)).
  { intros chain. unfold bound.
    destruct (decide (x5c_IssuerBinding x5c = AttesterIssuerBoundToAnchor)) as [Hb|Hb];
      [rewrite bool_decide_true by done|rewrite bool_decide_false by done].
    - by intros [? ?]%chainsEndingAtAnchorFor_elem.
    - intros Hin. split; [done|]. by intros ?%Hb. }
  clearbody bound. destruct bound as [|chain rest] eqn:Heq; [done|]. rewrite <-Heq in *.
  apply ret_Ok in Hrun as [-> ->]. split; [done|]. exists leaf, extra. split; [done|].
  split; try done.
  - exists x, x1, x2, roots, anchors, now, verified. split_and!; try done.
    + unfold env_now in Hnow. destruct (Clock x1). by injection Hnow as -> ->.
    + intros ch Hch. apply Hbound in Hch as [Hch ?]. by destruct (Happroved _ Hch).
  - intros Hby. apply orb_true_iff in Hname as [?%bool_decide_eq_true|Hn]; [done|].
    by apply bool_decide_eq_true in Hn.
Qed.

(** The attestation is not revoked, as the embedder's checker has it. *)
Definition status_cleared (client : RegisteredClient) (a : Attestation) (key : PublicKey)
    (instanceKey : string) : Prop :=
  match ClientAttestationStatus with
  | None => True
  | Some check =>
    ∃ v x x', vca_Client v = client ∧ all_claims (cp_Payload (at_compact a)) = Some (vca_Claims v) ∧
      vca_InstanceKey v = instanceKey ∧ vca_SignerKey v = key ∧ check v x = (Ok tt, x')
  end.

Lemma still_valid_Ok client v (signer : attesterSigner Env) instanceKey x u x' :
  checkAttestationStillValid client v signer instanceKey x = (Ok u, x') →
  (∀ revocation, as_revocation signer = Some revocation →
     ∃ chain now, chain ∈ as_chains signer ∧ unrevoked revocation chain now) ∧
  match ClientAttestationStatus with
  | None => True
  | Some check =>
    ∃ w y y', vca_Client w = client ∧ vca_Claims w = va_Claims v ∧
      vca_InstanceKey w = instanceKey ∧ vca_SignerKey w = as_key signer ∧ check w y = (Ok tt, y')
  end.
Proof.
  unfold checkAttestationStillValid. intros Hrun.
  apply ebind_Ok in Hrun as (chain & x1 & Hchain & Hrun). split.
  - intros revocation Hr. rewrite Hr in Hchain.
    apply ebind_Ok in Hchain as (now & x2 & _ & Hc%map_err_Ok).
    apply checkChainsRevocation_Ok in Hc as [??]. by exists chain, now.
  - destruct ClientAttestationStatus as [check|]; [|done]. apply map_err_Ok in Hrun. destruct u.
    eexists _, _, _. split_and!; [..|exact Hrun]; done.
Qed.

Lemma verifyClientAttestation_Ok client a x v signer x' :
  verifyClientAttestation c client a x = (Ok (v, signer), x') →
  clientAttestationAlgorithm client ∈ ClientAttestationAlgorithms c ∧
  (∃ x1 x2, attesterKey client a x1 = (Ok signer, x2)) ∧
  ∃ now, (∃ y, (Clock y).1 = now) ∧
    Verify a (as_key signer) (attestation_policy c client now) = Ok v.
Proof.
  unfold verifyClientAttestation. intros Hrun.
  apply ebind_Ok in Hrun as ([] & x1 & [Halg%guard_err_Ok ->]%lift_Ok & Hrun).
  apply ebind_Ok in Hrun as (s & x2 & Hk%map_err_Ok & Hrun).
  apply ebind_Ok in Hrun as (now & x3 & Hnow & Hrun).
  destruct (Verify a (as_key s) _) as [w|[]] eqn:Hv; try done.
  apply ret_Ok in Hrun as [[= <- <-] _].
  split; [by apply bool_decide_eq_true in Halg|]. split; [by exists x, x2|].
  exists now. split; [|done]. exists x2. unfold env_now in Hnow. destruct (Clock x2).
  by injection Hnow as -> _.
Qed.

Lemma attesterKey_Ok client a x (signer : attesterSigner Env) x' v instanceKey y u y' :
  attesterKey client a x = (Ok signer, x') →
  checkAttestationStillValid client v signer instanceKey y = (Ok u, y') →
  attester_key client a (as_key signer).
Proof.
  unfold attesterKey, attester_key. intros Hkey [Hvalid _]%still_valid_Ok.
  destruct attester_trust as [resolve|x5c].
  - by apply registered_attester_key_Ok in Hkey as [_ ?].
  - apply x5c_attester_key_Ok in Hkey as (Hr & leaf & extra & Hc & Hv).
    destruct (Hvalid _ Hr) as (chain & now & Hin & Hu).
    by exists leaf, extra, (as_chains signer), chain, now.
Qed.

(** What a request's attestation and proof of possession show of the client
    they authenticate, and of its instance's key. *)
Record attestation_authenticates (formClientID attestation pop : string)
    (client : RegisteredClient) (instanceKey : string) (a : Attestation) (p : PoP)
    (key jwk : PublicKey) : Prop := {
  ca_enabled : AttestationBasedClientAuthentication c = true;
  ca_parsed : Parse attestation = Some a ∧ ParsePoP pop = Some p;
  ca_named : formClientID = "" ∨ formClientID = client_id client;
  ca_client : resolves_client (client_id client) client;
  ca_method : AllowsClientAuthMethod client ClientAuthMethodAttestation = true;
  ca_algorithms : clientAttestationAlgorithm client ∈ ClientAttestationAlgorithms c ∧
    PoP_Algorithm p ∈ ClientAttestationPoPAlgorithms c;
  ca_attester : attester_key client a key;
  ca_attested : ∃ now v, (∃ y, (Clock y).1 = now) ∧
    attestation_accepted (attestation_policy c client now) a key v;
  ca_confirmed : ParseJWK (c_JWK (at_claims a)) (PoP_Algorithm p) = Some jwk;
  ca_possessed : ∃ now, (∃ y, (Clock y).1 = now) ∧
    pop_accepted (pop_policy c client now) p jwk instanceKey;
  ca_unused : ∃ t x x', clientAttestationPoPReplayChecker (client_id client) instanceKey
    (p_JTI (po_claims p)) t x = (Ok tt, x');
  ca_status : status_cleared client a key instanceKey }.

Lemma authenticateClientViaAttestation_Ok formClientID attestation pop x client verified x' :
  authenticateClientViaAttestation c formClientID attestation pop x =
    (Ok (client, verified), x') →
  ClientAssertion.va_ClientID verified = client_id client ∧
  ∃ a p key jwk, attestation_authenticates formClientID attestation pop client
    (ClientAssertion.va_InstanceKey verified) a p key jwk ∧
    ClientAssertion.va_ExpiresAt verified = Unix (c_ExpiresAt (at_claims a)).
Proof.
  unfold authenticateClientViaAttestation. intros Hrun.
  apply ebind_Ok in Hrun as ([] & x1 & [Hen%guard_err_Ok ->]%lift_Ok & Hrun).
  destruct (Parse attestation) as [a|] eqn:Ha; [|done].
  destruct (ParsePoP pop) as [p|] eqn:Hp; [|done].
  apply ebind_Ok in Hrun as ([] & x2 & [Hid%guard_err_Ok ->]%lift_Ok & Hrun).
  apply ebind_Ok in Hrun as (client' & x3 & Hclient%map_err_Ok & Hrun).
  apply ebind_Ok in Hrun as ([] & x4 & [Hmethod%guard_err_Ok ->]%lift_Ok & Hrun).
  apply ebind_Ok in Hrun as ([v signer] & x5 & Hatt & Hrun).
  apply ebind_Ok in Hrun as ([] & x6 & [Halg%guard_err_Ok ->]%lift_Ok & Hrun).
  apply ebind_Ok in Hrun as (now & x7 & Hnow & Hrun).
  apply ebind_Ok in Hrun as (vp & x8 & Hpop%map_err_Ok & Hrun).
  apply ebind_Ok in Hrun as ([] & x9 & Hstill & [[= -> ->] _]%ret_Ok).
  apply verifyClientAttestation_Ok in Hatt as (Halg1 & (y1 & y2 & Hkey) & now1 & Hnow1 & Hv).
  pose proof (attesterKey_Ok _ _ _ _ _ _ _ _ _ _ Hkey Hstill) as Hattester.
  apply still_valid_Ok in Hstill as [_ Hstatus].
  apply Attestation_Verify_Ok in Hv as Hacc.
  assert (Hsub : ClaimedSubject a = client_id client') by apply Hacc.
  rewrite Hsub in Hclient, Hid. rewrite (ok_confirms _ _ _ _ Hacc) in Hpop.
  apply VerifyPoP_Ok in Hpop as (Hvp & jwk & Hjwk & Hpop & t & Hu). split; [done|].
  exists a, p, (as_key signer), jwk. split; [|by apply (ok_expiry _ _ _ _ Hacc)].
  split; try done.
  - apply orb_true_iff in Hid as [?%bool_decide_eq_true|?%bool_decide_eq_true]; auto.
  - by eexists _, _.
  - split; [done|]. by apply bool_decide_eq_true in Halg.
  - by exists now1, v.
  - exists now. split; [|done]. exists x5. unfold env_now in Hnow. destruct (Clock x5).
    by injection Hnow as -> _.
  - by exists t, x7, x8.
  - unfold status_cleared. destruct ClientAttestationStatus; [|done].
    destruct Hstatus as (w & z & z' & <- & Hc & <- & <- & Hcheck).
    exists w, z, z'. by rewrite (ok_claims _ _ _ _ Hacc), Hc.
Qed.

(** C18. A client authenticated by an attestation has one its own attester signed
    for it, and holds the key it confirms. The client is registered for the
    method and the request names no other; a key of the attester it is
    registered with (published by it, or in a certificate that names it, whose
    chain ends at a configured anchor, is unrevoked, and is allowed to
    attest) signed the attestation, which is current and no longer-lived than
    the limit; the proof of possession is for this server, fresh, unused, and
    signed by the key the attestation confirms; the attestation's status is
    not revoked. The authentication lasts as long as the attestation. *)
Theorem attested_client_authenticated formClientID attestation pop x client verified x' :
  authenticateClientViaAttestation c formClientID attestation pop x =
    (Ok (client, verified), x') →
  ClientAssertion.va_ClientID verified = client_id client ∧
  ∃ a p key jwk, attestation_authenticates formClientID attestation pop client
    (ClientAssertion.va_InstanceKey verified) a p key jwk ∧
    ClientAssertion.va_ExpiresAt verified = Unix (c_ExpiresAt (at_claims a)).
Proof. apply authenticateClientViaAttestation_Ok. Qed.
End attested.
