(* ===== verification/ServerState.v ===== *)
(** The authorization server's state and what its handlers share:
    src/server/server.go (Dependencies), src/server/nonce.go, audit and
    tokenFail (src/server/par.go, src/server/token.go), and
    authenticateRequest (src/server/par.go), which joins the client
    authentication of ClientAuth.v with the request's DPoP proof.

    The class Server is the server's configuration and dependencies: the
    stores, by the interfaces of Storage.v, and the parts the model does not
    go into, as arbitrary operations on an environment [Env] (the clock, the
    client repository and the clients' keys, the replay and access token
    stores, an embedder's policies and claim source, signing). They have no
    way to touch the grant, revocation, backchannel, transaction and nonce
    stores, which nothing but the modelled code writes. *)
From S2P Require Import Prelude GoStrings Json GoTime Sha256 Base64 Pkce Platform.
From S2P Require Import Effects Storage ServerTypes Rar JsonCodec Nonce Records Claims.
From S2P Require Import Dpop Jose Canonical Extensions Attestation ClientAuth.
From stdpp Require Import options.

(** * Audit events *)

Inductive AuditEventType :=
| AuditEventPushAuthorizationRequest | AuditEventBeginAuthorization
| AuditEventCompleteAuthorization | AuditEventExchangeAuthorizationCode
| AuditEventRefreshAccessToken | AuditEventBeginBackchannelAuthentication
| AuditEventCompleteBackchannelAuthentication | AuditEventExchangeBackchannelAuthentication
| AuditEventRequestClientCredentialsToken | AuditEventAuthenticateAttestedClient
| AuditEventVerifyTokenRequestBinding | AuditEventIssueRefreshToken | AuditEventRevokeToken
| AuditEventIssueAccessToken | AuditEventVerifyTokenRequestDPoP.

Inductive AuditOutcome := AuditOutcomeSuccess | AuditOutcomeFailure.

Record AuditEvent := {
  ae_Type : AuditEventType;
  ae_Time : Time;
  ae_ClientID : ClientID;
  ae_Outcome : AuditOutcome;
  ae_Description : string }.

(** [string(err.Code())] *)
Definition code_string (c : ErrorCode) : string :=
  match c with
  | ErrorInvalidRequest => "invalid_request"
  | ErrorInvalidClient => "invalid_client"
  | ErrorInvalidRequestObject => "invalid_request_object"
  | ErrorInvalidGrant => "invalid_grant"
  | ErrorInvalidScope => "invalid_scope"
  | ErrorUnsupportedGrantType => "unsupported_grant_type"
  | ErrorServerError => "server_error"
  | ErrorUnauthorizedClient => "unauthorized_client"
  | ErrorUnsupportedResponseType => "unsupported_response_type"
  | ErrorUnsupportedTokenType => "unsupported_token_type"
  | ErrorInvalidRequestURI => "invalid_request_uri"
  | ErrorRequestNotSupported => "request_not_supported"
  | ErrorUseDPoPNonce => "use_dpop_nonce"
  | ErrorAuthorizationPending => "authorization_pending"
  | ErrorSlowDown => "slow_down"
  | ErrorExpiredToken => "expired_token"
  | ErrorAccessDenied => "access_denied"
  | ErrorInvalidBindingMessage => "invalid_binding_message"
  | ErrorInvalidDPoPProof => "invalid_dpop_proof"
  | ErrorUnknownUserID => "unknown_user_id"
  | ErrorExpiredLoginHintToken => "expired_login_hint_token"
  | ErrorInvalidAuthorizationDetails => "invalid_authorization_details"
  | ErrorInvalidTarget => "invalid_target"
  | ErrorUseFreshAttestation => "use_fresh_attestation"
  end.

(** * Requests *)

(** requestCredentials. A certificate is its DER encoding. *)
Record Credentials := {
  PeerCertificate : option string;
  DPoPProofs : list string;
  ClientAttestations : list string;
  ClientAttestationPoPs : list string }.

(** The input of each token endpoint method. *)
Record TokenRequest := {
  Parameters : list FormParameter;
  credentials : Credentials }.

(** * Dependencies *)

Record AccessTokenParams := {
  atp_ClientID : ClientID;
  atp_Subject : string;
  atp_InternalSubject : string;
  atp_Scope : list string;
  atp_Thumbprint : string;
  atp_SenderConstrain : SenderConstrain;
  atp_Claims : gmap string RawMessage;
  atp_Issuer : string;
  atp_Audience : string;
  atp_Audiences : list string;
  atp_Now : Time;
  atp_Lifetime : Duration }.

(** token.IDTokenParams, without the signing key and algorithm. *)
Record IDTokenParams := {
  idp_Issuer : string;
  idp_Subject : string;
  idp_Audience : string;
  idp_Nonce : string;
  idp_AuthTime : Time;
  idp_ACR : string;
  idp_AMR : list string;
  idp_AccessToken : string;
  idp_Now : Time;
  idp_Lifetime : Duration;
  idp_Parameters : gmap string RawMessage }.

Inductive policy_answer := ErrResourceNotAllowed | PolicyFailed.

(** Dependencies.AccessTokens: OpaqueAccessTokens over the environment's
    store, or another issuer (JWTAccessTokens or an embedder's), with
    isOwnJWTAccessToken for it. *)
Inductive AccessTokenIssuer (Env : Type) :=
| OpaqueAccessTokens
| OtherAccessTokens
    (issue : AccessTokenParams → eff (reader * Env) env_error (string * string))
    (isOwnJWT : ClientID → string → eff Env env_error bool).
Arguments OpaqueAccessTokens {Env}.
Arguments OtherAccessTokens {Env}.

Class Server := {
  server_platform :: Platform;
  server_jose :: JoseCrypto;
  cfg : Config;
  GrantsT : Type;
  server_grants :: GrantStore GrantsT;
  RevocationT : Type;
  server_revocation :: RevocationSink RevocationT;
  BackchannelT : Type;
  has_backchannel : bool;
  server_backchannel :: BackchannelAuthenticationStore BackchannelT;
  TransactionsT : Type;
  server_transactions :: TransactionStore TransactionsT;
  NoncesT : Type;
  has_nonces : bool;
  server_nonces :: NonceStore NoncesT;
  Env : Type;
  env_replay :: ReplayStore Env;
  env_access_tokens :: AccessTokenStore Env;
  env_client_auth :: ClientAuthEnv Env;
  has_audit : bool;
  AllowResources : option (RegisteredClient → list string → eff Env policy_answer unit);
  ResolveIdentityClaims :
    option (string → list string → eff Env env_error (gmap string RawMessage));
  AccessTokens : AccessTokenIssuer Env;
  newSigner : eff Env env_error string;
  token_IssueIDToken : string → IDTokenParams → eff Env env_error string;
  encryptIDToken : ClientID → N → N → string → eff Env env_error string }.

(** DPoP proofs are compact JWSs, and a proof's URL is compared as
    canonical.URI writes it. *)
#[export] Instance server_crypto {S : Server} : DpopCrypto := jose_dpop URI.

Section server.
Context {S : Server}.

Record World := {
  w_grants : GrantsT;
  w_revocation : RevocationT;
  w_backchannel : BackchannelT;
  w_transactions : TransactionsT;
  w_nonces : NoncesT;
  w_rotator : Rotator;
  w_random : reader;
  w_env : Env;
  w_audit : list AuditEvent }.

Abbreviation srv := (eff World Error).

Definition set_grants (g : GrantsT) (w : World) : World :=
  {| w_grants := g; w_revocation := w_revocation w; w_backchannel := w_backchannel w;
     w_transactions := w_transactions w; w_nonces := w_nonces w; w_rotator := w_rotator w; w_random := w_random w;
     w_env := w_env w; w_audit := w_audit w |}.
Definition set_revocation (v : RevocationT) (w : World) : World :=
  {| w_grants := w_grants w; w_revocation := v; w_backchannel := w_backchannel w;
     w_transactions := w_transactions w; w_nonces := w_nonces w; w_rotator := w_rotator w; w_random := w_random w;
     w_env := w_env w; w_audit := w_audit w |}.
Definition set_backchannel (b : BackchannelT) (w : World) : World :=
  {| w_grants := w_grants w; w_revocation := w_revocation w; w_backchannel := b;
     w_transactions := w_transactions w; w_nonces := w_nonces w; w_rotator := w_rotator w; w_random := w_random w;
     w_env := w_env w; w_audit := w_audit w |}.
Definition set_transactions (t : TransactionsT) (w : World) : World :=
  {| w_grants := w_grants w; w_revocation := w_revocation w; w_backchannel := w_backchannel w;
     w_transactions := t; w_nonces := w_nonces w; w_rotator := w_rotator w; w_random := w_random w;
     w_env := w_env w; w_audit := w_audit w |}.
Definition set_nonce_state (s : Rotator * (NoncesT * reader)) (w : World) : World :=
  {| w_grants := w_grants w; w_revocation := w_revocation w; w_backchannel := w_backchannel w;
     w_transactions := w_transactions w; w_nonces := s.2.1; w_rotator := s.1; w_random := s.2.2;
     w_env := w_env w; w_audit := w_audit w |}.
Definition set_nonces (n : NoncesT) (w : World) : World :=
  set_nonce_state (w_rotator w, (n, w_random w)) w.
Definition set_random_env (s : reader * Env) (w : World) : World :=
  {| w_grants := w_grants w; w_revocation := w_revocation w; w_backchannel := w_backchannel w;
     w_transactions := w_transactions w; w_nonces := w_nonces w; w_rotator := w_rotator w; w_random := s.1;
     w_env := s.2; w_audit := w_audit w |}.
Definition set_env (x : Env) (w : World) : World := set_random_env (w_random w, x) w.
Definition set_audit (l : list AuditEvent) (w : World) : World :=
  {| w_grants := w_grants w; w_revocation := w_revocation w; w_backchannel := w_backchannel w;
     w_transactions := w_transactions w; w_nonces := w_nonces w; w_rotator := w_rotator w; w_random := w_random w;
     w_env := w_env w; w_audit := l |}.

(** Operations of each part, in the handlers' state. *)
Definition on_grants {E A} : eff GrantsT E A → eff World E A := zoom w_grants set_grants.
Definition on_revocation {E A} : eff RevocationT E A → eff World E A :=
  zoom w_revocation set_revocation.
Definition on_backchannel {E A} : eff BackchannelT E A → eff World E A :=
  zoom w_backchannel set_backchannel.
Definition on_transactions {E A} : eff TransactionsT E A → eff World E A :=
  zoom w_transactions set_transactions.
Definition on_nonces {E A} : eff NoncesT E A → eff World E A := zoom w_nonces set_nonces.
Definition on_nonce_state {E A} : eff (Rotator * (NoncesT * reader)) E A → eff World E A :=
  zoom (λ w, (w_rotator w, (w_nonces w, w_random w))) set_nonce_state.
Definition on_env {E A} : eff Env E A → eff World E A := zoom w_env set_env.
Definition on_random_env {E A} : eff (reader * Env) E A → eff World E A :=
  zoom (λ w, (w_random w, w_env w)) set_random_env.
Definition on_random {E A} (m : eff reader E A) : eff World E A :=
  on_random_env (zoom fst (λ r s, (r, s.2)) m).

(** [s.deps.Clock.Now()] *)
Definition Now {E} : eff World E Time :=
  on_env env_now.

(** [if !b { return newError(code, status, description) }] *)
Definition check (b : bool) (c : ErrorCode) (status : Z) (desc : string) : srv unit :=
  lift (guard_err b (newError c status desc)).

(** * Audit *)

Definition audit {E} (typ : AuditEventType) (client : ClientID) (outcome : AuditOutcome)
    (desc : string) : eff World E unit :=
  if has_audit then
    let* now := Now in
    λ w, (Ok tt, set_audit (w_audit w ++ [{| ae_Type := typ; ae_Time := now;
      ae_ClientID := client; ae_Outcome := outcome; ae_Description := desc |}]) w)
  else ret tt.

(** Every error of a handler's step is audited as it is returned:
    [if err != nil { return s.tokenFail(ctx, typ, client, err) }]. *)
Definition or_fail {A} (typ : AuditEventType) (client : ClientID) (m : srv A) : srv A :=
  let* r := try m in
  match r with
  | Ok a => ret a
  | Err err =>
    do* audit typ client AuditOutcomeFailure (code_string (code err)) in
    fail err
  end.

(** * DPoP nonces (nonce.go) *)

Definition issueDPoPNonce (now : Time) : eff World nonce_error string :=
  on_nonce_state (Current (DPoPNonceLifetime (cfg_Limits cfg)) now).

Definition checkDPoPNonce (presented : string) (now : Time) : srv unit :=
  let* valid := try (on_nonces (Valid presented now)) in
  match valid with
  | Ok true => ret tt
  | _ =>
    let* current := map_err
      (λ _, newError ErrorServerError 500 "failed to issue dpop nonce") (issueDPoPNonce now) in
    fail (with_nonce current
      (newError ErrorUseDPoPNonce 400 "DPoP proof must carry a current nonce"))
  end.

Definition nextTokenEndpointDPoPNonce (now : Time) : srv string :=
  if negb has_nonces then ret ""
  else map_err (λ _, newError ErrorServerError 500 "failed to issue dpop nonce")
         (issueDPoPNonce now).

Definition nextDPoPNonce (client : RegisteredClient) (now : Time) : srv string :=
  if negb (bool_decide (senderConstrain client = SenderConstrainDPoP)) then ret ""
  else nextTokenEndpointDPoPNonce now.

Definition attachNextDPoPNonce (client : RegisteredClient) (err : Error) : eff World Error Error :=
  if negb (bool_decide (nonce err = "")) then ret err
  else
    let* now := Now in
    let* r := try (nextDPoPNonce client now) in
    ret (match r with Ok n => with_nonce n err | Err _ => err end).

(** [defer s.attachNextDPoPNonceOnFailure(ctx, client, &retErr)] around the
    rest of a handler. *)
Definition attachNextDPoPNonceOnFailure {A} (client : RegisteredClient) (m : srv A) : srv A :=
  let* r := try m in
  match r with
  | Ok a => ret a
  | Err err => let* err := attachNextDPoPNonce client err in fail err
  end.

(** * The request's client and binding *)

Definition resolveDPoPProof (proofs : list string) : srv string :=
  match ResolveHeaderValues proofs with
  | Some proof => ret proof
  | None => fail (newError ErrorInvalidDPoPProof 400 "multiple DPoP proofs are not permitted")
  end.

Definition resolveAttestationHeaders (attestations pops : list string) : srv (string * string) :=
  match attestations, pops with
  | [], [] => ret ("", "")
  | [attestation], [pop] => ret (attestation, pop)
  | [_], _ => fail (newError ErrorInvalidClient 401
      "exactly one OAuth-Client-Attestation-PoP header is required")
  | _, _ => fail (newError ErrorInvalidClient 401
      "exactly one OAuth-Client-Attestation header is required")
  end.

(** The client, the request's DPoP proof and the Client Instance Key. *)
Definition authenticateRequest (params : gmap string string) (creds : Credentials)
    (endpoints mtlsEndpoints : list (option ParsedURL))
    : srv (RegisteredClient * string * string) :=
  let* dpopProof := resolveDPoPProof (DPoPProofs creds) in
  let* attestation :=
    resolveAttestationHeaders (ClientAttestations creds) (ClientAttestationPoPs creds) in
  let* verified := on_env (authenticateClient cfg params (PeerCertificate creds)
    attestation.1 attestation.2 endpoints mtlsEndpoints) in
  ret (verified.1, dpopProof, ClientAssertion.va_InstanceKey verified.2).

(** ** AuthenticateAttestedClient (attested_client.go) *)

Record AttestedClientAuthenticationRequest := {
  aar_ClientAttestations : list string;
  aar_ClientAttestationPoPs : list string;
  aar_ClientID : string;
  aar_malformed : bool;
  aar_otherClientAuth : bool }.

Record AttestedClient := {
  atc_Client : RegisteredClient;
  atc_AttestationExpiresAt : Time;
  atc_instanceKey : string;
  atc_authenticatedID : ClientID;
  atc_verifiedExpiresAt : Time }.

Definition attested_headers (req : AttestedClientAuthenticationRequest) : srv (string * string) :=
  if aar_malformed req then fail (newError ErrorInvalidRequest 400
    "the request's parameters are duplicated, too many, or too large")
  else if aar_otherClientAuth req then fail (newError ErrorInvalidRequest 400
    "a client attestation cannot be combined with another client authentication method")
  else
    let* headers :=
      resolveAttestationHeaders (aar_ClientAttestations req) (aar_ClientAttestationPoPs req) in
    if bool_decide (headers.1 = "")
    then fail (newError ErrorInvalidClient 401 "client authentication is required")
    else ret headers.

Definition AuthenticateAttestedClient (req : AttestedClientAuthenticationRequest)
    : srv AttestedClient :=
  let typ := AuditEventAuthenticateAttestedClient in
  let* '(attestation, pop) := or_fail typ "" (attested_headers req) in
  let* '(client, verified) := or_fail typ ""
    (on_env (authenticateClientViaAttestation cfg (aar_ClientID req) attestation pop)) in
  do* audit typ (client_id client) AuditOutcomeSuccess "" in
  ret {| atc_Client := client;
         atc_AttestationExpiresAt := ClientAssertion.va_ExpiresAt verified;
         atc_instanceKey := ClientAssertion.va_InstanceKey verified;
         atc_authenticatedID := client_id client;
         atc_verifiedExpiresAt := ClientAssertion.va_ExpiresAt verified |}.

(** verifyDPoPAtEitherEndpoint: the request with its URL left out. *)
Definition verifyDPoPAtEitherEndpoint (req : option ParsedURL → VerifyRequest Env)
    (primary mtlsAlias : option ParsedURL) : eff World dpop_error VerifiedProof :=
  let* r := try (on_env (Verify (req primary))) in
  match r, mtlsAlias with
  | Err ErrURIMismatch, Some alias => on_env (Verify (req (Some alias)))
  | r, _ => lift r
  end.

(** The verification request of a token request's proof. *)
Definition token_request_proof (proof : string) (now : Time) (url : option ParsedURL)
    : VerifyRequest Env := {|
  vr_Proof := proof; vr_Method := "POST"; vr_URL := url; vr_AlternateURLs := [];
  vr_AccessToken := ""; vr_RequiredNonce := ""; vr_Now := now;
  vr_MaxProofAge := MaxDPoPProofAge (cfg_Limits cfg);
  vr_MaxClockSkew := MaxClockSkew (cfg_Limits cfg);
  vr_Replay := Some dpopReplayChecker |}.

Definition verifyTokenRequestDPoP (proof : string) : srv VerifiedProof :=
  if bool_decide (proof = "")
  then fail (newError ErrorInvalidRequest 400 "DPoP proof is required")
  else
    let* now := Now in
    let* verified := map_err
      (λ _, newError ErrorInvalidDPoPProof 400 "DPoP proof verification failed")
      (verifyDPoPAtEitherEndpoint (token_request_proof proof now)
         (TokenEndpoint cfg) (MTLSTokenEndpoint cfg)) in
    do* (if has_nonces then let* now := Now in checkDPoPNonce (vp_Nonce verified) now
         else ret tt) in
    ret verified.

Definition verifyTokenRequestBinding (client : RegisteredClient) (dpopProof : string)
    (peerCert : option string) : srv string :=
  if bool_decide (senderConstrain client = SenderConstrainMTLS) then
    match peerCert with
    | None => fail (newError ErrorInvalidRequest 400 "a client certificate is required")
    | Some der => ret (mtls_Thumbprint der)
    end
  else
    let* verified := verifyTokenRequestDPoP dpopProof in
    ret (vp_Thumbprint verified).

(** The shared head of a form request. *)
Definition parseForm (params : list FormParameter) : srv (gmap string string) :=
  match formParametersToMap params with
  | Some m => ret m
  | None => fail (newError ErrorInvalidRequest 400
      "the request's parameters are duplicated, too many, or too large")
  end.
End server.

Abbreviation srv := (eff World Error).
