(* ===== verification/TokenChecks.v ===== *)
(** The checks a token request and the grant it redeems pass before tokens
    are issued: RFC 8707 resources (src/server/resource_indicators.go,
    src/internal/resourceindicator/), scopes
    (src/server/request_parameter_sizes.go, validateGrantedScopeSubset of
    src/server/complete_authorization.go), authorization_details
    (src/server/rar.go) and what the client's registration still allows
    (src/server/refresh.go, validateRedeemedAuthorizationCode and
    codeExchangeParameters of src/server/token.go). *)
From S2P Require Import Prelude GoStrings Json GoTime Pkce Digests Platform JsonCodec.
From S2P Require Import Effects Storage ServerTypes Rar Records Dpop Jose Canonical.
From S2P Require Import Extensions Attestation ClientAuth ServerState.
From stdpp Require Import options.

Definition CIBAGrantType : string := "urn:openid:params:grant-type:ciba".

(** * Resource indicators (RFC 8707) *)

Definition resourceParameter : string := "resource".
Definition MaxLength : nat := 2048.
Definition MaxPerRequest : nat := 16.

(** [c <= 0x20 || c == 0x7f] of no byte. *)
Fixpoint no_space_or_control (s : string) : bool :=
  match s with
  | EmptyString => true
  | String c s =>
    negb ((byte_code c <=? 32)%N || (byte_code c =? 127)%N) && no_space_or_control s
  end.

(** resourceindicator.Check; false is an error. *)
Definition Check_resource `{Platform} (s : string) : bool :=
  negb (bool_decide (s = "")) && bool_decide (String.length s ≤ MaxLength) && ValidString s &&
  no_space_or_control s &&
  match url_parse s with
  | None => false
  | Some u =>
    negb (bool_decide (url_Scheme u = "")) &&
    negb (negb (bool_decide (url_Fragment u = "")) ||
          negb (bool_decide (url_RawFragment u = "")) || contains_byte s "#")
  end.

Definition splitResourceParameters (params : list FormParameter)
    : list FormParameter * list string :=
  if bool_decide (maxFormParameters < length params) then (params, [])
  else
    (filter (λ p, Name p ≠ resourceParameter) params,
     Value <$> filter (λ p, Name p = resourceParameter ∧ Value p ≠ "") params).

Definition too_many_resources : Error :=
  newError ErrorInvalidTarget 400 ("at most " +:+ Itoa MaxPerRequest +:+
    " resource indicators may be requested").

(** The loop of narrowResources, [narrowed] so far. *)
Fixpoint narrow_loop (granted requested narrowed : list string) : result Error (list string) :=
  match requested with
  | [] => Ok narrowed
  | r :: requested =>
    guard_err (bool_decide (r ∈ granted))
      (newError ErrorInvalidTarget 400 "resource was not granted") ;;
    narrow_loop granted requested
      (if bool_decide (r ∈ narrowed) then narrowed else narrowed ++ [r])
  end.

Definition narrowResources (granted requested : list string) : result Error (list string) :=
  if bool_decide (requested = []) then Ok granted
  else if bool_decide (MaxPerRequest < length requested) then Err too_many_resources
  else narrow_loop granted requested [].

Definition grantedResources (requested granted : list string) : result Error (list string) :=
  match narrowResources requested granted with
  | Ok resources => Ok resources
  | Err _ => Err (newError ErrorInvalidRequest 400 "granted resources exceed what was requested")
  end.

(** A token request's own authorization_details. *)
Record requestedAuthorizationDetails := {
  objects : list RawMessage;
  present : bool }.

(** * Scopes *)

Definition maxAuthorizationTextParameterBytes : nat := 4096.

Definition scopeBound (client : RegisteredClient) : nat :=
  max maxAuthorizationTextParameterBytes (allowedScopesLength client).

(** The error's text. *)
Definition checkScopeLength (length : nat) (client : RegisteredClient) : result string unit :=
  let bound := scopeBound client in
  guard_err (negb (bool_decide (bound < length)))
    ("scope must not be longer than " +:+ Itoa bound +:+ " bytes").

(** false is an error. *)
Definition validateGrantedScopeSubset (granted : list string) (requestedSpaceDelimited : string)
    : bool :=
  let requested := fields requestedSpaceDelimited in
  negb (bool_decide (granted = []) && negb (bool_decide (requested = []))) &&
  forallb (λ g, bool_decide (g ∈ requested)) granted.

Definition containsScope (scopes : list string) (target : string) : bool :=
  existsb (λ s, bool_decide (s = target)) scopes.

(** The scope a refresh asks for. *)
Definition refreshScope (params : gmap string string) (grant : grantRecord)
    (client : RegisteredClient) : result Error (list string) :=
  let requestedScope := param params "scope" in
  if bool_decide (requestedScope = "") then Ok (g_Scope grant)
  else
    match checkScopeLength (String.length requestedScope) client with
    | Err text => Err (newError ErrorInvalidRequest 400 text)
    | Ok _ =>
      let narrowed := fields requestedScope in
      guard_err (validateGrantedScopeSubset narrowed (join " " (g_Scope grant)))
        (newError ErrorInvalidScope 400 "requested scope exceeds the original grant") ;;
      Ok narrowed
    end.

(** * What a presenter must match *)

Definition checkRefreshInstance (grant : grantRecord) (instanceKey : string) : result Error unit :=
  if negb (bool_decide (g_ClientInstanceKey grant = "")) &&
     negb (bool_decide (g_ClientInstanceKey grant = instanceKey))
  then Err (newError ErrorInvalidGrant 400 "refresh_token was issued to another client instance")
  else if bool_decide (g_ClientInstanceKey grant = "") && negb (bool_decide (instanceKey = ""))
  then Err (newError ErrorInvalidGrant 400 "refresh_token was not issued to a client instance")
  else Ok tt.

Definition checkCodeInstance (grant : grantRecord) (instanceKey : string) : result Error unit :=
  guard_err (bool_decide (g_ClientInstanceKey grant = instanceKey))
    (newError ErrorInvalidGrant 400 "code was issued to another client instance").

Definition validateRedeemedAuthorizationCode (redeemed : RedeemedAuthorizationCode)
    (grant : grantRecord) (clientID : ClientID) (redirectURI thumbprint codeVerifier : string)
    (now : Time) : result Error unit :=
  guard_err (Before now (rac_ExpiresAt redeemed))
    (newError ErrorInvalidGrant 400 "code has expired") ;;
  guard_err (bool_decide (rac_ClientID redeemed = clientID))
    (newError ErrorInvalidGrant 400 "code was not issued to this client") ;;
  guard_err (bool_decide (g_RedirectURI grant = redirectURI))
    (newError ErrorInvalidGrant 400 "redirect_uri does not match the authorization request") ;;
  guard_err (bool_decide (g_DPoPJKT grant = "") || bool_decide (g_DPoPJKT grant = thumbprint))
    (newError ErrorInvalidGrant 400
      "DPoP proof key does not match the dpop_jkt bound to this authorization code") ;;
  match Pkce.Verify (g_CodeChallenge grant) S256 codeVerifier with
  | Ok _ => Ok tt
  | Err _ => Err (newError ErrorInvalidGrant 400 "code_verifier does not match code_challenge")
  end.

(** * Against the configuration *)

Section checks.
Context {S : Server}.

Definition effectiveSubjects (c : Config) : SubjectConfig :=
  if OAuthOnly c && SubjectConfig_IsZero (cfg_Subjects c) then PublicSubjects else cfg_Subjects c.

Definition clientAllowsScope (client : RegisteredClient) (scope : string) : bool :=
  if OAuthOnly cfg && bool_decide (scope = "openid") then false else AllowsScope client scope.

(** ** Authorization details *)

(** checkAuthorizationDetailsTypes; false is an error. *)
Definition checkAuthorizationDetailsTypes (client : RegisteredClient) (details : list RawMessage)
    : bool :=
  forallb (λ d, match d with
                | Raw j =>
                  match object_type j with
                  | Some typ => AllowsAuthorizationDetailsType client typ
                  | None => false
                  end
                | _ => false
                end) details.

(** [None] is an error. *)
Definition checkAuthorizationDetailsSubset (baseRaw : RawMessage) (subset : list RawMessage)
    (check : RARRegistry → RARValues → RARValues → result rar_error unit) : option RawMessage :=
  if bool_decide (subset = []) then Some RawNil
  else if raw_empty baseRaw then None
  else
    match cfg_RAR cfg with
    | None => None
    | Some registry =>
      let subsetRaw := slice_message subset in
      match Parse registry baseRaw with
      | Err _ => None
      | Ok baseValues =>
        match Parse registry subsetRaw with
        | Err _ => None
        | Ok subsetValues =>
          match check registry baseValues subsetValues with
          | Err _ => None
          | Ok _ => Some subsetRaw
          end
        end
      end
    end.

Definition validateGrantedAuthorizationDetails (requestedRaw : RawMessage)
    (granted : list RawMessage) : option RawMessage :=
  checkAuthorizationDetailsSubset requestedRaw granted RAR_ValidateGrant.

Definition validateNarrowedAuthorizationDetails (grantedRaw : RawMessage)
    (narrowed : list RawMessage) : option RawMessage :=
  checkAuthorizationDetailsSubset grantedRaw narrowed RAR_ValidateNarrowing.

Definition tokenRequestAuthorizationDetails (params : gmap string string)
    : result Error requestedAuthorizationDetails :=
  match params !! authorizationDetailsParameter with
  | None => Ok {| objects := []; present := false |}
  | Some raw =>
    match cfg_RAR cfg with
    | None => Err (newError ErrorInvalidAuthorizationDetails 400
        "authorization_details is not supported by this server")
    | Some registry =>
      guard_err (decodes_losslessly (json_text raw))
        (newError ErrorInvalidAuthorizationDetails 400
          "authorization_details must be valid UTF-8, without unpaired surrogate escapes") ;;
      match Parse registry (json_text raw) with
      | Err _ => Err (newError ErrorInvalidAuthorizationDetails 400
          "authorization_details is invalid")
      | Ok _ =>
        Ok {| objects := Raw <$> default [] (unmarshal_slice (json_text raw)); present := true |}
      end
    end
  end.

Definition accessTokenGrant (grant : grantRecord) (requested : requestedAuthorizationDetails)
    : result Error grantRecord :=
  if negb (present requested) then Ok grant
  else if negb (bool_decide (objects requested = [])) && raw_empty (g_AuthorizationDetails grant)
  then Err (newError ErrorInvalidAuthorizationDetails 400 "authorization_details was not granted")
  else
    match validateNarrowedAuthorizationDetails (g_AuthorizationDetails grant)
            (objects requested) with
    | None => Err (newError ErrorInvalidAuthorizationDetails 400
        "authorization_details exceeds what was granted")
    | Some narrowed => Ok (with_details narrowed grant)
    end.

(** ** Resources *)

Definition resourceIndicatorsEnabled : bool :=
  negb (bool_decide (cfg_Resources cfg = [])) || is_Some_bool AllowResources.

Definition takeResourceParameters (params : list FormParameter)
    : list FormParameter * list string :=
  let '(rest, resources) := splitResourceParameters params in
  if negb resourceIndicatorsEnabled then (rest, []) else (rest, resources).

Definition defaultResources (client : RegisteredClient) : result Error (list string) :=
  let allowed := AllowedResources client in
  if negb resourceIndicatorsEnabled then
    if negb (bool_decide (allowed = [])) then Err (newError ErrorServerError 500
      "client is confined by AllowedResources, but this server accepts no resource indicators")
    else Ok []
  else if bool_decide (1 < length allowed) then Err (newError ErrorInvalidTarget 400
    "a resource is required: this client may request more than one, so must name which")
  else Ok allowed.

(** The loop of checkRequestedResources: the resources and those
    Config.Resources does not list, so far. *)
Fixpoint check_resources_loop (client : RegisteredClient) (requested resources unlisted : list string)
    : result Error (list string * list string) :=
  match requested with
  | [] => Ok (resources, unlisted)
  | r :: requested =>
    guard_err (Check_resource r)
      (newError ErrorInvalidTarget 400 "resource must be an absolute URI without a fragment") ;;
    if bool_decide (r ∈ resources) then check_resources_loop client requested resources unlisted
    else
      guard_err (AllowsResource client r)
        (newError ErrorInvalidTarget 400 "resource is not one this client may request") ;;
      check_resources_loop client requested (resources ++ [r])
        (if bool_decide (r ∈ cfg_Resources cfg) then unlisted else unlisted ++ [r])
  end.

Definition checkRequestedResources (client : RegisteredClient) (requested : list string)
    : srv (list string) :=
  let* requested := lift (if bool_decide (requested = []) then defaultResources client
                          else Ok requested) in
  if bool_decide (requested = []) then ret []
  else if bool_decide (MaxPerRequest < length requested) then fail too_many_resources
  else
    let* checked := lift (check_resources_loop client requested [] []) in
    let '(resources, unlisted) := checked in
    if bool_decide (unlisted = []) then ret resources
    else
      match AllowResources with
      | None => fail (newError ErrorInvalidTarget 400 "resource is not one this server serves")
      | Some allow =>
        do* map_err (λ err, match err with
            | ErrResourceNotAllowed =>
              newError ErrorInvalidTarget 400 "resource is not one this server serves"
            | PolicyFailed => newError ErrorServerError 500 "failed to decide the requested resources"
            end) (on_env (allow client unlisted)) in
        ret resources
      end.

(** The audience, and every resource the token is restricted to. *)
Definition accessTokenAudience (resources : list string) : string * list string :=
  match resources with [] => (cfg_Issuer cfg, []) | r :: _ => (r, resources) end.

Definition narrowedAudience (client : RegisteredClient) (granted requested : list string)
    : srv (string * list string) :=
  let* resources := lift (narrowResources granted requested) in
  let* resources := checkRequestedResources client resources in
  ret (accessTokenAudience resources).

(** The access token's grant and audience. *)
Definition narrowedAccessGrant (client : RegisteredClient) (grant : grantRecord)
    (details : requestedAuthorizationDetails) (requested : list string)
    : srv (grantRecord * (string * list string)) :=
  let* accessGrant := lift (accessTokenGrant grant details) in
  let* audience := narrowedAudience client (g_Resources grant) requested in
  ret (accessGrant, audience).

(** ** What the registration still allows *)

Definition checkGrantSubjectStillIssued (grant : grantRecord) : result Error unit :=
  let subjects := effectiveSubjects cfg in
  if bool_decide (g_ClientSubject grant = "") then
    guard_err (negb (bool_decide (Enforcement subjects = SubjectTypesPairwiseOnly)))
      (newError ErrorInvalidGrant 400
        "the grant was issued with a public sub, and this server now issues only pairwise subs")
  else
    match Prefix subjects with
    | Some prefix => guard_err (bool_decide (g_PairwisePrefix grant = prefix))
        (newError ErrorInvalidGrant 400
          "the grant's pairwise sub was issued under another subjects.prefix, so its tokens would no longer resolve")
    | None => Ok tt
    end.

Definition checkGrantTypeStillAllowed (client : RegisteredClient) (grant : grantRecord)
    : result Error unit :=
  if bool_decide (g_GrantType grant = "authorization_code") then
    guard_err (AllowsAuthorizationCodeGrant client) (newError ErrorUnauthorizedClient 400
      "the client is no longer registered for the authorization code grant")
  else if bool_decide (g_GrantType grant = CIBAGrantType) then
    guard_err (BackchannelAuthenticationRequestAlgorithm client).2
      (newError ErrorUnauthorizedClient 400 "the client is no longer registered for CIBA")
  else if bool_decide (g_GrantType grant = "") then
    guard_err (negb (bool_decide (g_CodeGrantID grant = ""))) (newError ErrorInvalidGrant 400
      "refresh_token was issued for a grant of unknown type: authorize again")
  else
    guard_err (bool_decide (g_GrantType grant ∈ AdditionalGrantTypes cfg))
      (newError ErrorUnauthorizedClient 400 "the grant type is no longer served").

Definition checkGrantStillAllowed (client : RegisteredClient) (grant : grantRecord)
    (scope : list string) : result Error unit :=
  checkGrantSubjectStillIssued grant ;;
  for_all (λ sc, guard_err (clientAllowsScope client sc) (newError ErrorInvalidScope 400
    "the grant includes a scope this client may no longer use")) scope ;;
  if raw_empty (g_AuthorizationDetails grant) then Ok tt
  else
    match cfg_RAR cfg with
    | None => Err (newError ErrorInvalidGrant 400
        "the grant has authorization_details, which this server no longer supports")
    | Some registry =>
      match Parse registry (g_AuthorizationDetails grant) with
      | Err _ => Err (newError ErrorInvalidGrant 400
          "the grant's authorization_details are no longer valid on this server")
      | Ok _ =>
        match unmarshal_slice (g_AuthorizationDetails grant) with
        | None => Err (newError ErrorServerError 500
            "failed to decode the grant's authorization_details")
        | Some details =>
          guard_err (checkAuthorizationDetailsTypes client (Raw <$> details))
            (newError ErrorInvalidGrant 400
              "the grant's authorization_details include a type this client may no longer request")
        end
      end
    end.

Definition allowedGrantAudience (client : RegisteredClient) (grant : grantRecord)
    (scope : list string) (details : requestedAuthorizationDetails) (requested : list string)
    : srv (grantRecord * (string * list string)) :=
  do* lift (checkGrantStillAllowed client grant scope) in
  narrowedAccessGrant client grant details requested.

(** ** The parameters of each request *)

(** code, redirect_uri, code_verifier and authorization_details. *)
Definition codeExchangeParameters (params : gmap string string)
    : result Error (string * string * string * requestedAuthorizationDetails) :=
  let code := param params "code" in
  guard_err (negb (bool_decide (code = "")))
    (newError ErrorInvalidRequest 400 "code is required") ;;
  let redirectURI := param params "redirect_uri" in
  guard_err (negb (bool_decide (redirectURI = "")))
    (newError ErrorInvalidRequest 400 "redirect_uri is required") ;;
  let codeVerifier := param params "code_verifier" in
  guard_err (negb (bool_decide (codeVerifier = "")))
    (newError ErrorInvalidGrant 400 "code_verifier is required") ;;
  details ← tokenRequestAuthorizationDetails params;
  Ok (code, redirectURI, codeVerifier, details).

Definition refreshParameters (params : gmap string string)
    : result Error (string * requestedAuthorizationDetails) :=
  let rawToken := param params "refresh_token" in
  guard_err (negb (bool_decide (rawToken = "")))
    (newError ErrorInvalidRequest 400 "refresh_token is required") ;;
  details ← tokenRequestAuthorizationDetails params;
  Ok (rawToken, details).

Definition backchannelTokenParameters (client : RegisteredClient) (params : gmap string string)
    : result Error (string * requestedAuthorizationDetails) :=
  guard_err (BackchannelAuthenticationRequestAlgorithm client).2
    (newError ErrorUnauthorizedClient 400 "the client is no longer registered for CIBA") ;;
  let authReqID := param params "auth_req_id" in
  guard_err (negb (bool_decide (authReqID = "")))
    (newError ErrorInvalidRequest 400 "auth_req_id is required") ;;
  details ← tokenRequestAuthorizationDetails params;
  Ok (authReqID, details).
End checks.
