(* ===== verification/Issue.v ===== *)
(** Issuing tokens: src/server/accesstoken.go (issueAccessToken,
    OpaqueAccessTokens) and the issuing half of src/server/token.go
    (withIdentityClaims, issueIDTokenForGrant, issueIDToken,
    issueRefreshToken, issueCodeExchangeTokens and what they call); and before
    them the revocation of grants (src/server/grant_revocation.go). *)
From S2P Require Import Prelude GoStrings Json GoTime Sha256 Base64 Pkce Digests Effects.
From S2P Require Import Storage Platform ServerTypes Rar JsonCodec Nonce Records Claims.
From S2P Require Import Jose Canonical Extensions Attestation ClientAuth ServerState.
From S2P Require Import TokenChecks.
From stdpp Require Import options.

(** * Grants and their revocation *)

Definition maxGrantIDLength : nat := 128.

Definition isGrantIDChar (c : ascii) : bool :=
  let r := byte_code c in
  ((65 <=? r) && (r <=? 90) || (97 <=? r) && (r <=? 122) || (48 <=? r) && (r <=? 57) ||
   (r =? 46) || (r =? 95) || (r =? 126) || (r =? 45))%N.

(** Every rune of the ID: those isGrantIDChar accepts are single bytes, and
    any other byte is part of a rune it refuses. *)
Fixpoint all_grant_id_chars (id : string) : bool :=
  match id with EmptyString => true | String c id => isGrantIDChar c && all_grant_id_chars id end.

Inductive revoke_grant_error :=
| ErrGrantIDEmpty | ErrRevocationUnchecked | ErrRevokeGrant (e : store_error).

Section grant_revocation.
Context {S : Server}.

Definition grantRevocationReader : option (string → eff RevocationT store_error bool) :=
  IsRevoked.

(** false is an error. *)
Definition validateGrantID (id : string) : bool :=
  if bool_decide (id = "") then true
  else bool_decide (String.length id ≤ maxGrantIDLength) && all_grant_id_chars id &&
    is_Some_bool grantRevocationReader.

Definition grantRevocationHorizon : Duration :=
  let l := cfg_Limits cfg in
  SaturatingAdd [Z.max (Z.max (RefreshTokenLifetime l) (AuthorizationCodeLifetime l))
                   (BackchannelAuthenticationRequestLifetime l);
                 AccessTokenLifetime l; MaxClockSkew l].

Definition RevokeGrant (grantID : string) : eff World revoke_grant_error unit :=
  if bool_decide (grantID = "") then fail ErrGrantIDEmpty
  else
    match grantRevocationReader with
    | None => fail ErrRevocationUnchecked
    | Some _ =>
      let* now := Now in
      map_err ErrRevokeGrant
        (on_revocation (Revoke (Key (cfg_Issuer cfg) grantID) (Add now grantRevocationHorizon)))
    end.

Fixpoint first_revoked (isRevoked : string → eff RevocationT store_error bool)
    (keys : list string) : eff RevocationT store_error bool :=
  match keys with
  | [] => ret false
  | key :: keys =>
    let* revoked := isRevoked key in
    if (revoked : bool) then ret true else first_revoked isRevoked keys
  end.

Definition anyRevoked (reader : string → eff RevocationT store_error bool) (keys : list string)
    : eff RevocationT store_error bool :=
  match IsAnyRevoked with
  | Some batch => batch keys
  | None => first_revoked reader keys
  end.

Definition revocation_keys (grant : grantRecord) : list string :=
  (if negb (bool_decide (g_GrantID grant = ""))
   then Keys (cfg_Issuer cfg) (g_GrantID grant) else []) ++
  (if negb (bool_decide (g_CodeGrantID grant = ""))
   then CodeKeys (cfg_Issuer cfg) (g_CodeGrantID grant) else []).

Definition checkGrantNotRevoked (grant : grantRecord) : srv unit :=
  let keys := revocation_keys grant in
  if bool_decide (keys = []) then ret tt
  else
    match grantRevocationReader with
    | None => fail (newError ErrorServerError 500 "the grant's revocation can't be checked")
    | Some reader =>
      let* revoked := map_err
        (λ _, newError ErrorServerError 500 "failed to check the grant's revocation")
        (on_revocation (anyRevoked reader keys)) in
      if (revoked : bool)
      then fail (newError ErrorInvalidGrant 400 "the grant has been revoked") else ret tt
    end.

Definition revokeCodeGrant (codeGrantID : string) : srv unit :=
  if bool_decide (codeGrantID = "") then ret tt
  else
    let* now := Now in
    map_err (λ _, newError ErrorServerError 500 "failed to revoke the refresh token's grant")
      (on_revocation (Revoke (CodeKey (cfg_Issuer cfg) codeGrantID)
        (Add now grantRevocationHorizon))).

End grant_revocation.

Record TokenResult := {
  AccessToken : string;
  TokenType : string;
  ExpiresIn : Duration;
  Scope : string;
  AuthorizationDetails : RawMessage;
  IDToken : option string;       (* with HasIDToken *)
  RefreshToken : option string;  (* with HasRefreshToken *)
  NextDPoPNonce : string }.

(** [result.AccessToken = ...] and the like. *)
Definition set_AccessToken (t : string) (r : TokenResult) : TokenResult := {|
  AccessToken := t; TokenType := TokenType r; ExpiresIn := ExpiresIn r; Scope := Scope r;
  AuthorizationDetails := AuthorizationDetails r; IDToken := IDToken r;
  RefreshToken := RefreshToken r; NextDPoPNonce := NextDPoPNonce r |}.
Definition set_IDToken (t : string) (r : TokenResult) : TokenResult := {|
  AccessToken := AccessToken r; TokenType := TokenType r; ExpiresIn := ExpiresIn r;
  Scope := Scope r; AuthorizationDetails := AuthorizationDetails r; IDToken := Some t;
  RefreshToken := RefreshToken r; NextDPoPNonce := NextDPoPNonce r |}.
Definition set_RefreshToken (t : string) (r : TokenResult) : TokenResult := {|
  AccessToken := AccessToken r; TokenType := TokenType r; ExpiresIn := ExpiresIn r;
  Scope := Scope r; AuthorizationDetails := AuthorizationDetails r; IDToken := IDToken r;
  RefreshToken := Some t; NextDPoPNonce := NextDPoPNonce r |}.
Definition set_NextDPoPNonce (n : string) (r : TokenResult) : TokenResult := {|
  AccessToken := AccessToken r; TokenType := TokenType r; ExpiresIn := ExpiresIn r;
  Scope := Scope r; AuthorizationDetails := AuthorizationDetails r; IDToken := IDToken r;
  RefreshToken := RefreshToken r; NextDPoPNonce := n |}.

Definition tokenTypeFor (c : SenderConstrain) : string :=
  match c with SenderConstrainMTLS => "Bearer" | SenderConstrainDPoP => "DPoP" end.

Definition ClientSubjectClaim : string := "client_sub".
Definition AudienceRecordClaim : string := "aud".

(** [%d] of an int. *)
Definition itoa (n : Z) : string :=
  if (n <? 0)%Z then "-" +:+ Itoa (Z.to_nat (- n)) else Itoa (Z.to_nat n).

Section issue.
Context {S : Server}.

(** The claims an opaque token's record keeps. *)
Definition opaque_record_claims (p : AccessTokenParams) : gmap string RawMessage :=
  let claims := atp_Claims p in
  let claims := if negb (bool_decide (atp_InternalSubject p = ""))
    then <[ClientSubjectClaim := Raw (JStr (atp_Subject p))]> claims else claims in
  let claims := <[IssuerRecordClaim := Raw (JStr (atp_Issuer p))]> claims in
  let audiences :=
    if bool_decide (atp_Audiences p = []) && negb (bool_decide (atp_Audience p = ""))
    then [atp_Audience p] else atp_Audiences p in
  if bool_decide (audiences = []) then claims
  else <[AudienceRecordClaim := marshal_strings audiences]> claims.

(** [OpaqueAccessTokens.IssueAccessToken]: the token and its revocation key. *)
Definition OpaqueAccessTokens_IssueAccessToken (p : AccessTokenParams)
    : eff (reader * Env) env_error (string * string) :=
  if bool_decide (atp_Issuer p = "") then fail EnvFailed
  else
    let* raw := map_err (λ _, EnvFailed)
      (zoom fst (λ r s, (r, s.2)) (draw opaqueAccessTokenSize)) in
    let hash := sha256 raw in
    do* map_err (λ _, EnvFailed) (zoom snd (λ x s, (s.1, x)) (CreateAccessToken {|
      nat_TokenHash := hash; nat_ClientID := atp_ClientID p;
      nat_Subject := if negb (bool_decide (atp_InternalSubject p = ""))
        then atp_InternalSubject p else atp_Subject p;
      nat_Scope := atp_Scope p; nat_Thumbprint := atp_Thumbprint p;
      nat_SenderConstrain := atp_SenderConstrain p; nat_Claims := opaque_record_claims p;
      nat_ExpiresAt := Add (atp_Now p) (atp_Lifetime p) |})) in
    ret (raw, hex_encode hash).

Definition IssueAccessToken (p : AccessTokenParams)
    : eff (reader * Env) env_error (string * string) :=
  match AccessTokens with
  | OpaqueAccessTokens => OpaqueAccessTokens_IssueAccessToken p
  | OtherAccessTokens issue _ => issue p
  end.

Definition issueAccessToken (p : AccessTokenParams) : srv (string * string) :=
  do* check (bool_decide (claimsSize (atp_Claims p) ≤ MaxAccessTokenClaimsBytes (cfg_Limits cfg))%Z)
    ErrorServerError 500 "access token claims exceed limits.max_access_token_claims_bytes" in
  let* issued := map_err (λ _, newError ErrorServerError 500 "failed to issue access token")
    (on_random_env (IssueAccessToken p)) in
  do* check (bool_decide (Z.of_nat (String.length issued.1) ≤ MaxAccessTokenBytes (cfg_Limits cfg))%Z)
    ErrorServerError 500
    "the issued access token is larger than limits.max_access_token_claims_bytes allows" in
  ret issued.

(** * ID tokens *)

Definition withIdentityClaims (subject : string) (names : list string) (values : Acceptable)
    (base : gmap string RawMessage) : eff World env_error (gmap string RawMessage) :=
  match ResolveIdentityClaims with
  | None => ret base
  | Some resolve =>
    if bool_decide (names = []) then ret base
    else
      let* identity := on_env (resolve subject names) in
      if bool_decide (identity = ∅) then ret base
      else ret (merge_identity identity names values base)
  end.

Definition issueIDToken (client : RegisteredClient) (grant : grantRecord)
    (claims : gmap string RawMessage) (nonce accessToken : string) : eff World env_error string :=
  let* signer := on_env newSigner in
  let* now := Now in
  let* signedJWT := on_env (token_IssueIDToken signer {|
    idp_Issuer := cfg_Issuer cfg; idp_Subject := clientSubject grant;
    idp_Audience := client_id client; idp_Nonce := nonce; idp_AuthTime := g_AuthTime grant;
    idp_ACR := g_ACR grant; idp_AMR := g_AMR grant; idp_AccessToken := accessToken;
    idp_Now := now; idp_Lifetime := IDTokenLifetime (cfg_Limits cfg);
    idp_Parameters := claims |}) in
  if bool_decide (idTokenEncryptionKeyManagement client = 0%N) then ret signedJWT
  else on_env (encryptIDToken (client_id client) (idTokenEncryptionKeyManagement client)
    (idTokenEncryptionContentEncryption client) signedJWT).

Definition issueIDTokenForGrant (client : RegisteredClient) (grant : grantRecord)
    (nonce accessToken : string) : srv string :=
  let* claims := map_err
    (λ _, newError ErrorServerError 500 "failed to resolve identity claims")
    (withIdentityClaims (g_Subject grant) (g_RequestedIDTokenClaims grant)
       (g_RequestedIDTokenClaimValues grant) (g_TokenClaims grant)) in
  let claims := g_IDTokenClaims grant ∪ claims in
  let size := claimsSize claims in
  let limit := MaxIDTokenClaimsBytes (cfg_Limits cfg) in
  do* check (bool_decide (size ≤ limit)%Z) ErrorServerError 500
    ("ID token claims total " +:+ itoa size +:+
     " bytes, over limits.max_id_token_claims_bytes (" +:+ itoa limit +:+ ")") in
  map_err (λ _, newError ErrorServerError 500 "failed to issue ID token")
    (issueIDToken client grant claims nonce accessToken).

(** * Refresh tokens *)

Inductive refresh_token_error := ErrIssueRefreshToken.

Definition issueRefreshToken (clientID : ClientID) (grant : grantRecord)
    (binding : refreshBinding) : eff World refresh_token_error string :=
  let* raw := on_random (map_err (λ _, ErrIssueRefreshToken) (draw refreshTokenSize)) in
  let* now := Now in
  let* encoded := lift (of_option ErrIssueRefreshToken
    (encodeGrantRecord (cfg_Issuer cfg) (forRefreshToken grant binding now))) in
  do* map_err (λ _, ErrIssueRefreshToken) (on_grants (CreateRefreshToken {|
    nrt_TokenHash := sha256 raw; nrt_ClientID := clientID; nrt_Grant := encoded;
    nrt_ExpiresAt := Add now (RefreshTokenLifetime (cfg_Limits cfg)) |})) in
  ret raw.

Definition refresh_token_failed (_ : refresh_token_error) : Error :=
  newError ErrorServerError 500 "failed to issue refresh token".

Definition addNextDPoPNonce (client : RegisteredClient) (now : Time) (result : TokenResult)
    : srv TokenResult :=
  let* nextNonce := nextDPoPNonce client now in
  ret (set_NextDPoPNonce nextNonce result).

(** * The code exchange's tokens *)

Definition issueOptionalIDToken (client : RegisteredClient) (grant : grantRecord)
    (accessToken : string) (result : TokenResult) : srv TokenResult :=
  if negb (containsScope (g_Scope grant) "openid") then ret result
  else
    let* idToken := issueIDTokenForGrant client grant (g_Nonce grant) accessToken in
    ret (set_IDToken idToken result).

Definition issueOptionalRefreshToken (client : RegisteredClient) (grant : grantRecord)
    (binding : refreshBinding) (codeHash : digest) (now : Time) (result : TokenResult)
    : srv TokenResult :=
  if negb (containsScope (g_Scope grant) "offline_access") then ret result
  else
    let* refreshToken := map_err refresh_token_failed
      (issueRefreshToken (client_id client) grant binding) in
    do* try (on_grants (RecordIssuedRefreshToken codeHash (sha256 refreshToken)
      (Add now (RefreshTokenLifetime (cfg_Limits cfg))))) in
    ret (set_RefreshToken refreshToken result).

(** Without a recorder of both, a code grant ID or a refresh token to issue. *)
Definition issue_separately (client : RegisteredClient) (grant : grantRecord)
    (params : AccessTokenParams) (binding : refreshBinding) (codeHash : digest) (expires : Time)
    (result : TokenResult) : srv TokenResult :=
  let* issued := issueAccessToken params in
  do* try (on_grants (RecordIssuedAccessToken codeHash issued.2 expires)) in
  let* result := issueOptionalIDToken client grant issued.1 (set_AccessToken issued.1 result) in
  issueOptionalRefreshToken client grant binding codeHash (atp_Now params) result.

(** The result is the [*TokenResult] written through. *)
Definition issueCodeExchangeTokens (client : RegisteredClient) (grant : grantRecord)
    (params : AccessTokenParams) (binding : refreshBinding) (codeHash : digest)
    (result : TokenResult) : srv TokenResult :=
  let expires := Add (atp_Now params) (AccessTokenLifetime (cfg_Limits cfg)) in
  match RecordIssuedTokens with
  | Some record =>
    if bool_decide (g_CodeGrantID grant = "") ||
       negb (containsScope (g_Scope grant) "offline_access")
    then issue_separately client grant params binding codeHash expires result
    else
      let* refreshToken := map_err refresh_token_failed
        (issueRefreshToken (client_id client) grant binding) in
      let* issued := issueAccessToken params in
      do* try (on_grants (record codeHash issued.2 expires (sha256 refreshToken)
        (Add (atp_Now params) (RefreshTokenLifetime (cfg_Limits cfg))))) in
      issueOptionalIDToken client grant issued.1
        (set_RefreshToken refreshToken (set_AccessToken issued.1 result))
  | None => issue_separately client grant params binding codeHash expires result
  end.
End issue.
