(* ===== verification/CodeExchange.v ===== *)
(** The authorization code grant at the token endpoint:
    ExchangeAuthorizationCode, redeemedCodeGrant and
    revokeTokensForReusedCode of src/server/token.go. *)
From S2P Require Import Prelude GoStrings Json GoTime Digests Effects Platform JsonCodec.
From S2P Require Import Storage ServerTypes Rar Records Dpop Jose Canonical Extensions.
From S2P Require Import Attestation ClientAuth ServerState TokenChecks.
From S2P Require Import Issue.
From stdpp Require Import options.

Definition codeUnknownDescription : string := "code is invalid, expired, or already used".

Record codeExchange := {
  ce_redirectURI : string;
  ce_thumbprint : string;
  ce_codeVerifier : string;
  ce_instanceKey : string }.

Section code_exchange.
Context {S : Server}.

(** The AccessTokenParams each grant issues from: [grant] is the whole grant,
    [claims] those of the one the access token was narrowed to. *)
Definition access_token_params (client : RegisteredClient) (grant : grantRecord)
    (scope : list string) (thumbprint : string) (claims : gmap string RawMessage)
    (audience : string * list string) (now : Time) : AccessTokenParams :=
  let subjects := accessTokenSubjects grant in {|
  atp_ClientID := client_id client; atp_Subject := subjects.1; atp_InternalSubject := subjects.2;
  atp_Scope := scope; atp_Thumbprint := thumbprint;
  atp_SenderConstrain := senderConstrain client; atp_Claims := claims;
  atp_Issuer := cfg_Issuer cfg; atp_Audience := audience.1; atp_Audiences := audience.2;
  atp_Now := now; atp_Lifetime := AccessTokenLifetime (cfg_Limits cfg) |}.

(** The result a grant starts from, before any token is issued onto it. *)
Definition token_result (client : RegisteredClient) (scope : list string)
    (accessGrant : grantRecord) : TokenResult := {|
  AccessToken := ""; TokenType := tokenTypeFor (senderConstrain client);
  ExpiresIn := AccessTokenLifetime (cfg_Limits cfg); Scope := join " " scope;
  AuthorizationDetails := g_AuthorizationDetails accessGrant; IDToken := None;
  RefreshToken := None; NextDPoPNonce := "" |}.

Definition encode_claims (accessGrant : grantRecord) : result Error (gmap string RawMessage) :=
  of_option (newError ErrorServerError 500 "failed to encode requested userinfo claims")
    (accessTokenClaims accessGrant).

Definition redeemedCodeGrant (client : RegisteredClient) (redeemed : RedeemedAuthorizationCode)
    (codeHash : digest) (presented : codeExchange) (now : Time) : srv grantRecord :=
  let unknown := newError ErrorInvalidGrant 400 codeUnknownDescription in
  match decodeOwnGrantRecord (cfg_Issuer cfg) (rac_Grant redeemed) with
  | Err err => fail (recordFailure err unknown "authorization code grant")
  | Ok grant =>
    do* lift (guard_err (isKind grant grantKindAuthorizationCode) unknown) in
    let grant := match grantRevocationReader with
                 | Some _ => with_code_grant_id (CodeGrantID codeHash) grant
                 | None => grant
                 end in
    do* check (issuedWithin (g_IssuedAt grant) (AuthorizationCodeLifetime (cfg_Limits cfg)) now)
      ErrorInvalidGrant 400 "code has expired" in
    do* lift (validateRedeemedAuthorizationCode redeemed grant (client_id client)
      (ce_redirectURI presented) (ce_thumbprint presented) (ce_codeVerifier presented) now) in
    do* lift (checkCodeInstance grant (ce_instanceKey presented)) in
    do* checkGrantNotRevoked grant in
    do* check (AllowsAuthorizationCodeGrant client) ErrorUnauthorizedClient 400
      "the client is no longer registered for the authorization code grant" in
    do* check (HasRedirectURI client (ce_redirectURI presented)) ErrorInvalidGrant 400
      "redirect_uri is no longer registered for this client" in
    ret grant
  end.

(** Best effort: a revocation that fails is discarded. The result is
    whether another client presented the code. *)
Definition revokeTokensForReusedCode (err : store_error) (presentedBy : ClientID)
    (codeHash : digest) : srv bool :=
  match err with
  | CodeAlreadyRedeemed alreadyRedeemed =>
    if negb (bool_decide (arr_ClientID alreadyRedeemed = "")) &&
       negb (bool_decide (arr_ClientID alreadyRedeemed = presentedBy))
    then ret true
    else
      let l := cfg_Limits cfg in
      do* (if negb (bool_decide (arr_IssuedAccessTokenKey alreadyRedeemed = "")) then
        let* now := Now in
        do* try (on_revocation (Revoke (arr_IssuedAccessTokenKey alreadyRedeemed)
          (Add now (SaturatingAdd [AccessTokenLifetime l; MaxClockSkew l; MaxClockSkew l])))) in
        ret tt
      else ret tt) in
      do* (match arr_IssuedRefreshTokenHash alreadyRedeemed with
           | Some hash => do* try (on_grants (RevokeRefreshToken hash)) in ret tt
           | None => ret tt
           end) in
      do* (match grantRevocationReader with
           | Some _ =>
             let* now := Now in
             do* try (on_revocation (Revoke (CodeKey (cfg_Issuer cfg) (CodeGrantID codeHash))
               (Add now grantRevocationHorizon))) in
             ret tt
           | None => ret tt
           end) in
      ret false
  | _ => ret false
  end.

Abbreviation fails := (or_fail AuditEventExchangeAuthorizationCode).

(** Redeeming the code: its record, with the digest it is stored under. *)
Definition redeem_code (client : RegisteredClient) (codeHash : digest)
    : srv RedeemedAuthorizationCode :=
  let* redeemed := try (on_grants (RedeemAuthorizationCode
    {| acr_CodeHash := codeHash; acr_ClientID := client_id client |})) in
  match redeemed with
  | Ok redeemed => ret redeemed
  | Err err =>
    let invalidErr := newError ErrorInvalidGrant 400 codeUnknownDescription in
    let* crossClient := revokeTokensForReusedCode err (client_id client) codeHash in
    if (crossClient : bool) then
      do* audit AuditEventExchangeAuthorizationCode (client_id client) AuditOutcomeFailure
        "code reused by another client" in
      fail invalidErr
    else fails (client_id client) (fail invalidErr)
  end.

(** What follows the binding of an authenticated client's request. *)
Definition exchange_code (client : RegisteredClient) (instanceKey code redirectURI codeVerifier : string)
    (details : requestedAuthorizationDetails) (requestedResources : list string)
    (thumbprint : string) : srv TokenResult :=
  let codeHash := authorizationCodeHash code instanceKey in
  let* redeemed := redeem_code client codeHash in
  let* now := Now in
  let* grant := fails (client_id client) (redeemedCodeGrant client redeemed codeHash {|
    ce_redirectURI := redirectURI; ce_thumbprint := thumbprint;
    ce_codeVerifier := codeVerifier; ce_instanceKey := instanceKey |} now) in
  let* allowed := fails (client_id client)
    (allowedGrantAudience client grant (g_Scope grant) details requestedResources) in
  let '(accessGrant, audience) := allowed in
  let* claims := fails (client_id client) (lift (encode_claims accessGrant)) in
  let* result := fails (client_id client) (issueCodeExchangeTokens client grant
    (access_token_params client grant (g_Scope grant) thumbprint claims audience now)
    {| rb_Thumbprint := thumbprint; rb_InstanceKey := instanceKey |} codeHash
    (token_result client (g_Scope grant) accessGrant)) in
  let* result := fails (client_id client) (addNextDPoPNonce client now result) in
  do* audit AuditEventExchangeAuthorizationCode (client_id client) AuditOutcomeSuccess "" in
  ret result.

Definition ExchangeAuthorizationCode (req : TokenRequest) : srv TokenResult :=
  let '(formParams, requestedResources) := takeResourceParameters (Parameters req) in
  let* params := fails "" (parseForm formParams) in
  do* fails "" (check (bool_decide (param params "grant_type" = "authorization_code"))
    ErrorUnsupportedGrantType 400 "grant_type must be authorization_code") in
  let* authenticated := fails "" (authenticateRequest params (credentials req) [] []) in
  let '(client, dpopProof, instanceKey) := authenticated in
  let* p := fails (client_id client) (lift (codeExchangeParameters params)) in
  let '(code, redirectURI, codeVerifier, details) := p in
  let* thumbprint := fails (client_id client)
    (verifyTokenRequestBinding client dpopProof (PeerCertificate (credentials req))) in
  attachNextDPoPNonceOnFailure client
    (exchange_code client instanceKey code redirectURI codeVerifier details requestedResources
       thumbprint).
End code_exchange.
