(* ===== verification/Refresh.v ===== *)
(** The refresh grant: RefreshAccessToken, redeemRefreshGrant and
    redeemRefreshGrantFor of src/server/refresh.go; token revocation:
    RevokeToken of src/server/token_revocation.go. *)
From S2P Require Import Prelude GoStrings Json GoTime Sha256 Digests Effects Storage.
From S2P Require Import Platform ServerTypes Rar JsonCodec Records Dpop Jose Canonical.
From S2P Require Import Extensions Attestation ClientAuth ServerState TokenChecks.
From S2P Require Import Issue CodeExchange.
From stdpp Require Import options.

Definition refreshTokenUnknownDescription : string :=
  "refresh_token is invalid, expired, or already used".

Section refresh.
Context {S : Server}.

(** The grant, and the time its expiry was judged at. *)
Definition redeemRefreshGrant (clientID : ClientID) (instanceKey rawToken : string)
    : srv (grantRecord * Time) :=
  let unknown := newError ErrorInvalidGrant 400 refreshTokenUnknownDescription in
  let* redeemed := map_err (λ _, unknown)
    (on_grants (RedeemRefreshToken {| rtr_TokenHash := sha256 rawToken |})) in
  do* lift (guard_err (bool_decide (rrt_ClientID redeemed = clientID)) unknown) in
  let* now := Now in
  do* check (Before now (rrt_ExpiresAt redeemed)) ErrorInvalidGrant 400
    "refresh_token has expired" in
  match decodeOwnGrantRecord (cfg_Issuer cfg) (rrt_Grant redeemed) with
  | Err err => fail (recordFailure err unknown "refresh token grant")
  | Ok grant =>
    do* lift (guard_err (isKind grant grantKindRefreshToken) unknown) in
    do* check (issuedWithin (g_IssuedAt grant) (RefreshTokenLifetime (cfg_Limits cfg)) now)
      ErrorInvalidGrant 400 "refresh_token has expired" in
    do* lift (checkRefreshInstance grant instanceKey) in
    do* checkGrantNotRevoked grant in
    ret (grant, now)
  end.

Definition redeemRefreshGrantFor (client : RegisteredClient) (instanceKey rawToken : string)
    : srv (grantRecord * Time) :=
  let* redeemed := redeemRefreshGrant (client_id client) instanceKey rawToken in
  do* lift (checkGrantTypeStillAllowed client redeemed.1) in
  ret redeemed.

Abbreviation fails := (or_fail AuditEventRefreshAccessToken).

(** What follows the binding of an authenticated client's request. *)
Definition refresh (client : RegisteredClient) (instanceKey rawToken : string)
    (params : gmap string string) (details : requestedAuthorizationDetails)
    (requestedResources : list string) (thumbprint : string) : srv TokenResult :=
  let* redeemed := fails (client_id client)
    (redeemRefreshGrantFor client instanceKey rawToken) in
  let '(grant, now) := redeemed in
  let* scope := fails (client_id client) (lift (refreshScope params grant client)) in
  let* allowed := fails (client_id client)
    (allowedGrantAudience client grant scope details requestedResources) in
  let '(accessGrant, audience) := allowed in
  let* claims := fails (client_id client) (lift (encode_claims accessGrant)) in
  let* issued := fails (client_id client)
    (issueAccessToken (access_token_params client grant scope thumbprint claims audience now)) in
  let result := set_AccessToken issued.1 (token_result client scope accessGrant) in
  let* result :=
    (if containsScope scope "openid" then
       let* idToken := fails (client_id client) (issueIDTokenForGrant client grant "" issued.1) in
       ret (set_IDToken idToken result)
     else ret result) in
  let result := set_RefreshToken rawToken result in
  let* result := fails (client_id client) (addNextDPoPNonce client now result) in
  do* audit AuditEventRefreshAccessToken (client_id client) AuditOutcomeSuccess "" in
  ret result.

Definition RefreshAccessToken (req : TokenRequest) : srv TokenResult :=
  let '(formParams, requestedResources) := takeResourceParameters (Parameters req) in
  let* params := fails "" (parseForm formParams) in
  do* fails "" (check (bool_decide (param params "grant_type" = "refresh_token"))
    ErrorUnsupportedGrantType 400 "grant_type must be refresh_token") in
  let* authenticated := fails ""
    (authenticateRequest params (credentials req) [TokenEndpoint cfg] [MTLSTokenEndpoint cfg]) in
  let '(client, dpopProof, instanceKey) := authenticated in
  let* p := fails (client_id client) (lift (refreshParameters params)) in
  let '(rawToken, details) := p in
  let* thumbprint := fails (client_id client)
    (verifyTokenRequestBinding client dpopProof (PeerCertificate (credentials req))) in
  attachNextDPoPNonceOnFailure client
    (refresh client instanceKey rawToken params details requestedResources thumbprint).
End refresh.

(** * The token revocation endpoint (RFC 7009): src/server/token_revocation.go. *)

Record TokenRevocationResult := {
  Revoked : bool;
  revoked_GrantID : string }.

Definition not_revoked : TokenRevocationResult := {| Revoked := false; revoked_GrantID := "" |}.

Section token_revocation.
Context {S : Server}.

Definition isOwnOpaqueAccessToken (clientID : ClientID) (rawToken : string)
    : eff World Error bool :=
  match AccessTokens with
  | OtherAccessTokens _ _ => ret false
  | OpaqueAccessTokens =>
    let* looked := try (on_env (LookupAccessToken {| atl_TokenHash := sha256 rawToken |})) in
    ret (match looked with
         | Ok looked => bool_decide (lat_ClientID looked = clientID) &&
             ownsAccessTokenRecord (cfg_Issuer cfg) (lat_Claims looked)
         | Err _ => false
         end)
  end.

(** isOwnJWTAccessToken is the access token issuer's own. *)
Definition isOwnAccessToken (clientID : ClientID) (rawToken : string) : eff World Error bool :=
  if contains_byte rawToken "." then
    match AccessTokens with
    | OpaqueAccessTokens => ret false
    | OtherAccessTokens _ isOwnJWT =>
      let* own := try (on_env (isOwnJWT clientID rawToken)) in
      ret (match own with Ok own => own | Err _ => false end)
    end
  else isOwnOpaqueAccessToken clientID rawToken.

Definition revokeRefreshToken (clientID : ClientID) (instanceKey rawToken : string)
    : srv TokenRevocationResult :=
  let* redeemed := try (redeemRefreshGrant clientID instanceKey rawToken) in
  match redeemed with
  | Err grantErr =>
    if bool_decide (code grantErr = ErrorServerError) then fail grantErr else ret not_revoked
  | Ok redeemed =>
    let grant := redeemed.1 in
    do* (if negb (bool_decide (g_GrantID grant = "")) then
      map_err (λ _, newError ErrorServerError 500 "failed to revoke the refresh token's grant")
        (RevokeGrant (g_GrantID grant))
    else ret tt) in
    do* revokeCodeGrant (g_CodeGrantID grant) in
    do* map_err (λ _, newError ErrorServerError 500 "failed to revoke the refresh token")
      (on_grants (RevokeRefreshToken (sha256 rawToken))) in
    ret {| Revoked := true; revoked_GrantID := g_GrantID grant |}
  end.

Abbreviation fails := (or_fail AuditEventRevokeToken).

Definition RevokeToken (req : TokenRequest) : srv TokenRevocationResult :=
  do* fails "" (check (is_Some_bool (RevocationEndpoint cfg)) ErrorServerError 500
    "token revocation is not enabled (Config.Endpoints.Revocation)") in
  let* params := fails "" (parseForm (Parameters req)) in
  let creds := credentials req in
  let* authenticated := fails "" (authenticateRequest params
    {| PeerCertificate := PeerCertificate creds; DPoPProofs := [];
       ClientAttestations := ClientAttestations creds;
       ClientAttestationPoPs := ClientAttestationPoPs creds |}
    [RevocationEndpoint cfg] [MTLSRevocationEndpoint cfg]) in
  let '(client, _, instanceKey) := authenticated in
  let token := param params "token" in
  do* fails (client_id client) (check (negb (bool_decide (token = ""))) ErrorInvalidRequest 400
    "token is required") in
  let* result :=
    (if contains_byte token "." then ret not_revoked
     else fails (client_id client) (revokeRefreshToken (client_id client) instanceKey token)) in
  let* own := (if Revoked result then ret false else isOwnAccessToken (client_id client) token) in
  do* fails (client_id client) (check (negb own) ErrorUnsupportedTokenType 400
    "only refresh tokens can be revoked") in
  do* audit AuditEventRevokeToken (client_id client) AuditOutcomeSuccess
    (if Revoked result then "" else "not revoked") in
  ret result.
End token_revocation.
