(* ===== verification/BackchannelToken.v ===== *)
(** The CIBA grant at the token endpoint: src/server/backchannel_token.go,
    and checkGrantUsable and usableGrantAudience (src/server/refresh.go,
    src/server/resource_indicators.go). *)
From S2P Require Import Prelude GoStrings Json GoTime Sha256 Digests Platform JsonCodec.
From S2P Require Import Effects Storage ServerTypes Rar Records Dpop Jose Canonical.
From S2P Require Import Extensions Attestation ClientAuth ServerState.
From S2P Require Import TokenChecks Issue CodeExchange.
From stdpp Require Import options.

Definition authReqIDUnknownDescription : string := "auth_req_id is invalid or unknown".

Definition isBackchannelPollOutcome (err : store_error) : bool :=
  match err with
  | BackchannelAuthenticationExpiredError | BackchannelAuthenticationSlowDownError
  | BackchannelAuthenticationAlreadyRedeemedError => true
  | _ => false
  end.

Definition backchannelPollError (err : store_error) : Error :=
  match err with
  | BackchannelAuthenticationExpiredError =>
    newError ErrorExpiredToken 400 "auth_req_id has expired"
  | BackchannelAuthenticationSlowDownError =>
    newError ErrorSlowDown 400 "polled faster than the configured interval"
  | BackchannelAuthenticationAlreadyRedeemedError =>
    newError ErrorInvalidGrant 400 "auth_req_id has already been used"
  | _ => newError ErrorInvalidGrant 400 authReqIDUnknownDescription
  end.

Definition backchannelStatusError (status : BackchannelAuthenticationStatus) : result Error unit :=
  if bool_decide (status = BackchannelAuthenticationPending) then
    Err (newError ErrorAuthorizationPending 400
      "the end user has not yet completed authentication")
  else if bool_decide (status = BackchannelAuthenticationDenied) ||
          bool_decide (status = BackchannelAuthenticationAuthenticationFailed) then
    Err (newError ErrorAccessDenied 400
      "the end user denied the request, or could not be authenticated")
  else if bool_decide (status = BackchannelAuthenticationApproved) then Ok tt
  else Err (newError ErrorServerError 500 "unrecognized backchannel authentication status").

Section backchannel.
Context {S : Server}.

(** The polled request, or the store's error, with the digest polled last. *)
Definition pollBackchannelAuthentication (client : RegisteredClient)
    (authReqID instanceKey thumbprint : string) (now : Time)
    : eff World Error (result store_error PolledBackchannelAuthentication * digest) :=
  let poll hash := try (on_backchannel (PollBackchannel
    {| pba_AuthReqIDHash := hash; pba_Now := now; pba_ClientID := client_id client |})) in
  let unbound :=
    let hash := backchannelAuthReqIDHash authReqID instanceKey "" in
    let* polled := poll hash in ret (polled, hash) in
  if bool_decide (senderConstrain client = SenderConstrainMTLS) then unbound
  else
    let hash := backchannelAuthReqIDHash authReqID instanceKey thumbprint in
    let* polled := poll hash in
    match polled with
    | Ok _ => ret (polled, hash)
    | Err err => if isBackchannelPollOutcome err then ret (polled, hash) else unbound
    end.

Definition approvedBackchannelGrant (polled : PolledBackchannelAuthentication)
    (clientID : ClientID) (thumbprint instanceKey : string) : result Error grantRecord :=
  let unknown := newError ErrorInvalidGrant 400 authReqIDUnknownDescription in
  guard_err (bool_decide (plb_ClientID polled = clientID))
    (newError ErrorInvalidGrant 400 "auth_req_id was not issued to this client") ;;
  match decodeOwnRequestRecord (cfg_Issuer cfg) (plb_Request polled) with
  | Err err => Err (recordFailure err unknown "backchannel authentication request")
  | Ok request =>
    guard_err (bool_decide (rq_ClientInstanceKey request = instanceKey)) unknown ;;
    guard_err (bool_decide (rq_DPoPJKT request = "") ||
               bool_decide (rq_DPoPJKT request = thumbprint))
      (newError ErrorInvalidGrant 400
        "DPoP proof key does not match the dpop_jkt bound to this backchannel authentication request") ;;
    backchannelStatusError (plb_Status polled) ;;
    match decodeOwnGrantRecord (cfg_Issuer cfg) (plb_Grant polled) with
    | Err err => Err (recordFailure err unknown "backchannel authentication grant")
    | Ok grant => guard_err (isKind grant grantKindBackchannel) unknown ;; Ok grant
    end
  end.

Definition backchannelGrantID (authReqIDHash : digest) : string :=
  match grantRevocationReader with
  | None => ""
  | Some _ => BackchannelGrantID authReqIDHash
  end.

Definition checkGrantUsable (client : RegisteredClient) (grant : grantRecord) : srv unit :=
  let* now := Now in
  do* check (issuedWithin (g_IssuedAt grant)
      (BackchannelAuthenticationRequestLifetime (cfg_Limits cfg)) now)
    ErrorExpiredToken 400 "auth_req_id has expired" in
  do* checkGrantNotRevoked grant in
  lift (checkGrantStillAllowed client grant (g_Scope grant)).

Definition usableGrantAudience (client : RegisteredClient) (grant : grantRecord)
    (details : requestedAuthorizationDetails) (requested : list string)
    : srv (grantRecord * (string * list string)) :=
  do* checkGrantUsable client grant in
  narrowedAccessGrant client grant details requested.

Definition issueBackchannelOptionalTokens (client : RegisteredClient) (grant : grantRecord)
    (accessToken : string) (binding : refreshBinding) (result : TokenResult) : srv TokenResult :=
  let* result :=
    (if containsScope (g_Scope grant) "openid" then
       let* idToken := issueIDTokenForGrant client grant "" accessToken in
       ret (set_IDToken idToken result)
     else ret result) in
  if containsScope (g_Scope grant) "offline_access" then
    let* refreshToken := map_err refresh_token_failed
      (issueRefreshToken (client_id client) grant binding) in
    ret (set_RefreshToken refreshToken result)
  else ret result.

Abbreviation fails := (or_fail AuditEventExchangeBackchannelAuthentication).

(** What follows the binding of an authenticated client's request. *)
Definition exchange_backchannel (client : RegisteredClient) (instanceKey authReqID : string)
    (details : requestedAuthorizationDetails) (requestedResources : list string)
    (thumbprint : string) : srv TokenResult :=
  let* now := Now in
  let* polled := pollBackchannelAuthentication client authReqID instanceKey thumbprint now in
  let '(polled, authReqIDHash) := polled in
  let* polled := fails (client_id client)
    (map_err backchannelPollError (lift polled)) in
  let* grant := fails (client_id client)
    (lift (approvedBackchannelGrant polled (client_id client) thumbprint instanceKey)) in
  let grant := with_code_grant_id (backchannelGrantID authReqIDHash) grant in
  let* usable := fails (client_id client)
    (usableGrantAudience client grant details requestedResources) in
  let '(accessGrant, audience) := usable in
  let* claims := fails (client_id client) (lift (encode_claims accessGrant)) in
  let* issued := fails (client_id client)
    (issueAccessToken (access_token_params client grant (g_Scope grant) thumbprint claims
       audience now)) in
  let* result := fails (client_id client) (issueBackchannelOptionalTokens client grant issued.1
    {| rb_Thumbprint := thumbprint; rb_InstanceKey := instanceKey |}
    (set_AccessToken issued.1 (token_result client (g_Scope grant) accessGrant))) in
  let* result := fails (client_id client) (addNextDPoPNonce client now result) in
  do* audit AuditEventExchangeBackchannelAuthentication (client_id client) AuditOutcomeSuccess "" in
  ret result.

Definition ExchangeBackchannelAuthentication (req : TokenRequest) : srv TokenResult :=
  do* fails "" (check has_backchannel ErrorUnsupportedGrantType 400
    "backchannel authentication is not configured") in
  let '(formParams, requestedResources) := takeResourceParameters (Parameters req) in
  let* params := fails "" (parseForm formParams) in
  do* fails "" (check (bool_decide (param params "grant_type" = CIBAGrantType))
    ErrorUnsupportedGrantType 400 ("grant_type must be " +:+ CIBAGrantType)) in
  let* authenticated := fails ""
    (authenticateRequest params (credentials req) [TokenEndpoint cfg] [MTLSTokenEndpoint cfg]) in
  let '(client, dpopProof, instanceKey) := authenticated in
  let* p := fails (client_id client) (lift (backchannelTokenParameters client params)) in
  let '(authReqID, details) := p in
  let* thumbprint := fails (client_id client)
    (verifyTokenRequestBinding client dpopProof (PeerCertificate (credentials req))) in
  attachNextDPoPNonceOnFailure client
    (exchange_backchannel client instanceKey authReqID details requestedResources thumbprint).
End backchannel.
