(* ===== verification/Parameters.v ===== *)
(** The parameters of an authorization request, as JSON values: their types
    and sizes (src/server/request_parameter_types.go,
    request_parameter_sizes.go), and what the server reads of each
    (src/server/prompt.go, max_age.go, locales.go, essential_acr.go,
    claims_parameter.go, requested_subject.go, and the helpers of
    src/server/par.go).

    An error is its public description. A check over a map's members reports
    one member when several fail it. A value's text has no white space around
    it, encoding/json having cut it from the request, and its length is
    [raw_length]; an integer max_age spelled with an exponent or a fraction,
    which strconv.ParseInt refuses, has the syntax tree of the integer. *)
From S2P Require Import Prelude GoStrings Json GoTime Digests Platform JsonCodec Numeric.
From S2P Require Import Storage ServerTypes Records TokenChecks.
From stdpp Require Import options.

Abbreviation Params := (gmap string RawMessage).

(** A name between double quotes, in an error's text. *)
Definition quoted (s : string) : string := String "034" (s +:+ String "034" "").

(** * Reading *)

(** jsonStringValue, jsonString and optionalJSONString; [None] is an error. *)
Definition jsonStringValue (raw : RawMessage) : option string := unmarshal_string raw.
Definition jsonString (params : Params) (key : string) : option string :=
  params !! key ≫= jsonStringValue.
Definition optionalJSONString (params : Params) (key : string) : option string :=
  match params !! key with None => Some "" | Some _ => jsonString params key end.

(** [json.Marshal] of a string. *)
Definition marshal_string (s : string) : RawMessage := Raw (JStr (coerce_utf8 s)).

(** * Types *)

Inductive jsonKind := jsonStringKind | jsonNumberKind | jsonObjectKind.
#[export] Instance json_kind_eq_dec : EqDecision jsonKind.
Proof. solve_decision. Defined.

Record parameterType := {
  pt_name : string;
  pt_kinds : list jsonKind;
  pt_nonEmpty : bool }.

Definition string_type (name : string) : parameterType :=
  {| pt_name := name; pt_kinds := [jsonStringKind]; pt_nonEmpty := false |}.

Definition authorizationParameterTypes : list parameterType :=
  (string_type <$> ["response_type"; "redirect_uri"; "scope"; "state"; "nonce"; "code_challenge";
     "code_challenge_method"; "response_mode"; "prompt"; "acr_values"; "login_hint";
     "id_token_hint"]) ++
  [{| pt_name := "dpop_jkt"; pt_kinds := [jsonStringKind]; pt_nonEmpty := true |};
   {| pt_name := "max_age"; pt_kinds := [jsonStringKind; jsonNumberKind]; pt_nonEmpty := false |};
   {| pt_name := "claims"; pt_kinds := [jsonStringKind; jsonObjectKind]; pt_nonEmpty := false |}].

Definition backchannelParameterTypes : list parameterType :=
  (string_type <$> ["scope"; "login_hint"; "login_hint_token"; "id_token_hint"; "acr_values";
     "binding_message"; "client_notification_token"]) ++
  [{| pt_name := "dpop_jkt"; pt_kinds := [jsonStringKind]; pt_nonEmpty := true |};
   {| pt_name := "requested_expiry"; pt_kinds := [jsonStringKind; jsonNumberKind];
      pt_nonEmpty := false |};
   {| pt_name := "claims"; pt_kinds := [jsonStringKind; jsonObjectKind]; pt_nonEmpty := false |}].

(** The kind of a value that is JSON; [None] when it is none of the three. *)
Definition jsonKindOf (raw : RawMessage) : option jsonKind :=
  match raw with
  | Raw (JStr _) => Some jsonStringKind
  | Raw (JObj _) => Some jsonObjectKind
  | Raw (JNum _) => Some jsonNumberKind
  | _ => None
  end.

Definition kinds_string (kinds : list jsonKind) : string :=
  if bool_decide (kinds = [jsonStringKind; jsonNumberKind]) then "a number or a string"
  else if bool_decide (kinds = [jsonStringKind; jsonObjectKind]) then "a JSON object or a string"
  else "a string".

Definition parameterType_check (pt : parameterType) (raw : RawMessage) : result string unit :=
  match jsonKindOf raw with
  | Some kind =>
    guard_err (bool_decide (kind ∈ pt_kinds pt)) ("must be " +:+ kinds_string (pt_kinds pt)) ;;
    guard_err (negb (bool_decide (kind = jsonStringKind) && pt_nonEmpty pt &&
                     bool_decide (default "" (jsonStringValue raw) = "")))
      "must be a non-empty string"
  | None => Err ("must be " +:+ kinds_string (pt_kinds pt))
  end.

Definition checkParameterTypes (params : Params) (types : list parameterType)
    : result string unit :=
  for_all (λ pt,
    match params !! pt_name pt with
    | None => Ok tt
    | Some raw =>
      match parameterType_check pt raw with
      | Ok _ => Ok tt
      | Err text => Err (pt_name pt +:+ " " +:+ text)
      end
    end) types.

(** * Sizes *)

Definition maxIDTokenHintBytes : nat := N.to_nat 16384.
Definition maxCodeChallengeBytes : nat := 128.
Definition maxDPoPJKTBytes : nat := 128.
Definition maxMaxAgeBytes : nat := 32.

Definition authorizationParameterSizes : list (string * nat) := [
  ("state", maxAuthorizationTextParameterBytes); ("nonce", maxAuthorizationTextParameterBytes);
  ("login_hint", maxAuthorizationTextParameterBytes);
  ("acr_values", maxAuthorizationTextParameterBytes); ("id_token_hint", maxIDTokenHintBytes);
  ("code_challenge", maxCodeChallengeBytes); ("dpop_jkt", maxDPoPJKTBytes);
  ("max_age", maxMaxAgeBytes)].

Section parameters.
Context `{Platform}.

Definition parameterLength (raw : RawMessage) : nat :=
  match raw with Raw (JStr s) => String.length s | _ => raw_length raw end.

Definition checkParameterSizes (params : Params) (sizes : list (string * nat))
    : result string unit :=
  for_all (λ ps,
    match params !! ps.1 with
    | None => Ok tt
    | Some raw => guard_err (negb (bool_decide (ps.2 < parameterLength raw)))
        (ps.1 +:+ " must not be longer than " +:+ Itoa ps.2 +:+ " bytes")
    end) sizes.

Definition checkAuthorizationParameterSizes (params : Params) (client : RegisteredClient)
    : result string unit :=
  checkParameterSizes params authorizationParameterSizes ;;
  match params !! "scope" with
  | None => Ok tt
  | Some raw => checkScopeLength (parameterLength raw) client
  end.

(** * Prompt *)

Definition maxPromptBytes : nat := 256.
Definition maxPromptValues : nat := 16.

(** The distinct values, in order, [p] so far. *)
Fixpoint prompt_values (values p : list string) : result string (list string) :=
  match values with
  | [] => Ok p
  | v :: values =>
    if bool_decide (v ∈ p) then prompt_values values p
    else if bool_decide (length p = maxPromptValues)
    then Err ("prompt must not carry more than " +:+ Itoa maxPromptValues +:+ " values")
    else prompt_values values (p ++ [v])
  end.

Definition requestedPrompt (params : Params) : result string (list string) :=
  match params !! "prompt" with
  | None => Ok []
  | Some raw =>
    match jsonStringValue raw with
    | None => Err "prompt must be a string"
    | Some v =>
      guard_err (negb (bool_decide (maxPromptBytes < String.length v)))
        ("prompt must not be longer than " +:+ Itoa maxPromptBytes +:+ " bytes") ;;
      p ← prompt_values (fields v) [];
      guard_err (negb (bool_decide ("none" ∈ p) && bool_decide (1 < length p)))
        ("prompt " +:+ quoted "none" +:+ " must not be combined with another value") ;;
      Ok p
    end
  end.

(** * max_age and acr_values *)

Definition maxMaxAge : Z := 100 * 366 * 24 * 60 * 60.

(** The duration, [None] when the parameter is absent; an error otherwise. *)
Definition requestedMaxAge (params : Params) : result string (option Duration) :=
  match params !! "max_age" with
  | None => Ok None
  | Some raw =>
    let seconds := match raw with
                   | Raw (JNum n) => unmarshal_int64 n
                   | Raw (JStr s) => ParseInt s
                   | _ => None
                   end in
    match seconds with
    | None => Err "max_age must be a whole number of seconds"
    | Some seconds =>
      guard_err (negb (bool_decide (seconds < 0)%Z || bool_decide (maxMaxAge < seconds)%Z))
        "max_age is out of range" ;;
      Ok (Some (seconds * Second)%Z)
    end
  end.

Definition requestedACRValues (params : Params) : list string :=
  match jsonString params "acr_values" with Some v => fields v | None => [] end.

(** * Presentation preferences *)

Definition knownDisplay (d : string) : string :=
  if bool_decide (d ∈ ["page"; "popup"; "touch"; "wap"]) then d else "".

Definition requestedDisplay (params : Params) : string :=
  match jsonString params "display" with Some v => knownDisplay v | None => "" end.

Definition maxLocaleTags : nat := 16.
Definition maxLocaleTagLength : nat := 35.

Fixpoint subtag_bytes (s : string) (first : bool) : bool :=
  match s with
  | EmptyString => true
  | String c s =>
    let n := byte_code c in
    let alpha := ((97 <=? n) && (n <=? 122) || (65 <=? n) && (n <=? 90))%N in
    let digit := ((48 <=? n) && (n <=? 57))%N in
    (alpha || negb first && digit) && subtag_bytes s first
  end.

Definition isSubtagShaped (subtag : string) (first : bool) : bool :=
  negb (bool_decide (subtag = "")) && bool_decide (String.length subtag ≤ 8) &&
  subtag_bytes subtag first.

Definition isLanguageTagShaped (tag : string) : bool :=
  negb (bool_decide (tag = "")) && bool_decide (String.length tag ≤ maxLocaleTagLength) &&
  match Split tag "-" with
  | [] => true
  | t :: ts => isSubtagShaped t true && forallb (λ t, isSubtagShaped t false) ts
  end.

(** strings.EqualFold of tags, which are ASCII. *)
Definition containsFold (tags : list string) (tag : string) : bool :=
  existsb (λ t, EqualFoldASCII t tag) tags.

Fixpoint language_tags (candidates tags : list string) : list string :=
  match candidates with
  | [] => tags
  | field :: candidates =>
    if bool_decide (length tags = maxLocaleTags) then tags
    else if negb (isLanguageTagShaped field) || containsFold tags field
    then language_tags candidates tags
    else language_tags candidates (tags ++ [field])
  end.

Definition languageTags (candidates : list string) : list string := language_tags candidates [].

Definition requestedLocales (params : Params) (name : string) : list string :=
  match jsonString params name with Some v => languageTags (fields v) | None => [] end.

Definition maxLocalesBytes : nat := maxLocaleTags * (maxLocaleTagLength + 1).
Definition maxDisplayBytes : nat := 64.

Definition bound_locales (name : string) (params : Params) : Params :=
  match params !! name with
  | Some raw =>
    if bool_decide (maxLocalesBytes < raw_length raw) then
      let tags := requestedLocales params name in
      if bool_decide (tags = []) then delete name params
      else <[name := Raw (JStr (join " " tags))]> params
    else params
  | None => params
  end.

Definition boundPresentationPreferences (params : Params) : Params :=
  let params := bound_locales "claims_locales" (bound_locales "ui_locales" params) in
  match params !! "display" with
  | Some raw =>
    if bool_decide (maxDisplayBytes < raw_length raw) then delete "display" params else params
  | None => params
  end.
End parameters.
