(* ===== verification/ClaimsParameter.v ===== *)
(** The claims request parameter (OIDC Core 5.5): its validation
    (src/server/claims_parameter.go), the essential acr values
    (src/server/essential_acr.go) and the subject
    (src/server/requested_subject.go) it asks for, and the claim names and
    values it requests (src/server/identity_claims.go).

    A claims parameter is a JSON object, or a string holding its text. An
    error is its public description. *)
From S2P Require Import Prelude GoStrings Json Digests Platform JsonCodec Claims.
From S2P Require Import ServerTypes Jose Parameters.
From stdpp Require Import options.

Definition maxClaimsParameterBytes : nat := N.to_nat 16384.
Definition maxRequestedClaimsPerLocation : nat := 256.
Definition maxEssentialACRValues : nat := 32.

Definition isJSONNull (raw : RawMessage) : bool :=
  match raw with Raw JNull => true | _ => false end.

Section claims.
Context `{Platform}.

(** A claims object: its JSON value, its text's length and whether the text
    decodes losslessly. *)
Record claims_object := {
  co_raw : RawMessage;
  co_length : nat;
  co_lossless : bool }.

(** claimsObject; the string's text is read without the white space around
    it. It never fails on the JSON values a request is read as. *)
Definition claimsObject (raw : RawMessage) : claims_object :=
  match raw with
  | Raw (JStr s) =>
    let text := TrimSpace s in
    {| co_raw := json_text text; co_length := String.length text;
       co_lossless := DecodesLosslessly text |}
  | _ => {| co_raw := raw; co_length := raw_length raw; co_lossless := decodes_losslessly raw |}
  end.

(** claimsMembers: [None] when the parameter is no object. *)
Definition claimsMembers (raw : RawMessage) : option Params :=
  match co_raw (claimsObject raw) with
  | Raw (JObj l) => Some (members_map ∅ l)
  | _ => None
  end.

(** claimsLocation, [None] for the nil map. *)
Definition claimsLocation (top : Params) (location : string) : option Params :=
  match top !! location with
  | Some (Raw (JObj l)) => Some (members_map ∅ l)
  | _ => None
  end.

(** [params["claims"]] *)
Definition claims_param (params : Params) : RawMessage := default RawNil (params !! "claims").

Definition checkMemberCase (members : Params) (place : string) (names : list string)
    : result string unit :=
  for_all (λ p, for_all (λ name,
    guard_err (bool_decide (p.1 = name) || negb (bool_decide (fold_key p.1 = fold_key name)))
      (place +:+ " member " +:+ name +:+ " must be spelled in lowercase")) names)
    (map_to_list members).

(** * Validation *)

Definition claims_not_lossless : string :=
  "claims must be valid UTF-8, without unpaired surrogate escapes".

Definition checkPlainClaimsParameter (params : gmap string string) : result string unit :=
  match params !! "claims" with
  | Some v => guard_err (ValidString v) claims_not_lossless
  | None => Ok tt
  end.

Definition claim_request_ok (request : RawMessage) : bool :=
  match request with Raw JNull => true | Raw (JObj _) => true | _ => false end.

Definition validateClaimsLocationValue (member : string) (value : RawMessage)
    : result string unit :=
  match value with
  | Raw (JObj l) =>
    let requests := members_map ∅ l in
    guard_err (negb (bool_decide (maxRequestedClaimsPerLocation < size requests)))
      ("claims." +:+ member +:+ " must not request more than " +:+
       Itoa maxRequestedClaimsPerLocation +:+ " claims") ;;
    for_all (λ p, guard_err (claim_request_ok p.2)
      ("claims." +:+ member +:+ " must map each claim name to null or a JSON object"))
      (map_to_list requests)
  | _ => Err ("claims." +:+ member +:+ " must be a JSON object")
  end.

Definition validateClaimsParameter (params : Params) : result string unit :=
  match params !! "claims" with
  | None => Ok tt
  | Some raw =>
    let object := claimsObject raw in
    guard_err (negb (bool_decide (maxClaimsParameterBytes < co_length object)))
      ("claims must not exceed " +:+ Itoa maxClaimsParameterBytes +:+ " bytes") ;;
    guard_err (decodes_losslessly raw && co_lossless object) claims_not_lossless ;;
    match claimsMembers (co_raw object) with
    | None => Err "claims must be a JSON object"
    | Some top =>
      checkMemberCase top "claims" ["id_token"; "userinfo"] ;;
      for_all (λ member,
        match top !! member with
        | None => Ok tt
        | Some value => if isJSONNull value then Ok tt else validateClaimsLocationValue member value
        end) ["id_token"; "userinfo"]
    end
  end.

(** * The acr the request requires *)

Definition acr_entry : string := "claims: the id_token " +:+ quoted "acr" +:+ " entry".

(** The members of claims.id_token.acr; [None] when it asks for nothing. *)
Definition idTokenACREntry (params : Params) : result string (option Params) :=
  match claimsMembers (claims_param params) ≫= (λ top, claimsLocation top "id_token") with
  | None => Ok None
  | Some idToken =>
    match idToken !! "acr" with
    | None => Ok None
    | Some (Raw JNull) => Ok None
    | Some (Raw (JObj l)) =>
      let entry := members_map ∅ l in
      checkMemberCase entry (acr_entry +:+ "'s") ["essential"; "value"; "values"] ;;
      Ok (Some entry)
    | Some _ => Err (acr_entry +:+ " must be a JSON object or null")
    end
  end.

Definition acrEntryEssential (entry : Params) : result string bool :=
  match entry !! "essential" with
  | None => Ok false
  | Some v =>
    match unmarshal_bool v with
    | Some b => Ok b
    | None => Err (acr_entry +:+ "'s " +:+ quoted "essential" +:+ " must be a boolean")
    end
  end.

(** A member that must be a non-empty string, and one that must be a
    non-empty list of them. *)
Definition nonempty_string (v : RawMessage) : option string :=
  unmarshal_string v ≫= λ s, if bool_decide (s = "") then None else Some s.
Definition unmarshal_strings (v : RawMessage) : option (list string) :=
  unmarshal_slice v ≫= mapM (dec_str "").

Definition acrEntryValues (entry : Params) : result string (list string) :=
  first ← match entry !! "value" with
          | None => Ok []
          | Some v =>
            match nonempty_string v with
            | Some value => Ok [value]
            | None => Err (acr_entry +:+ "'s " +:+ quoted "value" +:+ " must be a non-empty string")
            end
          end;
  rest ← match entry !! "values" with
         | None => Ok []
         | Some v =>
           let err := acr_entry +:+ "'s " +:+ quoted "values" +:+
             " must be a non-empty array of non-empty strings" in
           match unmarshal_strings v with
           | Some l => if bool_decide (l = []) || bool_decide ("" ∈ l) then Err err else Ok l
           | None => Err err
           end
         end;
  let values := first ++ rest in
  guard_err (negb (bool_decide (maxEssentialACRValues < length values)))
    (acr_entry +:+ " must not name more than " +:+ Itoa maxEssentialACRValues +:+ " values") ;;
  Ok values.

Fixpoint dedupe (values seen : list string) : list string :=
  match values with
  | [] => []
  | v :: values => if bool_decide (v ∈ seen) then dedupe values seen else v :: dedupe values (v :: seen)
  end.
Definition dedupeStrings (values : list string) : list string := dedupe values [].

Definition essentialACRValues (params : Params) : result string (list string) :=
  entry ← idTokenACREntry params;
  match entry with
  | None => Ok []
  | Some entry =>
    essential ← acrEntryEssential entry;
    values ← acrEntryValues entry;
    if negb essential || bool_decide (values = []) then Ok [] else Ok (dedupeStrings values)
  end.

Definition meetsEssentialACR (required : list string) (acr : string) : bool :=
  bool_decide (required = []) || bool_decide (acr ∈ required).

(** * The subject the request requires *)

Definition subEntryValue (entry : Params) (prefix : string) : result string string :=
  match entry !! "value" with
  | None => Ok ""
  | Some v =>
    match nonempty_string v with
    | Some value => Ok value
    | None => Err (prefix +:+ " " +:+ quoted "value" +:+ " must be a non-empty string")
    end
  end.

Definition subEntryValues (entry : Params) (prefix : string) : result string string :=
  match entry !! "values" with
  | None => Ok ""
  | Some v =>
    let err := prefix +:+ " " +:+ quoted "values" +:+
      " must be an array of exactly one non-empty string" in
    match unmarshal_strings v with
    | Some [value] => if bool_decide (value = "") then Err err else Ok value
    | _ => Err err
    end
  end.

Definition sub_entry_value (entry : Params) (prefix : string) : result string string :=
  checkMemberCase entry prefix ["essential"; "value"; "values"] ;;
  value ← subEntryValue entry prefix;
  values ← subEntryValues entry prefix;
  if negb (bool_decide (value = "")) && negb (bool_decide (values = "")) &&
     negb (bool_decide (value = values))
  then Err (prefix +:+ " " +:+ quoted "value" +:+ " and " +:+ quoted "values" +:+
            " name different end users")
  else Ok (if negb (bool_decide (value = "")) then value else values).

Definition claimsLocationSubValue (requests : Params) (location : string) : result string string :=
  match requests !! "sub" with
  | None => Ok ""
  | Some (Raw JNull) => Ok ""
  | Some (Raw (JObj l)) =>
    sub_entry_value (members_map ∅ l)
      ("claims: the " +:+ location +:+ " " +:+ quoted "sub" +:+ " entry's")
  | Some _ => Err ("claims: the " +:+ location +:+ " " +:+ quoted "sub" +:+
                   " entry must be a JSON object or null")
  end.

(** The subject so far, and one more location's. *)
Definition join_subjects (subject value : string) : result string string :=
  if bool_decide (value = "") then Ok subject
  else if negb (bool_decide (subject = "")) && negb (bool_decide (value = subject))
  then Err ("claims: the id_token and userinfo " +:+ quoted "sub" +:+ " values differ")
  else Ok value.

Definition claimsSubValue (params : Params) : result string string :=
  match claimsMembers (claims_param params) with
  | None => Ok ""
  | Some top =>
    idToken ← claimsLocationSubValue (default ∅ (claimsLocation top "id_token")) "id_token";
    subject ← join_subjects "" idToken;
    userinfo ← claimsLocationSubValue (default ∅ (claimsLocation top "userinfo")) "userinfo";
    join_subjects subject userinfo
  end.

Definition meetsRequiredSubject (required clientSub : string) : bool :=
  bool_decide (required = "") || bool_decide (clientSub = required).

(** * The claims requested *)

Definition sorted_names (m : Params) : list string := sorted_elements (dom m).

Definition requested_names (params : Params) (location : string) : list string :=
  match claimsMembers (claims_param params) with
  | None => []
  | Some top => sorted_names (default ∅ (claimsLocation top location))
  end.

Record RequestedClaims := {
  rc_IDToken : list string;
  rc_UserInfo : list string }.

Definition requestedClaimsFrom (params : Params) : RequestedClaims :=
  {| rc_IDToken := requested_names params "id_token";
     rc_UserInfo := requested_names params "userinfo" |}.

(** Add the constraint each name's request places, if any. *)
Definition requestedClaimValues (params : Params) (location : string) (names : list string)
    : Acceptable :=
  match claimsMembers (claims_param params) with
  | None => ∅
  | Some top =>
    let requests := default ∅ (claimsLocation top location) in
    foldl (λ (out : Acceptable) name,
      match FromRequest (default RawNil (requests !! name)) with
      | Some acceptable => <[name := acceptable]> out
      | None => out
      end) ∅ names
  end.

(** [None] is an error. *)
Definition approvedClaimNames (params : Params) (approved : list string)
    : option (list string * list string) :=
  let requested := requestedClaimsFrom params in
  if forallb (λ name, bool_decide (name ∈ rc_IDToken requested ++ rc_UserInfo requested)) approved
  then Some (filter (λ n, n ∈ approved) (rc_IDToken requested),
             filter (λ n, n ∈ approved) (rc_UserInfo requested))
  else None.

(** * Laws *)

Lemma approvedClaimNames_requested params approved idToken userinfo :
  approvedClaimNames params approved = Some (idToken, userinfo) →
  idToken ⊆ rc_IDToken (requestedClaimsFrom params) ∧
  userinfo ⊆ rc_UserInfo (requestedClaimsFrom params) ∧
  (∀ n, n ∈ approved → n ∈ idToken ∨ n ∈ userinfo) ∧ idToken ⊆ approved ∧ userinfo ⊆ approved.
Proof.
  unfold approvedClaimNames. destruct (forallb _ _) eqn:Hf; [|done]. intros [= <- <-].
  assert (∀ n, n ∈ approved →
    n ∈ rc_IDToken (requestedClaimsFrom params) ++ rc_UserInfo (requestedClaimsFrom params)) as Hall.
  { intros n Hn. rewrite forallb_forall in Hf. apply list_elem_of_In in Hn.
    by apply (bool_decide_eq_true _), Hf. }
  split_and!; intros n Hn; rewrite ?list_elem_of_filter in *; try naive_solver.
  apply Hall in Hn as Hr. rewrite elem_of_app in Hr. naive_solver.
Qed.
End claims.

(** * A claims parameter encoded twice *)

Section twice.
Context `{Platform}.

(** The parameter is validated as one thing and read as another. A string
    that holds the text of a string that holds a claims object passes
    validation when the object does (and the outer text is short enough and
    lossless): validation takes both encodings away. Every reader takes one
    away, and finds no object: no acr is required, no user is, and no claim is
    requested, whatever the validated object asks for. *)
Theorem doubly_encoded_claims_ignored params text inner l :
  params !! "claims" = Some (Raw (JStr text)) →
  json_text (TrimSpace text) = Raw (JStr inner) → json_text (TrimSpace inner) = Raw (JObj l) →
  String.length (TrimSpace text) ≤ maxClaimsParameterBytes →
  decodes_losslessly (Raw (JStr text)) = true → DecodesLosslessly (TrimSpace text) = true →
  validateClaimsParameter {["claims" := Raw (JStr inner)]} = Ok tt →
  validateClaimsParameter params = Ok tt ∧
  claimsMembers (claims_param {["claims" := Raw (JStr inner)]}) = Some (members_map ∅ l) ∧
  essentialACRValues params = Ok [] ∧ claimsSubValue params = Ok "" ∧
  requestedClaimsFrom params = {| rc_IDToken := []; rc_UserInfo := [] |}.
Proof.
  intros Hp Htext Hinner Hlen Hl1 Hl2 Hval.
  assert (Hnone : claimsMembers (claims_param params) = None).
  { unfold claims_param, claimsMembers. rewrite Hp. simpl. by rewrite Htext. }
  assert (Hsome : claimsMembers (Raw (JStr inner)) = Some (members_map ∅ l)).
  { unfold claimsMembers. simpl. by rewrite Hinner. }
  split_and!.
  - unfold validateClaimsParameter in *. rewrite Hp. rewrite lookup_singleton_eq in Hval.
    apply bind_Ok in Hval as ([] & _ & Hval). apply bind_Ok in Hval as ([] & _ & Hval).
    cbn [claimsObject co_raw co_length co_lossless] in Hval |- *.
    rewrite bool_decide_false by lia. rewrite Hl1, Hl2, Htext. cbn [negb guard_err andb rbind].
    rewrite Hsome. rewrite Hinner in Hval.
    change (claimsMembers (Raw (JObj l))) with (Some (members_map ∅ l)) in Hval. exact Hval.
  - unfold claims_param. by rewrite lookup_singleton_eq.
  - unfold essentialACRValues, idTokenACREntry. by rewrite Hnone.
  - unfold claimsSubValue. by rewrite Hnone.
  - unfold requestedClaimsFrom, requested_names. by rewrite Hnone.
Qed.
End twice.
