(* ===== verification/Subjects.v ===== *)
(** The sub a client is given for an end user, and the way back: pairwise
    inputs and bodies (src/pairwise/pairwise.go), subject identifiers
    (src/server/subject.go), and src/server/client_subject.go, with the
    subject a request requires (requiredSubject of
    src/server/requested_subject.go).

    The class FrontServer is what the authorization endpoint and the pushed
    authorization request endpoint call beyond the class Server: the pairwise
    deriver and resolver, the verification of an ID token hint, the policy on
    requested authorization_details, and the signing of a JARM response. *)
From S2P Require Import Prelude GoStrings Json GoTime Effects Storage Platform JsonCodec.
From S2P Require Import ServerTypes Rar Records Dpop Jose Canonical Extensions.
From S2P Require Import Attestation ClientAuth.
From S2P Require Import ServerState TokenChecks Parameters ClaimsParameter.
From stdpp Require Import options.

(** * Pairwise subjects *)

Definition MaxPrefixLength : nat := 16.
Definition MaxBodyLength : nat := 255 - MaxPrefixLength.
Definition MaxInputLength : nat := 2048.

Fixpoint all_bytes (ok : N → bool) (s : string) : bool :=
  match s with EmptyString => true | String c s => ok (byte_code c) && all_bytes ok s end.

(** firstNonGraphic(s) < 0 *)
Definition graphic (s : string) : bool := all_bytes (λ c, (33 <=? c) && (c <=? 126))%N s.

Definition CheckBody (body : string) : bool :=
  negb (bool_decide (body = "")) && bool_decide (String.length body ≤ MaxBodyLength) && graphic body.

(** NewPrefix: [None] is an error. *)
Definition NewPrefix (s : string) : option string :=
  if bool_decide (String.length s ≤ MaxPrefixLength) && graphic s then Some s else None.

(** Whether no rune of a valid UTF-8 string is a control character: 0 to 31,
    127, and 128 to 159, which are the byte 194 and one of 128 to 159. *)
Fixpoint no_control (s : string) : bool :=
  match s with
  | EmptyString => true
  | String c s' =>
    let n := byte_code c in
    negb ((n <? 32) || (n =? 127))%N &&
    negb ((n =? 194)%N &&
          match s' with String d _ => (byte_code d <? 160)%N | EmptyString => false end) &&
    no_control s'
  end.

Definition checkText (s : string) : bool :=
  negb (bool_decide (s = "")) && bool_decide (String.length s ≤ MaxInputLength) &&
  ValidString s && no_control s.

(** Printable ASCII, from 0x20. *)
Definition printable (s : string) : bool := all_bytes (λ c, (32 <=? c) && (c <=? 126))%N s.

Definition maxSubjectIDLength : nat := 255.

Record Input := { in_issuer : string; in_sector : string; in_subject : string }.

Definition NewInput (issuer sector subject : string) : option Input :=
  if checkText issuer && checkText sector &&
     negb (bool_decide (subject = "")) && bool_decide (String.length subject ≤ maxSubjectIDLength) &&
     printable subject
  then Some {| in_issuer := issuer; in_sector := sector; in_subject := subject |}
  else None.

(** NewSubjectID: [None] is an error. *)
Definition NewSubjectID (value : string) : option string :=
  if negb (bool_decide (value = "")) && bool_decide (String.length value ≤ maxSubjectIDLength) &&
     printable value
  then Some value else None.

Inductive derive_error := ErrSubjectTooLong | DeriveFailed.
Inductive lookup_error := ErrSubjectNotFound | LookupFailed.

(** pairwise.Deriver, with its pairwise.Lookup when it is one. *)
Record Deriver (Env : Type) := {
  DerivePairwiseSubject : Input → eff Env derive_error string;
  LookupInternalSubject : option (string → string → string → eff Env lookup_error string) }.
Arguments DerivePairwiseSubject {Env}. Arguments LookupInternalSubject {Env}.

Class FrontServer {S : Server} := {
  PairwiseSubjects : option (Deriver Env);
  PairwiseSubjectResolver : option (string → string → string → eff Env lookup_error string);
  verifyIDTokenHint : string → ClientID → eff Env Error string;
  AuthorizationCodeRARPolicy :
    option (ClientID → list RawMessage → eff Env env_error (list RawMessage));
  (* newSigner for JARM responses, and jose.Sign of the claims *)
  newJARMSigner : eff Env env_error string;
  jarm_Sign : string → gmap string RawMessage → eff Env env_error string }.

Section subjects.
Context `{FrontServer}.

Definition server_error (desc : string) : Error := newError ErrorServerError 500 desc.

Definition subjectTypeFor (client : RegisteredClient) : result Error SubjectType :=
  let subjects := effectiveSubjects cfg in
  let typ := if bool_decide (subjectType client = SubjectTypeUnset) then Default subjects
             else subjectType client in
  guard_err (negb (bool_decide (Enforcement subjects = SubjectTypesPairwiseOnly) &&
                   negb (bool_decide (typ = SubjectTypePairwise))))
    (server_error
      "the client is registered for public subjects, but this server issues only pairwise subjects") ;;
  Ok typ.

Definition no_deriver : Error :=
  server_error "the client is registered for pairwise subjects, but dependencies.pairwise_subjects is nil".

Definition checkClientSubjectIssuable (client : RegisteredClient) : result Error unit :=
  typ ← subjectTypeFor client;
  if negb (bool_decide (typ = SubjectTypePairwise)) then Ok tt
  else
    guard_err (is_Some_bool PairwiseSubjects) no_deriver ;;
    guard_err (negb (bool_decide (sector client = "")))
      (server_error
        "the client gets pairwise subjects but has no sector to derive them for (set its Sector)").

(** effectiveSubjects(s.cfg).Prefix.String() *)
Definition subject_prefix : string := default "" (Prefix (effectiveSubjects cfg)).

(** The sub, and the sector it is pairwise for (empty for a public sub). *)
Definition clientSubjectFor (client : RegisteredClient) (internal : string)
    : srv (string * string) :=
  let* typ := lift (subjectTypeFor client) in
  if negb (bool_decide (typ = SubjectTypePairwise)) then ret (internal, "")
  else
    match PairwiseSubjects with
    | None => fail no_deriver
    | Some deriver =>
      match NewInput (cfg_Issuer cfg) (sector client) internal with
      | None => fail (server_error
          "the client's pairwise subject can't be derived (does it have a sector?)")
      | Some input =>
        let* body := map_err (λ err, match err with
            | ErrSubjectTooLong => server_error ("the end user's internal subject is longer than " +:+
                "the reversible pairwise deriver's 151-byte limit (pairwise.MaxReversibleSubjectLength)")
            | DeriveFailed => server_error "failed to derive the client's pairwise subject"
            end) (on_env (DerivePairwiseSubject deriver input)) in
        do* lift (guard_err (CheckBody body)
          (server_error "failed to derive the client's pairwise subject")) in
        match NewSubjectID (subject_prefix +:+ body) with
        | None => fail (server_error "the derived pairwise subject isn't a usable sub")
        | Some sub => ret (sub, sector client)
        end
      end
    end.

Definition not_issued : Error := newError ErrorInvalidRequest 400
  "the sub isn't a pairwise subject this server issued to the client".

(** [None] is ErrNoPairwiseSubjectLookup. *)
Definition internalSubjectFor (client : RegisteredClient) (sub : string) : srv (option string) :=
  let* typ := lift (subjectTypeFor client) in
  if negb (bool_decide (typ = SubjectTypePairwise)) then ret (Some sub)
  else
    let canLookUp := PairwiseSubjects ≫= LookupInternalSubject in
    match canLookUp, PairwiseSubjectResolver with
    | None, None => ret None
    | lookup, resolver =>
      match CutPrefix sub subject_prefix with
      | None => fail not_issued
      | Some body =>
        do* lift (guard_err (CheckBody body) not_issued) in
        let* internal := map_err (λ err, match err with
            | ErrSubjectNotFound => not_issued
            | LookupFailed => server_error "failed to look up the client's pairwise subject"
            end) (on_env (match lookup, resolver with
                          | Some lookup, _ => lookup (cfg_Issuer cfg) (sector client) body
                          | None, Some resolve => resolve (cfg_Issuer cfg) (sector client) sub
                          | None, None => fail LookupFailed
                          end)) in
        ret (Some internal)
      end
    end.

Definition distinctClientSubject (clientSub internal : string) : string :=
  if bool_decide (clientSub = internal) then "" else clientSub.

(** The internal subject when it differs, and whether it can't be mapped. *)
Definition requiredInternalSubject (client : RegisteredClient) (required : string)
    : srv (string * bool) :=
  if bool_decide (required = "") then ret ("", false)
  else
    let* mapped := internalSubjectFor client required in
    match mapped with
    | None => ret ("", true)
    | Some internal => ret (distinctClientSubject internal required, false)
    end.

Definition pairwisePrefixOf (sector : string) : string :=
  if bool_decide (sector = "") then "" else subject_prefix.

(** * The subject a request requires *)

Definition requestError (code : ErrorCode) (text : string) : Error := newError code 400 text.

Definition of_check {A} (code : ErrorCode) (r : result string A) : result Error A :=
  match r with Ok a => Ok a | Err text => Err (requestError code text) end.

Definition requiredSubject (params : Params) (clientID : ClientID) : srv string :=
  let* claimed := lift (of_check ErrorInvalidRequest (claimsSubValue params)) in
  match params !! "id_token_hint" with
  | None => ret claimed
  | Some raw =>
    let hint := default "" (jsonStringValue raw) in
    do* check (negb (bool_decide (hint = ""))) ErrorInvalidRequest 400
      "id_token_hint must be a non-empty string" in
    let* subject := on_env (verifyIDTokenHint hint clientID) in
    do* check (bool_decide (claimed = "") || bool_decide (claimed = subject)) ErrorInvalidRequest 400
      "id_token_hint and the claims parameter's sub value name different end users" in
    ret subject
  end.
End subjects.
