(* ===== verification/Par.v ===== *)
(** Pushed authorization requests (RFC 9126): PushAuthorizationRequest of
    src/server/par.go with everything it calls there, the request URIs of
    src/internal/par/requesturi.go, the store's keys
    (src/server/transaction_keys.go), the policy on requested
    authorization_details (applyRARPolicy of src/server/rar.go) and the
    resources a request object names (src/server/resource_indicators.go). *)
From S2P Require Import Prelude GoStrings Json GoTime Sha256 Base64 Platform JsonCodec.
From S2P Require Import Pkce Digests.
From S2P Require Import Effects Storage ServerTypes Rar Nonce Records Claims Dpop.
From S2P Require Import Canonical.
From S2P Require Import Jose.
From S2P Require Import Extensions RequestObject Attestation ClientAuth ServerState.
From S2P Require Import TokenChecks Issue.
From S2P Require Import Parameters ClaimsParameter Subjects.
From stdpp Require Import options.

(** * Keys and request URIs *)

Definition parReferenceKeyPrefix : string := "fapigo pushed authorization request" +:+ String "000" "".
Definition interactionHandleKeyPrefix : string := "fapigo interaction handle" +:+ String "000" "".

(** What the reference key hashes, unambiguous in its two parts. *)
Definition reference_input (clientID : ClientID) (reference : string) : string :=
  parReferenceKeyPrefix +:+ Itoa (String.length clientID) +:+ ":" +:+ clientID +:+ reference.

Definition parReferenceKey (clientID : ClientID) (reference : string) : string :=
  EncodeToString rawURL (sha256 (reference_input clientID reference)).

Definition interactionHandleKey (handle : string) : string :=
  EncodeToString rawURL (sha256 (interactionHandleKeyPrefix +:+ handle)).

Definition RequestURIPrefix : string := "urn:ietf:params:oauth:request_uri:".
Definition referenceSize : nat := 32.

Definition SplitRequestURI (requestURI : string) : option string :=
  match CutPrefix requestURI RequestURIPrefix with
  | Some reference => if bool_decide (reference = "") then None else Some reference
  | None => None
  end.

Definition coreAuthorizationParameters : list string :=
  ["response_type"; "client_id"; "redirect_uri"; "scope"; "state"; "nonce"; "code_challenge";
   "code_challenge_method"; "login_hint"; "id_token_hint"; "dpop_jkt"; "claims"; "prompt";
   "authorization_details"; "response_mode"; "acr_values"; "max_age"; "ui_locales";
   "claims_locales"; "display"].

Record PushAuthorizationResult := {
  RequestURI : string;
  par_ExpiresIn : Duration;
  par_NextDPoPNonce : string }.

Section par.
Context `{FrontServer}.

(** GenerateRequestURI *)
Definition GenerateRequestURI : srv string :=
  let* reference := on_random (map_err
    (λ _, newError ErrorServerError 500 "failed to generate request_uri") (draw referenceSize)) in
  ret (RequestURIPrefix +:+ reference).

(** * Plain parameters *)

Definition plainParamsToJSON (params : gmap string string) : Params :=
  map_imap (λ k v,
    if bool_decide (k ∈ ["client_assertion"; "client_assertion_type"; "request"]) then None
    else if bool_decide (k = authorizationDetailsParameter) then Some (json_text v)
    else Some (marshal_string v)) params.

(** * authorization_details *)

(** [None] is an error; RawNil when none were requested. *)
Definition parseRequestedAuthorizationDetails (params : Params) : option RawMessage :=
  match params !! authorizationDetailsParameter with
  | None => Some RawNil
  | Some raw =>
    match cfg_RAR cfg with
    | None => None
    | Some registry =>
      match ParseRequest registry raw with
      | Ok _ => Some raw
      | Err _ => None
      end
    end
  end.

(** applyRARPolicy of a request that has authorization_details. *)
Definition applyRARPolicy (client : RegisteredClient)
    (policy : option (ClientID → list RawMessage → eff Env env_error (list RawMessage)))
    (requested : RawMessage) : eff World env_error RawMessage :=
  match policy with
  | None => fail EnvFailed
  | Some authorize =>
    match unmarshal_slice requested with
    | None => fail EnvFailed
    | Some objects =>
      let requestedObjects := Raw <$> objects in
      do* lift (guard_err (checkAuthorizationDetailsTypes client requestedObjects) EnvFailed) in
      let* granted := on_env (authorize (client_id client) requestedObjects) in
      do* lift (guard_err (negb (bool_decide (granted = []))) EnvFailed) in
      match validateGrantedAuthorizationDetails requested granted with
      | Some validated => ret validated
      | None => fail EnvFailed
      end
    end
  end.

(** The registered parameters and the authorization_details of a request,
    whose own parameters are [core]: the body checkExtensions and
    checkBackchannelExtensions share. *)
Definition checked_extensions (core : list string)
    (policy : option (ClientID → list RawMessage → eff Env env_error (list RawMessage)))
    (invalid : Error) (client : RegisteredClient) (params : Params) (source : SourceMask)
    : srv (Params * Params) :=
  match Registry_Parse (cfg_Extensions cfg) params core source with
  | None => fail invalid
  | Some (values, params) =>
    match parseRequestedAuthorizationDetails params with
    | None => fail (newError ErrorInvalidAuthorizationDetails 400 "authorization_details is invalid")
    | Some requested =>
      let* params := (if raw_empty requested then ret params
        else
          let* granted := map_err (λ _, newError ErrorInvalidAuthorizationDetails 400
              "authorization_details is not permitted for this client")
            (applyRARPolicy client policy requested) in
          ret (<[authorizationDetailsParameter := granted]> params)) in
      ret (params, AsParameters (cfg_Extensions cfg) values)
    end
  end.

Definition checkExtensions (client : RegisteredClient) (params : Params) (source : SourceMask)
    : srv (Params * Params) :=
  checked_extensions coreAuthorizationParameters AuthorizationCodeRARPolicy
    (newError (if bool_decide (source = SourceRequestObject) then ErrorInvalidRequestObject
               else ErrorInvalidRequest) 400 "request contains an invalid parameter")
    client params source.

Definition resolvePlainAuthorizationParameters (params : gmap string string)
    (client : RegisteredClient) : srv (Params * Params) :=
  do* check (negb (bool_decide (cfg_Profile cfg = ProfileFAPISecurityWithMessageSigning)))
    ErrorInvalidRequest 400 "a signed request object is required" in
  do* lift (of_check ErrorInvalidRequest (checkPlainClaimsParameter params)) in
  checkExtensions client (plainParamsToJSON params) SourcePlainParameter.

(** * Request objects *)

Definition resourcesFromParameters (params : Params) : result Error (list string) :=
  if negb resourceIndicatorsEnabled then Ok []
  else
    match params !! resourceParameter with
    | None => Ok []
    | Some raw =>
      guard_err (decodes_losslessly raw) (newError ErrorInvalidTarget 400
        "resource must be valid UTF-8, without unpaired surrogate escapes") ;;
      match unmarshal_string raw with
      | Some one => Ok [one]
      | None =>
        let err := newError ErrorInvalidTarget 400
          "resource must be a string or a non-empty array of strings" in
        match unmarshal_strings raw with
        | Some [] => Err err
        | Some many => Ok many
        | None => Err err
        end
      end
    end.

Definition request_object_policy (client : RegisteredClient) (alg : SignatureAlgorithm)
    (now : Time) : Objects.VerifyPolicy Env := {|
  Objects.ExpectedClientID := client_id client; Objects.ExpectedAudience := cfg_Issuer cfg;
  Objects.Algorithm := alg; Objects.Policy_Now := now;
  Objects.MaxLifetime := MaxRequestObjectLifetime (cfg_Limits cfg);
  Objects.Policy_MaxClockSkew := MaxClockSkew (cfg_Limits cfg);
  Objects.RequireNotBefore := bool_decide (cfg_Profile cfg = ProfileFAPISecurityWithMessageSigning);
  Objects.RequireIssuedAt := false;
  Objects.Replay := Some (clientSignedJWTReplayChecker (client_id client));
  Objects.RequireJTI := false;
  Objects.AutomaticFederationRegistration := automaticFederationRegistration client |}.

Definition invalid_object (desc : string) : Error := newError ErrorInvalidRequestObject 400 desc.

Definition verifiedObject (client : RegisteredClient) (alg : SignatureAlgorithm)
    (requestParam : string) : srv Objects.VerifiedObject :=
  match Objects.Parse requestParam with
  | None => fail (invalid_object "malformed request object")
  | Some obj =>
    let* candidates := map_err (λ _, invalid_object "no matching client key")
      (on_env (resolveClientKeys (client_id client) RequestObjectVerification alg
         (Objects.KeyID obj))) in
    let* now := Now in
    map_err (λ _, invalid_object "request object verification failed")
      (on_env (verifyWithCandidates Objects.is_signature_error Objects.ErrNoCandidate candidates
        (λ pub, Objects.Verify (request_object_policy client alg now) obj pub)))
  end.

(** The request's parameters, the token claims its extensions add, and the
    resources it names. *)
Definition resolveAuthorizationParameters (params : gmap string string)
    (formResources : list string) (client : RegisteredClient)
    : srv (Params * Params * list string) :=
  do* check (negb (is_Some_bool (params !! "request_uri"))) ErrorInvalidRequest 400
    "request_uri must not be present" in
  match params !! "request" with
  | None =>
    let* plain := resolvePlainAuthorizationParameters params client in
    ret (plain, formResources)
  | Some requestParam =>
    let '(alg, permitted) := RequestObjectAlgorithm client in
    do* lift (guard_err permitted
      (invalid_object "client is not permitted to submit request objects")) in
    do* lift (guard_err (bool_decide (alg ∈ RequestObjectAlgorithms cfg))
      (invalid_object "request object algorithm is not permitted")) in
    let* verified := verifiedObject client alg requestParam in
    let object := Objects.vo_Parameters verified in
    do* lift (guard_err (negb (is_Some_bool (object !! "request_uri")))
      (invalid_object "request object must not contain request_uri")) in
    do* lift (guard_err (is_Some_bool (object !! "client_id") ||
                         negb (automaticFederationRegistration client))
      (invalid_object "request object must contain client_id")) in
    do* lift (of_check ErrorInvalidRequestObject
      (checkParameterTypes object authorizationParameterTypes)) in
    let* resources := lift (resourcesFromParameters object) in
    let* checked := checkExtensions client object SourceRequestObject in
    ret (checked, resources)
  end.

(** * Validation *)

Definition invalid_request (desc : string) : Error := newError ErrorInvalidRequest 400 desc.

Definition checkResponseMode (params : Params) : result Error unit :=
  match params !! "response_mode" with
  | None => Ok tt
  | Some raw =>
    match jsonStringValue raw with
    | None => Err (invalid_request "response_mode must be a string")
    | Some mode =>
      if bool_decide (cfg_Profile cfg = ProfileFAPISecurityWithMessageSigning)
      then guard_err (bool_decide (mode = "jwt") || bool_decide (mode = "query.jwt"))
        (invalid_request ("response_mode must be " +:+ quoted "jwt"))
      else guard_err (bool_decide (mode = "query"))
        (invalid_request ("response_mode must be " +:+ quoted "query"))
    end
  end.

Definition validateScope (scope : string) (client : RegisteredClient) : bool :=
  forallb (clientAllowsScope client) (fields scope).

Definition parseRedirectURI (client : RegisteredClient) (raw : string) : option ParsedURL :=
  if bool_decide (applicationType client = ApplicationTypeNative)
  then ParseRedirectURL raw native_options
  else if bool_decide (cfg_Assurance cfg = AssuranceProduction)
  then ParseRedirectURL raw no_options
  else ParseRedirectURL raw loopback_option.

(** [if err != nil { return newError(ErrorInvalidRequest, 400, desc) }] *)
Definition or_invalid {E A} (desc : string) (r : result E A) : result Error A :=
  match r with Ok a => Ok a | Err _ => Err (invalid_request desc) end.
Definition some_or_invalid {A} (desc : string) (o : option A) : result Error A :=
  match o with Some a => Ok a | None => Err (invalid_request desc) end.

Definition check_scope_parameter (params : Params) (client : RegisteredClient) : result Error unit :=
  match params !! "scope" with
  | None => Ok tt
  | Some raw =>
    scope ← some_or_invalid "scope must be a string" (jsonStringValue raw);
    guard_err (validateScope scope client)
      (newError ErrorInvalidScope 400 "scope is not valid for this client")
  end.

Definition validateAuthorizationParameters (params : Params) (client : RegisteredClient)
    : result Error Params :=
  guard_err (AllowsAuthorizationCodeGrant client) (newError ErrorUnauthorizedClient 400
    "the client is not registered for the authorization code grant") ;;
  of_check ErrorInvalidRequest (checkAuthorizationParameterSizes params client) ;;
  let params := boundPresentationPreferences params in
  checkResponseMode params ;;
  let responseType := default "" (jsonString params "response_type") in
  guard_err (negb (bool_decide (responseType = ""))) (invalid_request "response_type is required") ;;
  guard_err (bool_decide (responseType = "code")) (newError ErrorUnsupportedResponseType 400
    ("response_type must be " +:+ quoted "code")) ;;
  redirectURI ← some_or_invalid "redirect_uri is required" (jsonString params "redirect_uri");
  guard_err (HasRedirectURI client redirectURI)
    (invalid_request "redirect_uri is not registered for this client") ;;
  some_or_invalid "redirect_uri is not an acceptable redirect destination"
    (parseRedirectURI client redirectURI) ;;
  codeChallenge ← some_or_invalid "code_challenge is required" (jsonString params "code_challenge");
  guard_err (negb (bool_decide (codeChallenge = "")))
    (invalid_request "code_challenge must not be empty") ;;
  method ← some_or_invalid "code_challenge_method is required"
    (jsonString params "code_challenge_method");
  or_invalid "code_challenge_method must be S256" (ParseMethod method) ;;
  or_invalid "max_age must be a non-negative whole number of seconds" (requestedMaxAge params) ;;
  of_check ErrorInvalidRequest (requestedPrompt params) ;;
  of_check ErrorInvalidRequest (validateClaimsParameter params) ;;
  of_check ErrorInvalidRequest (essentialACRValues params) ;;
  check_scope_parameter params client ;;
  Ok params.

(** The parameters and the resources. *)
Definition validateAuthorizationRequest (params : Params) (requestedResources : list string)
    (client : RegisteredClient) : srv (Params * list string) :=
  let* validated := lift (validateAuthorizationParameters params client) in
  let* resources := checkRequestedResources client requestedResources in
  ret (validated, resources).

(** * The DPoP key *)

Definition reconcileParDPoPBinding (proof : string) (params : Params) : srv Params :=
  if bool_decide (proof = "") then ret params
  else
    let* now := Now in
    let* verified := map_err
      (λ _, newError ErrorInvalidDPoPProof 400 "DPoP proof verification failed")
      (verifyDPoPAtEitherEndpoint (token_request_proof proof now)
         (PushedAuthorizationRequestEndpoint cfg) (MTLSPushedAuthorizationRequestEndpoint cfg)) in
    do* (if has_nonces then let* now := Now in checkDPoPNonce (vp_Nonce verified) now
         else ret tt) in
    let thumbprint := vp_Thumbprint verified in
    let declared := default "" (jsonString params "dpop_jkt") in
    if negb (bool_decide (declared = "")) then
      do* check (bool_decide (declared = thumbprint)) ErrorInvalidRequest 400
        "dpop_jkt does not match the DPoP proof presented to the pushed authorization request endpoint" in
      ret params
    else ret (<["dpop_jkt" := marshal_string thumbprint]> params).

(** * The endpoint *)

Abbreviation fails := (or_fail AuditEventPushAuthorizationRequest).

Definition pushed_record (params tokenClaims : Params) (source : SourceMask) (pushedAt : Time)
    (requiredSubject requiredInternal : string) (resources : list string) (instanceKey : string)
    : requestRecord := {|
  rq_Version := 0; rq_Issuer := ""; rq_Parameters := params; rq_TokenClaims := tokenClaims;
  rq_DPoPJKT := ""; rq_ExtensionSource := Z.of_N source; rq_ExpiresAt := None;
  rq_PushedAt := Some pushedAt;
  rq_EssentialACRValues := match essentialACRValues params with Ok l => l | Err _ => [] end;
  rq_RequiredSubject := requiredSubject; rq_RequiredInternalSubject := requiredInternal;
  rq_Resources := resources; rq_ClientInstanceKey := instanceKey |}.

(** The parameters to push, and what is recorded with them. *)
Definition pushed_parameters (client : RegisteredClient) (params : gmap string string)
    (formResources : list string) (dpopProof : string)
    : srv (Params * Params * list string * string * string) :=
  do* lift (checkClientSubjectIssuable client) in
  let* resolved := resolveAuthorizationParameters params formResources client in
  let '(authParams, tokenClaims, requestedResources) := resolved in
  let* checked := validateAuthorizationRequest authParams requestedResources client in
  let '(validated, resources) := checked in
  let* required := requiredSubject validated (client_id client) in
  let* internal := requiredInternalSubject client required in
  let* validated := reconcileParDPoPBinding dpopProof validated in
  ret (validated, tokenClaims, resources, required, internal.1).

Definition store_pushed (client : RegisteredClient) (requestURI : string) (record : requestRecord)
    (expiresAt : Time) : srv unit :=
  match encodeRequestRecord (cfg_Issuer cfg) record with
  | None => fail (server_error "failed to encode pushed authorization request")
  | Some request =>
    map_err (λ _, server_error "failed to persist pushed authorization request")
      (on_transactions (CreatePAR {|
        par_Reference := parReferenceKey (client_id client)
          (default "" (SplitRequestURI requestURI));
        par_ClientID := client_id client; par_Request := request; par_ExpiresAt := expiresAt |}))
  end.

(** What follows the client's authentication. *)
Definition push (client : RegisteredClient) (params : gmap string string)
    (formResources : list string) (dpopProof instanceKey : string) : srv PushAuthorizationResult :=
  let* pushed := pushed_parameters client params formResources dpopProof in
  let '(validated, tokenClaims, resources, required, internal) := pushed in
  let* requestURI := GenerateRequestURI in
  let* now := Now in
  let source := if is_Some_bool (params !! "request") then SourceRequestObject
                else SourcePlainParameter in
  do* store_pushed client requestURI
    (pushed_record validated tokenClaims source now required internal resources instanceKey)
    (Add now (PushedRequestLifetime (cfg_Limits cfg))) in
  let* nextNonce := (if has_nonces then
      map_err (λ _, server_error "failed to issue dpop nonce") (issueDPoPNonce now)
    else ret "") in
  ret {| RequestURI := requestURI; par_ExpiresIn := PushedRequestLifetime (cfg_Limits cfg);
         par_NextDPoPNonce := nextNonce |}.

Definition PushAuthorizationRequest (req : TokenRequest) : srv PushAuthorizationResult :=
  let '(formParams, formResources) := takeResourceParameters (Parameters req) in
  let* params := fails "" (parseForm formParams) in
  let* authenticated := fails "" (authenticateRequest params (credentials req) [] []) in
  let '(client, dpopProof, instanceKey) := authenticated in
  let* result := fails (client_id client)
    (push client params formResources dpopProof instanceKey) in
  do* audit AuditEventPushAuthorizationRequest (client_id client) AuditOutcomeSuccess "" in
  ret result.
End par.
