(* ===== verification/Authorization.v ===== *)
(** The authorization endpoint's first half: BeginAuthorization
    (src/server/authorization.go), the bound on how often a request_uri
    begins an interaction (src/server/interaction_slots.go), and what an
    interaction shows (src/server/interaction.go).

    The client's display details, which only the application's pages read,
    are left out of an interaction. *)
From S2P Require Import Prelude GoStrings Json GoTime Pkce Digests Platform JsonCodec.
From S2P Require Import Effects.
From S2P Require Import Storage ServerTypes Rar Nonce Records Claims Dpop Jose Canonical.

From S2P Require Import Extensions Attestation ClientAuth ServerState TokenChecks.
From S2P Require Import Parameters.
From S2P Require Import ClaimsParameter Subjects Par.
From stdpp Require Import options.

(** * Interactions *)

Definition interactionHandleSize : nat := 32.

Record InteractionRequest := {
  ir_ClientID : ClientID;
  ir_Scope : list string;
  ir_LoginHint : string;
  ir_ACRValues : list string;
  ir_EssentialACRValues : list string;
  ir_RequiredSubject : string;
  ir_MaxAge : option Duration;
  ir_Prompt : list string;
  ir_UILocales : list string;
  ir_ClaimsLocales : list string;
  ir_Display : string;
  ir_RedirectURI : option ParsedURL;
  ir_AuthorizationDetails : RARValues;
  ir_Resources : list string;
  ir_RequestedClaims : RequestedClaims;
  ir_Extensions : Values }.

Record BeginAuthorizationRequest := {
  bar_RequestURI : string;
  bar_ClientID : ClientID;
  bar_Request : string }.

(** AuthorizationAction; BeginAuthorization makes no RedirectResponse. *)
Inductive AuthorizationAction :=
| InteractionRequired (handle : string) (interaction : InteractionRequest) (expiresAt : Time)
| LocalErrorResponse (e : Error).

(** [.., _ := f(..)] *)
Definition or_zero {E A} (zero : A) (r : result E A) : A :=
  match r with Ok a => a | Err _ => zero end.

Definition clientStoreUnavailable (err : store_error) : bool :=
  match err with StoreUnavailable => true | _ => false end.

(** * Slots *)

Definition maxInteractionsPerRequestURI : nat := 8.
Definition interactionSlotReplayNamespace : string := "server:authorization-interaction".

Definition slot_use (referenceKey : string) (expiresAt : Time) (slot : nat) : ReplayUse :=
  {| ru_Namespace := interactionSlotReplayNamespace;
     ru_Digest := Digest referenceKey (Itoa slot); ru_ExpiresAt := expiresAt |}.

Definition too_many_interactions : Error :=
  newError ErrorInvalidRequestURI 400 "request_uri has begun too many interactions".

(** The loop of claimInteractionSlot over the slots still to try. *)
Fixpoint claim_slots {R} `{ReplayStore R} (referenceKey : string) (expiresAt : Time)
    (slots : list nat) : eff R Error unit :=
  match slots with
  | [] => fail too_many_interactions
  | slot :: slots =>
    let* r := try (UseOnce (slot_use referenceKey expiresAt slot)) in
    match r with
    | Ok _ => ret tt
    | Err err =>
      if clientStoreUnavailable err
      then fail (newError ErrorServerError 500 "failed to record the interaction")
      else claim_slots referenceKey expiresAt slots
    end
  end.

Section authorization.
Context `{FrontServer}.

Definition claimInteractionSlot (referenceKey : string) (now : Time) : srv unit :=
  let expiresAt := Add now (PushedRequestLifetime (cfg_Limits cfg) +
                            2 * MaxClockSkew (cfg_Limits cfg)) in
  on_env (claim_slots referenceKey expiresAt (seq 0 maxInteractionsPerRequestURI)).

(** * What an interaction shows *)

Definition rarValuesFromStoredParameters (params : Params) : RARValues :=
  match cfg_RAR cfg, params !! authorizationDetailsParameter with
  | Some registry, Some raw => or_zero ∅ (Parse registry raw)
  | _, _ => ∅
  end.

(** [None] is an error. *)
Definition interactionExtensions (params : Params) (core : list string) (source : SourceMask)
    : option Values :=
  if bool_decide (source = 0%N) then Some ∅
  else fst <$> Registry_Parse (cfg_Extensions cfg) params core source.

Definition interactionRequestFrom (clientID : ClientID) (params : Params)
    (requiredSubject : string) (resources : list string) (extensions : Values)
    : InteractionRequest := {|
  ir_ClientID := clientID;
  ir_Scope := fields (default "" (jsonString params "scope"));
  ir_LoginHint := default "" (jsonString params "login_hint");
  ir_ACRValues := requestedACRValues params;
  ir_EssentialACRValues := or_zero [] (essentialACRValues params);
  ir_RequiredSubject := requiredSubject;
  ir_MaxAge := or_zero None (requestedMaxAge params);
  ir_Prompt := or_zero [] (requestedPrompt params);
  ir_UILocales := requestedLocales params "ui_locales";
  ir_ClaimsLocales := requestedLocales params "claims_locales";
  ir_Display := requestedDisplay params;
  ir_RedirectURI := jsonString params "redirect_uri" ≫= λ raw, ParseRedirectURL raw native_options;
  ir_AuthorizationDetails := rarValuesFromStoredParameters params;
  ir_Resources := resources;
  ir_RequestedClaims := requestedClaimsFrom params;
  ir_Extensions := extensions |}.

(** * BeginAuthorization *)

(** Every failure ends the call with a local error, audited:
    [return s.beginFail(ctx, client, err), nil]. *)
Definition or_local {A R} (typ : AuditEventType) (client : ClientID) (local : Error → R)
    (m : srv A) (k : A → srv R) : srv R :=
  let* r := try m in
  match r with
  | Ok a => k a
  | Err err =>
    do* audit typ client AuditOutcomeFailure (code_string (code err)) in
    ret (local err)
  end.

Definition generateInteractionHandle : srv string :=
  on_random (map_err (λ _, server_error "failed to generate interaction handle")
    (draw interactionHandleSize)).

Definition invalid_request_uri (desc : string) : Error := newError ErrorInvalidRequestURI 400 desc.

Definition unusable_request_uri : Error :=
  invalid_request_uri "request_uri is invalid, expired, or already used".

(** Up to the check of the client: the handle, the pushed request, the time
    and the handle's expiry. *)
Definition open_interaction (req : BeginAuthorizationRequest)
    : srv (string * PushedAuthorizationRequest * Time * Time) :=
  do* check (negb (bool_decide (bar_RequestURI req = "")) || bool_decide (bar_Request req = ""))
    ErrorRequestNotSupported 400
    "the request parameter is not supported at the authorization endpoint: push the request object (RFC 9126)" in
  let* reference := lift (some_or_invalid "request_uri is not recognized"
    (SplitRequestURI (bar_RequestURI req))) in
  do* check (negb (bool_decide (bar_ClientID req = ""))) ErrorInvalidRequest 400
    "client_id is required" in
  let* handle := generateInteractionHandle in
  let* now := Now in
  let handleExpiresAt := Add now (InteractionLifetime (cfg_Limits cfg)) in
  let referenceKey := parReferenceKey (bar_ClientID req) reference in
  do* claimInteractionSlot referenceKey now in
  let* pushed := map_err (λ _, unusable_request_uri)
    (on_transactions (BeginAuthorization {|
      bat_Reference := referenceKey; bat_Handle := interactionHandleKey handle;
      bat_HandleExpiresAt := handleExpiresAt; bat_Now := now |})) in
  do* check (bool_decide (pushed_ClientID pushed = bar_ClientID req)) ErrorInvalidRequestURI 400
    "client_id does not match the pushed authorization request" in
  ret (handle, pushed, now, handleExpiresAt).

Definition gone_client (err : client_error) : Error :=
  match err with
  | ClientStoreUnavailable => server_error "failed to look up the client"
  | ClientUnknown => newError ErrorUnauthorizedClient 400 "client is no longer registered"
  end.

(** The interaction a pushed request asks for. *)
Definition describe_interaction (clientID : ClientID) (pushed : PushedAuthorizationRequest)
    (now : Time) : srv InteractionRequest :=
  do* check (Before now (pushed_ExpiresAt pushed)) ErrorInvalidRequestURI 400
    "request_uri has expired" in
  do* map_err gone_client (on_env (ResolveClient clientID)) in
  match decodeOwnRequestRecord (cfg_Issuer cfg) (pushed_Request pushed) with
  | Err err => fail (recordFailure err unusable_request_uri "pushed authorization request")
  | Ok request =>
    match interactionExtensions (rq_Parameters request) coreAuthorizationParameters
            (Z.to_N (rq_ExtensionSource request)) with
    | None => fail (server_error "stored extension parameters no longer validate")
    | Some extensions =>
      ret (interactionRequestFrom clientID (rq_Parameters request)
        (requiredSubjectForApplication request) (rq_Resources request) extensions)
    end
  end.

Definition Server_BeginAuthorization (req : BeginAuthorizationRequest) : srv AuthorizationAction :=
  or_local AuditEventBeginAuthorization "" LocalErrorResponse (open_interaction req) (λ opened,
    let '(handle, pushed, now, handleExpiresAt) := opened in
    or_local AuditEventBeginAuthorization (bar_ClientID req) LocalErrorResponse
      (describe_interaction (bar_ClientID req) pushed now) (λ interaction,
        do* audit AuditEventBeginAuthorization (bar_ClientID req) AuditOutcomeSuccess "" in
        ret (InteractionRequired handle interaction handleExpiresAt))).
End authorization.
