(* ===== verification/Completion.v ===== *)
(** The authorization endpoint's second half: CompleteAuthorization with
    everything it calls in src/server/complete_authorization.go, the
    authentication and grant an application hands it (src/server/subject.go,
    src/server/interaction_result.go), the checks of
    src/server/granted_id_token_claims.go, checkRedirectURIStillRegistered
    and localDenial of src/server/authorization.go, and the claims of a JARM
    response (src/server/jarm.go, src/internal/jarm/create.go). *)
From S2P Require Import Prelude GoStrings Json GoTime Pkce Digests Platform JsonCodec.
From S2P Require Import Effects.
From S2P Require Import Storage ServerTypes Rar Nonce Records Claims Dpop Jose Canonical.

From S2P Require Import Extensions Attestation ClientAuth ServerState TokenChecks.
From S2P Require Import Issue.
From S2P Require Import CodeExchange Parameters ClaimsParameter Subjects Par.
From S2P Require Import Authorization.
From stdpp Require Import options.

(** * What the application hands over *)

(** An AuthenticatedSubject is its SubjectID's value, empty when zero. *)
Definition AuthenticatedSubject := string.

Record AuthenticationContext := {
  ac_authTime : Time;
  ac_acr : string;
  ac_amr : list string }.

(** NewAuthenticationContext: [None] is an error. *)
Definition NewAuthenticationContext (authTime : Time) (acr : string) (amr : list string)
    : option AuthenticationContext :=
  if IsZero authTime || Before authTime (Unix 0) || negb (ValidString acr) ||
     negb (forallb ValidString amr)
  then None
  else Some {| ac_authTime := authTime; ac_acr := acr; ac_amr := amr |}.

Record GrantedAuthorization := {
  ga_Scope : list string;
  ga_ApprovedIdentityClaims : list string;
  ga_AuthorizationDetails : list RawMessage;
  ga_Resources : list string;
  ga_IDTokenClaims : gmap string RawMessage;
  ga_GrantID : string }.

(** InteractionNeed: the iota constants, 0 for none. *)
Definition InteractionNeed := N.
Definition NeedLogin : InteractionNeed := 1%N.
Definition NeedConsent : InteractionNeed := 2%N.
Definition NeedAccountSelection : InteractionNeed := 3%N.
Definition NeedInteraction : InteractionNeed := 4%N.

Definition need_errorCode (need : InteractionNeed) : string :=
  if bool_decide (need = NeedLogin) then "login_required"
  else if bool_decide (need = NeedConsent) then "consent_required"
  else if bool_decide (need = NeedAccountSelection) then "account_selection_required"
  else if bool_decide (need = NeedInteraction) then "interaction_required"
  else "".

Inductive InteractionResult :=
| authorizeResult (subject : AuthenticatedSubject) (auth : AuthenticationContext)
    (grant : GrantedAuthorization)
| denyResult (reason : string)
| denyLocallyResult (reason : string)
| authenticationFailedResult (reason : string)
| interactionNeededResult (need : InteractionNeed) (reason : string).

(** [None] is the nil interface. *)
Record CompleteAuthorizationRequest := {
  car_Handle : string;
  car_Result : option InteractionResult }.

Inductive AuthorizationResult :=
| AuthorizationRedirect (destination : ParsedURL)
| AuthorizationLocalError (e : Error).

(** A redirect to make, and what is audited of it. *)
Record completion := {
  cn_destination : ParsedURL;
  cn_outcome : AuditOutcome;
  cn_description : string }.

(** * Checks *)

(** false is an error. *)
Definition validateGrantedIDTokenClaims `{Platform} (claims : gmap string RawMessage)
    (maxBytes : Z) : bool :=
  bool_decide (claimsSize claims ≤ maxBytes)%Z &&
  forallb (λ p, negb (bool_decide (p.1 = "")) && ValidString p.1 &&
                negb (isServerManagedIDTokenClaim p.1) &&
                match p.2 with Raw _ => true | _ => false end && decodes_losslessly p.2)
    (map_to_list claims).

Definition localDenial (reason : string) : Error :=
  newError ErrorAccessDenied 403 (if IsErrorText reason then reason else "the request was declined").

Record approvedGrant := {
  ag_authorizationDetails : RawMessage;
  ag_resources : list string;
  ag_idTokenClaims : list string;
  ag_userinfoClaims : list string;
  ag_idTokenClaimValues : Acceptable;
  ag_userinfoClaimValues : Acceptable }.

(** [json.Marshal] of an int64. *)
Definition marshal_int (n : Z) : RawMessage := Raw (JNum (Number (Z.ltb n 0) (Z.abs n) 0)).

(** [Time.Unix()] *)
Definition unix_seconds (t : Time) : Z := (t / Second)%Z.

Definition with_query (q : string) (u : ParsedURL) : ParsedURL := {|
  url_Scheme := url_Scheme u; url_Opaque := url_Opaque u; url_HasUser := url_HasUser u;
  url_Host := url_Host u; url_Hostname := url_Hostname u; url_Port := url_Port u;
  url_Path := url_Path u; url_EscapedPath := url_EscapedPath u; url_RawQuery := q;
  url_ForceQuery := url_ForceQuery u; url_Fragment := url_Fragment u;
  url_RawFragment := url_RawFragment u |}.

(** [url.Values.Encode] of a map of single values. *)
Definition encode_map (values : gmap string string) : string :=
  Encode ((λ k, (k, default "" (values !! k))) <$> sorted_elements (dom values)).

(** The parameters with a value, which alone are sent. *)
Definition present_values (params : gmap string string) : gmap string string :=
  filter (λ p, p.2 ≠ "") params.

Section completion.
Context `{FrontServer}.

Definition authTimeProblem (auth : AuthenticationContext) (now : Time) (skew : Duration) : string :=
  if IsZero (ac_authTime auth)
  then "authorize result carries no authentication context (use NewAuthenticationContext)"
  else if After (ac_authTime auth) (Add now skew)
  then "authorize result's authentication time is in the future"
  else "".

Definition subjectAtClient (clientID : ClientID) (internal : string) : srv (string * string) :=
  let* client := map_err
    (λ _, server_error "failed to resolve the client for its subject type")
    (on_env (ResolveClient clientID)) in
  clientSubjectFor client internal.

(** The client's sub for the user, and its sector. *)
Definition checkAuthorizeResult (clientID : ClientID) (subject : AuthenticatedSubject)
    (auth : AuthenticationContext) : srv (string * string) :=
  do* check (negb (bool_decide (subject = ""))) ErrorServerError 500
    "authorize result carries no authenticated subject" in
  let* now := Now in
  let problem := authTimeProblem auth now (MaxClockSkew (cfg_Limits cfg)) in
  do* check (bool_decide (problem = "")) ErrorServerError 500 problem in
  subjectAtClient clientID subject.

(** What the authentication lacks of the request; the clock is read only
    for a request with a max_age. *)
Definition loginRequiredProblem (request : requestRecord) (auth : AuthenticationContext)
    (clientSub : string) : srv string :=
  let skew := MaxClockSkew (cfg_Limits cfg) in
  let params := rq_Parameters request in
  let* stale := (match or_zero None (requestedMaxAge params) with
    | Some maxAge =>
      let* now := Now in
      ret (Before (ac_authTime auth) (Add now (- maxAge - skew)))
    | None => ret false
    end) in
  ret (if stale : bool then "the user's authentication is older than the requested max_age"
  else if bool_decide ("login" ∈ or_zero [] (requestedPrompt params)) &&
          match rq_PushedAt request with
          | Some pushedAt => Before (ac_authTime auth) (Add pushedAt (- skew))
          | None => false
          end
  then "the user didn't authenticate again for prompt=login"
  else if negb (meetsEssentialACR (rq_EssentialACRValues request) (ac_acr auth))
  then "the user's authentication doesn't meet the requested essential acr"
  else if negb (meetsRequiredSubject (rq_RequiredSubject request) clientSub)
  then "the authenticated user isn't the one the request named"
  else "").

Definition checkApprovedGrant (request : requestRecord) (grant : GrantedAuthorization)
    : result Error approvedGrant :=
  let params := rq_Parameters request in
  guard_err (validateGrantedScopeSubset (ga_Scope grant) (default "" (jsonString params "scope")))
    (invalid_request "granted scope is empty or exceeds requested scope") ;;
  details ← some_or_invalid "granted authorization_details exceeds what was requested"
    (validateGrantedAuthorizationDetails (default RawNil (params !! authorizationDetailsParameter))
       (ga_AuthorizationDetails grant));
  resources ← grantedResources (rq_Resources request) (ga_Resources grant);
  guard_err (validateGrantedIDTokenClaims (ga_IDTokenClaims grant)
    (MaxIDTokenClaimsBytes (cfg_Limits cfg)))
    (invalid_request "granted ID token claims are not valid") ;;
  guard_err (validateGrantID (ga_GrantID grant)) (invalid_request "the grant ID is not valid") ;;
  names ← some_or_invalid "approved identity claims exceed what was requested"
    (approvedClaimNames params (ga_ApprovedIdentityClaims grant));
  Ok {| ag_authorizationDetails := details; ag_resources := resources;
        ag_idTokenClaims := names.1; ag_userinfoClaims := names.2;
        ag_idTokenClaimValues := requestedClaimValues params "id_token" names.1;
        ag_userinfoClaimValues := requestedClaimValues params "userinfo" names.2 |}.

Definition checkRedirectURIStillRegistered (clientID : ClientID) (redirectURI : string)
    : srv unit :=
  let* client := map_err gone_client (on_env (ResolveClient clientID)) in
  check (HasRedirectURI client redirectURI) ErrorInvalidRequest 400
    "redirect_uri is no longer registered for this client".

(** * Responses *)

Definition jarm_reserved : list string := ["iss"; "aud"; "exp"; "nbf"; "iat"].

(** The claims jarm.Create signs; [None] when it refuses to. *)
Definition jarm_claims (clientID : ClientID) (now : Time) (params : gmap string RawMessage)
    : option (gmap string RawMessage) :=
  let lifetime := JARMResponseLifetime (cfg_Limits cfg) in
  if bool_decide (cfg_Issuer cfg = "") || bool_decide (clientID = "") || IsZero now ||
     bool_decide (lifetime ≤ 0)%Z || existsb (λ name, is_Some_bool (params !! name)) jarm_reserved
  then None
  else Some (<["iss" := marshal_string (cfg_Issuer cfg)]> (<["aud" := marshal_string clientID]>
    (<["exp" := marshal_int (unix_seconds (Add now lifetime))]>
     (<["iat" := marshal_int (unix_seconds now)]> params)))).

Definition signJARMResponse (clientID : ClientID) (params : gmap string string)
    : eff World env_error string :=
  let* signer := on_env newJARMSigner in
  let* now := Now in
  match jarm_claims clientID now (marshal_string <$> present_values params) with
  | None => fail EnvFailed
  | Some claims => on_env (jarm_Sign signer claims)
  end.

(** The response parameters, as the query the redirect adds. *)
Definition authorization_response (clientID : ClientID) (params : gmap string string)
    : srv (gmap string string) :=
  if bool_decide (cfg_Profile cfg = ProfileFAPISecurityWithMessageSigning) then
    let* responseJWT := map_err (λ _, server_error "failed to sign authorization response")
      (signJARMResponse clientID params) in
    ret {["response" := responseJWT]}
  else ret (<["iss" := cfg_Issuer cfg]> (present_values params)).

Definition buildAuthorizationResponse (clientID : ClientID) (redirectURI : string)
    (params : gmap string string) : srv ParsedURL :=
  match url_parse redirectURI with
  | None => fail (server_error "stored redirect_uri is malformed")
  | Some base =>
    let* response := authorization_response clientID params in
    let base := with_query (Append (url_RawQuery base) (encode_map response)) base in
    match ParseRedirectURL (url_string base) native_options with
    | None => fail (server_error "failed to construct redirect destination")
    | Some destination => ret destination
    end
  end.

Definition completeErrorRedirect (clientID : ClientID) (redirectURI state errorCode desc : string)
    : srv completion :=
  let params : gmap string string := <["error" := errorCode]> {["state" := state]} in
  let params := if IsErrorText desc then <["error_description" := desc]> params else params in
  let* destination := buildAuthorizationResponse clientID redirectURI params in
  ret {| cn_destination := destination; cn_outcome := AuditOutcomeFailure;
         cn_description := errorCode |}.

(** * Issuing a code *)

(** The grant a code redeems to. *)
Definition code_grant (request : requestRecord) (redirectURI codeChallenge nonce dpopJKT : string)
    (subject : AuthenticatedSubject) (clientSub sector : string) (auth : AuthenticationContext)
    (grant : GrantedAuthorization) (approved : approvedGrant) (now : Time) : grantRecord := {|
  g_Version := 0; g_Kind := grantKindAuthorizationCode; g_Issuer := "";
  g_RedirectURI := redirectURI; g_CodeChallenge := codeChallenge; g_Nonce := nonce;
  g_DPoPJKT := dpopJKT; g_Thumbprint := ""; g_ClientInstanceKey := rq_ClientInstanceKey request;
  g_Subject := subject; g_ClientSubject := distinctClientSubject clientSub subject;
  g_PairwiseSector := sector; g_PairwisePrefix := pairwisePrefixOf sector;
  g_Scope := ga_Scope grant; g_AuthTime := ac_authTime auth; g_ACR := ac_acr auth;
  g_AMR := ac_amr auth; g_AuthorizationDetails := ag_authorizationDetails approved;
  g_Resources := ag_resources approved; g_TokenClaims := rq_TokenClaims request;
  g_RequestedIDTokenClaims := ag_idTokenClaims approved;
  g_RequestedUserinfoClaims := ag_userinfoClaims approved;
  g_RequestedIDTokenClaimValues := ag_idTokenClaimValues approved;
  g_RequestedUserinfoClaimValues := ag_userinfoClaimValues approved;
  g_IDTokenClaims := ga_IDTokenClaims grant; g_GrantID := ga_GrantID grant; g_CodeGrantID := "";
  g_GrantType := "authorization_code"; g_IssuedAt := Some now |}.

(** [if err != nil { return newError(ErrorServerError, 500, desc) }] *)
Definition some_or_server {A} (desc : string) (o : option A) : srv A :=
  match o with Some a => ret a | None => fail (server_error desc) end.

(** The code, stored with its grant. *)
Definition issue_code (clientID : ClientID) (request : requestRecord) (redirectURI : string)
    (subject : AuthenticatedSubject) (clientSub sector : string) (auth : AuthenticationContext)
    (grant : GrantedAuthorization) (approved : approvedGrant) : srv string :=
  let params := rq_Parameters request in
  let* codeChallenge := some_or_server
    "pushed authorization request is missing code_challenge" (jsonString params "code_challenge") in
  let* code := on_random (map_err (λ _, server_error "failed to generate authorization code")
    (draw authorizationCodeSize)) in
  let* nonce := some_or_server "pushed authorization request has a malformed nonce"
    (optionalJSONString params "nonce") in
  let* dpopJKT := some_or_server "pushed authorization request has a malformed dpop_jkt"
    (optionalJSONString params "dpop_jkt") in
  let* now := Now in
  let* encoded := some_or_server "failed to encode authorization code grant"
    (encodeGrantRecord (cfg_Issuer cfg) (code_grant request redirectURI codeChallenge nonce dpopJKT
       subject clientSub sector auth grant approved now)) in
  do* map_err (λ _, server_error "failed to persist authorization code")
    (on_grants (CreateAuthorizationCode {|
      nac_CodeHash := authorizationCodeHash code (rq_ClientInstanceKey request);
      nac_ClientID := clientID; nac_Grant := encoded;
      nac_ExpiresAt := Add now (AuthorizationCodeLifetime (cfg_Limits cfg)) |})) in
  ret code.

Definition completeAuthorize (clientID : ClientID) (request : requestRecord)
    (redirectURI state : string) (subject : AuthenticatedSubject) (auth : AuthenticationContext)
    (grant : GrantedAuthorization) : srv completion :=
  let* sub := checkAuthorizeResult clientID subject auth in
  let '(clientSub, sector) := sub in
  let* problem := loginRequiredProblem request auth clientSub in
  if negb (bool_decide (problem = ""))
  then completeErrorRedirect clientID redirectURI state "login_required" problem
  else
    let* approved := lift (checkApprovedGrant request grant) in
    let* code := issue_code clientID request redirectURI subject clientSub sector auth grant
      approved in
    let* destination := buildAuthorizationResponse clientID redirectURI
      (<["code" := code]> {["state" := state]}) in
    ret {| cn_destination := destination; cn_outcome := AuditOutcomeSuccess; cn_description := "" |}.

(** * CompleteAuthorization *)

Definition invalid_handle : Error :=
  newError ErrorInvalidRequest 400 "interaction handle is invalid, expired, or already used".

(** What follows the handle's redemption. *)
Definition complete (result : option InteractionResult) (completed : CompletedInteraction)
    : srv completion :=
  let clientID := ci_ClientID completed in
  let* now := Now in
  do* check (Before now (ci_ExpiresAt completed)) ErrorInvalidRequest 400
    "interaction handle has expired" in
  match decodeOwnRequestRecord (cfg_Issuer cfg) (ci_Request completed) with
  | Err err => fail (recordFailure err invalid_handle "pushed authorization request")
  | Ok request =>
    let* redirectURI := some_or_server "pushed authorization request is missing redirect_uri"
      (jsonString (rq_Parameters request) "redirect_uri") in
    let* state := some_or_server "pushed authorization request has a malformed state"
      (optionalJSONString (rq_Parameters request) "state") in
    match result with
    | Some (denyLocallyResult reason) => fail (localDenial reason)
    | _ =>
      do* checkRedirectURIStillRegistered clientID redirectURI in
      match result with
      | Some (authorizeResult subject auth grant) =>
        completeAuthorize clientID request redirectURI state subject auth grant
      | Some (denyResult reason) =>
        completeErrorRedirect clientID redirectURI state "access_denied" reason
      | Some (authenticationFailedResult reason) =>
        completeErrorRedirect clientID redirectURI state "login_required" reason
      | Some (interactionNeededResult need reason) =>
        if bool_decide (need_errorCode need = "")
        then fail (server_error "unrecognized interaction need")
        else completeErrorRedirect clientID redirectURI state (need_errorCode need) reason
      | _ => fail (server_error "unrecognized interaction result")
      end
    end
  end.

Definition Server_CompleteAuthorization (req : CompleteAuthorizationRequest)
    : srv AuthorizationResult :=
  or_local AuditEventCompleteAuthorization "" AuthorizationLocalError
    (map_err (λ _, invalid_handle) (on_transactions (CompleteAuthorization
      {| cat_Handle := interactionHandleKey (car_Handle req) |})))
    (λ completed,
      or_local AuditEventCompleteAuthorization (ci_ClientID completed) AuthorizationLocalError
        (complete (car_Result req) completed) (λ done,
          do* audit AuditEventCompleteAuthorization (ci_ClientID completed) (cn_outcome done)
            (cn_description done) in
          ret (AuthorizationRedirect (cn_destination done)))).
End completion.
