(* ===== verification/Ciba.v ===== *)
(** Client-initiated backchannel authentication (CIBA): the requests of
    src/server/backchannel_authentication.go (BeginBackchannelAuthentication
    and LookupBackchannelInteraction with everything they call there), the
    application's hint check (src/server/backchannel_hints.go), the
    interactions of src/server/backchannel_interaction.go, the decisions of
    src/server/complete_backchannel_authentication.go and the notification of
    src/server/backchannel_notify.go. *)
From S2P Require Import Prelude GoStrings Json GoTime Sha256 Pkce Platform JsonCodec.
From S2P Require Import Digests.
From S2P Require Import Effects Storage ServerTypes Rar Nonce Records Claims Dpop.
From S2P Require Import Canonical.
From S2P Require Import Numeric.
From S2P Require Import Jose Extensions RequestObject Attestation ClientAuth.
From S2P Require Import ServerState.
From S2P Require Import TokenChecks Issue BackchannelToken.
From S2P Require Import Parameters ClaimsParameter Subjects Par Authorization Completion.
From stdpp Require Import options.

(** * Interactions *)

Definition backchannelAuthenticationHandleSize : nat := 32.
Definition authReqIDSize : nat := 32.

Record BackchannelAuthenticationHints := {
  LoginHint : string;
  LoginHintToken : string;
  IDTokenHint : string }.

(** Left out: the client's display details. *)
Record BackchannelInteractionRequest := {
  bi_ClientID : ClientID;
  bi_Scope : list string;
  bi_Hints : BackchannelAuthenticationHints;
  bi_ACRValues : list string;
  bi_EssentialACRValues : list string;
  bi_RequiredSubject : string;
  bi_BindingMessage : string;
  bi_AuthorizationDetails : RARValues;
  bi_Resources : list string;
  bi_RequestedClaims : RequestedClaims;
  bi_Extensions : Values }.

Inductive BackchannelAuthenticationAction :=
| BackchannelInteractionRequired (handle authReqID : string) (expiresIn interval : Duration)
    (interaction : BackchannelInteractionRequest)
| BackchannelAuthenticationLocalError (e : Error).

(** The errors a hint checker's error is told apart by. *)
Inductive hint_error := ErrUnknownUserID | ErrExpiredLoginHintToken | HintCheckFailed.

Record BackchannelNotification := {
  bn_Endpoint : ParsedURL;
  bn_ClientNotificationToken : Secret;
  bn_AuthReqID : string }.

Record CompleteBackchannelAuthenticationRequest := {
  cbr_Handle : string;
  cbr_Result : option InteractionResult }.

(** Dependencies.CIBARARPolicy, BackchannelHints and BackchannelNotifier; the
    notifier is NoBackchannelNotifications when ping is not supported. *)
Class CibaServer {S : Server} {F : FrontServer} := {
  CIBARARPolicy : option (ClientID → list RawMessage → eff Env env_error (list RawMessage));
  BackchannelHints :
    option (ClientID → BackchannelAuthenticationHints → eff Env hint_error unit);
  backchannelPingSupported : bool;
  Notify : BackchannelNotification → eff Env env_error unit }.

Definition coreBackchannelAuthenticationParameters : list string :=
  ["scope"; "login_hint"; "login_hint_token"; "id_token_hint"; "acr_values"; "binding_message";
   "client_notification_token"; "requested_expiry"; "dpop_jkt"; "claims"; "authorization_details"].

(** * Checks of a request's parameters *)

Definition hint_names : list string := ["login_hint"; "login_hint_token"; "id_token_hint"].

(** The loop over the hints' names: how many are present. *)
Fixpoint count_hints (params : Params) (names : list string) : result Error nat :=
  match names with
  | [] => Ok 0
  | name :: names =>
    match params !! name with
    | None => count_hints params names
    | Some raw =>
      guard_err (negb (bool_decide (default "" (jsonStringValue raw) = "")))
        (invalid_request (name +:+ " must be a non-empty string")) ;;
      n ← count_hints params names;
      Ok (S n)
    end
  end.

Definition validateBackchannelHints (params : Params) : result Error unit :=
  hints ← count_hints params hint_names;
  guard_err (bool_decide (hints = 1)) (invalid_request
    "exactly one of login_hint, login_hint_token, or id_token_hint is required").

Definition maxBindingMessageLength : nat := 100.

(** unicode.IsControl *)
Definition IsControl (r : N) : bool :=
  ((r <? 32) || ((127 <=? r) && (r <? 160)))%N.

Section binding_message.
Context `{Platform}.

Definition isAcceptableBindingMessage (msg : string) : bool :=
  bool_decide (length (runes msg) ≤ maxBindingMessageLength) &&
  forallb (λ r, negb (IsControl r || (r =? 8232)%N || (r =? 8233)%N || unicode_Cf r)) (runes msg).

Definition hasVisibleContent (msg : string) : bool := existsb unicode_visible (runes msg).

Definition validateBindingMessage (params : Params) (required : bool) : result Error unit :=
  match params !! "binding_message" with
  | None => guard_err (negb required) (invalid_request "binding_message is required")
  | Some raw =>
    bindingMessage ← some_or_invalid "binding_message must be a string" (jsonStringValue raw);
    guard_err (isAcceptableBindingMessage bindingMessage)
      (newError ErrorInvalidBindingMessage 400 "binding_message is not acceptable") ;;
    guard_err (negb required || hasVisibleContent bindingMessage)
      (newError ErrorInvalidBindingMessage 400 "binding_message must have visible content")
  end.
End binding_message.

Definition maxClientNotificationTokenLength : nat := 1024.

(** [strings.TrimRight(s, "=")] *)
Fixpoint trim_equals (s : string) : string :=
  match s with
  | EmptyString => ""
  | String c s' =>
    match trim_equals s' with
    | EmptyString => if bool_decide (c = "="%char) then "" else String c ""
    | t => String c t
    end
  end.

Definition is_b68_byte (c : ascii) : bool :=
  let n := byte_code c in
  ((97 <=? n) && (n <=? 122) || (65 <=? n) && (n <=? 90) || (48 <=? n) && (n <=? 57))%N ||
  contains_byte "-._~+/" c.

Fixpoint all_b68 (s : string) : bool :=
  match s with EmptyString => true | String c s' => is_b68_byte c && all_b68 s' end.

Definition isClientNotificationToken (token : string) : bool :=
  negb (bool_decide (token = "")) &&
  bool_decide (String.length token ≤ maxClientNotificationTokenLength) &&
  negb (bool_decide (trim_equals token = "")) && all_b68 (trim_equals token).

(** The parameters, those of a client that polls without the token. *)
Definition validateClientNotificationToken (params : Params) (client : RegisteredClient)
    : result Error Params :=
  match backchannelTokenDeliveryMode client with
  | BackchannelTokenDeliveryModePoll => Ok (delete "client_notification_token" params)
  | BackchannelTokenDeliveryModePing =>
    raw ← some_or_invalid
      "client_notification_token is required for a client registered for ping delivery"
      (params !! "client_notification_token");
    notificationToken ← some_or_invalid "client_notification_token must be a string"
      (jsonStringValue raw);
    guard_err (isClientNotificationToken notificationToken) (invalid_request
      "client_notification_token must be a bearer token of at most 1024 characters") ;;
    Ok params
  end.

(** [None] is false. *)
Definition parseRequestedExpiry (raw : RawMessage) : option Z :=
  match raw with
  | Raw JNull => Some 0%Z
  | Raw (JNum n) => unmarshal_int64 n
  | Raw (JStr s) => ParseInt s
  | _ => None
  end.

(** * The request *)

Record verifiedBackchannelRequest := {
  vb_params : Params;
  vb_tokenClaims : Params;
  vb_resources : list string }.

(** A request record with the fields that are not set in the code zero. *)
Definition backchannel_record (params tokenClaims : Params) (dpopJKT : string)
    (expiresAt : option Time) (essentialACR : list string) (required internal : string)
    (resources : list string) (instanceKey : string) : requestRecord := {|
  rq_Version := 0; rq_Issuer := ""; rq_Parameters := params; rq_TokenClaims := tokenClaims;
  rq_DPoPJKT := dpopJKT; rq_ExtensionSource := 0; rq_ExpiresAt := expiresAt; rq_PushedAt := None;
  rq_EssentialACRValues := essentialACR; rq_RequiredSubject := required;
  rq_RequiredInternalSubject := internal; rq_Resources := resources;
  rq_ClientInstanceKey := instanceKey |}.

Section requests.
Context `{CibaServer}.

Definition checkBackchannelExtensions (client : RegisteredClient) (params : Params)
    : srv (Params * Params) :=
  checked_extensions coreBackchannelAuthenticationParameters CIBARARPolicy
    (invalid_request "request contains an invalid parameter") client params SourceRequestObject.

Definition backchannel_object_policy (client : RegisteredClient) (alg : SignatureAlgorithm)
    (now : Time) : Objects.VerifyPolicy Env := {|
  Objects.ExpectedClientID := client_id client; Objects.ExpectedAudience := cfg_Issuer cfg;
  Objects.Algorithm := alg; Objects.Policy_Now := now;
  Objects.MaxLifetime := MaxBackchannelAuthenticationRequestLifetime (cfg_Limits cfg);
  Objects.Policy_MaxClockSkew := MaxClockSkew (cfg_Limits cfg);
  Objects.RequireNotBefore := true; Objects.RequireIssuedAt := true;
  Objects.Replay := Some (clientSignedJWTReplayChecker (client_id client));
  Objects.RequireJTI := true; Objects.AutomaticFederationRegistration := false |}.

Definition verifiedBackchannelObject (client : RegisteredClient) (alg : SignatureAlgorithm)
    (requestParam : string) : srv Objects.VerifiedObject :=
  match Objects.Parse requestParam with
  | None => fail (invalid_request "malformed backchannel authentication request")
  | Some obj =>
    let* candidates := map_err (λ _, invalid_request "no matching client key")
      (on_env (resolveClientKeys (client_id client) BackchannelAuthenticationRequestVerification alg
         (Objects.KeyID obj))) in
    let* now := Now in
    map_err (λ _, invalid_request "backchannel authentication request verification failed")
      (on_env (verifyWithCandidates Objects.is_signature_error Objects.ErrNoCandidate candidates
        (λ pub, Objects.Verify (backchannel_object_policy client alg now) obj pub)))
  end.

Definition resolveBackchannelAuthenticationParameters (params : gmap string string)
    (client : RegisteredClient) : srv verifiedBackchannelRequest :=
  let '(alg, permitted) := BackchannelAuthenticationRequestAlgorithm client in
  do* check permitted ErrorUnauthorizedClient 400 "client is not permitted to use CIBA" in
  do* check (negb (bool_decide (backchannelTokenDeliveryMode client = BackchannelTokenDeliveryModePing)
                   && negb backchannelPingSupported)) ErrorUnauthorizedClient 400
    "client is registered for ping delivery, which this server doesn't support" in
  let requestParam := default "" (params !! "request") in
  do* check (negb (bool_decide (requestParam = ""))) ErrorInvalidRequest 400
    "a signed backchannel authentication request is required" in
  do* check (bool_decide (alg ∈ BackchannelAuthenticationRequestAlgorithms cfg))
    ErrorInvalidRequest 400 "backchannel authentication request algorithm is not permitted" in
  let* verified := verifiedBackchannelObject client alg requestParam in
  let object := Objects.vo_Parameters verified in
  do* lift (of_check ErrorInvalidRequest (checkParameterTypes object backchannelParameterTypes)) in
  let* resources := lift (resourcesFromParameters object) in
  let* checked := checkBackchannelExtensions client object in
  ret {| vb_params := checked.1; vb_tokenClaims := checked.2; vb_resources := resources |}.

Definition validateBackchannelAuthenticationParameters (verified : verifiedBackchannelRequest)
    (client : RegisteredClient) : result Error verifiedBackchannelRequest :=
  let params := vb_params verified in
  scopeRaw ← some_or_invalid "scope is required" (params !! "scope");
  scope ← some_or_invalid "scope must be a string" (jsonStringValue scopeRaw);
  of_check ErrorInvalidRequest (checkScopeLength (String.length scope) client) ;;
  guard_err (validateScope scope client)
    (newError ErrorInvalidScope 400 "scope is not valid for this client") ;;
  guard_err (bool_decide ("openid" ∈ fields scope))
    (newError ErrorInvalidScope 400 "scope must include openid") ;;
  validateBackchannelHints params ;;
  params ← validateClientNotificationToken params client;
  of_check ErrorInvalidRequest (validateClaimsParameter params) ;;
  of_check ErrorInvalidRequest (essentialACRValues params) ;;
  validateBindingMessage params (RequireBindingMessage cfg) ;;
  Ok {| vb_params := params; vb_tokenClaims := vb_tokenClaims verified;
        vb_resources := vb_resources verified |}.

Definition validateBackchannelAuthenticationRequest (verified : verifiedBackchannelRequest)
    (client : RegisteredClient) : srv verifiedBackchannelRequest :=
  let* validated := lift (validateBackchannelAuthenticationParameters verified client) in
  let* resources := checkRequestedResources client (vb_resources verified) in
  ret {| vb_params := vb_params validated; vb_tokenClaims := vb_tokenClaims validated;
         vb_resources := resources |}.

Definition backchannelRequiredInternalSubject (client : RegisteredClient) (params : Params)
    (required : string) : srv string :=
  let* mapped := requiredInternalSubject client required in
  do* check (negb (is_Some_bool (params !! "id_token_hint") && mapped.2)) ErrorInvalidRequest 400
    "id_token_hint can't identify an end user of a pairwise client when pairwise subjects are derived one way; use login_hint or login_hint_token" in
  ret mapped.1.

Definition backchannelSubjects (client : RegisteredClient) (params : Params)
    : srv (string * string) :=
  do* lift (checkClientSubjectIssuable client) in
  let* required := requiredSubject params (client_id client) in
  let* internal := backchannelRequiredInternalSubject client params required in
  ret (required, internal).

(** The thumbprint the request is bound to, empty for none. *)
Definition reconcileBackchannelDPoPBinding (proof : string) (params : Params) : srv string :=
  let declared := default "" (jsonString params "dpop_jkt") in
  if bool_decide (proof = "") then ret declared
  else
    let* now := Now in
    let* verified := map_err
      (λ _, newError ErrorInvalidDPoPProof 400 "DPoP proof verification failed")
      (verifyDPoPAtEitherEndpoint (token_request_proof proof now)
         (BackchannelAuthenticationEndpoint cfg) (MTLSBackchannelAuthenticationEndpoint cfg)) in
    do* (if has_nonces then let* now := Now in checkDPoPNonce (vp_Nonce verified) now
         else ret tt) in
    let thumbprint := vp_Thumbprint verified in
    do* check (bool_decide (declared = "") || bool_decide (declared = thumbprint))
      ErrorInvalidRequest 400
      "dpop_jkt does not match the DPoP proof presented to the backchannel authentication endpoint" in
    ret thumbprint.

Definition backchannelAuthenticationLifetime (params : Params) : Duration :=
  let maxLifetime := BackchannelAuthenticationRequestLifetime (cfg_Limits cfg) in
  match params !! "requested_expiry" ≫= parseRequestedExpiry with
  | None => maxLifetime
  | Some seconds =>
    if bool_decide (seconds <= 0)%Z || bool_decide (Z.quot maxLifetime Second < seconds)%Z
    then maxLifetime
    else (seconds * Second)%Z
  end.

Definition backchannelInteractionRequestFrom (clientID : ClientID) (params : Params)
    (requiredSubject : string) (resources : list string) (extensions : Values)
    : BackchannelInteractionRequest := {|
  bi_ClientID := clientID;
  bi_Scope := fields (default "" (jsonString params "scope"));
  bi_Hints := {| LoginHint := default "" (jsonString params "login_hint");
                 LoginHintToken := default "" (jsonString params "login_hint_token");
                 IDTokenHint := default "" (jsonString params "id_token_hint") |};
  bi_ACRValues := fields (default "" (jsonString params "acr_values"));
  bi_EssentialACRValues := or_zero [] (essentialACRValues params);
  bi_RequiredSubject := requiredSubject;
  bi_BindingMessage := default "" (jsonString params "binding_message");
  bi_AuthorizationDetails := rarValuesFromStoredParameters params;
  bi_Resources := resources;
  bi_RequestedClaims := requestedClaimsFrom params;
  bi_Extensions := extensions |}.

(** With the required subject the caller sets. [None] is an error. *)
Definition backchannelInteraction (client : RegisteredClient) (params : Params)
    (resources : list string) (requiredSubject : string) : option BackchannelInteractionRequest :=
  backchannelInteractionRequestFrom (client_id client) params requiredSubject resources <$>
    interactionExtensions params coreBackchannelAuthenticationParameters SourceRequestObject.

Definition checkBackchannelHints (clientID : ClientID) (hints : BackchannelAuthenticationHints)
    : srv unit :=
  match BackchannelHints with
  | None => ret tt
  | Some checker =>
    map_err (λ err, match err with
      | ErrUnknownUserID => newError ErrorUnknownUserID 400
          "the hint does not identify an end user this server can authenticate"
      | ErrExpiredLoginHintToken =>
          newError ErrorExpiredLoginHintToken 400 "the login_hint_token has expired"
      | HintCheckFailed => server_error "the hint could not be checked"
      end) (on_env (checker clientID hints))
  end.

Definition generateAuthReqID : srv string :=
  on_random (map_err (λ _, server_error "failed to generate auth_req_id") (draw authReqIDSize)).

Definition generateBackchannelAuthenticationHandle : srv string :=
  on_random (map_err (λ _, server_error "failed to generate backchannel authentication handle")
    (draw backchannelAuthenticationHandleSize)).

(** The record to store: a client that pings gets the auth_req_id back, with
    its token. *)
Definition new_backchannel (client : RegisteredClient) (authReqID handle : string)
    (record : requestRecord) (request : RawMessage) (expiresAt : Time)
    : NewBackchannelAuthentication :=
  let ping := bool_decide (backchannelTokenDeliveryMode client = BackchannelTokenDeliveryModePing) in {|
  nba_AuthReqIDHash :=
    backchannelAuthReqIDHash authReqID (rq_ClientInstanceKey record) (rq_DPoPJKT record);
  nba_AuthReqID := if ping then authReqID else "";
  nba_HandleHash := sha256 handle; nba_ClientID := client_id client; nba_Request := request;
  nba_DeliveryMode := if ping then "ping" else "poll";
  nba_ClientNotificationToken :=
    if ping then default "" (jsonString (rq_Parameters record) "client_notification_token") else "";
  nba_PollInterval := BackchannelAuthenticationPollInterval (cfg_Limits cfg);
  nba_ExpiresAt := expiresAt |}.

Definition store_backchannel (client : RegisteredClient) (authReqID handle : string)
    (record : requestRecord) (expiresAt : Time) : srv unit :=
  let* request := some_or_server "failed to encode backchannel authentication request"
    (encodeRequestRecord (cfg_Issuer cfg) record) in
  map_err (λ _, server_error "failed to persist backchannel authentication request")
    (on_backchannel (CreateBackchannelAuthentication
      (new_backchannel client authReqID handle record request expiresAt))).

(** The parameters of the request, its sub, internal sub and DPoP key. *)
Definition backchannel_request (client : RegisteredClient) (params : gmap string string)
    (dpopProof : string) : srv (verifiedBackchannelRequest * string * string * string) :=
  let* verified := resolveBackchannelAuthenticationParameters params client in
  let* validated := validateBackchannelAuthenticationRequest verified client in
  let* subjects := backchannelSubjects client (vb_params validated) in
  let* dpopJKT := reconcileBackchannelDPoPBinding dpopProof (vb_params validated) in
  ret (validated, subjects.1, subjects.2, dpopJKT).

(** What follows the client's authentication. *)
Definition begin_backchannel (client : RegisteredClient) (params : gmap string string)
    (dpopProof instanceKey : string) : srv BackchannelAuthenticationAction :=
  let* requested := backchannel_request client params dpopProof in
  let '(validated, required, internal, dpopJKT) := requested in
  let shown := requiredSubjectForApplication
    (backchannel_record ∅ ∅ "" None [] required internal [] "") in
  let* interaction := some_or_server "validated extension parameters could not be read back"
    (backchannelInteraction client (vb_params validated) (vb_resources validated) shown) in
  do* checkBackchannelHints (client_id client) (bi_Hints interaction) in
  let* authReqID := generateAuthReqID in
  let* handle := generateBackchannelAuthenticationHandle in
  let* now := Now in
  let lifetime := backchannelAuthenticationLifetime (vb_params validated) in
  let expiresAt := Add now lifetime in
  do* store_backchannel client authReqID handle
    (backchannel_record (vb_params validated) (vb_tokenClaims validated) dpopJKT (Some expiresAt)
       (or_zero [] (essentialACRValues (vb_params validated))) required internal
       (vb_resources validated) instanceKey) expiresAt in
  ret (BackchannelInteractionRequired handle authReqID lifetime
    (BackchannelAuthenticationPollInterval (cfg_Limits cfg)) interaction).

(** The request's form and client. *)
Definition begin_authenticated (req : TokenRequest)
    : srv (gmap string string * (RegisteredClient * string * string)) :=
  do* check (is_Some_bool (BackchannelAuthenticationEndpoint cfg)) ErrorServerError 500
    "backchannel authentication is not configured" in
  let* params := parseForm (takeResourceParameters (Parameters req)).1 in
  let* authenticated := authenticateRequest params (credentials req)
    [BackchannelAuthenticationEndpoint cfg; TokenEndpoint cfg]
    [MTLSBackchannelAuthenticationEndpoint cfg; MTLSTokenEndpoint cfg] in
  ret (params, authenticated).

Definition BeginBackchannelAuthentication (req : TokenRequest)
    : srv BackchannelAuthenticationAction :=
  or_local AuditEventBeginBackchannelAuthentication "" BackchannelAuthenticationLocalError
    (begin_authenticated req) (λ begun,
      let '(params, (client, dpopProof, instanceKey)) := begun in
      or_local AuditEventBeginBackchannelAuthentication (client_id client)
        BackchannelAuthenticationLocalError (begin_backchannel client params dpopProof instanceKey)
        (λ action,
          do* audit AuditEventBeginBackchannelAuthentication (client_id client)
            AuditOutcomeSuccess "" in
          ret action)).

Definition backchannelHandleHash (handle : string) : digest := sha256 handle.

Definition unknown_backchannel_handle : Error :=
  invalid_request "backchannel authentication handle is unknown".

Definition LookupBackchannelInteraction (handle : string) : srv BackchannelInteractionRequest :=
  do* check has_backchannel ErrorServerError 500 "backchannel authentication is not configured" in
  let* pending := map_err (λ _, unknown_backchannel_handle)
    (on_backchannel (LookupBackchannelAuthentication (backchannelHandleHash handle))) in
  match decodeOwnRequestRecord (cfg_Issuer cfg) (lba_Request pending) with
  | Err err => fail (recordFailure err unknown_backchannel_handle "backchannel authentication request")
  | Ok request =>
    let* client := map_err (λ _, server_error "the request's client could not be resolved")
      (on_env (ResolveClient (lba_ClientID pending))) in
    some_or_server "the request's extension parameters could not be read back"
      (backchannelInteraction client (rq_Parameters request) (rq_Resources request)
         (requiredSubjectForApplication request))
  end.

(** * Decisions *)

Definition invalidBackchannelHandle : Error :=
  invalid_request "backchannel authentication handle is invalid, expired, or already decided".

Abbreviation complete_fails := (or_fail AuditEventCompleteBackchannelAuthentication).

(** The checks of an approval, in the code's order. *)
Definition backchannel_approved (request : requestRecord) (grant : GrantedAuthorization)
    : result Error approvedGrant :=
  let params := rq_Parameters request in
  let requestedScope := default "" (jsonString params "scope") in
  guard_err (validateGrantedScopeSubset (ga_Scope grant) requestedScope)
    (invalid_request "granted scope is empty or exceeds requested scope") ;;
  guard_err (negb (containsScope (fields requestedScope) "openid") ||
             containsScope (ga_Scope grant) "openid")
    (invalid_request ("granted scope must keep " +:+ quoted "openid" +:+
      ", which a CIBA token response's ID token requires")) ;;
  resources ← grantedResources (rq_Resources request) (ga_Resources grant);
  guard_err (validateGrantedIDTokenClaims (ga_IDTokenClaims grant)
    (MaxIDTokenClaimsBytes (cfg_Limits cfg)))
    (invalid_request "granted ID token claims are not valid") ;;
  guard_err (validateGrantID (ga_GrantID grant)) (invalid_request "the grant ID is not valid") ;;
  details ← (if bool_decide (ga_AuthorizationDetails grant = []) then Ok RawNil
    else some_or_invalid "granted authorization_details exceeds what was requested"
      (validateGrantedAuthorizationDetails (default RawNil (params !! authorizationDetailsParameter))
         (ga_AuthorizationDetails grant)));
  names ← some_or_invalid "approved identity claims exceed what was requested"
    (approvedClaimNames params (ga_ApprovedIdentityClaims grant));
  Ok {| ag_authorizationDetails := details; ag_resources := resources;
        ag_idTokenClaims := names.1; ag_userinfoClaims := names.2;
        ag_idTokenClaimValues := requestedClaimValues params "id_token" names.1;
        ag_userinfoClaimValues := requestedClaimValues params "userinfo" names.2 |}.

Definition backchannel_grant (request : requestRecord) (subject : AuthenticatedSubject)
    (clientSub sector : string) (auth : AuthenticationContext) (grant : GrantedAuthorization)
    (approved : approvedGrant) (decidedAt : Time) : grantRecord := {|
  g_Version := 0; g_Kind := grantKindBackchannel; g_Issuer := "";
  g_RedirectURI := ""; g_CodeChallenge := ""; g_Nonce := "";
  g_DPoPJKT := rq_DPoPJKT request; g_Thumbprint := ""; g_ClientInstanceKey := "";
  g_Subject := subject; g_ClientSubject := distinctClientSubject clientSub subject;
  g_PairwiseSector := sector; g_PairwisePrefix := pairwisePrefixOf sector;
  g_Scope := ga_Scope grant; g_AuthTime := ac_authTime auth; g_ACR := ac_acr auth;
  g_AMR := ac_amr auth; g_AuthorizationDetails := ag_authorizationDetails approved;
  g_Resources := ag_resources approved; g_TokenClaims := rq_TokenClaims request;
  g_RequestedIDTokenClaims := ag_idTokenClaims approved;
  g_RequestedUserinfoClaims := ag_userinfoClaims approved;
  g_RequestedIDTokenClaimValues := ag_idTokenClaimValues approved;
  g_RequestedUserinfoClaimValues := ag_userinfoClaimValues approved;
  g_IDTokenClaims := ga_IDTokenClaims grant; g_GrantID := ga_GrantID grant; g_CodeGrantID := "";
  g_GrantType := CIBAGrantType; g_IssuedAt := Some decidedAt |}.

Definition decide (handleHash : digest) (status : BackchannelAuthenticationStatus)
    (grant : RawMessage) (reason : string) : DecideBackchannelAuthentication :=
  {| dba_HandleHash := handleHash; dba_Status := status; dba_Grant := grant; dba_Reason := reason |}.

Definition approveBackchannelAuthentication (handleHash : digest) (clientID : ClientID)
    (request : requestRecord) (subject : AuthenticatedSubject) (auth : AuthenticationContext)
    (grant : GrantedAuthorization) : srv DecideBackchannelAuthentication :=
  do* complete_fails "" (check (negb (bool_decide (subject = ""))) ErrorServerError 500
    "authorize result carries no authenticated subject") in
  let* now := Now in
  let problem := authTimeProblem auth now (MaxClockSkew (cfg_Limits cfg)) in
  do* complete_fails "" (check (bool_decide (problem = "")) ErrorServerError 500 problem) in
  let* sub := complete_fails clientID (subjectAtClient clientID subject) in
  let '(clientSub, sector) := sub in
  let failed := decide handleHash BackchannelAuthenticationAuthenticationFailed RawNil in
  if negb (meetsEssentialACR (rq_EssentialACRValues request) (ac_acr auth))
  then ret (failed "the user's authentication doesn't meet the requested essential acr")
  else if negb (meetsRequiredSubject (rq_RequiredSubject request) clientSub)
  then ret (failed "the authenticated user isn't the one the request named")
  else
    let* approved := complete_fails clientID (lift (backchannel_approved request grant)) in
    let* decidedAt := Now in
    let* encoded := complete_fails clientID
      (some_or_server "failed to encode backchannel authentication grant"
        (encodeGrantRecord (cfg_Issuer cfg)
          (backchannel_grant request subject clientSub sector auth grant approved decidedAt))) in
    ret (decide handleHash BackchannelAuthenticationApproved encoded "").

Definition notifyBackchannelPing (decided : DecidedBackchannelAuthentication) : srv unit :=
  if negb (bool_decide (dcd_DeliveryMode decided = "ping")) then ret tt
  else
    let* client := try (on_env (ResolveClient (dcd_ClientID decided))) in
    match client with
    | Err _ => ret tt
    | Ok client =>
      match backchannelClientNotificationEndpoint client with
      | None => ret tt
      | Some endpoint =>
        do* try (on_env (Notify {| bn_Endpoint := endpoint;
          bn_ClientNotificationToken := dcd_ClientNotificationToken decided;
          bn_AuthReqID := dcd_AuthReqID decided |})) in
        ret tt
      end
    end.

(** The decision a result makes. *)
Definition backchannel_decision (handleHash : digest) (clientID : ClientID) (request : requestRecord)
    (result : option InteractionResult) : srv DecideBackchannelAuthentication :=
  match result with
  | Some (authorizeResult subject auth grant) =>
    approveBackchannelAuthentication handleHash clientID request subject auth grant
  | Some (denyResult reason) | Some (denyLocallyResult reason) =>
    ret (decide handleHash BackchannelAuthenticationDenied RawNil reason)
  | Some (authenticationFailedResult reason) =>
    ret (decide handleHash BackchannelAuthenticationAuthenticationFailed RawNil reason)
  | _ => complete_fails "" (fail (server_error "unrecognized interaction result"))
  end.

(** The pending request: its client and its record, unexpired. *)
Definition pending_backchannel (handleHash : digest) : srv (ClientID * requestRecord) :=
  let* pending := complete_fails "" (map_err (λ _, invalidBackchannelHandle)
    (on_backchannel (LookupBackchannelAuthentication handleHash))) in
  let clientID := lba_ClientID pending in
  let* request := complete_fails clientID (map_err
    (λ err, recordFailure err invalidBackchannelHandle "backchannel authentication request")
    (lift (decodeOwnRequestRecord (cfg_Issuer cfg) (lba_Request pending)))) in
  do* (match rq_ExpiresAt request with
       | None => ret tt
       | Some expiresAt =>
         let* now := Now in
         complete_fails clientID (check (Before now expiresAt) ErrorExpiredToken 400
           "backchannel authentication request has expired")
       end) in
  ret (clientID, request).

Definition CompleteBackchannelAuthentication (req : CompleteBackchannelAuthenticationRequest)
    : srv unit :=
  do* check has_backchannel ErrorServerError 500 "backchannel authentication is not configured" in
  let handleHash := backchannelHandleHash (cbr_Handle req) in
  let* pending := pending_backchannel handleHash in
  let* decision := backchannel_decision handleHash pending.1 pending.2 (cbr_Result req) in
  let* decided := complete_fails "" (map_err (λ _, invalidBackchannelHandle)
    (on_backchannel (DecideBackchannel decision))) in
  do* notifyBackchannelPing decided in
  audit AuditEventCompleteBackchannelAuthentication (dcd_ClientID decided) AuditOutcomeSuccess "".
End requests.
