(* ===== verification/Signing.v ===== *)
(** What the program signs: jose.Sign (src/internal/jose/compact.go,
    header.go) and the JWTs built on it, each the counterpart of a verifier of
    another file: DPoP proofs (src/internal/dpop/create.go), client assertions
    (src/internal/clientassertion/create.go), request objects
    (src/internal/requestobject/create.go), authorization responses
    (src/internal/jarm/create.go), access tokens and ID tokens
    (src/internal/token/issue.go).

    The class JoseSigner holds what they call: encoding/json's writers, a
    crypto.Signer's key, the JWK of a key, the signature itself and the random
    source, in a state of any type. Its laws (SigningLaws) are what those
    promise. An error's text is dropped. *)
From S2P Require Import Prelude GoStrings Json GoTime Sha256 Base64 Platform JsonCodec.
From S2P Require Import Effects Storage ServerTypes Numeric Claims Dpop Jose Canonical.
From S2P Require Import RequestObject Tokens Attestation ClientAuth ServerState.
From S2P Require Import Parameters Completion.
From stdpp Require Import options.

Inductive create_error := CreateFailed.

Class JoseSigner (St : Type) `{JoseCrypto} := {
  (* json.Marshal and strictjson.MarshalUnescaped *)
  json_Marshal : json → string;
  json_MarshalUnescaped : json → string;
  Signer : Type;
  signer_Public : Signer → PublicKey;
  key_Equal : PublicKey → PublicKey → bool;
  (* jose.NewJWK, then JWK.MarshalJSON *)
  validateKeyForAlgorithm : PublicKey → SignatureAlgorithm → bool;
  jwk_MarshalJSON : PublicKey → SignatureAlgorithm → option json;
  (* signECDSA, signRSAPSS or signEdDSA of a signing input *)
  sign_input : Signer → SignatureAlgorithm → string → eff St create_error string;
  (* io.ReadFull of the random source *)
  random_ReadFull : nat → eff St create_error string }.

(** * jose.Sign *)

Definition algorithm_String (a : SignatureAlgorithm) : string :=
  if decide (a = ES256) then "ES256"
  else if decide (a = PS256) then "PS256"
  else if decide (a = EdDSA) then "EdDSA"
  else "".

(** A string field of a struct, with omitempty. *)
Definition string_field (s : string) : option (option json) := enc_str (coerce_utf8 s).
Definition string_field_omit (s : string) : option (option json) := enc_str_omit (coerce_utf8 s).

Section signing.
Context {St : Type} `{Platform} `{J : JoseCrypto} `{!JoseSigner St}.

Abbreviation creating := (eff St create_error).

Definition require_create (b : bool) : creating unit := lift (guard_err b CreateFailed).

(** marshalHeader. *)
Definition header_members (h : Header PublicKey) : option (list (string * json)) :=
  match hd_JWK h with
  | Some k => Some <$> jwk_MarshalJSON k (hd_Algorithm h)
  | None => Some None
  end ≫= λ jwk : option json,
  encode_members [
    ("alg", string_field (algorithm_String (hd_Algorithm h)));
    ("typ", string_field_omit (hd_Type h));
    ("kid", string_field_omit (hd_KeyID h));
    ("jwk", Some jwk);
    ("x5c", enc_raw_omit (hd_X5C h));
    ("crit", Some None)].

Definition marshalHeader (h : Header PublicKey) : option string :=
  if SignatureAlgorithm_IsValid (hd_Algorithm h)
  then (λ l, json_Marshal (JObj l)) <$> header_members h else None.

Definition jose_Sign (signer : Signer) (h : Header PublicKey) (payload : string)
    : creating string :=
  do* require_create (negb (bool_decide (payload = ""))) in
  do* require_create (DecodesLosslessly payload) in
  do* require_create (SignatureAlgorithm_IsValid (hd_Algorithm h)) in
  do* require_create (match hd_JWK h with
                      | Some k => key_Equal (signer_Public signer) k
                      | None => true
                      end) in
  match marshalHeader h with
  | None => fail CreateFailed
  | Some headerJSON =>
    let signingInput := EncodeToString rawURL headerJSON +:+ "." +:+ EncodeToString rawURL payload in
    let* sig := sign_input signer (hd_Algorithm h) signingInput in
    ret (signingInput +:+ "." +:+ EncodeToString rawURL sig)
  end.

(** randomJTI, of each of the packages. *)
Definition jtiSize : nat := 16.
Definition randomJTI : creating string :=
  let* buf := random_ReadFull jtiSize in
  ret (EncodeToString rawURL buf).

Definition plain_header (alg : SignatureAlgorithm) (typ kid : string) : Header PublicKey := {|
  hd_Algorithm := alg; hd_Type := typ; hd_KeyID := kid; hd_JWK := None; hd_X5C := RawNil |}.

(** * DPoP proofs (internal/dpop/create.go) *)

Record ProofRequest := {
  pr_Signer : Signer;
  pr_Algorithm : SignatureAlgorithm;
  pr_Method : string;
  pr_URL : ParsedURL;
  pr_AccessToken : string;
  pr_Nonce : string;
  pr_Now : Time }.

Definition proof_claims (req : ProofRequest) (jti : string) : option (list (string * json)) :=
  encode_members [
    ("jti", string_field jti);
    ("htm", string_field (pr_Method req));
    ("htu", string_field (URI (pr_URL req)));
    ("iat", enc_int (unix_seconds (pr_Now req)));
    ("nbf", Some None);
    ("exp", Some None);
    ("ath", if bool_decide (pr_AccessToken req = "") then Some None
            else string_field_omit (accessTokenHash (pr_AccessToken req)));
    ("nonce", string_field_omit (pr_Nonce req))].

Definition CreateProof (req : ProofRequest) : creating string :=
  do* require_create (SignatureAlgorithm_IsValid (pr_Algorithm req)) in
  do* require_create (negb (bool_decide (pr_Method req = ""))) in
  do* require_create (HasNormalPath (pr_URL req)) in
  do* require_create (IsASCII (url_Host (pr_URL req))) in
  do* require_create (negb (IsZero (pr_Now req))) in
  let pub := signer_Public (pr_Signer req) in
  do* require_create (validateKeyForAlgorithm pub (pr_Algorithm req)) in
  let* jti := randomJTI in
  match proof_claims req jti with
  | None => fail CreateFailed
  | Some claims =>
    jose_Sign (pr_Signer req) {|
      hd_Algorithm := pr_Algorithm req; hd_Type := jwtType; hd_KeyID := ""; hd_JWK := Some pub;
      hd_X5C := RawNil |} (json_Marshal (JObj claims))
  end.

(** * Client assertions (internal/clientassertion/create.go) *)

Record AssertionRequest := {
  ar_Signer : Signer;
  ar_Algorithm : SignatureAlgorithm;
  ar_KeyID : string;
  ar_ClientID : string;
  ar_Audience : string;
  ar_Now : Time;
  ar_Lifetime : Duration }.

Definition assertion_claims (req : AssertionRequest) (jti : string)
    : option (list (string * json)) :=
  encode_members [
    ("iss", string_field (ar_ClientID req));
    ("sub", string_field (ar_ClientID req));
    ("aud", string_field (ar_Audience req));
    ("jti", string_field jti);
    ("exp", enc_int (unix_seconds (Add (ar_Now req) (ar_Lifetime req))));
    ("iat", enc_int_omit (unix_seconds (ar_Now req)));
    ("nbf", Some None)].

Definition CreateAssertion (req : AssertionRequest) : creating string :=
  do* require_create (SignatureAlgorithm_IsValid (ar_Algorithm req)) in
  do* require_create (negb (bool_decide (ar_ClientID req = ""))) in
  do* require_create (negb (bool_decide (ar_Audience req = ""))) in
  do* require_create (negb (IsZero (ar_Now req))) in
  do* require_create (bool_decide (0 < ar_Lifetime req)%Z) in
  let* jti := randomJTI in
  match assertion_claims req jti with
  | None => fail CreateFailed
  | Some claims =>
    jose_Sign (ar_Signer req) (plain_header (ar_Algorithm req) "" (ar_KeyID req))
      (json_Marshal (JObj claims))
  end.

(** * Claims sets built of parameters

    The parameters with the registered claims written over them. *)

Definition set_claims (standard : list (string * RawMessage)) (params : gmap string RawMessage)
    : gmap string RawMessage :=
  foldr (λ p m, <[p.1 := p.2]> m) params standard.

Definition refuses_reserved (reserved : list string) (params : gmap string RawMessage) : bool :=
  forallb (λ name, negb (is_Some_bool (params !! name))) reserved.

(** Encoding a claims set, and signing it. *)
Definition sign_claims (write : json → string) (signer : Signer) (h : Header PublicKey)
    (claims : gmap string RawMessage) : creating string :=
  match marshal_object claims with
  | Some (Raw j) => jose_Sign signer h (write j)
  | _ => fail CreateFailed
  end.

(** * Request objects (internal/requestobject/create.go) *)

Record ObjectParams := {
  oc_Signer : Signer;
  oc_Algorithm : SignatureAlgorithm;
  oc_KeyID : string;
  oc_ClientID : string;
  oc_Audience : string;
  oc_Now : Time;
  oc_Lifetime : Duration;
  oc_Parameters : gmap string RawMessage }.

Definition object_reserved : list string := ["iss"; "aud"; "exp"; "nbf"; "iat"; "jti"].

(** A client_id parameter names the client. *)
Definition object_client_id_ok (p : ObjectParams) : bool :=
  match oc_Parameters p !! "client_id" with
  | None => true
  | Some raw => match unmarshal_string raw with
                | Some clientID => bool_decide (clientID = oc_ClientID p)
                | None => false
                end
  end.

Definition object_claims (p : ObjectParams) (jti : string) : list (string * RawMessage) := [
  ("iss", marshal_string (oc_ClientID p));
  ("aud", marshal_string (oc_Audience p));
  ("exp", marshal_int (unix_seconds (Add (oc_Now p) (oc_Lifetime p))));
  ("nbf", marshal_int (unix_seconds (oc_Now p)));
  ("iat", marshal_int (unix_seconds (oc_Now p)));
  ("jti", marshal_string jti)].

Definition requestobject_Create (p : ObjectParams) : creating string :=
  do* require_create (SignatureAlgorithm_IsValid (oc_Algorithm p)) in
  do* require_create (negb (bool_decide (oc_ClientID p = ""))) in
  do* require_create (negb (bool_decide (oc_Audience p = ""))) in
  do* require_create (negb (IsZero (oc_Now p))) in
  do* require_create (bool_decide (0 < oc_Lifetime p)%Z) in
  do* require_create (refuses_reserved object_reserved (oc_Parameters p)) in
  do* require_create (object_client_id_ok p) in
  let* jti := randomJTI in
  sign_claims json_MarshalUnescaped (oc_Signer p)
    (plain_header (oc_Algorithm p) Objects.jwtType (oc_KeyID p))
    (set_claims (object_claims p jti) (oc_Parameters p)).

(** * Authorization responses (internal/jarm/create.go) *)

Record ResponseParams := {
  jc_Signer : Signer;
  jc_Algorithm : SignatureAlgorithm;
  jc_KeyID : string;
  jc_Issuer : string;
  jc_Audience : string;
  jc_Now : Time;
  jc_Lifetime : Duration;
  jc_Parameters : gmap string RawMessage }.

Definition response_claims (p : ResponseParams) : list (string * RawMessage) := [
  ("iss", marshal_string (jc_Issuer p));
  ("aud", marshal_string (jc_Audience p));
  ("exp", marshal_int (unix_seconds (Add (jc_Now p) (jc_Lifetime p))));
  ("iat", marshal_int (unix_seconds (jc_Now p)))].

Definition jarm_Create (p : ResponseParams) : creating string :=
  do* require_create (SignatureAlgorithm_IsValid (jc_Algorithm p)) in
  do* require_create (negb (bool_decide (jc_Issuer p = ""))) in
  do* require_create (negb (bool_decide (jc_Audience p = ""))) in
  do* require_create (negb (IsZero (jc_Now p))) in
  do* require_create (bool_decide (0 < jc_Lifetime p)%Z) in
  do* require_create (refuses_reserved jarm_reserved (jc_Parameters p)) in
  sign_claims json_Marshal (jc_Signer p) (plain_header (jc_Algorithm p) "" (jc_KeyID p))
    (set_claims (response_claims p) (jc_Parameters p)).

(** * Access tokens and ID tokens (internal/token/issue.go) *)

Record JWTParams := {
  ja_Signer : Signer;
  ja_Algorithm : SignatureAlgorithm;
  ja_KeyID : string;
  ja_Issuer : string;
  ja_Subject : string;
  ja_Audience : string;
  ja_Audiences : list string;
  ja_ClientID : string;
  ja_Scope : string;
  ja_Confirmation : option Tokens.Confirmation;
  ja_Now : Time;
  ja_Lifetime : Duration;
  ja_Parameters : gmap string RawMessage }.

Definition validateAccessTokenAudiences (p : JWTParams) : bool :=
  negb (bool_decide (ja_Audience p = "") && bool_decide (ja_Audiences p = [])) &&
  forallb (λ a, negb (bool_decide (a = ""))) (ja_Audiences p).

(** checkReservedParameters; false is an error. *)
Definition checkReservedParameters (kind : Kind) (params : gmap string RawMessage) : bool :=
  forallb (λ p, negb (Reserved kind Embedder p.1)) (map_to_list params).

Definition validateAccessTokenParams (p : JWTParams) : bool :=
  SignatureAlgorithm_IsValid (ja_Algorithm p) && negb (bool_decide (ja_Issuer p = "")) &&
  negb (bool_decide (ja_Subject p = "")) && validateAccessTokenAudiences p &&
  negb (bool_decide (ja_ClientID p = "")) && negb (IsZero (ja_Now p)) &&
  bool_decide (0 < ja_Lifetime p)%Z && checkReservedParameters Claims.AccessToken (ja_Parameters p) &&
  match ja_Confirmation p with
  | Some c => negb (Bool.eqb (bool_decide (Tokens.JKT c = "")) (bool_decide (Tokens.X5TS256 c = "")))
  | None => true
  end.

Definition accessTokenAudience_of (p : JWTParams) : RawMessage :=
  match ja_Audiences p with
  | [] => marshal_string (ja_Audience p)
  | [a] => marshal_string a
  | l => Raw (JArr (JStr ∘ coerce_utf8 <$> l))
  end.

Definition confirmation_json (c : Tokens.Confirmation) : RawMessage :=
  match encode_members [("jkt", string_field_omit (Tokens.JKT c));
                        ("x5t#S256", string_field_omit (Tokens.X5TS256 c))] with
  | Some l => Raw (JObj l)
  | None => RawInvalid
  end.

(** [if v != "" { standard[name] = v }] *)
Definition claim_if (b : bool) (name : string) (raw : RawMessage) : list (string * RawMessage) :=
  if b then [(name, raw)] else [].

Definition jwt_claims (p : JWTParams) (jti : string) : list (string * RawMessage) :=
  [("iss", marshal_string (ja_Issuer p));
   ("sub", marshal_string (ja_Subject p));
   ("aud", accessTokenAudience_of p);
   ("client_id", marshal_string (ja_ClientID p));
   ("exp", marshal_int (unix_seconds (Add (ja_Now p) (ja_Lifetime p))));
   ("iat", marshal_int (unix_seconds (ja_Now p)));
   ("jti", marshal_string jti)] ++
  claim_if (negb (bool_decide (ja_Scope p = ""))) "scope" (marshal_string (ja_Scope p)) ++
  match ja_Confirmation p with Some c => [("cnf", confirmation_json c)] | None => [] end.

(** The token and its jti. *)
Definition IssueJWTAccessToken (p : JWTParams) : creating (string * string) :=
  do* require_create (validateAccessTokenParams p) in
  let* jti := randomJTI in
  let* tok := sign_claims json_MarshalUnescaped (ja_Signer p)
    (plain_header (ja_Algorithm p) Tokens.atJWTType (ja_KeyID p))
    (set_claims (jwt_claims p jti) (ja_Parameters p)) in
  ret (tok, jti).

Definition validateIDTokenParams (alg : SignatureAlgorithm) (p : IDTokenParams) : bool :=
  SignatureAlgorithm_IsValid alg && negb (bool_decide (idp_Issuer p = "")) &&
  negb (bool_decide (idp_Subject p = "")) && negb (bool_decide (idp_Audience p = "")) &&
  negb (IsZero (idp_Now p)) && bool_decide (0 < idp_Lifetime p)%Z &&
  checkReservedParameters Claims.IDToken (idp_Parameters p).

Definition id_token_claims (p : IDTokenParams) (atHash : string) : list (string * RawMessage) :=
  [("iss", marshal_string (idp_Issuer p));
   ("sub", marshal_string (idp_Subject p));
   ("aud", marshal_string (idp_Audience p));
   ("exp", marshal_int (unix_seconds (Add (idp_Now p) (idp_Lifetime p))));
   ("iat", marshal_int (unix_seconds (idp_Now p)))] ++
  claim_if (negb (bool_decide (idp_Nonce p = ""))) "nonce" (marshal_string (idp_Nonce p)) ++
  claim_if (negb (IsZero (idp_AuthTime p))) "auth_time"
    (marshal_int (unix_seconds (idp_AuthTime p))) ++
  claim_if (negb (bool_decide (idp_ACR p = ""))) "acr" (marshal_string (idp_ACR p)) ++
  claim_if (negb (bool_decide (idp_AMR p = []))) "amr"
    (Raw (JArr (JStr ∘ coerce_utf8 <$> idp_AMR p))) ++
  claim_if (negb (bool_decide (idp_AccessToken p = ""))) "at_hash" (marshal_string atHash).

(** at_hash, when there is an access token. *)
Definition id_token_at_hash (alg : SignatureAlgorithm) (p : IDTokenParams) : creating string :=
  if bool_decide (idp_AccessToken p = "") then ret ""
  else map_err (λ _, CreateFailed) (lift (Tokens.computeATHash (idp_AccessToken p) alg)).

Definition IssueIDToken (signer : Signer) (alg : SignatureAlgorithm) (kid : string)
    (p : IDTokenParams) : creating string :=
  do* require_create (validateIDTokenParams alg p) in
  let* atHash := id_token_at_hash alg p in
  sign_claims json_MarshalUnescaped signer (plain_header alg "" kid)
    (set_claims (id_token_claims p atHash) (idp_Parameters p)).
End signing.
