(* ===== verification/Client.v ===== *)
(** The relying party: src/client. Module Forms is its form encoding
    (src/internal/par/form.go) and the reading of a query (net/url);
    Module Client its authorization flow: BeginAuthorization
    (begin_authorization.go), HandleAuthorizationResponse
    (authorization_response.go), ExchangeCode (exchange_code.go),
    CompleteAuthorization (complete_authorization.go), RefreshTokens
    (refresh.go) and RevokeToken (revoke.go), with the session record
    (session_record.go), DPoP nonces (noncecache.go), client authentication
    (signer.go, client_auth_attestation.go, internal/clientattestation/create.go),
    HTTP (transport.go) and the authorization server's errors
    (server_error.go, internal/par/response.go).

    A Client's methods run in a World: its session store, its nonce cache, the
    latest attestation challenge, the requests it has handed to its HTTP
    client, and an environment for everything else. The class ClientLib holds
    its configuration and dependencies, as New leaves them: an HTTP exchange,
    the clock, the keys, and JWE decryption are operations.
    An error is its code and the server's response it carries, its
    description and cause being diagnostics; an [error] that is not one of
    the package's, which every caller wraps, is [tt]. *)
From S2P Require Import Prelude GoStrings Json GoTime Sha256 Base64 Pkce Digests.
From S2P Require Import Effects Storage Platform ServerTypes Rar JsonCodec Numeric Dpop.
From S2P Require Import Jose Canonical Extensions Attestation ClientAuth ServerState.
From S2P Require Import RequestObject Tokens TokenChecks Parameters Completion Signing.
From stdpp Require Import options.

Module Forms.

Definition hex_digit (c : ascii) : option N :=
  let n := byte_code c in
  if ((48 <=? n) && (n <=? 57))%N then Some (n - 48)%N
  else if ((97 <=? n) && (n <=? 102))%N then Some (n - 87)%N
  else if ((65 <=? n) && (n <=? 70))%N then Some (n - 55)%N
  else None.

(** [url.QueryUnescape] *)
Fixpoint QueryUnescape (s : string) : option string :=
  match s with
  | EmptyString => Some EmptyString
  | String c s =>
    if (byte_code c =? 37)%N then
      match s with
      | String a (String b s) =>
        match hex_digit a, hex_digit b with
        | Some h, Some l => String (ascii_of_N (16 * h + l)) <$> QueryUnescape s
        | _, _ => None
        end
      | _ => None
      end
    else if (byte_code c =? 43)%N then String " " <$> QueryUnescape s
    else String c <$> QueryUnescape s
  end.

(** [strings.Cut] at a byte: what is before it and what is after. *)
Fixpoint Cut (sep : ascii) (s : string) : string * string :=
  match s with
  | EmptyString => (EmptyString, EmptyString)
  | String c s =>
    if bool_decide (c = sep) then (EmptyString, s)
    else let '(before, after) := Cut sep s in (String c before, after)
  end.

Definition maxQueryParams : nat := N.to_nat 10000.

(** One piece between ampersands: [Some None] when it is empty. *)
Definition parse_pair (piece : string) : option (option (string * string)) :=
  if contains_byte piece ";" then None
  else if bool_decide (piece = "") then Some None
  else
    let '(key, value) := Cut "=" piece in
    match QueryUnescape key, QueryUnescape value with
    | Some key, Some value => Some (Some (key, value))
    | _, _ => None
    end.

(** [url.ParseQuery], its pairs in the query's order; [None] is an error. *)
Definition ParseQuery (query : string) : option (list (string * string)) :=
  let pieces := Split query "&" in
  if bool_decide (maxQueryParams < length pieces) then None
  else omap id <$> mapM parse_pair pieces.

Inductive error := ErrFormTooLarge | ErrMalformedForm | ErrDuplicateParameter.

Definition maxFormBytes : nat := N.to_nat 65536.

Definition EncodeForm (params : gmap string string) : string := encode_map params.

Definition DecodeForm (body : string) : result error (gmap string string) :=
  if bool_decide (maxFormBytes < String.length body) then Err ErrFormTooLarge
  else
    match ParseQuery body with
    | None => Err ErrMalformedForm
    | Some values =>
      if bool_decide (NoDup values.*1) then Ok (list_to_map values) else Err ErrDuplicateParameter
    end.
End Forms.

Module Client.
Import Forms.

(** * Errors (errors.go, server_error.go) *)

Inductive ErrorCode :=
| ErrorInvalidRequest | ErrorInvalidResponse | ErrorInternal | ErrorResponseTooLarge
| ErrorRevocationNotSupported | ErrorTrustChainExpired.

Record ServerErrorResponse := {
  ser_Code : string;
  ser_Description : string;
  ser_URI : string;
  ser_HTTPStatus : Z }.

Record Error := {
  err_code : ErrorCode;
  err_server : option ServerErrorResponse }.

Definition newError (c : ErrorCode) : Error := {| err_code := c; err_server := None |}.
Definition withServerResponse (e : Error) (r : ServerErrorResponse) : Error :=
  {| err_code := err_code e; err_server := Some r |}.

Definition isErrorText (s : string) : bool := IsErrorText s.

(** * HTTP (transport.go) *)

Abbreviation Headers := (gmap string string).

Record Request := {
  req_URL : string;
  req_Body : string;
  req_Header : Headers }.

(** A response as it was received: its body's bytes, and whether reading on
    fails rather than ends. *)
Record Response := {
  res_Followed : bool;
  res_TLS : bool;
  res_StatusCode : Z;
  res_Header : Headers;
  res_Body : string;
  res_BodyError : bool }.

Record Reply := {
  re_body : string;
  re_status : Z;
  re_header : Headers }.

(** [Header.Get] *)
Definition Get (h : Headers) (name : string) : string := default "" (h !! name).

Definition dpopNonceHeader : string := "DPoP-Nonce".
Definition attestationHeader : string := "OAuth-Client-Attestation".
Definition attestationPoPHeader : string := "OAuth-Client-Attestation-PoP".
Definition attestationChallengeHeader : string := "OAuth-Client-Attestation-Challenge".

Definition mergeHeaders (base extra : Headers) : Headers := extra ∪ base.

(** * Configuration (config.go) *)

Inductive Profile := ProfileFAPISecurity | ProfileFAPISecurityWithMessageSigning.
Inductive PARDPoPBinding := PARDPoPBindingProof | PARDPoPBindingJKT.
Inductive PushedRequestEncoding :=
| PushedRequestEncodingProfileDefault | PushedRequestEncodingRequestObject.
Inductive AuthorizationResponseIssPolicy :=
| RequireAuthorizationResponseIss | TolerateAbsentAuthorizationResponseIss.
Inductive CallbackBinding := CallbackBindingSessionHandle | CallbackBindingDeviceLocalStore.
#[export] Instance profile_eq_dec : EqDecision Profile.
Proof. solve_decision. Defined.
#[export] Instance par_binding_eq_dec : EqDecision PARDPoPBinding.
Proof. solve_decision. Defined.
#[export] Instance encoding_eq_dec : EqDecision PushedRequestEncoding.
Proof. solve_decision. Defined.
#[export] Instance iss_policy_eq_dec : EqDecision AuthorizationResponseIssPolicy.
Proof. solve_decision. Defined.
#[export] Instance callback_binding_eq_dec : EqDecision CallbackBinding.
Proof. solve_decision. Defined.

Record Algorithms := {
  al_ClientAuthentication : SignatureAlgorithm;
  al_RequestObject : SignatureAlgorithm;
  al_DPoP : SignatureAlgorithm;
  al_JARM : SignatureAlgorithm;
  al_IDToken : SignatureAlgorithm;
  al_IDTokenKeyManagement : N;
  al_IDTokenContentEncryption : N;
  al_ClientAttestationPoP : SignatureAlgorithm;
  al_BackchannelAuthenticationRequest : SignatureAlgorithm }.

(** A client that has no revocation or CIBA endpoint has [None]. *)
Record Endpoints := {
  ep_Authorization : ParsedURL;
  ep_Token : ParsedURL;
  ep_PushedAuthorizationRequest : ParsedURL;
  ep_Revocation : option ParsedURL;
  ep_BackchannelAuthentication : option ParsedURL }.

Record Limits := {
  li_ClientAssertionLifetime : Duration;
  li_RequestObjectLifetime : Duration;
  li_SessionLifetime : Duration;
  li_MaxJARMResponseLifetime : Duration;
  li_MaxIDTokenLifetime : Duration;
  li_MaxClockSkew : Duration;
  li_MaxHTTPResponseBytes : Z;
  li_MaxJOSECompactBytes : nat;
  li_BackchannelAuthenticationRequestLifetime : Duration }.

Record Config := {
  cc_Issuer : ParsedURL;
  cc_ClientID : string;
  cc_RedirectURI : string;
  cc_CallbackBinding : CallbackBinding;
  cc_Endpoints : Endpoints;
  cc_Profile : Profile;
  cc_Algorithms : Algorithms;
  cc_Limits : Limits;
  cc_AuthorizationResponseIssPolicy : AuthorizationResponseIssPolicy;
  cc_TrustedIDTokenAudiences : list string;
  cc_PARDPoPBinding : PARDPoPBinding;
  cc_PushedRequestEncoding : PushedRequestEncoding;
  cc_SenderConstrain : SenderConstrain;
  cc_ClientAuthMethod : ClientAuthMethod;
  cc_OAuthOnly : bool;
  cc_BackchannelTokenDeliveryMode : BackchannelTokenDeliveryMode }.

(** * Dependencies (dependencies.go) *)

Inductive SigningPurpose :=
| JARMSigning | AccessTokenSigning | IDTokenSigning | UserInfoSigning | ClientAuthentication
| RequestObjectSigning | DPoPProofSigning | BackchannelAuthenticationRequestSigning
| ClientAttestationPoPSigning | FederationEntitySigning.
Inductive IssuerVerificationPurpose :=
| AccessTokenVerification | JARMVerification | IDTokenVerification | UserInfoVerification.

Record IssuerKeyRequest := {
  ikr_Issuer : string;
  ikr_Purpose : IssuerVerificationPurpose;
  ikr_Algorithm : SignatureAlgorithm;
  ikr_KeyID : string }.

Class DPoPNonceCache (C : Type) := {
  cache_Get : string → C → option string * C;
  cache_Set : string → string → C → C }.

(** InMemoryDPoPNonceCache, each of whose methods holds its mutex. *)
Definition InMemoryDPoPNonceCache : Type := gmap string string.
Definition NewInMemoryDPoPNonceCache : InMemoryDPoPNonceCache := ∅.
Definition InMemory_Get (scope : string) (c : InMemoryDPoPNonceCache)
    : option string * InMemoryDPoPNonceCache := (c !! scope, c).
Definition InMemory_Set (scope nonce : string) (c : InMemoryDPoPNonceCache)
    : InMemoryDPoPNonceCache :=
  if bool_decide (nonce = "") then delete scope c else <[scope := nonce]> c.
#[export] Instance in_memory_cache : DPoPNonceCache InMemoryDPoPNonceCache := {|
  cache_Get := InMemory_Get; cache_Set := InMemory_Set |}.

Inductive jwe_error := ErrTooLarge | ErrDecrypt.

Class ClientLib (Env Sess Cache : Type) `{Platform} `{JoseCrypto} `{!JoseSigner Env}
    `{!SessionStore Sess} `{!DPoPNonceCache Cache} := {
  cfg : Config;
  trustChainExpiresAt : Time;
  clock_Now : Env → Time * Env;
  http_Do : Request → eff Env unit Response;
  (* Keys; None when it is nil *)
  Keys_PublicKey : option (SigningPurpose → SignatureAlgorithm → eff Env unit (PublicKey * string));
  (* a keyManagerSigner for a key and its ID *)
  keyManagerSigner : SigningPurpose → SignatureAlgorithm → PublicKey → string → Signer;
  IssuerKeys_nil : bool;
  ResolveIssuerKeys : IssuerKeyRequest → eff Env unit (list PublicKey);
  (* jwe.Decrypt with the client's decryption key: content type, plaintext *)
  jwe_Decrypt : string → eff Env jwe_error (string * string);
  CurrentAttestation : eff Env unit string;
  (* None when the source of attestations is no source of challenges *)
  CurrentChallenge : option (eff Env unit string);
  (* json.Decoder.Decode: the first value of a text, whatever follows it *)
  json_Decode : string → RawMessage;
  (* strings.ToLower *)
  ToLower : string → string }.

(** * Checks that read no state *)

(** validDPoPNonce *)
Definition maxDPoPNonceLength : nat := 1024.
Definition token_byte (c : ascii) : bool :=
  let n := byte_code c in negb ((n <? 33) || (126 <? n) || (n =? 34) || (n =? 92))%N.
Definition validDPoPNonce (nonce : string) : bool :=
  negb (bool_decide (nonce = "")) && bool_decide (String.length nonce ≤ maxDPoPNonceLength) &&
  all_bytes token_byte nonce.

Definition maxAttestationChallengeBytes : nat := 1024.
Definition isUsableChallenge (value : string) : bool :=
  negb (bool_decide (value = "")) &&
  bool_decide (String.length value ≤ maxAttestationChallengeBytes) &&
  all_bytes (λ c, negb ((byte_code c <? 33) || (126 <? byte_code c))%N) value.

(** checkScopeTokens *)
Definition checkScopeTokens (scope : list string) : result Error unit :=
  guard_err (forallb (λ s, negb (bool_decide (s = "")) && all_bytes token_byte s) scope)
    (newError ErrorInvalidRequest).

Definition grantedScope (responseScope : string) (requested : list string) : string :=
  if bool_decide (responseScope = "") then join " " requested else responseScope.

(** slices.Sort, then slices.Equal *)
Definition sorted (l : list string) : list string :=
  merge_sort (λ a b, Is_true (string_leb a b)) l.
Definition sameStringSet (a b : list string) : bool :=
  bool_decide (length a = length b) && bool_decide (sorted a = sorted b).

Definition maxExpiresInSeconds : Z := MaxInt64 / Second.
Definition expiresInDuration (seconds : Z) : Duration :=
  (if bool_decide (maxExpiresInSeconds < seconds) then maxExpiresInSeconds * Second
   else seconds * Second)%Z.

Definition tokenTypeFor (s : SenderConstrain) : string :=
  if bool_decide (s = SenderConstrainMTLS) then "Bearer" else "DPoP".

Definition requireIDToken (hasIDToken openID hasMaxAge : bool) : result Error unit :=
  guard_err (negb (negb hasIDToken && (openID || hasMaxAge))) (newError ErrorInvalidResponse).

Definition checkEssentialACR (acr : string) (essential : list string) : result Error unit :=
  guard_err (bool_decide (essential = []) || bool_decide (acr ∈ essential))
    (newError ErrorInvalidResponse).

(** [maxAge + maxClockSkew] wraps. *)
Definition checkAuthenticationAge (authTime : Time) (maxAge : Duration) (now : Time)
    (maxClockSkew : Duration) : result Error unit :=
  guard_err (negb (IsZero authTime)) (newError ErrorInvalidResponse) ;;
  guard_err (negb (bool_decide (int64 (maxAge + maxClockSkew) < Sub now authTime)%Z))
    (newError ErrorInvalidResponse).

Definition resourceSeparator : ascii := ascii_of_N 10.

Definition setResources (params : gmap string string) (resources : list string)
    : gmap string string :=
  match resources with
  | [] => params
  | _ => <[resourceParameter := join (String resourceSeparator "") resources]> params
  end.

(** The values of each key, in the keys' order; a joined resource is split. *)
Definition encodeForm (form : gmap string string) : string :=
  Encode (sorted_elements (dom form) ≫= λ k,
    let v := default "" (form !! k) in
    if bool_decide (k = resourceParameter) then (λ r, (k, r)) <$> Split v resourceSeparator
    else [(k, v)]).

Definition resourceObjectParameter (joined : string) : RawMessage :=
  match Split joined resourceSeparator with
  | [r] => marshal_string r
  | l => Raw (JArr (JStr ∘ coerce_utf8 <$> l))
  end.

(** * Session records (session_record.go) *)

Definition sessionRecordVersion : Z := 1.
Definition maxSessionMaxAgeSeconds : Z := 100 * 366 * 24 * 60 * 60.

Record sessionRecord := {
  sr_Version : Z;
  sr_Nonce : string;
  sr_PKCEVerifier : string;
  sr_Issuer : string;
  sr_ClientID : string;
  sr_RedirectURI : string;
  sr_ResponseMode : string;
  sr_MaxAgeSeconds : option Z;
  sr_OpenID : bool;
  sr_EssentialACR : list string;
  sr_Resource : list string;
  sr_Scope : list string }.

Definition sessionRecord_names : list string :=
  ["v"; "nonce"; "pkce_verifier"; "issuer"; "client_id"; "redirect_uri"; "response_mode";
   "max_age"; "openid"; "essential_acr"; "resource"; "scope"].

(** The duration and whether there is one. *)
Definition maxAge (r : sessionRecord) : Duration * bool :=
  match sr_MaxAgeSeconds r with
  | None => (0%Z, false)
  | Some s => (int64 (s * Second), true)
  end.

Definition enc_true_omit (b : bool) : option (option json) :=
  Some (if b then Some (JBool true) else None).
Definition enc_int_opt (n : option Z) : option (option json) :=
  match n with Some n => enc_int n | None => Some None end.
Definition strings_field_omit (l : list string) : option (option json) :=
  enc_strs_omit (coerce_utf8 <$> l).

Definition sessionRecord_fields (r : sessionRecord) : list (string * option (option json)) := [
  ("v", enc_int (sr_Version r));
  ("nonce", string_field_omit (sr_Nonce r));
  ("pkce_verifier", string_field (sr_PKCEVerifier r));
  ("issuer", string_field (sr_Issuer r));
  ("client_id", string_field_omit (sr_ClientID r));
  ("redirect_uri", string_field (sr_RedirectURI r));
  ("response_mode", string_field (sr_ResponseMode r));
  ("max_age", enc_int_opt (sr_MaxAgeSeconds r));
  ("openid", enc_true_omit (sr_OpenID r));
  ("essential_acr", strings_field_omit (sr_EssentialACR r));
  ("resource", strings_field_omit (sr_Resource r));
  ("scope", strings_field_omit (sr_Scope r))].

Definition with_version (r : sessionRecord) : sessionRecord := {|
  sr_Version := sessionRecordVersion; sr_Nonce := sr_Nonce r;
  sr_PKCEVerifier := sr_PKCEVerifier r; sr_Issuer := sr_Issuer r; sr_ClientID := sr_ClientID r;
  sr_RedirectURI := sr_RedirectURI r; sr_ResponseMode := sr_ResponseMode r;
  sr_MaxAgeSeconds := sr_MaxAgeSeconds r; sr_OpenID := sr_OpenID r;
  sr_EssentialACR := sr_EssentialACR r; sr_Resource := sr_Resource r; sr_Scope := sr_Scope r |}.

(** [None] is an error of json.Marshal. *)
Definition encodeSessionRecord (r : sessionRecord) : option RawMessage :=
  (λ l, Raw (JObj l)) <$> encode_members (sessionRecord_fields (with_version r)).

Definition dec_int64 (old : Z) (j : json) : option Z :=
  match j with JNum n => unmarshal_int64 n | JNull => Some old | _ => None end.
Definition dec_int64_opt (_ : option Z) (j : json) : option (option Z) :=
  match j with JNum n => Some <$> unmarshal_int64 n | JNull => Some None | _ => None end.
Definition dec_bool (old : bool) (j : json) : option bool :=
  match j with JBool b => Some b | JNull => Some old | _ => None end.

(** What [json.Unmarshal] into a struct reads its fields from. *)
Definition struct_members (raw : RawMessage) : option (list (string * json)) :=
  match raw with Raw (JObj l) => Some l | Raw JNull => Some [] | _ => None end.

Section client.
Context `{Platform} `{JoseCrypto}.

(** A list of resource indicators the client sends, or sent. *)
Definition checkResources (resources : list string) : result Error unit :=
  guard_err (bool_decide (length resources ≤ MaxPerRequest) &&
             forallb Check_resource resources && bool_decide (NoDup resources))
    (newError ErrorInvalidRequest).

Definition checkResourceSubset (narrowed granted : list string) : result Error unit :=
  checkResources narrowed ;;
  guard_err (forallb (λ r, bool_decide (r ∈ granted)) narrowed) (newError ErrorInvalidRequest).

(** What decodeSessionRecord checks of a record. *)
Definition record_ok (r : sessionRecord) : bool :=
  bool_decide (sr_Version r = sessionRecordVersion) &&
  negb (bool_decide (sr_PKCEVerifier r = "") || bool_decide (sr_Issuer r = "") ||
        bool_decide (sr_ResponseMode r = "")) &&
  match sr_MaxAgeSeconds r with
  | Some n => bool_decide (0 ≤ n ≤ maxSessionMaxAgeSeconds)%Z
  | None => true
  end &&
  is_ok (checkResources (sr_Resource r)).

Definition decodeSessionRecord (raw : RawMessage) : option sessionRecord :=
  let names := sessionRecord_names in
  match raw with
  | RawNil => None
  | _ =>
    struct_members raw ≫= λ l,
    get names "v" dec_int64 0%Z l ≫= λ v,
    get names "nonce" dec_str "" l ≫= λ nonce,
    get names "pkce_verifier" dec_str "" l ≫= λ verifier,
    get names "issuer" dec_str "" l ≫= λ issuer,
    get names "client_id" dec_str "" l ≫= λ client_id,
    get names "redirect_uri" dec_str "" l ≫= λ redirect_uri,
    get names "response_mode" dec_str "" l ≫= λ response_mode,
    get names "max_age" dec_int64_opt None l ≫= λ max_age,
    get names "openid" dec_bool false l ≫= λ openid,
    get names "essential_acr" dec_strs [] l ≫= λ essential_acr,
    get names "resource" dec_strs [] l ≫= λ resource,
    get names "scope" dec_strs [] l ≫= λ scope,
    let r := {| sr_Version := v; sr_Nonce := nonce; sr_PKCEVerifier := verifier;
                sr_Issuer := issuer; sr_ClientID := client_id; sr_RedirectURI := redirect_uri;
                sr_ResponseMode := response_mode; sr_MaxAgeSeconds := max_age;
                sr_OpenID := openid; sr_EssentialACR := essential_acr; sr_Resource := resource;
                sr_Scope := scope |} in
    if record_ok r then Some r else None
  end.

(** isErrorURI *)
Definition isErrorURI (s : string) : bool :=
  negb (bool_decide (s = "")) && all_bytes token_byte s &&
  match url_parse s with
  | Some u => bool_decide (url_Scheme u = "https") && negb (bool_decide (url_Host u = "")) &&
              bool_decide (url_Opaque u = "") && negb (url_HasUser u)
  | None => false
  end.

Definition newServerErrorResponse (status : Z) (code description uri : string)
    : ServerErrorResponse := {|
  ser_Code := if isErrorText code then code else "";
  ser_Description := if isErrorText description then description else "";
  ser_URI := if isErrorURI uri then uri else "";
  ser_HTTPStatus := status |}.

Context {Env Sess Cache : Type} `{!JoseSigner Env} `{!SessionStore Sess}
  `{!DPoPNonceCache Cache} `{!ClientLib Env Sess Cache}.

(** * Responses of the authorization server (internal/par/response.go) *)

Definition maxResponseBytes : nat := N.to_nat 16384.

Record ErrorResponse := {
  er_Code : string;
  er_Description : string;
  er_URI : string }.

Definition rawErrorResponse_names : list string := ["error"; "error_description"; "error_uri"].

Definition DecodeErrorResponse (body : string) : option ErrorResponse :=
  if bool_decide (maxResponseBytes < String.length body) then None
  else
    struct_members (json_Decode body) ≫= λ l,
    get rawErrorResponse_names "error" dec_str "" l ≫= λ error,
    get rawErrorResponse_names "error_description" dec_str "" l ≫= λ description,
    get rawErrorResponse_names "error_uri" dec_str "" l ≫= λ uri,
    if bool_decide (error = "") then None
    else Some {| er_Code := error; er_Description := description; er_URI := uri |}.

(** The request_uri; its lifetime is checked and not kept by the client. *)
Definition DecodeResult (body : string) : option string :=
  if bool_decide (maxResponseBytes < String.length body) then None
  else
    struct_members (json_Decode body) ≫= λ l,
    get ["request_uri"; "expires_in"] "request_uri" dec_str "" l ≫= λ uri,
    get ["request_uri"; "expires_in"] "expires_in" dec_int64 0%Z l ≫= λ expires_in,
    if bool_decide (uri = "") || bool_decide (expires_in ≤ 0)%Z then None else Some uri.

Definition parErrorFromResponse (r : Reply) : Error :=
  withServerResponse (newError ErrorInvalidResponse)
    match DecodeErrorResponse (re_body r) with
    | None => {| ser_Code := ""; ser_Description := ""; ser_URI := "";
                 ser_HTTPStatus := re_status r |}
    | Some e => newServerErrorResponse (re_status r) (er_Code e) (er_Description e) (er_URI e)
    end.

Definition isDPoPNonceError (body : string) : bool :=
  match DecodeErrorResponse body with
  | Some e => bool_decide (er_Code e = "use_dpop_nonce")
  | None => false
  end.

Definition isASDPoPNonceChallenge (header : Headers) (body : string) : bool :=
  validDPoPNonce (Get header dpopNonceHeader) && isDPoPNonceError body.

Definition isAttestationChallengeError (header : Headers) (body : string) : bool :=
  negb (bool_decide (Get header attestationChallengeHeader = "")) &&
  match DecodeErrorResponse body with
  | Some e => bool_decide (er_Code e = "use_attestation_challenge")
  | None => false
  end.

(** The nonce to retry with, if the request is to be retried. *)
Definition challengeRetry (header : Headers) (body nonce : string) : option string :=
  if isASDPoPNonceChallenge header body then Some (Get header dpopNonceHeader)
  else if negb (isAttestationChallengeError header body) then None
  else if validDPoPNonce (Get header dpopNonceHeader) then Some (Get header dpopNonceHeader)
  else Some nonce.

(** * The client's state *)

Record World := {
  w_env : Env;
  w_sessions : Sess;
  w_nonces : Cache;
  w_challenge : string;
  w_sent : list Request }.

Definition set_env (e : Env) (w : World) : World := {|
  w_env := e; w_sessions := w_sessions w; w_nonces := w_nonces w; w_challenge := w_challenge w;
  w_sent := w_sent w |}.
Definition set_sessions (s : Sess) (w : World) : World := {|
  w_env := w_env w; w_sessions := s; w_nonces := w_nonces w; w_challenge := w_challenge w;
  w_sent := w_sent w |}.
Definition set_nonces (n : Cache) (w : World) : World := {|
  w_env := w_env w; w_sessions := w_sessions w; w_nonces := n; w_challenge := w_challenge w;
  w_sent := w_sent w |}.
Definition set_challenge (c : string) (w : World) : World := {|
  w_env := w_env w; w_sessions := w_sessions w; w_nonces := w_nonces w; w_challenge := c;
  w_sent := w_sent w |}.
Definition add_sent (r : Request) (w : World) : World := {|
  w_env := w_env w; w_sessions := w_sessions w; w_nonces := w_nonces w;
  w_challenge := w_challenge w; w_sent := w_sent w ++ [r] |}.

Abbreviation cli := (eff World Error).
(** An error that is wrapped where it is returned to. *)
Abbreviation step := (eff World unit).

Definition on_env {E A} : eff Env E A → eff World E A := zoom w_env set_env.
Definition signing {A} (m : eff Env create_error A) : step A := map_err (λ _, tt) (on_env m).
(** [if err != nil { return newError(ErrorInternal, …, err) }] *)
Definition internal {A} (m : step A) : cli A := map_err (λ _, newError ErrorInternal) m.
(** An error of the package handed on as an [error]. *)
Definition wrapped {A} (m : cli A) : step A := map_err (λ _, tt) m.

Definition Now {E} : eff World E Time :=
  on_env (λ x, let '(t, x) := clock_Now x in (Ok t, x)).

Definition Issuer : string := url_string (cc_Issuer cfg).

Definition checkTrustChain : cli unit :=
  if IsZero trustChainExpiresAt then ret tt
  else
    let* now := Now in
    if Before now trustChainExpiresAt then ret tt else fail (newError ErrorTrustChainExpired).

Definition generateRandomToken : step string :=
  let* buf := signing (random_ReadFull 32) in
  ret (EncodeToString rawURL buf).

(** ** Nonces (noncecache.go) *)

Definition asNonceScope : string := "as " +:+ Issuer.

Definition cachedDPoPNonce {E} (scope : string) : eff World E string := λ w,
  let '(r, c) := cache_Get scope (w_nonces w) in
  (Ok match r with
      | Some nonce => if validDPoPNonce nonce then nonce else ""
      | None => ""
      end, set_nonces c w).

Definition setDPoPNonce {E} (scope nonce : string) : eff World E unit := λ w,
  (Ok tt, set_nonces (cache_Set scope nonce (w_nonces w)) w).

Definition cacheDPoPNonce {E} (scope nonce : string) : eff World E unit :=
  if validDPoPNonce nonce then setDPoPNonce scope nonce else ret tt.

Definition recordDPoPNonce {E} (scope : string) (status : Z) (header : Headers) (challenge : bool)
    : eff World E unit :=
  if challenge || bool_decide (200 ≤ status < 300)%Z
  then cacheDPoPNonce scope (Get header dpopNonceHeader)
  else if bool_decide (400 ≤ status < 500)%Z then setDPoPNonce scope ""
  else ret tt.

Definition recordASDPoPNonce {E} (r : Reply) : eff World E unit :=
  recordDPoPNonce asNonceScope (re_status r) (re_header r)
    (isASDPoPNonceChallenge (re_header r) (re_body r)).

(** ** HTTP (transport.go) *)

Definition recordAttestationChallenge {E} (header : Headers) : eff World E unit :=
  let value := Get header attestationChallengeHeader in
  if bool_decide (cc_ClientAuthMethod cfg = ClientAuthMethodAttestation) && isUsableChallenge value
  then λ w, (Ok tt, set_challenge value w)
  else ret tt.

(** [io.ReadAll] of a body through [io.LimitReader], whose limit wraps. *)
Definition read_limited (max : Z) (body : string) (body_error : bool) : option string :=
  let limit := Z.to_nat (int64 (max + 1)) in
  if bool_decide (limit ≤ String.length body) then Some (String.substring 0 limit body)
  else if body_error then None else Some body.

Definition send (req : Request) : step Response := λ w,
  on_env (http_Do req) (add_sent req w).

Definition postForm (url body : string) (extraHeaders : Headers) : step Reply :=
  match url_parse url with
  | None => fail tt
  | Some u =>
    let* res := send {|
      req_URL := url; req_Body := body;
      req_Header := mergeHeaders {["Content-Type" := "application/x-www-form-urlencoded";
                                   "Accept" := "application/json"]} extraHeaders |} in
    do* lift (guard_err (negb (res_Followed res)) tt) in
    do* lift (guard_err (negb (bool_decide (url_Scheme u = "https") && negb (res_TLS res))) tt) in
    do* recordAttestationChallenge (res_Header res) in
    let max := li_MaxHTTPResponseBytes (cc_Limits cfg) in
    match read_limited max (res_Body res) (res_BodyError res) with
    | None => fail tt
    | Some data =>
      if bool_decide (max < Z.of_nat (String.length data))%Z then fail tt
      else ret {| re_body := data; re_status := res_StatusCode res; re_header := res_Header res |}
    end
  end.

Definition postFormWithAttestationChallenge (url form : string) (headers : Headers)
    (rebuild : step (string * Headers)) : step Reply :=
  let* r := postForm url form headers in
  if negb (isAttestationChallengeError (re_header r) (re_body r)) then ret r
  else
    let* '(retryForm, retryHeaders) := rebuild in
    postForm url retryForm retryHeaders.

(** ** Keys (signer.go) *)

Definition newSigner (purpose : SigningPurpose) (algorithm : SignatureAlgorithm)
    : step (Signer * string) :=
  match Keys_PublicKey with
  | None => fail tt
  | Some key =>
    let* '(pub, kid) := on_env (key purpose algorithm) in
    ret (keyManagerSigner purpose algorithm pub kid, kid)
  end.

(** ** Attestations (client_auth_attestation.go,
    internal/clientattestation/create.go) *)

Record PoPCreateRequest := {
  pop_Signer : Signer;
  pop_Algorithm : SignatureAlgorithm;
  pop_ClientID : string;
  pop_Audience : string;
  pop_Now : Time;
  pop_Challenge : string }.

Definition PoPTypHeader : string := "oauth-client-attestation-pop+jwt".

Definition pop_claims (req : PoPCreateRequest) (jti : string) : option (list (string * json)) :=
  encode_members [
    ("iss", string_field_omit (pop_ClientID req));
    ("aud", string_field (pop_Audience req));
    ("jti", string_field jti);
    ("iat", enc_int (unix_seconds (pop_Now req)));
    ("exp", Some None);
    ("challenge", string_field_omit (pop_Challenge req));
    ("nbf", Some None)].

Definition CreatePoP (req : PoPCreateRequest) : eff Env create_error string :=
  do* require_create (SignatureAlgorithm_IsValid (pop_Algorithm req)) in
  do* require_create (negb (bool_decide (pop_ClientID req = ""))) in
  do* require_create (negb (bool_decide (pop_Audience req = ""))) in
  do* require_create (negb (IsZero (pop_Now req))) in
  let* jti := randomJTI in
  match pop_claims req jti with
  | None => fail CreateFailed
  | Some claims =>
    jose_Sign (pop_Signer req) (plain_header (pop_Algorithm req) PoPTypHeader "")
      (json_Marshal (JObj claims))
  end.

Definition currentAttestationChallenge : step string :=
  let* challenge := gets w_challenge in
  if negb (bool_decide (challenge = "")) then ret challenge
  else match CurrentChallenge with Some m => on_env m | None => ret "" end.

Definition attestationHeaders : step Headers :=
  let* attestation := on_env CurrentAttestation in
  let* challenge := currentAttestationChallenge in
  let* '(signer, _) := newSigner ClientAttestationPoPSigning
    (al_ClientAttestationPoP (cc_Algorithms cfg)) in
  let* now := Now in
  let* pop := signing (CreatePoP {|
    pop_Signer := signer; pop_Algorithm := al_ClientAttestationPoP (cc_Algorithms cfg);
    pop_ClientID := cc_ClientID cfg; pop_Audience := Issuer; pop_Now := now;
    pop_Challenge := challenge |}) in
  ret {[attestationHeader := attestation; attestationPoPHeader := pop]}.

(** The form with the client's authentication, and the headers. *)
Definition addClientAuthentication (form : gmap string string) (assertion : option (Signer * string))
    : step (gmap string string * Headers) :=
  match cc_ClientAuthMethod cfg with
  | ClientAuthMethodPrivateKeyJWT =>
    match assertion with
    | None => fail tt
    | Some (signer, kid) =>
      let* now := Now in
      let* jwt := signing (CreateAssertion {|
        ar_Signer := signer; ar_Algorithm := al_ClientAuthentication (cc_Algorithms cfg);
        ar_KeyID := kid; ar_ClientID := cc_ClientID cfg; ar_Audience := Issuer; ar_Now := now;
        ar_Lifetime := li_ClientAssertionLifetime (cc_Limits cfg) |}) in
      ret (<["client_assertion_type" := ClientAssertion.AssertionType]>
             (<["client_assertion" := jwt]> form), ∅)
    end
  | ClientAuthMethodAttestation =>
    let* headers := attestationHeaders in ret (form, headers)
  | _ => ret (<["client_id" := cc_ClientID cfg]> form, ∅)
  end.

Definition postWithDPoP (signer : Signer) (url : ParsedURL) (form nonce : string)
    (extraHeaders : Headers) : step Reply :=
  let* now := Now in
  let* proof := signing (CreateProof {|
    pr_Signer := signer; pr_Algorithm := al_DPoP (cc_Algorithms cfg); pr_Method := "POST";
    pr_URL := url; pr_AccessToken := ""; pr_Nonce := nonce; pr_Now := now |}) in
  postForm (url_string url) form (mergeHeaders {["DPoP" := proof]} extraHeaders).

Definition isAcceptableNestedJWTContentType (cty : string) : bool :=
  if bool_decide (cty = "") then true
  else
    let lower := ToLower cty in
    bool_decide (default lower (CutPrefix lower "application/") = "jwt").

(** * Token responses (exchange_code.go) *)

Record rawTokenResponse := {
  raw_AccessToken : string;
  raw_TokenType : string;
  raw_ExpiresIn : Z;
  raw_Scope : string;
  raw_IDToken : string;
  raw_RefreshToken : string;
  raw_AuthorizationDetails : RawMessage }.

Definition rawTokenResponse_names : list string :=
  ["access_token"; "token_type"; "expires_in"; "scope"; "id_token"; "refresh_token";
   "authorization_details"].

Definition decodeTokenResponse (body : string) : option rawTokenResponse :=
  let names := rawTokenResponse_names in
  struct_members (json_Decode body) ≫= λ l,
  get names "access_token" dec_str "" l ≫= λ access_token,
  get names "token_type" dec_str "" l ≫= λ token_type,
  get names "expires_in" dec_int64 0%Z l ≫= λ expires_in,
  get names "scope" dec_str "" l ≫= λ scope,
  get names "id_token" dec_str "" l ≫= λ id_token,
  get names "refresh_token" dec_str "" l ≫= λ refresh_token,
  get names "authorization_details" dec_raw RawNil l ≫= λ details,
  if bool_decide (access_token = "") || bool_decide (token_type = "") ||
     bool_decide (expires_in < 0)%Z
  then None
  else Some {| raw_AccessToken := access_token; raw_TokenType := token_type;
               raw_ExpiresIn := expires_in; raw_Scope := scope; raw_IDToken := id_token;
               raw_RefreshToken := refresh_token; raw_AuthorizationDetails := details |}.

(** IDTokenClaims has the fields of the token's validation result. *)
Record TokenSet := {
  ts_AccessToken : string;
  ts_TokenType : string;
  ts_Scope : string;
  ts_AuthorizationDetails : RawMessage;
  ts_ExpiresIn : Duration;
  ts_HasExpiresIn : bool;
  ts_ObtainedAt : Time;
  ts_IDToken : string;
  ts_HasIDToken : bool;
  ts_Subject : string;
  ts_IDTokenClaims : Tokens.ValidatedIDToken;
  ts_RefreshToken : string;
  ts_HasRefreshToken : bool;
  ts_Issuer : string;
  ts_Resource : list string }.

Definition no_claims : Tokens.ValidatedIDToken := {|
  Tokens.vi_Subject := ""; Tokens.vi_AuthTime := zero_time; Tokens.vi_ACR := "";
  Tokens.vi_AMR := []; Tokens.vi_Parameters := ∅; Tokens.vi_ExpiresAt := zero_time;
  Tokens.vi_IssuedAt := zero_time; Tokens.vi_Issuer := ""; Tokens.vi_Audience := [];
  Tokens.vi_Nonce := ""; Tokens.vi_AZP := "" |}.

(** The first key under which [verify] succeeds, each tried at the time the
    clock then shows. *)
Fixpoint verify_candidates {E A} (verify : PublicKey → Time → result E A) (l : list PublicKey)
    : step A :=
  match l with
  | [] => fail tt
  | k :: l =>
    let* now := Now in
    match verify k now with
    | Ok a => ret a
    | Err _ => verify_candidates verify l
    end
  end.

Definition resolveIssuerKeyCandidates (purpose : IssuerVerificationPurpose)
    (algorithm : SignatureAlgorithm) (keyID : string) : cli (list PublicKey) :=
  if IssuerKeys_nil then fail (newError ErrorInternal)
  else
    let* candidates := internal (on_env (ResolveIssuerKeys {|
      ikr_Issuer := Issuer; ikr_Purpose := purpose; ikr_Algorithm := algorithm;
      ikr_KeyID := keyID |})) in
    match candidates with
    | [] => fail (newError ErrorInvalidResponse)
    | _ => ret candidates
    end.

Definition id_token_policy (accessToken nonce : string) (now : Time)
    : Tokens.IDTokenValidatePolicy := {|
  Tokens.ip_ExpectedIssuer := Issuer; Tokens.ip_ExpectedAudience := cc_ClientID cfg;
  Tokens.ip_TrustedAudiences := cc_TrustedIDTokenAudiences cfg;
  Tokens.ip_Algorithm := al_IDToken (cc_Algorithms cfg); Tokens.ip_ExpectedNonce := nonce;
  Tokens.ip_AccessToken := accessToken; Tokens.ip_Now := now;
  Tokens.ip_MaxLifetime := li_MaxIDTokenLifetime (cc_Limits cfg);
  Tokens.ip_MaxClockSkew := li_MaxClockSkew (cc_Limits cfg) |}.

(** The size is what ParseCompactMax checks first. *)
Definition validateSignedIDToken (raw accessToken nonce : string) : cli Tokens.ValidatedIDToken :=
  let max := li_MaxJOSECompactBytes (cc_Limits cfg) in
  match Tokens.ParseIDTokenMax raw max with
  | Err _ =>
    fail (newError (if bool_decide (max < String.length raw) then ErrorResponseTooLarge
                    else ErrorInvalidResponse))
  | Ok parsed =>
    let* candidates := resolveIssuerKeyCandidates IDTokenVerification
      (al_IDToken (cc_Algorithms cfg)) (Tokens.IDToken_KeyID parsed) in
    map_err (λ _, newError ErrorInvalidResponse)
      (verify_candidates
         (λ k now, Tokens.ValidateID parsed k (id_token_policy accessToken nonce now)) candidates)
  end.

Definition decryptIDToken (raw : string) : cli string :=
  let* '(cty, plaintext) := map_err
    (λ e, newError match e with ErrTooLarge => ErrorResponseTooLarge
                              | ErrDecrypt => ErrorInvalidResponse end)
    (on_env (jwe_Decrypt raw)) in
  if isAcceptableNestedJWTContentType cty then ret plaintext
  else fail (newError ErrorInvalidResponse).

Definition validateIDToken (raw accessToken nonce : string) : cli Tokens.ValidatedIDToken :=
  let expectEncrypted := negb (bool_decide (al_IDTokenKeyManagement (cc_Algorithms cfg) = 0%N)) in
  match length (Split raw ".") with
  | 3 =>
    if expectEncrypted then fail (newError ErrorInvalidResponse)
    else validateSignedIDToken raw accessToken nonce
  | 5 =>
    if negb expectEncrypted then fail (newError ErrorInvalidResponse)
    else let* inner := decryptIDToken raw in validateSignedIDToken inner accessToken nonce
  | _ => fail (newError ErrorInvalidResponse)
  end.

(** The ID token's claims, when the response has one. *)
Definition populateIDToken (raw : rawTokenResponse) (nonce : string)
    : cli (option Tokens.ValidatedIDToken) :=
  if bool_decide (raw_IDToken raw = "") then ret None
  else if cc_OAuthOnly cfg then fail (newError ErrorInvalidResponse)
  else
    let* validated := validateIDToken (raw_IDToken raw) (raw_AccessToken raw) nonce in
    ret (Some validated).

Definition tokenSetFromResponse (body nonce : string) : cli TokenSet :=
  match decodeTokenResponse body with
  | None => fail (newError ErrorInvalidResponse)
  | Some raw =>
    let want := tokenTypeFor (cc_SenderConstrain cfg) in
    do* lift (guard_err (EqualFoldASCII (raw_TokenType raw) want) (newError ErrorInvalidResponse)) in
    let* now := Now in
    let* validated := populateIDToken raw nonce in
    ret {|
      ts_AccessToken := raw_AccessToken raw; ts_TokenType := want; ts_Scope := raw_Scope raw;
      ts_AuthorizationDetails := raw_AuthorizationDetails raw;
      ts_ExpiresIn := if bool_decide (0 < raw_ExpiresIn raw)%Z
                      then expiresInDuration (raw_ExpiresIn raw) else 0%Z;
      ts_HasExpiresIn := bool_decide (0 < raw_ExpiresIn raw)%Z; ts_ObtainedAt := now;
      ts_IDToken := match validated with Some _ => raw_IDToken raw | None => "" end;
      ts_HasIDToken := is_Some_bool validated;
      ts_Subject := from_option Tokens.vi_Subject "" validated;
      ts_IDTokenClaims := default no_claims validated;
      ts_RefreshToken := raw_RefreshToken raw;
      ts_HasRefreshToken := negb (bool_decide (raw_RefreshToken raw = ""));
      ts_Issuer := Issuer; ts_Resource := [] |}
  end.

Definition with_Scope (scope : string) (resource : list string) (t : TokenSet) : TokenSet := {|
  ts_AccessToken := ts_AccessToken t; ts_TokenType := ts_TokenType t; ts_Scope := scope;
  ts_AuthorizationDetails := ts_AuthorizationDetails t; ts_ExpiresIn := ts_ExpiresIn t;
  ts_HasExpiresIn := ts_HasExpiresIn t; ts_ObtainedAt := ts_ObtainedAt t;
  ts_IDToken := ts_IDToken t; ts_HasIDToken := ts_HasIDToken t; ts_Subject := ts_Subject t;
  ts_IDTokenClaims := ts_IDTokenClaims t; ts_RefreshToken := ts_RefreshToken t;
  ts_HasRefreshToken := ts_HasRefreshToken t; ts_Issuer := ts_Issuer t;
  ts_Resource := resource |}.

(** * Token requests *)

Definition resolveClientAuthAndDPoPSigners : step (option (Signer * string) * option Signer) :=
  let* assertion :=
    (if bool_decide (cc_ClientAuthMethod cfg = ClientAuthMethodPrivateKeyJWT) then
       let* s := newSigner ClientAuthentication (al_ClientAuthentication (cc_Algorithms cfg)) in
       ret (Some s)
     else ret None) in
  let* dpop :=
    (if bool_decide (cc_SenderConstrain cfg = SenderConstrainDPoP) then
       let* '(s, _) := newSigner DPoPProofSigning (al_DPoP (cc_Algorithms cfg)) in
       ret (Some s)
     else ret None) in
  ret (assertion, dpop).

Definition tokenFormBuilder (params : gmap string string) (assertion : option (Signer * string))
    : step (string * Headers) :=
  let* '(form, headers) := addClientAuthentication params assertion in
  ret (encodeForm form, headers).

(** A request made with a DPoP proof, and made again once when the answer
    asks for a nonce or an attestation challenge: the last reply. *)
Definition postRetrying (signer : Signer) (url : ParsedURL) (build : step (string * Headers))
    (form : string) (headers : Headers) (accepted : Z → bool) : cli string :=
  let* nonce := cachedDPoPNonce asNonceScope in
  let* r := internal (postWithDPoP signer url form nonce headers) in
  do* recordASDPoPNonce r in
  if accepted (re_status r) then ret (re_body r)
  else
    match challengeRetry (re_header r) (re_body r) nonce with
    | None => fail (parErrorFromResponse r)
    | Some retryNonce =>
      let* '(retryForm, retryHeaders) := internal build in
      let* r := internal (postWithDPoP signer url retryForm retryNonce retryHeaders) in
      do* recordASDPoPNonce r in
      if accepted (re_status r) then ret (re_body r) else fail (parErrorFromResponse r)
    end.

Definition is_200 (status : Z) : bool := bool_decide (status = 200)%Z.
Definition is_200_201 (status : Z) : bool :=
  bool_decide (status = 201)%Z || bool_decide (status = 200)%Z.

(** CreateProof refuses the nil signer a client without DPoP has. *)
Definition sendTokenRequest (dpopSigner : option Signer) (build : step (string * Headers))
    (form : string) (headers : Headers) : cli string :=
  let url := ep_Token (cc_Endpoints cfg) in
  if bool_decide (cc_SenderConstrain cfg = SenderConstrainMTLS) then
    let* r := internal (postFormWithAttestationChallenge (url_string url) form headers build) in
    if is_200 (re_status r) then ret (re_body r) else fail (parErrorFromResponse r)
  else
    match dpopSigner with
    | None => fail (newError ErrorInternal)
    | Some signer => postRetrying signer url build form headers is_200
    end.

(** * HandleAuthorizationResponse (authorization_response.go) *)

Record AuthorizationCallback := {
  cb_RawQuery : string;
  cb_Session : string }.

Record ValidatedAuthorizationResponse := {
  ar_issuer : string;
  ar_clientID : string;
  ar_code : string;
  ar_redirectURI : string;
  ar_pkceVerifier : string;
  ar_nonce : string;
  ar_maxAge : Duration;
  ar_hasMaxAge : bool;
  ar_openID : bool;
  ar_essentialACR : list string;
  ar_resource : list string;
  ar_scope : list string }.

Inductive CallbackResult :=
| CallbackSuccess (r : ValidatedAuthorizationResponse)
| CallbackDenied (code description : string).

Definition responseModePlain : string := "plain".
Definition responseModeJARM : string := "jarm".

Definition jarm_policy (now : Time) : Jarm.VerifyPolicy := {|
  Jarm.ExpectedIssuer := Issuer; Jarm.ExpectedAudience := cc_ClientID cfg;
  Jarm.Algorithm := al_JARM (cc_Algorithms cfg); Jarm.Policy_Now := now;
  Jarm.MaxLifetime := li_MaxJARMResponseLifetime (cc_Limits cfg);
  Jarm.Policy_MaxClockSkew := li_MaxClockSkew (cc_Limits cfg) |}.

Definition parseCallbackParams (cb : AuthorizationCallback)
    : cli (gmap string RawMessage * string) :=
  match DecodeForm (cb_RawQuery cb) with
  | Err _ => fail (newError ErrorInvalidRequest)
  | Ok form =>
    if negb (bool_decide (cc_Profile cfg = ProfileFAPISecurityWithMessageSigning)) then
      if forallb (λ p, ValidString p.1 && ValidString p.2) (map_to_list form)
      then ret (marshal_string <$> form, responseModePlain)
      else fail (newError ErrorInvalidRequest)
    else
      let responseJWT := default "" (form !! "response") in
      if bool_decide (responseJWT = "") then fail (newError ErrorInvalidResponse)
      else
        match Jarm.Parse responseJWT with
        | Err _ => fail (newError ErrorInvalidResponse)
        | Ok resp =>
          let* candidates := internal (on_env (ResolveIssuerKeys {|
            ikr_Issuer := Issuer; ikr_Purpose := JARMVerification;
            ikr_Algorithm := al_JARM (cc_Algorithms cfg); ikr_KeyID := Jarm.KeyID resp |})) in
          match candidates with
          | [] => fail (newError ErrorInvalidResponse)
          | _ =>
            let* verified := map_err (λ _, newError ErrorInvalidResponse)
              (verify_candidates (λ k now, Jarm.Verify resp k (jarm_policy now)) candidates) in
            ret (Jarm.vr_Parameters verified, responseModeJARM)
          end
        end
  end.

(** [None] when there is none or it is no string. *)
Definition paramString (params : gmap string RawMessage) (key : string) : option string :=
  params !! key ≫= unmarshal_string.

Definition checkAuthorizationResponseIss (params : gmap string RawMessage) : result Error unit :=
  match paramString params "iss" with
  | Some iss => guard_err (bool_decide (iss = Issuer)) (newError ErrorInvalidResponse)
  | None =>
    guard_err (negb (bool_decide
      (cc_AuthorizationResponseIssPolicy cfg = RequireAuthorizationResponseIss)))
      (newError ErrorInvalidResponse)
  end.

Definition consumeCallbackSession (cb : AuthorizationCallback) (params : gmap string RawMessage)
    (respMode : string) : cli sessionRecord :=
  let state := default "" (paramString params "state") in
  do* lift (guard_err (negb (bool_decide (state = ""))) (newError ErrorInvalidRequest)) in
  let session :=
    if bool_decide (cb_Session cb = "") &&
       bool_decide (cc_CallbackBinding cfg = CallbackBindingDeviceLocalStore)
    then state else cb_Session cb in
  do* lift (guard_err (negb (bool_decide (session = ""))) (newError ErrorInvalidRequest)) in
  do* lift (guard_err (bool_decide (state = session)) (newError ErrorInvalidRequest)) in
  let* consumed := map_err (λ _, newError ErrorInvalidRequest)
    (zoom w_sessions set_sessions (Consume {| sc_State := state |})) in
  match decodeSessionRecord (cs_Record consumed) with
  | None => fail (newError ErrorInternal)
  | Some record =>
    do* lift (guard_err (bool_decide (sr_Issuer record = Issuer)) (newError ErrorInvalidRequest)) in
    do* lift (guard_err (bool_decide (sr_ClientID record = cc_ClientID cfg))
                        (newError ErrorInvalidRequest)) in
    let* now := Now in
    do* lift (guard_err (Before now (cs_ExpiresAt consumed)) (newError ErrorInvalidRequest)) in
    do* lift (guard_err (bool_decide (respMode = sr_ResponseMode record))
                        (newError ErrorInvalidResponse)) in
    ret record
  end.

(** [None] when the response is no error. *)
Definition callbackDenied (params : gmap string RawMessage) : option (result Error CallbackResult) :=
  let errCode := default "" (paramString params "error") in
  if bool_decide (errCode = "") then None
  else if negb (isErrorText errCode) then Some (Err (newError ErrorInvalidResponse))
  else
    let errDesc := default "" (paramString params "error_description") in
    Some (Ok (CallbackDenied errCode (if isErrorText errDesc then errDesc else ""))).

Definition HandleAuthorizationResponse (cb : AuthorizationCallback) : cli CallbackResult :=
  do* checkTrustChain in
  let* '(params, respMode) := parseCallbackParams cb in
  do* lift (if bool_decide (respMode = responseModePlain)
            then checkAuthorizationResponseIss params else Ok tt) in
  let* consumed := consumeCallbackSession cb params respMode in
  match callbackDenied params with
  | Some denied => lift denied
  | None =>
    let code := default "" (paramString params "code") in
    if bool_decide (code = "") then fail (newError ErrorInvalidResponse)
    else
      let '(maxAge, hasMaxAge) := maxAge consumed in
      ret (CallbackSuccess {|
        ar_issuer := Issuer; ar_clientID := cc_ClientID cfg; ar_code := code;
        ar_redirectURI := sr_RedirectURI consumed; ar_pkceVerifier := sr_PKCEVerifier consumed;
        ar_nonce := sr_Nonce consumed; ar_maxAge := maxAge; ar_hasMaxAge := hasMaxAge;
        ar_openID := sr_OpenID consumed; ar_essentialACR := sr_EssentialACR consumed;
        ar_resource := sr_Resource consumed; ar_scope := sr_Scope consumed |})
  end.

(** * ExchangeCode (exchange_code.go) *)

Definition code_params (resp : ValidatedAuthorizationResponse) : gmap string string :=
  setResources {["grant_type" := "authorization_code"; "code" := ar_code resp;
                 "redirect_uri" := ar_redirectURI resp;
                 "code_verifier" := ar_pkceVerifier resp]} (ar_resource resp).

Definition ExchangeCode (resp : ValidatedAuthorizationResponse) : cli TokenSet :=
  do* checkTrustChain in
  do* lift (guard_err (bool_decide (ar_issuer resp = Issuer) &&
                       bool_decide (ar_clientID resp = cc_ClientID cfg))
                      (newError ErrorInvalidRequest)) in
  let* '(assertion, dpopSigner) := internal resolveClientAuthAndDPoPSigners in
  let build := tokenFormBuilder (code_params resp) assertion in
  let* '(form, headers) := internal build in
  let* body := sendTokenRequest dpopSigner build form headers in
  let* result := tokenSetFromResponse body (ar_nonce resp) in
  do* lift (requireIDToken (ts_HasIDToken result) (ar_openID resp) (ar_hasMaxAge resp)) in
  do* lift (if ts_HasIDToken result
            then checkEssentialACR (Tokens.vi_ACR (ts_IDTokenClaims result)) (ar_essentialACR resp)
            else Ok tt) in
  do* (if ts_HasIDToken result && ar_hasMaxAge resp then
         let* now := Now in
         lift (checkAuthenticationAge (Tokens.vi_AuthTime (ts_IDTokenClaims result))
                 (ar_maxAge resp) now (li_MaxClockSkew (cc_Limits cfg)))
       else ret tt) in
  ret (with_Scope (grantedScope (ts_Scope result) (ar_scope resp)) (ar_resource resp) result).

(** * CompleteAuthorization (complete_authorization.go) *)

Inductive CompletionResult :=
| CompletionSuccess (tokens : TokenSet)
| CompletionDenied (code description : string).

Definition CompleteAuthorization (cb : AuthorizationCallback) : cli CompletionResult :=
  let* r := HandleAuthorizationResponse cb in
  match r with
  | CallbackDenied code description => ret (CompletionDenied code description)
  | CallbackSuccess resp =>
    let* tokens := ExchangeCode resp in
    ret (CompletionSuccess tokens)
  end.

(** * BeginAuthorization (begin_authorization.go) *)

Record RequestedClaims := {
  rc_IDToken : list string;
  rc_UserInfo : list string }.

(** Extensions is the snapshot of the request's extension values. *)
Record BeginAuthorizationRequest := {
  ba_Scope : list string;
  ba_RedirectPort : N;
  ba_ACRValues : list string;
  ba_MaxAge : Duration;
  ba_HasMaxAge : bool;
  ba_EssentialACRValues : list string;
  ba_Extensions : gmap string RawMessage;
  ba_AuthorizationDetails : list RawMessage;
  ba_Claims : RequestedClaims;
  ba_Resource : list string }.

Record AuthorizationSession := {
  as_url : ParsedURL;
  as_handle : string;
  as_expiresAt : Time }.

Definition claimsParameter : string := "claims".
Definition maxAgeParameter : string := "max_age".
Definition authorizationDetailsParameter : string := "authorization_details".
Definition responseModeParameter : string := "response_mode".

Definition essentialACRClaim (values : list string) : option RawMessage :=
  if forallb (λ v, negb (bool_decide (v = ""))) values
  then Some (Raw (JObj [("essential", JBool true);
                        ("values", JArr (JStr ∘ coerce_utf8 <$> values))]))
  else None.

(** The members of one location; [None] is an empty name. *)
Definition claims_location (names : list string) : option (gmap string RawMessage) :=
  if forallb (λ n, negb (bool_decide (n = ""))) names
  then Some (list_to_map ((λ n, (n, Raw JNull)) <$> names)) else None.

(** [None] is an error, [Some None] no claims parameter. *)
Definition encode_claims (r : RequestedClaims) (essentialACR : list string)
    : option (option json) :=
  claims_location (rc_IDToken r) ≫= λ idToken : gmap string RawMessage,
  match essentialACR with
  | [] => Some idToken
  | _ => (λ v, <["acr" := v]> idToken) <$> essentialACRClaim essentialACR
  end ≫= λ idToken : gmap string RawMessage,
  claims_location (rc_UserInfo r) ≫= λ userinfo : gmap string RawMessage,
  if bool_decide (idToken = ∅) && bool_decide (userinfo = ∅) then Some None
  else
    (λ l, Some (JObj l)) <$>
      encode_members [("id_token", enc_map_omit idToken); ("userinfo", enc_map_omit userinfo)].

Definition maxAgeSeconds (maxAge : Duration) : result Error Z :=
  guard_err (bool_decide (0 ≤ maxAge)%Z) (newError ErrorInvalidRequest) ;;
  let seconds := Z.quot maxAge Second in
  guard_err (bool_decide (seconds ≤ maxSessionMaxAgeSeconds)%Z) (newError ErrorInvalidRequest) ;;
  Ok seconds.

(** strconv.FormatInt of a duration in seconds, which is not negative. *)
Definition FormatSeconds (n : Z) : string := Itoa (Z.to_nat n).

Definition setRequestedParameters (params : gmap string string) (req : BeginAuthorizationRequest)
    : result Error (gmap string string) :=
  let params := match ba_ACRValues req with
                | [] => params
                | l => <["acr_values" := join " " l]> params
                end in
  params ← (if ba_HasMaxAge req then
              seconds ← maxAgeSeconds (ba_MaxAge req);
              Ok (<[maxAgeParameter := FormatSeconds seconds]> params)
            else Ok params);
  match encode_claims (ba_Claims req) (ba_EssentialACRValues req) with
  | None => Err (newError ErrorInvalidRequest)
  | Some claims =>
    let params := match claims with
                  | Some j => <[claimsParameter := json_Marshal j]> params
                  | None => params
                  end in
    Ok (setResources params (ba_Resource req))
  end.

Definition checkScope (scope : list string) : result Error unit :=
  checkScopeTokens scope ;;
  guard_err (negb (cc_OAuthOnly cfg && bool_decide ("openid" ∈ scope)))
    (newError ErrorInvalidRequest).

(** The redirect URI of the request. *)
Definition checkBeginRequest (req : BeginAuthorizationRequest) : result Error string :=
  let refuse := newError ErrorInvalidRequest in
  let openid := bool_decide ("openid" ∈ ba_Scope req) in
  checkScope (ba_Scope req) ;;
  guard_err (negb (ba_HasMaxAge req && negb openid)) refuse ;;
  guard_err (bool_decide (ba_EssentialACRValues req = []) || openid) refuse ;;
  checkResources (ba_Resource req) ;;
  guard_err (negb (is_Some_bool (ba_Extensions req !! resourceParameter) &&
                   negb (bool_decide (ba_Resource req = [])))) refuse ;;
  let uri := cc_RedirectURI cfg in
  if bool_decide (ba_RedirectPort req = 0%N) then Ok uri
  else
    match url_parse uri with
    | None => Err refuse
    | Some u =>
      guard_err (bool_decide (url_Scheme u = "http") && negb (url_HasUser u) &&
                 bool_decide (url_Hostname u ∈ ["127.0.0.1"; "::1"])) refuse ;;
      let prefix := url_Scheme u +:+ "://" in
      guard_err (has_prefix uri (prefix +:+ url_Host u)) refuse ;;
      Ok (prefix +:+ JoinHostPort (url_Hostname u) (Itoa (N.to_nat (ba_RedirectPort req))) +:+
          drop_bytes (String.length prefix + String.length (url_Host u)) uri)
    end.

Definition dpopKeyThumbprint : step string :=
  match Keys_PublicKey with
  | None => fail tt
  | Some key =>
    let alg := al_DPoP (cc_Algorithms cfg) in
    let* '(pub, _) := on_env (key DPoPProofSigning alg) in
    do* lift (guard_err (validateKeyForAlgorithm pub alg) tt) in
    match jwk_Thumbprint pub with Some t => ret t | None => fail tt end
  end.

Definition signsRequestObject : bool :=
  bool_decide (cc_Profile cfg = ProfileFAPISecurityWithMessageSigning) ||
  bool_decide (cc_PushedRequestEncoding cfg = PushedRequestEncodingRequestObject).
Definition expectsJARMResponse : bool :=
  bool_decide (cc_Profile cfg = ProfileFAPISecurityWithMessageSigning).

Definition reservedExtensionNames : list string :=
  ["request"; "request_uri"; authorizationDetailsParameter; "client_id"; "client_assertion";
   "client_assertion_type"; "dpop_jkt"; responseModeParameter].

(** [details] is the encoded authorization_details, if there are any. *)
Definition populatePlainPushedRequestForm (form params : gmap string string)
    (snapshot : gmap string RawMessage) (details : option json)
    : result Error (gmap string string) :=
  let form := params ∪ form in
  guard_err (forallb (λ p, negb (is_Some_bool (form !! p.1)) &&
                           negb (bool_decide (p.1 ∈ reservedExtensionNames)) &&
                           is_Some_bool (unmarshal_string p.2)) (map_to_list snapshot))
    (newError ErrorInvalidRequest) ;;
  let form := omap unmarshal_string snapshot ∪ form in
  Ok match details with
     | Some j => <[authorizationDetailsParameter := json_MarshalUnescaped j]> form
     | None => form
     end.

Definition object_parameters (params : gmap string string) (snapshot : gmap string RawMessage)
    (details : option json) : gmap string RawMessage :=
  let m := snapshot ∪ (marshal_string <$> params) in
  let m := match details with
           | Some j => <[authorizationDetailsParameter := Raw j]> m
           | None => m
           end in
  let m := match params !! maxAgeParameter with
           | Some v => <[maxAgeParameter := json_text v]> m | None => m end in
  let m := match params !! claimsParameter with
           | Some v => <[claimsParameter := json_text v]> m | None => m end in
  match params !! resourceParameter with
  | Some v => <[resourceParameter := resourceObjectParameter v]> m | None => m end.

(** The form with the signed request object. *)
Definition signPushedRequestForm (now : Time) (form params : gmap string string)
    (snapshot : gmap string RawMessage) (details : option json) : cli (gmap string string) :=
  do* lift (guard_err (forallb (λ p, negb (is_Some_bool (params !! p.1)) &&
                                     negb (bool_decide (p.1 ∈ reservedExtensionNames)))
                               (map_to_list snapshot)) (newError ErrorInvalidRequest)) in
  let* '(signer, kid) :=
    internal (newSigner RequestObjectSigning (al_RequestObject (cc_Algorithms cfg))) in
  let* object := internal (signing (requestobject_Create {|
    oc_Signer := signer; oc_Algorithm := al_RequestObject (cc_Algorithms cfg); oc_KeyID := kid;
    oc_ClientID := cc_ClientID cfg; oc_Audience := Issuer; oc_Now := now;
    oc_Lifetime := li_RequestObjectLifetime (cc_Limits cfg);
    oc_Parameters := object_parameters params snapshot details |})) in
  ret (<["request" := object]> form).

Definition buildPushedRequestForm (now : Time) (params : gmap string string)
    (snapshot : gmap string RawMessage) (authorizationDetails : list RawMessage)
    : cli (gmap string string * Headers) :=
  let* assertion :=
    (if bool_decide (cc_ClientAuthMethod cfg = ClientAuthMethodPrivateKeyJWT) then
       let* s := internal (newSigner ClientAuthentication
         (al_ClientAuthentication (cc_Algorithms cfg))) in
       ret (Some s)
     else ret None) in
  let* '(form, headers) := internal (addClientAuthentication ∅ assertion) in
  let* details :=
    match authorizationDetails with
    | [] => ret None
    | _ => match slice_message authorizationDetails with
           | Raw j => ret (Some j)
           | _ => fail (newError ErrorInternal)
           end
    end in
  let* form :=
    (if signsRequestObject then signPushedRequestForm now form params snapshot details
     else lift (populatePlainPushedRequestForm form params snapshot details)) in
  ret (form, headers).

Definition build_par_form (params : gmap string string) (snapshot : gmap string RawMessage)
    (details : list RawMessage) : cli (string * Headers) :=
  let* now := Now in
  let* '(form, headers) := buildPushedRequestForm now params snapshot details in
  ret (encodeForm form, headers).

Definition postPushedRequestWithoutProof (params : gmap string string)
    (snapshot : gmap string RawMessage) (details : list RawMessage) : cli string :=
  let build := build_par_form params snapshot details in
  let* '(form, headers) := build in
  let* r := internal (postFormWithAttestationChallenge
    (url_string (ep_PushedAuthorizationRequest (cc_Endpoints cfg))) form headers
    (wrapped build)) in
  if is_200_201 (re_status r) then ret (re_body r) else fail (parErrorFromResponse r).

Definition pushAuthorizationRequestWithJKT (params : gmap string string)
    (snapshot : gmap string RawMessage) (details : list RawMessage) : cli string :=
  let* thumbprint := internal dpopKeyThumbprint in
  postPushedRequestWithoutProof (<["dpop_jkt" := thumbprint]> params) snapshot details.

Definition pushAuthorizationRequestWithDPoPProof (params : gmap string string)
    (snapshot : gmap string RawMessage) (details : list RawMessage) : cli string :=
  let* '(signer, _) := internal (newSigner DPoPProofSigning (al_DPoP (cc_Algorithms cfg))) in
  let build := wrapped (build_par_form params snapshot details) in
  let* '(form, headers) := internal build in
  postRetrying signer (ep_PushedAuthorizationRequest (cc_Endpoints cfg)) build form headers
    is_200_201.

Definition newSessionRecord (req : BeginAuthorizationRequest) (redirectURI nonce verifier : string)
    : sessionRecord := {|
  sr_Version := 0; sr_Nonce := nonce; sr_PKCEVerifier := verifier; sr_Issuer := Issuer;
  sr_ClientID := cc_ClientID cfg; sr_RedirectURI := redirectURI;
  sr_ResponseMode := if expectsJARMResponse then responseModeJARM else responseModePlain;
  sr_MaxAgeSeconds := if ba_HasMaxAge req then Some (Z.quot (ba_MaxAge req) Second) else None;
  sr_OpenID := bool_decide ("openid" ∈ ba_Scope req);
  sr_EssentialACR := ba_EssentialACRValues req; sr_Resource := ba_Resource req;
  sr_Scope := ba_Scope req |}.

Definition createSession (state : string) (record : sessionRecord) (now : Time) : cli unit :=
  match encodeSessionRecord record with
  | None => fail (newError ErrorInternal)
  | Some encoded =>
    map_err (λ _, newError ErrorInternal)
      (zoom w_sessions set_sessions (Create {|
        ns_State := state; ns_Record := encoded;
        ns_ExpiresAt := Add now (li_SessionLifetime (cc_Limits cfg)) |}))
  end.

(** pkce.GenerateVerifier *)
Definition GenerateVerifier : step string :=
  let* buf := signing (random_ReadFull verifierEntropyBytes) in
  ret (EncodeToString rawURL buf).

Definition begin_params (req : BeginAuthorizationRequest)
    (redirectURI state nonce challenge : string) : gmap string string :=
  let m : gmap string string := list_to_map [
    ("client_id", cc_ClientID cfg); ("response_type", "code"); ("redirect_uri", redirectURI);
    ("scope", join " " (ba_Scope req)); ("state", state); ("nonce", nonce);
    ("code_challenge", challenge); ("code_challenge_method", "S256")] in
  if expectsJARMResponse then <[responseModeParameter := "jwt"]> m else m.

Definition push (params : gmap string string) (req : BeginAuthorizationRequest) : cli string :=
  let snapshot := ba_Extensions req in
  let details := ba_AuthorizationDetails req in
  if bool_decide (cc_SenderConstrain cfg = SenderConstrainMTLS)
  then postPushedRequestWithoutProof params snapshot details
  else if bool_decide (cc_PARDPoPBinding cfg = PARDPoPBindingJKT)
  then pushAuthorizationRequestWithJKT params snapshot details
  else pushAuthorizationRequestWithDPoPProof params snapshot details.

Definition BeginAuthorization (req : BeginAuthorizationRequest) : cli AuthorizationSession :=
  do* checkTrustChain in
  let* redirectURI := lift (checkBeginRequest req) in
  let* state := internal generateRandomToken in
  let* nonce := internal generateRandomToken in
  let* verifier := internal GenerateVerifier in
  let* challenge := map_err (λ _, newError ErrorInternal) (lift (Challenge verifier S256)) in
  let* now := Now in
  let* params := lift (setRequestedParameters
    (begin_params req redirectURI state nonce challenge) req) in
  let* body := push params req in
  match DecodeResult body with
  | None => fail (newError ErrorInvalidResponse)
  | Some request_uri =>
    do* createSession state (newSessionRecord req redirectURI nonce verifier) now in
    let endpoint := ep_Authorization (cc_Endpoints cfg) in
    ret {|
      as_url := with_query (Append (url_RawQuery endpoint)
        (Encode [("client_id", cc_ClientID cfg); ("request_uri", request_uri)])) endpoint;
      as_handle := state;
      as_expiresAt := Add now (li_SessionLifetime (cc_Limits cfg)) |}
  end.

(** * RefreshTokens (refresh.go) *)

Record RefreshTokenRequest := {
  rt_Tokens : TokenSet;
  rt_Scope : list string;
  rt_Resource : list string }.

Definition tokenSetIssuer (t : TokenSet) : string :=
  if negb (bool_decide (ts_Issuer t = "")) then ts_Issuer t
  else if ts_HasIDToken t then Tokens.vi_Issuer (ts_IDTokenClaims t)
  else "".

Definition checkTokenSetIssuer (t : TokenSet) : result Error unit :=
  guard_err (bool_decide (tokenSetIssuer t = Issuer)) (newError ErrorInvalidRequest) ;;
  guard_err (negb (ts_HasIDToken t &&
                   negb (bool_decide (Tokens.vi_Issuer (ts_IDTokenClaims t) = Issuer))))
    (newError ErrorInvalidRequest).

(** The parameters and the resources asked for. *)
Definition refreshParameters (req : RefreshTokenRequest)
    : result Error (gmap string string * list string) :=
  let params : gmap string string :=
    {["grant_type" := "refresh_token"; "refresh_token" := ts_RefreshToken (rt_Tokens req)]} in
  params ← match rt_Scope req with
           | [] => Ok params
           | scope => checkScopeTokens scope ;; Ok (<["scope" := join " " scope]> params)
           end;
  checkResources (ts_Resource (rt_Tokens req)) ;;
  resources ← match rt_Resource req with
              | [] => Ok (ts_Resource (rt_Tokens req))
              | narrowed =>
                checkResourceSubset narrowed (ts_Resource (rt_Tokens req)) ;; Ok narrowed
              end;
  Ok (setResources params resources, resources).

Definition checkRefreshedIDToken (original : TokenSet) (refreshed : Tokens.ValidatedIDToken)
    : result Error unit :=
  let was := ts_IDTokenClaims original in
  guard_err (negb (ts_HasIDToken original) ||
    bool_decide (Tokens.vi_Subject refreshed = Tokens.vi_Subject was) &&
    (bool_decide (Tokens.vi_Audience was = []) ||
     sameStringSet (Tokens.vi_Audience refreshed) (Tokens.vi_Audience was)) &&
    (bool_decide (Tokens.vi_Nonce refreshed = "") ||
     bool_decide (Tokens.vi_Nonce refreshed = Tokens.vi_Nonce was)) &&
    (IsZero (Tokens.vi_AuthTime refreshed) ||
     bool_decide (Tokens.vi_AuthTime refreshed = Tokens.vi_AuthTime was)) &&
    bool_decide (Tokens.vi_AZP refreshed = Tokens.vi_AZP was)) (newError ErrorInvalidResponse).

(** What a refresh keeps of the tokens it was made with. *)
Definition refreshed_tokens (req : RefreshTokenRequest) (resources : list string) (t : TokenSet)
    : TokenSet :=
  let was := rt_Tokens req in
  {| ts_AccessToken := ts_AccessToken t; ts_TokenType := ts_TokenType t;
     ts_Scope := match rt_Scope req with
                 | [] => if bool_decide (ts_Scope t = "") then ts_Scope was else ts_Scope t
                 | scope => grantedScope (ts_Scope t) scope
                 end;
     ts_AuthorizationDetails := ts_AuthorizationDetails t; ts_ExpiresIn := ts_ExpiresIn t;
     ts_HasExpiresIn := ts_HasExpiresIn t; ts_ObtainedAt := ts_ObtainedAt t;
     ts_IDToken := if ts_HasIDToken t then ts_IDToken t else ts_IDToken was;
     ts_HasIDToken := ts_HasIDToken t || ts_HasIDToken was;
     ts_Subject := if ts_HasIDToken t then ts_Subject t else ts_Subject was;
     ts_IDTokenClaims := if ts_HasIDToken t then ts_IDTokenClaims t else ts_IDTokenClaims was;
     ts_RefreshToken := if ts_HasRefreshToken t then ts_RefreshToken t else ts_RefreshToken was;
     ts_HasRefreshToken := true; ts_Issuer := ts_Issuer t; ts_Resource := resources |}.

Definition has_refresh_token (t : TokenSet) : bool :=
  ts_HasRefreshToken t && negb (bool_decide (ts_RefreshToken t = "")).

Definition RefreshTokens (req : RefreshTokenRequest) : cli TokenSet :=
  do* checkTrustChain in
  do* lift (guard_err (has_refresh_token (rt_Tokens req)) (newError ErrorInvalidRequest)) in
  do* lift (checkTokenSetIssuer (rt_Tokens req)) in
  let* '(assertion, dpopSigner) := internal resolveClientAuthAndDPoPSigners in
  let* '(params, resources) := lift (refreshParameters req) in
  let build := tokenFormBuilder params assertion in
  let* '(form, headers) := internal build in
  let* body := sendTokenRequest dpopSigner build form headers in
  let* result := tokenSetFromResponse body "" in
  do* lift (if ts_HasIDToken result
            then checkRefreshedIDToken (rt_Tokens req) (ts_IDTokenClaims result) else Ok tt) in
  ret (refreshed_tokens req resources result).

(** * RevokeToken (revoke.go) *)

Definition RevokeToken (tokens : TokenSet) : cli unit :=
  do* checkTrustChain in
  match ep_Revocation (cc_Endpoints cfg) with
  | None => fail (newError ErrorRevocationNotSupported)
  | Some endpoint =>
    do* lift (guard_err (has_refresh_token tokens) (newError ErrorInvalidRequest)) in
    do* lift (checkTokenSetIssuer tokens) in
    let* '(assertion, _) := internal resolveClientAuthAndDPoPSigners in
    let build :=
      (let* '(form, headers) := addClientAuthentication
         {["token" := ts_RefreshToken tokens; "token_type_hint" := "refresh_token"]} assertion in
       ret (EncodeForm form, headers)) in
    let* '(form, headers) := internal build in
    let* r := internal (postFormWithAttestationChallenge (url_string endpoint) form headers build) in
    if is_200 (re_status r) then ret tt else fail (parErrorFromResponse r)
  end.
End client.
End Client.
