(* ===== verification/SigningTheorems.v ===== *)
(** What the program signs, its own verifiers accept: a DPoP proof, a client
    assertion, a request object, an authorization response, an access token
    and an ID token made by Signing.v pass the checks of Dpop.v, ClientAuth.v,
    RequestObject.v and Tokens.v, and read back as what was signed.

    The laws of SigningLaws are what encoding/json, package crypto and the
    JWK encoding promise; the last section gives an instance of them and
    applies the theorems to it. *)
From S2P Require Import Prelude GoStrings Json GoTime Sha256 Base64 Platform JsonCodec.
From S2P Require Import Effects Storage ServerTypes Numeric Claims Dpop Jose Canonical.
From S2P Require Import RequestObject Tokens Attestation ClientAuth ServerState.
From S2P Require Import Parameters Completion.
From S2P Require Import Signing.
From stdpp Require Import options.

Set Default Proof Using "Type*".

(** * Text *)

Lemma split_from_last s c cur : contains_byte s c = false → split_from s c cur = [cur +:+ s].
Proof.
  revert cur. induction s as [|d s IH]; intros cur; cbn [contains_byte split_from].
  { by rewrite string_app_nil_r. }
  case_decide; [done|]. intros Hs. rewrite IH by done. by rewrite <-string_app_assoc.
Qed.

Lemma split_from_app s c rest cur :
  contains_byte s c = false →
  split_from (s +:+ String c rest) c cur = (cur +:+ s) :: split_from rest c "".
Proof.
  revert cur. induction s as [|d s IH]; intros cur; cbn [contains_byte].
  { intros _. rewrite string_app_nil_r. cbn. by rewrite decide_True. }
  case_decide; [done|]. intros Hs.
  change (String d s +:+ String c rest) with (String d (s +:+ String c rest)).
  cbn [split_from]. rewrite decide_False by done. rewrite IH by done.
  by rewrite <-string_app_assoc.
Qed.

Lemma all_bytes_no_byte f s c : all_bytes f s = true → f c = false → contains_byte s c = false.
Proof.
  induction s as [|d s IH]; [done|]. cbn [all_bytes contains_byte].
  intros [Hd Hs]%andb_true_iff Hc. rewrite decide_False by congruence. by apply IH.
Qed.

Lemma encoded_all_bytes f b :
  forallb (λ n, f (char_of rawURL (N.of_nat n))) (seq 0 64) = true →
  all_bytes f (EncodeToString rawURL b) = true.
Proof.
  intros Hall. unfold EncodeToString. apply encode_all_bytes; [|apply bytes_of_bound].
  intros v Hv. rewrite forallb_forall in Hall. specialize (Hall (N.to_nat v)).
  rewrite in_seq, N2Nat.id in Hall. apply Hall. lia.
Qed.

Lemma encoded_no_dot b : contains_byte (EncodeToString rawURL b) "." = false.
Proof.
  apply (all_bytes_no_byte (λ c, negb (bool_decide (c = "."%char)))); [|done].
  by apply encoded_all_bytes.
Qed.

Lemma ascii_ValidString s : all_bytes (in_range 0 127) s = true → ValidString s = true.
Proof.
  induction s as [|c s IH]; [done|]. cbn [all_bytes ValidString].
  intros [-> Hs]%andb_true_iff. by apply IH.
Qed.

Lemma encoded_ValidString b : ValidString (EncodeToString rawURL b) = true.
Proof. apply ascii_ValidString. by apply encoded_all_bytes. Qed.

Lemma encoded_nonempty b : b ≠ "" → EncodeToString rawURL b ≠ "".
Proof.
  intros Hb He. apply Hb.
  apply (EncodeToString_inj b ""). by rewrite He.
Qed.

(** Inclusion of concrete lists of names, by evaluation. *)
Lemma included_names (l k : list string) :
  forallb (λ x, bool_decide (x ∈ k)) l = true → l ⊆ k.
Proof.
  intros Hall x Hx. rewrite forallb_forall in Hall.
  specialize (Hall x (proj1 (list_elem_of_In _ _) Hx)). by apply bool_decide_eq_true in Hall.
Qed.

Ltac included := apply included_names; vm_compute; reflexivity.

(** * Values whose strings are UTF-8 *)

Fixpoint utf8_json (j : json) : bool :=
  match j with
  | JStr s => ValidString s
  | JArr l => forallb utf8_json l
  | JObj l => forallb (λ p, ValidString p.1 && utf8_json p.2) l
  | _ => true
  end.

Definition utf8_raw (r : RawMessage) : Prop := ∃ j, r = Raw j ∧ utf8_json j = true.

Definition utf8_field (f : string * option (option json)) : Prop :=
  ValidString f.1 = true ∧ ∀ j, f.2 = Some (Some j) → utf8_json j = true.

Lemma encode_members_utf8 fields members :
  Forall utf8_field fields → encode_members fields = Some members → utf8_json (JObj members) = true.
Proof.
  intros Hf. revert members. induction Hf as [|[name v] fields [Hname Hv] _ IH]; simpl; intros members.
  { by intros [= <-]. }
  destruct v as [v|]; [|done]. simpl. destruct (encode_members fields) as [l|]; [|done].
  intros [= <-]. specialize (IH l eq_refl). destruct v as [j|]; [|done]. cbn.
  simpl in Hname. rewrite Hname, (Hv j eq_refl). exact IH.
Qed.

Lemma string_field_utf8 name s :
  ValidString name = true → ValidString s = true → utf8_field (name, string_field s).
Proof.
  intros Hn Hs. split; [done|]. unfold string_field. rewrite coerce_utf8_valid by done.
  by intros j [= <-].
Qed.

Lemma string_field_omit_utf8 name s :
  ValidString name = true → ValidString s = true → utf8_field (name, string_field_omit s).
Proof.
  intros Hn Hs. split; [done|]. unfold string_field_omit, enc_str_omit.
  rewrite coerce_utf8_valid by done. intros j. case_bool_decide; [done|]. by intros [= <-].
Qed.

Lemma int_field_utf8 name n : ValidString name = true → utf8_field (name, enc_int n).
Proof. intros Hn. split; [done|]. by intros j [= <-]. Qed.

Lemma int_field_omit_utf8 name n : ValidString name = true → utf8_field (name, enc_int_omit n).
Proof.
  intros Hn. split; [done|]. unfold enc_int_omit. case_bool_decide; [done|]. by intros j [= <-].
Qed.

Lemma omitted_utf8 name : ValidString name = true → utf8_field (name, Some None).
Proof. by intros Hn. Qed.

Create HintDb utf8.
#[export] Hint Resolve string_field_utf8 string_field_omit_utf8 int_field_utf8 int_field_omit_utf8
  omitted_utf8 encoded_ValidString : utf8.
#[export] Hint Extern 1 (ValidString _ = true) => reflexivity : utf8.

(** A map of such values is written as such a value, and read back. *)
Definition utf8_map (m : gmap string RawMessage) : Prop :=
  map_Forall (λ k r, ValidString k = true ∧ utf8_raw r) m.

Lemma utf8_map_ok m : utf8_map m → map_Forall (λ _, raw_ok) m.
Proof. intros Hm k r Hk. destruct (Hm k r Hk) as (_ & j & -> & _). by exists j. Qed.

Lemma marshal_utf8_map m :
  utf8_map m → ∃ l, marshal_object m = Some (Raw (JObj l)) ∧ utf8_json (JObj l) = true ∧
    unmarshal_object (Raw (JObj l)) = Some m.
Proof.
  intros Hm. pose proof (utf8_map_ok m Hm) as Hok.
  destruct (marshal_object_members m Hok) as (l & Hl & _ & Hin).
  destruct (marshal_object_roundtrip m Hok) as (raw & Hr & Hu).
  rewrite Hl in Hr. injection Hr as <-. exists l. split_and!; [done| |done].
  simpl. apply forallb_forall. intros [k j] Hkj%list_elem_of_In. apply Hin in Hkj.
  destruct (Hm _ _ Hkj) as (Hk & j' & [= <-] & Hj). simpl. by rewrite Hk, Hj.
Qed.

Lemma set_claims_utf8 standard m :
  Forall (λ p, ValidString p.1 = true ∧ utf8_raw p.2) standard → utf8_map m →
  utf8_map (set_claims standard m).
Proof.
  intros Hs Hm. induction Hs as [|[k r] l [Hk Hr] _ IH]; [done|]. simpl.
  apply map_Forall_insert_2; [done|]. exact IH.
Qed.

Lemma marshal_string_utf8 s : ValidString s = true → utf8_raw (marshal_string s).
Proof.
  intros Hs. exists (JStr s). unfold marshal_string. by rewrite coerce_utf8_valid.
Qed.

Lemma marshal_int_utf8 n : utf8_raw (marshal_int n).
Proof. by eexists. Qed.
#[export] Hint Resolve marshal_string_utf8 marshal_int_utf8 : utf8.

(** * Reading a struct's fields back *)

Fixpoint assoc {A} (name : string) (fields : list (string * A)) : option A :=
  match fields with
  | [] => None
  | (n, v) :: fields => if String.eqb n name then Some v else assoc name fields
  end.

Lemma assoc_elem {A} name (fields : list (string * A)) v :
  assoc name fields = Some v → (name, v) ∈ fields.
Proof.
  induction fields as [|[n w] fields IH]; simpl; [done|].
  destruct (String.eqb_spec n name) as [->|_]; [intros [= ->]; by left|]. right. auto.
Qed.

Lemma assoc_app {A} name (l k : list (string * A)) :
  assoc name (l ++ k) = match assoc name l with Some v => Some v | None => assoc name k end.
Proof. induction l as [|[n v] l IH]; simpl; [done|]. by destruct (String.eqb n name). Qed.

Lemma assoc_claim_if name b n raw :
  assoc name (claim_if b n raw) = if String.eqb n name then (if b then Some raw else None) else None.
Proof. destruct b; simpl; by destruct (String.eqb n name). Qed.

(** What is written, [v], reads back as [a]. *)
Definition reads {A} (dec : A → json → option A) (old : A) (v : option (option json)) (a : A)
    : Prop :=
  (∀ j, v = Some (Some j) → dec old j = Some a) ∧ (v = Some None → old = a).

Lemma get_field `{Platform} {A} fields members names name v (dec : A → json → option A) old a :
  encode_members fields = Some members → names = fields.*1 → bool_decide (NoDup names) = true →
  assoc name fields = Some v → reads dec old v a → get names name dec old members = Some a.
Proof.
  intros Hm -> Hnd%bool_decide_eq_true Hv [Hsome Hnone].
  eapply get_encoded; [done|done|by apply assoc_elem|done|done].
Qed.

Lemma reads_string s : ValidString s = true → reads dec_str "" (string_field s) s.
Proof.
  intros Hs. unfold string_field. rewrite coerce_utf8_valid by done.
  split; [apply enc_str_dec|done].
Qed.

Lemma reads_string_omit s : ValidString s = true → reads dec_str "" (string_field_omit s) s.
Proof.
  intros Hs. unfold string_field_omit. rewrite coerce_utf8_valid by done.
  split; [apply enc_str_omit_dec|apply enc_str_omit_none].
Qed.

Lemma reads_omitted {A} (dec : A → json → option A) old : reads dec old (Some None) old.
Proof. done. Qed.

Lemma reads_raw j : reads dec_raw RawNil (Some j) (from_option Raw RawNil j).
Proof. split; [by intros ? [= ->]|by intros [= ->]]. Qed.

(** A NumericDate within range. *)
Definition date_ok (n : Z) : Prop := (MinInt64 ≤ n ≤ Max)%Z.

Lemma ParseDate_int n : date_ok n → ParseDate (marshal_int n) = Some n.
Proof.
  unfold date_ok, MinInt64, Max. intros Hn. unfold ParseDate, marshal_int, parse_date, unmarshal_int64.
  cbn [num_neg num_digits num_exp].
  replace (if (n <? 0)%Z then (- Z.abs n)%Z else Z.abs n) with n by (destruct (Z.ltb_spec n 0); lia).
  rewrite (bool_decide_true (0 = 0)%Z), bool_decide_true by (unfold MinInt64, MaxInt64; lia || done).
  simpl. rewrite bool_decide_false; [done|]. unfold Max. lia.
Qed.

Lemma reads_date old n : date_ok n → reads dec_date old (enc_int n) n.
Proof. intros Hn. split; [|done]. intros j [= <-]. by apply ParseDate_int. Qed.

Lemma reads_date_omit n : date_ok n → reads dec_date 0%Z (enc_int_omit n) n.
Proof.
  intros Hn. unfold enc_int_omit. case_bool_decide; [by subst|]. by apply reads_date.
Qed.

Create HintDb reads.
#[export] Hint Resolve reads_string reads_string_omit reads_omitted reads_raw reads_date
  reads_date_omit encoded_ValidString : reads.

(** Reads every field of what [Hm] wrote. *)
Ltac read_fields Hm :=
  repeat match goal with
  | |- context [get ?names ?name ?dec ?old ?members] =>
    erewrite (get_field _ members names name _ dec old _ Hm);
      [cbn [mbind option_bind]|reflexivity|reflexivity|reflexivity|solve [eauto with reads]]
  end.

(** * Signing and parsing *)

Class SigningLaws (St : Type) `{Platform} `{J : JoseCrypto} `{!JoseSigner St} := {
  Marshal_reads j : utf8_json j = true →
    json_text (json_Marshal j) = Raw j ∧ DecodesLosslessly (json_Marshal j) = true ∧
    json_Marshal j ≠ "";
  MarshalUnescaped_reads j : utf8_json j = true → json_text (json_MarshalUnescaped j) = Raw j;
  sign_input_verifies k alg input s sig s' :
    sign_input k alg input s = (Ok sig, s') →
    verify_signature alg (signer_Public k) input sig = true ∧ sig ≠ "";
  key_Equal_eq k k' : key_Equal k k' = true → k = k';
  jwk_reads k alg j : validateKeyForAlgorithm k alg = true → jwk_MarshalJSON k alg = Some j →
    utf8_json j = true ∧ ParseJWK (Raw j) alg = Some k;
  random_ReadFull_length n s buf s' :
    random_ReadFull n s = (Ok buf, s') → String.length buf = n;
  signer_key_works k alg : validateKeyForAlgorithm (signer_Public k) alg = true →
    is_Some (jwk_Thumbprint (signer_Public k)) }.

Lemma require_create_Ok {St} b (s : St) u s' : require_create b s = (Ok u, s') ↔ b = true ∧ s' = s.
Proof. unfold require_create. rewrite lift_Ok, guard_err_Ok. done. Qed.

Ltac inv_require :=
  repeat match goal with
  | Hr : ebind (require_create _) _ _ = (Ok _, _) |- _ =>
    apply ebind_Ok in Hr as (? & ? & [? ->]%require_create_Ok & Hr)
  end.

Section theorems.
Context {St : Type} `{Platform} `{J : JoseCrypto} `{!JoseSigner St} `{!SigningLaws St}.

Lemma algorithm_String_parses alg :
  SignatureAlgorithm_IsValid alg = true → ParseSignatureAlgorithm (algorithm_String alg) = Some alg.
Proof.
  unfold SignatureAlgorithm_IsValid. intros Hv%bool_decide_eq_true.
  apply elem_of_cons in Hv as [->|Hv]; [done|]. apply elem_of_cons in Hv as [->|Hv]; [done|].
  by apply list_elem_of_singleton in Hv as ->.
Qed.

Lemma algorithm_String_valid alg : ValidString (algorithm_String alg) = true.
Proof. unfold algorithm_String. by repeat case_decide. Qed.

(** A header whose texts are UTF-8 and whose key suits its algorithm. *)
Definition good_header (h : Header PublicKey) : Prop :=
  ValidString (hd_Type h) = true ∧ ValidString (hd_KeyID h) = true ∧ hd_X5C h = RawNil ∧
  ∀ k, hd_JWK h = Some k → validateKeyForAlgorithm k (hd_Algorithm h) = true.

Lemma field_case_encoded fields members :
  encode_members fields = Some members → field_case_ok fields.*1 members = true.
Proof.
  intros Hf%encode_members_names. unfold field_case_ok. apply forallb_forall.
  intros p Hp%list_elem_of_In. rewrite Forall_forall in Hf. by rewrite (bool_decide_true _ (Hf p Hp)).
Qed.

Lemma marshalHeader_parses h text :
  good_header h → marshalHeader h = Some text → parseHeader text = Some h ∧ text ≠ "".
Proof.
  intros (Htyp & Hkid & Hx5c & Hjwk) Hm. unfold marshalHeader in Hm.
  destruct (SignatureAlgorithm_IsValid (hd_Algorithm h)) eqn:Halg; [|done].
  apply fmap_Some in Hm as (members & Hm & ->). unfold header_members in Hm.
  destruct (match hd_JWK h with Some k => _ | None => _ end) as [jwk|] eqn:Hk; [|done].
  cbn [mbind option_bind] in Hm.
  assert (Hj : ∀ j, jwk = Some j → ∃ k, hd_JWK h = Some k ∧ utf8_json j = true ∧
    ParseJWK (Raw j) (hd_Algorithm h) = Some k).
  { intros j ->. destruct (hd_JWK h) as [k|]; [|done].
    apply fmap_Some in Hk as (j' & Hk & [= <-]).
    exists k. split; [done|]. by apply jwk_reads; [apply Hjwk|]. }
  assert (Hnone : jwk = None → hd_JWK h = None).
  { intros ->. destruct (hd_JWK h); [|done]. by apply fmap_Some in Hk as (? & _ & [=]). }
  assert (Hu : utf8_json (JObj members) = true).
  { eapply encode_members_utf8; [|exact Hm].
    pose proof (algorithm_String_valid (hd_Algorithm h)).
    repeat apply Forall_cons_2; try apply Forall_nil_2; auto with utf8.
    - split; [done|]. intros j [= ->]. by destruct (Hj j eq_refl) as (? & _ & ? & _).
    - split; [done|]. rewrite Hx5c. by intros j [=]. }
  destruct (Marshal_reads _ Hu) as (Htext & Hloss & Hne). split; [|done].
  unfold parseHeader. rewrite Hloss. unfold strict_members. rewrite Htext.
  pose proof (field_case_encoded _ _ Hm) as Hcase.
  change (field_case_ok rawHeader_names members = true) in Hcase. rewrite Hcase.
  cbn [negb mbind option_bind].
  pose proof (algorithm_String_valid (hd_Algorithm h)).
  rewrite Hx5c in Hm. read_fields Hm. cbn [critical_Check negb].
  rewrite algorithm_String_parses by done. cbn [mbind option_bind].
  destruct jwk as [j|]; cbn [from_option].
  - destruct (Hj j eq_refl) as (k & Hhk & _ & Hp). rewrite Hp. cbn [mbind option_bind].
    destruct h; simpl in *; congruence.
  - specialize (Hnone eq_refl). destruct h; simpl in *; congruence.
Qed.

(** What is signed parses as it was made, and verifies under the signer's key. *)
Lemma jose_Sign_parses signer h payload s tok s' max :
  jose_Sign signer h payload s = (Ok tok, s') → good_header h → String.length tok ≤ max →
  ∃ c, ParseCompactMax tok max = Some c ∧ cp_Header c = h ∧ cp_Payload c = payload ∧
    Compact_Verify c (signer_Public signer) (hd_Algorithm h) = Ok tt.
Proof.
  unfold jose_Sign. intros Hrun Hh Hlen. inv_require.
  destruct (marshalHeader h) as [text|] eqn:Htext; [|done].
  apply ebind_Ok in Hrun as (sig & s1 & Hsig & [-> ->]%ret_Ok).
  destruct (sign_input_verifies _ _ _ _ _ _ Hsig) as [Hverify Hne].
  destruct (marshalHeader_parses _ _ Hh Htext) as [Hp Hte].
  assert (Hpay : payload ≠ "") by (by apply (bool_decide_eq_false (payload = "")), negb_true_iff).
  exists {| cp_Header := h; cp_Payload := payload;
    cp_signingInput := EncodeToString rawURL text +:+ "." +:+ EncodeToString rawURL payload;
    cp_signature := sig |}.
  split_and!; [|done|done|].
  - unfold ParseCompactMax. rewrite bool_decide_false by lia. unfold Split.
    rewrite <-string_app_assoc. cbn [String.append].
    rewrite split_from_app by apply encoded_no_dot.
    rewrite split_from_app by apply encoded_no_dot. rewrite split_from_last by apply encoded_no_dot.
    cbn [String.append]. rewrite !bool_decide_false by (by apply encoded_nonempty). cbn [orb].
    rewrite !(proj2 (URL_spec _ _) eq_refl), Hp. cbn [mbind option_bind].
    match goal with Hl : DecodesLosslessly payload = true |- _ => rewrite Hl end. done.
  - unfold Compact_Verify. cbn [cp_Header cp_signingInput cp_signature].
    rewrite bool_decide_true by done. cbn [negb]. by rewrite Hverify.
Qed.

Lemma sign_claims_parses write signer h claims s tok s' max :
  (∀ j, utf8_json j = true → json_text (write j) = Raw j) →
  sign_claims write signer h claims s = (Ok tok, s') → good_header h → utf8_map claims →
  String.length tok ≤ max →
  ∃ c, ParseCompactMax tok max = Some c ∧ cp_Header c = h ∧
    unmarshal_object (json_text (cp_Payload c)) = Some claims ∧
    Compact_Verify c (signer_Public signer) (hd_Algorithm h) = Ok tt.
Proof.
  intros Hw Hrun Hh Hm Hlen. unfold sign_claims in Hrun.
  destruct (marshal_utf8_map claims Hm) as (l & Hl & Hu & Hback). rewrite Hl in Hrun.
  destruct (jose_Sign_parses _ _ _ _ _ _ _ Hrun Hh Hlen) as (c & Hc & Hhd & Hpay & Hv).
  exists c. split_and!; [done|done| |done]. by rewrite Hpay, Hw.
Qed.

Lemma plain_header_good alg typ kid :
  ValidString typ = true → ValidString kid = true → good_header (plain_header alg typ kid).
Proof. intros Htyp Hkid. split_and!; [done|done|done|]. by intros ? [=]. Qed.

Lemma randomJTI_Ok (s : St) jti s' :
  randomJTI s = (Ok jti, s') → jti ≠ "" ∧ ValidString jti = true.
Proof.
  intros (buf & s1 & Hr & [-> ->]%ret_Ok)%ebind_Ok. split; [|apply encoded_ValidString].
  apply encoded_nonempty. intros ->. by apply random_ReadFull_length in Hr.
Qed.

(** Taking the steps of a verification that hold. *)
Lemma require_true {R B} b e (k : unit → eff R dpop_error B) r :
  b = true → ebind (require b e) k r = k tt r.
Proof. by intros ->. Qed.

Lemma lift_true {R E A B} (x : result E A) a (k : A → eff R E B) r :
  x = Ok a → ebind (lift x) k r = k a r.
Proof. by intros ->. Qed.

Lemma guard_true {R E B} b e (k : unit → eff R E B) r :
  b = true → ebind (lift (guard_err b e)) k r = k tt r.
Proof. by intros ->. Qed.

Lemma map_lift_true {R E E' A B} (f : E → E') (x : result E A) a (k : A → eff R E' B) r :
  x = Ok a → ebind (map_err f (lift x)) k r = k a r.
Proof. by intros ->. Qed.

(** * DPoP proofs *)

(** A request that carries the proof [tok] made for [req], as the server sees
    it: [u] is its URI and [htu] how the proof's htu parses. *)
Record presents (req : ProofRequest) (tok : string) (u htu : ParsedURL) {R}
    (vreq : VerifyRequest R) : Prop := {
  pt_proof : vr_Proof vreq = tok;
  pt_method : vr_Method vreq = pr_Method req;
  pt_url : vr_URL vreq = Some u ∧ URI u = URI (pr_URL req) ∧ IsASCII (url_Host u) = true;
  pt_targets : forallb isAbsoluteHTTP (targets vreq) = true;
  pt_htu : url_parse (URI (pr_URL req)) = Some htu ∧ isAbsoluteHTTP htu = true ∧
    IsASCII (url_Host htu) = true ∧ URI htu = URI (pr_URL req);
  pt_token : vr_AccessToken vreq = pr_AccessToken req;
  pt_nonce : vr_RequiredNonce vreq = "" ∨ vr_RequiredNonce vreq = pr_Nonce req;
  pt_age : (0 < vr_MaxProofAge vreq)%Z ∧ IsZero (vr_Now vreq) = false ∧
    After (Unix (unix_seconds (pr_Now req))) (Add (vr_Now vreq) (vr_MaxClockSkew vreq)) = false ∧
    (Sub (vr_Now vreq) (Unix (unix_seconds (pr_Now req))) ≤ vr_MaxProofAge vreq)%Z;
  pt_utf8 : ValidString (pr_Method req) = true ∧ ValidString (URI (pr_URL req)) = true ∧
    ValidString (pr_Nonce req) = true ∧ URI (pr_URL req) ≠ "";
  pt_date : date_ok (unix_seconds (pr_Now req));
  pt_size : String.length tok ≤ DefaultMaxCompactBytes }.

Definition created_claims (req : ProofRequest) (jti : string) : Dpop.claims := {|
  JTI := jti; HTM := pr_Method req; HTU := URI (pr_URL req); IAT := unix_seconds (pr_Now req);
  NBF := 0; EXP := 0;
  ATH := if bool_decide (pr_AccessToken req = "") then "" else accessTokenHash (pr_AccessToken req);
  c_Nonce := pr_Nonce req |}.

Lemma proof_claims_read req jti members :
  proof_claims req jti = Some members → ValidString jti = true →
  ValidString (pr_Method req) = true → ValidString (URI (pr_URL req)) = true →
  ValidString (pr_Nonce req) = true → date_ok (unix_seconds (pr_Now req)) →
  utf8_json (JObj members) = true ∧
  dpop_claims (json_Marshal (JObj members)) = Some (created_claims req jti).
Proof.
  intros Hm Hjti Hmethod Hu Hn Hd. unfold proof_claims in Hm.
  set (ath := if bool_decide (pr_AccessToken req = "") then Some None
              else string_field_omit (accessTokenHash (pr_AccessToken req))) in Hm.
  assert (Hath : reads dec_str "" ath (ATH (created_claims req jti)) ∧ utf8_field ("ath", ath)).
  { subst ath. simpl. case_bool_decide; [auto with utf8 reads|].
    unfold accessTokenHash. auto with utf8 reads. }
  destruct Hath as [Hath Hath8]. clearbody ath.
  assert (Hutf : utf8_json (JObj members) = true).
  { eapply encode_members_utf8; [|exact Hm].
    repeat apply Forall_cons_2; try apply Forall_nil_2; auto with utf8. }
  split; [done|]. destruct (Marshal_reads _ Hutf) as (Htext & _ & _).
  unfold dpop_claims, strict_members. rewrite Htext.
  pose proof (field_case_encoded _ _ Hm) as Hcase.
  change (field_case_ok dpop_claim_names members = true) in Hcase. rewrite Hcase.
  cbn [mbind option_bind]. read_fields Hm. done.
Qed.

(** Every check of the claims passes. *)
Lemma created_claims_verify {R} req tok u htu (vreq : VerifyRequest R) jti :
  presents req tok u htu vreq →
  @verifyProofClaims _ (jose_dpop URI) R vreq (created_claims req jti)
    (Unix (unix_seconds (pr_Now req))) = Ok tt.
Proof.
  intros Hp. destruct (pt_url _ _ _ _ _ Hp) as (Hu & Huri & Hasc).
  destruct (pt_htu _ _ _ _ _ Hp) as (Hparse & Habs & Hha & Hhu).
  destruct (pt_age _ _ _ _ _ Hp) as (_ & _ & Hafter & Hsub).
  unfold verifyProofClaims. cbn [HTM HTU ATH c_Nonce created_claims].
  rewrite (pt_method _ _ _ _ _ Hp), bool_decide_true by done. cbn [guard_err rbind].
  rewrite Hparse, Habs, Hha. cbn [andb guard_err rbind].
  assert (Hn : @namesTarget (jose_dpop URI) (@canonical_URI (jose_dpop URI) htu) (targets vreq) = true).
  { unfold namesTarget, targets. rewrite Hu. cbn [existsb canonical_URI jose_dpop].
    rewrite Hasc, Huri, Hhu, bool_decide_true by done. done. }
  rewrite Hn. cbn [guard_err rbind]. unfold checkProofTimes. cbn [NBF EXP created_claims].
  rewrite Hafter, (bool_decide_true (Sub _ _ ≤ _)%Z) by done.
  cbn [negb guard_err rbind bool_decide andb]. rewrite !(bool_decide_true (0 = 0)%Z) by done.
  cbn [negb andb guard_err rbind].
  rewrite (pt_token _ _ _ _ _ Hp).
  assert (Hath : (if negb (bool_decide (pr_AccessToken req = ""))
    then bool_decide ((if bool_decide (pr_AccessToken req = "") then ""
                       else accessTokenHash (pr_AccessToken req)) = accessTokenHash (pr_AccessToken req))
    else bool_decide ((if bool_decide (pr_AccessToken req = "") then ""
                       else accessTokenHash (pr_AccessToken req)) = "")) = true).
  { case_bool_decide; cbn [negb]; by rewrite bool_decide_true. }
  rewrite Hath. cbn [guard_err rbind].
  destruct (pt_nonce _ _ _ _ _ Hp) as [->| ->]; [by rewrite bool_decide_true|].
  rewrite (bool_decide_true (pr_Nonce req = pr_Nonce req)) by done. by rewrite orb_true_r.
Qed.

(** A proof made for a request is accepted with it: [Verify] refuses it only as
    a replay, and reports the key, time, nonce and identifier it was made with. *)
Theorem created_proof_accepted {R} (req : ProofRequest) s tok s1 u htu (vreq : VerifyRequest R) :
  CreateProof req s = (Ok tok, s1) → presents req tok u htu vreq →
  ∃ jti thumbprint, jwk_Thumbprint (signer_Public (pr_Signer req)) = Some thumbprint ∧
  ∀ r, @Dpop.Verify _ (jose_dpop URI) R vreq r =
    ebind (match vr_Replay vreq with
           | None => ret tt
           | Some UseOnce => map_err (λ _, ErrReplay)
               (UseOnce thumbprint jti (Add (Unix (unix_seconds (pr_Now req)))
                 (SaturatingAdd [vr_MaxProofAge vreq; vr_MaxClockSkew vreq; vr_MaxClockSkew vreq])))
           end)
      (λ _, ret {| vp_Thumbprint := thumbprint; vp_IssuedAt := Unix (unix_seconds (pr_Now req));
                   vp_Nonce := pr_Nonce req; vp_JTI := jti |}) r.
Proof.
  intros Hrun Hp. unfold CreateProof in Hrun. inv_require.
  apply ebind_Ok in Hrun as (jti & s2 & Hjti & Hrun).
  destruct (randomJTI_Ok _ _ _ Hjti) as [Hne Hjv].
  destruct (proof_claims req jti) as [members|] eqn:Hm; [|done].
  destruct (pt_utf8 _ _ _ _ _ Hp) as (Hvm & Hvu & Hvn & Hune).
  destruct (proof_claims_read _ _ _ Hm Hjv Hvm Hvu Hvn (pt_date _ _ _ _ _ Hp)) as [Hutf Hclaims].
  match goal with Hk : validateKeyForAlgorithm _ _ = true |- _ => rename Hk into Hkey end.
  destruct (jose_Sign_parses _ _ _ _ _ _ DefaultMaxCompactBytes Hrun) as (c & Hc & Hhd & Hpay & Hv).
  { split_and!; [done|done|done|]. by intros k [= <-]. }
  { apply (pt_size _ _ _ _ _ Hp). }
  destruct (signer_key_works _ _ Hkey) as [thumbprint Ht].
  exists jti, thumbprint. split; [done|]. intros r. unfold Dpop.Verify.
  destruct (pt_url _ _ _ _ _ Hp) as (Hu & Huri & Hasc).
  destruct (pt_age _ _ _ _ _ Hp) as (Hage & Hnow & _).
  assert (Hmeth : pr_Method req ≠ "") by
    (by apply (bool_decide_eq_false (pr_Method req = "")), negb_true_iff).
  rewrite (pt_method _ _ _ _ _ Hp), Hu, (pt_targets _ _ _ _ _ Hp), Hnow, (pt_proof _ _ _ _ _ Hp).
  rewrite (bool_decide_false (pr_Method req = "")), (bool_decide_true (0 < _)%Z) by done.
  rewrite !require_true by done.
  unfold ParseCompact at 1. cbn [jose_dpop]. unfold jose_ParseCompact. rewrite Hc.
  cbn [fmap option_fmap option_map jws_Type jws_HasJWK jws_Verifies jws_Payload jws_Thumbprint].
  rewrite Hhd. cbn [hd_JWK hd_Algorithm hd_Type is_Some_bool mbind option_bind].
  cbn [hd_Algorithm] in Hv. rewrite Hv, Hpay.
  rewrite !require_true by done.
  unfold parseClaims. cbn [strict_claims jose_dpop]. rewrite Hclaims. cbn [JTI HTM HTU created_claims].
  rewrite !bool_decide_false by done. cbn [orb].
  rewrite (lift_true _ (created_claims req jti)) by done.
  change (IAT (created_claims req jti)) with (unix_seconds (pr_Now req)).
  rewrite (lift_true _ tt) by (by apply (created_claims_verify _ _ _ _ _ _ Hp)). by rewrite Ht.
Qed.

(** * Lifetimes

    A JWT made at [made] to last [lifetime], read at [now] by a verifier that
    allows [max] and the clock skew [skew]. *)
Record in_time (made : Time) (lifetime : Duration) (now : Time) (max skew : Duration) : Prop := {
  it_now : IsZero now = false;
  it_max : (0 < max ≤ MaxInt64)%Z;
  it_skew : (0 ≤ skew ≤ MaxInt64)%Z;
  it_lifetime : (lifetime ≤ max)%Z;
  it_made : (made ≤ now + skew)%Z;
  it_expiry : (now ≤ Unix (unix_seconds (Add made lifetime)) + skew)%Z;
  it_dates : date_ok (unix_seconds made) ∧ date_ok (unix_seconds (Add made lifetime)) }.

Lemma unix_seconds_below t : (Unix (unix_seconds t) ≤ t)%Z.
Proof. unfold Unix, unix_seconds, Second. pose proof (Z.mul_div_le t 1000000000). lia. Qed.

Section in_time.
Context {made : Time} {lifetime : Duration} {now : Time} {max skew : Duration}.
Hypothesis Hin : in_time made lifetime now max skew.

Lemma in_time_unexpired : After now (Add (Unix (unix_seconds (Add made lifetime))) skew) = false.
Proof. unfold After. apply bool_decide_eq_false. destruct Hin. unfold Add in *. lia. Qed.

Lemma in_time_lifetime :
  bool_decide (SaturatingAdd [max; skew] < Sub (Unix (unix_seconds (Add made lifetime))) now)%Z = false.
Proof.
  apply bool_decide_eq_false. destruct Hin. rewrite SaturatingAdd_spec.
  2: { repeat constructor; lia. }
  unfold Sub, sum_durations. pose proof (unix_seconds_below (Add made lifetime)).
  unfold Add, MinInt64, MaxInt64 in *. simpl. lia.
Qed.

Lemma in_time_issued : After (Unix (unix_seconds made)) (Add now skew) = false.
Proof.
  unfold After. apply bool_decide_eq_false. destruct Hin.
  pose proof (unix_seconds_below made). unfold Add in *. lia.
Qed.
End in_time.

(** * Client assertions *)

Record accepts_assertion (req : AssertionRequest) (tok : string) {R}
    (policy : ClientAssertion.VerifyPolicy R) : Prop := {
  aa_client : ClientAssertion.ExpectedClientID policy = ar_ClientID req;
  aa_audience : ar_Audience req ∈ ClientAssertion.ExpectedAudiences policy;
  aa_algorithm : ClientAssertion.Algorithm policy = ar_Algorithm req;
  aa_time : in_time (ar_Now req) (ar_Lifetime req) (ClientAssertion.Policy_Now policy)
    (ClientAssertion.MaxLifetime policy) (ClientAssertion.Policy_MaxClockSkew policy);
  aa_expiry : unix_seconds (Add (ar_Now req) (ar_Lifetime req)) ≠ 0%Z;
  aa_utf8 : ValidString (ar_ClientID req) = true ∧ ValidString (ar_Audience req) = true ∧
    ValidString (ar_KeyID req) = true;
  aa_size : String.length tok ≤ DefaultMaxCompactBytes }.

Lemma assertion_claims_read req jti members :
  assertion_claims req jti = Some members → ValidString jti = true → jti ≠ "" →
  ar_ClientID req ≠ "" → ar_Audience req ≠ "" →
  ValidString (ar_ClientID req) = true → ValidString (ar_Audience req) = true →
  date_ok (unix_seconds (ar_Now req)) → date_ok (unix_seconds (Add (ar_Now req) (ar_Lifetime req))) →
  unix_seconds (Add (ar_Now req) (ar_Lifetime req)) ≠ 0%Z →
  utf8_json (JObj members) = true ∧
  ClientAssertion.parseClaims (json_Marshal (JObj members)) = Some {|
    ClientAssertion.c_Issuer := ar_ClientID req; ClientAssertion.c_Subject := ar_ClientID req;
    ClientAssertion.c_Audience := ar_Audience req; ClientAssertion.c_JTI := jti;
    ClientAssertion.c_ExpiresAt := unix_seconds (Add (ar_Now req) (ar_Lifetime req));
    ClientAssertion.c_IssuedAt := unix_seconds (ar_Now req); ClientAssertion.c_NotBefore := 0 |}.
Proof.
  intros Hm Hjti Hjne Hcne Hane Hc Ha Hiat Hexp Hexp0. unfold assertion_claims in Hm.
  assert (Hutf : utf8_json (JObj members) = true).
  { eapply encode_members_utf8; [|exact Hm].
    repeat apply Forall_cons_2; try apply Forall_nil_2; auto with utf8. }
  split; [done|]. destruct (Marshal_reads _ Hutf) as (Htext & _ & _).
  unfold ClientAssertion.parseClaims, strict_members. rewrite Htext.
  pose proof (field_case_encoded _ _ Hm) as Hcase.
  change (field_case_ok ClientAssertion.claim_names members = true) in Hcase. rewrite Hcase.
  cbn [mbind option_bind]. read_fields Hm.
  assert (Href : ClientAssertion.refuseRequestClaims members = true).
  { apply forallb_forall. intros name Hname%list_elem_of_In.
    apply negb_true_iff, bool_decide_eq_false. intros ([k j] & -> & Hin)%list_elem_of_fmap.
    pose proof (encode_members_names _ _ Hm) as Hall. rewrite Forall_forall in Hall.
    specialize (Hall _ Hin). simpl in *. unfold ClientAssertion.requestClaims in Hname.
    set_solver. }
  rewrite Href. cbn [negb]. by rewrite !bool_decide_false by done.
Qed.

(** A client assertion made for a server authenticates its client there: it is
    refused only as a replay. *)
Theorem created_assertion_accepted {R} (req : AssertionRequest) s tok s1
    (policy : ClientAssertion.VerifyPolicy R) :
  CreateAssertion req s = (Ok tok, s1) → accepts_assertion req tok policy →
  ∃ a jti, ClientAssertion.Parse tok = Some a ∧ ClientAssertion.KeyID a = ar_KeyID req ∧
    ClientAssertion.ClaimedSubject a = ar_ClientID req ∧ jti ≠ "" ∧
  let exp := Unix (unix_seconds (Add (ar_Now req) (ar_Lifetime req))) in
  ∀ r, ClientAssertion.Verify policy a (signer_Public (ar_Signer req)) r =
    ebind (match ClientAssertion.Replay policy with
           | None => ret tt
           | Some UseOnce => map_err (λ _, ClientAssertion.ErrReplay)
               (UseOnce jti (Add exp (SaturatingAdd
                 [ClientAssertion.Policy_MaxClockSkew policy;
                  ClientAssertion.Policy_MaxClockSkew policy])))
           end)
      (λ _, ret {| ClientAssertion.va_ClientID := ar_ClientID req;
                   ClientAssertion.va_ExpiresAt := exp; ClientAssertion.va_InstanceKey := "" |}) r.
Proof.
  intros Hrun []. unfold CreateAssertion in Hrun. inv_require.
  apply ebind_Ok in Hrun as (jti & s2 & Hjti & Hrun).
  destruct (randomJTI_Ok _ _ _ Hjti) as [Hne Hjv].
  destruct (assertion_claims req jti) as [members|] eqn:Hm; [|done].
  destruct aa_utf9 as (Hvc & Hva & Hvk). destruct (it_dates _ _ _ _ _ aa_time0) as [Hd1 Hd2].
  assert (Hcne : ar_ClientID req ≠ "") by
    (by apply (bool_decide_eq_false (ar_ClientID req = "")), negb_true_iff).
  assert (Hane : ar_Audience req ≠ "") by
    (by apply (bool_decide_eq_false (ar_Audience req = "")), negb_true_iff).
  destruct (assertion_claims_read _ _ _ Hm Hjv Hne Hcne Hane Hvc Hva Hd1 Hd2 aa_expiry0) as [_ Hcl].
  destruct (jose_Sign_parses _ _ _ _ _ _ DefaultMaxCompactBytes Hrun) as (c & Hc & Hhd & Hpay & Hv);
    [by apply plain_header_good|done|].
  unfold ClientAssertion.Parse, jose_ParseCompact. rewrite Hc. cbn [mbind option_bind].
  rewrite Hhd. cbn [hd_Type plain_header]. unfold RefuseOtherExplicitType.
  rewrite bool_decide_true by done. cbn [orb negb]. rewrite Hpay, Hcl. cbn [fmap option_fmap option_map].
  eexists _, jti. split; [done|]. split; [unfold ClientAssertion.KeyID; simpl; by rewrite Hhd|].
  split; [done|]. split; [done|]. intros r. unfold ClientAssertion.Verify.
  cbn [ClientAssertion.as_claims ClientAssertion.as_compact ClientAssertion.c_ExpiresAt
    ClientAssertion.c_Issuer ClientAssertion.c_Subject ClientAssertion.c_Audience
    ClientAssertion.c_JTI].
  rewrite aa_client0, (it_now _ _ _ _ _ aa_time0), aa_algorithm0.
  cbn [hd_Algorithm plain_header] in Hv.
  rewrite (bool_decide_false (ar_ClientID req = "")), (bool_decide_true (ar_ClientID req = _)),
    (bool_decide_true (_ ∈ _)), (bool_decide_true (0 < _)%Z) by (done || destruct aa_time0; lia).
  rewrite (bool_decide_false (_ = [])).
  2: { intros Heq. rewrite Heq in aa_audience0. by apply not_elem_of_nil in aa_audience0. }
  rewrite (in_time_unexpired aa_time0). rewrite !guard_true by done.
  rewrite (map_lift_true _ _ tt) by done. rewrite !guard_true by done.
  unfold ClientAssertion.checkTimes.
  cbn [ClientAssertion.c_IssuedAt ClientAssertion.c_NotBefore].
  rewrite (in_time_lifetime aa_time0), (in_time_issued aa_time0), orb_true_r. done.
Qed.

(** * Claims sets

    A registered claim is what was written; the rest are the parameters. *)

Lemma lookup_set_claims standard params k :
  set_claims standard params !! k =
    match assoc k standard with Some r => Some r | None => params !! k end.
Proof.
  induction standard as [|[n r] standard IH]; simpl; [done|].
  destruct (String.eqb_spec n k) as [->|Hne]; [apply lookup_insert_eq|].
  by rewrite lookup_insert_ne, IH.
Qed.

Lemma delete_claims keys standard params :
  standard.*1 ⊆ keys → Forall (λ k, params !! k = None) keys →
  foldr delete (set_claims standard params) keys = params.
Proof.
  intros Hsub Hnone. apply map_eq. intros k.
  assert (Hl : foldr delete (set_claims standard params) keys !! k =
    if decide (k ∈ keys) then None else set_claims standard params !! k).
  { clear Hsub Hnone. induction keys as [|k' keys IH]; simpl; [done|].
    destruct (decide (k = k')) as [->|Hne].
    { rewrite lookup_delete_eq, decide_True; [done|by left]. }
    rewrite lookup_delete_ne, IH by done.
    destruct (decide (k ∈ keys)); [rewrite decide_True; [done|by right]|].
    rewrite decide_False; [done|]. by intros [?|?]%elem_of_cons. }
  rewrite Hl. case_decide as Hk.
  { rewrite Forall_forall in Hnone. by rewrite Hnone. }
  rewrite lookup_set_claims. destruct (assoc k standard) as [r|] eqn:Ha; [|done].
  apply assoc_elem, (list_elem_of_fmap_2 fst) in Ha. simpl in Ha. by apply Hsub in Ha.
Qed.

Lemma unmarshal_marshal_string s : ValidString s = true → unmarshal_string (marshal_string s) = Some s.
Proof. intros Hs. unfold marshal_string. by rewrite coerce_utf8_valid. Qed.

Section tokens_pops.
Import Tokens.

Lemma popString_written key required m s :
  m !! key = Some (marshal_string s) → ValidString s = true → s ≠ "" →
  popString key required m = Ok (s, true, delete key m).
Proof.
  intros Hk Hs Hne. unfold popString. rewrite Hk, unmarshal_marshal_string by done.
  by rewrite bool_decide_false.
Qed.

Lemma popInt64_written key required m n :
  m !! key = Some (marshal_int n) → date_ok n → popInt64 key required m = Ok (n, true, delete key m).
Proof. intros Hk Hn. unfold popInt64. by rewrite Hk, ParseDate_int. Qed.

Lemma popString_optional key m s :
  m !! key = (if negb (bool_decide (s = "")) then Some (marshal_string s) else None) →
  ValidString s = true → ∃ p, popString key false m = Ok (s, p, delete key m).
Proof.
  case_bool_decide as Hs; simpl; intros Hk Hv.
  - subst. exists false. unfold popString. by rewrite Hk, delete_id.
  - exists true. by apply popString_written.
Qed.

Lemma popInt64_optional key m n (b : bool) :
  m !! key = (if b then Some (marshal_int n) else None) → date_ok n →
  popInt64 key false m = Ok (if b then n else 0%Z, b, delete key m).
Proof.
  destruct b; intros Hk Hn; [by apply popInt64_written|].
  unfold popInt64. by rewrite Hk, delete_id.
Qed.
End tokens_pops.

(** * Authorization responses *)

Record accepts_response (p : ResponseParams) (tok : string) (policy : Jarm.VerifyPolicy) : Prop := {
  rp_issuer : Jarm.ExpectedIssuer policy = jc_Issuer p;
  rp_audience : Jarm.ExpectedAudience policy = jc_Audience p;
  rp_algorithm : Jarm.Algorithm policy = jc_Algorithm p;
  rp_time : in_time (jc_Now p) (jc_Lifetime p) (Jarm.Policy_Now policy)
    (Jarm.MaxLifetime policy) (Jarm.Policy_MaxClockSkew policy);
  rp_params : utf8_map (jc_Parameters p);
  rp_shape : Jarm.checkAuthorizationResponseShape (jc_Parameters p) = Ok tt;
  rp_utf8 : ValidString (jc_Issuer p) = true ∧ ValidString (jc_Audience p) = true ∧
    ValidString (jc_KeyID p) = true;
  rp_size : String.length tok ≤ DefaultMaxCompactBytes }.

Lemma refuses_reserved_None reserved params k :
  refuses_reserved reserved params = true → k ∈ reserved → params !! k = None.
Proof.
  intros Hall Hk. unfold refuses_reserved in Hall. rewrite forallb_forall in Hall.
  specialize (Hall k (proj1 (list_elem_of_In _ _) Hk)).
  by destruct (params !! k).
Qed.

Lemma ne_of_check (s : string) : negb (bool_decide (s = "")) = true → s ≠ "".
Proof. by intros Hs%negb_true_iff%bool_decide_eq_false. Qed.

Lemma response_members_read p :
  refuses_reserved jarm_reserved (jc_Parameters p) = true →
  jc_Issuer p ≠ "" → jc_Audience p ≠ "" →
  ValidString (jc_Issuer p) = true → ValidString (jc_Audience p) = true →
  date_ok (unix_seconds (jc_Now p)) → date_ok (unix_seconds (Add (jc_Now p) (jc_Lifetime p))) →
  Jarm.response_members (set_claims (response_claims p) (jc_Parameters p)) = Ok {|
    Jarm.r_Issuer := jc_Issuer p; Jarm.r_Audience := jc_Audience p;
    Jarm.r_ExpiresAt := Unix (unix_seconds (Add (jc_Now p) (jc_Lifetime p)));
    Jarm.r_IssuedAt := Unix (unix_seconds (jc_Now p)); Jarm.r_NotBefore := zero_time;
    Jarm.r_Parameters := jc_Parameters p |}.
Proof.
  intros Hr Hi Ha Hvi Hva Hd1 Hd2.
  assert (Hnone : ∀ k, k ∈ jarm_reserved → jc_Parameters p !! k = None)
    by (intros; by eapply refuses_reserved_None).
  unfold Jarm.response_members.
  erewrite popString_written; [|by rewrite lookup_set_claims|done|done]. cbn [rbind].
  erewrite popString_written; [|by rewrite !lookup_delete_ne, lookup_set_claims by done|done|done].
  cbn [rbind].
  erewrite popInt64_written; [|by rewrite !lookup_delete_ne, lookup_set_claims by done|done].
  cbn [rbind].
  rewrite (popInt64_optional _ _ 0 false);
    [|rewrite !lookup_delete_ne, lookup_set_claims by done; apply Hnone; set_solver|done].
  cbn [rbind].
  rewrite (popInt64_optional _ _ (unix_seconds (jc_Now p)) true);
    [|by rewrite !lookup_delete_ne, lookup_set_claims by done|done].
  cbn [rbind]. do 2 f_equal.
  apply (delete_claims ["iat"; "nbf"; "exp"; "aud"; "iss"]); [included|].
  apply Forall_forall. intros k Hk. apply Hnone. revert k Hk. included.
Qed.

(** An authorization response the server signs is accepted by the client it is
    for, and its parameters read back. *)
Theorem created_response_accepted p s tok s1 policy :
  jarm_Create p s = (Ok tok, s1) → accepts_response p tok policy →
  ∃ r, Jarm.Parse tok = Ok r ∧ Jarm.KeyID r = jc_KeyID p ∧
    Jarm.Verify r (signer_Public (jc_Signer p)) policy = Ok {|
      Jarm.vr_Issuer := jc_Issuer p; Jarm.vr_Parameters := jc_Parameters p;
      Jarm.vr_ExpiresAt := Unix (unix_seconds (Add (jc_Now p) (jc_Lifetime p))) |}.
Proof.
  intros Hrun []. unfold jarm_Create in Hrun. inv_require.
  destruct rp_utf9 as (Hvi & Hva & Hvk). destruct (it_dates _ _ _ _ _ rp_time0) as [Hd1 Hd2].
  repeat match goal with Hc : negb (bool_decide (_ = "")) = true |- _ => apply ne_of_check in Hc end.
  destruct (sign_claims_parses _ _ _ _ _ _ _ DefaultMaxCompactBytes (λ j Hj, proj1 (Marshal_reads j Hj))
    Hrun) as (c & Hc & Hhd & Hpay & Hv); [by apply plain_header_good| |done|].
  { apply set_claims_utf8; [|done].
    repeat constructor; simpl; auto with utf8. }
  unfold Jarm.Parse, jose_ParseCompact, Jarm.parseClaims. rewrite Hc, Hhd.
  cbn [hd_Type plain_header]. cbn [guard_err rbind RequireGenericType].
  rewrite Hpay, response_members_read by done. cbn [rbind].
  eexists. split; [done|]. split; [unfold Jarm.KeyID; simpl; by rewrite Hhd|].
  unfold Jarm.Verify. cbn [Jarm.rs_compact Jarm.rs_claims Jarm.r_Issuer Jarm.r_Audience
    Jarm.r_ExpiresAt Jarm.r_NotBefore Jarm.r_Parameters].
  rewrite rp_issuer0, rp_audience0, rp_algorithm0. cbn [hd_Algorithm plain_header] in Hv. rewrite Hv.
  rewrite (bool_decide_false (jc_Issuer p = "")), (bool_decide_false (jc_Audience p = "")) by done.
  rewrite (it_now _ _ _ _ _ rp_time0), (bool_decide_true (0 < _)%Z) by (destruct rp_time0; lia).
  rewrite (bool_decide_true (jc_Issuer p = _)), (bool_decide_true (jc_Audience p = _)) by done.
  rewrite (in_time_unexpired rp_time0), (in_time_lifetime rp_time0), rp_shape0. done.
Qed.

(** * Request objects *)

Section object_pops.
Import Objects.

Lemma object_popString_written key required m s :
  m !! key = Some (marshal_string s) → ValidString s = true → s ≠ "" →
  popString key required m = Ok (s, true, delete key m).
Proof.
  intros Hk Hs Hne. unfold popString. rewrite Hk, unmarshal_marshal_string by done.
  by rewrite bool_decide_false.
Qed.

Lemma object_popInt64_written key required m n :
  m !! key = Some (marshal_int n) → date_ok n → popInt64 key required m = Ok (n, true, delete key m).
Proof. intros Hk Hn. unfold popInt64. by rewrite Hk, ParseDate_int. Qed.

Lemma popIssuedAt_written m n :
  m !! "iat" = Some (marshal_int n) → date_ok n → (0 < n)%Z →
  popIssuedAt m = Ok (n, true, delete "iat" m).
Proof.
  intros Hk Hn Hpos. unfold popIssuedAt. rewrite Hk. cbn [marshal_int].
  rewrite (object_popInt64_written _ _ _ _ Hk Hn). cbn [rbind andb].
  by rewrite bool_decide_false by lia.
Qed.

Lemma popStringOrArray_written key m s :
  m !! key = Some (marshal_string s) → ValidString s = true → s ≠ "" →
  popStringOrArray key m = Ok ([s], delete key m).
Proof.
  intros Hk Hs Hne. unfold popStringOrArray. rewrite Hk, unmarshal_marshal_string by done.
  by rewrite bool_decide_false.
Qed.
End object_pops.

Record accepts_object (p : ObjectParams) (tok : string) {R} (policy : Objects.VerifyPolicy R)
    : Prop := {
  ao_client : Objects.ExpectedClientID policy = oc_ClientID p;
  ao_audience : Objects.ExpectedAudience policy = oc_Audience p;
  ao_algorithm : Objects.Algorithm policy = oc_Algorithm p;
  ao_time : in_time (oc_Now p) (oc_Lifetime p) (Objects.Policy_Now policy)
    (Objects.MaxLifetime policy) (Objects.Policy_MaxClockSkew policy);
  ao_age : (Sub (Objects.Policy_Now policy) (Unix (unix_seconds (oc_Now p))) ≤
            Objects.MaxLifetime policy)%Z;
  ao_seconds : (Second | oc_Lifetime p)%Z;
  ao_made : (0 < unix_seconds (oc_Now p))%Z;
  ao_params : utf8_map (oc_Parameters p);
  ao_subject : oc_Parameters p !! "sub" = None;
  ao_utf8 : ValidString (oc_ClientID p) = true ∧ ValidString (oc_Audience p) = true ∧
    ValidString (oc_KeyID p) = true;
  ao_size : String.length tok ≤ DefaultMaxCompactBytes }.

Definition created_object (p : ObjectParams) (jti : string) : Objects.Claims := {|
  Objects.c_Issuer := oc_ClientID p; Objects.c_Audience := [oc_Audience p];
  Objects.c_ExpiresAt := Unix (unix_seconds (Add (oc_Now p) (oc_Lifetime p)));
  Objects.c_IssuedAt := Unix (unix_seconds (oc_Now p));
  Objects.c_NotBefore := Unix (unix_seconds (oc_Now p)); Objects.c_JTI := jti;
  Objects.c_HasSubject := false; Objects.c_Parameters := oc_Parameters p |}.

Lemma object_members_read p jti :
  refuses_reserved object_reserved (oc_Parameters p) = true → object_client_id_ok p = true →
  oc_Parameters p !! "sub" = None →
  oc_ClientID p ≠ "" → oc_Audience p ≠ "" → jti ≠ "" →
  ValidString (oc_ClientID p) = true → ValidString (oc_Audience p) = true → ValidString jti = true →
  date_ok (unix_seconds (oc_Now p)) → (0 < unix_seconds (oc_Now p))%Z →
  date_ok (unix_seconds (Add (oc_Now p) (oc_Lifetime p))) →
  Objects.parse_members (set_claims (object_claims p jti) (oc_Parameters p)) =
    Ok (created_object p jti).
Proof.
  intros Hr Hcid Hsub Hc Ha Hj Hvc Hva Hvj Hd1 Hpos Hd2.
  unfold Objects.parse_members.
  erewrite object_popString_written; [|by rewrite lookup_set_claims|done|done]. cbn [rbind].
  erewrite popStringOrArray_written; [|by rewrite !lookup_delete_ne, lookup_set_claims by done|done|done].
  cbn [rbind].
  erewrite object_popInt64_written; [|by rewrite !lookup_delete_ne, lookup_set_claims by done|done].
  cbn [rbind].
  erewrite object_popInt64_written; [|by rewrite !lookup_delete_ne, lookup_set_claims by done|done].
  cbn [rbind].
  erewrite popIssuedAt_written; [|by rewrite !lookup_delete_ne, lookup_set_claims by done|done|done].
  cbn [rbind].
  erewrite object_popString_written; [|by rewrite !lookup_delete_ne, lookup_set_claims by done|done|done].
  cbn [rbind].
  unfold Objects.popString at 1.
  rewrite !lookup_delete_ne, lookup_set_claims by done. cbn [assoc object_claims String.eqb Ascii.eqb Bool.eqb].
  rewrite Hsub. cbn [rbind].
  assert (Hp : delete "jti" (delete "iat" (delete "nbf" (delete "exp" (delete "aud" (delete "iss"
    (set_claims (object_claims p jti) (oc_Parameters p))))))) = oc_Parameters p).
  { apply (delete_claims ["jti"; "iat"; "nbf"; "exp"; "aud"; "iss"]); [included|].
    apply Forall_forall. intros k Hk. eapply refuses_reserved_None; [done|].
    revert k Hk. included. }
  rewrite Hp. unfold Objects.check_client_id. unfold object_client_id_ok in Hcid.
  destruct (oc_Parameters p !! "client_id") as [raw|]; [|done].
  destruct (unmarshal_string raw); [|done]. by rewrite Hcid.
Qed.

(** The lifetime of an object made of whole seconds. *)
Lemma created_object_lifetime {R} p jti tok (policy : Objects.VerifyPolicy R) :
  accepts_object p tok policy → Objects.checkLifetime policy (created_object p jti) = Ok tt.
Proof.
  intros []. unfold Objects.checkLifetime. cbn [Objects.c_ExpiresAt Objects.c_NotBefore created_object].
  rewrite (in_time_unexpired ao_time0), (in_time_lifetime ao_time0). cbn [negb guard_err rbind].
  assert (Hz : IsZero (Unix (unix_seconds (oc_Now p))) = false).
  { unfold IsZero. apply bool_decide_eq_false. unfold Unix, zero_time, Second. lia. }
  rewrite Hz. pose proof (unix_seconds_below (oc_Now p)) as Hb.
  destruct ao_time0. unfold Before. rewrite bool_decide_false by (unfold Add; lia).
  cbn [negb guard_err rbind]. rewrite bool_decide_false by lia. cbn [negb guard_err rbind].
  assert (Hs : unix_seconds (Add (oc_Now p) (oc_Lifetime p)) =
    (unix_seconds (oc_Now p) + oc_Lifetime p / Second)%Z).
  { destruct ao_seconds0 as [q Hq]. unfold unix_seconds, Add. rewrite Hq.
    rewrite Z.div_add by (by unfold Second). by rewrite Z.div_mul by (by unfold Second). }
  rewrite Hs. rewrite bool_decide_false; [done|]. destruct ao_seconds0 as [q Hq]. rewrite Hq in *.
  rewrite Z.div_mul by (by unfold Second). unfold Sub, Unix, MinInt64, MaxInt64 in *. lia.
Qed.

(** C34. A request object a client makes for a server is accepted there, its
    parameters as the client set them: it is refused only as a replay. *)
Theorem created_object_accepted {R} p s tok s1 (policy : Objects.VerifyPolicy R) :
  requestobject_Create p s = (Ok tok, s1) → accepts_object p tok policy →
  ∃ o jti, Objects.Parse tok = Some o ∧ Objects.KeyID o = oc_KeyID p ∧ jti ≠ "" ∧
  let exp := Unix (unix_seconds (Add (oc_Now p) (oc_Lifetime p))) in
  ∀ r, Objects.Verify policy o (signer_Public (oc_Signer p)) r =
    ebind (match Objects.Replay policy with
           | None => ret tt
           | Some UseOnce => map_err (λ _, Objects.ErrReplay)
               (UseOnce jti (Add exp (SaturatingAdd
                 [Objects.Policy_MaxClockSkew policy; Objects.Policy_MaxClockSkew policy])))
           end)
      (λ _, ret {| Objects.vo_ClientID := oc_ClientID p; Objects.vo_Parameters := oc_Parameters p;
                   Objects.vo_ExpiresAt := exp |}) r.
Proof.
  intros Hrun Hacc. unfold requestobject_Create in Hrun. inv_require.
  repeat match goal with Hc : negb (bool_decide (_ = "")) = true |- _ => apply ne_of_check in Hc end.
  apply ebind_Ok in Hrun as (jti & s2 & Hjti & Hrun).
  destruct (randomJTI_Ok _ _ _ Hjti) as [Hne Hjv].
  pose proof (created_object_lifetime p jti tok policy Hacc) as Hlife. destruct Hacc.
  destruct ao_utf9 as (Hvc & Hva & Hvk). destruct (it_dates _ _ _ _ _ ao_time0) as [Hd1 Hd2].
  destruct (sign_claims_parses _ _ _ _ _ _ _ DefaultMaxCompactBytes MarshalUnescaped_reads
    Hrun) as (c & Hc & Hhd & Hpay & Hv); [by apply plain_header_good| |done|].
  { apply set_claims_utf8; [|done]. repeat constructor; simpl; auto with utf8. }
  unfold Objects.Parse, jose_ParseCompact, Objects.parseClaims. rewrite Hc. cbn [mbind option_bind].
  rewrite Hhd, Hpay, object_members_read by done. cbn [hd_Type plain_header].
  change (negb (bool_decide (Objects.jwtType = "")) && negb (Objects.isRequestObjectType Objects.jwtType))
    with false. cbv iota.
  eexists _, jti. split; [done|]. split; [unfold Objects.KeyID; simpl; by rewrite Hhd|].
  split; [done|]. intros r. unfold Objects.Verify. cbn [Objects.ob_claims Objects.ob_compact].
  assert (Hset : Objects.policy_set policy = true).
  { unfold Objects.policy_set. rewrite ao_client0, ao_audience0, !bool_decide_false by done.
    rewrite (it_now _ _ _ _ _ ao_time0), bool_decide_true by (destruct ao_time0; lia). done. }
  cbn [hd_Algorithm plain_header] in Hv.
  rewrite guard_true, ao_algorithm0, (map_lift_true _ _ tt) by done.
  rewrite guard_true by (cbn; by rewrite ao_client0, bool_decide_true).
  assert (Haud : Objects.checkAudienceAndSubject policy (created_object p jti) = Ok tt).
  { unfold Objects.checkAudienceAndSubject. cbn. rewrite ao_audience0.
    destruct (Objects.AutomaticFederationRegistration policy); by rewrite bool_decide_true by set_solver. }
  rewrite (lift_true _ tt) by done.
  assert (Hiat : Objects.checkIssuedAt policy (created_object p jti) = Ok tt).
  { unfold Objects.checkIssuedAt. cbn [Objects.c_IssuedAt created_object].
    rewrite (in_time_issued ao_time0). unfold IsZero. rewrite bool_decide_false; [done|].
    unfold Unix, zero_time, Second. lia. }
  rewrite (lift_true _ tt) by done. rewrite (lift_true _ tt) by done.
  rewrite guard_true by (cbn; by rewrite bool_decide_false).
  cbn [Objects.c_JTI Objects.c_ExpiresAt Objects.c_Issuer Objects.c_Parameters created_object].
  by rewrite (bool_decide_false (jti = "")).
Qed.
End theorems.

(** * An instance

    JSON values as trees, which stdpp numbers, and a number as letters: a
    writer whose text its reader undoes. A signature is the key and the text
    signed. *)
Definition json_leaf : Type := bool + string + (bool * Z * Z).

Fixpoint json_tree (j : json) : gen_tree json_leaf :=
  match j with
  | JNull => GenNode 0 []
  | JBool b => GenLeaf (inl (inl b))
  | JNum (Number n d e) => GenLeaf (inr (n, d, e))
  | JStr s => GenLeaf (inl (inr s))
  | JArr l => GenNode 1 (json_tree <$> l)
  | JObj l => GenNode 2 ((λ p, GenNode 0 [GenLeaf (inl (inr p.1)); json_tree p.2]) <$> l)
  end.

Fixpoint tree_json (t : gen_tree json_leaf) : json :=
  match t with
  | GenLeaf (inl (inl b)) => JBool b
  | GenLeaf (inl (inr s)) => JStr s
  | GenLeaf (inr (n, d, e)) => JNum (Number n d e)
  | GenNode 1 l => JArr (tree_json <$> l)
  | GenNode 2 l => JObj ((λ t, match t with
      | GenNode 0 [GenLeaf (inl (inr k)); t] => (k, tree_json t)
      | _ => ("", JNull) end) <$> l)
  | _ => JNull
  end.

Lemma tree_json_tree j : tree_json (json_tree j) = j.
Proof.
  induction j using json_nested_ind; simpl; try done.
  - by destruct n.
  - f_equal. induction H; simpl; [done|]. by f_equal.
  - f_equal. induction H as [|[k j] l Hj _ IH]; simpl; [done|].
    simpl in Hj. rewrite Hj. by f_equal.
Qed.

Fixpoint letters (p : positive) : string :=
  match p with
  | xH => "a" | xO xH => "b" | xI xH => "c"
  | xO (xO p) => String "d" (letters p)
  | xI (xO p) => String "e" (letters p)
  | xO (xI p) => String "f" (letters p)
  | xI (xI p) => String "g" (letters p)
  end.

Fixpoint unletters (s : string) : option positive :=
  match s with
  | "a" => Some xH | "b" => Some (xO xH) | "c" => Some (xI xH)
  | String "d" s => xO ∘ xO <$> unletters s
  | String "e" s => xI ∘ xO <$> unletters s
  | String "f" s => xO ∘ xI <$> unletters s
  | String "g" s => xI ∘ xI <$> unletters s
  | _ => None
  end.

Lemma unletters_letters p : unletters (letters p) = Some p.
Proof.
  assert (Hb : ∀ n p, Pos.to_nat p < n → unletters (letters p) = Some p);
    [|by apply (Hb (S (Pos.to_nat p))); lia].
  intros n. induction n as [|n IH]; [lia|]. intros q Hq.
  destruct q as [[q|q|]|[q|q|]|]; cbn; try done; rewrite IH by lia; done.
Qed.

Definition is_letter (c : ascii) : bool := in_range 97 103 c.

Lemma letters_all p : all_bytes is_letter (letters p) = true.
Proof.
  assert (Hb : ∀ n p, Pos.to_nat p < n → all_bytes is_letter (letters p) = true);
    [|by apply (Hb (S (Pos.to_nat p))); lia].
  intros n. induction n as [|n IH]; [lia|]. intros q Hq.
  destruct q as [[q|q|]|[q|q|]|]; cbn; try done; apply IH; lia.
Qed.

(** Letters are lossless text. *)
Lemma letters_lossless s : all_bytes is_letter s = true → DecodesLosslessly s = true.
Proof.
  intros Hs. unfold DecodesLosslessly. apply andb_true_iff. split.
  - apply ascii_ValidString. revert Hs. induction s as [|c s IH]; [done|]. cbn.
    intros [Hc Hs]%andb_true_iff. rewrite IH, andb_true_r by done.
    unfold is_letter, in_range in *. apply andb_true_iff in Hc as [? ?%N.leb_le].
    apply andb_true_iff. split; apply N.leb_le; lia.
  - induction s as [|c s IH]; [done|]. cbn in *. apply andb_true_iff in Hs as [Hc Hs].
    rewrite decide_False; [by apply IH|]. by intros ->.
Qed.

Definition letters_write (j : json) : string := letters (countable.encode (json_tree j)).
Definition letters_read (s : string) : RawMessage :=
  match unletters s with
  | Some p => match countable.decode p with Some t => Raw (tree_json t) | None => RawInvalid end
  | None => RawInvalid
  end.

Lemma letters_read_write j : letters_read (letters_write j) = Raw j.
Proof.
  unfold letters_read, letters_write. rewrite unletters_letters.
  by rewrite countable.decode_encode, tree_json_tree.
Qed.

(** Parses https://op.example.com/token, and writes any https URL. *)
Definition token_url : ParsedURL := {|
  url_Scheme := "https"; url_Opaque := ""; url_HasUser := false; url_Host := "op.example.com";
  url_Hostname := "op.example.com"; url_Port := ""; url_Path := "/token";
  url_EscapedPath := "/token"; url_RawQuery := ""; url_ForceQuery := false; url_Fragment := "";
  url_RawFragment := "" |}.

Definition signing_platform : Platform := {|
  url_parse s :=
    if bool_decide (s = "https://op.example.com/token") then Some token_url else None;
  url_string u := url_Scheme u +:+ "://" +:+ url_Host u +:+ url_EscapedPath u;
  ip_is_loopback _ := None;
  raw_length r := match r with RawNil => 0 | _ => 2 end;
  fold_key s := s;
  decodes_losslessly _ := true;
  json_text := letters_read;
  unicode_Cf _ := false; unicode_visible _ := true;
  raw_length_nil := ltac:(by intros []);
  raw_length_RawNil := eq_refl |}.

Definition signing_jose : JoseCrypto := {|
  PublicKey := string;
  verify_signature _ k input sig := bool_decide (sig = k +:+ "!" +:+ input);
  ParseJWK r _ := match r with Raw (JStr k) => Some k | _ => None end;
  jwk_Thumbprint k := Some k |}.

(** The state counts the random bytes read. *)
Definition example_signer : @JoseSigner nat signing_jose := {|
  json_Marshal := letters_write;
  json_MarshalUnescaped := letters_write;
  Signer := string;
  signer_Public k := k : @PublicKey signing_jose;
  key_Equal k k' := bool_decide ((k : string) = k');
  validateKeyForAlgorithm k _ := ValidString k;
  jwk_MarshalJSON k _ := Some (JStr k);
  sign_input k _ input := ret (k +:+ "!" +:+ input);
  random_ReadFull n := λ s, (Ok (string_of (replicate n 114%N)), n + s) |}.

#[local] Existing Instances signing_platform signing_jose example_signer.

#[export] Instance example_signing_laws : SigningLaws nat.
Proof.
  split.
  - intros j _. split; [apply letters_read_write|].
    split; [apply letters_lossless, letters_all|].
    cbn. unfold letters_write. by destruct (countable.encode _) as [[]|[]|].
  - intros j _. apply letters_read_write.
  - intros k alg input s sig s' [= <- <-]. cbn. rewrite bool_decide_true by done.
    split; [done|]. by destruct k.
  - intros k k' Hk. by apply bool_decide_eq_true in Hk.
  - intros k alg j Hk [= <-]. done.
  - intros n s buf s' [= <- <-]. by rewrite string_of_length, length_replicate.
  - intros k alg _. by eexists.
Qed.

(** ** The theorems on it *)

Definition signed_at : Time := Unix 1700000000.
Definition read_at : Time := Unix 1700000002.
Definition made_text (r : result create_error string * nat) : string :=
  match r.1 with Ok s => s | Err _ => "" end.

Definition example_proof_request : ProofRequest := {|
  pr_Signer := "key"; pr_Algorithm := ES256; pr_Method := "POST"; pr_URL := token_url;
  pr_AccessToken := ""; pr_Nonce := "n1"; pr_Now := signed_at |}.
Definition example_proof : string := made_text (CreateProof example_proof_request 0).
Definition example_proof_check : VerifyRequest unit := {|
  vr_Proof := example_proof; vr_Method := "POST"; vr_URL := Some token_url; vr_AlternateURLs := [];
  vr_AccessToken := ""; vr_RequiredNonce := "n1"; vr_Now := read_at;
  vr_MaxProofAge := 60 * Second; vr_MaxClockSkew := 0; vr_Replay := None |}.

Lemma created_proof_accepted_witness :
  ∃ jti thumbprint, jwk_Thumbprint (signer_Public "key") = Some thumbprint ∧
  ∀ r, @Dpop.Verify _ (jose_dpop URI) unit example_proof_check r =
    (Ok {| vp_Thumbprint := thumbprint; vp_IssuedAt := signed_at; vp_Nonce := "n1"; vp_JTI := jti |}, r).
Proof.
  refine (created_proof_accepted example_proof_request 0 example_proof 16 token_url token_url
    example_proof_check _ _).
  - vm_compute. reflexivity.
  - split; try (vm_compute; repeat split; reflexivity || discriminate).
    + by right.
    + apply (bool_decide_unpack _). vm_compute. exact I.
Defined.

Definition example_assertion_request : AssertionRequest := {|
  ar_Signer := "key"; ar_Algorithm := ES256; ar_KeyID := "k1"; ar_ClientID := "c1";
  ar_Audience := "https://op.example.com"; ar_Now := signed_at; ar_Lifetime := 60 * Second |}.
Definition example_assertion : string := made_text (CreateAssertion example_assertion_request 0).
Definition example_assertion_policy : ClientAssertion.VerifyPolicy unit := {|
  ClientAssertion.ExpectedClientID := "c1";
  ClientAssertion.ExpectedAudiences := ["https://op.example.com"];
  ClientAssertion.Algorithm := ES256; ClientAssertion.Policy_Now := read_at;
  ClientAssertion.MaxLifetime := 300 * Second; ClientAssertion.Policy_MaxClockSkew := 0;
  ClientAssertion.Replay := None |}.

Lemma created_assertion_accepted_witness :
  ∃ a jti, ClientAssertion.Parse example_assertion = Some a ∧ ClientAssertion.KeyID a = "k1" ∧
    ClientAssertion.ClaimedSubject a = "c1" ∧ jti ≠ "" ∧
  ∀ r, ClientAssertion.Verify example_assertion_policy a (signer_Public "key") r =
    (Ok {| ClientAssertion.va_ClientID := "c1"; ClientAssertion.va_ExpiresAt := Unix 1700000060;
           ClientAssertion.va_InstanceKey := "" |}, r).
Proof.
  refine (created_assertion_accepted example_assertion_request 0 example_assertion 16
    example_assertion_policy _ _).
  - vm_compute. reflexivity.
  - split; try (vm_compute; repeat split; reflexivity || discriminate).
    + by left.
    + apply (bool_decide_unpack _). vm_compute. exact I.
Defined.

Definition example_object_params : ObjectParams := {|
  oc_Signer := "key"; oc_Algorithm := ES256; oc_KeyID := "k1"; oc_ClientID := "c1";
  oc_Audience := "https://op.example.com"; oc_Now := signed_at; oc_Lifetime := 60 * Second;
  oc_Parameters := {["client_id" := Raw (JStr "c1"); "scope" := Raw (JStr "openid")]} |}.
Definition example_object : string := made_text (requestobject_Create example_object_params 0).
Definition example_object_policy : Objects.VerifyPolicy unit := {|
  Objects.ExpectedClientID := "c1"; Objects.ExpectedAudience := "https://op.example.com";
  Objects.Algorithm := ES256; Objects.Policy_Now := read_at; Objects.MaxLifetime := 300 * Second;
  Objects.Policy_MaxClockSkew := 0; Objects.RequireNotBefore := true;
  Objects.RequireIssuedAt := false; Objects.Replay := None; Objects.RequireJTI := true;
  Objects.AutomaticFederationRegistration := false |}.

Lemma created_object_accepted_witness :
  ∃ o jti, Objects.Parse example_object = Some o ∧ Objects.KeyID o = "k1" ∧ jti ≠ "" ∧
  ∀ r, Objects.Verify example_object_policy o (signer_Public "key") r =
    (Ok {| Objects.vo_ClientID := "c1"; Objects.vo_Parameters := oc_Parameters example_object_params;
           Objects.vo_ExpiresAt := Unix 1700000060 |}, r).
Proof.
  refine (created_object_accepted example_object_params 0 example_object 16
    example_object_policy _ _).
  - vm_compute. reflexivity.
  - split; try (vm_compute; repeat split; reflexivity || discriminate).
    + by exists 60%Z.
    + repeat apply map_Forall_insert_2; try apply map_Forall_empty; (split; [done|by eexists]).
    + apply (bool_decide_unpack _). vm_compute. exact I.
Defined.

Definition example_response_params : ResponseParams := {|
  jc_Signer := "op"; jc_Algorithm := ES256; jc_KeyID := "s1"; jc_Issuer := "https://op.example.com";
  jc_Audience := "c1"; jc_Now := signed_at; jc_Lifetime := 60 * Second;
  jc_Parameters := {["code" := Raw (JStr "abc"); "state" := Raw (JStr "xyz")]} |}.
Definition example_response : string := made_text (jarm_Create example_response_params 0).
Definition example_response_policy : Jarm.VerifyPolicy := {|
  Jarm.ExpectedIssuer := "https://op.example.com"; Jarm.ExpectedAudience := "c1";
  Jarm.Algorithm := ES256; Jarm.Policy_Now := read_at; Jarm.MaxLifetime := 300 * Second;
  Jarm.Policy_MaxClockSkew := 0 |}.

Lemma created_response_accepted_witness :
  ∃ r, Jarm.Parse example_response = Ok r ∧ Jarm.KeyID r = "s1" ∧
    Jarm.Verify r (signer_Public "op") example_response_policy = Ok {|
      Jarm.vr_Issuer := "https://op.example.com";
      Jarm.vr_Parameters := jc_Parameters example_response_params;
      Jarm.vr_ExpiresAt := Unix 1700000060 |}.
Proof.
  refine (created_response_accepted example_response_params 0 example_response 0
    example_response_policy _ _).
  - vm_compute. reflexivity.
  - split; try (vm_compute; repeat split; reflexivity || discriminate).
    + repeat apply map_Forall_insert_2; try apply map_Forall_empty; (split; [done|by eexists]).
    + apply (bool_decide_unpack _). vm_compute. exact I.
Defined.
