(* ===== verification/ClientTheorems.v ===== *)
(** The client's authorization flow (src/client), step by step: what a session
    record and a form hold reads back as it was; and for every operation, the
    requests it sends, what they carry, what it does to the sessions and what
    its result is. *)
From stdpp Require Import relations.
From S2P Require Import Prelude GoStrings Json GoTime Sha256 Base64 Pkce Digests Effects.
From S2P Require Import Storage MemStore Platform ServerTypes Rar JsonCodec Numeric.
From S2P Require Import Canonical.
From S2P Require Import Dpop Jose Extensions RequestObject Tokens.
From S2P Require Import Attestation ClientAuth ServerState TokenChecks Parameters.
From S2P Require Import Completion Signing.
From S2P Require Import Client SigningTheorems.
From stdpp Require Import options.
Import Forms Client.

Set Default Proof Using "Type*".

(** * Session records *)

(** A record as json.Marshal writes its strings. *)
Definition coerced (r : sessionRecord) : sessionRecord := {|
  sr_Version := sessionRecordVersion; sr_Nonce := coerce_utf8 (sr_Nonce r);
  sr_PKCEVerifier := coerce_utf8 (sr_PKCEVerifier r); sr_Issuer := coerce_utf8 (sr_Issuer r);
  sr_ClientID := coerce_utf8 (sr_ClientID r); sr_RedirectURI := coerce_utf8 (sr_RedirectURI r);
  sr_ResponseMode := coerce_utf8 (sr_ResponseMode r);
  sr_MaxAgeSeconds := sr_MaxAgeSeconds r; sr_OpenID := sr_OpenID r;
  sr_EssentialACR := coerce_utf8 <$> sr_EssentialACR r;
  sr_Resource := coerce_utf8 <$> sr_Resource r; sr_Scope := coerce_utf8 <$> sr_Scope r |}.

Lemma reads_coerced s : reads dec_str "" (string_field s) (coerce_utf8 s).
Proof. split; [by intros j [= <-]|done]. Qed.

Lemma reads_coerced_omit s : reads dec_str "" (string_field_omit s) (coerce_utf8 s).
Proof.
  unfold string_field_omit. split; [apply enc_str_omit_dec|apply enc_str_omit_none].
Qed.

Lemma reads_strings l : reads dec_strs [] (strings_field_omit l) (coerce_utf8 <$> l).
Proof.
  unfold strings_field_omit, enc_strs_omit. case_bool_decide as Hl.
  - by rewrite Hl.
  - split; [|done]. intros j Hj. apply enc_strs_omit_dec. unfold enc_strs_omit.
    by rewrite bool_decide_false.
Qed.

Lemma unmarshal_int64_written n : is_int64 n →
  unmarshal_int64 (Number (n <? 0) (Z.abs n) 0)%Z = Some n.
Proof.
  unfold is_int64, unmarshal_int64. cbn [num_neg num_digits num_exp]. intros Hn.
  replace (if (n <? 0)%Z then (- Z.abs n)%Z else Z.abs n) with n by (destruct (Z.ltb_spec n 0); lia).
  by rewrite (bool_decide_true (0 = 0)%Z), bool_decide_true.
Qed.

Lemma reads_int64 old n : is_int64 n → reads dec_int64 old (enc_int n) n.
Proof. split; [|done]. intros j [= <-]. by apply unmarshal_int64_written. Qed.

Lemma reads_int64_opt n : from_option is_int64 True n → reads dec_int64_opt None (enc_int_opt n) n.
Proof.
  intros Hn. destruct n as [n|]; [|done]. split; [|done]. intros j [= <-]. cbn.
  by rewrite unmarshal_int64_written.
Qed.

Lemma reads_true b : reads dec_bool false (enc_true_omit b) b.
Proof. destruct b; (split; [|done]); by intros j [= <-]. Qed.

#[local] Hint Resolve reads_coerced reads_coerced_omit reads_strings reads_int64 reads_int64_opt
  reads_true : reads.

Lemma decode_encoded `{Platform} r raw :
  encodeSessionRecord r = Some raw → from_option is_int64 True (sr_MaxAgeSeconds r) →
  decodeSessionRecord raw = if record_ok (coerced r) then Some (coerced r) else None.
Proof.
  unfold encodeSessionRecord. intros Henc Hage.
  destruct (encode_members _) as [l|] eqn:Hl; [|done]. injection Henc as <-.
  unfold decodeSessionRecord. cbn [struct_members mbind option_bind].
  assert (is_int64 sessionRecordVersion) by by (unfold is_int64; vm_compute).
  read_fields Hl. done.
Qed.

Lemma encode_members_total fields :
  Forall (λ f, is_Some f.2) fields → is_Some (encode_members fields).
Proof.
  induction 1 as [|[k v] fields [o Ho] _ [l IH]]; [by eexists|]. simpl in *. subst v. simpl.
  rewrite IH. simpl. by destruct o; eexists.
Qed.

Definition utf8_record (r : sessionRecord) : Prop :=
  Forall (λ s, ValidString s = true)
    ([sr_Nonce r; sr_PKCEVerifier r; sr_Issuer r; sr_ClientID r; sr_RedirectURI r; sr_ResponseMode r] ++
     sr_EssentialACR r ++ sr_Resource r ++ sr_Scope r).

Lemma coerced_list l : Forall (λ s, ValidString s = true) l → coerce_utf8 <$> l = l.
Proof. induction 1 as [|s l Hs _ IH]; [done|]. cbn. by rewrite coerce_utf8_valid, IH. Qed.

Lemma coerced_valid r : utf8_record r → coerced r = with_version r.
Proof.
  unfold utf8_record. intros Hu. repeat (apply Forall_cons in Hu as [? Hu]).
  apply Forall_app in Hu as [Hacr Hu]. apply Forall_app in Hu as [Hres Hscope].
  unfold coerced, with_version. rewrite !coerced_list by done. by rewrite !coerce_utf8_valid.
Qed.

Lemma encode_total r : is_Some (encodeSessionRecord r).
Proof.
  unfold encodeSessionRecord.
  destruct (encode_members_total (sessionRecord_fields (with_version r))) as [l ->]; [|by eexists].
  assert (Homit : ∀ s, is_Some (string_field_omit s)).
  { intros s. unfold string_field_omit, enc_str_omit. by case_bool_decide; eexists. }
  assert (Hage : is_Some (enc_int_opt (sr_MaxAgeSeconds r)))
    by (by destruct (sr_MaxAgeSeconds r); eexists).
  repeat (apply Forall_cons; split); try apply Forall_nil; cbn [snd with_version sr_MaxAgeSeconds];
    first [done|apply Homit|by eexists].
Qed.

(** A session record the client stores reads back exactly as it was stored, at
    any of its instances. *)
Theorem session_record_roundtrip `{Platform} r :
  utf8_record r → record_ok (with_version r) = true →
  ∃ raw, encodeSessionRecord r = Some raw ∧ decodeSessionRecord raw = Some (with_version r).
Proof.
  intros Hu Hok. destruct (encode_total r) as [raw Hraw]. exists raw. split; [done|].
  rewrite (decode_encoded _ _ Hraw), coerced_valid by done || (
    unfold record_ok in Hok; rewrite !andb_true_iff in Hok; destruct Hok as [[[_ _] Hage] _];
    change (sr_MaxAgeSeconds (with_version r)) with (sr_MaxAgeSeconds r) in Hage;
    destruct (sr_MaxAgeSeconds r); simpl in *; [|done];
    apply bool_decide_eq_true in Hage;
    unfold maxSessionMaxAgeSeconds, is_int64, MinInt64, MaxInt64 in *; lia).
  by rewrite Hok.
Qed.

(** * Forms *)

Lemma hex_byte_back c : let n := byte_code c in
  hex_digit (upper_hex (n / 16)) = Some (n / 16)%N ∧
  hex_digit (upper_hex (n mod 16)) = Some (n mod 16)%N ∧
  ascii_of_N (16 * (n / 16) + n mod 16) = c.
Proof. destruct c as [[] [] [] [] [] [] [] []]; vm_compute; done. Qed.

Lemma plain_byte c :
  (isLabelRune c || (byte_code c =? 95) || (byte_code c =? 46) || (byte_code c =? 126))%N = true →
  (byte_code c =? 37)%N = false ∧ (byte_code c =? 43)%N = false.
Proof. destruct c as [[] [] [] [] [] [] [] []]; by vm_compute. Qed.

Lemma byte_code_inj c d : byte_code c = byte_code d → c = d.
Proof. intros Heq. rewrite <-(ascii_N_embedding c), <-(ascii_N_embedding d). by f_equal. Qed.

Lemma QueryUnescape_Escape s : QueryUnescape (QueryEscape s) = Some s.
Proof.
  induction s as [|c s IH]; [done|]. cbn [QueryEscape].
  destruct (_ || _)%bool eqn:Hplain.
  { destruct (plain_byte _ Hplain) as [H1 H2]. cbn [QueryUnescape]. by rewrite H1, H2, IH. }
  destruct (N.eqb_spec (byte_code c) 32) as [Hc|_].
  { cbn. rewrite IH. simpl. do 2 f_equal. by apply byte_code_inj. }
  destruct (hex_byte_back c) as (Hh & Hl & Hc). cbn [QueryUnescape].
  change ((byte_code "%" =? 37)%N) with true. cbn iota. rewrite Hh, Hl, IH. simpl fmap. by rewrite Hc.
Qed.

(** An escaped text holds none of the bytes that separate a query's parts. *)
Definition separator (c : ascii) : bool := bool_decide (c ∈ ["&"; "="; ";"]%char).

Lemma escaped_bytes s : all_bytes (λ c, negb (separator c)) (QueryEscape s) = true.
Proof.
  induction s as [|c s IH]; [done|]. cbn [QueryEscape].
  assert (Hhex : ∀ n, (n < 16)%N → negb (separator (upper_hex n)) = true).
  { intros [|p] Hn; [done|]. do 4 (destruct p as [p|p|]; try done); lia. }
  destruct (_ || _)%bool eqn:Hplain.
  { cbn [all_bytes]. rewrite IH, andb_true_r. revert Hplain.
    destruct c as [[] [] [] [] [] [] [] []]; by vm_compute. }
  destruct (_ =? 32)%N; cbn [all_bytes]; rewrite IH, ?andb_true_r; [done|].
  rewrite !Hhex; [done| |].
  - by apply N.mod_lt.
  - apply N.Div0.div_lt_upper_bound. pose proof (N_ascii_bounded c). change (16 * 16)%N with 256%N. done.
Qed.

Lemma escaped_no_separator s c : separator c = true → contains_byte (QueryEscape s) c = false.
Proof.
  intros Hc. apply (all_bytes_no_byte _ _ _ (escaped_bytes s)). by rewrite Hc.
Qed.

Lemma Split_join c l :
  l ≠ [] → Forall (λ s, contains_byte s c = false) l → Split (join (String c "") l) c = l.
Proof.
  unfold Split. destruct l as [|s l]; [done|]. intros _ Hl. revert s Hl.
  induction l as [|t l IH]; intros s Hl; apply Forall_cons in Hl as [Hs Hl].
  { cbn [join]. by rewrite split_from_last. }
  change (join (String c "") (s :: t :: l)) with (s +:+ String c (join (String c "") (t :: l))).
  by rewrite split_from_app, IH by done.
Qed.

Lemma Cut_app c s t : contains_byte s c = false → Cut c (s +:+ String c t) = (s, t).
Proof.
  induction s as [|d s IH]; cbn [contains_byte].
  { intros _. simpl. by rewrite bool_decide_true. }
  case_decide; [done|]. intros Hs. change (String d s +:+ String c t) with (String d (s +:+ String c t)).
  cbn [Cut]. by rewrite bool_decide_false, IH.
Qed.

Definition piece (p : string * string) : string := QueryEscape p.1 +:+ "=" +:+ QueryEscape p.2.

Lemma piece_no_byte p c : separator c = true → c ≠ "="%char → contains_byte (piece p) c = false.
Proof.
  intros Hc Hne. unfold piece. rewrite contains_byte_app, escaped_no_separator by done.
  change ("=" +:+ QueryEscape p.2) with (String "=" (QueryEscape p.2)). cbn [contains_byte orb].
  rewrite decide_False by done. by apply escaped_no_separator.
Qed.

Lemma parse_piece p : parse_pair (piece p) = Some (Some p).
Proof.
  unfold parse_pair. rewrite piece_no_byte by done. rewrite bool_decide_false.
  2: { unfold piece. by destruct (QueryEscape p.1). }
  unfold piece at 1. change ("=" +:+ QueryEscape p.2) with (String "=" (QueryEscape p.2)).
  rewrite Cut_app by by apply escaped_no_separator. rewrite !QueryUnescape_Escape. by destruct p.
Qed.

(** Reading back what the encoder wrote. *)
Lemma ParseQuery_Encode values :
  length values ≤ maxQueryParams → ParseQuery (Encode values) = Some values.
Proof.
  intros Hlen. unfold ParseQuery. fold piece.
  change (Encode values) with (join (String "&" "") (piece <$> values)).
  destruct (decide (values = [])) as [->|Hne]; [done|].
  rewrite Split_join.
  - rewrite bool_decide_false by (rewrite length_fmap; lia).
    assert (Hm : mapM parse_pair (piece <$> values) = Some (Some <$> values)).
    { clear. induction values as [|p values IH]; [done|]. cbn. rewrite parse_piece. cbn.
      cbn in IH. by rewrite IH. }
    rewrite Hm. cbn. f_equal. clear. induction values as [|p values IH]; [done|]. cbn.
    cbn in IH. by rewrite IH.
  - by destruct values.
  - apply Forall_forall. intros s (p & -> & _)%list_elem_of_fmap. by apply piece_no_byte.
Qed.

Lemma encode_map_pairs (m : gmap string string) :
  let l := (λ k, (k, default "" (m !! k))) <$> sorted_elements (dom m) in
  NoDup l.*1 ∧ list_to_map l = m ∧ length l = size m.
Proof.
  intros l.
  assert (Hperm : sorted_elements (dom m) ≡ₚ elements (dom m)) by apply merge_sort_Permutation.
  assert (Hfst : l.*1 = sorted_elements (dom m)).
  { unfold l. rewrite <-list_fmap_compose. apply list_fmap_id. }
  assert (Hnd : NoDup l.*1) by (rewrite Hfst, Hperm; apply NoDup_elements).
  split; [done|]. split.
  - apply map_eq. intros k. destruct (m !! k) as [v|] eqn:Hk.
    + apply elem_of_list_to_map_1; [done|]. unfold l. apply list_elem_of_fmap. exists k.
      rewrite Hk. split; [done|]. rewrite Hperm. apply elem_of_elements, elem_of_dom. by eexists.
    + apply not_elem_of_list_to_map_1. rewrite Hfst, Hperm, elem_of_elements.
      by apply not_elem_of_dom.
  - unfold l. rewrite length_fmap, Hperm. by rewrite <-size_dom.
Qed.

(** A form the client encodes decodes to its parameters, unless it is larger
    than a decoder takes. *)
Theorem form_roundtrip params :
  size params ≤ maxQueryParams →
  DecodeForm (EncodeForm params) =
    if bool_decide (maxFormBytes < String.length (EncodeForm params)) then Err ErrFormTooLarge
    else Ok params.
Proof.
  intros Hsize. unfold DecodeForm. case_bool_decide; [done|].
  destruct (encode_map_pairs params) as (Hnd & Hmap & Hlen). unfold EncodeForm, encode_map.
  rewrite ParseQuery_Encode by (rewrite Hlen; lia). by rewrite bool_decide_true, Hmap.
Qed.

(** * What a step does

    [acts P lo hi Q m]: [m] leaves the sessions alone, and sends at most [hi]
    requests, each of which is as [P] says; when it succeeds it sent at least
    [lo], and its result is as [Q] says. *)
Section client.
Context `{Platform} `{JoseCrypto} {Env Sess Cache : Type} `{!JoseSigner Env}
  `{!SessionStore Sess} `{!DPoPNonceCache Cache} `{!ClientLib Env Sess Cache}.

Abbreviation world := (@World Env Sess Cache).

Definition sent (w w' : world) (l : list Request) : Prop := w_sent w' = w_sent w ++ l.

Definition acts {E A} (P : Request → Prop) (lo hi : nat) (Q : A → Prop) (m : eff world E A)
    : Prop :=
  ∀ w r w', m w = (r, w') →
    w_sessions w' = w_sessions w ∧
    ∃ l, sent w w' l ∧ length l ≤ hi ∧ Forall P l ∧ ∀ a, r = Ok a → Q a ∧ lo ≤ length l.

Definition anything {A} : A → Prop := λ _, True.

Lemma acts_pure {E A} P (Q : A → Prop) (m : eff world E A) :
  (∀ w r w', m w = (r, w') → w_sessions w' = w_sessions w ∧ w_sent w' = w_sent w ∧
     ∀ a, r = Ok a → Q a) → acts P 0 0 Q m.
Proof.
  intros Hm w r w' Hr. destruct (Hm _ _ _ Hr) as (Hs & Hl & HQ). split; [done|].
  exists []. split; [unfold sent; by rewrite Hl, app_nil_r|]. split; [done|]. split; [done|].
  intros a Ha. split; [by apply HQ|done].
Qed.

Lemma acts_ret {E A} P (Q : A → Prop) a : Q a → acts P 0 0 Q (@ret world E A a).
Proof. intros HQ. apply acts_pure. intros w r w' [= <- <-]. split; [done|]. split; [done|]. by intros b [= <-]. Qed.

Lemma acts_fail {E A} P (Q : A → Prop) lo e : acts P lo 0 Q (@fail world E A e).
Proof.
  intros w r w' [= <- <-]. split; [done|]. exists []. split; [unfold sent; by rewrite app_nil_r|].
  split; [done|]. by split.
Qed.

Lemma acts_lift {E A} P (x : result E A) : acts P 0 0 (λ a, x = Ok a) (@lift world E A x).
Proof. apply acts_pure. intros w r w' [= <- <-]. by auto. Qed.

Lemma acts_gets {E A} P (f : world → A) : acts P 0 0 anything (@gets world E A f).
Proof. apply acts_pure. intros w r w' [= <- <-]. by auto. Qed.

Lemma acts_env {E A} P (m : eff Env E A) : acts P 0 0 anything (on_env m).
Proof.
  apply acts_pure. intros w r w' Hr. apply zoom_run in Hr as (e & _ & ->). by auto.
Qed.

Lemma acts_bind {E A B} P lo1 hi1 lo2 hi2 (Q : A → Prop) (R : B → Prop) (m : eff world E A) k :
  acts P lo1 hi1 Q m → (∀ a, Q a → acts P lo2 hi2 R (k a)) →
  acts P (lo1 + lo2) (hi1 + hi2) R (ebind m k).
Proof.
  intros Hm Hk w r w' Hr. unfold ebind in Hr. destruct (m w) as [[a|e] w1] eqn:Hmw.
  - destruct (Hm _ _ _ Hmw) as (Hs1 & l1 & Hl1 & Hn1 & HP1 & Hok).
    destruct (Hok a eq_refl) as [HQ Hlo1].
    destruct (Hk a HQ _ _ _ Hr) as (Hs2 & l2 & Hl2 & Hn2 & HP2 & Hok2).
    split; [congruence|]. exists (l1 ++ l2).
    split; [unfold sent in *; by rewrite Hl2, Hl1, app_assoc|]. rewrite length_app.
    split; [lia|]. split; [by apply Forall_app|]. intros b Hb. destruct (Hok2 b Hb). split; [done|lia].
  - injection Hr as <- <-. destruct (Hm _ _ _ Hmw) as (Hs1 & l1 & Hl1 & Hn1 & HP1 & _).
    split; [done|]. exists l1. split; [done|]. split; [lia|]. by split.
Qed.

Lemma acts_map_err {E E' A} P lo hi (Q : A → Prop) (f : E → E') (m : eff world E A) :
  acts P lo hi Q m → acts P lo hi Q (map_err f m).
Proof.
  intros Hm w r w' Hr. unfold map_err in Hr. destruct (m w) as [[a|e] w1] eqn:Hmw.
  - injection Hr as <- <-. destruct (Hm _ _ _ Hmw) as (Hs & l & Hl & Hn & HP & Hok).
    split; [done|]. exists l. do 3 (split; [done|]). intros b [= <-]. by apply Hok.
  - injection Hr as <- <-. destruct (Hm _ _ _ Hmw) as (Hs & l & Hl & Hn & HP & _).
    split; [done|]. exists l. by do 3 (split; [done|]).
Qed.

Lemma acts_weaken {E A} (P P' : Request → Prop) lo lo' hi hi' (Q Q' : A → Prop) (m : eff world E A) :
  acts P' lo' hi' Q' m → (∀ r, P' r → P r) → lo ≤ lo' → hi' ≤ hi → (∀ a, Q' a → Q a) →
  acts P lo hi Q m.
Proof.
  intros Hm HP Hlo Hhi HQ w r w' Hr. destruct (Hm _ _ _ Hr) as (Hs & l & Hl & Hn & HPl & Hok).
  split; [done|]. exists l. split; [done|]. split; [lia|].
  split; [by eapply Forall_impl|]. intros a Ha. destruct (Hok a Ha). split; [auto|lia].
Qed.

(** A first step that sends nothing. *)
Lemma acts_then {E A B} P lo hi (Q : A → Prop) (R : B → Prop) (m : eff world E A) k :
  acts P 0 0 Q m → (∀ a, Q a → acts P lo hi R (k a)) → acts P lo hi R (ebind m k).
Proof. intros Hm Hk. exact (acts_bind P 0 0 lo hi Q R m k Hm Hk). Qed.

(** A failure sends no more than is allowed. *)
Lemma acts_fails {E A} P (Q : A → Prop) lo hi e : acts P lo hi Q (@fail world E A e).
Proof. eapply acts_weaken; [apply (acts_fail _ _ lo)|done|done|lia|done]. Qed.

Lemma acts_done {E A} P (Q : A → Prop) hi a : Q a → acts P 0 hi Q (@ret world E A a).
Proof. intros HQ. eapply acts_weaken; [by apply acts_ret|done|lia|lia|done]. Qed.

(** ** Steps that send nothing *)

Ltac acts_step :=
  first
    [ apply acts_env | apply acts_lift | apply acts_gets | apply acts_fails
    | by apply acts_ret | by apply acts_done
    | apply acts_map_err
    | eapply acts_then; [|intros ? ?]
    | match goal with
      | |- acts _ _ _ _ (match ?x with _ => _ end) => destruct x
      | |- acts _ _ _ _ (let '(_, _) := ?x in _) => destruct x
      end ].

Lemma acts_Now {E} P : acts P 0 0 anything (Now : eff world E Time).
Proof. apply acts_env. Qed.

Lemma acts_signing {A} P (m : eff Env create_error A) : acts P 0 0 anything (signing m).
Proof. unfold signing. apply acts_map_err, acts_env. Qed.

Lemma acts_internal {A} P lo hi (Q : A → Prop) (m : eff world unit A) :
  acts P lo hi Q m → acts P lo hi Q (internal m).
Proof. apply acts_map_err. Qed.

Lemma acts_checkTrustChain P : acts P 0 0 anything checkTrustChain.
Proof. unfold checkTrustChain. repeat first [apply acts_Now|acts_step]. Qed.

Lemma acts_newSigner P purpose alg : acts P 0 0 anything (newSigner purpose alg).
Proof. unfold newSigner. repeat acts_step. Qed.

Lemma acts_cached {E} P scope : acts P 0 0 anything (cachedDPoPNonce scope : eff world E string).
Proof.
  apply acts_pure. intros w r w' Hr. unfold cachedDPoPNonce in Hr.
  destruct (cache_Get scope (w_nonces w)). injection Hr as <- <-. by auto.
Qed.

Lemma acts_record {E} P reply :
  acts P 0 0 anything (recordASDPoPNonce reply : eff world E unit).
Proof.
  unfold recordASDPoPNonce, recordDPoPNonce, cacheDPoPNonce, setDPoPNonce.
  repeat first [acts_step|apply acts_pure; intros w r w' [= <- <-]; by auto].
Qed.

Lemma acts_challenge {E} P header :
  acts P 0 0 anything (recordAttestationChallenge header : eff world E unit).
Proof.
  unfold recordAttestationChallenge.
  repeat first [acts_step|apply acts_pure; intros w r w' [= <- <-]; by auto].
Qed.

(** A request to an address whose body is as told. *)
Definition posted (url : string) (B : string → Prop) (r : Request) : Prop :=
  req_URL r = url ∧ B (req_Body r).

Lemma acts_send (P : Request → Prop) req : P req → acts P 1 1 anything (send req).
Proof.
  intros HP w r w' Hr. unfold send in Hr. apply zoom_run in Hr as (e & _ & ->).
  split; [done|]. exists [req]. split; [done|]. split; [done|].
  split; [by apply Forall_singleton|]. by intros a _.
Qed.

Lemma acts_postForm url (B : string → Prop) body headers :
  B body → acts (posted url B) 1 1 anything (postForm url body headers).
Proof.
  intros HB. unfold postForm. destruct (url_parse url); [|apply acts_fails].
  eapply (acts_bind _ 1 1 0 0 anything); [by apply acts_send|]. intros res _.
  eapply acts_then; [acts_step|intros _ _]. eapply acts_then; [acts_step|intros _ _].
  eapply acts_then; [apply acts_challenge|intros _ _]. repeat acts_step.
Qed.

Lemma acts_attested url (B : string → Prop) form headers rebuild P :
  B form → acts P 0 0 (λ f, B f.1) rebuild → (∀ r, P r → posted url B r) →
  acts (posted url B) 1 2 anything
    (postFormWithAttestationChallenge url form headers rebuild).
Proof.
  intros HB Hre HP. unfold postFormWithAttestationChallenge.
  eapply (acts_bind _ 1 1 0 1 anything); [by apply acts_postForm|]. intros r _.
  destruct (negb _); [by apply acts_done|].
  eapply acts_then; [by eapply acts_weaken|]. intros [f h] Hf.
  eapply acts_weaken; [by apply acts_postForm|done|lia|done|done].
Qed.

Lemma acts_withDPoP signer url (B : string → Prop) form nonce headers :
  B form → acts (posted (url_string url) B) 1 1 anything (postWithDPoP signer url form nonce headers).
Proof.
  intros HB. unfold postWithDPoP. eapply acts_then; [apply acts_Now|intros now _].
  eapply acts_then; [apply acts_signing|intros proof _]. by apply acts_postForm.
Qed.

Lemma acts_retrying signer url (B : string → Prop) build form headers accepted :
  B form → acts (posted (url_string url) B) 0 0 (λ f, B f.1) build →
  acts (posted (url_string url) B) 1 2 anything
    (postRetrying signer url build form headers accepted).
Proof.
  intros HB Hre. unfold postRetrying. eapply acts_then; [apply acts_cached|intros nonce _].
  eapply (acts_bind _ 1 1 0 1 anything); [by apply acts_internal, acts_withDPoP|]. intros r _.
  eapply acts_then; [apply acts_record|intros _ _].
  destruct (accepted _); [by apply acts_done|]. destruct (challengeRetry _ _ _); [|apply acts_fails].
  eapply acts_then; [apply acts_internal, Hre|]. intros [f h] Hf.
  eapply (acts_weaken _ _ _ 1 _ 1 _ anything); [|done|lia|done|done].
  eapply (acts_bind _ 1 1 0 0 anything); [by apply acts_internal, acts_withDPoP|]. intros r' _.
  eapply acts_then; [apply acts_record|intros _ _]. repeat acts_step.
Qed.

(** ** What the requests carry *)

Definition carries (params : gmap string string) (body : string) : Prop :=
  ∃ form, body = encodeForm form ∧ params ⊆ form.

Definition no_authentication (params : gmap string string) : Prop :=
  Forall (λ k, params !! k = None) ["client_assertion"; "client_assertion_type"; "client_id"].

Lemma acts_attestationHeaders P : acts P 0 0 anything attestationHeaders.
Proof.
  unfold attestationHeaders, currentAttestationChallenge.
  repeat first [apply acts_Now|apply acts_signing|apply acts_newSigner|acts_step].
Qed.

Lemma acts_authentication P form assertion :
  no_authentication form →
  acts P 0 0 (λ f, form ⊆ f.1) (addClientAuthentication form assertion).
Proof.
  unfold no_authentication. intros Hn. repeat (apply Forall_cons in Hn as [? Hn]).
  assert (Hid : ∀ A (e : unit), acts (E:=unit) P 0 0 (λ f : gmap string string * Headers, form ⊆ f.1)
    (ret (<["client_id" := A]> form, ∅))) by (intros; apply acts_ret; by apply insert_subseteq).
  unfold addClientAuthentication. destruct (cc_ClientAuthMethod cfg); try apply (Hid _ tt).
  - destruct assertion as [[signer kid]|]; [|apply acts_fails].
    eapply acts_then; [apply acts_Now|intros now _]. eapply acts_then; [apply acts_signing|intros jwt _].
    apply acts_ret. simpl.
    etrans; [|apply insert_subseteq; by rewrite lookup_insert_ne]. by apply insert_subseteq.
  - eapply acts_then; [apply acts_attestationHeaders|intros h _]. by apply acts_ret.
Qed.

Lemma acts_tokenForm P params assertion :
  no_authentication params →
  acts P 0 0 (λ f, carries params f.1) (tokenFormBuilder params assertion).
Proof.
  intros Hn. unfold tokenFormBuilder.
  eapply acts_then; [by apply acts_authentication|]. intros [form h] Hf.
  apply acts_ret. by exists form.
Qed.

Lemma acts_signers P : acts P 0 0 anything resolveClientAuthAndDPoPSigners.
Proof. unfold resolveClientAuthAndDPoPSigners. repeat first [apply acts_newSigner|acts_step]. Qed.

Definition token_endpoint : string := url_string (ep_Token (cc_Endpoints cfg)).

Lemma acts_sendToken (B : string → Prop) dpop build form headers :
  B form → acts (posted token_endpoint B) 0 0 (λ f, B f.1) build →
  acts (posted token_endpoint B) 1 2 anything (sendTokenRequest dpop build form headers).
Proof.
  intros HB Hre. unfold sendTokenRequest. case_bool_decide.
  - eapply (acts_bind _ 1 2 0 0 anything); [by eapply acts_internal, acts_attested|].
    intros r _. repeat acts_step.
  - destruct dpop as [signer|]; [by apply acts_retrying|apply acts_fails].
Qed.

(** Signing in of the client, then a request with what [tail] makes of the
    answer. *)
Lemma acts_token_request params assertion dpop {A} (Q : A → Prop) (tail : string → eff world Error A) :
  no_authentication params →
  (∀ body, acts (posted token_endpoint (carries params)) 0 0 Q (tail body)) →
  acts (posted token_endpoint (carries params)) 1 2 Q
    (let build := tokenFormBuilder params assertion in
     let* '(form, headers) := internal build in
     let* body := sendTokenRequest dpop build form headers in
     tail body)%eff.
Proof.
  intros Hn Htail. cbv zeta.
  eapply acts_then; [by apply acts_internal, acts_tokenForm|]. intros [form h] Hf.
  eapply (acts_bind _ 1 2 0 0 anything); [apply acts_sendToken; [done|by apply acts_tokenForm]|].
  intros body _. apply Htail.
Qed.

(** ** ID tokens *)

(** The claims are of an ID token an issuer's key signed for this client, with
    the nonce when there is one, about the access token. *)
Definition id_token_of (accessToken nonce : string) (c : Tokens.ValidatedIDToken) : Prop :=
  ∃ parsed k now,
    Tokens.ValidateID parsed k (id_token_policy accessToken nonce now) = Ok c ∧
    Tokens.vi_Issuer c = Issuer ∧ cc_ClientID cfg ∈ Tokens.vi_Audience c ∧
    (nonce ≠ "" → Tokens.vi_Nonce c = nonce).

Lemma ValidateID_client parsed k accessToken nonce now c :
  Tokens.ValidateID parsed k (id_token_policy accessToken nonce now) = Ok c →
  id_token_of accessToken nonce c.
Proof.
  intros Hv. exists parsed, k, now. split; [done|]. unfold Tokens.ValidateID in Hv.
  do 4 (apply bind_Ok in Hv as ([] & _ & Hv)). destruct (Compact_Verify _ _ _); [|done].
  apply bind_Ok in Hv as ([] & Hiss%guard_err_Ok & Hv).
  apply bind_Ok in Hv as ([] & Haud & Hv). apply bind_Ok in Hv as ([] & _ & Hv).
  apply bind_Ok in Hv as ([] & Hnonce%guard_err_Ok & Hv). apply bind_Ok in Hv as ([] & _ & [= <-]).
  apply bool_decide_eq_true in Hiss. split; [done|]. split.
  - unfold Tokens.checkIDTokenAudience in Haud. apply bind_Ok in Haud as ([] & _ & Haud).
    apply bind_Ok in Haud as ([] & Hin%guard_err_Ok & _).
    unfold Tokens.containsString in Hin. by apply bool_decide_eq_true in Hin.
  - intros Hne. apply orb_true_iff in Hnonce as [Hn|Hn]; by apply bool_decide_eq_true in Hn.
Qed.

(** ** Token sets *)

Record tokens_for (nonce : string) (t : TokenSet) : Prop := {
  tf_access : ts_AccessToken t ≠ "";
  tf_type : ts_TokenType t = tokenTypeFor (cc_SenderConstrain cfg);
  tf_issuer : ts_Issuer t = Issuer;
  tf_id : ts_HasIDToken t = true →
    cc_OAuthOnly cfg = false ∧ id_token_of (ts_AccessToken t) nonce (ts_IDTokenClaims t) ∧
    ts_Subject t = Tokens.vi_Subject (ts_IDTokenClaims t) }.

Lemma acts_candidates {A} P (Q : A → Prop) verify l :
  (∀ k now a, verify k now = Ok a → Q a) →
  acts P 0 0 Q (verify_candidates (E:=Tokens.error) verify l).
Proof.
  intros HQ. induction l as [|k l IH]; cbn [verify_candidates]; [apply acts_fails|].
  eapply acts_then; [apply acts_Now|intros now _].
  destruct (verify k now) eqn:Hv; [|done]. apply acts_ret. by eapply HQ.
Qed.

Lemma acts_resolve P purpose alg kid :
  acts P 0 0 anything (resolveIssuerKeyCandidates purpose alg kid).
Proof. unfold resolveIssuerKeyCandidates, internal. repeat acts_step. Qed.

Lemma acts_signed_id P raw accessToken nonce :
  acts P 0 0 (id_token_of accessToken nonce) (validateSignedIDToken raw accessToken nonce).
Proof.
  unfold validateSignedIDToken. destruct (Tokens.ParseIDTokenMax _ _) as [parsed|]; [|apply acts_fails].
  eapply acts_then; [apply acts_resolve|intros l _]. apply acts_map_err, acts_candidates.
  intros k now c Hc. by eapply ValidateID_client.
Qed.

Lemma acts_validate_id P raw accessToken nonce :
  acts P 0 0 (id_token_of accessToken nonce) (validateIDToken raw accessToken nonce).
Proof.
  unfold validateIDToken. set (encrypted := negb (bool_decide _)).
  destruct (length (Split raw ".")) as [|[|[|[|[|[|n]]]]]]; try apply acts_fails; destruct encrypted;
    try apply acts_fails; try apply acts_signed_id.
  cbn [negb]. eapply acts_then; [|intros inner _; apply acts_signed_id].
  unfold decryptIDToken. eapply acts_then; [apply acts_map_err, acts_env|].
  intros [cty plaintext] _. destruct (isAcceptableNestedJWTContentType _);
    [by apply (acts_ret _ anything)|apply acts_fails].
Qed.

Lemma acts_populate P raw nonce :
  acts P 0 0 (λ o, ∀ c, o = Some c →
      cc_OAuthOnly cfg = false ∧ id_token_of (raw_AccessToken raw) nonce c)
    (populateIDToken raw nonce).
Proof.
  unfold populateIDToken. case_bool_decide; [by apply acts_ret|].
  destruct (cc_OAuthOnly cfg) eqn:Ho; [apply acts_fails|].
  eapply acts_then; [apply acts_validate_id|]. intros c Hc. apply acts_ret. by intros ? [= <-].
Qed.

Lemma decodeTokenResponse_access body raw :
  decodeTokenResponse body = Some raw → raw_AccessToken raw ≠ "".
Proof.
  unfold decodeTokenResponse. destruct (struct_members _); [|done]. cbn [mbind option_bind].
  repeat match goal with |- context [get ?n ?k ?d ?o ?m] =>
    destruct (get n k d o m); [|done]; cbn [mbind option_bind] end.
  case_bool_decide; [done|]. destruct (_ || _); [done|]. by intros [= <-].
Qed.

Lemma acts_tokens P body nonce :
  acts P 0 0 (tokens_for nonce) (tokenSetFromResponse body nonce).
Proof.
  unfold tokenSetFromResponse. destruct (decodeTokenResponse body) as [raw|] eqn:Hraw;
    [|apply acts_fails].
  eapply acts_then; [apply acts_lift|intros _ _]. eapply acts_then; [apply acts_Now|intros now _].
  eapply acts_then; [apply acts_populate|]. intros o Ho. apply acts_ret. split; simpl; [|done|done|].
  - by eapply decodeTokenResponse_access.
  - destruct o as [c|]; [|done]. intros _. destruct (Ho c eq_refl). by split; [|split].
Qed.

(** ** Exchanging a code *)

Record answers_request (resp : ValidatedAuthorizationResponse) (t : TokenSet) : Prop := {
  ans_tokens : tokens_for (ar_nonce resp) t;
  ans_id : ar_openID resp || ar_hasMaxAge resp = true → ts_HasIDToken t = true;
  ans_acr : ts_HasIDToken t = true →
    ar_essentialACR resp = [] ∨ Tokens.vi_ACR (ts_IDTokenClaims t) ∈ ar_essentialACR resp;
  ans_age : ar_hasMaxAge resp = true → ∃ now,
    IsZero (Tokens.vi_AuthTime (ts_IDTokenClaims t)) = false ∧
    (Sub now (Tokens.vi_AuthTime (ts_IDTokenClaims t)) ≤
      int64 (ar_maxAge resp + li_MaxClockSkew (cc_Limits cfg)))%Z;
  ans_resource : ts_Resource t = ar_resource resp }.

Lemma code_params_unauthenticated resp : no_authentication (code_params resp).
Proof.
  unfold code_params, setResources.
  destruct (ar_resource resp); repeat (apply Forall_cons; split); try apply Forall_nil; cbn beta;
    by rewrite ?lookup_insert_ne.
Qed.

Lemma age_checked authTime maxAge now skew :
  checkAuthenticationAge authTime maxAge now skew = Ok tt →
  IsZero authTime = false ∧ (Sub now authTime ≤ int64 (maxAge + skew))%Z.
Proof.
  unfold checkAuthenticationAge. intros H1.
  apply bind_Ok in H1 as ([] & Hz%guard_err_Ok%negb_true_iff & Hage%guard_err_Ok%negb_true_iff).
  split; [done|]. apply bool_decide_eq_false in Hage. lia.
Qed.

Lemma acts_ExchangeCode resp :
  acts (posted token_endpoint (carries (code_params resp))) 1 2
    (λ t, answers_request resp t ∧ ar_issuer resp = Issuer ∧ ar_clientID resp = cc_ClientID cfg)
    (ExchangeCode resp).
Proof.
  unfold ExchangeCode. eapply acts_then; [apply acts_checkTrustChain|intros _ _].
  eapply acts_then; [apply acts_lift|].
  intros [] [Hiss%bool_decide_eq_true Hcl%bool_decide_eq_true]%guard_err_Ok%andb_true_iff.
  eapply acts_then; [apply acts_internal, acts_signers|]. intros [assertion dpop] _.
  apply acts_token_request; [apply code_params_unauthenticated|]. intros body.
  eapply acts_then; [apply acts_tokens|]. intros t Ht.
  eapply acts_then; [apply acts_lift|]. intros [] Hid%guard_err_Ok.
  eapply acts_then; [apply acts_lift|]. intros [] Hacr.
  eapply (acts_then _ _ _ (λ _, ts_HasIDToken t && ar_hasMaxAge resp = true → ∃ now,
    checkAuthenticationAge (Tokens.vi_AuthTime (ts_IDTokenClaims t)) (ar_maxAge resp) now
      (li_MaxClockSkew (cc_Limits cfg)) = Ok tt)).
  { destruct (ts_HasIDToken t && ar_hasMaxAge resp); [|by apply acts_ret]. eapply acts_then; [apply acts_Now|intros now _].
    eapply acts_weaken; [apply acts_lift|done|done|done|]. intros [] Hage _. by exists now. }
  intros [] Hage. apply acts_ret. split; [|done]. split; simpl.
  - by destruct Ht.
  - destruct (ts_HasIDToken t); [done|]. simpl in Hid. by destruct (_ || _).
  - intros Hhas. rewrite Hhas in Hacr. apply guard_err_Ok in Hacr.
    apply orb_true_iff in Hacr as [?%bool_decide_eq_true|?%bool_decide_eq_true]; [by left|by right].
  - intros Hmax. rewrite Hmax, orb_true_r, andb_true_r in *. simpl in Hid.
    destruct (ts_HasIDToken t); [|done]. destruct (Hage eq_refl) as [now Hnow]. exists now.
    by apply age_checked.
  - done.
Qed.

(** ** Refreshing and revoking *)

Definition carries_refresh (req : RefreshTokenRequest) (body : string) : Prop :=
  ∃ params resources, refreshParameters req = Ok (params, resources) ∧ carries params body.

Lemma refreshParameters_Ok req params resources :
  refreshParameters req = Ok (params, resources) →
  no_authentication params ∧ params !! "grant_type" = Some "refresh_token" ∧
  params !! "refresh_token" = Some (ts_RefreshToken (rt_Tokens req)) ∧
  resources ⊆ ts_Resource (rt_Tokens req).
Proof.
  unfold refreshParameters. intros Hp. apply bind_Ok in Hp as (base & Hbase & Hp).
  apply bind_Ok in Hp as ([] & _ & Hp). apply bind_Ok in Hp as (r & Hr & [= <- <-]).
  assert (Hsub : r ⊆ ts_Resource (rt_Tokens req)).
  { destruct (rt_Resource req) as [|x l]; [by injection Hr as <-|].
    apply bind_Ok in Hr as ([] & Hc & [= <-]). unfold checkResourceSubset in Hc.
    apply bind_Ok in Hc as ([] & _ & Hall%guard_err_Ok). rewrite forallb_forall in Hall.
    intros y Hy. apply list_elem_of_In in Hy. by apply Hall, bool_decide_eq_true in Hy. }
  set (p0 := {["grant_type" := _; "refresh_token" := _]} : gmap string string) in Hbase.
  assert (Hkeys : ∀ k, k ≠ "scope" → base !! k = p0 !! k).
  { intros k Hk. destruct (rt_Scope req); [by injection Hbase as <-|].
    apply bind_Ok in Hbase as ([] & _ & [= <-]). by rewrite lookup_insert_ne. }
  assert (Hset : ∀ k, k ≠ "resource" → setResources base r !! k = base !! k).
  { intros k Hk. unfold setResources. destruct r; [done|]. by rewrite lookup_insert_ne. }
  split_and!; [|by rewrite Hset, Hkeys..|done].
  unfold no_authentication. rewrite !Forall_cons, Forall_nil.
  split_and!; try done; by rewrite Hset, Hkeys.
Qed.

Lemma sorted_Permutation l : sorted l ≡ₚ l.
Proof. apply merge_sort_Permutation. Qed.

Record refreshes (req : RefreshTokenRequest) (t : TokenSet) : Prop := {
  rf_issuer : tokenSetIssuer (rt_Tokens req) = Issuer ∧ ts_Issuer t = Issuer;
  rf_resource : ts_Resource t ⊆ ts_Resource (rt_Tokens req);
  rf_refresh : ts_HasRefreshToken t = true;
  rf_user : ts_HasIDToken (rt_Tokens req) = true →
    let was := ts_IDTokenClaims (rt_Tokens req) in
    let new := ts_IDTokenClaims t in
    ts_HasIDToken t = true ∧ Tokens.vi_Subject new = Tokens.vi_Subject was ∧
    Tokens.vi_AZP new = Tokens.vi_AZP was ∧ Tokens.vi_Issuer new = Issuer ∧
    (Tokens.vi_Audience was = [] ∨ Tokens.vi_Audience new ≡ₚ Tokens.vi_Audience was) }.

Lemma checkRefreshed_Ok original c :
  ts_HasIDToken original = true → checkRefreshedIDToken original c = Ok tt →
  let was := ts_IDTokenClaims original in
  Tokens.vi_Subject c = Tokens.vi_Subject was ∧ Tokens.vi_AZP c = Tokens.vi_AZP was ∧
  (Tokens.vi_Audience was = [] ∨ Tokens.vi_Audience c ≡ₚ Tokens.vi_Audience was).
Proof.
  unfold checkRefreshedIDToken. intros -> Hc%guard_err_Ok. simpl in Hc.
  rewrite !andb_true_iff in Hc. destruct Hc as [[[[Hs Ha] _] _] Hz].
  apply bool_decide_eq_true in Hs, Hz. split; [done|]. split; [done|].
  apply orb_true_iff in Ha as [Ha|Ha]; [left; by apply bool_decide_eq_true in Ha|right].
  unfold sameStringSet in Ha. apply andb_true_iff in Ha as [_ Ha%bool_decide_eq_true].
  by rewrite <-(sorted_Permutation (Tokens.vi_Audience c)), Ha, sorted_Permutation.
Qed.

Lemma acts_RefreshTokens req :
  acts (posted token_endpoint (carries_refresh req)) 1 2 (refreshes req) (RefreshTokens req).
Proof.
  unfold RefreshTokens. eapply acts_then; [apply acts_checkTrustChain|intros _ _].
  eapply acts_then; [apply acts_lift|intros _ _]. eapply acts_then; [apply acts_lift|].
  intros [] Hown. unfold checkTokenSetIssuer in Hown.
  apply bind_Ok in Hown as ([] & Hiss%guard_err_Ok%bool_decide_eq_true & Hid%guard_err_Ok).
  eapply acts_then; [apply acts_internal, acts_signers|]. intros [assertion dpop] _.
  eapply acts_then; [apply acts_lift|]. intros [params resources] Hp.
  destruct (refreshParameters_Ok _ _ _ Hp) as (Hno & _ & _ & Hsub).
  eapply (acts_weaken _ (posted token_endpoint (carries params)) 1 1 2 2); [|
    intros r [Hu Hb]; split; [done|]; by exists params, resources|done|done|by intros t Ht; exact Ht].
  apply acts_token_request; [done|]. intros body.
  eapply acts_then; [apply acts_tokens|]. intros t Ht.
  eapply acts_then; [apply acts_lift|]. intros [] Hsame. apply acts_ret. split; simpl.
  - split; [done|]. by destruct Ht.
  - done.
  - done.
  - intros Hhad. rewrite Hhad in *. destruct (ts_HasIDToken t) eqn:Hnew; simpl.
    + destruct (checkRefreshed_Ok _ _ Hhad Hsame) as (Hs & Hz & Ha).
      destruct (tf_id _ _ Ht Hnew) as (_ & (p & k & now & _ & Hi & _) & _). by split_and!.
    + split_and!; try done; [|by right]. apply negb_true_iff in Hid. simpl in Hid.
      apply negb_false_iff, bool_decide_eq_true in Hid. done.
Qed.

Definition revocation_endpoint : string := from_option url_string "" (ep_Revocation (cc_Endpoints cfg)).

Lemma acts_RevokeToken t :
  acts (posted revocation_endpoint (λ _, True)) 1 2 anything (RevokeToken t).
Proof.
  unfold RevokeToken, revocation_endpoint. eapply acts_then; [apply acts_checkTrustChain|intros _ _].
  destruct (ep_Revocation (cc_Endpoints cfg)) as [endpoint|]; [|apply acts_fails].
  eapply acts_then; [apply acts_lift|intros _ _]. eapply acts_then; [apply acts_lift|intros _ _].
  eapply acts_then; [apply acts_internal, acts_signers|]. intros [assertion dpop] _. cbv zeta.
  set (build := ebind (addClientAuthentication _ assertion) _).
  assert (Hbuild : ∀ P, acts P 0 0 anything build).
  { intros P. subst build. eapply acts_then; [|intros [form h] _; by apply (acts_ret _ anything)].
    apply acts_authentication.
    repeat (apply Forall_cons; split); try apply Forall_nil; done. }
  eapply acts_then; [apply acts_internal, Hbuild|]. intros [form h] _.
  eapply (acts_bind _ 1 2 0 0 anything).
  - eapply acts_internal, (acts_attested _ (λ _, True) _ _ _ (posted (url_string endpoint) (λ _, True)));
      [done|apply Hbuild|done].
  - intros r _. repeat acts_step.
Qed.

(** ** Beginning *)

(** The parameters sent as something else than their string. *)
Definition reencoded : list string :=
  [maxAgeParameter; claimsParameter; resourceParameter; authorizationDetailsParameter].

(** The body's form carries the parameters, or a request object the client
    signed that does. *)
Definition pushes (params : gmap string string) (body : string) : Prop :=
  ∃ form, body = encodeForm form ∧
    ((∀ k v, k ∉ reencoded → params !! k = Some v → form !! k = Some v) ∨
     ∃ object p env env',
       form !! "request" = Some object ∧ requestobject_Create p env = (Ok object, env') ∧
       oc_ClientID p = cc_ClientID cfg ∧ oc_Audience p = Issuer ∧
       ∀ k v, k ∉ reencoded → params !! k = Some v → oc_Parameters p !! k = Some (marshal_string v)).

Lemma pushes_mono params params' body : params ⊆ params' → pushes params' body → pushes params body.
Proof.
  intros Hsub (form & Hb & Hor). exists form. split; [done|].
  assert (Hl : ∀ k v, params !! k = Some v → params' !! k = Some v)
    by (intros; by eapply lookup_weaken).
  destruct Hor as [Hf|(o & p & e & e' & Hr & Hc & H1 & H2 & Hp)].
  - left. auto.
  - right. exists o, p, e, e'. split_and!; auto.
Qed.

Lemma populate_keeps form params snapshot details form' :
  populatePlainPushedRequestForm form params snapshot details = Ok form' →
  ∀ k v, k ∉ reencoded → params !! k = Some v → form' !! k = Some v.
Proof.
  unfold populatePlainPushedRequestForm. intros Hp k v Hk Hv.
  apply bind_Ok in Hp as ([] & Hall%guard_err_Ok & [= <-]).
  assert (Hf : (params ∪ form) !! k = Some v) by by apply lookup_union_Some_l.
  assert (Hnone : snapshot !! k = None).
  { destruct (snapshot !! k) as [raw|] eqn:Hs; [|done]. exfalso.
    rewrite forallb_forall in Hall. specialize (Hall (k, raw)
      (proj1 (list_elem_of_In _ _) (proj2 (elem_of_map_to_list _ _ _) Hs))).
    simpl in Hall. by rewrite Hf in Hall. }
  assert (Hu : (omap unmarshal_string snapshot ∪ (params ∪ form)) !! k = Some v).
  { rewrite lookup_union_r; [done|]. by rewrite lookup_omap, Hnone. }
  destruct details; [|done]. rewrite lookup_insert_ne; [done|]. intros <-. apply Hk.
  unfold reencoded. set_solver.
Qed.

Lemma object_parameters_keeps params snapshot details k v :
  forallb (λ p, negb (is_Some_bool (params !! p.1)) &&
                negb (bool_decide (p.1 ∈ reservedExtensionNames))) (map_to_list snapshot) = true →
  k ∉ reencoded → params !! k = Some v →
  object_parameters params snapshot details !! k = Some (marshal_string v).
Proof.
  intros Hall Hk Hv. unfold reencoded in Hk. rewrite !not_elem_of_cons in Hk.
  destruct Hk as (? & ? & ? & ? & _).
  assert (Hnone : snapshot !! k = None).
  { destruct (snapshot !! k) as [raw|] eqn:Hs; [|done]. exfalso.
    rewrite forallb_forall in Hall. specialize (Hall (k, raw)
      (proj1 (list_elem_of_In _ _) (proj2 (elem_of_map_to_list _ _ _) Hs))).
    simpl in Hall. by rewrite Hv in Hall. }
  unfold object_parameters.
  assert (Hins : ∀ (k' : string) (f : string → RawMessage) (m : gmap string RawMessage),
    k ≠ k' → match params !! k' with Some x => <[k' := f x]> m | None => m end !! k = m !! k).
  { intros k' f m Hne. destruct (params !! k'); [|done]. by rewrite lookup_insert_ne. }
  cbv zeta. rewrite !Hins by done. destruct details; rewrite ?lookup_insert_ne by done;
    (rewrite lookup_union_r by done; by rewrite lookup_fmap, Hv).
Qed.

Lemma acts_signForm P now form params snapshot details :
  acts P 0 0 (λ f, pushes params (encodeForm f)) (signPushedRequestForm now form params snapshot details).
Proof.
  unfold signPushedRequestForm. eapply acts_then; [apply acts_lift|].
  intros [] Hall%guard_err_Ok. eapply acts_then; [apply acts_internal, acts_newSigner|].
  intros [signer kid] _. set (p := {| oc_Signer := signer |}).
  eapply (acts_then _ _ _ (λ object, ∃ env env', requestobject_Create p env = (Ok object, env'))).
  { apply acts_internal. unfold signing. apply acts_map_err, acts_pure. intros w r w' Hr.
    apply zoom_run in Hr as (e & He & ->). split; [done|]. split; [done|].
    intros a ->. by exists (w_env w), e. }
  intros object (env & env' & Hc). apply acts_ret. exists (<["request" := object]> form).
  split; [done|]. right. exists object, p, env, env'. split; [apply lookup_insert_eq|].
  split_and!; try done. intros k v Hk Hv. by apply object_parameters_keeps.
Qed.

Lemma acts_buildPushed P now params snapshot details :
  acts P 0 0 (λ f, pushes params (encodeForm f.1)) (buildPushedRequestForm now params snapshot details).
Proof.
  unfold buildPushedRequestForm.
  eapply (acts_then _ _ _ anything).
  { case_bool_decide; [|by apply acts_ret].
    eapply acts_then; [apply acts_internal, acts_newSigner|intros s _]. by apply acts_ret. }
  intros assertion _. eapply acts_then.
  { apply acts_internal, acts_authentication. by repeat constructor. }
  intros [form h] _. eapply (acts_then _ _ _ anything).
  { destruct details; [by apply acts_ret|]. destruct (slice_message _); repeat acts_step. }
  intros details' _. eapply (acts_then _ _ _ (λ f, pushes params (encodeForm f))).
  { destruct signsRequestObject; [apply acts_signForm|]. eapply acts_weaken; [apply acts_lift|done|done|done|].
    intros f Hf. exists f. split; [done|]. left. exact (populate_keeps _ _ _ _ _ Hf). }
  intros f Hf. by apply acts_ret.
Qed.

Lemma acts_par_form P params snapshot details :
  acts P 0 0 (λ f, pushes params f.1) (build_par_form params snapshot details).
Proof.
  unfold build_par_form. eapply acts_then; [apply acts_Now|intros now _].
  eapply acts_then; [apply acts_buildPushed|]. intros [form h] Hf. by apply acts_ret.
Qed.

Definition par_endpoint : string := url_string (ep_PushedAuthorizationRequest (cc_Endpoints cfg)).

Lemma acts_without_proof params snapshot details :
  acts (posted par_endpoint (pushes params)) 1 2 anything
    (postPushedRequestWithoutProof params snapshot details).
Proof.
  unfold postPushedRequestWithoutProof. cbv zeta.
  eapply acts_then; [apply acts_par_form|]. intros [form h] Hf.
  eapply (acts_bind _ 1 2 0 0 anything).
  - eapply acts_internal, acts_attested; [done| |done]. unfold wrapped.
    apply acts_map_err, acts_par_form.
  - intros r _. repeat acts_step.
Qed.

Lemma acts_push params req :
  params !! "dpop_jkt" = None →
  acts (posted par_endpoint (pushes params)) 1 2 anything (push params req).
Proof.
  intros Hjkt. unfold push. case_bool_decide; [apply acts_without_proof|].
  case_bool_decide.
  - unfold pushAuthorizationRequestWithJKT. eapply (acts_then _ _ _ anything).
    { apply acts_internal. unfold dpopKeyThumbprint. repeat acts_step. }
    intros t _. eapply acts_weaken; [apply acts_without_proof|
      intros r [Hu Hb]; split; [done|]|done|done|done].
    eapply pushes_mono; [|done]. by apply insert_subseteq.
  - unfold pushAuthorizationRequestWithDPoPProof.
    eapply acts_then; [apply acts_internal, acts_newSigner|]. intros [signer kid] _. cbv zeta.
    eapply acts_then; [apply acts_internal, acts_map_err, acts_par_form|]. intros [form h] Hf.
    apply acts_retrying; [done|]. unfold wrapped. apply acts_map_err, acts_par_form.
Qed.

Lemma requested_lookup params req params' k :
  setRequestedParameters params req = Ok params' →
  k ∉ ["acr_values"; maxAgeParameter; claimsParameter; resourceParameter] → params' !! k = params !! k.
Proof.
  rewrite !not_elem_of_cons. intros Hp (? & ? & ? & ? & _). unfold setRequestedParameters in Hp.
  apply bind_Ok in Hp as (m & Hm & Hp).
  destruct (encode_claims _ _) as [claims|]; [|done]. injection Hp as <-.
  assert (Hset : ∀ m' r, setResources m' r !! k = m' !! k).
  { intros m' r. unfold setResources. destruct r; [done|]. by rewrite lookup_insert_ne. }
  rewrite Hset. transitivity (m !! k).
  { destruct claims; [by rewrite lookup_insert_ne|done]. }
  transitivity ((match ba_ACRValues req with [] => params | l => <["acr_values" := join " " l]> params end) !! k).
  - destruct (ba_HasMaxAge req); [|by injection Hm as <-].
    apply bind_Ok in Hm as (s & _ & [= <-]). by rewrite lookup_insert_ne.
  - destruct (ba_ACRValues req); [done|]. by rewrite lookup_insert_ne.
Qed.

Lemma acts_run {E A} P lo hi (Q : A → Prop) (m : eff world E A) w a w' :
  acts P lo hi Q m → m w = (Ok a, w') →
  w_sessions w' = w_sessions w ∧ Q a ∧
  ∃ l, sent w w' l ∧ lo ≤ length l ≤ hi ∧ Forall P l.
Proof.
  intros Hm Hr. destruct (Hm _ _ _ Hr) as (Hs & l & Hl & Hn & HP & Hok).
  destruct (Hok a eq_refl). split; [done|]. split; [done|]. by exists l.
Qed.

Lemma acts_quiet {E A} (Q : A → Prop) (m : eff world E A) w r w' :
  acts (λ _, False) 0 0 Q m → m w = (r, w') →
  w_sessions w' = w_sessions w ∧ w_sent w' = w_sent w ∧ ∀ a, r = Ok a → Q a.
Proof.
  intros Hm Hr. destruct (Hm _ _ _ Hr) as (Hs & l & Hl & Hn & _ & Hok).
  destruct l; [|simpl in Hn; lia]. unfold sent in Hl. rewrite app_nil_r in Hl.
  split; [done|]. split; [done|]. intros a Ha. by apply Hok.
Qed.

(** The sessions and requests after each step [m] of a run. *)
Ltac quiet H lem :=
  let Hs := fresh "Hsess" in let Hl := fresh "Hsent" in let HQ := fresh "HQ" in
  eapply acts_quiet in H as (Hs & Hl & HQ); [|apply lem]; specialize (HQ _ eq_refl).

Record begins (req : BeginAuthorizationRequest) (s : AuthorizationSession) (r : sessionRecord)
    (challenge : string) (params : gmap string string) (n : NewSession) (w w' : world) : Prop := {
  bg_redirect : checkBeginRequest req = Ok (sr_RedirectURI r);
  bg_record : r = newSessionRecord req (sr_RedirectURI r) (sr_Nonce r) (sr_PKCEVerifier r);
  bg_random : (∃ b, sr_Nonce r = EncodeToString rawURL b ∧ b ≠ "") ∧
    ∃ b, sr_PKCEVerifier r = EncodeToString rawURL b;
  bg_challenge : Challenge (sr_PKCEVerifier r) S256 = Ok challenge;
  bg_params : setRequestedParameters
    (begin_params req (sr_RedirectURI r) (as_handle s) (sr_Nonce r) challenge) req = Ok params;
  bg_stored : encodeSessionRecord r = Some (ns_Record n) ∧ ns_State n = as_handle s ∧
    ns_ExpiresAt n = as_expiresAt s ∧ Create n (w_sessions w) = (Ok tt, w_sessions w');
  bg_sent : ∃ l, sent w w' l ∧ 1 ≤ length l ≤ 2 ∧
    Forall (posted par_endpoint (pushes params)) l }.

Context `{!SigningLaws Env}.

Lemma acts_random P :
  acts P 0 0 (λ t, ∃ b, t = EncodeToString rawURL b ∧ b ≠ "") generateRandomToken.
Proof.
  apply acts_pure. intros w r w' Hr. unfold generateRandomToken, ebind, signing, map_err, on_env, zoom in Hr.
  destruct (random_ReadFull 32 (w_env w)) as [[b|e] x] eqn:Hb; injection Hr as <- <-;
    (split; [done|]; split; [done|]); [|done].
  intros a [= <-]. exists b. split; [done|]. apply random_ReadFull_length in Hb. by intros ->.
Qed.

Lemma acts_verifier P : acts P 0 0 (λ t, ∃ b, t = EncodeToString rawURL b) GenerateVerifier.
Proof.
  unfold GenerateVerifier. eapply acts_then; [apply acts_signing|intros b _].
  apply acts_ret. by exists b.
Qed.

Lemma begin_Ok req w s w' :
  BeginAuthorization req w = (Ok s, w') → ∃ r challenge params n, begins req s r challenge params n w w'.
Proof.
  unfold BeginAuthorization. intros Hr.
  apply ebind_Ok in Hr as ([] & w1 & H1 & Hr). quiet H1 acts_checkTrustChain.
  apply ebind_Ok in Hr as (redirect & w2 & [Hreq ->]%lift_Ok & Hr).
  apply ebind_Ok in Hr as (state & w3 & H3%map_err_Ok & Hr). quiet H3 acts_random.
  apply ebind_Ok in Hr as (nonce & w4 & H4%map_err_Ok & Hr). quiet H4 acts_random.
  apply ebind_Ok in Hr as (verifier & w5 & H5%map_err_Ok & Hr). quiet H5 acts_verifier.
  apply ebind_Ok in Hr as (challenge & w6 & [Hch ->]%map_err_Ok%lift_Ok & Hr).
  apply ebind_Ok in Hr as (now & w7 & H7 & Hr). quiet H7 (acts_Now (E:=Error)).
  apply ebind_Ok in Hr as (params & w8 & [Hp ->]%lift_Ok & Hr).
  apply ebind_Ok in Hr as (body & w9 & H9 & Hr).
  eapply acts_run in H9 as (Hs9 & _ & l & Hl & Hn & HP); [|apply acts_push].
  2: { rewrite (requested_lookup _ _ _ _ Hp) by by vm_compute; set_solver.
       unfold begin_params. destruct expectsJARMResponse; by vm_compute. }
  destruct (DecodeResult body) as [uri|]; [|done].
  apply ebind_Ok in Hr as ([] & w10 & H10 & [-> ->]%ret_Ok). unfold createSession in H10.
  destruct (encodeSessionRecord _) as [raw|] eqn:Henc; [|done].
  apply map_err_Ok in H10. apply zoom_run in H10 as (x & Hcreate & ->).
  exists (newSessionRecord req redirect nonce verifier), challenge, params,
    {| ns_State := state; ns_Record := raw; ns_ExpiresAt := Add now (li_SessionLifetime (cc_Limits cfg)) |}.
  split; try done.
  - split_and!; try done. simpl. rewrite <-Hcreate. f_equal. congruence.
  - exists l. split; [|done]. unfold sent in *. simpl. rewrite Hl. f_equal. congruence.
Qed.

(** ** Answering a callback *)

(** The state a callback's parameters name is of its user agent's session. *)
Definition callback_state (cb : AuthorizationCallback) (params : gmap string RawMessage)
    (state : string) : Prop :=
  state ≠ "" ∧ paramString params "state" = Some state ∧
  (cb_Session cb = state ∨
   cb_Session cb = "" ∧ cc_CallbackBinding cfg = CallbackBindingDeviceLocalStore).

Record handles (cb : AuthorizationCallback) (state : string) (record : sessionRecord)
    (expires : Time) (w w' : world) : Prop := {
  hd_params : ∃ params mode w0 w1, parseCallbackParams cb w0 = (Ok (params, mode), w1) ∧
    callback_state cb params state ∧ mode = sr_ResponseMode record ∧
    (mode = responseModePlain → checkAuthorizationResponseIss params = Ok tt);
  hd_consumed : ∃ consumed,
    Consume {| sc_State := state |} (w_sessions w) = (Ok consumed, w_sessions w') ∧
    decodeSessionRecord (cs_Record consumed) = Some record ∧ cs_ExpiresAt consumed = expires;
  hd_client : sr_Issuer record = Issuer ∧ sr_ClientID record = cc_ClientID cfg;
  hd_live : ∃ now, Before now expires = true;
  hd_sent : w_sent w' = w_sent w }.

Lemma acts_parse P cb : acts P 0 0 anything (parseCallbackParams cb).
Proof.
  unfold parseCallbackParams. destruct (DecodeForm _) as [form|]; [|apply acts_fails].
  destruct (negb _).
  { destruct (forallb _ _); [by apply acts_ret|apply acts_fails]. }
  cbv zeta. case_bool_decide; [apply acts_fails|].
  destruct (Jarm.Parse _); [|apply acts_fails].
  eapply (acts_then _ _ _ anything); [apply acts_internal, acts_env|]. intros [|k l] _; [apply acts_fails|].
  eapply (acts_then _ _ _ anything); [|intros v _; by apply acts_ret]. apply acts_map_err.
  generalize (k :: l). intros ks. induction ks as [|k' ks IH]; cbn [verify_candidates]; [apply acts_fails|].
  eapply acts_then; [apply acts_Now|intros now _]. destruct (Jarm.Verify _ _ _); [by apply acts_ret|done].
Qed.

Lemma consume_Ok cb params mode w record w' :
  consumeCallbackSession cb params mode w = (Ok record, w') →
  ∃ state consumed now, callback_state cb params state ∧
    Consume {| sc_State := state |} (w_sessions w) = (Ok consumed, w_sessions w') ∧
    decodeSessionRecord (cs_Record consumed) = Some record ∧ sr_Issuer record = Issuer ∧
    sr_ClientID record = cc_ClientID cfg ∧ Before now (cs_ExpiresAt consumed) = true ∧
    mode = sr_ResponseMode record ∧ w_sent w' = w_sent w.
Proof.
  unfold consumeCallbackSession. set (state := default "" _). intros Hr.
  apply ebind_Ok in Hr as ([] & w1 & [Hne%guard_err_Ok ->]%lift_Ok & Hr).
  set (session := if bool_decide (cb_Session cb = "") && _ then _ else _) in Hr.
  apply ebind_Ok in Hr as ([] & w1 & [Hnes%guard_err_Ok ->]%lift_Ok & Hr).
  apply ebind_Ok in Hr as ([] & w1 & [Heq%guard_err_Ok%bool_decide_eq_true ->]%lift_Ok & Hr).
  apply ebind_Ok in Hr as (consumed & w1 & H1%map_err_Ok & Hr).
  apply zoom_run in H1 as (x & Hc & ->).
  destruct (decodeSessionRecord _) as [rec|] eqn:Hrec; [|done].
  apply ebind_Ok in Hr as ([] & w2 & [Hiss%guard_err_Ok%bool_decide_eq_true ->]%lift_Ok & Hr).
  apply ebind_Ok in Hr as ([] & w2 & [Hcl%guard_err_Ok%bool_decide_eq_true ->]%lift_Ok & Hr).
  apply ebind_Ok in Hr as (now & w2 & H2 & Hr). quiet H2 (acts_Now (E:=Error)).
  apply ebind_Ok in Hr as ([] & w3 & [Hlive%guard_err_Ok ->]%lift_Ok & Hr).
  apply ebind_Ok in Hr as ([] & w3 & [Hmode%guard_err_Ok%bool_decide_eq_true ->]%lift_Ok & Hr).
  apply ret_Ok in Hr as [-> ->]. apply negb_true_iff, bool_decide_eq_false in Hne.
  exists state, consumed, now. unfold callback_state. split_and!; try done; try (by rewrite Hsess).
  - subst state. by destruct (paramString params "state").
  - destruct (bool_decide_reflect (cb_Session cb = "")) as [Hs|Hs]; [|by left].
    destruct (bool_decide_reflect (cc_CallbackBinding cfg = CallbackBindingDeviceLocalStore))
      as [Hd|Hd]; [by right|by left].
Qed.

Lemma handle_Ok cb w res w' :
  HandleAuthorizationResponse cb w = (Ok res, w') →
  ∃ state record expires, handles cb state record expires w w' ∧
    match res with
    | CallbackDenied _ _ => True
    | CallbackSuccess resp => ∃ code, resp = {|
        ar_issuer := Issuer; ar_clientID := cc_ClientID cfg; ar_code := code;
        ar_redirectURI := sr_RedirectURI record; ar_pkceVerifier := sr_PKCEVerifier record;
        ar_nonce := sr_Nonce record; ar_maxAge := (maxAge record).1;
        ar_hasMaxAge := (maxAge record).2; ar_openID := sr_OpenID record;
        ar_essentialACR := sr_EssentialACR record; ar_resource := sr_Resource record;
        ar_scope := sr_Scope record |}
    end.
Proof.
  unfold HandleAuthorizationResponse. intros Hr.
  apply ebind_Ok in Hr as ([] & w1 & H1 & Hr). quiet H1 acts_checkTrustChain.
  apply ebind_Ok in Hr as ([params mode] & w2 & Hparse & Hr). pose proof Hparse as H2.
  quiet H2 acts_parse.
  apply ebind_Ok in Hr as ([] & w3 & [Hiss ->]%lift_Ok & Hr).
  apply ebind_Ok in Hr as (record & w3 & H3 & Hr).
  destruct (consume_Ok _ _ _ _ _ _ H3) as (state & consumed & now & Hst & Hc & Hrec & Hi & Hcl & Hlive & Hm & Hsent3).
  exists state, record, (cs_ExpiresAt consumed).
  assert (Hh : handles cb state record (cs_ExpiresAt consumed) w w3).
  { split.
    - exists params, mode, w1, w2. split; [done|]. split; [done|]. split; [done|].
      intros ->. by rewrite bool_decide_true in Hiss.
    - exists consumed. split; [|done]. rewrite <-Hc. f_equal. congruence.
    - done.
    - by exists now.
    - congruence. }
  destruct (callbackDenied params) as [denied|] eqn:Hden.
  - apply lift_Ok in Hr as [-> ->]. split; [done|]. unfold callbackDenied in Hden.
    cbv zeta in Hden. repeat case_match; by simplify_eq.
  - cbv zeta in Hr. case_bool_decide; [done|]. destruct (maxAge record) as [age has].
    apply ret_Ok in Hr as [-> ->]. split; [done|]. by eexists.
Qed.
End client.
