(* ===== verification/Registration.v ===== *)
(** Client registration: src/storage/client_repository.go's
    NewRegisteredClient and client_subject.go, with querystring.Names
    (src/internal/querystring/querystring.go), and what a client it returns
    can rely on.

    A configuration's enumerations are the numbers the code holds, which
    NewRegisteredClient checks; a registered client's are the model's types.
    Which error it is refused with is only for the embedder's log. *)
From stdpp Require Import relations.
From S2P Require Import Prelude GoStrings Json Effects Storage Platform ServerTypes.
From S2P Require Import JsonCodec.
From S2P Require Import Base64 Extensions Attestation ClientAuth ServerState.
From S2P Require Import Canonical TokenChecks Subjects Completion Ciba Client.
From S2P Require Import ClientTheorems.
Import Forms.
From stdpp Require Import options.

(** * Query strings *)

(** [strings.FieldsFunc(raw, r == '&' || r == ';')]: [field] is the field
    that is being read, in reverse. *)
Fixpoint query_fields (raw field : string) : list string :=
  match raw with
  | EmptyString => if bool_decide (field = "") then [] else [field]
  | String c raw =>
    if (byte_code c =? 38)%N || (byte_code c =? 59)%N
    then (if bool_decide (field = "") then [] else [field]) ++ query_fields raw ""
    else query_fields raw (field +:+ String c "")
  end.

Definition query_name (pair : string) : string :=
  let name := (Forms.Cut "=" pair).1 in default name (Forms.QueryUnescape name).

Definition Names (raw : string) : list string := query_name <$> query_fields raw "".

Definition FirstReserved (raw : string) (reserved : list string) : option string :=
  list_find (λ name, name ∈ reserved) (Names raw) ≫= λ p, Some p.2.

(** * The configuration *)

Definition MaxClientNameBytes : nat := 200.

Record ClientDisplay := {
  cd_Name : string;
  cd_LogoURI : option ParsedURL;
  cd_PolicyURI : option ParsedURL;
  cd_TermsOfServiceURI : option ParsedURL }.

Record RegisteredClientConfig := {
  rc_ID : ClientID;
  rc_RedirectURIs : list string;
  rc_ApplicationType : N;
  rc_ClientAuthMethod : N;
  rc_ClientAuthMethods : list N;
  rc_ClientAssertionAlgorithm : SignatureAlgorithm;
  rc_ClientAssertionAlgorithms : list SignatureAlgorithm;
  rc_ExpectedCertificateThumbprint : string;
  rc_AdditionalCertificateThumbprints : list string;
  rc_CertificateKeyThumbprints : list string;
  rc_ExpectedSubjectDN : string;
  rc_ExpectedSANDNS : string;
  rc_ExpectedSANURI : string;
  rc_ExpectedSANEmail : string;
  rc_ExpectedAttesterIssuer : string;
  rc_ClientAttestationAlgorithm : SignatureAlgorithm;
  rc_ExpectedSANIP : string;
  rc_RequestObjectAlgorithm : SignatureAlgorithm;
  rc_SenderConstrain : N;
  rc_IDTokenEncryptionKeyManagement : N;
  rc_IDTokenEncryptionContentEncryption : N;
  rc_UserInfoEncryptionKeyManagement : N;
  rc_UserInfoEncryptionContentEncryption : N;
  rc_BackchannelAuthenticationRequestAlgorithm : SignatureAlgorithm;
  rc_BackchannelTokenDeliveryMode : N;
  rc_BackchannelClientNotificationEndpoint : option ParsedURL;
  rc_AllowedScopes : list string;
  rc_AuthorizationDetailsTypes : list string;
  rc_AllowedResources : list string;
  rc_AllowsClientCredentialsGrant : bool;
  rc_AutomaticFederationRegistration : bool;
  rc_Display : ClientDisplay;
  rc_SubjectType : N;
  rc_Sector : string }.

(** The constants of enumerations, in the order of their iota. *)
Definition application_types : list ApplicationType := [ApplicationTypeWeb; ApplicationTypeNative].
Definition auth_methods : list ClientAuthMethod := [
  ClientAuthMethodPrivateKeyJWT; ClientAuthMethodSelfSignedTLSClientAuth;
  ClientAuthMethodTLSClientAuth; ClientAuthMethodTLSClientAuthSANDNS;
  ClientAuthMethodTLSClientAuthSANURI; ClientAuthMethodTLSClientAuthSANIP;
  ClientAuthMethodTLSClientAuthSANEmail; ClientAuthMethodAttestation].
Definition sender_constraints : list SenderConstrain := [SenderConstrainDPoP; SenderConstrainMTLS].
Definition delivery_modes : list BackchannelTokenDeliveryMode :=
  [BackchannelTokenDeliveryModePoll; BackchannelTokenDeliveryModePing].
Definition subject_types : list SubjectType :=
  [SubjectTypeUnset; SubjectTypePublic; SubjectTypePairwise].

(** KeyManagementAlgorithm.IsValid and ContentEncryptionAlgorithm.IsValid. *)
Definition KeyManagementAlgorithm_IsValid (a : N) : bool := bool_decide (a ∈ [1; 2]%N).
Definition ContentEncryptionAlgorithm_IsValid (a : N) : bool := bool_decide (a ∈ [1; 2]%N).

(** The Unicode property Bidi_Control. *)
Definition Bidi_Control (r : N) : bool :=
  ((r =? 0x61C) || (0x200E <=? r) && (r <=? 0x200F) || (0x202A <=? r) && (r <=? 0x202E) ||
   (0x2066 <=? r) && (r <=? 0x2069))%N.

(** A configuration checked, or refused. *)
Abbreviation checked A := (result unit A).
Definition require (b : bool) : checked unit := guard_err b tt.
Definition constant {A} (constants : list A) (n : N) : checked A :=
  match constants !! N.to_nat n with Some c => Ok c | None => Err tt end.

Definition ValidateClientName (name : string) : checked unit :=
  require (bool_decide (String.length name ≤ MaxClientNameBytes)) ;;
  require (ValidString name) ;;
  require (forallb (λ r, negb (IsControl r || Bidi_Control r)) (runes name)) ;;
  Ok tt.

(** The elements without what occurred before, in their order. *)
Definition distinct `{EqDecision A} (l : list A) : list A :=
  foldl (λ seen a, if bool_decide (a ∈ seen) then seen else seen ++ [a]) [] l.

(** ** Authentication methods *)

Definition PrivateKeyJWT : N := 0.
Definition AttestationMethod : N := 7.

Definition NeedsJWKS (cfg : RegisteredClientConfig) : bool :=
  (bool_decide (rc_ClientAuthMethod cfg = PrivateKeyJWT) &&
   bool_decide (rc_ClientAuthMethods cfg = []) ||
   bool_decide (PrivateKeyJWT ∈ rc_ClientAuthMethods cfg)) ||
  negb (bool_decide (rc_RequestObjectAlgorithm cfg = 0%N)) ||
  negb (bool_decide (rc_BackchannelAuthenticationRequestAlgorithm cfg = 0%N)).

Definition config_methods (cfg : RegisteredClientConfig) : checked (list N) :=
  if bool_decide (rc_ClientAuthMethods cfg = []) then Ok [rc_ClientAuthMethod cfg]
  else if negb (bool_decide (rc_ClientAuthMethod cfg = PrivateKeyJWT)) &&
          negb (bool_decide (rc_ClientAuthMethod cfg ∈ rc_ClientAuthMethods cfg))
  then Err tt
  else Ok (distinct (rc_ClientAuthMethods cfg)).

Definition config_algorithms (cfg : RegisteredClientConfig) : checked (list SignatureAlgorithm) :=
  if bool_decide (rc_ClientAssertionAlgorithms cfg = [])
  then Ok (if bool_decide (rc_ClientAssertionAlgorithm cfg = 0%N) then []
             else [rc_ClientAssertionAlgorithm cfg])
  else if negb (bool_decide (rc_ClientAssertionAlgorithm cfg = 0%N)) &&
          negb (bool_decide (rc_ClientAssertionAlgorithm cfg ∈ rc_ClientAssertionAlgorithms cfg))
  then Err tt
  else Ok (distinct (rc_ClientAssertionAlgorithms cfg)).

Definition validatePrivateKeyJWTAlgorithms (algs : list SignatureAlgorithm) : bool :=
  negb (bool_decide (algs = [])) && forallb SignatureAlgorithm_IsValid algs.

Definition requireField (value : string) : bool := negb (bool_decide (value = "")).

Section registration.
Context `{Platform}.

Definition validateSANIPField (cfg : RegisteredClientConfig) : bool :=
  requireField (rc_ExpectedSANIP cfg) &&
  negb (bool_decide (ip_is_loopback (rc_ExpectedSANIP cfg) = None)).

Definition validateAttestationFields (cfg : RegisteredClientConfig) : bool :=
  requireField (rc_ExpectedAttesterIssuer cfg) &&
  SignatureAlgorithm_IsValid (rc_ClientAttestationAlgorithm cfg).

(** What is registered for a method is there. *)
Definition method_fields (cfg : RegisteredClientConfig) (algs : list SignatureAlgorithm)
    (method : ClientAuthMethod) : bool :=
  match method with
  | ClientAuthMethodPrivateKeyJWT => validatePrivateKeyJWTAlgorithms algs
  | ClientAuthMethodSelfSignedTLSClientAuth => requireField (rc_ExpectedCertificateThumbprint cfg)
  | ClientAuthMethodTLSClientAuth => requireField (rc_ExpectedSubjectDN cfg)
  | ClientAuthMethodTLSClientAuthSANDNS => requireField (rc_ExpectedSANDNS cfg)
  | ClientAuthMethodTLSClientAuthSANURI => requireField (rc_ExpectedSANURI cfg)
  | ClientAuthMethodTLSClientAuthSANIP => validateSANIPField cfg
  | ClientAuthMethodTLSClientAuthSANEmail => requireField (rc_ExpectedSANEmail cfg)
  | ClientAuthMethodAttestation => validateAttestationFields cfg
  end.

Definition validateClientAuthMethodFields (cfg : RegisteredClientConfig)
    (algs : list SignatureAlgorithm) (method : N) : checked ClientAuthMethod :=
  m ← constant auth_methods method;
  require (method_fields cfg algs m) ;;
  Ok m.

Fixpoint check_methods (cfg : RegisteredClientConfig) (algs : list SignatureAlgorithm)
    (methods : list N) : checked (list ClientAuthMethod) :=
  match methods with
  | [] => Ok []
  | method :: methods =>
    m ← validateClientAuthMethodFields cfg algs method;
    methods ← check_methods cfg algs methods;
    Ok (m :: methods)
  end.

(** ** Delivery and encryption *)

Definition validateBackchannelTokenDeliveryMode (cfg : RegisteredClientConfig)
    : checked BackchannelTokenDeliveryMode :=
  mode ← constant delivery_modes (rc_BackchannelTokenDeliveryMode cfg);
  match mode with
  | BackchannelTokenDeliveryModePoll =>
    require (bool_decide (rc_BackchannelClientNotificationEndpoint cfg = None)) ;; Ok mode
  | BackchannelTokenDeliveryModePing =>
    require (bool_decide (rc_BackchannelAuthenticationRequestAlgorithm cfg ≠ 0%N)) ;;
    require (bool_decide (rc_BackchannelClientNotificationEndpoint cfg ≠ None)) ;;
    Ok mode
  end.

(** validateIDTokenEncryptionFields and validateUserInfoEncryptionFields. *)
Definition encryption_fields (keyManagement contentEncryption : N) : bool :=
  let keyMgmtSet := negb (bool_decide (keyManagement = 0%N)) in
  let contentEncSet := negb (bool_decide (contentEncryption = 0%N)) in
  if negb (bool_decide (keyMgmtSet = contentEncSet)) then false
  else if negb keyMgmtSet then true
  else KeyManagementAlgorithm_IsValid keyManagement &&
       ContentEncryptionAlgorithm_IsValid contentEncryption.
Definition validateIDTokenEncryptionFields (cfg : RegisteredClientConfig) : bool :=
  encryption_fields (rc_IDTokenEncryptionKeyManagement cfg)
    (rc_IDTokenEncryptionContentEncryption cfg).
Definition validateUserInfoEncryptionFields (cfg : RegisteredClientConfig) : bool :=
  encryption_fields (rc_UserInfoEncryptionKeyManagement cfg)
    (rc_UserInfoEncryptionContentEncryption cfg).

(** ** Redirect URIs *)

Definition authorizationResponseParameters : list string :=
  ["code"; "state"; "iss"; "error"; "error_description"; "error_uri"; "response"].

Definition checkRedirectURIFragments (cfg : RegisteredClientConfig) : bool :=
  forallb (λ uri, negb (hasFragment uri)) (rc_RedirectURIs cfg).

Definition checkRedirectURIQueries (cfg : RegisteredClientConfig) : bool :=
  forallb (λ uri, match url_parse uri with
                  | None => true
                  | Some u => bool_decide
                      (FirstReserved (url_RawQuery u) authorizationResponseParameters = None)
                  end) (rc_RedirectURIs cfg).

Definition isLoopbackLiteral (host : string) : bool :=
  bool_decide (host = "127.0.0.1") || bool_decide (host = "::1").

Definition ends_colon (host : string) : bool :=
  bool_decide (drop_bytes (String.length host - 1) host = ":").

Definition validRegisteredPort (host port : string) : bool :=
  if bool_decide (port = "") then negb (ends_colon host) else valid_port port.

Definition native_redirect_ok (uri : string) : bool :=
  match ParseRedirectURL uri native_options with
  | None => false
  | Some u =>
    if bool_decide (url_Scheme u = "http")
    then isLoopbackLiteral (url_Hostname u) && validRegisteredPort (url_Host u) (url_Port u)
    else true
  end.

Definition checkApplicationType (cfg : RegisteredClientConfig) : checked ApplicationType :=
  t ← constant application_types (rc_ApplicationType cfg);
  match t with
  | ApplicationTypeWeb => Ok t
  | ApplicationTypeNative =>
    require (forallb native_redirect_ok (rc_RedirectURIs cfg)) ;; Ok t
  end.

(** ** Sectors *)

Definition maxSectorLength : nat := 255.

Definition isHostByte (c : ascii) : bool :=
  let n := byte_code c in
  (((97 <=? n) && (n <=? 122)) || ((65 <=? n) && (n <=? 90)) || ((48 <=? n) && (n <=? 57)) ||
   (n =? 45) || (n =? 46) || (n =? 95))%N.

Fixpoint all_host (s : string) : bool :=
  match s with EmptyString => true | String c s => isHostByte c && all_host s end.

Definition checkSector (sector : string) : bool :=
  bool_decide (String.length sector ≤ maxSectorLength) && all_host sector &&
  negb (bool_decide ("" ∈ Split sector ".")).

Definition mayUseAttestation (cfg : RegisteredClientConfig) : bool :=
  if negb (bool_decide (rc_ClientAuthMethods cfg = []))
  then bool_decide (AttestationMethod ∈ rc_ClientAuthMethods cfg)
  else bool_decide (rc_ClientAuthMethod cfg = AttestationMethod).

(** The loop of derivedSector: one https host for all. *)
Fixpoint common_host (uris : list string) (host : string) : string :=
  match uris with
  | [] => host
  | uri :: uris =>
    match url_parse uri with
    | None => ""
    | Some u =>
      let h := LowerASCII (url_Hostname u) in
      if negb (bool_decide (url_Scheme u = "https")) || bool_decide (url_Hostname u = "") then ""
      else if negb (IsASCII h) then ""
      else if negb (bool_decide (host = "")) && negb (bool_decide (h = host)) then ""
      else common_host uris h
    end
  end.

Definition derivedSector (cfg : RegisteredClientConfig) : string :=
  if negb (bool_decide (rc_ApplicationType cfg = 0%N)) || bool_decide (rc_RedirectURIs cfg = []) ||
     negb (bool_decide (rc_BackchannelAuthenticationRequestAlgorithm cfg = 0%N)) ||
     mayUseAttestation cfg
  then ""
  else common_host (rc_RedirectURIs cfg) "".

Definition clientSector (cfg : RegisteredClientConfig) : checked (SubjectType * string) :=
  t ← constant subject_types (rc_SubjectType cfg);
  sector ← (if bool_decide (rc_Sector cfg = "") then Ok (derivedSector cfg)
            else require (checkSector (rc_Sector cfg)) ;; Ok (LowerASCII (rc_Sector cfg)));
  require (bool_decide (¬ (t = SubjectTypePairwise ∧ sector = ""))) ;;
  Ok (t, sector).

Definition checkApplicationTypeAndSector (cfg : RegisteredClientConfig)
    : checked (ApplicationType * (SubjectType * string)) :=
  require (checkRedirectURIFragments cfg) ;;
  require (checkRedirectURIQueries cfg) ;;
  t ← checkApplicationType cfg;
  s ← clientSector cfg;
  Ok (t, s).

(** ** What the client may have *)

Definition stringSet (values : list string) : checked (gset string) :=
  require (bool_decide ("" ∉ values)) ;; Ok (list_to_set values).

Definition joinedLength (s : gset string) : nat :=
  set_fold (λ v n, n + (String.length v + 1)) 0 s - 1.

Definition resourceSet (values : list string) : checked (gset string) :=
  require (forallb Check_resource values) ;; Ok (list_to_set values).

Definition allowedSets (cfg : RegisteredClientConfig)
    : checked (gset string * gset string * gset string) :=
  scopes ← stringSet (rc_AllowedScopes cfg);
  rarTypes ← stringSet (rc_AuthorizationDetailsTypes cfg);
  resources ← resourceSet (rc_AllowedResources cfg);
  Ok (scopes, rarTypes, resources).

(** ** NewRegisteredClient *)

(** The client made of a configuration and what was checked of it. The
    fields display, clientAssertionAlgorithm and clientAuthMethod, which no
    modelled code reads, are left out of RegisteredClient. *)
Definition registered (cfg : RegisteredClientConfig) (methods : list ClientAuthMethod)
    (algs : list SignatureAlgorithm) (constrain : SenderConstrain)
    (mode : BackchannelTokenDeliveryMode) (scopes rarTypes resources : gset string)
    (app : ApplicationType) (typ : SubjectType) (clientSector : string) : RegisteredClient := {|
  client_id := rc_ID cfg; redirectURIs := rc_RedirectURIs cfg; applicationType := app;
  clientAssertionAlgorithms := algs; requestObjectAlgorithm := rc_RequestObjectAlgorithm cfg;
  senderConstrain := constrain; clientAuthMethods := methods;
  expectedCertificateThumbprint := rc_ExpectedCertificateThumbprint cfg;
  additionalCertificateThumbprints := rc_AdditionalCertificateThumbprints cfg;
  certificateKeyThumbprints := rc_CertificateKeyThumbprints cfg;
  expectedSubjectDN := rc_ExpectedSubjectDN cfg; expectedSANDNS := rc_ExpectedSANDNS cfg;
  expectedSANURI := rc_ExpectedSANURI cfg; expectedSANIP := rc_ExpectedSANIP cfg;
  expectedSANEmail := rc_ExpectedSANEmail cfg;
  expectedAttesterIssuer := rc_ExpectedAttesterIssuer cfg;
  clientAttestationAlgorithm := rc_ClientAttestationAlgorithm cfg;
  allowedScopes := scopes; allowedScopesLength := joinedLength scopes;
  authorizationDetailsTypes := rarTypes; allowedResources := resources;
  idTokenEncryptionKeyManagement := rc_IDTokenEncryptionKeyManagement cfg;
  idTokenEncryptionContentEncryption := rc_IDTokenEncryptionContentEncryption cfg;
  userInfoEncryptionKeyManagement := rc_UserInfoEncryptionKeyManagement cfg;
  userInfoEncryptionContentEncryption := rc_UserInfoEncryptionContentEncryption cfg;
  backchannelAuthenticationRequestAlgorithm := rc_BackchannelAuthenticationRequestAlgorithm cfg;
  backchannelTokenDeliveryMode := mode;
  backchannelClientNotificationEndpoint := rc_BackchannelClientNotificationEndpoint cfg;
  allowsClientCredentialsGrant := rc_AllowsClientCredentialsGrant cfg;
  automaticFederationRegistration := rc_AutomaticFederationRegistration cfg;
  subjectType := typ; sector := clientSector |}.

(** An algorithm that is optional. *)
Definition optional_algorithm (alg : SignatureAlgorithm) : bool :=
  bool_decide (alg = 0%N) || SignatureAlgorithm_IsValid alg.

Definition NewRegisteredClient (cfg : RegisteredClientConfig) : checked RegisteredClient :=
  require (bool_decide (rc_ID cfg ≠ "")) ;;
  require (bool_decide (¬ (rc_RedirectURIs cfg = [] ∧ rc_BackchannelAuthenticationRequestAlgorithm cfg = 0%N ∧
            rc_AllowsClientCredentialsGrant cfg = false))) ;;
  methods ← config_methods cfg;
  algs ← config_algorithms cfg;
  methods ← check_methods cfg algs methods;
  ValidateClientName (cd_Name (rc_Display cfg)) ;;
  require (optional_algorithm (rc_RequestObjectAlgorithm cfg)) ;;
  constrain ← constant sender_constraints (rc_SenderConstrain cfg);
  require (optional_algorithm (rc_BackchannelAuthenticationRequestAlgorithm cfg)) ;;
  mode ← validateBackchannelTokenDeliveryMode cfg;
  require (validateIDTokenEncryptionFields cfg) ;;
  require (validateUserInfoEncryptionFields cfg) ;;
  '(scopes, rarTypes, resources) ← allowedSets cfg;
  '(app, (typ, clientSector)) ← checkApplicationTypeAndSector cfg;
  Ok (registered cfg methods algs constrain mode scopes rarTypes resources app typ clientSector).
End registration.

(** * Query strings *)

Definition pair_byte (c : ascii) : bool :=
  negb ((byte_code c =? 38)%N || (byte_code c =? 59)%N).

Lemma all_bytes_app f a b : Base64.all_bytes f (a +:+ b) = Base64.all_bytes f a && Base64.all_bytes f b.
Proof. induction a as [|c a IH]; [done|]. simpl. by rewrite IH, andb_assoc. Qed.

Lemma query_fields_app raw add : ∀ field,
  query_fields (raw +:+ String "&" add) field = query_fields raw field ++ query_fields add "".
Proof.
  induction raw as [|c raw IH]; intros field; [done|].
  change (String c raw +:+ String "&" add) with (String c (raw +:+ String "&" add)).
  cbn [query_fields]. destruct (_ || _); [|apply IH]. by rewrite IH, app_assoc.
Qed.

Lemma query_fields_field s : Base64.all_bytes pair_byte s = true → ∀ field,
  field +:+ s ≠ "" → query_fields s field = [field +:+ s].
Proof.
  induction s as [|c s IH]; intros Hs field Hne.
  { cbn [query_fields]. rewrite string_app_nil_r in Hne |- *. by rewrite bool_decide_false. }
  cbn [Base64.all_bytes] in Hs. apply andb_true_iff in Hs as [Hc%negb_true_iff Hs].
  cbn [query_fields]. rewrite Hc. rewrite IH; [|done|].
  - by rewrite <-string_app_assoc.
  - by rewrite <-string_app_assoc.
Qed.

Lemma query_fields_join l :
  Forall (λ s, s ≠ "" ∧ Base64.all_bytes pair_byte s = true) l → query_fields (join "&" l) "" = l.
Proof.
  induction l as [|s l IH]; [done|]. intros [[Hne Hs] Hl]%Forall_cons.
  destruct l as [|t l]; [by apply (query_fields_field s Hs "")|].
  change (join "&" (s :: t :: l)) with (s +:+ String "&" (join "&" (t :: l))).
  rewrite query_fields_app, IH by done. by rewrite (query_fields_field s Hs "").
Qed.

Lemma ends_ampersand_split raw :
  ends_ampersand raw = true → ∃ r, raw = r +:+ "&".
Proof.
  unfold ends_ampersand. intros Hd%bool_decide_eq_true. revert Hd.
  induction raw as [|c raw IH]; [done|].
  destruct raw as [|d raw]; [simpl; intros ->; by exists ""|].
  intros Hd. destruct IH as [r Hr].
  - revert Hd. simpl. by rewrite Nat.sub_0_r.
  - exists (String c r). by rewrite Hr.
Qed.

(** The names of a query another is appended to. *)
Lemma Names_Append raw add : Names (Append raw add) = Names raw ++ Names add.
Proof.
  unfold Names. rewrite <-fmap_app. f_equal. unfold Append.
  case_bool_decide as Ha; [subst; cbn; by rewrite app_nil_r|].
  case_bool_decide as Hr; [by subst|]. destruct (ends_ampersand raw) eqn:He.
  - apply ends_ampersand_split in He as [r ->]. rewrite <-string_app_assoc.
    change ("&" +:+ add) with (String "&" add). rewrite query_fields_app.
    change "&" with (String "&" ""). rewrite query_fields_app. by rewrite app_nil_r.
  - change ("&" +:+ add) with (String "&" add). apply query_fields_app.
Qed.

Lemma piece_plain p : Base64.all_bytes pair_byte (piece p) = true ∧ piece p ≠ "".
Proof.
  unfold piece. split; [|by destruct (QueryEscape p.1)].
  assert (Hesc : ∀ s, Base64.all_bytes pair_byte (QueryEscape s) = true).
  { intros s. pose proof (escaped_bytes s) as Hs. revert Hs. generalize (QueryEscape s).
    clear. intros t. induction t as [|c t IH]; [done|]. cbn [Base64.all_bytes].
    intros [Hc Ht]%andb_true_iff. rewrite IH by done. rewrite andb_true_r.
    revert Hc. destruct c as [[] [] [] [] [] [] [] []]; by vm_compute. }
  change ("=" +:+ QueryEscape p.2) with (String "=" (QueryEscape p.2)).
  rewrite all_bytes_app, Hesc. cbn [Base64.all_bytes andb]. by rewrite Hesc.
Qed.

Lemma query_name_piece p : query_name (piece p) = p.1.
Proof.
  unfold query_name, piece. change ("=" +:+ QueryEscape p.2) with (String "=" (QueryEscape p.2)).
  rewrite Cut_app by by apply escaped_no_separator. simpl. by rewrite QueryUnescape_Escape.
Qed.

Lemma Names_encode_map m : Names (encode_map m) = sorted_elements (dom m).
Proof.
  unfold Names, encode_map.
  set (l := (λ k, (k, default "" (m !! k))) <$> sorted_elements (dom m)).
  change (Encode l) with (join "&" (piece <$> l)).
  rewrite query_fields_join.
  - unfold l. generalize (sorted_elements (dom m)). intros keys.
    induction keys as [|k keys IH]; [done|]. rewrite !fmap_cons, query_name_piece. by rewrite IH.
  - apply Forall_forall. intros s (p & -> & _)%list_elem_of_fmap. split; apply piece_plain.
Qed.

Lemma FirstReserved_None raw reserved :
  FirstReserved raw reserved = None ↔ ∀ name, name ∈ Names raw → name ∉ reserved.
Proof.
  unfold FirstReserved. split.
  - intros Hf name Hin Hr. destruct (list_find _ (Names raw)) as [[i n]|] eqn:Hl; [done|].
    apply list_find_None in Hl. rewrite Forall_forall in Hl. by apply (Hl name).
  - intros Hf. destruct (list_find _ (Names raw)) as [[i n]|] eqn:Hl; [|done].
    apply list_find_Some in Hl as (Hn & Hr & _). exfalso. apply (Hf n); [|done].
    by eapply list_elem_of_lookup_2.
Qed.

Section theorems.
Context `{Platform}.

(** * Registered clients *)

(** What a method of authentication compares a credential with is there to
    compare with. *)
Definition method_ready (client : RegisteredClient) (method : ClientAuthMethod) : Prop :=
  match method with
  | ClientAuthMethodPrivateKeyJWT => clientAssertionAlgorithms client ≠ [] ∧
      ∀ alg, alg ∈ clientAssertionAlgorithms client → SignatureAlgorithm_IsValid alg = true
  | ClientAuthMethodSelfSignedTLSClientAuth => expectedCertificateThumbprint client ≠ ""
  | ClientAuthMethodTLSClientAuth => expectedSubjectDN client ≠ ""
  | ClientAuthMethodTLSClientAuthSANDNS => expectedSANDNS client ≠ ""
  | ClientAuthMethodTLSClientAuthSANURI => expectedSANURI client ≠ ""
  | ClientAuthMethodTLSClientAuthSANIP => expectedSANIP client ≠ "" ∧
      is_Some (ip_is_loopback (expectedSANIP client))
  | ClientAuthMethodTLSClientAuthSANEmail => expectedSANEmail client ≠ ""
  | ClientAuthMethodAttestation => expectedAttesterIssuer client ≠ "" ∧
      SignatureAlgorithm_IsValid (clientAttestationAlgorithm client) = true
  end.

(** A redirect URI has no fragment and names no parameter of an authorization
    response; a native client's is https, the loopback literal over http, or
    of a private-use scheme. *)
Definition redirect_ready (client : RegisteredClient) (uri : string) : Prop :=
  hasFragment uri = false ∧
  (∀ u, url_parse uri = Some u →
    ∀ name, name ∈ Names (url_RawQuery u) → name ∉ authorizationResponseParameters) ∧
  (applicationType client = ApplicationTypeNative →
    ∃ u, ParseRedirectURL uri native_options = Some u ∧
      (url_Scheme u = "https" ∨
       url_Scheme u = "http" ∧ (url_Hostname u = "127.0.0.1" ∨ url_Hostname u = "::1") ∨
       isReverseDomainScheme (url_Scheme u) = true)).

(** Both algorithms of an encryption are set, or neither. *)
Definition encryption_ready (keyManagement contentEncryption : N) : Prop :=
  keyManagement = 0%N ∧ contentEncryption = 0%N ∨
  KeyManagementAlgorithm_IsValid keyManagement = true ∧
  ContentEncryptionAlgorithm_IsValid contentEncryption = true.

(** A sector is a host name in lowercase. *)
Definition sector_ready (client : RegisteredClient) : Prop :=
  IsASCII (sector client) = true ∧ LowerASCII (sector client) = sector client ∧
  (subjectType client = SubjectTypePairwise → sector client ≠ "").

Record registered_ok (client : RegisteredClient) : Prop := {
  ro_id : client_id client ≠ "";
  ro_grant : redirectURIs client ≠ [] ∨
    backchannelAuthenticationRequestAlgorithm client ≠ 0%N ∨
    allowsClientCredentialsGrant client = true;
  ro_methods : clientAuthMethods client ≠ [] ∧ NoDup (clientAuthMethods client) ∧
    ∀ method, method ∈ clientAuthMethods client → method_ready client method;
  ro_redirects : ∀ uri, uri ∈ redirectURIs client → redirect_ready client uri;
  ro_objects : optional_algorithm (requestObjectAlgorithm client) = true ∧
    optional_algorithm (backchannelAuthenticationRequestAlgorithm client) = true;
  ro_delivery : match backchannelTokenDeliveryMode client with
    | BackchannelTokenDeliveryModePoll => backchannelClientNotificationEndpoint client = None
    | BackchannelTokenDeliveryModePing =>
      backchannelAuthenticationRequestAlgorithm client ≠ 0%N ∧
      is_Some (backchannelClientNotificationEndpoint client)
    end;
  ro_encryption :
    encryption_ready (idTokenEncryptionKeyManagement client)
      (idTokenEncryptionContentEncryption client) ∧
    encryption_ready (userInfoEncryptionKeyManagement client)
      (userInfoEncryptionContentEncryption client);
  ro_sets : "" ∉ allowedScopes client ∧ "" ∉ authorizationDetailsTypes client ∧
    ∀ r, r ∈ allowedResources client → Check_resource r = true;
  ro_scope : ∀ tokens, NoDup tokens → (∀ t, t ∈ tokens → AllowsScope client t = true) →
    checkScopeLength (String.length (join " " tokens)) client = Ok tt;
  ro_sector : sector_ready client }.

(** ** The lists of methods and algorithms *)

Lemma distinct_spec `{EqDecision A} (l : list A) :
  NoDup (distinct l) ∧ ∀ x, x ∈ distinct l ↔ x ∈ l.
Proof.
  unfold distinct.
  assert (Hgen : ∀ acc, NoDup acc →
    let r := foldl (λ seen a, if bool_decide (a ∈ seen) then seen else seen ++ [a]) acc l in
    NoDup r ∧ ∀ x, x ∈ r ↔ x ∈ acc ∨ x ∈ l).
  { induction l as [|a l IH]; intros acc Hacc; simpl; [split; [done|set_solver]|].
    case_bool_decide as Ha.
    - destruct (IH acc Hacc) as [Hnd Hin]. split; [done|]. intros x. rewrite Hin. set_solver.
    - destruct (IH (acc ++ [a])) as [Hnd Hin].
      { apply NoDup_app. split; [done|]. split; [set_solver|apply NoDup_singleton]. }
      split; [done|]. intros x. rewrite Hin. set_solver. }
  destruct (Hgen []) as [Hnd Hin]; [constructor|]. split; [done|]. set_solver.
Qed.

Lemma config_methods_Ok cfg methods :
  config_methods cfg = Ok methods → methods ≠ [] ∧ NoDup methods.
Proof.
  unfold config_methods. case_bool_decide as Hnil.
  { intros [= <-]. split; [done|apply NoDup_singleton]. }
  destruct (_ && _); [done|]. intros [= <-]. destruct (distinct_spec (rc_ClientAuthMethods cfg))
    as [Hnd Hin]. split; [|done]. intros He. destruct (rc_ClientAuthMethods cfg) as [|m l]; [done|].
  specialize (Hin m). rewrite He in Hin. set_solver.
Qed.

Lemma constant_Ok {A} (constants : list A) n a :
  constant constants n = Ok a → constants !! N.to_nat n = Some a.
Proof. unfold constant. destruct (constants !! N.to_nat n); [by intros [= ->]|done]. Qed.

Lemma auth_methods_NoDup : NoDup auth_methods.
Proof. apply (bool_decide_unpack _). vm_compute. exact I. Qed.

Lemma check_methods_Ok cfg algs methods ms :
  check_methods cfg algs methods = Ok ms → NoDup methods →
  NoDup ms ∧ length ms = length methods ∧
  (∀ m, m ∈ ms → method_fields cfg algs m = true ∧
    ∃ n, n ∈ methods ∧ auth_methods !! N.to_nat n = Some m).
Proof.
  revert ms. induction methods as [|n methods IH]; intros ms Hc Hnd.
  { injection Hc as <-. split_and!; [constructor|done|]. intros m []%not_elem_of_nil. }
  simpl in Hc. apply bind_Ok in Hc as (m & Hm & Hc). apply bind_Ok in Hc as (ms' & Hms & Hc).
  injection Hc as <-. apply NoDup_cons in Hnd as [Hn Hnd].
  destruct (IH _ Hms Hnd) as (Hnd' & Hlen & Hall).
  unfold validateClientAuthMethodFields in Hm. apply bind_Ok in Hm as (m' & Hk%constant_Ok & Hm).
  apply bind_Ok in Hm as ([] & Hf%guard_err_Ok & Hm). injection Hm as ->.
  split_and!.
  - apply NoDup_cons. split; [|done]. intros Hin. destruct (Hall _ Hin) as (_ & k & Hkin & Hkm).
    apply Hn. replace n with k; [done|]. apply N2Nat.inj.
    by eapply (NoDup_lookup _ _ _ _ auth_methods_NoDup).
  - simpl. by rewrite Hlen.
  - intros x [->|Hx]%elem_of_cons; [split; [done|]; exists n; split; [by left|done]|].
    destruct (Hall x Hx) as (? & k & ? & ?). split; [done|]. exists k. split; [by right|done].
Qed.

(** ** Scopes *)

Lemma joined_sum (tokens : list string) :
  String.length (join " " tokens) =
  foldr (λ v n, n + (String.length v + 1)) 0 tokens - 1.
Proof.
  induction tokens as [|t tokens IH]; [done|]. destruct tokens as [|u tokens]; [simpl; lia|].
  change (join " " (t :: u :: tokens)) with (t +:+ String " " (join " " (u :: tokens))).
  rewrite string_length_app. cbn [String.length]. rewrite IH. simpl. lia.
Qed.

Lemma joinedLength_bound (s : gset string) tokens :
  NoDup tokens → (∀ t, t ∈ tokens → t ∈ s) →
  String.length (join " " tokens) ≤ joinedLength s.
Proof.
  intros Hnd Hin. rewrite joined_sum. unfold joinedLength, set_fold. simpl.
  assert (Hsub : tokens ⊆+ elements s).
  { apply NoDup_submseteq; [done|]. intros t Ht. apply elem_of_elements. by apply Hin. }
  apply submseteq_Permutation in Hsub as [k Hk].
  assert (Hfold : foldr (λ v n, n + (String.length v + 1)) 0 (elements s) =
    foldr (λ v n, n + (String.length v + 1)) 0 (tokens ++ k)).
  { apply (foldr_permutation (=) _ _); [|done]. intros; lia. }
  rewrite Hfold, foldr_app.
  assert (Hmono : ∀ l a, foldr (λ v n, n + (String.length v + 1)) 0 l ≤
    foldr (λ v n, n + (String.length v + 1)) a l).
  { intros l a. induction l as [|v l IH]; simpl; lia. }
  specialize (Hmono tokens (foldr (λ v n, n + (String.length v + 1)) 0 k)). lia.
Qed.

(** ** Sectors *)

Lemma LowerASCII_idem s : LowerASCII (LowerASCII s) = LowerASCII s.
Proof. induction s as [|c s IH]; [done|]. simpl. by rewrite lowerASCIIByte_idem, IH. Qed.

Lemma host_ASCII s : all_host s = true → IsASCII (LowerASCII s) = true.
Proof.
  induction s as [|c s IH]; [done|]. cbn [all_host LowerASCII IsASCII].
  intros [Hc Hs]%andb_true_iff. rewrite IH by done.
  revert Hc. destruct c as [[] [] [] [] [] [] [] []]; by vm_compute.
Qed.

Lemma common_host_ready uris : ∀ host,
  IsASCII host = true → LowerASCII host = host →
  IsASCII (common_host uris host) = true ∧
  LowerASCII (common_host uris host) = common_host uris host.
Proof.
  induction uris as [|uri uris IH]; intros host Ha Hl; [done|]. simpl.
  destruct (url_parse uri) as [u|]; [|done]. destruct (_ || _); [done|].
  destruct (IsASCII (LowerASCII (url_Hostname u))) eqn:Hh; [|done]. simpl.
  destruct (_ && _); [done|]. apply IH; [done|apply LowerASCII_idem].
Qed.

Lemma clientSector_Ok cfg typ s :
  clientSector cfg = Ok (typ, s) →
  IsASCII s = true ∧ LowerASCII s = s ∧ (typ = SubjectTypePairwise → s ≠ "").
Proof.
  unfold clientSector. intros Hc. apply bind_Ok in Hc as (t & _ & Hc).
  apply bind_Ok in Hc as (sector & Hs & Hc). apply bind_Ok in Hc as ([] & Hne%guard_err_Ok & Hc).
  injection Hc as -> ->. apply bool_decide_eq_true in Hne.
  assert (IsASCII s = true ∧ LowerASCII s = s) as [? ?]; [|split_and!; try done; naive_solver].
  case_bool_decide.
  - injection Hs as <-. unfold derivedSector. destruct (_ || _); [done|].
    by apply common_host_ready.
  - apply bind_Ok in Hs as ([] & Hc%guard_err_Ok & Hs). injection Hs as <-.
    unfold checkSector in Hc. rewrite !andb_true_iff in Hc. destruct Hc as [[_ Hh] _].
    split; [by apply host_ASCII|apply LowerASCII_idem].
Qed.

(** ** Redirect URIs *)

Lemma checkApplicationType_Ok cfg t :
  checkApplicationType cfg = Ok t →
  t = ApplicationTypeNative → ∀ uri, uri ∈ rc_RedirectURIs cfg → native_redirect_ok uri = true.
Proof.
  unfold checkApplicationType. intros Hc Ht uri Hin. apply bind_Ok in Hc as (t' & _ & Hc).
  destruct t'; [by simplify_eq|]. apply bind_Ok in Hc as ([] & Hall%guard_err_Ok & _).
  rewrite forallb_forall in Hall. apply Hall. by apply list_elem_of_In.
Qed.

Lemma native_redirect_ready uri :
  native_redirect_ok uri = true →
  ∃ u, ParseRedirectURL uri native_options = Some u ∧
    (url_Scheme u = "https" ∨
     url_Scheme u = "http" ∧ (url_Hostname u = "127.0.0.1" ∨ url_Hostname u = "::1") ∨
     isReverseDomainScheme (url_Scheme u) = true).
Proof.
  unfold native_redirect_ok. destruct (ParseRedirectURL uri native_options) as [u|] eqn:Hp; [|done].
  intros Hn. exists u. split; [done|]. case_bool_decide as Hs.
  - right; left. apply andb_true_iff in Hn as [Hn _]. split; [done|].
    apply orb_true_iff in Hn as [?%bool_decide_eq_true|?%bool_decide_eq_true]; auto.
  - apply ParseRedirectURL_scheme in Hp as (_ & _ & [[? _]|[[? _]|[_ ?]]]); auto.
Qed.

Lemma redirects_ready cfg client app s :
  checkApplicationTypeAndSector cfg = Ok (app, s) →
  redirectURIs client = rc_RedirectURIs cfg → applicationType client = app →
  ∀ uri, uri ∈ redirectURIs client → redirect_ready client uri.
Proof.
  unfold checkApplicationTypeAndSector. intros Hc Hu Ha uri Hin. rewrite Hu in Hin.
  apply bind_Ok in Hc as ([] & Hfr%guard_err_Ok & Hc). apply bind_Ok in Hc as ([] & Hq%guard_err_Ok & Hc).
  apply bind_Ok in Hc as (t & Ht & Hc). apply bind_Ok in Hc as (? & _ & Hc). injection Hc as -> _.
  unfold checkRedirectURIFragments in Hfr. unfold checkRedirectURIQueries in Hq.
  rewrite forallb_forall in Hfr, Hq. apply list_elem_of_In in Hin as Hin'.
  specialize (Hfr _ Hin'). specialize (Hq _ Hin'). split; [by apply negb_true_iff|]. split.
  - intros u Hp name Hname. rewrite Hp in Hq. apply bool_decide_eq_true in Hq.
    by eapply FirstReserved_None.
  - intros Hnat. apply native_redirect_ready.
    eapply checkApplicationType_Ok; [exact Ht|congruence|done].
Qed.

Lemma encryption_fields_ready k c : encryption_fields k c = true → encryption_ready k c.
Proof.
  unfold encryption_fields, encryption_ready.
  destruct (bool_decide_reflect (k = 0%N)), (bool_decide_reflect (c = 0%N)); simpl; try done; [by left|].
  intros [? ?]%andb_true_iff. by right.
Qed.

Lemma algorithms_ready algs :
  validatePrivateKeyJWTAlgorithms algs = true →
  algs ≠ [] ∧ ∀ alg, alg ∈ algs → SignatureAlgorithm_IsValid alg = true.
Proof.
  intros [Hne Hall]%andb_true_iff. apply negb_true_iff, bool_decide_eq_false in Hne.
  rewrite forallb_forall in Hall. split; [done|]. intros alg Hin. apply Hall. by apply list_elem_of_In.
Qed.

Lemma requireField_true value : requireField value = true ↔ value ≠ "".
Proof. unfold requireField. rewrite negb_true_iff. apply bool_decide_eq_false. Qed.

Lemma method_fields_ready cfg algs m methods constrain mode scopes rarTypes resources app typ s :
  method_fields cfg algs m = true →
  method_ready (registered cfg methods algs constrain mode scopes rarTypes resources app typ s) m.
Proof.
  destruct m; simpl; rewrite ?requireField_true; try done.
  - apply algorithms_ready.
  - unfold validateSANIPField. intros [?%requireField_true Hip]%andb_true_iff. split; [done|].
    apply negb_true_iff, bool_decide_eq_false in Hip. by apply not_eq_None_Some.
  - unfold validateAttestationFields. by intros [?%requireField_true ?]%andb_true_iff.
Qed.

Lemma delivery_ready cfg mode :
  validateBackchannelTokenDeliveryMode cfg = Ok mode →
  match mode with
  | BackchannelTokenDeliveryModePoll => rc_BackchannelClientNotificationEndpoint cfg = None
  | BackchannelTokenDeliveryModePing =>
    rc_BackchannelAuthenticationRequestAlgorithm cfg ≠ 0%N ∧
    is_Some (rc_BackchannelClientNotificationEndpoint cfg)
  end.
Proof.
  unfold validateBackchannelTokenDeliveryMode. intros Hm. apply bind_Ok in Hm as (m & _ & Hm).
  unfold require in Hm.
  destruct m; inv_ok; repeat match goal with H : bool_decide _ = true |- _ =>
    apply bool_decide_eq_true in H end; [done|]. split; [done|]. by apply not_eq_None_Some.
Qed.

Lemma allowedSets_ready cfg scopes rarTypes resources :
  allowedSets cfg = Ok (scopes, rarTypes, resources) →
  "" ∉ scopes ∧ "" ∉ rarTypes ∧ ∀ r, r ∈ resources → Check_resource r = true.
Proof.
  unfold allowedSets, stringSet, resourceSet, require. intros Hs. inv_ok.
  repeat match goal with
    | H : bool_decide _ = true |- _ => apply bool_decide_eq_true in H
    | H : (_, _) = (_, _) |- _ => injection H as <- <- <-
    end. rewrite !elem_of_list_to_set. split_and!; try done.
  intros r Hr%elem_of_list_to_set. rewrite forallb_forall in *.
  match goal with H : ∀ x, In x _ → _ |- _ => apply H end. by apply list_elem_of_In.
Qed.

(** C16. A client that registration accepts is one the server can serve. It has a
    grant to use, and every method it authenticates by has what it is judged
    by; its redirect URIs take an authorization response without a parameter
    of the same name; any of its scopes it asks for, each once, pass the
    server's length check; a pairwise client has a sector, which is a
    lowercase host; its delivery mode and encryption are complete. *)
Theorem registered_client_ok cfg client :
  NewRegisteredClient cfg = Ok client → registered_ok client.
Proof.
  unfold NewRegisteredClient. intros Hreg.
  apply bind_Ok in Hreg as ([] & Hid%guard_err_Ok & Hreg).
  apply bind_Ok in Hreg as ([] & Hgrant%guard_err_Ok & Hreg).
  apply bind_Ok in Hreg as (ns & [Hne Hnd]%config_methods_Ok & Hreg).
  apply bind_Ok in Hreg as (algs & Halgs & Hreg).
  apply bind_Ok in Hreg as (methods & Hms & Hreg).
  apply bind_Ok in Hreg as ([] & _ & Hreg).
  apply bind_Ok in Hreg as ([] & Hro%guard_err_Ok & Hreg).
  apply bind_Ok in Hreg as (constrain & _ & Hreg).
  apply bind_Ok in Hreg as ([] & Hba%guard_err_Ok & Hreg).
  apply bind_Ok in Hreg as (mode & Hmode & Hreg).
  apply bind_Ok in Hreg as ([] & Hie%guard_err_Ok & Hreg).
  apply bind_Ok in Hreg as ([] & Hue%guard_err_Ok & Hreg).
  apply bind_Ok in Hreg as ([[scopes rarTypes] resources] & Hsets & Hreg).
  apply bind_Ok in Hreg as ([app [typ s]] & Happ & Hreg). injection Hreg as <-.
  apply bool_decide_eq_true in Hid, Hgrant.
  destruct (check_methods_Ok _ _ _ _ Hms Hnd) as (Hmnd & Hlen & Hfields).
  split; simpl.
  - done.
  - destruct (bool_decide_reflect (rc_RedirectURIs cfg = [])); [|by left].
    destruct (bool_decide_reflect (rc_BackchannelAuthenticationRequestAlgorithm cfg = 0%N)); [|by right; left].
    destruct (rc_AllowsClientCredentialsGrant cfg); [by right; right|naive_solver].
  - split_and!; [|done|].
    + intros ->. by destruct ns.
    + intros m Hin. destruct (Hfields m Hin) as [Hf _]. by eapply method_fields_ready.
  - intros uri Hin. by eapply redirects_ready.
  - done.
  - by apply delivery_ready.
  - split; by apply encryption_fields_ready.
  - by eapply allowedSets_ready.
  - intros tokens Ht Hall. unfold checkScopeLength, scopeBound. simpl. rewrite bool_decide_false; [done|].
    assert (String.length (join " " tokens) ≤ joinedLength scopes); [|lia].
    apply joinedLength_bound; [done|]. intros t Hin. specialize (Hall t Hin).
    unfold AllowsScope in Hall. simpl in Hall. by apply bool_decide_eq_true in Hall.
  - unfold checkApplicationTypeAndSector, require in Happ. inv_ok. by eapply clientSector_Ok.
Qed.
End theorems.

(** * Authorization responses *)

Section responses.
Context `{FrontServer}.

Lemma filter_once (name : string) (l : list string) :
  NoDup l → filter (name =.) l = if bool_decide (name ∈ l) then [name] else [].
Proof.
  induction 1 as [|x l Hx Hnd IH]; [done|]. rewrite filter_cons, IH.
  destruct (base.decide (name = x)) as [->|Hne].
  - rewrite (bool_decide_true (x ∈ x :: l)) by (by left). by rewrite bool_decide_false.
  - destruct (base.decide (name ∈ l)).
    + rewrite !bool_decide_true; [done|by right|done].
    + rewrite !bool_decide_false; [done| |done]. by intros [?|?]%elem_of_cons.
Qed.

Lemma filter_none (name : string) (l : list string) : name ∉ l → filter (name =.) l = [].
Proof.
  induction l as [|x l IH]; [done|]. intros Hn. rewrite filter_cons.
  destruct (base.decide (name = x)) as [->|]; [by destruct Hn; left|].
  apply IH. intros Hin. apply Hn. by right.
Qed.

Lemma sorted_elements_spec (s : gset string) :
  NoDup (sorted_elements s) ∧ ∀ x, x ∈ sorted_elements s ↔ x ∈ s.
Proof.
  unfold sorted_elements. assert (Hperm : merge_sort (λ a b, Is_true (string_leb a b)) (elements s) ≡ₚ
    elements s) by apply merge_sort_Permutation.
  split; [rewrite Hperm; apply NoDup_elements|]. intros x. rewrite Hperm. apply elem_of_elements.
Qed.

(** C15. The answer to an authorization request is read without ambiguity: sent to
    a redirect URI of a registered client, it keeps the URI's own query, and
    each of its parameters occurs exactly once in the query of the URL the
    user agent is sent to, whatever that query was; no parameter of an
    authorization response occurs there that the server did not put there. *)
Theorem response_parameters_once rc client uri clientID params w destination w' :
  NewRegisteredClient rc = Ok client → uri ∈ redirectURIs client →
  buildAuthorizationResponse clientID uri params w = (Ok destination, w') →
  ∃ base response,
    url_parse uri = Some base ∧
    (let q := Append (url_RawQuery base) (encode_map response) in
     ParseRedirectURL (url_string (with_query q base)) native_options = Some destination ∧
     Names q = Names (url_RawQuery base) ++ sorted_elements (dom response) ∧
     ∀ name, name ∈ authorizationResponseParameters →
       filter (name =.) (Names q) = if bool_decide (name ∈ dom response) then [name] else []) ∧
    (dom response = {["response"]} ∨
     response = <["iss" := cfg_Issuer cfg]> (present_values params)).
Proof.
  intros Hreg%registered_client_ok Huri Hrun.
  destruct (ro_redirects _ Hreg _ Huri) as (_ & Hquery & _).
  unfold buildAuthorizationResponse in Hrun. destruct (url_parse uri) as [base|]; [|done].
  apply ebind_Ok in Hrun as (response & w1 & Hresp & Hrun).
  destruct (ParseRedirectURL _ _) as [d|] eqn:Hp; [|done]. apply ret_Ok in Hrun as [-> _].
  exists base, response. split; [done|]. split.
  - split; [exact Hp|]. rewrite Names_Append, Names_encode_map. split; [done|]. intros name Hname.
    destruct (sorted_elements_spec (dom response)) as [Hnd Hin].
    rewrite filter_app, filter_none, filter_once by (try done; intros Hn; by eapply Hquery).
    simpl.
    case_bool_decide as H1; case_bool_decide as H2; try done; exfalso; naive_solver.
  - unfold authorization_response in Hresp. case_bool_decide.
    + apply ebind_Ok in Hresp as (jwt & w2 & _ & Hresp). apply ret_Ok in Hresp as [-> _].
      left. apply dom_singleton_L.
    + apply ret_Ok in Hresp as [-> _]. by right.
Qed.
End responses.
