(* ===== verification/ClientFlow.v ===== *)
(** The client's authorization flow (src/client), over executions of its calls
    in any order: a session ends once; the tokens a completed authorization
    yields answer the request that was begun for the same user agent; a foreign
    response changes nothing; and requests are few and go to the endpoints
    configured. With a concrete client the theorems are applied to. *)
From stdpp Require Import relations.
From S2P Require Import Prelude GoStrings Json GoTime Sha256 Base64 Pkce Digests Platform.
From S2P Require Import Effects Storage MemStore ServerTypes Rar JsonCodec Numeric Dpop.
From S2P Require Import Jose Canonical Extensions Attestation ClientAuth ServerState.
From S2P Require Import RequestObject Tokens TokenChecks Parameters Completion Signing.
From S2P Require Import Client SigningTheorems ClientTheorems.
From stdpp Require Import options.
Import Forms Client.

Set Default Proof Using "Type*".

(** * Executions *)

(** What the documentation of SessionStore promises: a session is consumed
    once, and only what was created can be consumed. *)
Class SessionLaws (S : Type) `{SessionStore S} := {
  live : S → string → NewSession → Prop;
  Consume_live c s r s' : Consume c s = (Ok r, s') →
    (∃ n, live s (sc_State c) n ∧ cs_Record r = ns_Record n ∧ cs_ExpiresAt r = ns_ExpiresAt n) ∧
    ∀ n, ¬ live s' (sc_State c) n;
  Consume_keeps c s r s' k n : Consume c s = (r, s') → live s' k n → live s k n;
  Create_live n s r s' k m : Create n s = (r, s') → live s' k m →
    live s k m ∨ r = Ok tt ∧ k = ns_State n ∧ m = n }.

#[local] Existing Instance Sessions.session_store.

#[export] Instance memory_session_laws : SessionLaws Sessions.SessionStore.
Proof.
  refine {| live (s : Sessions.SessionStore) k n := s !! k = Some n |}.
  - intros c s r s' Hc. cbn in Hc. unfold Sessions.Consume in Hc.
    destruct (s !! sc_State c) as [n|] eqn:Hn; [|done]. injection Hc as <- <-.
    split; [by exists n|]. intros m. by rewrite lookup_delete_eq.
  - intros c s r s' k n Hc Hl. cbn in Hc. unfold Sessions.Consume in Hc.
    assert (s' = delete (sc_State c) s) as -> by (by destruct (s !! sc_State c); injection Hc).
    by apply lookup_delete_Some in Hl as [_ Hl].
  - intros n s r s' k m Hc Hl. cbn in Hc. unfold Sessions.Create in Hc. injection Hc as <- <-.
    apply lookup_insert_Some in Hl as [[<- <-]|[_ Hl]]; [by right|by left].
Defined.

Section executions.
Context `{Platform} `{JoseCrypto} {Env Sess Cache : Type} `{!JoseSigner Env}
  `{!SessionStore Sess} `{!DPoPNonceCache Cache} `{!ClientLib Env Sess Cache}
  `{!SigningLaws Env} `{!SessionLaws Sess}.

Abbreviation world := (@World Env Sess Cache).

(** A call of the client's, or a change in its environment; a
    BeginAuthorization that succeeds is told by the handle it returns. *)
Inductive client_step : option string → world → world → Prop :=
| step_begin req s w w' : BeginAuthorization req w = (Ok s, w') → client_step (Some (as_handle s)) w w'
| step_begin_fails req e w w' : BeginAuthorization req w = (Err e, w') → client_step None w w'
| step_handle cb r w w' : HandleAuthorizationResponse cb w = (r, w') → client_step None w w'
| step_complete cb r w w' : CompleteAuthorization cb w = (r, w') → client_step None w w'
| step_exchange resp r w w' : ExchangeCode resp w = (r, w') → client_step None w w'
| step_refresh req r w w' : RefreshTokens req w = (r, w') → client_step None w w'
| step_revoke t r w w' : RevokeToken t w = (r, w') → client_step None w w'
| step_env e w : client_step None w (set_env e w).

Definition any_step (w w' : world) : Prop := ∃ o, client_step o w w'.
Definition step_apart (handle : string) (w w' : world) : Prop :=
  ∃ o, client_step o w w' ∧ o ≠ Some handle.

(** No session appears. *)
Definition shrinks (w w' : world) : Prop :=
  ∀ k n, live (w_sessions w') k n → live (w_sessions w) k n.

#[local] Instance shrinks_preorder : PreOrder shrinks.
Proof. split; [by intros w k n|]. intros w1 w2 w3 H12 H23 k n Hl. auto. Qed.

Lemma acts_shrinks {E A} P lo hi (Q : A → Prop) (m : eff world E A) :
  acts P lo hi Q m → respects shrinks m.
Proof. intros Hm w r w' Hr k n. by destruct (Hm _ _ _ Hr) as [-> _]. Qed.

Lemma consume_shrinks cb params mode : respects shrinks (consumeCallbackSession cb params mode).
Proof.
  unfold consumeCallbackSession, Now, on_env. frame.
  - apply (respects_zoom shrinks). intros w r t Hr k n Hl. exact (Consume_keeps _ _ _ _ _ _ Hr Hl).
  - apply (respects_zoom shrinks). intros w' r t _ k n. done.
Qed.

#[local] Hint Resolve consume_shrinks : frames.

Lemma handle_shrinks cb : respects shrinks (HandleAuthorizationResponse cb).
Proof.
  unfold HandleAuthorizationResponse. apply (respects_bind _).
  { eapply acts_shrinks, (acts_checkTrustChain (λ _, True)). }
  intros _. apply (respects_bind _); [eapply acts_shrinks, (acts_parse (λ _, True))|].
  intros [params mode]. frame.
Qed.

Lemma complete_shrinks cb : respects shrinks (CompleteAuthorization cb).
Proof.
  unfold CompleteAuthorization. apply (respects_bind _); [apply handle_shrinks|].
  intros [resp|code description]; [|apply (respects_ret _)].
  apply (respects_bind _); [eapply acts_shrinks, acts_ExchangeCode|]. intros t. apply (respects_ret _).
Qed.

Lemma bind_quiet {E A B} P lo hi (Q : A → Prop) (m : eff world E A) (k : A → eff world E B) w r w'
    (G : Prop) :
  acts P lo hi Q m → ebind m k w = (r, w') → (w_sessions w' = w_sessions w → G) →
  (∀ a w1, Q a → w_sessions w1 = w_sessions w → k a w1 = (r, w') → G) → G.
Proof.
  intros Hm Hr Hstop Hgo. unfold ebind in Hr. destruct (m w) as [[a|e] w1] eqn:Hmw;
    destruct (Hm _ _ _ Hmw) as (Hs & l & _ & _ & _ & Hok).
  - destruct (Hok a eq_refl). by eapply Hgo.
  - injection Hr as <- <-. by apply Hstop.
Qed.

(** [m] adds no session when it fails. *)
Definition fails_quietly {E A} (m : eff world E A) : Prop :=
  ∀ w e w', m w = (Err e, w') → shrinks w w'.

Lemma quiet_then {E A B} (m : eff world E A) (k : A → eff world E B) :
  respects shrinks m → (∀ a, fails_quietly (k a)) → fails_quietly (ebind m k).
Proof.
  intros Hm Hk w e w' [Hr|(a & w1 & Hr & Hr')]%ebind_Err; [by eapply Hm|].
  etrans; [by eapply Hm|by eapply Hk].
Qed.

Lemma createSession_quiet state record now {A} (a : A) :
  fails_quietly (do* createSession state record now in ret a).
Proof.
  intros w e w' [Hr|([] & w1 & _ & Hr)]%ebind_Err; [|done]. unfold createSession in Hr.
  destruct (encodeSessionRecord record) as [raw|]; [|by injection Hr as _ <-].
  apply map_err_Err in Hr as (e' & Hr & _). apply zoom_run in Hr as (s & Hc & ->).
  intros k n Hl. destruct (Create_live _ _ _ _ _ _ Hc Hl) as [?|[[=] _]]. done.
Qed.

Lemma begin_fails_quietly req : fails_quietly (BeginAuthorization req).
Proof.
  unfold BeginAuthorization.
  apply quiet_then; [eapply acts_shrinks, (acts_checkTrustChain (λ _, True))|intros _].
  apply quiet_then; [apply (respects_lift _)|intros redirect].
  apply quiet_then; [eapply acts_shrinks, acts_internal, (acts_random (λ _, True))|intros state].
  apply quiet_then; [eapply acts_shrinks, acts_internal, (acts_random (λ _, True))|intros nonce].
  apply quiet_then; [eapply acts_shrinks, acts_internal, (acts_verifier (λ _, True))|intros verifier].
  apply quiet_then; [apply (respects_map_err _), (respects_lift _)|intros challenge].
  apply quiet_then; [eapply acts_shrinks, (acts_Now (λ _, True))|intros now].
  intros w e w' [Hr|(params & w1 & [Hp ->]%lift_Ok & Hr)]%ebind_Err.
  { by injection Hr as _ <-. }
  revert w e w' Hr. apply quiet_then.
  - eapply acts_shrinks, acts_push. rewrite (requested_lookup _ _ _ _ Hp) by by vm_compute; set_solver.
    unfold begin_params. destruct expectsJARMResponse; by vm_compute.
  - intros body. destruct (DecodeResult body) as [uri|]; [|by intros w e w' [= _ <-]].
    apply createSession_quiet.
Qed.

Lemma step_shrinks w w' : client_step None w w' → shrinks w w'.
Proof.
  inversion 1 as [|req e ? ? Hr|? ? ? ? Hr|? ? ? ? Hr|? ? ? ? Hr|? ? ? ? Hr|? ? ? ? Hr|]; subst.
  - by eapply begin_fails_quietly.
  - by eapply handle_shrinks.
  - by eapply complete_shrinks.
  - by eapply acts_shrinks; [apply acts_ExchangeCode|].
  - by eapply acts_shrinks; [apply acts_RefreshTokens|].
  - by eapply acts_shrinks; [apply acts_RevokeToken|].
  - by intros k n.
Qed.

(** What a successful begin adds is its session. *)
Lemma begin_adds req s r challenge params n w w' k m :
  begins req s r challenge params n w w' → live (w_sessions w') k m →
  live (w_sessions w) k m ∨ k = as_handle s ∧ m = n.
Proof.
  intros Hb Hl. destruct (bg_stored _ _ _ _ _ _ _ _ Hb) as (_ & Hk & _ & Hc).
  destruct (Create_live _ _ _ _ _ _ Hc Hl) as [?|(_ & -> & ->)]; [by left|right].
  by rewrite Hk.
Qed.

Lemma apart_keeps handle w w' :
  rtc (step_apart handle) w w' → (∀ n, ¬ live (w_sessions w) handle n) →
  ∀ n, ¬ live (w_sessions w') handle n.
Proof.
  induction 1 as [|w w1 w2 (o & Hs & Ho) _ IH]; [done|]. intros Hn. apply IH. intros n Hl.
  destruct o as [h|]; [|eapply Hn, step_shrinks; [exact Hs|exact Hl]].
  inversion Hs as [req s ? ? Hr| | | | | | |]; subst.
  destruct (begin_Ok _ _ _ _ Hr) as (r & ch & p & n' & Hb).
  destruct (begin_adds _ _ _ _ _ _ _ _ _ _ Hb Hl) as [?|[-> _]]; [by eapply Hn|done].
Qed.

(** C8. A session ends with the first callback that is answered under it: whatever
    the client is asked in between, in any order, no other callback of the
    same user agent's session is answered, unless the session's handle is
    drawn again, and none is exchanged for tokens. *)
Theorem session_answered_once cb cb' w r w1 w2 r' w3 :
  cb_Session cb ≠ "" → cb_Session cb' = cb_Session cb →
  HandleAuthorizationResponse cb w = (Ok r, w1) → rtc (step_apart (cb_Session cb)) w1 w2 →
  CompleteAuthorization cb' w2 = (r', w3) →
  ∃ e, r' = Err e ∧ HandleAuthorizationResponse cb' w2 = (Err e, w3).
Proof.
  intros Hne Hsame Hr Hsteps Hc. destruct (handle_Ok _ _ _ _ Hr) as (state & rec & ex & Hh & _).
  destruct (hd_params _ _ _ _ _ _ Hh) as (p & m & v & v1 & _ & (_ & _ & Hst) & _).
  assert (cb_Session cb = state) as <- by (destruct Hst as [?|[? _]]; done).
  destruct (hd_consumed _ _ _ _ _ _ Hh) as (consumed & Hcons & _).
  pose proof (apart_keeps _ _ _ Hsteps (proj2 (Consume_live _ _ _ _ Hcons))) as Hdead.
  unfold CompleteAuthorization, ebind in Hc.
  destruct (HandleAuthorizationResponse cb' w2) as [[res|e] w4] eqn:Hr2;
    [|injection Hc as <- <-; by exists e].
  exfalso. destruct (handle_Ok _ _ _ _ Hr2) as (state' & rec' & ex' & Hh' & _).
  destruct (hd_params _ _ _ _ _ _ Hh') as (p' & m' & v' & v1' & _ & (_ & _ & Hst') & _).
  assert (cb_Session cb = state') as <- by (destruct Hst' as [?|[? _]]; congruence).
  destruct (hd_consumed _ _ _ _ _ _ Hh') as (consumed' & Hcons' & _).
  destruct (Consume_live _ _ _ _ Hcons') as [(n & Hl & _) _]. by eapply Hdead.
Qed.

(** * A completed authorization was begun *)

(** Where a session that can be consumed comes from. *)
Record origin (w0 : world) (k : string) (n : NewSession) (w : world)
    (req : BeginAuthorizationRequest) (s : AuthorizationSession) (r : sessionRecord)
    (challenge : string) (params : gmap string string) : Prop := {
  og_handle : as_handle s = k;
  og_begun : ∃ wb wb', rtc any_step w0 wb ∧ BeginAuthorization req wb = (Ok s, wb') ∧
    begins req s r challenge params n wb wb' ∧ rtc any_step wb' w }.

Lemma live_origin w0 w k n :
  (∀ k n, ¬ live (w_sessions w0) k n) → rtc any_step w0 w → live (w_sessions w) k n →
  ∃ req s r challenge params, origin w0 k n w req s r challenge params.
Proof.
  intros Hnone Hsteps. revert k n. revert w Hsteps.
  apply (rtc_ind_r (λ w, ∀ k n, live (w_sessions w) k n →
    ∃ req s r challenge params, origin w0 k n w req s r challenge params)).
  { intros k n Hl. by destruct (Hnone k n). }
  intros w1 w2 Hsteps Hstep IH k n Hl.
  assert (Hext : ∀ req s r ch p, origin w0 k n w1 req s r ch p → origin w0 k n w2 req s r ch p).
  { intros req s r ch p [Hk (wb & wb' & Hto & Hb & Hbg & Hfrom)]. split; [done|].
    exists wb, wb'. split_and!; try done. by eapply rtc_r. }
  assert (Hold : live (w_sessions w1) k n → ∃ req s r ch p, origin w0 k n w2 req s r ch p).
  { intros Hl1. destruct (IH k n Hl1) as (req & s & r & ch & p & Ho).
    exists req, s, r, ch, p. by apply Hext. }
  destruct Hstep as [[h|] Hs]; [|apply Hold; by eapply step_shrinks].
  inversion Hs as [req s ? ? Hr| | | | | | |]; subst.
  destruct (begin_Ok _ _ _ _ Hr) as (r & ch & p & n' & Hb).
  destruct (begin_adds _ _ _ _ _ _ _ _ _ _ Hb Hl) as [?|[-> ->]]; [by apply Hold|].
  exists req, s, r, ch, p. split; [done|]. by exists w1, w2.
Qed.

(** The parameters a begun authorization pushes that its completion rests on. *)
Definition pushed_parameters (s : AuthorizationSession) (r : sessionRecord) (challenge : string)
    : list (string * string) := [
  ("client_id", cc_ClientID cfg); ("redirect_uri", sr_RedirectURI r); ("state", as_handle s);
  ("nonce", sr_Nonce r); ("code_challenge", challenge); ("code_challenge_method", "S256")].

Lemma begins_pushes req s r challenge params n w w' :
  begins req s r challenge params n w w' →
  Forall (λ p, params !! p.1 = Some p.2) (pushed_parameters s r challenge).
Proof.
  intros Hb. pose proof (bg_params _ _ _ _ _ _ _ _ Hb) as Hp.
  assert (Hk : ∀ k, k ∉ ["acr_values"; maxAgeParameter; claimsParameter; resourceParameter] →
    params !! k = begin_params req (sr_RedirectURI r) (as_handle s) (sr_Nonce r) challenge !! k)
    by (intros k; exact (requested_lookup _ _ _ k Hp)).
  unfold pushed_parameters. rewrite !Forall_cons, Forall_nil. cbn [fst snd].
  split_and!; try done; (rewrite Hk by by vm_compute; set_solver); unfold begin_params;
    by destruct expectsJARMResponse.
Qed.

Definition requests_code (r : sessionRecord) (code body : string) : Prop :=
  ∃ form, body = encodeForm form ∧
    Forall (λ p, form !! p.1 = Some p.2)
      [("grant_type", "authorization_code"); ("code", code);
       ("code_verifier", sr_PKCEVerifier r); ("redirect_uri", coerce_utf8 (sr_RedirectURI r))].

Record completes (req : BeginAuthorizationRequest) (r : sessionRecord) (t : TokenSet) (w w' : world)
    : Prop := {
  cm_request : ∃ code l, sent w w' l ∧ 1 ≤ length l ≤ 2 ∧
    Forall (posted token_endpoint (requests_code r code)) l;
  cm_tokens : tokens_for (sr_Nonce r) t;
  cm_nonce : ts_HasIDToken t = true → Tokens.vi_Nonce (ts_IDTokenClaims t) = sr_Nonce r;
  cm_openid : "openid" ∈ ba_Scope req → ts_HasIDToken t = true;
  cm_acr : ts_HasIDToken t = true → ba_EssentialACRValues req ≠ [] →
    Tokens.vi_ACR (ts_IDTokenClaims t) ∈ coerce_utf8 <$> ba_EssentialACRValues req;
  cm_age : ba_HasMaxAge req = true → ∃ now,
    IsZero (Tokens.vi_AuthTime (ts_IDTokenClaims t)) = false ∧
    (Sub now (Tokens.vi_AuthTime (ts_IDTokenClaims t)) ≤
      int64 (Z.quot (ba_MaxAge req) Second * Second + li_MaxClockSkew (cc_Limits cfg)))%Z }.

(** The record of a begun session, read back. *)
Lemma begun_record req s r challenge params n w w' record :
  begins req s r challenge params n w w' → decodeSessionRecord (ns_Record n) = Some record →
  record = coerced r ∧ sr_Nonce record = sr_Nonce r ∧ sr_Nonce r ≠ "" ∧
  sr_PKCEVerifier record = sr_PKCEVerifier r ∧
  (ba_HasMaxAge req = true → maxAge record = (Z.quot (ba_MaxAge req) Second * Second, true)%Z) ∧
  (ba_HasMaxAge req = false → (maxAge record).2 = false).
Proof.
  intros Hb Hd. destruct (bg_stored _ _ _ _ _ _ _ _ Hb) as (Henc & _).
  pose proof (bg_record _ _ _ _ _ _ _ _ Hb) as Hr.
  destruct (bg_random _ _ _ _ _ _ _ _ Hb) as ((b & Hnb & Hbne) & b' & Hvb).
  assert (Hage : ba_HasMaxAge req = true → (0 ≤ Z.quot (ba_MaxAge req) Second ≤ maxSessionMaxAgeSeconds)%Z).
  { intros Hhas. pose proof (bg_params _ _ _ _ _ _ _ _ Hb) as Hp. unfold setRequestedParameters in Hp.
    apply bind_Ok in Hp as (m & Hm & _). rewrite Hhas in Hm.
    apply bind_Ok in Hm as (secs & Hsecs & _). unfold maxAgeSeconds in Hsecs.
    apply bind_Ok in Hsecs as ([] & H1%guard_err_Ok%bool_decide_eq_true & Hsecs).
    apply bind_Ok in Hsecs as ([] & H2%guard_err_Ok%bool_decide_eq_true & _). split; [|done].
    apply Z.quot_pos; [done|]. by unfold Second. }
  assert (Hint : from_option is_int64 True (sr_MaxAgeSeconds r)).
  { rewrite Hr. cbn [newSessionRecord sr_MaxAgeSeconds]. destruct (ba_HasMaxAge req); [|done].
    specialize (Hage eq_refl). unfold maxSessionMaxAgeSeconds in Hage. cbn [from_option].
    unfold is_int64, MinInt64, MaxInt64. lia. }
  rewrite (decode_encoded _ _ Henc Hint) in Hd. destruct (record_ok _); [|done].
  injection Hd as <-. cbn [coerced sr_Nonce sr_PKCEVerifier].
  rewrite Hnb, Hvb, !coerce_utf8_valid by apply encoded_ValidString.
  split; [done|]. split; [done|]. split; [by apply encoded_nonempty|]. split; [done|].
  unfold maxAge, coerced. cbn [sr_MaxAgeSeconds]. rewrite Hr. cbn [newSessionRecord sr_MaxAgeSeconds].
  destruct (ba_HasMaxAge req); [|done]. split; [|done]. intros _. f_equal. apply int64_id.
  specialize (Hage eq_refl). unfold maxSessionMaxAgeSeconds, Second, is_int64, MinInt64, MaxInt64 in *. lia.
Qed.


(** * What a foreign response can do *)

(** The callback's iss is not the client's issuer, or is missing though one is
    required. *)
Definition foreign_issuer (form : gmap string string) : Prop :=
  match form !! "iss" with
  | Some iss => iss ≠ Issuer
  | None => cc_AuthorizationResponseIssPolicy cfg = RequireAuthorizationResponseIss
  end.

(** The callback is not of the session its user agent holds. *)
Definition foreign_state (cb : AuthorizationCallback) (form : gmap string string) : Prop :=
  cc_CallbackBinding cfg = CallbackBindingSessionHandle ∧ form !! "state" ≠ Some (cb_Session cb).

Lemma paramString_form (form : gmap string string) k :
  forallb (λ p, ValidString p.1 && ValidString p.2) (map_to_list form) = true →
  paramString (marshal_string <$> form) k = form !! k.
Proof.
  intros Hall. unfold paramString. rewrite lookup_fmap. destruct (form !! k) as [v|] eqn:Hk; [|done].
  rewrite forallb_forall in Hall.
  specialize (Hall (k, v) (proj1 (list_elem_of_In _ _) (proj2 (elem_of_map_to_list _ _ _) Hk))).
  apply andb_true_iff in Hall as [_ Hv]. simpl in *. by rewrite coerce_utf8_valid.
Qed.

Lemma handle_stops cb w r w' :
  HandleAuthorizationResponse cb w = (r, w') →
  (∀ params mode w0 w1, parseCallbackParams cb w0 = (Ok (params, mode), w1) →
     mode = responseModePlain ∧
     (checkAuthorizationResponseIss params ≠ Ok tt ∨ ∀ state, ¬ callback_state cb params state)) →
  ∃ e, r = Err e ∧ w_sessions w' = w_sessions w ∧ w_sent w' = w_sent w.
Proof.
  unfold HandleAuthorizationResponse. intros Hr Hstop.
  destruct (checkTrustChain w) as [[[]|e] w1] eqn:H1; unfold ebind at 1 in Hr; rewrite H1 in Hr;
    destruct (acts_quiet _ _ _ _ _ (acts_checkTrustChain _) H1) as (Hs1 & Hl1 & _);
    [|injection Hr as <- <-; by exists e].
  destruct (parseCallbackParams cb w1) as [[[params mode]|e] w2] eqn:H2; unfold ebind at 1 in Hr;
    rewrite H2 in Hr; destruct (acts_quiet _ _ _ _ _ (acts_parse _ _) H2) as (Hs2 & Hl2 & _);
    [|injection Hr as <- <-; exists e; split_and!; congruence].
  destruct (Hstop _ _ _ _ H2) as [-> Hbad]. unfold ebind at 1, lift at 1 in Hr.
  rewrite bool_decide_true in Hr by done.
  destruct (checkAuthorizationResponseIss params) as [[]|e] eqn:Hiss;
    [|injection Hr as <- <-; exists e; split_and!; congruence].
  destruct Hbad as [|Hst]; [done|]. unfold ebind at 1 in Hr.
  destruct (consumeCallbackSession cb params responseModePlain w2) as [[rec|e] w3] eqn:H3.
  { destruct (consume_Ok _ _ _ _ _ _ H3) as (state & ? & ? & Hcs & _). by destruct (Hst state). }
  injection Hr as <- <-. exists e. split; [done|]. unfold consumeCallbackSession in H3.
  set (state := default "" _) in H3. specialize (Hst state). unfold ebind at 1, lift at 1 in H3.
  destruct (bool_decide_reflect (state = "")) as [He|Hne]; simpl in H3.
  { injection H3 as _ <-. split; congruence. }
  set (session := if bool_decide (cb_Session cb = "") && _ then _ else _) in H3.
  unfold ebind at 1, lift at 1 in H3. destruct (bool_decide_reflect (session = "")) as [He|Hnes]; simpl in H3.
  { injection H3 as _ <-. split; congruence. }
  unfold ebind at 1, lift at 1 in H3. destruct (bool_decide_reflect (state = session)) as [He|Hd]; simpl in H3.
  2: { injection H3 as _ <-. split; congruence. }
  exfalso. apply Hst. split; [done|]. split; [subst state; by destruct (paramString params "state")|].
  destruct (bool_decide_reflect (cb_Session cb = "")) as [Hs|Hs]; [|by left].
  destruct (bool_decide_reflect (cc_CallbackBinding cfg = CallbackBindingDeviceLocalStore))
    as [Hdl|Hdl]; [by right|by left].
Qed.


(** * How many requests, and where to *)

Definition sends {E A} (url : string) (n : nat) (m : eff world E A) : Prop :=
  ∀ w r w', m w = (r, w') → ∃ l, sent w w' l ∧ length l ≤ n ∧ Forall (λ q, req_URL q = url) l.

Lemma acts_sends {E A} url (B : string → Prop) lo hi (Q : A → Prop) (m : eff world E A) :
  acts (posted url B) lo hi Q m → sends url hi m.
Proof.
  intros Hm w r w' Hr. destruct (Hm _ _ _ Hr) as (_ & l & Hl & Hn & HP & _). exists l.
  split; [done|]. split; [done|]. eapply Forall_impl; [exact HP|]. by intros q [Hu _].
Qed.

Lemma sends_then {E A B} url n (Q : A → Prop) (m : eff world E A) (k : A → eff world E B) :
  acts (λ _, False) 0 0 Q m → (∀ a, Q a → sends url n (k a)) → sends url n (ebind m k).
Proof.
  intros Hm Hk w r w' Hr. unfold ebind in Hr. destruct (m w) as [[a|e] w1] eqn:Hmw;
    destruct (acts_quiet _ _ _ _ _ Hm Hmw) as (_ & Hl & HQ).
  - destruct (Hk a (HQ a eq_refl) _ _ _ Hr) as (l & Hs & Hrest). exists l. split; [|done].
    unfold sent in *. by rewrite Hs, Hl.
  - injection Hr as <- <-. exists []. unfold sent. rewrite Hl, app_nil_r. repeat split; [simpl; lia|done].
Qed.

Lemma sends_silent {E A B} url n (m : eff world E A) (k : A → eff world E B) :
  sends url n m → (∀ a w r w', k a w = (r, w') → w_sent w' = w_sent w) → sends url n (ebind m k).
Proof.
  intros Hm Hk w r w' Hr. unfold ebind in Hr. destruct (m w) as [[a|e] w1] eqn:Hmw.
  - destruct (Hm _ _ _ Hmw) as (l & Hl & Hrest). exists l. split; [|done]. unfold sent in *.
    by rewrite (Hk _ _ _ _ Hr), Hl.
  - injection Hr as <- <-. by apply (Hm _ _ _ Hmw).
Qed.

Definition says_nothing (w w' : world) : Prop := w_sent w' = w_sent w.
#[local] Instance says_nothing_preorder : PreOrder says_nothing.
Proof. split; [done|]. unfold says_nothing. intros ???. congruence. Qed.

Lemma handle_silent cb : respects says_nothing (HandleAuthorizationResponse cb).
Proof.
  assert (Hq : ∀ E A (Q : A → Prop) (m : eff world E A),
    acts (λ _, False) 0 0 Q m → respects says_nothing m).
  { intros E A Q m Hm w r w' Hr. by destruct (acts_quiet _ _ _ _ _ Hm Hr) as (_ & ? & _). }
  assert (Hcons : ∀ params mode, respects says_nothing (consumeCallbackSession cb params mode)).
  { intros params mode. unfold consumeCallbackSession, Now, on_env. frame;
      apply (respects_zoom says_nothing); by intros. }
  unfold HandleAuthorizationResponse.
  apply (respects_bind _); [eapply Hq, acts_checkTrustChain|intros _].
  apply (respects_bind _); [eapply Hq, acts_parse|intros [params mode]].
  apply (respects_bind _); [apply (respects_lift _)|intros _].
  apply (respects_bind _); [apply Hcons|intros record].
  destruct (callbackDenied params); [apply (respects_lift _)|]. cbv zeta.
  destruct (bool_decide _); [apply (respects_fail _)|]. destruct (maxAge record). apply (respects_ret _).
Qed.

Lemma begin_sends req : sends par_endpoint 2 (BeginAuthorization req).
Proof.
  unfold BeginAuthorization. eapply sends_then; [apply acts_checkTrustChain|intros _ _].
  eapply sends_then; [apply acts_lift|intros redirect _].
  eapply sends_then; [apply acts_internal, acts_random|intros state _].
  eapply sends_then; [apply acts_internal, acts_random|intros nonce _].
  eapply sends_then; [apply acts_internal, acts_verifier|intros verifier _].
  eapply sends_then; [apply acts_map_err, acts_lift|intros challenge _].
  eapply sends_then; [apply acts_Now|intros now _].
  eapply sends_then; [apply acts_lift|intros params Hp].
  apply sends_silent.
  - eapply acts_sends, acts_push. rewrite (requested_lookup _ _ _ _ Hp) by by vm_compute; set_solver.
    unfold begin_params. destruct expectsJARMResponse; by vm_compute.
  - intros body. change (respects says_nothing
      match DecodeResult body with
      | Some uri => do* createSession state (newSessionRecord req redirect nonce verifier) now in
          ret {| as_url := with_query (Append (url_RawQuery (ep_Authorization (cc_Endpoints cfg)))
                   (Encode [("client_id", cc_ClientID cfg); ("request_uri", uri)]))
                   (ep_Authorization (cc_Endpoints cfg));
                 as_handle := state; as_expiresAt := Add now (li_SessionLifetime (cc_Limits cfg)) |}
      | None => fail (newError ErrorInvalidResponse)
      end).
    unfold createSession. frame. apply (respects_zoom says_nothing); by intros.
Qed.

(** C31. No call sends more than two requests, a second only to answer a challenge,
    and all go to the one endpoint configured for them: credentials and codes
    are sent nowhere else, whatever the answers. *)
Theorem client_requests_bounded req cb resp refresh tokens :
  sends par_endpoint 2 (BeginAuthorization req) ∧
  sends token_endpoint 0 (HandleAuthorizationResponse cb) ∧
  sends token_endpoint 2 (ExchangeCode resp) ∧
  sends token_endpoint 2 (CompleteAuthorization cb) ∧
  sends token_endpoint 2 (RefreshTokens refresh) ∧
  sends revocation_endpoint 2 (RevokeToken tokens).
Proof.
  assert (Hh : sends token_endpoint 0 (HandleAuthorizationResponse cb)).
  { intros w r w' Hr. exists []. unfold sent. rewrite app_nil_r. split; [by eapply handle_silent|].
    by split. }
  split; [apply begin_sends|]. split; [done|]. split; [eapply acts_sends, acts_ExchangeCode|].
  split; [|split; [eapply acts_sends, acts_RefreshTokens|eapply acts_sends, acts_RevokeToken]].
  intros w r w' Hr. unfold CompleteAuthorization, ebind in Hr.
  destruct (HandleAuthorizationResponse cb w) as [[res|e] w1] eqn:Hhw;
    destruct (Hh _ _ _ Hhw) as ([|q l] & Hl & Hn & _); try (simpl in Hn; lia);
    unfold sent in Hl; rewrite app_nil_r in Hl.
  2: { injection Hr as <- <-. exists []. unfold sent. rewrite app_nil_r. split; [done|].
       split; [simpl; lia|done]. }
  destruct res as [resp'|code description].
  2: { injection Hr as <- <-. exists []. unfold sent. rewrite app_nil_r. split; [done|].
       split; [simpl; lia|done]. }
  destruct (ExchangeCode resp' w1) as [x w2] eqn:Hx.
  destruct (acts_sends _ _ _ _ _ _ (acts_ExchangeCode resp') _ _ _ Hx) as (l & Hs & Hrest).
  exists l. split; [|done]. unfold sent in *. rewrite <-Hl, <-Hs.
  by destruct x; injection Hr as <- <-.
Qed.

(** C22. Refreshed tokens stay the same user's, issuer's and client's, and name no
    resource the tokens they were obtained with did not: the refresh token
    went to the token endpoint alone. *)
Theorem refreshed_tokens_same_user req w t w' :
  RefreshTokens req w = (Ok t, w') →
  refreshes req t ∧ w_sessions w' = w_sessions w ∧
  ∃ l, sent w w' l ∧ 1 ≤ length l ≤ 2 ∧
    Forall (posted token_endpoint (λ body, ∃ form, body = encodeForm form ∧
      form !! "grant_type" = Some "refresh_token" ∧
      form !! "refresh_token" = Some (ts_RefreshToken (rt_Tokens req)))) l.
Proof.
  intros Hr. destruct (acts_run _ _ _ _ _ _ _ _ (acts_RefreshTokens req) Hr)
    as (Hs & Href & l & Hl & Hlen & HP).
  split; [done|]. split; [done|]. exists l. do 2 (split; [done|]).
  eapply Forall_impl; [exact HP|]. intros q [Hu (params & res & Hp & form & Hq & Hsub)].
  split; [done|]. destruct (refreshParameters_Ok _ _ _ Hp) as (_ & Hg & Ht & _).
  exists form. split_and!; [done|by eapply lookup_weaken..].
Qed.
End executions.

(** * On a concrete client

    Mutual TLS, against an authorization server that answers every request
    with the same text. *)

#[local] Existing Instances signing_platform signing_jose example_signer Sessions.session_store.

Definition issuer_url : ParsedURL := {|
  url_Scheme := "https"; url_Opaque := ""; url_HasUser := false; url_Host := "op.example.com";
  url_Hostname := "op.example.com"; url_Port := ""; url_Path := ""; url_EscapedPath := "";
  url_RawQuery := ""; url_ForceQuery := false; url_Fragment := ""; url_RawFragment := "" |}.

Definition example_state : string := EncodeToString rawURL (string_of (replicate 32 114%N)).

Definition client_id_token : string := made_text (IssueIDToken "op" ES256 "s1" {|
  idp_Issuer := "https://op.example.com"; idp_Subject := "alice"; idp_Audience := "c1";
  idp_Nonce := example_state; idp_AuthTime := signed_at; idp_ACR := "gold"; idp_AMR := [];
  idp_AccessToken := ""; idp_Now := signed_at; idp_Lifetime := 60 * Second;
  idp_Parameters := ∅ |} 0).

Definition example_config : Client.Config := {|
  cc_Issuer := issuer_url; cc_ClientID := "c1"; cc_RedirectURI := "https://rp.example.com/cb";
  cc_CallbackBinding := CallbackBindingSessionHandle;
  cc_Endpoints := {| ep_Authorization := issuer_url; ep_Token := token_url;
                     ep_PushedAuthorizationRequest := token_url; ep_Revocation := None;
                     ep_BackchannelAuthentication := Some token_url |};
  cc_Profile := ProfileFAPISecurity;
  cc_Algorithms := {|
    al_ClientAuthentication := 0%N; al_RequestObject := 0%N; al_DPoP := 0%N; al_JARM := 0%N;
    al_IDToken := ES256; al_IDTokenKeyManagement := 0%N; al_IDTokenContentEncryption := 0%N;
    al_ClientAttestationPoP := 0%N; al_BackchannelAuthenticationRequest := ES256 |};
  cc_Limits := {|
    li_ClientAssertionLifetime := 60 * Second; li_RequestObjectLifetime := 60 * Second;
    li_SessionLifetime := 600 * Second; li_MaxJARMResponseLifetime := 600 * Second;
    li_MaxIDTokenLifetime := 600 * Second; li_MaxClockSkew := 10 * Second;
    li_MaxHTTPResponseBytes := 1000; li_MaxJOSECompactBytes := DefaultMaxCompactBytes;
    li_BackchannelAuthenticationRequestLifetime := 60 * Second |};
  cc_AuthorizationResponseIssPolicy := RequireAuthorizationResponseIss;
  cc_TrustedIDTokenAudiences := []; cc_PARDPoPBinding := PARDPoPBindingProof;
  cc_PushedRequestEncoding := PushedRequestEncodingProfileDefault;
  cc_SenderConstrain := SenderConstrainMTLS;
  cc_ClientAuthMethod := ClientAuthMethodTLSClientAuth; cc_OAuthOnly := false;
  cc_BackchannelTokenDeliveryMode := BackchannelTokenDeliveryModePing |}.

Definition example_client : ClientLib nat Sessions.SessionStore InMemoryDPoPNonceCache := {|
  cfg := example_config;
  trustChainExpiresAt := zero_time;
  clock_Now s := (read_at, s);
  http_Do _ := ret {| res_Followed := false; res_TLS := true; res_StatusCode := 200;
                      res_Header := ∅; res_Body := "answer"; res_BodyError := false |};
  Keys_PublicKey := None;
  keyManagerSigner _ _ k _ := k;
  IssuerKeys_nil := false;
  ResolveIssuerKeys _ := ret (["op"] : list (@PublicKey signing_jose));
  jwe_Decrypt _ := fail ErrDecrypt;
  CurrentAttestation := fail tt;
  CurrentChallenge := None;
  json_Decode s :=
    if bool_decide (s = "answer") then Raw (JObj [
      ("request_uri", JStr "urn:example:1"); ("expires_in", JNum (Number false 60 0));
      ("access_token", JStr "at1"); ("token_type", JStr "bearer"); ("refresh_token", JStr "rt1");
      ("id_token", JStr client_id_token)])
    else RawInvalid;
  ToLower s := s |}.
#[local] Existing Instance example_client.

Definition example_begin : BeginAuthorizationRequest := {|
  ba_Scope := ["openid"; "accounts"]; ba_RedirectPort := 0; ba_ACRValues := [];
  ba_MaxAge := 300 * Second; ba_HasMaxAge := true; ba_EssentialACRValues := ["gold"];
  ba_Extensions := ∅; ba_AuthorizationDetails := [];
  ba_Claims := {| rc_IDToken := []; rc_UserInfo := [] |}; ba_Resource := [] |}.

Definition start : @World nat Sessions.SessionStore InMemoryDPoPNonceCache := {|
  w_env := 0; w_sessions := ∅; w_nonces := ∅; w_challenge := ""; w_sent := [] |}.
Definition after_begin := (BeginAuthorization example_begin start).2.

(** The callback of the session begun, naming an issuer. *)
Definition example_callback (iss : string) : AuthorizationCallback := {|
  cb_RawQuery := Encode [("code", "code1"); ("iss", iss); ("state", example_state)];
  cb_Session := example_state |}.
Definition own_callback : AuthorizationCallback := example_callback "https://op.example.com".
Definition after_complete := (CompleteAuthorization own_callback after_begin).2.
Definition example_tokens : option TokenSet :=
  match (CompleteAuthorization own_callback after_begin).1 with
  | Ok (CompletionSuccess t) => Some t
  | _ => None
  end.
Definition is_begun (r : result Error AuthorizationSession) : bool :=
  match r with Ok s => bool_decide (as_handle s = example_state) | Err _ => false end.

Example example_begins : is_begun (BeginAuthorization example_begin start).1 = true.
Proof. vm_compute. reflexivity. Qed.
Example example_completes :
  (λ t, (ts_Subject t, ts_HasIDToken t, ts_Scope t)) <$> example_tokens =
    Some ("alice", true, "openid accounts").
Proof. vm_compute. reflexivity. Qed.

Definition begun_session : AuthorizationSession :=
  match (BeginAuthorization example_begin start).1 with
  | Ok s => s
  | Err _ => {| as_url := issuer_url; as_handle := ""; as_expiresAt := 0 |}
  end.
Lemma begin_runs : BeginAuthorization example_begin start = (Ok begun_session, after_begin).
Proof. vm_compute. reflexivity. Qed.

Definition answered : CallbackResult :=
  match (HandleAuthorizationResponse own_callback after_begin).1 with
  | Ok r => r
  | Err _ => CallbackDenied "" ""
  end.
Definition after_answer := (HandleAuthorizationResponse own_callback after_begin).2.

Definition no_tokens : TokenSet := {|
  ts_AccessToken := ""; ts_TokenType := ""; ts_Scope := ""; ts_AuthorizationDetails := RawNil;
  ts_ExpiresIn := 0; ts_HasExpiresIn := false; ts_ObtainedAt := 0; ts_IDToken := "";
  ts_HasIDToken := false; ts_Subject := ""; ts_IDTokenClaims := no_claims; ts_RefreshToken := "";
  ts_HasRefreshToken := false; ts_Issuer := ""; ts_Resource := [] |}.
Definition own_tokens : TokenSet := default no_tokens example_tokens.

Lemma session_record_roundtrip_witness :
  ∃ r raw, encodeSessionRecord r = Some raw ∧ decodeSessionRecord raw = Some (with_version r).
Proof.
  set (r := newSessionRecord example_begin "https://rp.example.com/cb" example_state example_state).
  destruct (session_record_roundtrip r) as (raw & Hraw).
  - repeat (apply Forall_cons; split); try apply Forall_nil; vm_compute; reflexivity.
  - vm_compute. reflexivity.
  - by exists r, raw.
Defined.

Lemma form_roundtrip_witness :
  let form : gmap string string := {["code" := "a b&c"; "state" := "100%"]} in
  DecodeForm (EncodeForm form) = Ok form.
Proof.
  intros form. etrans; [apply (form_roundtrip form)|].
  - apply (bool_decide_unpack _). vm_compute. exact I.
  - rewrite bool_decide_false; [done|]. apply (bool_decide_unpack _). vm_compute. exact I.
Defined.

Lemma session_answered_once_witness :
  ∃ e, (CompleteAuthorization own_callback after_answer).1 = Err e.
Proof.
  destruct (session_answered_once own_callback own_callback after_begin answered after_answer
    after_answer (CompleteAuthorization own_callback after_answer).1
    (CompleteAuthorization own_callback after_answer).2) as (e & He & _).
  - done.
  - done.
  - vm_compute. reflexivity.
  - apply rtc_refl.
  - apply surjective_pairing.
  - by exists e.
Defined.



Definition example_refresh : RefreshTokenRequest := {|
  rt_Tokens := own_tokens; rt_Scope := []; rt_Resource := [] |}.

Lemma client_requests_bounded_witness : sends par_endpoint 2 (BeginAuthorization example_begin).
Proof.
  apply (client_requests_bounded example_begin own_callback {|
    ar_issuer := ""; ar_clientID := ""; ar_code := ""; ar_redirectURI := ""; ar_pkceVerifier := "";
    ar_nonce := ""; ar_maxAge := 0; ar_hasMaxAge := false; ar_openID := false;
    ar_essentialACR := []; ar_resource := []; ar_scope := [] |} example_refresh own_tokens).
Defined.

Lemma refreshed_tokens_same_user_witness :
  let r := RefreshTokens example_refresh after_complete in
  ∃ t, r.1 = Ok t ∧ refreshes example_refresh t.
Proof.
  intros r. destruct r.1 as [t|e] eqn:Ht.
  - exists t. split; [done|].
    apply (refreshed_tokens_same_user example_refresh after_complete t r.2).
    rewrite <-Ht. apply surjective_pairing.
  - exfalso. revert Ht. vm_compute. discriminate.
Defined.
