(* ===== verification/TokenSigning.v ===== *)
(** The access tokens and ID tokens the server signs (Signing.v) are accepted
    by the resource server's and the client's checks (Tokens.v), and read back
    as what was signed; a proof of possession of a client instance's key
    (Client.v) is accepted by the server's check (Attestation.v). *)
From S2P Require Import Prelude GoStrings Json GoTime Sha256 Base64 Platform JsonCodec.
From S2P Require Import Effects Storage ServerTypes Numeric Claims Dpop Jose Canonical.
From S2P Require Import RequestObject Tokens Attestation ClientAuth ServerState.
From S2P Require Import Parameters Completion.
From S2P Require Import Signing Client SigningTheorems.
From stdpp Require Import options.

Set Default Proof Using "Type*".

(** * Claims that are left out when empty *)

Lemma coerced_strings l :
  Forall (λ s, ValidString s = true) l → JStr ∘ coerce_utf8 <$> l = JStr <$> l.
Proof.
  induction 1 as [|s l Hs _ IH]; [done|]. rewrite !fmap_cons, IH. simpl.
  by rewrite coerce_utf8_valid.
Qed.

Lemma claim_if_utf8 b name raw :
  ValidString name = true → utf8_raw raw →
  Forall (λ p, ValidString p.1 = true ∧ utf8_raw p.2) (claim_if b name raw).
Proof. destruct b; simpl; auto. Qed.

(** An optional claim is there when its value is. *)
Lemma id_token_claims_lookup p h k :
  assoc k (id_token_claims p h) =
    if String.eqb "iss" k then Some (marshal_string (idp_Issuer p))
    else if String.eqb "sub" k then Some (marshal_string (idp_Subject p))
    else if String.eqb "aud" k then Some (marshal_string (idp_Audience p))
    else if String.eqb "exp" k
    then Some (marshal_int (unix_seconds (Add (idp_Now p) (idp_Lifetime p))))
    else if String.eqb "iat" k then Some (marshal_int (unix_seconds (idp_Now p)))
    else if String.eqb "nonce" k
    then (if negb (bool_decide (idp_Nonce p = "")) then Some (marshal_string (idp_Nonce p)) else None)
    else if String.eqb "auth_time" k
    then (if negb (IsZero (idp_AuthTime p))
          then Some (marshal_int (unix_seconds (idp_AuthTime p))) else None)
    else if String.eqb "acr" k
    then (if negb (bool_decide (idp_ACR p = "")) then Some (marshal_string (idp_ACR p)) else None)
    else if String.eqb "amr" k
    then (if negb (bool_decide (idp_AMR p = []))
          then Some (Raw (JArr (JStr ∘ coerce_utf8 <$> idp_AMR p))) else None)
    else if String.eqb "at_hash" k
    then (if negb (bool_decide (idp_AccessToken p = "")) then Some (marshal_string h) else None)
    else None.
Proof.
  unfold id_token_claims. rewrite !assoc_app, !assoc_claim_if. cbn [assoc].
  repeat match goal with
  | |- context [String.eqb ?a k] => destruct (String.eqb_spec a k); [subst; cbn; try done|]
  end; try done; by destruct (negb _).
Qed.

Lemma id_token_claims_names p h : (id_token_claims p h).*1 ⊆ setByIssuer Claims.IDToken.
Proof.
  unfold id_token_claims. rewrite !fmap_app. unfold claim_if.
  repeat destruct (negb _); included.
Qed.

Lemma id_token_claims_utf8 p h kid :
  ValidString h = true → Forall (λ s, ValidString s = true) ([idp_Issuer p; idp_Subject p;
    idp_Audience p; idp_Nonce p; idp_ACR p; kid] ++ idp_AMR p) →
  Forall (λ p, ValidString p.1 = true ∧ utf8_raw p.2) (id_token_claims p h).
Proof.
  intros Hh Hu. apply Forall_app in Hu as [Hu Ha]. repeat (apply Forall_cons in Hu as [? Hu]).
  assert (utf8_raw (Raw (JArr (JStr ∘ coerce_utf8 <$> idp_AMR p)))).
  { rewrite coerced_strings by done. eexists. split; [done|]. cbn [utf8_json].
    apply forallb_forall. intros j (s & -> & Hs)%list_elem_of_In%list_elem_of_fmap.
    rewrite Forall_forall in Ha. by apply Ha. }
  unfold id_token_claims. apply Forall_app_2; [repeat constructor; simpl; auto with utf8|].
  repeat apply Forall_app_2; apply claim_if_utf8; auto with utf8.
Qed.
Section theorems.
Context {St : Type} `{Platform} `{J : JoseCrypto} `{!JoseSigner St} `{!SigningLaws St}.

(** * Access tokens *)

Definition jwt_audiences (p : JWTParams) : list string :=
  match ja_Audiences p with [] => [ja_Audience p] | l => l end.

Record accepts_token (p : JWTParams) (policy : Tokens.AccessTokenValidatePolicy) : Prop := {
  at_issuer : Tokens.ExpectedIssuer policy = ja_Issuer p;
  at_audience : Tokens.ExpectedAudience policy ∈ jwt_audiences p ∧ Tokens.ExpectedAudience policy ≠ "";
  at_algorithm : Tokens.Algorithm policy = ja_Algorithm p;
  at_time : in_time (ja_Now p) (ja_Lifetime p) (Tokens.Policy_Now policy)
    (Tokens.MaxLifetime policy) (Tokens.Policy_MaxClockSkew policy);
  at_made : (0 ≤ unix_seconds (ja_Now p))%Z;
  at_params : utf8_map (ja_Parameters p);
  at_nbf : ja_Parameters p !! "nbf" = None;
  at_utf8 : Forall (λ s, ValidString s = true) ([ja_Issuer p; ja_Subject p; ja_ClientID p; ja_Scope p;
    ja_KeyID p] ++ jwt_audiences p);
  at_utf8_cnf : ∀ c, ja_Confirmation p = Some c →
    ValidString (Tokens.JKT c) = true ∧ ValidString (Tokens.X5TS256 c) = true }.

Definition created_token (p : JWTParams) (jti : string) : Tokens.AccessTokenClaims := {|
  Tokens.at_Issuer := ja_Issuer p; Tokens.at_Subject := ja_Subject p;
  Tokens.at_Audience := jwt_audiences p; Tokens.at_ClientID := ja_ClientID p;
  Tokens.at_Scope := ja_Scope p;
  Tokens.at_ExpiresAt := Unix (unix_seconds (Add (ja_Now p) (ja_Lifetime p)));
  Tokens.at_IssuedAt := Unix (unix_seconds (ja_Now p)); Tokens.at_NotBefore := zero_time;
  Tokens.at_JTI := jti; Tokens.at_Confirmation := ja_Confirmation p;
  Tokens.at_Parameters := ja_Parameters p |}.

Lemma checkReserved_None kind params k :
  checkReservedParameters kind params = true → Reserved kind Embedder k = true → params !! k = None.
Proof.
  intros Hall Hk. unfold checkReservedParameters in Hall. rewrite forallb_forall in Hall.
  destruct (params !! k) as [r|] eqn:Hl; [|done].
  specialize (Hall (k, r) (proj1 (list_elem_of_In _ _) (proj2 (elem_of_map_to_list _ _ _) Hl))).
  simpl in Hall. by rewrite Hk in Hall.
Qed.

Lemma popAudience_written key m p :
  m !! key = Some (accessTokenAudience_of p) → validateAccessTokenAudiences p = true →
  Forall (λ s, ValidString s = true) (jwt_audiences p) →
  Tokens.popStringOrStringSlice key m = Ok (jwt_audiences p, delete key m).
Proof.
  intros Hk Hv Hu. unfold Tokens.popStringOrStringSlice. rewrite Hk. clear Hk.
  unfold validateAccessTokenAudiences in Hv. apply andb_true_iff in Hv as [Hone Hall].
  unfold accessTokenAudience_of, jwt_audiences in *.
  destruct (ja_Audiences p) as [|a [|b l]].
  - apply Forall_cons in Hu as [Hu _]. rewrite unmarshal_marshal_string by done.
    rewrite bool_decide_false; [done|]. intros Ha. rewrite Ha in Hone. done.
  - apply Forall_cons in Hu as [Hu _]. rewrite unmarshal_marshal_string by done.
    cbn in Hall. rewrite andb_true_r in Hall. by rewrite bool_decide_false by (by apply ne_of_check).
  - rewrite coerced_strings by done. cbn [unmarshal_string].
    unfold Tokens.unmarshal_string_slice. cbn [unmarshal_slice mbind option_bind].
    rewrite mapM_dec_str. rewrite (bool_decide_false (_ = [])) by done.
    rewrite bool_decide_false; [done|]. intros Hin. rewrite forallb_forall in Hall.
    specialize (Hall "" (proj1 (list_elem_of_In _ _) Hin)). done.
Qed.

Lemma confirmation_utf8 c :
  ValidString (Tokens.JKT c) = true → ValidString (Tokens.X5TS256 c) = true →
  utf8_raw (confirmation_json c) ∧ Tokens.decode_confirmation (confirmation_json c) = Some c.
Proof.
  intros Hj Hx. unfold confirmation_json.
  destruct (encode_members _) as [l|] eqn:Hm.
  2: { exfalso. revert Hm. unfold string_field_omit, enc_str_omit. by do 2 case_bool_decide. }
  split.
  { exists (JObj l). split; [done|]. eapply encode_members_utf8; [|exact Hm].
    repeat apply Forall_cons_2; try apply Forall_nil_2; auto with utf8. }
  unfold Tokens.decode_confirmation. pose proof (field_case_encoded _ _ Hm) as Hcase.
  change (field_case_ok Tokens.confirmation_names l = true) in Hcase. rewrite Hcase.
  assert (Hall : forallb (λ p, bool_decide (p.1 ∈ Tokens.confirmation_names)) l = true).
  { apply forallb_forall. intros x Hx2%list_elem_of_In. apply bool_decide_eq_true.
    pose proof (encode_members_names _ _ Hm) as Hn. rewrite Forall_forall in Hn. by apply Hn. }
  rewrite Hall. cbn [andb]. read_fields Hm. by destruct c.
Qed.

Lemma pop_confirmation_written m (c : option Tokens.Confirmation) :
  m !! "cnf" = (confirmation_json <$> c) →
  match c with
  | Some c => ValidString (Tokens.JKT c) = true ∧ ValidString (Tokens.X5TS256 c) = true ∧
      Bool.eqb (bool_decide (Tokens.JKT c = "")) (bool_decide (Tokens.X5TS256 c = "")) = false
  | None => True
  end →
  Tokens.pop_confirmation m = Ok (c, delete "cnf" m).
Proof.
  intros Hm Hc. unfold Tokens.pop_confirmation. rewrite Hm.
  destruct c as [c|]; simpl; [|by rewrite delete_id].
  destruct Hc as (Hj & Hx & Hb). destruct (confirmation_utf8 c Hj Hx) as [_ ->]. by rewrite Hb.
Qed.

Lemma jwt_claims_scope p jti :
  assoc "scope" (jwt_claims p jti) =
    if negb (bool_decide (ja_Scope p = "")) then Some (marshal_string (ja_Scope p)) else None.
Proof. cbn. destruct (negb _); [done|]. by destruct (ja_Confirmation p). Qed.

Lemma jwt_claims_cnf p jti : assoc "cnf" (jwt_claims p jti) = confirmation_json <$> ja_Confirmation p.
Proof. cbn. destruct (negb _); cbn; by destruct (ja_Confirmation p). Qed.

Lemma jwt_claims_names p jti : (jwt_claims p jti).*1 ⊆ setByIssuer Claims.AccessToken.
Proof.
  unfold jwt_claims. rewrite !fmap_app. unfold claim_if.
  destruct (negb _), (ja_Confirmation p); included.
Qed.

Lemma access_token_members_read p jti :
  validateAccessTokenParams p = true → jti ≠ "" → ValidString jti = true →
  ja_Parameters p !! "nbf" = None →
  Forall (λ s, ValidString s = true)
    ([ja_Issuer p; ja_Subject p; ja_ClientID p; ja_Scope p; ja_KeyID p] ++ jwt_audiences p) →
  (∀ c, ja_Confirmation p = Some c →
    ValidString (Tokens.JKT c) = true ∧ ValidString (Tokens.X5TS256 c) = true) →
  date_ok (unix_seconds (ja_Now p)) → date_ok (unix_seconds (Add (ja_Now p) (ja_Lifetime p))) →
  Tokens.access_token_members (set_claims (jwt_claims p jti) (ja_Parameters p)) =
    Ok (created_token p jti).
Proof.
  unfold validateAccessTokenParams. rewrite !andb_true_iff.
  intros [[[[[[[[_ Hi%ne_of_check] Hs%ne_of_check] Haud] Hc%ne_of_check] _] _] Hres] Hcnf].
  intros Hj Hvj Hnbf Hutf Hcu Hd1 Hd2.
  apply Forall_app in Hutf as [Hutf Hua].
  repeat (apply Forall_cons in Hutf as [? Hutf]).
  assert (Hnone : ∀ k, k ∈ setByIssuer Claims.AccessToken → ja_Parameters p !! k = None).
  { intros k Hk. eapply checkReserved_None; [done|]. unfold Reserved, listed.
    by rewrite (bool_decide_true (k ∈ _)). }
  unfold Tokens.access_token_members.
  erewrite popString_written; [|by rewrite lookup_set_claims|done|done]. cbn [rbind].
  erewrite popString_written; [|by rewrite !lookup_delete_ne, lookup_set_claims by done|done|done].
  cbn [rbind].
  erewrite popAudience_written; [|by rewrite !lookup_delete_ne, lookup_set_claims by done|done|done].
  cbn [rbind].
  erewrite popString_written; [|by rewrite !lookup_delete_ne, lookup_set_claims by done|done|done].
  cbn [rbind]. unfold Tokens.popAccessTokenTimes.
  erewrite popInt64_written; [|by rewrite !lookup_delete_ne, lookup_set_claims by done|done].
  cbn [rbind].
  erewrite popInt64_written; [|by rewrite !lookup_delete_ne, lookup_set_claims by done|done].
  cbn [rbind]. unfold Tokens.peekNotBefore. rewrite !lookup_delete_ne, lookup_set_claims by done.
  assert (Hno : assoc "nbf" (jwt_claims p jti) = None).
  { cbn. destruct (negb _); cbn; by destruct (ja_Confirmation p). }
  rewrite Hno, Hnbf. cbn [rbind].
  erewrite popString_written; [|by rewrite !lookup_delete_ne, lookup_set_claims by done|done|done].
  cbn [rbind].
  match goal with |- context [Tokens.popString "scope" false ?m] =>
    destruct (popString_optional "scope" m (ja_Scope p)) as [b ->] end; [|done|].
  { rewrite !lookup_delete_ne, lookup_set_claims, jwt_claims_scope by done.
    destruct (negb _); [done|]. apply Hnone. by do 4 right; left. }
  cbn [rbind]. rewrite (pop_confirmation_written _ (ja_Confirmation p)).
  2: { rewrite !lookup_delete_ne, lookup_set_claims, jwt_claims_cnf by done.
    destruct (ja_Confirmation p); [done|]. by apply Hnone; do 8 right; left. }
  2: { destruct (ja_Confirmation p) as [c|]; [|done]. destruct (Hcu c eq_refl). split_and!; [done..|].
    by apply negb_true_iff. }
  cbn [rbind]. unfold created_token. do 2 f_equal.
  apply (delete_claims ["cnf"; "scope"; "jti"; "iat"; "exp"; "client_id"; "aud"; "sub"; "iss"]).
  - etrans; [apply jwt_claims_names|]. included.
  - apply Forall_forall. intros k Hk. apply Hnone. revert k Hk. included.
Qed.

Lemma accessTokenAudience_utf8 p :
  Forall (λ s, ValidString s = true) (jwt_audiences p) → utf8_raw (accessTokenAudience_of p).
Proof.
  unfold jwt_audiences, accessTokenAudience_of.
  destruct (ja_Audiences p) as [|a [|b l]]; intros Hu;
    [apply Forall_cons in Hu as [? _]; by apply marshal_string_utf8..|].
  rewrite coerced_strings by done. eexists. split; [done|]. cbn [utf8_json].
  apply forallb_forall. intros j (s & -> & Hs)%list_elem_of_In%list_elem_of_fmap.
  rewrite Forall_forall in Hu. by apply Hu.
Qed.

Lemma jwt_claims_utf8 p jti :
  ValidString jti = true → Forall (λ s, ValidString s = true)
    ([ja_Issuer p; ja_Subject p; ja_ClientID p; ja_Scope p; ja_KeyID p] ++ jwt_audiences p) →
  (∀ c, ja_Confirmation p = Some c →
    ValidString (Tokens.JKT c) = true ∧ ValidString (Tokens.X5TS256 c) = true) →
  Forall (λ p, ValidString p.1 = true ∧ utf8_raw p.2) (jwt_claims p jti).
Proof.
  intros Hj Hu Hc. apply Forall_app in Hu as [Hu Ha%accessTokenAudience_utf8].
  repeat (apply Forall_cons in Hu as [? Hu]). unfold jwt_claims.
  apply Forall_app_2; [repeat constructor; simpl; auto with utf8|].
  apply Forall_app_2; [apply claim_if_utf8; auto with utf8|].
  destruct (ja_Confirmation p) as [c|]; [|done]. destruct (Hc c eq_refl) as [Hj' Hx].
  repeat constructor. apply (confirmation_utf8 c Hj' Hx).
Qed.

(** No instant a verifier's clock reads is before [time.Time{}]. *)
Lemma zero_not_after now skew made :
  (0 ≤ unix_seconds made)%Z → (made ≤ now + skew)%Z → After zero_time (Add now skew) = false.
Proof.
  intros Hm Hn. unfold After. apply bool_decide_eq_false. unfold Add, zero_time, Second.
  unfold unix_seconds, Second in Hm. pose proof (Z.mul_div_le made 1000000000). lia.
Qed.

(** C33. An access token the server signs is accepted by the resource servers it is
    for, its subject, client, scope, binding and claims as they were issued. *)
Theorem created_token_accepted p s tok jti s1 max policy :
  IssueJWTAccessToken p s = (Ok (tok, jti), s1) → accepts_token p policy →
  String.length tok ≤ max →
  ∃ t, Tokens.ParseAccessTokenMax tok max = Ok t ∧ Tokens.AccessToken_KeyID t = ja_KeyID p ∧
    Tokens.Validate t (signer_Public (ja_Signer p)) policy =
      Ok (Tokens.validated (created_token p jti)).
Proof.
  intros Hrun [] Hlen. unfold IssueJWTAccessToken in Hrun. inv_require.
  apply ebind_Ok in Hrun as (jti' & s2 & Hjti & Hrun).
  destruct (randomJTI_Ok _ _ _ Hjti) as [Hne Hjv].
  apply ebind_Ok in Hrun as (tok' & s3 & Hrun & [[= -> ->] ->]%ret_Ok).
  destruct (it_dates _ _ _ _ _ at_time0) as [Hd1 Hd2].
  match goal with Hv : validateAccessTokenParams p = true |- _ => rename Hv into Hval end.
  pose proof (access_token_members_read p jti' Hval Hne Hjv at_nbf0 at_utf9 at_utf8_cnf0 Hd1 Hd2) as Hmem.
  pose proof at_utf9 as Hu. apply Forall_app in Hu as [Hu Hua].
  repeat (apply Forall_cons in Hu as [? Hu]).
  destruct (sign_claims_parses _ _ _ _ _ _ _ max MarshalUnescaped_reads
    Hrun) as (c & Hc & Hhd & Hpay & Hv); [by apply plain_header_good| |done|].
  { apply set_claims_utf8; [|done]. by apply jwt_claims_utf8. }
  unfold Tokens.ParseAccessTokenMax. rewrite Hc, Hhd. cbn [hd_Type plain_header].
  change (TypeIs Tokens.atJWTType Tokens.atJWTType) with true. cbn [guard_err rbind].
  unfold Tokens.parseAccessTokenClaims. rewrite Hpay, Hmem. cbn [rbind].
  eexists. split; [done|]. split; [unfold Tokens.AccessToken_KeyID; simpl; by rewrite Hhd|].
  unfold Tokens.Validate. cbn [Tokens.at_claims Tokens.at_compact].
  unfold validateAccessTokenParams in Hval. rewrite !andb_true_iff in Hval.
  destruct Hval as [[[[[[[[_ Hi%ne_of_check] _] _] _] _] _] _] _]. destruct at_audience0 as [Hin Hane].
  cbn [hd_Algorithm plain_header] in Hv. rewrite at_issuer0, at_algorithm0, Hv.
  rewrite (bool_decide_false (ja_Issuer p = "")), (bool_decide_false (_ = "")) by done.
  rewrite (it_now _ _ _ _ _ at_time0), (bool_decide_true (0 < _)%Z) by (destruct at_time0; lia).
  cbn [negb guard_err rbind created_token Tokens.at_Issuer Tokens.at_Audience].
  rewrite (bool_decide_true (ja_Issuer p = _)) by done. unfold Tokens.containsString at 1.
  rewrite (bool_decide_true (_ ∈ jwt_audiences p)) by done. cbn [orb guard_err rbind].
  unfold Tokens.checkAccessTokenTimes.
  cbn [Tokens.at_ExpiresAt Tokens.at_IssuedAt Tokens.at_NotBefore created_token].
  rewrite (in_time_lifetime at_time0), (in_time_issued at_time0). cbn [negb guard_err rbind].
  destruct at_time0. by rewrite (zero_not_after _ _ (ja_Now p)).
Qed.

(** * ID tokens *)

Record accepts_id_token (alg : SignatureAlgorithm) (kid : string) (p : IDTokenParams)
    (policy : Tokens.IDTokenValidatePolicy) : Prop := {
  ai_issuer : Tokens.ip_ExpectedIssuer policy = idp_Issuer p;
  ai_audience : Tokens.ip_ExpectedAudience policy = idp_Audience p;
  ai_algorithm : Tokens.ip_Algorithm policy = alg;
  ai_nonce : Tokens.ip_ExpectedNonce policy = "" ∨ Tokens.ip_ExpectedNonce policy = idp_Nonce p;
  ai_token : idp_AccessToken p = "" ∨ Tokens.ip_AccessToken policy = idp_AccessToken p;
  ai_time : in_time (idp_Now p) (idp_Lifetime p) (Tokens.ip_Now policy)
    (Tokens.ip_MaxLifetime policy) (Tokens.ip_MaxClockSkew policy);
  ai_age : (Sub (Tokens.ip_Now policy) (Unix (unix_seconds (idp_Now p))) ≤
            Tokens.ip_MaxLifetime policy)%Z;
  ai_auth_time : IsZero (idp_AuthTime p) = true ∨
    (0 ≤ unix_seconds (idp_AuthTime p) ≤ Max)%Z ∧
    (idp_AuthTime p ≤ Tokens.ip_Now policy + Tokens.ip_MaxClockSkew policy)%Z;
  ai_params : utf8_map (idp_Parameters p);
  ai_utf8 : Forall (λ s, ValidString s = true) ([idp_Issuer p; idp_Subject p; idp_Audience p;
    idp_Nonce p; idp_ACR p; kid] ++ idp_AMR p) }.

(** What the ID token says of the authentication. *)
Definition created_auth_time (p : IDTokenParams) : Time :=
  if IsZero (idp_AuthTime p) then zero_time else Unix (unix_seconds (idp_AuthTime p)).

Definition created_id_token (p : IDTokenParams) (atHash : string) : Tokens.IDTokenClaims := {|
  Tokens.id_Issuer := idp_Issuer p; Tokens.id_Subject := idp_Subject p;
  Tokens.id_Audience := [idp_Audience p];
  Tokens.id_ExpiresAt := Unix (unix_seconds (Add (idp_Now p) (idp_Lifetime p)));
  Tokens.id_IssuedAt := Unix (unix_seconds (idp_Now p)); Tokens.id_Nonce := idp_Nonce p;
  Tokens.id_AuthTime := created_auth_time p; Tokens.id_ACR := idp_ACR p;
  Tokens.id_AMR := idp_AMR p; Tokens.id_AZP := ""; Tokens.id_ATHash := atHash;
  Tokens.id_Parameters := idp_Parameters p |}.

Lemma popStringSlice_optional key m l :
  m !! key = (if negb (bool_decide (l = [])) then Some (Raw (JArr (JStr ∘ coerce_utf8 <$> l)))
              else None) →
  Forall (λ s, ValidString s = true) l →
  ∃ b, Tokens.popStringSlice key m = Ok (l, b, delete key m).
Proof.
  case_bool_decide as Hl; simpl; intros Hk Hv; unfold Tokens.popStringSlice; rewrite Hk.
  - subst. exists false. by rewrite delete_id.
  - rewrite coerced_strings by done. unfold Tokens.unmarshal_string_slice.
    cbn [unmarshal_slice mbind option_bind]. rewrite mapM_dec_str, bool_decide_false by done. eauto.
Qed.

Lemma popAudience_string key m s :
  m !! key = Some (marshal_string s) → ValidString s = true → s ≠ "" →
  Tokens.popStringOrStringSlice key m = Ok ([s], delete key m).
Proof.
  intros Hk Hs Hne. unfold Tokens.popStringOrStringSlice. rewrite Hk, unmarshal_marshal_string by done.
  by rewrite bool_decide_false.
Qed.

(** The at_hash is not empty, and is the one a validator computes. *)
Lemma substring_nonempty n s : 0 < n → s ≠ "" → String.substring 0 n s ≠ "".
Proof. destruct n, s; simpl; done || lia. Qed.

Lemma id_token_at_hash_Ok alg p (s : St) h s' :
  id_token_at_hash alg p s = (Ok h, s') →
  ValidString h = true ∧
  if bool_decide (idp_AccessToken p = "") then h = ""
  else h ≠ "" ∧ Tokens.computeATHash (idp_AccessToken p) alg = Ok h.
Proof.
  unfold id_token_at_hash. case_bool_decide as Ht.
  { by intros [-> ->]%ret_Ok. }
  intros [Hc ->]%map_err_Ok%lift_Ok.
  assert (Hh : ∃ b, h = EncodeToString rawURL b ∧ b ≠ "").
  { unfold Tokens.computeATHash in Hc.
    destruct (_ || _); [|destruct (bool_decide _); [|done]]; injection Hc as <-;
      (eexists; split; [done|]); apply substring_nonempty; try lia.
    - pose proof (sha256_length (idp_AccessToken p)) as Hl. by intros Hs; rewrite Hs in Hl.
    - pose proof (sha512_length (idp_AccessToken p)) as Hl. by intros Hs; rewrite Hs in Hl. }
  destruct Hh as (b & -> & Hb). split; [apply encoded_ValidString|].
  split; [by apply encoded_nonempty|done].
Qed.

(** What is still to be popped of the claim at hand. *)
Ltac claim Hl :=
  rewrite ?lookup_delete_ne by done; rewrite Hl, id_token_claims_lookup;
  cbn [String.eqb Ascii.eqb Bool.eqb].

Lemma id_token_members_read alg kid p h :
  validateIDTokenParams alg p = true →
  ValidString h = true → (if bool_decide (idp_AccessToken p = "") then h = "" else h ≠ "") →
  Forall (λ s, ValidString s = true) ([idp_Issuer p; idp_Subject p; idp_Audience p;
    idp_Nonce p; idp_ACR p; kid] ++ idp_AMR p) →
  date_ok (unix_seconds (idp_Now p)) → date_ok (unix_seconds (Add (idp_Now p) (idp_Lifetime p))) →
  IsZero (idp_AuthTime p) = true ∨ (0 ≤ unix_seconds (idp_AuthTime p) ≤ Max)%Z →
  Tokens.id_token_members (set_claims (id_token_claims p h) (idp_Parameters p)) =
    Ok (created_id_token p h).
Proof.
  unfold validateIDTokenParams. rewrite !andb_true_iff.
  intros [[[[[[_ Hi%ne_of_check] Hs%ne_of_check] Ha%ne_of_check] _] _] Hres] Hvh Hh Hu Hd1 Hd2 Hauth.
  apply Forall_app in Hu as [Hu Hamr]. repeat (apply Forall_cons in Hu as [? Hu]).
  assert (Hnone : ∀ k, k ∈ "azp" :: setByIssuer Claims.IDToken → idp_Parameters p !! k = None).
  { intros k Hk. eapply checkReserved_None; [done|]. apply elem_of_cons in Hk as [->|Hk]; [done|].
    unfold Reserved, listed. by rewrite (bool_decide_true (k ∈ _)). }
  assert (Hl : ∀ k, set_claims (id_token_claims p h) (idp_Parameters p) !! k =
    match assoc k (id_token_claims p h) with Some r => Some r | None => idp_Parameters p !! k end)
    by (intros; apply lookup_set_claims).
  assert (Hopt : ∀ k (b : bool) r, k ∈ setByIssuer Claims.IDToken →
    match (if b then Some r else None) with Some r => Some r | None => idp_Parameters p !! k end =
    if b then Some r else None).
  { intros k [] r Hk; [done|]. by apply Hnone; right. }
  set (m := set_claims (id_token_claims p h) (idp_Parameters p)) in *.
  assert (Hm : delete "at_hash" (delete "azp" (delete "amr" (delete "acr" (delete "auth_time"
    (delete "nonce" (delete "iat" (delete "exp" (delete "aud" (delete "sub" (delete "iss" m))))))))))
    = idp_Parameters p).
  { apply (delete_claims ["at_hash"; "azp"; "amr"; "acr"; "auth_time"; "nonce"; "iat"; "exp"; "aud";
      "sub"; "iss"]).
    - etrans; [apply id_token_claims_names|]. included.
    - apply Forall_forall. intros k Hk. apply Hnone. revert k Hk. included. }
  clearbody m. unfold Tokens.id_token_members.
  rewrite (popString_written _ _ _ (idp_Issuer p)); [|by claim Hl|done|done]. cbn [rbind].
  rewrite (popString_written _ _ _ (idp_Subject p)); [|by claim Hl|done|done]. cbn [rbind].
  rewrite (popAudience_string _ _ (idp_Audience p)); [|by claim Hl|done|done]. cbn [rbind].
  erewrite popInt64_written; [|by claim Hl|done]. cbn [rbind].
  erewrite popInt64_written; [|by claim Hl|done]. cbn [rbind].
  match goal with |- context [Tokens.popString "nonce" false ?m'] =>
    destruct (popString_optional "nonce" m' (idp_Nonce p)) as [b1 ->] end;
    [claim Hl; apply Hopt; by do 5 right; left|done|]. cbn [rbind].
  match goal with |- context [Tokens.popInt64 "auth_time" false ?m'] =>
    rewrite (popInt64_optional "auth_time" m' (unix_seconds (idp_AuthTime p))
      (negb (IsZero (idp_AuthTime p)))) end.
  2: { claim Hl. apply Hopt. by do 6 right; left. }
  2: { destruct Hauth as [Hz%bool_decide_eq_true| [? ?]]; [|split; [|done]; unfold MinInt64; lia].
    rewrite Hz. by split. }
  cbn [rbind].
  assert (Hneg : negb (negb (IsZero (idp_AuthTime p)) &&
    bool_decide ((if negb (IsZero (idp_AuthTime p)) then unix_seconds (idp_AuthTime p) else 0) < 0)%Z)
    = true).
  { destruct (IsZero (idp_AuthTime p)) eqn:Hz; [done|]. cbn [negb andb].
    destruct Hauth as [?|[? _]]; [done|]. by rewrite bool_decide_false by lia. }
  rewrite Hneg. cbn [guard_err rbind].
  match goal with |- context [Tokens.popString "acr" false ?m'] =>
    destruct (popString_optional "acr" m' (idp_ACR p)) as [b2 ->] end;
    [claim Hl; apply Hopt; by do 7 right; left|done|]. cbn [rbind].
  match goal with |- context [Tokens.popStringSlice "amr" ?m'] =>
    destruct (popStringSlice_optional "amr" m' (idp_AMR p)) as [b3 ->] end;
    [claim Hl; apply Hopt; by do 8 right; left|done|]. cbn [rbind].
  match goal with |- context [Tokens.popString "azp" false ?m'] =>
    destruct (popString_optional "azp" m' "") as [b4 ->] end;
    [claim Hl; apply Hnone; by left|done|]. cbn [rbind].
  match goal with |- context [Tokens.popString "at_hash" false ?m'] =>
    destruct (popString_optional "at_hash" m' h) as [b5 ->] end.
  { claim Hl. rewrite Hopt by (by do 9 right; left). by repeat case_bool_decide; simplify_eq. }
  { done. }
  cbn [rbind]. rewrite Hm. unfold created_id_token, created_auth_time.
  by destruct (IsZero (idp_AuthTime p)).
Qed.

(** The nonce, audience, times, at_hash and auth_time pass. *)
Lemma created_id_token_checks alg kid p policy h :
  accepts_id_token alg kid p policy →
  (if bool_decide (idp_AccessToken p = "") then h = ""
   else h ≠ "" ∧ Tokens.computeATHash (idp_AccessToken p) alg = Ok h) →
  Tokens.checkIDTokenAudience (created_id_token p h) policy = Ok tt ∧
  Tokens.check_id_token_times (created_id_token p h) policy = Ok tt ∧
  Tokens.checkATHash (created_id_token p h) policy = Ok tt.
Proof.
  intros [] Hh. split_and!.
  - unfold Tokens.checkIDTokenAudience.
    cbn [Tokens.id_Audience Tokens.id_AZP created_id_token forallb length]. rewrite ai_audience0.
    rewrite !(bool_decide_true (idp_Audience p = _)) by done. unfold Tokens.containsString.
    rewrite (bool_decide_true (idp_Audience p ∈ [idp_Audience p])) by (by left).
    by rewrite (bool_decide_false (1 < 1)), (bool_decide_true (_ = "")) by (done || lia).
  - unfold Tokens.check_id_token_times.
    cbn [Tokens.id_ExpiresAt Tokens.id_IssuedAt Tokens.id_AuthTime created_id_token].
    rewrite (in_time_unexpired ai_time0), (in_time_lifetime ai_time0), (in_time_issued ai_time0).
    rewrite (bool_decide_false (_ < Sub _ _)%Z) by lia. cbn [negb guard_err rbind].
    unfold Tokens.checkAuthTime, created_auth_time.
    destruct (IsZero (idp_AuthTime p)) eqn:Hz; [done|].
    assert (After (Unix (unix_seconds (idp_AuthTime p)))
      (Add (Tokens.ip_Now policy) (Tokens.ip_MaxClockSkew policy)) = false) as ->;
      [|by rewrite andb_false_r].
    unfold After, Add. apply bool_decide_eq_false. pose proof (unix_seconds_below (idp_AuthTime p)).
    destruct ai_auth_time0 as [?|[_ ?]]; [congruence|lia].
  - unfold Tokens.checkATHash. cbn [Tokens.id_ATHash created_id_token].
    destruct (bool_decide_reflect (idp_AccessToken p = "")) as [Ht|Ht]; [by subst|].
    destruct Hh as [Hne Hh]. rewrite (bool_decide_false (h = "")) by done.
    destruct ai_token0 as [?|Htok]; [done|]. rewrite Htok, ai_algorithm0, Hh.
    rewrite (bool_decide_false (idp_AccessToken p = "")) by done. cbn. by rewrite bool_decide_true.
Qed.

(** An ID token the server signs is accepted by the client it is for, and says
    what was issued: its subject, nonce, acr, amr, time of authentication and
    claims. *)
Theorem created_id_token_accepted signer alg kid p s tok s1 max policy :
  IssueIDToken signer alg kid p s = (Ok tok, s1) → accepts_id_token alg kid p policy →
  String.length tok ≤ max →
  ∃ t h, Tokens.ParseIDTokenMax tok max = Ok t ∧ Tokens.IDToken_KeyID t = kid ∧
    Tokens.ValidateID t (signer_Public signer) policy =
      Ok (Tokens.validated_id (created_id_token p h)).
Proof.
  intros Hrun Hacc Hlen. unfold IssueIDToken in Hrun. inv_require.
  match goal with Hv : validateIDTokenParams alg p = true |- _ => rename Hv into Hval end.
  apply ebind_Ok in Hrun as (h & s2 & [Hvh Hh]%id_token_at_hash_Ok & Hrun).
  destruct (created_id_token_checks _ _ _ _ h Hacc Hh) as (Haud & Htimes & Hat). destruct Hacc.
  destruct (it_dates _ _ _ _ _ ai_time0) as [Hd1 Hd2].
  pose proof ai_utf9 as Hu. apply Forall_app in Hu as [Hu _].
  repeat (apply Forall_cons in Hu as [? Hu]).
  destruct (sign_claims_parses _ _ _ _ _ _ _ max MarshalUnescaped_reads Hrun)
    as (c & Hc & Hhd & Hpay & Hv); [by apply plain_header_good| |done|].
  { apply set_claims_utf8; [|done]. by eapply id_token_claims_utf8. }
  assert (Hmem : Tokens.id_token_members (set_claims (id_token_claims p h) (idp_Parameters p)) =
    Ok (created_id_token p h)).
  { eapply id_token_members_read; [done|done| |done|done|done|naive_solver].
    revert Hh. case_bool_decide; naive_solver. }
  unfold Tokens.ParseIDTokenMax. rewrite Hc, Hhd. cbn [hd_Type plain_header].
  change (RequireGenericType "") with true. cbn [guard_err rbind].
  unfold Tokens.parseIDTokenClaims. rewrite Hpay, Hmem. cbn [rbind].
  eexists _, h. split; [done|]. split; [unfold Tokens.IDToken_KeyID; simpl; by rewrite Hhd|].
  unfold Tokens.ValidateID. cbn [Tokens.id_claims Tokens.id_compact].
  unfold validateIDTokenParams in Hval. rewrite !andb_true_iff in Hval.
  destruct Hval as [[[[[[_ Hi%ne_of_check] _] Ha%ne_of_check] _] _] _].
  cbn [hd_Algorithm plain_header] in Hv. rewrite ai_issuer0, ai_audience0, ai_algorithm0, Hv.
  rewrite (bool_decide_false (idp_Issuer p = "")), (bool_decide_false (idp_Audience p = "")) by done.
  rewrite (it_now _ _ _ _ _ ai_time0), (bool_decide_true (0 < _)%Z) by (destruct ai_time0; lia).
  cbn [negb guard_err rbind]. change (Tokens.id_Issuer (created_id_token p h)) with (idp_Issuer p).
  rewrite (bool_decide_true (idp_Issuer p = _)), Haud, Htimes, Hat by done. cbn [guard_err rbind].
  change (Tokens.id_Nonce (created_id_token p h)) with (idp_Nonce p).
  destruct ai_nonce0 as [->| ->]; [done|].
  by rewrite (bool_decide_true (idp_Nonce p = idp_Nonce p)), orb_true_r.
Qed.
End theorems.

(** * Proofs of possession *)

Section proofs_of_possession.
Context {St : Type} `{Platform} `{J : JoseCrypto} `{!JoseSigner St} `{!SigningLaws St}.
Import Client.

(** A verifier for the instance that made the proof, within the time it takes
    one. *)
Record accepts_pop (req : PoPCreateRequest) (tok : string) {R}
    (policy : Attestation.PoPVerifyPolicy R) (jwk : json) : Prop := {
  ap_client : Attestation.pp_ClientID policy = pop_ClientID req;
  ap_audience : Attestation.pp_ExpectedAudience policy = pop_Audience req;
  ap_challenge : Attestation.pp_ExpectedChallenge policy = "" ∨
    Attestation.pp_ExpectedChallenge policy = pop_Challenge req;
  ap_key : validateKeyForAlgorithm (signer_Public (pop_Signer req)) (pop_Algorithm req) = true ∧
    jwk_MarshalJSON (signer_Public (pop_Signer req)) (pop_Algorithm req) = Some jwk;
  ap_now : IsZero (Attestation.pp_Now policy) = false;
  ap_age : (0 < Attestation.pp_MaxAge policy)%Z;
  ap_made : (pop_Now req ≤ Attestation.pp_Now policy + Attestation.pp_MaxClockSkew policy)%Z;
  ap_fresh : (Sub (Attestation.pp_Now policy) (Unix (unix_seconds (pop_Now req))) ≤
    Attestation.pp_MaxAge policy)%Z;
  ap_date : date_ok (unix_seconds (pop_Now req)) ∧ unix_seconds (pop_Now req) ≠ 0%Z;
  ap_utf8 : ValidString (pop_ClientID req) = true ∧ ValidString (pop_Audience req) = true ∧
    ValidString (pop_Challenge req) = true;
  ap_size : String.length tok ≤ DefaultMaxCompactBytes }.

Lemma reads_aud s :
  ValidString s = true → reads Attestation.dec_aud "" (string_field s) s.
Proof.
  intros Hs. unfold string_field. rewrite coerce_utf8_valid by done. split; [|done].
  by intros j [= <-].
Qed.

Definition created_pop_claims (req : PoPCreateRequest) (jti : string) : Attestation.popClaims := {|
  Attestation.p_Issuer := pop_ClientID req; Attestation.p_Audience := pop_Audience req;
  Attestation.p_JTI := jti; Attestation.p_IssuedAt := unix_seconds (pop_Now req);
  Attestation.p_ExpiresAt := 0; Attestation.p_Challenge := pop_Challenge req;
  Attestation.p_NotBefore := 0 |}.

Lemma pop_claims_read req jti members :
  pop_claims req jti = Some members → ValidString jti = true → jti ≠ "" → pop_Audience req ≠ "" →
  ValidString (pop_ClientID req) = true → ValidString (pop_Audience req) = true →
  ValidString (pop_Challenge req) = true →
  date_ok (unix_seconds (pop_Now req)) → unix_seconds (pop_Now req) ≠ 0%Z →
  Attestation.parsePoPClaims (json_Marshal (JObj members)) = Some (created_pop_claims req jti).
Proof.
  intros Hm Hjti Hjne Hane Hc Ha Hch Hiat Hiat0. unfold pop_claims in Hm.
  assert (Hutf : utf8_json (JObj members) = true).
  { eapply encode_members_utf8; [|exact Hm].
    repeat apply Forall_cons_2; try apply Forall_nil_2; auto with utf8. }
  destruct (Marshal_reads _ Hutf) as (Htext & _ & _).
  unfold Attestation.parsePoPClaims, strict_members. rewrite Htext.
  pose proof (field_case_encoded _ _ Hm) as Hcase.
  change (field_case_ok Attestation.pop_names members = true) in Hcase. rewrite Hcase.
  pose proof (reads_aud _ Ha). cbn [mbind option_bind]. read_fields Hm.
  by rewrite !bool_decide_false by done.
Qed.

(** A proof of possession a client instance makes is accepted by the server it
    names, for the key its attestation confirms: it is refused only as a
    replay. *)
Theorem created_pop_accepted {R} (req : PoPCreateRequest) s tok s1
    (policy : Attestation.PoPVerifyPolicy R) jwk :
  CreatePoP req s = (Ok tok, s1) → accepts_pop req tok policy jwk →
  ∃ p jti instanceKey, Attestation.ParsePoP tok = Some p ∧
    Attestation.PoP_Algorithm p = pop_Algorithm req ∧ jti ≠ "" ∧
    jwk_Thumbprint (signer_Public (pop_Signer req)) = Some instanceKey ∧
  let iat := Unix (unix_seconds (pop_Now req)) in
  ∀ r, Attestation.VerifyPoP policy p (Raw jwk) r =
    ebind (match Attestation.pp_Replay policy with
           | None => ret tt
           | Some UseOnce => map_err (λ _, Attestation.ErrReplay)
               (UseOnce instanceKey jti (Add iat (SaturatingAdd
                 [Attestation.pp_MaxAge policy; Attestation.pp_MaxClockSkew policy;
                  Attestation.pp_MaxClockSkew policy])))
           end)
      (λ _, ret {| Attestation.vp_ClientID := pop_ClientID req; Attestation.vp_IssuedAt := iat;
                   Attestation.vp_InstanceKey := instanceKey |}) r.
Proof.
  intros Hrun [Hcl Haud Hch [Hval Hjwk] Hnow Hage Hmade Hfresh [Hd Hd0] (Hvc & Hva & Hvch) Hsize].
  unfold CreatePoP in Hrun. inv_require.
  apply ebind_Ok in Hrun as (jti & s2 & Hjti & Hrun).
  destruct (randomJTI_Ok _ _ _ Hjti) as [Hne Hjv].
  destruct (pop_claims req jti) as [members|] eqn:Hm; [|done].
  assert (Hcne : pop_ClientID req ≠ "") by
    (by apply (bool_decide_eq_false (pop_ClientID req = "")), negb_true_iff).
  assert (Hane : pop_Audience req ≠ "") by
    (by apply (bool_decide_eq_false (pop_Audience req = "")), negb_true_iff).
  pose proof (pop_claims_read _ _ _ Hm Hjv Hne Hane Hvc Hva Hvch Hd Hd0) as Hclaims.
  destruct (jose_Sign_parses _ _ _ _ _ _ DefaultMaxCompactBytes Hrun) as (c & Hc & Hhd & Hpay & Hv);
    [by apply plain_header_good|done|].
  destruct (signer_key_works _ _ Hval) as [instanceKey Hthumb].
  destruct (jwk_reads _ _ _ Hval Hjwk) as [_ Hparse].
  unfold Attestation.ParsePoP, jose_ParseCompact. rewrite Hc. cbn [mbind option_bind].
  rewrite Hpay, Hclaims. cbn [fmap option_fmap option_map].
  eexists _, jti, instanceKey. split; [done|].
  split; [unfold Attestation.PoP_Algorithm; simpl; by rewrite Hhd|]. split; [done|].
  split; [done|]. intros r. unfold Attestation.VerifyPoP, Attestation.PoP_Algorithm.
  cbn [Attestation.po_claims Attestation.po_compact]. rewrite Hhd, Hcl, Haud, Hnow.
  cbn [hd_Algorithm hd_Type plain_header] in *.
  rewrite (bool_decide_false (pop_ClientID req = "")), (bool_decide_false (pop_Audience req = "")),
    (bool_decide_true (0 < _)%Z) by done.
  rewrite !guard_true by done. rewrite Hparse, (map_lift_true _ _ tt) by done.
  cbn [created_pop_claims Attestation.p_Issuer Attestation.p_Audience Attestation.p_Challenge
    Attestation.p_IssuedAt Attestation.p_JTI].
  rewrite !guard_true by (rewrite ?orb_true_iff, !bool_decide_eq_true; intuition congruence).
  assert (Htimes : Attestation.checkPoPTimes policy (created_pop_claims req jti)
    (Unix (unix_seconds (pop_Now req))) = Ok tt).
  { unfold Attestation.checkPoPTimes. cbn [Attestation.p_ExpiresAt Attestation.p_NotBefore
      created_pop_claims]. unfold After. rewrite (bool_decide_false (_ < Unix _)%Z), (bool_decide_false
      (Attestation.pp_MaxAge policy < _)%Z); [done|lia|].
    unfold Add. pose proof (unix_seconds_below (pop_Now req)). lia. }
  rewrite Htimes, Hthumb. done.
Qed.
End proofs_of_possession.

(** * On the instance of SigningTheorems.v *)

#[local] Existing Instances signing_platform signing_jose example_signer.

Definition example_jwt_params : JWTParams := {|
  ja_Signer := "op"; ja_Algorithm := ES256; ja_KeyID := "s1";
  ja_Issuer := "https://op.example.com"; ja_Subject := "alice"; ja_Audience := "";
  ja_Audiences := ["https://rs.example.com"; "https://rs2.example.com"]; ja_ClientID := "c1";
  ja_Scope := "accounts"; ja_Confirmation := Some {| Tokens.JKT := "key"; Tokens.X5TS256 := "" |};
  ja_Now := signed_at; ja_Lifetime := 60 * Second;
  ja_Parameters := {["tier" := Raw (JStr "gold")]} |}.
Definition example_jwt : string :=
  match (IssueJWTAccessToken example_jwt_params 0).1 with Ok (t, _) => t | Err _ => "" end.
Definition example_jti : string :=
  match (IssueJWTAccessToken example_jwt_params 0).1 with Ok (_, j) => j | Err _ => "" end.
Definition example_token_policy : Tokens.AccessTokenValidatePolicy := {|
  Tokens.ExpectedIssuer := "https://op.example.com";
  Tokens.ExpectedAudience := "https://rs2.example.com"; Tokens.AdditionalAudiences := [];
  Tokens.Algorithm := ES256; Tokens.Policy_Now := read_at; Tokens.MaxLifetime := 300 * Second;
  Tokens.Policy_MaxClockSkew := 0 |}.

Lemma created_token_accepted_witness :
  ∃ t, Tokens.ParseAccessTokenMax example_jwt DefaultMaxCompactBytes = Ok t ∧
    Tokens.AccessToken_KeyID t = "s1" ∧
    Tokens.Validate t (signer_Public "op") example_token_policy =
      Ok (Tokens.validated (created_token example_jwt_params example_jti)).
Proof.
  refine (created_token_accepted example_jwt_params 0 example_jwt example_jti 16
    DefaultMaxCompactBytes example_token_policy _ _ _).
  - vm_compute. reflexivity.
  - split; try (vm_compute; repeat split; reflexivity || discriminate).
    + split; [by right; left|done].
    + apply map_Forall_insert_2; [|apply map_Forall_empty]. split; [done|by eexists].
    + by repeat constructor.
    + by intros c [= <-].
  - apply (bool_decide_unpack _). vm_compute. exact I.
Defined.

Definition example_id_params : IDTokenParams := {|
  idp_Issuer := "https://op.example.com"; idp_Subject := "alice"; idp_Audience := "c1";
  idp_Nonce := "n1"; idp_AuthTime := Unix 1699999990; idp_ACR := "gold"; idp_AMR := ["pwd"; "otp"];
  idp_AccessToken := "token"; idp_Now := signed_at; idp_Lifetime := 60 * Second;
  idp_Parameters := {["email" := Raw (JStr "a@example.com")]} |}.
Definition example_id_token : string := made_text (IssueIDToken "op" ES256 "s1" example_id_params 0).
Definition example_id_policy : Tokens.IDTokenValidatePolicy := {|
  Tokens.ip_ExpectedIssuer := "https://op.example.com"; Tokens.ip_ExpectedAudience := "c1";
  Tokens.ip_TrustedAudiences := []; Tokens.ip_Algorithm := ES256; Tokens.ip_ExpectedNonce := "n1";
  Tokens.ip_AccessToken := "token"; Tokens.ip_Now := read_at;
  Tokens.ip_MaxLifetime := 300 * Second; Tokens.ip_MaxClockSkew := 0 |}.

Lemma created_id_token_accepted_witness :
  ∃ t h, Tokens.ParseIDTokenMax example_id_token DefaultMaxCompactBytes = Ok t ∧
    Tokens.IDToken_KeyID t = "s1" ∧
    Tokens.ValidateID t (signer_Public "op") example_id_policy =
      Ok (Tokens.validated_id (created_id_token example_id_params h)).
Proof.
  refine (created_id_token_accepted "op" ES256 "s1" example_id_params 0 example_id_token 0
    DefaultMaxCompactBytes example_id_policy _ _ _).
  - vm_compute. reflexivity.
  - split; try (vm_compute; repeat split; reflexivity || discriminate).
    + by right.
    + by right.
    + right. vm_compute. repeat split; discriminate.
    + apply map_Forall_insert_2; [|apply map_Forall_empty]. split; [done|by eexists].
    + by repeat constructor.
  - apply (bool_decide_unpack _). vm_compute. exact I.
Defined.

Definition example_pop_request : Client.PoPCreateRequest := {|
  Client.pop_Signer := "key"; Client.pop_Algorithm := ES256; Client.pop_ClientID := "c1";
  Client.pop_Audience := "https://op.example.com"; Client.pop_Now := signed_at;
  Client.pop_Challenge := "" |}.
Definition example_pop : string := made_text (Client.CreatePoP example_pop_request 0).
Definition example_pop_policy : Attestation.PoPVerifyPolicy unit := {|
  Attestation.pp_ClientID := "c1"; Attestation.pp_ExpectedAudience := "https://op.example.com";
  Attestation.pp_ExpectedChallenge := ""; Attestation.pp_Now := read_at;
  Attestation.pp_MaxAge := 60 * Second; Attestation.pp_MaxClockSkew := 0;
  Attestation.pp_Replay := None |}.

Lemma created_pop_accepted_witness :
  ∃ p jti instanceKey, Attestation.ParsePoP example_pop = Some p ∧
    Attestation.PoP_Algorithm p = ES256 ∧ jti ≠ "" ∧
    jwk_Thumbprint (signer_Public "key") = Some instanceKey ∧
  ∀ r, Attestation.VerifyPoP example_pop_policy p (Raw (JStr "key")) r =
    (Ok {| Attestation.vp_ClientID := "c1"; Attestation.vp_IssuedAt := signed_at;
           Attestation.vp_InstanceKey := instanceKey |}, r).
Proof.
  refine (created_pop_accepted example_pop_request 0 example_pop 16 example_pop_policy
    (JStr "key") _ _).
  - vm_compute. reflexivity.
  - split; try (vm_compute; repeat split; reflexivity || discriminate).
    + by left.
    + apply (bool_decide_unpack _). vm_compute. exact I.
Defined.
