(* ===== verification/Resource.v ===== *)
(** The resource server: src/resource/. A Verifier checks that a request to a
    protected resource carries an access token that is valid here and the
    proof that its sender holds the key the token is bound to.

    The class Verifier holds the verifier's configuration and dependencies;
    [VState] is what a request reads and changes: the replay and revocation
    stores, the nonces it hands out, and an environment for the rest (the
    clock, the access token store, the issuer's keys, the mappings of pairwise
    subjects). An error's cause, which only logs read, is left out. *)
From S2P Require Import Prelude GoStrings Json GoTime Sha256 Base64 Pkce Digests Platform.
From S2P Require Import Effects Storage ServerTypes JsonCodec Nonce Records Dpop Jose.
From S2P Require Import Canonical Extensions Tokens Attestation ClientAuth Issue Subjects.
From stdpp Require Import options.

Module Resource.

(** * Errors (errors.go, internal/httperror) *)

Record Error := {
  re_code : string;
  re_httpStatus : Z;
  re_description : string;
  re_nonce : string;
  re_dpopChallenge : bool }.

Definition ErrorInvalidRequest : string := "invalid_request".
Definition ErrorInvalidToken : string := "invalid_token".
Definition ErrorServerError : string := "server_error".
Definition ErrorUseDPoPNonce : string := "use_dpop_nonce".
Definition ErrorInvalidDPoPProof : string := "invalid_dpop_proof".
Definition ErrorInsufficientScope : string := "insufficient_scope".

Definition newError (code : string) (status : Z) (desc : string) : Error := {|
  re_code := code; re_httpStatus := status; re_description := desc; re_nonce := "";
  re_dpopChallenge := false |}.

Definition noCredentials : Error := newError "" 401 "".

Definition with_nonce (n : string) (e : Error) : Error := {|
  re_code := re_code e; re_httpStatus := re_httpStatus e; re_description := re_description e;
  re_nonce := n; re_dpopChallenge := re_dpopChallenge e |}.
Definition set_challenge (b : bool) (e : Error) : Error := {|
  re_code := re_code e; re_httpStatus := re_httpStatus e; re_description := re_description e;
  re_nonce := re_nonce e; re_dpopChallenge := b |}.

Definition IsErrorStatus (status : Z) : bool :=
  bool_decide (400 ≤ status)%Z && bool_decide (status ≤ 599)%Z.

Definition Normalize (code : string) (status : Z) (description : string) (allowEmptyCode : bool)
    : string * Z * string :=
  let description :=
    if negb (bool_decide (description = "")) && negb (IsErrorText description)
    then "" else description in
  let codeOK := IsErrorText code ||
    (bool_decide (code = "") && allowEmptyCode && bool_decide (status = 401%Z)) in
  if negb codeOK || negb (IsErrorStatus status) then ("server_error", 500%Z, description)
  else (code, status, description).

Definition Status (status : Z) : Z := if IsErrorStatus status then status else 500%Z.

Definition NewError (code : string) (status : Z) (description : string) : Error :=
  let '(c, status, desc) := Normalize code status description true in newError c status desc.

(** resourceerr.NewWithCause *)
Definition NewWithCause (code : string) (status : Z) (description : string) : Error :=
  let '(c, status, desc) := Normalize code status description false in newError c status desc.

Definition dpopAlgorithms : string := "ES256 PS256 EdDSA".

(** [s] between double quotes. *)
Definition quoted (s : string) : string := String "034" (s +:+ String "034" "").

(** An HTTP response: its headers, its status, and its JSON body. *)
Record Response := {
  rw_headers : list (string * string);
  rw_status : Z;
  rw_body : option json }.

Definition httperror_WriteJSON (headers : list (string * string)) (nonce challengeScheme code
    description : string) (status : Z) : Response := {|
  rw_headers := headers ++
    (if negb (bool_decide (nonce = "")) then [("DPoP-Nonce", nonce)] else []) ++
    (if negb (bool_decide (challengeScheme = ""))
     then [("WWW-Authenticate", challengeScheme +:+ " error=" +:+ quoted code)] else []) ++
    [("Content-Type", "application/json")];
  rw_status := Status status;
  rw_body := Some (JObj (("error", JStr code) ::
    (if bool_decide (Description description = "") then []
     else [("error_description", JStr (Description description))]))) |}.

Definition WriteJSON (e : Error) : Response :=
  if bool_decide (re_code e = "")
  then {| rw_headers := [("WWW-Authenticate", "Bearer, DPoP algs=" +:+ quoted dpopAlgorithms)];
          rw_status := Status (re_httpStatus e); rw_body := None |}
  else
    let challenge :=
      if re_dpopChallenge e || bool_decide (re_code e = ErrorUseDPoPNonce) ||
         bool_decide (re_code e = ErrorInvalidDPoPProof)
      then "DPoP error=" +:+ quoted (re_code e) +:+ ", algs=" +:+ quoted dpopAlgorithms
      else "Bearer error=" +:+ quoted (re_code e) in
    httperror_WriteJSON [("WWW-Authenticate", challenge)] (re_nonce e) "" (re_code e)
      (re_description e) (re_httpStatus e).

(** * Configuration (config.go, pairwise_resolution.go) *)

Record Limits := {
  MaxDPoPProofAge : Duration;
  MaxClockSkew : Duration;
  DPoPNonceLifetime : Duration }.

(** The iota constants, 0 for none. *)
Definition AssuranceLevel := N.
Definition AssuranceDevelopment : AssuranceLevel := 1%N.
Definition AssuranceProduction : AssuranceLevel := 2%N.
Definition Deployment := N.
Definition DeploymentSingleInstance : Deployment := 1%N.
Definition DeploymentHorizontallyScaled : Deployment := 2%N.
Definition PairwiseResolution := N.
Definition PairwiseClientSubjectsOnly : PairwiseResolution := 1%N.
Definition PairwiseResolution_IsValid (r : PairwiseResolution) : bool :=
  bool_decide (r = 0%N) || bool_decide (r = PairwiseClientSubjectsOnly).

(** A [fapi.URL] is the URL it holds, [None] when it is zero; so is a
    pairwise.Prefix. *)
Record Config := {
  rc_Limits : Limits;
  ResourceURLs : list (option ParsedURL);
  rc_Assurance : AssuranceLevel;
  rc_Deployment : Deployment;
  PairwisePrefix : option string;
  rc_PairwiseResolution : PairwiseResolution }.

(** * Revocation (revocation.go) *)

(** RevocationChecker, with storage.RevocationBatchChecker when it is one, and
    the lifetime of a NoRevocationUntilExpiry. *)
Class RevocationChecker (V : Type) := {
  rv_IsRevoked : string → eff V store_error bool;
  rv_IsAnyRevoked : option (list string → eff V store_error bool);
  unrevocableLifetime : option Duration }.

Definition NoRevocation (V : Type) : RevocationChecker V := {|
  rv_IsRevoked _ := ret false; rv_IsAnyRevoked := None; unrevocableLifetime := None |}.

Definition maxUnrevocableTokenLifetime : Duration := (900 * Second)%Z.

Definition NoRevocationUntilExpiry (V : Type) (MaxTokenLifetime : Duration)
    : RevocationChecker V := {|
  rv_IsRevoked _ := ret false; rv_IsAnyRevoked := None;
  unrevocableLifetime := Some MaxTokenLifetime |}.

(** * Resolving access tokens (accesstoken.go) *)

Definition accessTokenInvalidDescription : string := "access token is invalid".
Definition DefaultMaxAccessTokenBytes : Z := 16384.

Record ResolveAccessTokenRequest := {
  rr_Raw : string;
  rr_Now : Time;
  rr_MaxClockSkew : Duration }.

Record ResolvedAccessToken := {
  rt_Subject : string;
  rt_ClientID : string;
  rt_Scopes : list string;
  rt_Claims : gmap string RawMessage;
  rt_ExpiresAt : Time;
  rt_Thumbprint : string;
  rt_SenderConstrain : SenderConstrain;
  rt_Key : string;
  rt_Issuer : string;
  rt_Audience : list string;
  rt_IssuedAt : Time }.

Record JWTAccessTokens (Env : Type) `{JoseCrypto} := {
  (* ResolveIssuerKeys issuer algorithm keyID *)
  IssuerKeys : string → SignatureAlgorithm → string → eff Env unit (list PublicKey);
  jat_Issuer : string;
  jat_Audience : string;
  jat_AdditionalAudiences : list string;
  jat_Algorithm : SignatureAlgorithm;
  MaxTokenLifetime : Duration;
  MaxKeyCandidates : Z;
  MaxTokenBytes : Z }.
#[global] Arguments IssuerKeys {Env _}. #[global] Arguments jat_Issuer {Env _}.
#[global] Arguments jat_Audience {Env _}. #[global] Arguments jat_AdditionalAudiences {Env _}.
#[global] Arguments jat_Algorithm {Env _}. #[global] Arguments MaxTokenLifetime {Env _}.
#[global] Arguments MaxKeyCandidates {Env _}. #[global] Arguments MaxTokenBytes {Env _}.

Record OpaqueAccessTokens := {
  oat_Issuer : string;
  oat_Audience : string;
  oat_AdditionalAudiences : list string }.

(** What a resolver reports: an [*Error] of its own, a store that can't
    answer, or anything else. *)
Inductive resolver_error := Refused (e : Error) | ResolverUnavailable | ResolverFailed.

(** The bundled resolvers, or an application's own. *)
Inductive AccessTokenResolver (Env : Type) `{JoseCrypto} :=
| JWTResolver (j : JWTAccessTokens Env)
| OpaqueResolver (o : OpaqueAccessTokens)
| OtherResolver (f : ResolveAccessTokenRequest → eff Env resolver_error ResolvedAccessToken).
#[global] Arguments JWTResolver {Env _}. #[global] Arguments OpaqueResolver {Env _}.
#[global] Arguments OtherResolver {Env _}.

Definition storeUnavailable (e : store_error) : bool :=
  match e with StoreUnavailable => true | _ => false end.

Definition lookup_failed (unavailable : bool) : Error :=
  if unavailable then newError ErrorServerError 500 "failed to look up the access token"
  else newError ErrorInvalidToken 401 accessTokenInvalidDescription.
Definition lookupError (e : store_error) : Error := lookup_failed (storeUnavailable e).

(** The claims without the recorded issuer and audience; [None] is an error. *)
Definition recordedIssuerAndAudience (claims : gmap string RawMessage)
    : option (gmap string RawMessage * string * list string) :=
  match claims !! IssuerRecordClaim, claims !! AudienceRecordClaim with
  | None, None => Some (claims, "", [])
  | rawIss, rawAud =>
    match rawIss with
    | None => Some ""
    | Some raw => unmarshal_string raw ≫= λ issuer,
        if bool_decide (issuer = "") then None else Some issuer
    end ≫= λ issuer,
    match rawAud with
    | None => Some []
    | Some raw => Tokens.unmarshal_string_slice raw ≫= λ audience,
        if bool_decide (audience = []) then None else Some audience
    end ≫= λ audience,
    Some (delete AudienceRecordClaim (delete IssuerRecordClaim claims), issuer, audience)
  end.

Definition acceptsAudience (o : OpaqueAccessTokens) (audience : list string) : bool :=
  if bool_decide (oat_Audience o = "") then true
  else bool_decide (oat_Audience o ∈ audience) ||
       existsb (λ a, bool_decide (a ∈ audience)) (oat_AdditionalAudiences o).

Section resolvers.
Context `{Platform} `{JoseCrypto} {Env : Type} `{AccessTokenStore Env}.

(** The loop over the candidate keys: the first that validates the token. *)
Fixpoint first_valid (t : Tokens.AccessToken) (policy : Tokens.AccessTokenValidatePolicy)
    (keys : list PublicKey) : option Tokens.ValidatedAccessToken :=
  match keys with
  | [] => None
  | key :: keys =>
    match Tokens.Validate t key policy with
    | Ok v => Some v
    | Err _ => first_valid t policy keys
    end
  end.

Definition resolved_jwt (v : Tokens.ValidatedAccessToken) : ResolvedAccessToken := {|
  rt_Subject := Tokens.va_Subject v; rt_ClientID := Tokens.va_ClientID v;
  rt_Scopes := if bool_decide (Tokens.va_Scope v = "") then [] else fields (Tokens.va_Scope v);
  rt_Claims := Tokens.va_Parameters v; rt_ExpiresAt := Tokens.va_ExpiresAt v;
  rt_Thumbprint := if bool_decide (Tokens.va_X5TS256 v = "") then Tokens.va_JKT v
                   else Tokens.va_X5TS256 v;
  rt_SenderConstrain := if bool_decide (Tokens.va_X5TS256 v = "") then SenderConstrainDPoP
                        else SenderConstrainMTLS;
  rt_Key := Tokens.va_JTI v; rt_Issuer := Tokens.va_Issuer v;
  rt_Audience := Tokens.va_Audience v; rt_IssuedAt := Tokens.va_IssuedAt v |}.

Definition JWTAccessTokens_ResolveAccessToken (j : JWTAccessTokens Env)
    (req : ResolveAccessTokenRequest) : eff Env Error ResolvedAccessToken :=
  let maxBytes := if bool_decide (MaxTokenBytes j = 0)%Z then DefaultMaxAccessTokenBytes
                  else MaxTokenBytes j in
  match Tokens.ParseAccessTokenMax (rr_Raw req) (Z.to_nat maxBytes) with
  | Err _ => fail (newError ErrorInvalidToken 401 "access token is malformed")
  | Ok parsed =>
    let* candidates := map_err (λ _, newError ErrorServerError 500 "failed to resolve issuer keys")
      (IssuerKeys j (jat_Issuer j) (jat_Algorithm j) (Tokens.AccessToken_KeyID parsed)) in
    if bool_decide (length candidates = 0)
    then fail (newError ErrorInvalidToken 401 "no matching issuer key")
    else
      let policy := {|
        Tokens.ExpectedIssuer := jat_Issuer j; Tokens.ExpectedAudience := jat_Audience j;
        Tokens.AdditionalAudiences := jat_AdditionalAudiences j;
        Tokens.Algorithm := jat_Algorithm j; Tokens.Policy_Now := rr_Now req;
        Tokens.MaxLifetime := MaxTokenLifetime j;
        Tokens.Policy_MaxClockSkew := rr_MaxClockSkew req |} in
      match first_valid parsed policy (take (Z.to_nat (MaxKeyCandidates j)) candidates) with
      | None => fail (newError ErrorInvalidToken 401 accessTokenInvalidDescription)
      | Some v => ret (resolved_jwt v)
      end
  end.

Definition OpaqueAccessTokens_ResolveAccessToken (o : OpaqueAccessTokens)
    (req : ResolveAccessTokenRequest) : eff Env Error ResolvedAccessToken :=
  let hash := sha256 (rr_Raw req) in
  let* looked := map_err lookupError (LookupAccessToken {| atl_TokenHash := hash |}) in
  match recordedIssuerAndAudience (lat_Claims looked) with
  | None => fail (newError ErrorServerError 500 "access token record is malformed")
  | Some (claims, issuer, audience) =>
    if negb (bool_decide (issuer = oat_Issuer o)) || negb (acceptsAudience o audience)
    then fail (newError ErrorInvalidToken 401 accessTokenInvalidDescription)
    else ret {|
      rt_Subject := lat_Subject looked; rt_ClientID := lat_ClientID looked;
      rt_Scopes := lat_Scope looked; rt_Claims := claims; rt_ExpiresAt := lat_ExpiresAt looked;
      rt_Thumbprint := lat_Thumbprint looked; rt_SenderConstrain := lat_SenderConstrain looked;
      rt_Key := hex_encode hash; rt_Issuer := issuer; rt_Audience := audience;
      rt_IssuedAt := zero_time |}
  end.

Definition ResolveAccessToken (r : AccessTokenResolver Env) (req : ResolveAccessTokenRequest)
    : eff Env resolver_error ResolvedAccessToken :=
  match r with
  | JWTResolver j => map_err Refused (JWTAccessTokens_ResolveAccessToken j req)
  | OpaqueResolver o => map_err Refused (OpaqueAccessTokens_ResolveAccessToken o req)
  | OtherResolver f => f req
  end.
End resolvers.

(** * Requests and their results (verify.go, verify_request_http.go) *)

(** A certificate is its DER encoding. *)
Record VerifyRequest := {
  Method : string;
  vq_URL : option ParsedURL;
  Authorization : string;
  DPoPProofs : list string;
  PeerCertificate : option string;
  requestPath : string;
  repeatedAuthorization : bool }.

(** What an *http.Request gives: its method, the values of its Authorization
    and DPoP headers, its escaped path, and its TLS client certificates. *)
Record HTTPRequest := {
  hr_Method : string;
  hr_Authorization : list string;
  hr_DPoP : list string;
  hr_EscapedPath : string;
  hr_PeerCertificates : list string }.

Definition PeerCertificateFromHTTP (r : HTTPRequest) : option string := head (hr_PeerCertificates r).

Definition VerifyRequestFromHTTP (r : HTTPRequest) : VerifyRequest := {|
  Method := hr_Method r; vq_URL := None; Authorization := default "" (head (hr_Authorization r));
  DPoPProofs := hr_DPoP r; PeerCertificate := PeerCertificateFromHTTP r;
  requestPath := hr_EscapedPath r;
  repeatedAuthorization := bool_decide (1 < length (hr_Authorization r)) |}.

Inductive SubjectKind := SubjectEndUser | SubjectClient.

#[export] Instance subject_kind_eq_dec : EqDecision SubjectKind.
Proof. solve_decision. Defined.

Record AuthorizationContext := {
  InternalSubject : string;
  ac_SubjectKind : SubjectKind;
  ClientSubject : string;
  ac_ClientID : string;
  Scopes : list string;
  ac_Claims : gmap string RawMessage;
  ac_ExpiresAt : Time;
  ac_Key : string;
  ac_Issuer : string;
  ac_Audience : list string;
  ac_IssuedAt : Time;
  NextDPoPNonce : string;
  usedDPoP : bool }.

Definition stringClaim (claims : gmap string RawMessage) (name : string) : string :=
  default "" (claims !! name ≫= unmarshal_string).

Definition GrantID (a : AuthorizationContext) : string := stringClaim (ac_Claims a) Claim.
Definition CodeGrantID (a : AuthorizationContext) : string := stringClaim (ac_Claims a) CodeClaim.

Definition EndUser (a : AuthorizationContext) : option string :=
  if negb (bool_decide (ac_SubjectKind a = SubjectEndUser)) || bool_decide (InternalSubject a = "")
  then None else Some (InternalSubject a).

Definition NewInsufficientScopeError (authz : AuthorizationContext) (description : string) : Error :=
  with_nonce (NextDPoPNonce authz)
    (set_challenge (usedDPoP authz) (NewError ErrorInsufficientScope 403 description)).

(** [strings.Cut] at a byte: what comes before it, and after it. *)
Fixpoint cut_at (s : string) (c : ascii) : string * string :=
  match s with
  | EmptyString => ("", "")
  | String d s =>
    if decide (d = c) then ("", s) else let '(a, b) := cut_at s c in (String d a, b)
  end.

(** [strings.TrimLeft] of a byte. *)
Fixpoint trim_left_byte (s : string) (c : ascii) : string :=
  match s with
  | String d s' => if decide (d = c) then trim_left_byte s' c else s
  | EmptyString => EmptyString
  end.

(** The DPoP proof, the access token, and whether the scheme is DPoP; an error
    comes with the same. *)
Definition parseAuthorization (req : VerifyRequest)
    : result (Error * bool) (string * string * bool) :=
  guard_err (negb (bool_decide (Method req = "")))
    (newError ErrorInvalidRequest 400 "method is required", false) ;;
  guard_err (is_Some_bool (vq_URL req) || negb (bool_decide (requestPath req = "")))
    (newError ErrorInvalidRequest 400 "url is required", false) ;;
  match ResolveHeaderValues (DPoPProofs req) with
  | None => Err (newError ErrorInvalidDPoPProof 401 "multiple DPoP proofs are not permitted", true)
  | Some dpopProof =>
    guard_err (negb (repeatedAuthorization req))
      (newError ErrorInvalidRequest 400 "multiple Authorization headers are not permitted", false) ;;
    guard_err (negb (bool_decide (TrimSpace (Authorization req) = ""))) (noCredentials, false) ;;
    let '(scheme, raw) := cut_at (Authorization req) " " in
    let raw := trim_left_byte raw " " in
    let usedDPoP := EqualFoldASCII scheme "DPoP" in
    guard_err (usedDPoP || EqualFoldASCII scheme "Bearer") (noCredentials, false) ;;
    guard_err (negb (bool_decide (raw = "")))
      (newError ErrorInvalidRequest 400 "authorization header has no access token", usedDPoP) ;;
    Ok (dpopProof, raw, usedDPoP)
  end.

(** * Targets (target.go) *)

Record resourceURL := { origin : ParsedURL; prefix : string }.

(** The scheme and host of a URL, and nothing else. *)
Definition origin_of (u : ParsedURL) : ParsedURL := {|
  url_Scheme := url_Scheme u; url_Opaque := ""; url_HasUser := false; url_Host := url_Host u;
  url_Hostname := url_Hostname u; url_Port := url_Port u; url_Path := ""; url_EscapedPath := "";
  url_RawQuery := ""; url_ForceQuery := false; url_Fragment := ""; url_RawFragment := "" |}.

Section targets.
Context `{Platform}.

Definition resource_url (c : Config) (ru : option ParsedURL) : option resourceURL :=
  ru ≫= λ u,
  if bool_decide (url_Scheme u = "http") && bool_decide (rc_Assurance c = AssuranceProduction)
  then None
  else if negb (bool_decide (url_RawQuery u = "")) || url_ForceQuery u then None
  else if negb (HasNormalPath u) then None
  else Some {| origin := origin_of u; prefix := trim_suffix (URI u) "/" |}.

(** [None] is an error. *)
Definition prepareResourceURLs (c : Config) : option (list resourceURL) :=
  if bool_decide (ResourceURLs c = []) then None else mapM (resource_url c) (ResourceURLs c).

Definition covers (r : resourceURL) (target : ParsedURL) : bool :=
  let c := URI target in bool_decide (c = prefix r) || has_prefix c (prefix r +:+ "/").

Definition outsideResourceURLs : Error := newError ErrorInvalidRequest 400
  "request target is not one of this resource server's URLs".

Definition explicitTarget (resources : list resourceURL) (target : ParsedURL)
    : result Error (list ParsedURL) :=
  if bool_decide (url_Scheme target = "") || bool_decide (url_Host target = "") ||
     negb (bool_decide (url_Scheme target = "https") || bool_decide (url_Scheme target = "http"))
  then Err (newError ErrorServerError 500 "failed to verify request")
  else if existsb (λ r, covers r target) resources then Ok [target]
  else Err outsideResourceURLs.

Definition path_target (escapedPath : string) (r : resourceURL) : option ParsedURL :=
  url_parse (url_string (origin r) +:+ escapedPath) ≫= λ t,
  if bool_decide (url_Host t = url_Host (origin r)) && bool_decide (url_RawQuery t = "") &&
     bool_decide (url_Fragment t = "") && covers r t
  then Some t else None.

Definition pathTargets (resources : list resourceURL) (escapedPath : string)
    : result Error (list ParsedURL) :=
  if negb (has_prefix escapedPath "/") then Err outsideResourceURLs
  else
    let targets := omap (path_target escapedPath) resources in
    if bool_decide (targets = []) then Err outsideResourceURLs else Ok targets.

Definition requestTargets (resources : list resourceURL) (req : VerifyRequest)
    : result Error (list ParsedURL) :=
  match vq_URL req with
  | Some u => explicitTarget resources u
  | None => pathTargets resources (requestPath req)
  end.
End targets.

(** * The verifier (verifier.go, dependencies.go) *)

Class Verifier := {
  v_platform :: Platform;
  v_jose :: JoseCrypto;
  v_cfg : Config;
  v_ReplayT : Type;
  v_replay :: ReplayStore v_ReplayT;
  v_RevocationT : Type;
  v_revocation :: RevocationChecker v_RevocationT;
  v_NoncesT : Type;
  v_has_nonces : bool;
  v_nonces :: NonceStore v_NoncesT;
  v_Env : Type;
  v_store :: AccessTokenStore v_Env;
  v_Clock : v_Env → Time * v_Env;
  v_AccessTokens : AccessTokenResolver v_Env;
  (* pairwise.Lookup and pairwise.SubjectResolver, by issuer and sector *)
  v_PairwiseSubjects : option (string → string → string → eff v_Env lookup_error string);
  v_PairwiseSubjectResolver : option (string → string → string → eff v_Env lookup_error string) }.

#[export] Instance verifier_crypto {V : Verifier} : DpopCrypto := jose_dpop URI.

Section verifier.
Context {V : Verifier}.

Record VState := {
  vs_replay : v_ReplayT;
  vs_revocation : v_RevocationT;
  vs_nonces : v_NoncesT;
  vs_rotator : Rotator;
  vs_random : reader;
  vs_env : v_Env }.

Abbreviation verified := (eff VState Error).

Definition on_replay {E A} : eff v_ReplayT E A → eff VState E A :=
  zoom vs_replay (λ x s, {| vs_replay := x; vs_revocation := vs_revocation s;
    vs_nonces := vs_nonces s; vs_rotator := vs_rotator s; vs_random := vs_random s;
    vs_env := vs_env s |}).
Definition on_revocation {E A} : eff v_RevocationT E A → eff VState E A :=
  zoom vs_revocation (λ x s, {| vs_replay := vs_replay s; vs_revocation := x;
    vs_nonces := vs_nonces s; vs_rotator := vs_rotator s; vs_random := vs_random s;
    vs_env := vs_env s |}).
Definition on_nonces {E A} : eff v_NoncesT E A → eff VState E A :=
  zoom vs_nonces (λ x s, {| vs_replay := vs_replay s; vs_revocation := vs_revocation s;
    vs_nonces := x; vs_rotator := vs_rotator s; vs_random := vs_random s; vs_env := vs_env s |}).
Definition on_nonce_state {E A} : eff (Rotator * (v_NoncesT * reader)) E A → eff VState E A :=
  zoom (λ s, (vs_rotator s, (vs_nonces s, vs_random s)))
    (λ x s, {| vs_replay := vs_replay s; vs_revocation := vs_revocation s; vs_nonces := x.2.1;
      vs_rotator := x.1; vs_random := x.2.2; vs_env := vs_env s |}).
Definition on_env {E A} : eff v_Env E A → eff VState E A :=
  zoom vs_env (λ x s, {| vs_replay := vs_replay s; vs_revocation := vs_revocation s;
    vs_nonces := vs_nonces s; vs_rotator := vs_rotator s; vs_random := vs_random s; vs_env := x |}).

(** [v.deps.Clock.Now()] *)
Definition Now {E} : eff VState E Time := on_env (λ x, let '(t, x) := v_Clock x in (Ok t, x)).

Definition resourceURLs : list resourceURL := default [] (prepareResourceURLs v_cfg).

Definition v_skew : Duration := MaxClockSkew (rc_Limits v_cfg).

Definition resolveAccessToken (raw : string) (now : Time) : verified ResolvedAccessToken :=
  map_err (λ e, match e with
    | Refused e => e
    | ResolverUnavailable => lookup_failed true
    | ResolverFailed => lookup_failed false
    end)
    (on_env (ResolveAccessToken v_AccessTokens
      {| rr_Raw := raw; rr_Now := now; rr_MaxClockSkew := v_skew |})).

(** How the request's sender is constrained, with what it proved: a DPoP
    proof, or the thumbprint of its certificate. *)
Definition resource_proof (proof : string) (method : string) (targets : list ParsedURL)
    (raw : string) (now : Time) : Dpop.VerifyRequest VState := {|
  vr_Proof := proof; vr_Method := method; vr_URL := head targets;
  vr_AlternateURLs := tail targets; vr_AccessToken := raw; vr_RequiredNonce := "";
  vr_Now := now; vr_MaxProofAge := MaxDPoPProofAge (rc_Limits v_cfg);
  vr_MaxClockSkew := v_skew; vr_Replay := None |}.

Definition resolveCredential (req : VerifyRequest) (targets : list ParsedURL)
    (dpopProof raw : string) (usedDPoP : bool) (now : Time) : verified (VerifiedProof + string) :=
  if usedDPoP then
    if bool_decide (dpopProof = "")
    then fail (newError ErrorInvalidRequest 400 "DPoP header is required")
    else
      let* proof := map_err
        (λ _, newError ErrorInvalidDPoPProof 401 "DPoP proof verification failed")
        (Dpop.Verify (resource_proof dpopProof (Method req) targets raw now)) in
      ret (inl proof)
  else
    ret (inr (match PeerCertificate req with
              | None => ""
              | Some cert => mtls_Thumbprint cert
              end)).

Definition constrain_of (credential : VerifiedProof + string) : SenderConstrain :=
  match credential with inl _ => SenderConstrainDPoP | inr _ => SenderConstrainMTLS end.
Definition presented_of (credential : VerifiedProof + string) : string :=
  match credential with inl proof => vp_Thumbprint proof | inr thumbprint => thumbprint end.

Definition token_invalid : Error :=
  newError ErrorInvalidToken 401 accessTokenInvalidDescription.

Definition checkUnrevocableLifetime (resolved : ResolvedAccessToken) (now : Time)
    : result Error unit :=
  match unrevocableLifetime with
  | None => Ok tt
  | Some lifetime =>
    guard_err (bool_decide
      (Sub (rt_ExpiresAt resolved) now ≤ SaturatingAdd [lifetime; v_skew])%Z) token_invalid
  end.

Definition checkBinding (resolved : ResolvedAccessToken) (credential : VerifiedProof + string)
    (now : Time) : result Error unit :=
  guard_err (bool_decide (rt_SenderConstrain resolved = constrain_of credential)) token_invalid ;;
  let presented := presented_of credential in
  guard_err (negb (bool_decide (presented = "")) && bool_decide (rt_Thumbprint resolved = presented))
    token_invalid ;;
  guard_err (negb (After now (Add (rt_ExpiresAt resolved) v_skew)))
    (newError ErrorInvalidToken 401 "access token has expired") ;;
  checkUnrevocableLifetime resolved now.

(** ** Revocation *)

Definition grantRevocationClaims : list (string * (string → string → list string)) :=
  [(Claim, Keys); (CodeClaim, CodeKeys)].

(** grantRevocationKeys; [None] when they can't be told. *)
Fixpoint revocation_claim_keys (l : list (string * (string → string → list string)))
    (issuer : string) (claims : gmap string RawMessage) : option (list string) :=
  match l with
  | [] => Some []
  | (claim, keys) :: l =>
    match claims !! claim with
    | None => revocation_claim_keys l issuer claims
    | Some raw =>
      unmarshal_string raw ≫= λ id,
      if bool_decide (id = "") || bool_decide (issuer = "") then None
      else (app (keys issuer id)) <$> revocation_claim_keys l issuer claims
    end
  end.

Definition grantRevocationKeys (issuer : string) (claims : gmap string RawMessage)
    : option (list string) := revocation_claim_keys grantRevocationClaims issuer claims.

(** Whether a batch answered, and whether it found a revoked key. *)
Definition checkAnyRevoked (resolved : ResolvedAccessToken) : verified (bool * bool) :=
  match rv_IsAnyRevoked, grantRevocationKeys (rt_Issuer resolved) (rt_Claims resolved) with
  | Some batch, Some keys =>
    let* r := try (on_revocation (batch (rt_Key resolved :: keys))) in
    ret (match r with Ok revoked => (true, revoked) | Err _ => (false, false) end)
  | _, _ => ret (false, false)
  end.

Fixpoint checkKeysNotRevoked (keys : list string) : verified unit :=
  match keys with
  | [] => ret tt
  | key :: keys =>
    let* revoked := map_err
      (λ _, newError ErrorServerError 500 "failed to check grant revocation")
      (on_revocation (rv_IsRevoked key)) in
    if (revoked : bool)
    then fail (newError ErrorInvalidToken 401 "access token's grant has been revoked")
    else checkKeysNotRevoked keys
  end.

Fixpoint check_claims_not_revoked (l : list (string * (string → string → list string)))
    (issuer : string) (claims : gmap string RawMessage) : verified unit :=
  match l with
  | [] => ret tt
  | (claim, keys) :: l =>
    match claims !! claim with
    | None => check_claims_not_revoked l issuer claims
    | Some raw =>
      match unmarshal_string raw with
      | None | Some "" =>
        fail (newError ErrorInvalidToken 401 ("access token's " +:+ claim +:+ " is malformed"))
      | Some id =>
        if bool_decide (issuer = "")
        then fail (newError ErrorServerError 500 "failed to check grant revocation")
        else
          do* checkKeysNotRevoked (keys issuer id) in
          check_claims_not_revoked l issuer claims
      end
    end
  end.

Definition checkGrantNotRevoked (issuer : string) (claims : gmap string RawMessage)
    : verified unit := check_claims_not_revoked grantRevocationClaims issuer claims.

Definition token_revoked : Error :=
  newError ErrorInvalidToken 401 "access token has been revoked".

Definition checkEachNotRevoked (resolved : ResolvedAccessToken) : verified unit :=
  let* revoked := map_err (λ _, newError ErrorServerError 500 "failed to check token revocation")
    (on_revocation (rv_IsRevoked (rt_Key resolved))) in
  if (revoked : bool) then fail token_revoked
  else checkGrantNotRevoked (rt_Issuer resolved) (rt_Claims resolved).

Definition checkNotRevoked (resolved : ResolvedAccessToken) : verified unit :=
  if bool_decide (rt_Key resolved = "")
  then fail (newError ErrorServerError 500 "access token resolver returned no revocation key")
  else
    let* '(answered, anyRevoked) := checkAnyRevoked resolved in
    if answered && negb anyRevoked then ret tt
    else
      do* checkEachNotRevoked resolved in
      if negb answered then ret tt else fail token_revoked.

(** ** Subjects *)

Definition GrantTypeClaim : string := "grant_type".
Definition ClientCredentialsGrantType : string := "client_credentials".

Definition subjectKindOf (claims : gmap string RawMessage) : result Error SubjectKind :=
  match claims !! GrantTypeClaim with
  | None => Ok SubjectEndUser
  | Some raw =>
    guard_err (bool_decide (unmarshal_string raw = Some ClientCredentialsGrantType))
      (newError ErrorInvalidToken 401 "access token's grant_type is malformed") ;;
    Ok SubjectClient
  end.

Definition not_issued_here : Error := newError ErrorInvalidToken 401
  "access token's pairwise subject isn't one this server issued".

Definition pairwiseResult (m : eff v_Env lookup_error string) : verified string :=
  let* internal := map_err (λ e, match e with
      | ErrSubjectNotFound => not_issued_here
      | LookupFailed => newError ErrorServerError 500
          "failed to look up the access token's pairwise subject"
      end) (on_env m) in
  if bool_decide (internal = "")
  then fail (newError ErrorServerError 500 "the pairwise subject lookup returned no subject")
  else ret internal.

Definition lookUpPairwiseSubject (lookup : string → string → string → eff v_Env lookup_error string)
    (resolved : ResolvedAccessToken) (sector : string) : verified string :=
  match CutPrefix (rt_Subject resolved) (default "" (PairwisePrefix v_cfg)) with
  | None => fail not_issued_here
  | Some body =>
    if negb (CheckBody body) then fail not_issued_here
    else pairwiseResult (lookup (rt_Issuer resolved) sector body)
  end.

Definition mapPairwiseSubject (resolved : ResolvedAccessToken) (sector : string) : verified string :=
  if bool_decide (rt_Issuer resolved = "")
  then fail (newError ErrorServerError 500 (
    "access token's subject is pairwise, but its resolver reported no issuer to look it up under"))
  else
    match v_PairwiseSubjects, v_PairwiseSubjectResolver with
    | Some lookup, _ => lookUpPairwiseSubject lookup resolved sector
    | None, Some resolve => pairwiseResult (resolve (rt_Issuer resolved) sector (rt_Subject resolved))
    | None, None => fail (newError ErrorServerError 500 (
        "access token's subject is pairwise, but this verifier can't map it back: set " +:+
        "dependencies.pairwise_subjects (the OP's reversible deriver) or " +:+
        "dependencies.pairwise_subject_resolver (the mapping of an OP with a one-way deriver) on " +:+
        "the OP's own resource servers, or config.pairwise_resolution PairwiseClientSubjectsOnly " +:+
        "on a resource server outside the OP"))
    end.

(** A claim that must be a non-empty string. *)
Definition claim_string (raw : RawMessage) (desc : string) : result Error string :=
  match unmarshal_string raw with
  | None | Some "" => Err (newError ErrorInvalidToken 401 desc)
  | Some s => Ok s
  end.

(** The internal subject, and the subject the client knows. *)
Definition resolveSubjects (resolved : ResolvedAccessToken) : verified (string * string) :=
  let clientOnly := bool_decide (rc_PairwiseResolution v_cfg = PairwiseClientSubjectsOnly) in
  match rt_Claims resolved !! ClientSubjectClaim with
  | Some raw =>
    let* sub := lift (claim_string raw "access token's client subject is malformed") in
    ret (if clientOnly then "" else rt_Subject resolved, sub)
  | None =>
    match rt_Claims resolved !! PairwiseSectorClaim with
    | None => ret (rt_Subject resolved, rt_Subject resolved)
    | Some raw =>
      let* sector := lift (claim_string raw "access token's pairwise sector is malformed") in
      if clientOnly then ret ("", rt_Subject resolved)
      else
        let* internal := mapPairwiseSubject resolved sector in
        ret (internal, rt_Subject resolved)
    end
  end.

(** ** Nonces and replay (nonce.go, replay.go) *)

Definition dpopReplayNamespace : string := "resource:dpop".

Definition replay_UseOnce (key jti : string) (expiresAt : Time) : eff v_ReplayT store_error unit :=
  UseOnce {| ru_Namespace := dpopReplayNamespace; ru_Digest := Digest key jti;
             ru_ExpiresAt := expiresAt |}.

Definition issueDPoPNonce (now : Time) : eff VState nonce_error string :=
  on_nonce_state (Current (DPoPNonceLifetime (rc_Limits v_cfg)) now).

Definition IssueDPoPNonce : eff VState nonce_error string :=
  if negb v_has_nonces then ret ""
  else let* now := Now in issueDPoPNonce now.

Definition nonce_not_issued (_ : nonce_error) : Error :=
  newError ErrorServerError 500 "failed to issue dpop nonce".

Definition checkDPoPNonce (presented : string) (now : Time) : verified unit :=
  let* r := try (on_nonces (Valid presented now)) in
  match r with
  | Ok true => ret tt
  | Err StoreUnavailable => fail (newError ErrorServerError 500 "failed to check dpop nonce")
  | _ =>
    let* current := map_err nonce_not_issued (issueDPoPNonce now) in
    fail (with_nonce current
      (newError ErrorUseDPoPNonce 401 "DPoP proof must carry a current nonce"))
  end.

Definition replay_expiry (proof : VerifiedProof) : Time :=
  Add (vp_IssuedAt proof)
    (SaturatingAdd [MaxDPoPProofAge (rc_Limits v_cfg); v_skew; v_skew]).

Definition consumeDPoPProof (proof : VerifiedProof) (now : Time) : verified unit :=
  do* (if v_has_nonces then checkDPoPNonce (vp_Nonce proof) now else ret tt) in
  map_err (λ e, if storeUnavailable e
                then newError ErrorServerError 500 "failed to check DPoP proof replay"
                else newError ErrorInvalidDPoPProof 401 "DPoP proof verification failed")
    (on_replay (replay_UseOnce (vp_Thumbprint proof) (vp_JTI proof) (replay_expiry proof))).

(** A proof is spent, and the next nonce issued, only for a token that has
    passed every other check. *)
Definition finish_credential (credential : VerifiedProof + string) (now : Time) : verified string :=
  match credential with
  | inl proof =>
    do* consumeDPoPProof proof now in
    if v_has_nonces then map_err nonce_not_issued (issueDPoPNonce now) else ret ""
  | inr _ => ret ""
  end.

(** What verify knows once every check but the proof's own use has passed. *)
Record CheckedToken := {
  ct_now : Time;
  ct_credential : VerifiedProof + string;
  ct_resolved : ResolvedAccessToken;
  ct_kind : SubjectKind;
  ct_subject : string;
  ct_clientSubject : string }.

Definition checked_token (req : VerifyRequest) (dpopProof raw : string) (used : bool)
    : verified CheckedToken :=
  let* targets := lift (requestTargets resourceURLs req) in
  let* now := Now in
  let* credential := resolveCredential req targets dpopProof raw used now in
  let* resolved := resolveAccessToken raw now in
  do* lift (checkBinding resolved credential now) in
  do* checkNotRevoked resolved in
  let* kind := lift (subjectKindOf (rt_Claims resolved)) in
  let* '(subject, clientSubject) := resolveSubjects resolved in
  ret {| ct_now := now; ct_credential := credential; ct_resolved := resolved; ct_kind := kind;
         ct_subject := subject; ct_clientSubject := clientSubject |}.

(** verify, once the credentials are read. *)
Definition verify_token (req : VerifyRequest) (dpopProof raw : string) (used : bool)
    : verified AuthorizationContext :=
  let* c := checked_token req dpopProof raw used in
  let* nextNonce := finish_credential (ct_credential c) (ct_now c) in
  let resolved := ct_resolved c in
  ret {|
    InternalSubject := ct_subject c; ac_SubjectKind := ct_kind c;
    ClientSubject := ct_clientSubject c;
    ac_ClientID := rt_ClientID resolved; Scopes := rt_Scopes resolved;
    ac_Claims := rt_Claims resolved; ac_ExpiresAt := rt_ExpiresAt resolved;
    ac_Key := rt_Key resolved; ac_Issuer := rt_Issuer resolved; ac_Audience := rt_Audience resolved;
    ac_IssuedAt := rt_IssuedAt resolved; NextDPoPNonce := nextNonce; usedDPoP := used |}.

(** An error of a request that used DPoP is challenged for DPoP. *)
Definition challenged (used : bool) (e : Error) : Error :=
  if used then set_challenge true e else e.

Definition Verify (req : VerifyRequest) : verified AuthorizationContext :=
  match parseAuthorization req with
  | Err (e, used) => fail (challenged used e)
  | Ok (dpopProof, raw, used) => map_err (challenged used) (verify_token req dpopProof raw used)
  end.
End verifier.
End Resource.
