(* ===== verification/ResourceTheorems.v ===== *)
(** What a resource server's verifier promises (Resource.v): whom a verified
    request speaks for, and what a refused one leaves behind. *)
From stdpp Require Import relations.
From S2P Require Import Prelude GoStrings Json GoTime Sha256 Base64 Pkce Digests Platform.
From S2P Require Import Effects Storage ServerTypes JsonCodec Nonce Records Dpop Jose.
From S2P Require Import Canonical Extensions Tokens Attestation ClientAuth Issue Subjects.
From S2P Require Import Resource.
From stdpp Require Import options.

Import Resource.

Set Default Proof Using "Type*".

(** * The revocation checker's contract *)

(** Reading changes nothing, and a revoked key is never reported live. *)
Class RevocationCheckerLaws (V : Type) `{RevocationChecker V} := {
  rv_revoked : V → string → Prop;
  rv_is_revoked_same k s r s' : rv_IsRevoked k s = (r, s') → s' = s;
  rv_is_revoked_sound k s : rv_revoked s k → (rv_IsRevoked k s).1 ≠ Ok false;
  rv_any_same f ks s r s' : rv_IsAnyRevoked = Some f → f ks s = (r, s') → s' = s;
  rv_any_sound f ks s k :
    rv_IsAnyRevoked = Some f → rv_revoked s k → k ∈ ks → (f ks s).1 ≠ Ok false }.

(** The keys a token's grant, and the grant its code came from, are revoked by. *)
Definition grant_keys (issuer : string) (claims : gmap string RawMessage) : list string :=
  (if bool_decide (stringClaim claims Claim = "") then []
   else Keys issuer (stringClaim claims Claim)) ++
  (if bool_decide (stringClaim claims CodeClaim = "") then []
   else CodeKeys issuer (stringClaim claims CodeClaim)).

Section targets.
Context `{Platform}.

Lemma pathTargets_covered resources path ts :
  pathTargets resources path = Ok ts →
  ts ≠ [] ∧ ∀ u, u ∈ ts → ∃ r, r ∈ resources ∧ covers r u = true.
Proof.
  unfold pathTargets. destruct (negb _); [done|]. case_bool_decide as Hne; [done|].
  intros [= <-]. split; [done|]. intros u (r & Hr & Hu)%list_elem_of_omap. exists r.
  split; [done|]. unfold path_target in Hu. destruct (url_parse _); [|done]. simpl in Hu.
  destruct (_ && _) eqn:Hb; [|done]. injection Hu as ->. by apply andb_true_iff in Hb as [_ Hb].
Qed.

(** Every target is under one of the resource server's own URLs. *)
Lemma requestTargets_covered resources req ts :
  requestTargets resources req = Ok ts →
  ts ≠ [] ∧ ∀ u, u ∈ ts → ∃ r, r ∈ resources ∧ covers r u = true.
Proof.
  unfold requestTargets. destruct (vq_URL req) as [u|]; [|apply pathTargets_covered].
  unfold explicitTarget. destruct (_ || _); [done|]. destruct (existsb _ _) eqn:Hex; [|done].
  intros [= <-]. split; [done|]. intros v ->%list_elem_of_singleton.
  apply existsb_exists in Hex as (r & Hin & Hc). exists r. split; [by apply list_elem_of_In|done].
Qed.
End targets.

(** The access token a request carries, under the scheme it names. *)
Definition carries (req : VerifyRequest) (raw : string) (used : bool) : Prop :=
  let '(scheme, rest) := cut_at (Authorization req) " " in
  raw = trim_left_byte rest " " ∧ raw ≠ "" ∧
  (if used then EqualFoldASCII scheme "DPoP" = true
   else EqualFoldASCII scheme "DPoP" = false ∧ EqualFoldASCII scheme "Bearer" = true).

Lemma parseAuthorization_Ok req proof raw used :
  parseAuthorization req = Ok (proof, raw, used) →
  carries req raw used ∧ ResolveHeaderValues (DPoPProofs req) = Some proof ∧
  repeatedAuthorization req = false.
Proof.
  unfold parseAuthorization, carries. intros H.
  apply bind_Ok in H as (? & _ & H). apply bind_Ok in H as (? & _ & H).
  destruct (ResolveHeaderValues _) as [p|]; [|done].
  apply bind_Ok in H as (? & Hr%guard_err_Ok%negb_true_iff & H).
  apply bind_Ok in H as (? & _ & H). destruct (cut_at _ _) as [scheme rest].
  apply bind_Ok in H as (? & Hs%guard_err_Ok & H).
  apply bind_Ok in H as (? & Hne%guard_err_Ok%negb_true_iff%bool_decide_eq_false & H).
  injection H as <- <- <-. split_and!; try done. by destruct (EqualFoldASCII scheme "DPoP").
Qed.

Section verifier.
Context {V : Verifier} `{!RevocationCheckerLaws v_RevocationT}.

(** * Reading the revocation store *)

Lemma on_revocation_same {E A} (m : eff v_RevocationT E A) s r s' :
  (∀ x, m (vs_revocation s) = (r, x) → x = vs_revocation s) →
  on_revocation m s = (r, s') → s' = s ∧ m (vs_revocation s) = (r, vs_revocation s).
Proof.
  intros Hm Hr. apply zoom_run in Hr as (x & Hx & ->).
  pose proof (Hm x Hx) as ->. split; [by destruct s|done].
Qed.

Lemma checkKeysNotRevoked_Ok keys s u s' :
  checkKeysNotRevoked keys s = (Ok u, s') →
  s' = s ∧ Forall (λ k, ¬ rv_revoked (vs_revocation s) k) keys.
Proof.
  induction keys as [|k keys IH]; simpl; intros Hr.
  { apply ret_Ok in Hr as [_ ->]. by constructor. }
  apply ebind_Ok in Hr as ([] & s1 & Hk & Hr); [done|]. apply map_err_Ok in Hk.
  apply on_revocation_same in Hk as [-> Hk]; [|intros x; apply rv_is_revoked_same].
  apply IH in Hr as [-> Hkeys]. split; [done|]. constructor; [|done].
  intros Hrev%rv_is_revoked_sound. by rewrite Hk in Hrev.
Qed.

(** No key of any claim read is revoked. *)
Definition claims_live (l : list (string * (string → string → list string))) (issuer : string)
    (claims : gmap string RawMessage) (live : list string → Prop) : Prop :=
  ∀ claim keys, (claim, keys) ∈ l → stringClaim claims claim ≠ "" →
    live (keys issuer (stringClaim claims claim)).

Lemma stringClaim_raw claims name raw id :
  claims !! name = Some raw → unmarshal_string raw = Some id → stringClaim claims name = id.
Proof. intros Hr Hi. unfold stringClaim. by rewrite Hr; simpl; rewrite Hi. Qed.

Lemma check_claims_not_revoked_Ok l issuer claims s u s' :
  check_claims_not_revoked l issuer claims s = (Ok u, s') →
  s' = s ∧ claims_live l issuer claims (Forall (λ k, ¬ rv_revoked (vs_revocation s) k)).
Proof.
  induction l as [|[claim keys] l IH]; simpl; intros Hr.
  { apply ret_Ok in Hr as [_ ->]. split; [done|]. by intros ?? ?%not_elem_of_nil. }
  destruct (claims !! claim) as [raw|] eqn:Hc.
  - destruct (unmarshal_string raw) as [id|] eqn:Hid; [|done].
    pose proof (stringClaim_raw _ _ _ _ Hc Hid) as Hs.
    destruct id as [|c id]; [done|]. case_bool_decide; [done|].
    apply ebind_Ok in Hr as ([] & s1 & Hk & Hr). apply checkKeysNotRevoked_Ok in Hk as [-> Hk].
    apply IH in Hr as [-> Hl]. split; [done|].
    intros cl ks [[= -> ->]|Hin]%elem_of_cons Hne; [by rewrite Hs|by apply Hl].
  - apply IH in Hr as [-> Hl]. split; [done|].
    intros cl ks [[= -> ->]|Hin]%elem_of_cons Hne; [|by apply Hl].
    unfold stringClaim in Hne. by rewrite Hc in Hne.
Qed.

Lemma revocation_claim_keys_incl l issuer claims ks :
  revocation_claim_keys l issuer claims = Some ks →
  claims_live l issuer claims (λ keys, keys ⊆ ks).
Proof.
  revert ks. induction l as [|[claim keys] l IH]; simpl; intros ks Hr.
  { by intros ?? ?%not_elem_of_nil. }
  destruct (claims !! claim) as [raw|] eqn:Hc.
  - destruct (unmarshal_string raw) as [id|] eqn:Hid; [|done]. simpl in Hr.
    pose proof (stringClaim_raw _ _ _ _ Hc Hid) as Hs.
    destruct (_ || _); [done|]. apply fmap_Some in Hr as (ks' & Hks & ->).
    intros cl kf [[= -> ->]|Hin]%elem_of_cons Hne; [rewrite Hs; set_solver|].
    specialize (IH _ Hks cl kf Hin Hne). set_solver.
  - intros cl kf [[= -> ->]|Hin]%elem_of_cons Hne; [|by apply (IH _ Hr)].
    unfold stringClaim in Hne. by rewrite Hc in Hne.
Qed.

Lemma claims_live_keys issuer claims live :
  claims_live grantRevocationClaims issuer claims (Forall live) →
  Forall live (grant_keys issuer claims).
Proof.
  intros Hl. unfold grant_keys. apply Forall_app. split; (case_bool_decide; [constructor|]).
  - apply (Hl Claim Keys); [left|done].
  - apply (Hl CodeClaim CodeKeys); [right; left|done].
Qed.

Lemma checkAnyRevoked_Ok resolved s answered revoked s' :
  checkAnyRevoked resolved s = (Ok (answered, revoked), s') →
  s' = s ∧ (answered = true → revoked = false →
    Forall (λ k, ¬ rv_revoked (vs_revocation s) k)
      (rt_Key resolved :: grant_keys (rt_Issuer resolved) (rt_Claims resolved))).
Proof.
  unfold checkAnyRevoked. destruct rv_IsAnyRevoked as [f|] eqn:Hf;
    [|by intros [[= -> ->] ->]%ret_Ok].
  destruct (grantRevocationKeys _ _) as [keys|] eqn:Hk; [|by intros [[= -> ->] ->]%ret_Ok].
  intros Hr. apply ebind_Ok in Hr as (r & s1 & Hb & Hr). rewrite try_Ok in Hb.
  apply on_revocation_same in Hb as [-> Hb]; [|intros x; by apply rv_any_same].
  destruct r as [b|e]; apply ret_Ok in Hr as [[= -> ->] ->]; (split; [done|]); [|done].
  intros _ ->. pose proof (revocation_claim_keys_incl _ _ _ _ Hk) as Hincl.
  assert (Hlive : ∀ k, k ∈ rt_Key resolved :: keys → ¬ rv_revoked (vs_revocation s) k).
  { intros k Hin Hrev. pose proof (rv_any_sound f _ _ k Hf Hrev Hin) as Hn. by rewrite Hb in Hn. }
  constructor; [apply Hlive; left|]. apply claims_live_keys. intros cl kf Hin Hne.
  apply Forall_forall. intros k Hkin. apply Hlive. right. by apply (Hincl cl kf).
Qed.

Lemma checkEachNotRevoked_Ok resolved s u s' :
  checkEachNotRevoked resolved s = (Ok u, s') →
  s' = s ∧ Forall (λ k, ¬ rv_revoked (vs_revocation s) k)
    (rt_Key resolved :: grant_keys (rt_Issuer resolved) (rt_Claims resolved)).
Proof.
  intros He. apply ebind_Ok in He as ([] & s2 & Hi & He); [done|]. apply map_err_Ok in Hi.
  apply on_revocation_same in Hi as [-> Hi]; [|intros x; apply rv_is_revoked_same].
  apply check_claims_not_revoked_Ok in He as [-> Hl]. split; [done|].
  constructor; [|by apply claims_live_keys].
  intros Hrev%rv_is_revoked_sound. by rewrite Hi in Hrev.
Qed.

Lemma checkNotRevoked_Ok resolved s u s' :
  checkNotRevoked resolved s = (Ok u, s') →
  s' = s ∧ rt_Key resolved ≠ "" ∧
  Forall (λ k, ¬ rv_revoked (vs_revocation s) k)
    (rt_Key resolved :: grant_keys (rt_Issuer resolved) (rt_Claims resolved)).
Proof.
  unfold checkNotRevoked. case_bool_decide as Hk; [done|]. intros Hr.
  apply ebind_Ok in Hr as ([answered revoked] & s1 & Ha & Hr).
  apply checkAnyRevoked_Ok in Ha as [-> Ha].
  destruct (answered && negb revoked) eqn:Hb.
  - apply andb_true_iff in Hb as [-> ->%negb_true_iff]. apply ret_Ok in Hr as [_ ->]. auto.
  - apply ebind_Ok in Hr as ([] & s1 & [-> He]%checkEachNotRevoked_Ok & Hr).
    destruct answered; [done|]. by apply ret_Ok in Hr as [_ ->].
Qed.

(** * Verified requests *)

(** What the sender of a request proved it holds: the key of its one DPoP
    proof, made for this method, for a URI of this resource server and for
    this access token, within the proof's lifetime; or its certificate. *)
Definition proves (req : VerifyRequest) (raw : string) (now : Time)
    (credential : VerifiedProof + string) : Prop :=
  match credential with
  | inl proof => ∃ p c htu u r,
      DPoPProofs req = [p] ∧ signed_claims p c (vp_Thumbprint proof) ∧ vp_JTI proof = JTI c ∧
      HTM c = Method req ∧ url_parse (HTU c) = Some htu ∧ canonical_URI u = canonical_URI htu ∧
      r ∈ resourceURLs ∧ covers r u = true ∧ ATH c = accessTokenHash raw ∧
      (vp_IssuedAt proof ≤ now + v_skew)%Z ∧
      (Sub now (vp_IssuedAt proof) ≤ MaxDPoPProofAge (rc_Limits v_cfg))%Z
  | inr thumbprint => ∃ cert, PeerCertificate req = Some cert ∧ thumbprint = mtls_Thumbprint cert
  end.

Definition by_dpop (credential : VerifiedProof + string) : bool :=
  match credential with inl _ => true | inr _ => false end.

Lemma resolveCredential_Ok req targets p raw used now s credential s' :
  raw ≠ "" → (∀ u, u ∈ targets → ∃ r, r ∈ resourceURLs ∧ covers r u = true) →
  ResolveHeaderValues (DPoPProofs req) = Some p →
  resolveCredential req targets p raw used now s = (Ok credential, s') →
  s' = s ∧ (presented_of credential ≠ "" → proves req raw now credential) ∧
  used = by_dpop credential.
Proof.
  intros Hraw Hcov Hp. unfold resolveCredential. destruct used.
  - case_bool_decide as Hne; [done|]. intros Hr.
    apply ebind_Ok in Hr as (proof & s1 & Hv & [-> ->]%ret_Ok). apply map_err_Ok in Hv.
    apply Verify_inv in Hv as (c & Hs & Hi & _ & Hj & _ & Hc & ->). split_and!; try done.
    intros _. apply verifyProofClaims_times in Hc as (Hm & (htu & Hu & _ & u & Hin & Hcan) & Ht & Ha & Hath & _).
    simpl in Hath, Hm. destruct targets as [|t ts]; [by apply not_elem_of_nil in Hin|].
    destruct (Hcov u Hin) as (r & Hr & Hc). exists p, c, htu, u, r. rewrite Hi.
    split_and!; try done; [|by apply Hath].
    by destruct (DPoPProofs req) as [|q [|]]; simplify_eq/=.
  - intros [-> ->]%ret_Ok. split_and!; try done. simpl.
    destruct (PeerCertificate req) as [cert|]; [|done]. intros _. by exists cert.
Qed.

(** A proof is spent, and nothing else; a certificate spends nothing. *)
Lemma finish_credential_Ok credential now s nonce s' :
  finish_credential credential now s = (Ok nonce, s') →
  match credential with
  | inl proof => ∃ x, replay_UseOnce (vp_Thumbprint proof) (vp_JTI proof) (replay_expiry proof)
      (vs_replay s) = (Ok tt, x) ∧ vs_replay s' = x
  | inr _ => s' = s
  end.
Proof.
  destruct credential as [proof|t]; [|by intros [_ ->]%ret_Ok]. intros Hr.
  assert (Hnonce : ∀ E A (m : eff _ E A) s r s', on_nonce_state m s = (r, s') →
    vs_replay s' = vs_replay s).
  { intros E A m s0 r s1 H. by apply zoom_run in H as (x & _ & ->). }
  apply ebind_Ok in Hr as ([] & s1 & Hc & Hr). unfold consumeDPoPProof in Hc.
  apply ebind_Ok in Hc as ([] & s2 & Hn & Hc). apply map_err_Ok, zoom_run in Hc as (x & Hx & ->).
  exists x. assert (vs_replay s2 = vs_replay s) as <-.
  { destruct v_has_nonces; [|by apply ret_Ok in Hn as [_ ->]]. unfold checkDPoPNonce in Hn.
    apply ebind_Ok in Hn as (r & s3 & Hl & Hn). rewrite try_Ok in Hl. apply zoom_run in Hl as (y & _ & ->).
    destruct r as [[]|[]]; try done; try by apply ret_Ok in Hn as [_ ->].
    all: by apply ebind_Ok in Hn as (? & ? & _ & Hn). }
  split; [done|]. destruct v_has_nonces; [|by apply ret_Ok in Hr as [_ ->]].
  apply map_err_Ok in Hr. by apply Hnonce in Hr.
Qed.

Lemma resolveSubjects_env resolved s p s' :
  resolveSubjects resolved s = (Ok p, s') →
  vs_replay s' = vs_replay s ∧ vs_revocation s' = vs_revocation s.
Proof.
  assert (Hw : ∀ m (s : VState) a s', pairwiseResult m s = (Ok a, s') →
    vs_replay s' = vs_replay s ∧ vs_revocation s' = vs_revocation s).
  { intros m s0 a s1 H. apply ebind_Ok in H as (i & s2 & Hm & H).
    apply map_err_Ok, zoom_run in Hm as (x & _ & ->). case_bool_decide; [done|].
    by apply ret_Ok in H as [_ ->]. }
  unfold resolveSubjects. destruct (_ !! ClientSubjectClaim).
  { intros Hr. inv_eff. done. }
  destruct (_ !! PairwiseSectorClaim); [|by intros [_ ->]%ret_Ok].
  intros Hr. apply ebind_Ok in Hr as (sector & s1 & [_ ->]%lift_Ok & Hr).
  case_bool_decide; [by apply ret_Ok in Hr as [_ ->]|].
  apply ebind_Ok in Hr as (i & s1 & Hm & [_ ->]%ret_Ok). revert Hm.
  unfold mapPairwiseSubject, lookUpPairwiseSubject. case_bool_decide; [done|].
  destruct v_PairwiseSubjects.
  - destruct (CutPrefix _ _); [|done]. destruct (negb _); [done|]. apply Hw.
  - destruct v_PairwiseSubjectResolver; [apply Hw|done].
Qed.
(** The authorization is the resolved token's. *)
Definition speaks_for (authz : AuthorizationContext) (resolved : ResolvedAccessToken) : Prop :=
  ac_ClientID authz = rt_ClientID resolved ∧ Scopes authz = rt_Scopes resolved ∧
  ac_Claims authz = rt_Claims resolved ∧ ac_ExpiresAt authz = rt_ExpiresAt resolved ∧
  ac_Key authz = rt_Key resolved ∧ ac_Issuer authz = rt_Issuer resolved ∧
  ac_Audience authz = rt_Audience resolved ∧
  subjectKindOf (rt_Claims resolved) = Ok (ac_SubjectKind authz) ∧
  ∃ s1 s2, resolveSubjects resolved s1 = (Ok (InternalSubject authz, ClientSubject authz), s2).

(** What became of the credential: a proof was spent in the replay store. *)
Definition spent_credential (credential : VerifiedProof + string) (s s' : VState) : Prop :=
  match credential with
  | inl proof =>
    replay_UseOnce (vp_Thumbprint proof) (vp_JTI proof) (replay_expiry proof) (vs_replay s) =
      (Ok tt, vs_replay s')
  | inr _ => vs_replay s' = vs_replay s
  end.

Definition resolve_request (raw : string) (now : Time) : ResolveAccessTokenRequest :=
  {| rr_Raw := raw; rr_Now := now; rr_MaxClockSkew := v_skew |}.

(** A verified request: the token it carries, resolved, is bound to what its
    sender proved, unexpired, and under no revoked key. *)
Definition verified_as (req : VerifyRequest) (s : VState) (authz : AuthorizationContext)
    (s' : VState) (raw : string) (now : Time) (credential : VerifiedProof + string)
    (resolved : ResolvedAccessToken) : Prop :=
  carries req raw (usedDPoP authz) ∧ usedDPoP authz = by_dpop credential ∧
  (v_Clock (vs_env s)).1 = now ∧
  (∃ env, ResolveAccessToken v_AccessTokens (resolve_request raw now) (v_Clock (vs_env s)).2 =
    (Ok resolved, env)) ∧
  speaks_for authz resolved ∧ proves req raw now credential ∧
  presented_of credential ≠ "" ∧
  rt_SenderConstrain resolved = constrain_of credential ∧
  rt_Thumbprint resolved = presented_of credential ∧
  (now ≤ rt_ExpiresAt resolved + v_skew)%Z ∧
  Forall (λ k, ¬ rv_revoked (vs_revocation s) k)
    (rt_Key resolved :: grant_keys (rt_Issuer resolved) (rt_Claims resolved)) ∧
  spent_credential credential s s'.

Lemma checkBinding_Ok resolved credential now u :
  checkBinding resolved credential now = Ok u →
  rt_SenderConstrain resolved = constrain_of credential ∧ presented_of credential ≠ "" ∧
  rt_Thumbprint resolved = presented_of credential ∧ (now ≤ rt_ExpiresAt resolved + v_skew)%Z ∧
  ∀ lifetime, unrevocableLifetime = Some lifetime →
    (Sub (rt_ExpiresAt resolved) now ≤ SaturatingAdd [lifetime; v_skew])%Z.
Proof.
  unfold checkBinding. intros H.
  apply bind_Ok in H as (? & Hc%guard_err_Ok%bool_decide_eq_true & H).
  apply bind_Ok in H as (? & Hp%guard_err_Ok%andb_true_iff & H).
  apply bind_Ok in H as (? & He%guard_err_Ok%negb_true_iff%bool_decide_eq_false & H).
  destruct Hp as [Hne%negb_true_iff%bool_decide_eq_false Ht%bool_decide_eq_true].
  split_and!; try done; [unfold Add in He; lia|]. intros lifetime Hl.
  unfold checkUnrevocableLifetime in H. rewrite Hl in H.
  by apply guard_err_Ok, bool_decide_eq_true in H.
Qed.

Lemma resolveAccessToken_Ok raw now s resolved s' :
  resolveAccessToken raw now s = (Ok resolved, s') →
  vs_replay s' = vs_replay s ∧ vs_revocation s' = vs_revocation s ∧
  ResolveAccessToken v_AccessTokens (resolve_request raw now) (vs_env s) =
    (Ok resolved, vs_env s').
Proof.
  unfold resolveAccessToken. intros Hr%map_err_Ok. apply zoom_run in Hr as (x & Hx & ->). done.
Qed.

Lemma resource_Verify_Ok req s authz s' :
  Verify req s = (Ok authz, s') →
  ∃ raw now credential resolved, verified_as req s authz s' raw now credential resolved.
Proof.
  unfold Verify. destruct (parseAuthorization req) as [[[p raw] used]|[e used]] eqn:Hp; [|done].
  apply parseAuthorization_Ok in Hp as (Hcar & Hh & _). intros Hr%map_err_Ok.
  apply ebind_Ok in Hr as (c & s1 & Hr & Hend).
  apply ebind_Ok in Hr as (targets & s2 & [Ht ->]%lift_Ok & Hr).
  apply requestTargets_covered in Ht as [_ Hcov].
  apply ebind_Ok in Hr as (now & s2 & Hn & Hr). unfold Now, on_env, zoom in Hn.
  destruct (v_Clock (vs_env s)) as [t x'] eqn:Hclock. injection Hn as <- <-.
  apply ebind_Ok in Hr as (credential & s2 & Hc & Hr).
  assert (Hraw : raw ≠ "").
  { unfold carries in Hcar. destruct (cut_at _ _). by destruct Hcar as (_ & ? & _). }
  apply (resolveCredential_Ok _ _ _ _ _ _ _ _ _ Hraw Hcov Hh) in Hc as (-> & Hproves & Hused).
  apply ebind_Ok in Hr as (resolved & s2 & Hres & Hr).
  apply resolveAccessToken_Ok in Hres as (Hrep & Hrev & Hres). simpl in Hrep, Hrev, Hres.
  apply ebind_Ok in Hr as ([] & s3 & [Hb ->]%lift_Ok & Hr).
  apply checkBinding_Ok in Hb as (Hcon & Hne & Hth & Hexp & _).
  apply ebind_Ok in Hr as ([] & s3 & Hnr & Hr). apply checkNotRevoked_Ok in Hnr as (-> & _ & Hlive).
  apply ebind_Ok in Hr as (kind & s3 & [Hkind ->]%lift_Ok & Hr).
  apply ebind_Ok in Hr as ([sub csub] & s3 & Hs & [-> ->]%ret_Ok).
  pose proof (resolveSubjects_env _ _ _ _ Hs) as [Hs1 _].
  apply ebind_Ok in Hend as (nonce & s4 & Hf & [-> ->]%ret_Ok). simpl in Hf.
  apply finish_credential_Ok in Hf. exists raw, t, credential, resolved.
  rewrite Hrev in Hlive. unfold verified_as, speaks_for. simpl. rewrite Hclock.
  split_and!; try done; [by eexists|by eauto|by apply Hproves|].
  unfold spent_credential. destruct credential as [proof|].
  - destruct Hf as (x & Hx & ->). by rewrite Hs1, Hrep in Hx.
  - by rewrite Hf, Hs1, Hrep.
Qed.

(** C5. A request a resource server verifies speaks for the holder of a live
    token. The token it carries was resolved (for its issuer, audience and
    signature, or its record) at the present time; it is bound to the key of
    a DPoP proof made for this very method, URI and token, or to the client
    certificate of the connection; it has not expired; neither its own
    revocation key nor any key of its grant, or of the grant its code came
    from, is revoked; what the handler is told is what the token says; and
    the proof is spent. *)
Theorem verified_request_authorized req s authz s' :
  Verify req s = (Ok authz, s') →
  ∃ raw now credential resolved, verified_as req s authz s' raw now credential resolved.
Proof. apply resource_Verify_Ok. Qed.
End verifier.

(** * What a request leaves behind *)

Section frames.
Context {V : Verifier} `{!RevocationCheckerLaws v_RevocationT}.

(** Only the environment may have changed. *)
Definition reads_only (s s' : VState) : Prop :=
  vs_replay s' = vs_replay s ∧ vs_revocation s' = vs_revocation s ∧ vs_nonces s' = vs_nonces s ∧
  vs_rotator s' = vs_rotator s ∧ vs_random s' = vs_random s.

#[export] Instance reads_only_preorder : PreOrder reads_only.
Proof.
  split; [by intros s; split_and!|]. intros s1 s2 s3 (?&?&?&?&?) (?&?&?&?&?).
  split_and!; congruence.
Qed.

Lemma reads_on_env {E A} (m : eff v_Env E A) : respects reads_only (on_env m).
Proof. intros s r s' Hr. apply zoom_run in Hr as (x & _ & ->). by split_and!. Qed.

Lemma reads_on_revocation {E A} (m : eff v_RevocationT E A) :
  (∀ x r y, m x = (r, y) → y = x) → respects reads_only (on_revocation m).
Proof.
  intros Hm s r s' Hr. apply zoom_run in Hr as (x & Hx & ->). apply Hm in Hx as ->.
  by split_and!.
Qed.

Lemma reads_is_revoked k : respects reads_only (on_revocation (rv_IsRevoked k)).
Proof. apply reads_on_revocation. intros x r y. apply rv_is_revoked_same. Qed.
#[local] Hint Resolve reads_on_env reads_is_revoked : frames.

Lemma reads_Dpop_Verify (req : Dpop.VerifyRequest VState) :
  vr_Replay req = None → respects reads_only (Dpop.Verify req).
Proof.
  intros Hnone. unfold Dpop.Verify, require. rewrite Hnone. frame.
Qed.

Lemma reads_checkKeysNotRevoked keys : respects reads_only (checkKeysNotRevoked keys).
Proof. induction keys; simpl; frame. Qed.
#[local] Hint Resolve reads_checkKeysNotRevoked : frames.

Lemma reads_check_claims l issuer claims :
  respects reads_only (check_claims_not_revoked l issuer claims).
Proof. induction l as [|[claim keys] l IH]; simpl; frame. Qed.
#[local] Hint Resolve reads_check_claims : frames.

Lemma reads_checkNotRevoked resolved : respects reads_only (checkNotRevoked resolved).
Proof.
  unfold checkNotRevoked, checkAnyRevoked, checkEachNotRevoked, checkGrantNotRevoked.
  destruct rv_IsAnyRevoked as [f|] eqn:Hf; [|frame].
  assert (∀ ks, respects reads_only (on_revocation (f ks))).
  { intros ks. apply reads_on_revocation. intros x r y. by apply rv_any_same. }
  frame.
Qed.

Lemma reads_resolveSubjects resolved : respects reads_only (resolveSubjects resolved).
Proof.
  unfold resolveSubjects, mapPairwiseSubject, lookUpPairwiseSubject, pairwiseResult.
  frame.
Qed.

Lemma reads_resolveCredential req targets p raw used now :
  respects reads_only (resolveCredential req targets p raw used now).
Proof.
  unfold resolveCredential. destruct used; [|frame].
  destruct (bool_decide _); [frame|].
  apply (respects_bind _); [|intros ?; frame]. apply (respects_map_err _).
  by apply reads_Dpop_Verify.
Qed.
#[local] Hint Resolve reads_checkNotRevoked reads_resolveSubjects reads_resolveCredential : frames.

(** The errors of spending a proof are not about the token. *)
Lemma finish_credential_Err credential now s e s' :
  finish_credential credential now s = (Err e, s') → re_code e ≠ ErrorInvalidToken.
Proof.
  destruct credential as [proof|]; [|done]. intros [Hc|(? & s1 & _ & Hn)]%ebind_Err.
  - apply ebind_Err in Hc as [Hc|(? & s1 & _ & Hc)].
    + destruct v_has_nonces; [|done].
      apply ebind_Err in Hc as [Hc|(r & s1 & _ & Hc)].
      { unfold try in Hc. by destruct (on_nonces _ _). }
      destruct r as [[]|[]]; try done; try (by injection Hc as <- _);
        (apply ebind_Err in Hc as [Hc|(? & s2 & _ & Hc)];
          [by apply map_err_Err in Hc as (? & _ & ->)|by injection Hc as <- _]).
    + apply map_err_Err in Hc as (err & _ & ->). by destruct (storeUnavailable err).
  - destruct v_has_nonces; [|done]. by apply map_err_Err in Hn as (? & _ & ->).
Qed.

Lemma reads_checked_token req p raw used :
  respects reads_only (checked_token req p raw used).
Proof. unfold checked_token, resolveAccessToken, Now. frame. Qed.
#[local] Hint Resolve reads_checked_token : frames.

(** A request whose token is refused writes nothing: no proof is spent, no
    nonce issued and no randomness drawn for a sender without a valid
    token. *)
Theorem refused_token_writes_nothing req s e s' :
  Verify req s = (Err e, s') → re_code e = ErrorInvalidToken → reads_only s s'.
Proof.
  unfold Verify. destruct (parseAuthorization req) as [[[p raw] used]|[e' used]];
    [|by intros [= _ <-] _; split_and!].
  intros (e0 & Hr & ->)%map_err_Err Hcode.
  assert (Hcode0 : re_code e0 = ErrorInvalidToken) by by destruct used.
  apply ebind_Err in Hr as [Hr|(c & s1 & Hc & Hr)].
  { by eapply reads_checked_token. }
  apply ebind_Err in Hr as [Hr|(? & ? & _ & Hr)]; [|done].
  by apply finish_credential_Err in Hr.
Qed.
(** * A proof is spent once *)

Context `{!ReplayLaws v_ReplayT}.

Definition replay_le (s s' : VState) : Prop := used_le (vs_replay s) (vs_replay s').

#[export] Instance replay_le_preorder : PreOrder replay_le.
Proof.
  split; [by intros s n d|]. intros s1 s2 s3 H12 H23 n d Hd. by apply H23, H12.
Qed.

Lemma reads_only_le s s' : reads_only s s' → replay_le s s'.
Proof. intros [Hr _]. unfold replay_le. rewrite Hr. by intros n d. Qed.

Lemma replay_le_finish credential now : respects replay_le (finish_credential credential now).
Proof.
  assert (Hn : ∀ E A (m : eff _ E A), respects replay_le (on_nonce_state m)).
  { intros E A m s r s' Hr. apply zoom_run in Hr as (x & _ & ->). by intros n d. }
  assert (Hv : ∀ E A (m : eff v_NoncesT E A), respects replay_le (on_nonces m)).
  { intros E A m s r s' Hr. apply zoom_run in Hr as (x & _ & ->). by intros n d. }
  assert (Hu : ∀ u, respects replay_le (on_replay (UseOnce u))).
  { intros u s r s' Hr. apply zoom_run in Hr as (x & Hx & ->). by eapply use_once_le. }
  unfold finish_credential, consumeDPoPProof, checkDPoPNonce, issueDPoPNonce, replay_UseOnce.
  frame.
Qed.

Lemma replay_le_Verify req : respects replay_le (Verify req).
Proof.
  assert (Hc : ∀ p raw used, respects replay_le (checked_token req p raw used)).
  { intros p raw used s r s' Hr. apply reads_only_le. by eapply reads_checked_token. }
  pose proof replay_le_finish as Hf. unfold Verify, verify_token. frame.
Qed.

(** A request verified, with any outcome, or anything else, as long as the
    replay store forgets no digest. *)
Inductive verifier_step : VState → VState → Prop :=
| step_verify req s r s' : Verify req s = (r, s') → verifier_step s s'
| step_other s s' : replay_le s s' → verifier_step s s'.

Lemma verifier_steps_le s s' : rtc verifier_step s s' → replay_le s s'.
Proof.
  induction 1 as [|s s1 s2 Hstep _ IH]; [reflexivity|]. transitivity s1; [|done].
  destruct Hstep as [req s r s' Hr|]; [by eapply replay_le_Verify|done].
Qed.

(** The DPoP proof a request was verified with. *)
Definition verified_proof (req : VerifyRequest) (s : VState) (authz : AuthorizationContext)
    (s' : VState) (c : Dpop.claims) (thumbprint : string) : Prop :=
  Verify req s = (Ok authz, s') ∧ usedDPoP authz = true ∧
  ∃ p, DPoPProofs req = [p] ∧ signed_claims p c thumbprint.

(** A proof verified is recorded under its key and jti. *)
Lemma verified_proof_used req s authz s' c t :
  verified_proof req s authz s' c t →
  ¬ digest_used (vs_replay s) dpopReplayNamespace (Digest t (JTI c)) ∧
  digest_used (vs_replay s') dpopReplayNamespace (Digest t (JTI c)).
Proof.
  intros (Hv & Hused & p & Hp & Hs).
  apply resource_Verify_Ok in Hv as (raw & now & credential & resolved & _ & Hby & _ & _ & _ & Hproves &
    _ & _ & _ & _ & _ & Hspent).
  rewrite Hused in Hby. destruct credential as [proof|]; [|done].
  destruct Hproves as (p' & c' & htu & u & r & Hp' & Hs' & Hj & _).
  rewrite Hp in Hp'. injection Hp' as <-.
  destruct (signed_claims_fun _ _ _ _ _ Hs Hs') as [-> ->]. simpl in Hspent.
  rewrite Hj in Hspent. by apply use_once_Ok in Hspent.
Qed.

(** A DPoP proof authorizes one request. Once a resource server verified
    a request by a DPoP proof, it verifies no request by a proof of the same
    key and jti again, the same request included, whatever requests come in
    between. *)
Theorem resource_proof_spent_once req s authz s1 s2 req' authz' s3 c c' t :
  verified_proof req s authz s1 c t → rtc verifier_step s1 s2 →
  verified_proof req' s2 authz' s3 c' t → JTI c' ≠ JTI c.
Proof.
  intros [_ H1]%verified_proof_used Hsteps%verifier_steps_le [H2 _]%verified_proof_used Hj.
  rewrite Hj in H2. by apply H2, Hsteps.
Qed.
End frames.
