(* ===== verification/Frames.v ===== *)
(** What each step of the token endpoint's handlers leaves alone.

    A [Frame] is a preorder on worlds that allows any change of the parts the
    modelled code keeps no promises about: the environment and randomness,
    the transaction and nonce stores and the audit log. Every step below respects every
    frame, except those that write the grant, revocation or backchannel
    store; the instances [stores_same] and [stores_le] say that a step leaves
    those stores as they were, or forgets no redemption or revocation. *)
From S2P Require Import Prelude GoStrings Json GoTime Sha256 Digests Effects Storage.
From S2P Require Import Platform ServerTypes Rar JsonCodec Nonce Records Claims Dpop Jose.
From S2P Require Import Canonical Extensions Attestation ClientAuth ServerState.
From S2P Require Import TokenChecks.
From S2P Require Import Issue CodeExchange Refresh.
From S2P Require Import BackchannelToken.
From stdpp Require Import options.

Set Default Proof Using "Type*".

Class Frame {S : Server} (R : World → World → Prop) := {
  frame_preorder :: PreOrder R;
  frame_env s w : R w (set_random_env s w);
  frame_nonces s w : R w (set_nonce_state s w);
  frame_audit l w : R w (set_audit l w) }.

(** A frame that allows any change of the transaction store too. *)
Class TransactionFrame {S : Server} (R : World → World → Prop) := {
  transaction_frame :: Frame R;
  frame_transactions t w : R w (set_transactions t w) }.

Section frame.
Context {S : Server} (R : World → World → Prop) `{!Frame R}.

Lemma respects_on_env {E A} (m : eff Env E A) : respects R (on_env m).
Proof. apply respects_zoom. intros w r t _. apply frame_env. Qed.
Lemma respects_on_random_env {E A} (m : eff (Pkce.reader * Env) E A) :
  respects R (on_random_env m).
Proof. apply respects_zoom. intros w r t _. apply frame_env. Qed.
Lemma respects_on_random {E A} (m : eff Pkce.reader E A) : respects R (on_random m).
Proof. apply respects_on_random_env. Qed.
Lemma respects_on_nonces {E A} (m : eff NoncesT E A) : respects R (on_nonces m).
Proof. apply respects_zoom. intros w r t _. apply frame_nonces. Qed.
Lemma respects_on_nonce_state {E A} (m : eff _ E A) : respects R (on_nonce_state m).
Proof. apply respects_zoom. intros w r t _. apply frame_nonces. Qed.
Lemma respects_Now {E} : respects R (@Now S E).
Proof. apply respects_on_env. Qed.
Lemma respects_set_audit {E} (f : World → list AuditEvent) :
  respects R ((λ w, (Ok tt, set_audit (f w) w)) : eff World E unit).
Proof. intros w r w' [= <- <-]. apply frame_audit. Qed.

#[local] Hint Resolve respects_on_env respects_on_random_env respects_on_random respects_on_nonces
  respects_on_nonce_state respects_Now respects_set_audit : frames.

Lemma respects_check b c status desc : respects R (check b c status desc).
Proof. unfold check. frame. Qed.
Lemma respects_audit {E} typ client outcome desc :
  respects R (@audit S E typ client outcome desc).
Proof. unfold audit. frame. Qed.
#[local] Hint Resolve respects_check respects_audit : frames.

Lemma respects_or_fail {A} typ client (m : srv A) :
  respects R m → respects R (or_fail typ client m).
Proof. intros Hm. unfold or_fail. frame. Qed.
#[local] Hint Resolve respects_or_fail : frames.

Lemma respects_issueDPoPNonce now : respects R (issueDPoPNonce now).
Proof. unfold issueDPoPNonce. frame. Qed.
#[local] Hint Resolve respects_issueDPoPNonce : frames.
Lemma respects_checkDPoPNonce presented now : respects R (checkDPoPNonce presented now).
Proof. unfold checkDPoPNonce. frame. Qed.
Lemma respects_nextDPoPNonce client now : respects R (nextDPoPNonce client now).
Proof. unfold nextDPoPNonce, nextTokenEndpointDPoPNonce. frame. Qed.
#[local] Hint Resolve respects_checkDPoPNonce respects_nextDPoPNonce : frames.
Lemma respects_attachNextDPoPNonce client err : respects R (attachNextDPoPNonce client err).
Proof. unfold attachNextDPoPNonce. frame. Qed.
#[local] Hint Resolve respects_attachNextDPoPNonce : frames.
Lemma respects_attachNextDPoPNonceOnFailure {A} client (m : srv A) :
  respects R m → respects R (attachNextDPoPNonceOnFailure client m).
Proof. intros Hm. unfold attachNextDPoPNonceOnFailure. frame. Qed.

Lemma respects_authenticateRequest params creds e me :
  respects R (authenticateRequest params creds e me).
Proof. unfold authenticateRequest, resolveDPoPProof, resolveAttestationHeaders. frame. Qed.
Lemma respects_verifyTokenRequestBinding client proof cert :
  respects R (verifyTokenRequestBinding client proof cert).
Proof.
  unfold verifyTokenRequestBinding, verifyTokenRequestDPoP, verifyDPoPAtEitherEndpoint. frame.
Qed.
Lemma respects_parseForm params : respects R (parseForm params).
Proof. unfold parseForm. frame. Qed.

Lemma respects_checkRequestedResources client requested :
  respects R (checkRequestedResources client requested).
Proof. unfold checkRequestedResources. frame. Qed.
#[local] Hint Resolve respects_checkRequestedResources : frames.
Lemma respects_narrowedAccessGrant client grant details requested :
  respects R (narrowedAccessGrant client grant details requested).
Proof. unfold narrowedAccessGrant, narrowedAudience. frame. Qed.
#[local] Hint Resolve respects_narrowedAccessGrant : frames.
Lemma respects_allowedGrantAudience client grant scope details requested :
  respects R (allowedGrantAudience client grant scope details requested).
Proof. unfold allowedGrantAudience. frame. Qed.

Lemma respects_issueAccessToken p : respects R (issueAccessToken p).
Proof. unfold issueAccessToken. frame. Qed.
Lemma respects_issueIDTokenForGrant client grant nonce token :
  respects R (issueIDTokenForGrant client grant nonce token).
Proof. unfold issueIDTokenForGrant, withIdentityClaims, issueIDToken. frame. Qed.
#[local] Hint Resolve respects_issueAccessToken respects_issueIDTokenForGrant : frames.
Lemma respects_issueOptionalIDToken client grant token result :
  respects R (issueOptionalIDToken client grant token result).
Proof. unfold issueOptionalIDToken. frame. Qed.
Lemma respects_addNextDPoPNonce client now result : respects R (addNextDPoPNonce client now result).
Proof. unfold addNextDPoPNonce. frame. Qed.
Lemma respects_isOwnAccessToken clientID token : respects R (isOwnAccessToken clientID token).
Proof. unfold isOwnAccessToken, isOwnOpaqueAccessToken. frame. Qed.
End frame.

#[export] Hint Resolve respects_on_env respects_on_random_env respects_on_random respects_Now
  respects_checkDPoPNonce respects_issueDPoPNonce
  respects_check respects_audit respects_or_fail respects_attachNextDPoPNonce respects_attachNextDPoPNonceOnFailure
  respects_authenticateRequest respects_verifyTokenRequestBinding respects_parseForm
  respects_checkRequestedResources respects_narrowedAccessGrant respects_allowedGrantAudience
  respects_issueAccessToken respects_issueIDTokenForGrant respects_issueOptionalIDToken
  respects_addNextDPoPNonce respects_isOwnAccessToken : frames.

#[export] Hint Extern 0 (Frame _) => typeclasses eauto : frames.

(** * The stores unchanged *)

Section same.
Context {S : Server}.

Definition stores_same (w w' : World) : Prop :=
  w_grants w' = w_grants w ∧ w_revocation w' = w_revocation w ∧
  w_backchannel w' = w_backchannel w.

#[export] Instance stores_same_frame : TransactionFrame stores_same.
Proof.
  split; [split|]; try (intros; by split_and!).
  split; [intros w; by split_and!|].
  intros w1 w2 w3 (?&?&?) (?&?&?). split_and!; congruence.
Qed.

(** Reading the revocation store and the refresh tokens. *)
Lemma anyRevoked_same `{!RevocationLaws RevocationT} f keys s r s' :
  grantRevocationReader = Some f → anyRevoked f keys s = (r, s') → s' = s.
Proof.
  unfold grantRevocationReader, anyRevoked. intros Hf. destruct IsAnyRevoked as [g|] eqn:Hg.
  { intros Hr. by eapply is_any_revoked_same. }
  revert s. induction keys as [|k keys IH]; intros s Hr; simpl in Hr; [by injection Hr as <- <-|].
  unfold ebind in Hr. destruct (f k s) as [[[]|e] s1] eqn:H1;
    apply (is_revoked_same _ _ _ _ _ Hf) in H1 as ->; try (by injection Hr as <- <-). by apply IH.
Qed.

Lemma respects_checkGrantNotRevoked `{!RevocationLaws RevocationT} grant :
  respects stores_same (checkGrantNotRevoked grant).
Proof.
  unfold checkGrantNotRevoked. destruct (bool_decide _); [frame|].
  destruct grantRevocationReader as [f|] eqn:Hf; [|frame].
  apply (respects_bind _); [|intros []; frame]. apply (respects_map_err _).
  apply respects_zoom. intros w r t Hr. apply (anyRevoked_same f _ _ _ _ Hf) in Hr as ->. done.
Qed.

#[local] Hint Resolve respects_checkGrantNotRevoked : frames.

Lemma respects_redeemRefreshGrant
    `{!RevocationLaws RevocationT, !GrantStoreLaws GrantsT} clientID ik token :
  respects stores_same (redeemRefreshGrant clientID ik token).
Proof.
  unfold redeemRefreshGrant. apply (respects_bind _).
  { apply (respects_map_err _), respects_zoom. intros w r t Hr.
    apply redeem_refresh_same in Hr as ->. done. }
  intros redeemed. frame.
Qed.
End same.

#[export] Hint Resolve respects_checkGrantNotRevoked respects_redeemRefreshGrant : frames.

(** * The token endpoint's handlers

    A [TokenFrame] also allows what the token endpoint writes: every use of
    the grant store but the creation of a code, what it writes and reads of
    the revocation store, and any use of the backchannel store. *)
Class TokenFrame {S : Server} (R : World → World → Prop) := {
  token_frame :: Frame R;
  frame_redeem_code c : respects R (on_grants (RedeemAuthorizationCode c));
  frame_record_access h k t : respects R (on_grants (RecordIssuedAccessToken h k t));
  frame_record_refresh h r t : respects R (on_grants (RecordIssuedRefreshToken h r t));
  frame_record_tokens f h k t r t' :
    RecordIssuedTokens = Some f → respects R (on_grants (f h k t r t'));
  frame_create_refresh t : respects R (on_grants (CreateRefreshToken t));
  frame_redeem_refresh t : respects R (on_grants (RedeemRefreshToken t));
  frame_revoke_refresh h : respects R (on_grants (RevokeRefreshToken h));
  frame_revoke k t : respects R (on_revocation (Revoke k t));
  frame_any_revoked f keys :
    grantRevocationReader = Some f → respects R (on_revocation (anyRevoked f keys));
  frame_poll p : respects R (on_backchannel (PollBackchannel p)) }.

Section token.
Context {S : Server} (R : World → World → Prop) `{!TokenFrame R}.

#[local] Hint Resolve frame_redeem_code frame_record_access frame_record_refresh
  frame_create_refresh frame_redeem_refresh frame_revoke_refresh frame_revoke frame_any_revoked
  frame_poll : frames.

Lemma token_checkGrantNotRevoked grant : respects R (checkGrantNotRevoked grant).
Proof.
  unfold checkGrantNotRevoked. destruct (bool_decide _); [frame|].
  destruct grantRevocationReader as [f|] eqn:Hf; [|frame].
  apply (respects_bind _); [|intros []; frame]. apply (respects_map_err _).
  by apply frame_any_revoked.
Qed.
#[local] Hint Resolve token_checkGrantNotRevoked : frames.
Lemma token_redeemRefreshGrant clientID ik token : respects R (redeemRefreshGrant clientID ik token).
Proof. unfold redeemRefreshGrant. frame. Qed.
#[local] Hint Resolve token_redeemRefreshGrant : frames.

Lemma respects_RevokeGrant grantID : respects R (RevokeGrant grantID).
Proof. unfold RevokeGrant. frame. Qed.
Lemma respects_revokeCodeGrant id : respects R (revokeCodeGrant id).
Proof. unfold revokeCodeGrant. frame. Qed.
Lemma respects_issueRefreshToken clientID grant binding :
  respects R (issueRefreshToken clientID grant binding).
Proof. unfold issueRefreshToken. frame. Qed.
#[local] Hint Resolve respects_RevokeGrant respects_revokeCodeGrant respects_issueRefreshToken : frames.

Lemma respects_issueCodeExchangeTokens client grant params binding codeHash result :
  respects R (issueCodeExchangeTokens client grant params binding codeHash result).
Proof.
  unfold issueCodeExchangeTokens, issue_separately, issueOptionalRefreshToken.
  destruct RecordIssuedTokens as [f|] eqn:Hr; [|frame].
  assert (∀ h k t r t', respects R (on_grants (f h k t r t'))) by (intros; by apply frame_record_tokens).
  frame.
Qed.
#[local] Hint Resolve respects_issueCodeExchangeTokens : frames.

Lemma respects_revokeTokensForReusedCode err client h :
  respects R (revokeTokensForReusedCode err client h).
Proof. unfold revokeTokensForReusedCode. frame. Qed.
#[local] Hint Resolve respects_revokeTokensForReusedCode : frames.

Lemma respects_redeemedCodeGrant client redeemed h presented now :
  respects R (redeemedCodeGrant client redeemed h presented now).
Proof. unfold redeemedCodeGrant. frame. Qed.
#[local] Hint Resolve respects_redeemedCodeGrant : frames.

Lemma respects_ExchangeAuthorizationCode req : respects R (ExchangeAuthorizationCode req).
Proof.
  unfold ExchangeAuthorizationCode. destruct takeResourceParameters.
  unfold exchange_code, redeem_code. frame.
Qed.

Lemma respects_RefreshAccessToken req : respects R (RefreshAccessToken req).
Proof.
  unfold RefreshAccessToken. destruct takeResourceParameters.
  unfold refresh, redeemRefreshGrantFor. frame.
Qed.

Lemma respects_RevokeToken req : respects R (RevokeToken req).
Proof. unfold RevokeToken, revokeRefreshToken. frame. Qed.

Lemma respects_ExchangeBackchannelAuthentication req :
  respects R (ExchangeBackchannelAuthentication req).
Proof.
  unfold ExchangeBackchannelAuthentication. destruct takeResourceParameters.
  unfold exchange_backchannel, pollBackchannelAuthentication, usableGrantAudience,
    checkGrantUsable, issueBackchannelOptionalTokens. frame.
Qed.
End token.

#[export] Hint Resolve frame_redeem_code frame_revoke_refresh frame_revoke frame_poll
  token_checkGrantNotRevoked token_redeemRefreshGrant respects_RevokeGrant respects_revokeCodeGrant
  respects_issueRefreshToken respects_issueCodeExchangeTokens respects_revokeTokensForReusedCode
  respects_redeemedCodeGrant : frames.

(** * The stores never forget *)

Section monotone.
Context {S : Server} `{!GrantStoreLaws GrantsT, !RevocationLaws RevocationT}.

Definition stores_le (w w' : World) : Prop :=
  grants_le (w_grants w) (w_grants w') ∧ revoked_le (w_revocation w) (w_revocation w').

#[export] Instance stores_le_frame : TransactionFrame stores_le.
Proof.
  split; [split|]; try (intros; by split).
  split; [intros w; by split|]. intros w1 w2 w3 [? ?] [? ?]. split; by etransitivity.
Qed.

Lemma stores_same_le w w' : stores_same w w' → stores_le w w'.
Proof. intros (Hg & Hv & _). unfold stores_le. rewrite Hg, Hv. by split. Qed.

Lemma respects_same_le {E A} (m : eff World E A) : respects stores_same m → respects stores_le m.
Proof. intros Hm w r w' Hr. by eapply stores_same_le, Hm. Qed.

Lemma on_grants_le {E A} (m : eff GrantsT E A) :
  respects grants_le m → respects stores_le (on_grants m).
Proof. intros Hm. apply respects_zoom. intros w r t Hr. split; [by eapply Hm|done]. Qed.
Lemma on_revocation_le {E A} (m : eff RevocationT E A) :
  respects revoked_le m → respects stores_le (on_revocation m).
Proof. intros Hm. apply respects_zoom. intros w r t Hr. split; [done|by eapply Hm]. Qed.

#[export] Instance stores_le_token : TokenFrame stores_le.
Proof.
  split; try apply _; intros; try apply on_grants_le; try apply on_revocation_le.
  - apply redeem_code_le.
  - apply record_access_le.
  - apply record_refresh_le.
  - by apply record_tokens_le.
  - apply create_refresh_le.
  - apply redeem_refresh_le.
  - apply revoke_refresh_le.
  - apply revoke_le.
  - intros s r s' Hr. by apply (anyRevoked_same f _ _ _ _ H) in Hr as ->.
  - apply respects_zoom. intros w r t Hr. by split.
Qed.
End monotone.

#[export] Hint Resolve on_grants_le on_revocation_le : frames.
#[export] Hint Extern 0 (TokenFrame _) => apply _ : frames.

(** * What one handler writes of one store: [writes get P m] says that every
    run of [m], whatever it returns, leaves the part [get] of the world alone
    or changes it as [P] says. *)

Section writes.
Context {S : Server} {X : Type} (get : World → X).

Definition same (w w' : World) : Prop := get w' = get w.

#[export] Instance same_preorder : PreOrder same.
Proof. unfold same. split; [done|]. intros w1 w2 w3. congruence. Qed.

Context (P : X → X → Prop).

Definition writes {E A} (m : eff World E A) : Prop :=
  ∀ w r w', m w = (r, w') → same w w' ∨ P (get w) (get w').

Lemma writes_same {E A} (m : eff World E A) : respects same m → writes m.
Proof. intros Hm w r w' Hrun. left. by eapply Hm. Qed.

(** The write comes after [m], which succeeded. *)
Lemma writes_after {E A B} (m : eff World E A) (k : A → eff World E B) :
  respects same m → (∀ a w w', m w = (Ok a, w') → writes (k a)) → writes (ebind m k).
Proof.
  intros Hm Hk w r w' Hrun. unfold ebind in Hrun. destruct (m w) as [[a|e] w1] eqn:Hmw.
  - specialize (Hm _ _ _ Hmw). unfold same in *. rewrite <-Hm. by eapply Hk.
  - injection Hrun as <- <-. left. by eapply Hm.
Qed.

(** The write is made by [m]. *)
Lemma writes_before {E A B} (m : eff World E A) (k : A → eff World E B) :
  writes m → (∀ a, respects same (k a)) → writes (ebind m k).
Proof.
  intros Hm Hk w r w' Hrun. unfold ebind in Hrun. destruct (m w) as [[a|e] w1] eqn:Hmw.
  - specialize (Hk _ _ _ _ Hrun). unfold same in *. rewrite Hk. by eapply Hm.
  - injection Hrun as <- <-. by eapply Hm.
Qed.

Lemma writes_map_err {E E' A} (f : E → E') (m : eff World E A) : writes m → writes (map_err f m).
Proof.
  intros Hm w r w'. unfold map_err. destruct (m w) as [[a|e] w1] eqn:Hmw; intros [= <- <-];
    by eapply Hm.
Qed.

Lemma writes_try {E E' A} (m : eff World E A) : writes m → writes (@try _ E E' A m).
Proof. intros Hm w r w'. unfold try. destruct (m w) eqn:Hw. intros [= _ <-]. by eapply Hm. Qed.
End writes.

Section parts.
Context {S : Server}.

#[export] Instance same_transactions_token : TokenFrame (same w_transactions).
Proof.
  split; try (split; try done; apply _); intros; unfold on_grants, on_revocation, on_backchannel;
    apply respects_zoom; by intros ? ? ? ?.
Qed.

#[export] Instance same_grants_frame : TransactionFrame (same w_grants).
Proof. split; [split|]; try done. apply _. Qed.

#[export] Instance same_revocation_frame : TransactionFrame (same w_revocation).
Proof. split; [split|]; try done. apply _. Qed.

Lemma writes_or_fail {X} (get : World → X) `{!Frame (same get)} P {A} typ client (m : srv A) :
  writes get P m → writes get P (or_fail typ client m).
Proof.
  intros Hm. unfold or_fail. apply writes_before; [by apply writes_try|]. intros [a|e]; frame.
Qed.
End parts.
