(* ===== verification/FrontFrames.v ===== *)
(** What the pushed authorization request endpoint, the authorization
    endpoint and the CIBA endpoints leave alone: every step of theirs respects
    every frame (Frames.v), the storing of a code and the calls of the
    backchannel store excepted. *)
From S2P Require Import Prelude GoStrings Json GoTime Effects Storage Platform.
From S2P Require Import ServerTypes Rar JsonCodec Nonce Records Claims Dpop Jose.
From S2P Require Import Canonical.
From S2P Require Import Extensions RequestObject Attestation ClientAuth.
From S2P Require Import ServerState.
From S2P Require Import TokenChecks Issue BackchannelToken Parameters ClaimsParameter.
From S2P Require Import Subjects Par Authorization Completion Ciba Frames.
From stdpp Require Import options.

Set Default Proof Using "Type*".

Section front.
Context {S : Server} {F : FrontServer} (R : World → World → Prop) `{!Frame R}.

Lemma respects_some_or_server {A} desc (o : option A) : respects R (some_or_server desc o).
Proof. unfold some_or_server. frame. Qed.
Lemma respects_clientSubjectFor client internal : respects R (clientSubjectFor client internal).
Proof. unfold clientSubjectFor. frame. Qed.
Lemma respects_internalSubjectFor client sub : respects R (internalSubjectFor client sub).
Proof. unfold internalSubjectFor. frame. Qed.
#[local] Hint Resolve respects_clientSubjectFor respects_internalSubjectFor : frames.
Lemma respects_requiredInternalSubject client required :
  respects R (requiredInternalSubject client required).
Proof. unfold requiredInternalSubject. frame. Qed.
Lemma respects_requiredSubject params clientID : respects R (requiredSubject params clientID).
Proof. unfold requiredSubject. frame. Qed.
#[local] Hint Resolve respects_requiredInternalSubject respects_requiredSubject : frames.

Lemma respects_checkExtensions client params source :
  respects R (checkExtensions client params source).
Proof. unfold checkExtensions, checked_extensions, applyRARPolicy. frame. Qed.
#[local] Hint Resolve respects_checkExtensions : frames.
Lemma respects_verifiedObject client alg raw : respects R (verifiedObject client alg raw).
Proof. unfold verifiedObject. frame. Qed.
#[local] Hint Resolve respects_verifiedObject : frames.
Lemma respects_resolveAuthorizationParameters params resources client :
  respects R (resolveAuthorizationParameters params resources client).
Proof. unfold resolveAuthorizationParameters, resolvePlainAuthorizationParameters. frame. Qed.
Lemma respects_reconcileParDPoPBinding proof params :
  respects R (reconcileParDPoPBinding proof params).
Proof. unfold reconcileParDPoPBinding, verifyDPoPAtEitherEndpoint. frame. Qed.
#[local] Hint Resolve respects_resolveAuthorizationParameters respects_reconcileParDPoPBinding
  : frames.
Lemma respects_pushed_parameters client params resources proof :
  respects R (pushed_parameters client params resources proof).
Proof. unfold pushed_parameters, validateAuthorizationRequest. frame. Qed.
Lemma respects_GenerateRequestURI : respects R GenerateRequestURI.
Proof. unfold GenerateRequestURI. frame. Qed.
#[local] Hint Resolve respects_pushed_parameters respects_GenerateRequestURI : frames.

Lemma respects_or_local {A B} typ client local (m : srv A) (k : A → srv B) :
  respects R m → (∀ a, respects R (k a)) → respects R (or_local typ client local m k).
Proof. intros Hm Hk. unfold or_local. frame. Qed.
#[local] Hint Resolve respects_or_local : frames.

Lemma respects_describe_interaction clientID pushed now :
  respects R (describe_interaction clientID pushed now).
Proof. unfold describe_interaction. frame. Qed.
#[local] Hint Resolve respects_describe_interaction : frames.

Lemma respects_checkAuthorizeResult clientID subject auth :
  respects R (checkAuthorizeResult clientID subject auth).
Proof. unfold checkAuthorizeResult, subjectAtClient. frame. Qed.
Lemma respects_loginRequiredProblem request auth sub :
  respects R (loginRequiredProblem request auth sub).
Proof. unfold loginRequiredProblem. frame. Qed.
Lemma respects_checkRedirectURIStillRegistered clientID uri :
  respects R (checkRedirectURIStillRegistered clientID uri).
Proof. unfold checkRedirectURIStillRegistered. frame. Qed.
Lemma respects_buildAuthorizationResponse clientID uri params :
  respects R (buildAuthorizationResponse clientID uri params).
Proof. unfold buildAuthorizationResponse, authorization_response, signJARMResponse. frame. Qed.
#[local] Hint Resolve respects_checkAuthorizeResult respects_loginRequiredProblem
  respects_checkRedirectURIStillRegistered respects_buildAuthorizationResponse : frames.
Lemma respects_completeErrorRedirect clientID uri state errorCode desc :
  respects R (completeErrorRedirect clientID uri state errorCode desc).
Proof. unfold completeErrorRedirect. frame. Qed.
#[local] Hint Resolve respects_completeErrorRedirect : frames.

Lemma respects_completeAuthorize clientID request uri state subject auth grant :
  (∀ sub sector approved,
    respects R (issue_code clientID request uri subject sub sector auth grant approved)) →
  respects R (completeAuthorize clientID request uri state subject auth grant).
Proof. intros Hissue. unfold completeAuthorize. frame. Qed.
End front.

#[export] Hint Resolve respects_some_or_server respects_pushed_parameters respects_GenerateRequestURI respects_or_local
  respects_describe_interaction respects_checkAuthorizeResult respects_loginRequiredProblem
  respects_checkRedirectURIStillRegistered respects_buildAuthorizationResponse
  respects_completeErrorRedirect : frames.

(** * The endpoints, which also write the transaction store *)

Lemma respects_on_transactions {S : Server} {F : FrontServer} R `{!TransactionFrame R} {E A}
    (m : eff TransactionsT E A) : respects R (on_transactions m).
Proof. apply respects_zoom. intros w r t _. apply frame_transactions. Qed.

Section endpoints.
Context {S : Server} {F : FrontServer} (R : World → World → Prop) `{!Frame R}.

Lemma respects_store_pushed client uri record expiresAt :
  (∀ p, respects R (on_transactions (CreatePAR p))) →
  respects R (store_pushed client uri record expiresAt).
Proof. intros Hw. unfold store_pushed. frame. Qed.
#[local] Hint Resolve respects_store_pushed : frames.

Lemma respects_PushAuthorizationRequest req :
  (∀ p, respects R (on_transactions (CreatePAR p))) → respects R (PushAuthorizationRequest req).
Proof. intros Hw. unfold PushAuthorizationRequest, push. destruct takeResourceParameters. frame. Qed.

Lemma respects_open_interaction req :
  (∀ b, respects R (on_transactions (BeginAuthorization b))) → respects R (open_interaction req).
Proof. intros Hw. unfold open_interaction, generateInteractionHandle, claimInteractionSlot. frame. Qed.

Lemma respects_BeginAuthorization req :
  (∀ b, respects R (on_transactions (BeginAuthorization b))) →
  respects R (Server_BeginAuthorization req).
Proof.
  intros Hw. unfold Server_BeginAuthorization.
  apply (respects_or_local R); [by apply respects_open_interaction|].
  intros [[[] ?] ?]. apply (respects_or_local R); [auto with frames|]. intros ?. frame.
Qed.

(** Completing an interaction writes the grant store only as [issue_code]
    does. *)
Lemma respects_CompleteAuthorization req :
  (∀ c, respects R (on_transactions (CompleteAuthorization c))) →
  (∀ clientID request uri subject sub sector auth grant approved,
    respects R (issue_code clientID request uri subject sub sector auth grant approved)) →
  respects R (Server_CompleteAuthorization req).
Proof.
  intros Hw Hissue. unfold Server_CompleteAuthorization. apply (respects_or_local R); [frame|].
  intros completed. apply (respects_or_local R); [|intros; frame].
  unfold complete, completeAuthorize, some_or_server. frame.
Qed.

Lemma respects_issue_code clientID request uri subject sub sector auth grant approved :
  (∀ c, respects R (on_grants (CreateAuthorizationCode c))) →
  respects R (issue_code clientID request uri subject sub sector auth grant approved).
Proof. intros Hw. unfold issue_code, some_or_server. frame. Qed.
End endpoints.

(** * What the CIBA endpoints leave alone: every step of Ciba.v respects every
    frame (Frames.v), the calls of the backchannel store excepted. *)

Section steps.
Context {S : Server} {F : FrontServer} (R : World → World → Prop) `{!Frame R}.

Lemma respects_validateBackchannel verified client :
  respects R (validateBackchannelAuthenticationRequest verified client).
Proof. unfold validateBackchannelAuthenticationRequest. frame. Qed.
Lemma respects_backchannelSubjects client params : respects R (backchannelSubjects client params).
Proof.
  unfold backchannelSubjects, backchannelRequiredInternalSubject, requiredSubject,
    requiredInternalSubject, internalSubjectFor. frame.
Qed.
Lemma respects_reconcileBackchannel proof params :
  respects R (reconcileBackchannelDPoPBinding proof params).
Proof. unfold reconcileBackchannelDPoPBinding, verifyDPoPAtEitherEndpoint. frame. Qed.
Lemma respects_generateAuthReqID : respects R generateAuthReqID.
Proof. unfold generateAuthReqID. frame. Qed.
Lemma respects_generateHandle : respects R generateBackchannelAuthenticationHandle.
Proof. unfold generateBackchannelAuthenticationHandle. frame. Qed.
Lemma respects_begin_authenticated req : respects R (begin_authenticated req).
Proof. unfold begin_authenticated. frame. Qed.
Lemma respects_approve h clientID request subject auth grant :
  respects R (approveBackchannelAuthentication h clientID request subject auth grant).
Proof. unfold approveBackchannelAuthentication, subjectAtClient, clientSubjectFor. frame. Qed.
#[local] Hint Resolve respects_approve : frames.
Lemma respects_backchannel_decision h clientID request result :
  respects R (backchannel_decision h clientID request result).
Proof. unfold backchannel_decision. frame. Qed.
Lemma respects_pending_backchannel h :
  respects R (on_backchannel (LookupBackchannelAuthentication h)) →
  respects R (pending_backchannel h).
Proof. intros Hw. unfold pending_backchannel. frame. Qed.
End steps.

#[export] Hint Resolve respects_validateBackchannel respects_backchannelSubjects
  respects_reconcileBackchannel respects_generateAuthReqID respects_generateHandle
  respects_begin_authenticated respects_backchannel_decision : frames.

Section ciba.
Context {S : Server} {F : FrontServer} {C : CibaServer} (R : World → World → Prop) `{!Frame R}.

Lemma respects_resolveBackchannel params client :
  respects R (resolveBackchannelAuthenticationParameters params client).
Proof.
  unfold resolveBackchannelAuthenticationParameters, verifiedBackchannelObject,
    checkBackchannelExtensions, checked_extensions, applyRARPolicy. frame.
Qed.
#[local] Hint Resolve respects_resolveBackchannel : frames.

Lemma respects_backchannel_request client params proof :
  respects R (backchannel_request client params proof).
Proof. unfold backchannel_request. frame. Qed.
Lemma respects_checkBackchannelHints clientID hints :
  respects R (checkBackchannelHints clientID hints).
Proof. unfold checkBackchannelHints. frame. Qed.
Lemma respects_notify decided : respects R (notifyBackchannelPing decided).
Proof. unfold notifyBackchannelPing. frame. Qed.
#[local] Hint Resolve respects_backchannel_request respects_checkBackchannelHints
  respects_notify : frames.

(** ** The endpoints *)

Lemma respects_begin_backchannel client params proof ik :
  (∀ n, respects R (on_backchannel (CreateBackchannelAuthentication n))) →
  respects R (begin_backchannel client params proof ik).
Proof. intros Hw. unfold begin_backchannel, store_backchannel. frame. Qed.

Lemma respects_BeginBackchannelAuthentication req :
  (∀ n, respects R (on_backchannel (CreateBackchannelAuthentication n))) →
  respects R (BeginBackchannelAuthentication req).
Proof.
  intros Hw. unfold BeginBackchannelAuthentication. apply (respects_or_local R); [frame|].
  intros [params [[client proof] ik]].
  apply (respects_or_local R); [by apply respects_begin_backchannel|]. intros ?. frame.
Qed.

Lemma respects_CompleteBackchannelAuthentication req :
  (∀ h, respects R (on_backchannel (LookupBackchannelAuthentication h))) →
  (∀ d, respects R (on_backchannel (DecideBackchannel d))) →
  respects R (CompleteBackchannelAuthentication req).
Proof.
  intros Hl Hd. unfold CompleteBackchannelAuthentication.
  apply (respects_bind R); [frame|intros _]. apply (respects_bind R);
    [by apply respects_pending_backchannel|intros pending]. frame.
Qed.

Lemma respects_LookupBackchannelInteraction handle :
  (∀ h, respects R (on_backchannel (LookupBackchannelAuthentication h))) →
  respects R (LookupBackchannelInteraction handle).
Proof. intros Hl. unfold LookupBackchannelInteraction. frame. Qed.
End ciba.

#[export] Hint Resolve respects_backchannel_request respects_checkBackchannelHints
  respects_notify : frames.

(** The backchannel store is written by its own calls only. *)
#[export] Instance same_backchannel_frame {S : Server} : TransactionFrame (same w_backchannel).
Proof. split; [split|]; try done. apply _. Qed.

Lemma on_backchannel_other {S : Server} {X E A} (get : World → X) (m : eff BackchannelT E A) :
  (∀ b w, get (set_backchannel b w) = get w) → respects (same get) (on_backchannel m).
Proof. intros Hget. apply respects_zoom. intros w r t _. apply Hget. Qed.
