(* ===== verification/TokenChecksTheorems.v ===== *)
(** What the checks of TokenChecks.v establish: a token request narrows its
    grant's resources, scopes and authorization_details, and never widens
    them. *)
From S2P Require Import Prelude GoStrings Json GoTime Pkce Digests Platform JsonCodec.
From S2P Require Import Effects Storage ServerTypes Rar Records Dpop Jose Canonical.
From S2P Require Import Extensions Attestation ClientAuth ServerState.
From S2P Require Import TokenChecks.
From stdpp Require Import options.

Set Default Proof Using "Type*".

(** * Resources *)

Lemma narrow_loop_Ok granted requested : ∀ narrowed r,
  narrow_loop granted requested narrowed = Ok r →
  NoDup narrowed →
  NoDup r ∧ (∀ x, x ∈ r ↔ x ∈ narrowed ∨ x ∈ requested) ∧ (∀ x, x ∈ requested → x ∈ granted).
Proof.
  induction requested as [|x requested IH]; intros narrowed r; simpl; intros Hrun Hnd.
  - injection Hrun as <-. split; [done|]. split; [set_solver|set_solver].
  - inv_ok. destruct a. rename H into Hx. apply bool_decide_eq_true in Hx.
    apply IH in Hrun as (Hr & Helem & Hsub).
    + split; [done|]. split; [|set_solver]. intros y. rewrite Helem.
      case_bool_decide; set_solver.
    + case_bool_decide; [done|]. apply NoDup_app. split; [done|]. split; [|apply NoDup_singleton].
      set_solver.
Qed.

(** Narrowing never widens: what it returns was granted, and is what was
    requested when the request named anything. *)
Lemma narrowResources_Ok granted requested r :
  narrowResources granted requested = Ok r →
  (requested = [] ∧ r = granted) ∨
  (requested ≠ [] ∧ NoDup r ∧ (∀ x, x ∈ r ↔ x ∈ requested) ∧ (∀ x, x ∈ r → x ∈ granted)).
Proof.
  unfold narrowResources. case_bool_decide as Hreq; [intros [= <-]; by left|].
  case_bool_decide; [done|]. intros Hrun. right. split; [done|].
  apply narrow_loop_Ok in Hrun as (Hnd & Helem & Hsub); [|constructor].
  split; [done|]. split; set_solver.
Qed.

Section checks.
Context {S : Server}.

Lemma check_resources_loop_Ok client requested : ∀ resources unlisted r u,
  check_resources_loop client requested resources unlisted = Ok (r, u) →
  NoDup resources →
  NoDup r ∧ (∀ x, x ∈ r ↔ x ∈ resources ∨ x ∈ requested) ∧
  (∀ x, x ∈ r → x ∈ resources ∨ (Check_resource x = true ∧ AllowsResource client x = true)).
Proof.
  induction requested as [|x requested IH]; intros resources unlisted r u; simpl; intros Hrun Hnd.
  - injection Hrun as <- <-. split; [done|]. split; [set_solver|]. intros; by left.
  - apply bind_Ok in Hrun as ([] & Hx & Hrun). apply guard_err_Ok in Hx.
    case_bool_decide as Hin.
    + apply IH in Hrun as (Hr & Helem & Hok); [|done].
      split; [done|]. split; [|done]. intros y. rewrite Helem. set_solver.
    + apply bind_Ok in Hrun as ([] & Hallow & Hrun). apply guard_err_Ok in Hallow.
      apply IH in Hrun as (Hr & Helem & Hok).
      * split; [done|]. split; [intros y; rewrite Helem; set_solver|].
        intros y [[Hy|Hy]%elem_of_app|Hy]%Hok; [by left| |by right].
        apply list_elem_of_singleton in Hy as ->. by right.
      * apply NoDup_app. split; [done|]. split; [|apply NoDup_singleton]. set_solver.
Qed.

Lemma checkRequestedResources_Ok client requested w r w' :
  checkRequestedResources client requested w = (Ok r, w') →
  (r = [] ∧ requested = [] ∧ AllowedResources client = []) ∨
  (r ≠ [] ∧ NoDup r ∧
   (∀ x, x ∈ r → Check_resource x = true ∧ AllowsResource client x = true ∧
     (x ∈ requested ∨ requested = [] ∧ AllowedResources client = [x]))).
Proof.
  unfold checkRequestedResources. intros Hrun.
  apply ebind_Ok in Hrun as (req & w1 & Hreq & Hrun). apply lift_Ok in Hreq as [Hreq ->].
  assert (Hfrom : (∀ x, x ∈ req → x ∈ requested ∨ requested = [] ∧ AllowedResources client = [x]) ∧
    (req = [] → requested = [] ∧ AllowedResources client = [])).
  { clear Hrun. case_bool_decide as He; [|injection Hreq as ->; by split; [left|]].
    unfold defaultResources in Hreq. destruct resourceIndicatorsEnabled; simpl in Hreq.
    - case_bool_decide as Hlen; [done|]. injection Hreq as <-. split; [|done].
      intros x Hx. right. split; [done|]. destruct (AllowedResources client) as [|y [|z l]];
        simpl in Hlen; [by apply not_elem_of_nil in Hx| |lia].
      by apply list_elem_of_singleton in Hx as ->.
    - destruct (bool_decide_reflect (AllowedResources client = [])); simpl in Hreq; [|done].
      injection Hreq as <-. split; [set_solver|done]. }
  destruct Hfrom as [Hfrom Hempty]. case_bool_decide as He.
  { injection Hrun as <- <-. left. destruct Hempty; done. }
  right. case_bool_decide; [done|].
  apply ebind_Ok in Hrun as ([res unlisted] & w2 & Hloop & Hrun).
  apply lift_Ok in Hloop as [Hloop ->].
  apply check_resources_loop_Ok in Hloop as (Hnd & Helem & Hok); [|constructor].
  assert (r = res) as ->.
  { case_bool_decide; [by injection Hrun as <- <-|].
    destruct AllowResources; [|done]. by inv_eff. }
  split; [|split; [done|]].
  - intros ->. destruct req as [|x req]; [done|]. specialize (Helem x). set_solver.
  - intros x Hx. destruct (Hok x Hx) as [[]%not_elem_of_nil|[Hc Ha]]. split_and!; [done..|].
    apply Hfrom. specialize (Helem x). set_solver.
Qed.

(** A token's audience never exceeds its grant. A token restricted to
    resources names each once, each a resource the client may still request
    and one the grant holds (for a grant without resources: the client's own
    single allowed one), and only resources the request named when it named
    any. A token addressed to the issuer comes only from a grant without
    resources, for a client not confined to any. *)
(** An access token's audience: the server itself without resources, and
    otherwise the first of distinct resources, each well-formed, allowed to
    the client, among those requested when any were, and either granted or,
    on a grant without resources, the client's only one. *)
Definition audience_bounded (client : RegisteredClient) (granted requested : list string)
    (audience : string * list string) : Prop :=
  (audience = (cfg_Issuer cfg, []) ∧ granted = [] ∧ requested = [] ∧ AllowedResources client = []) ∨
  (head audience.2 = Some audience.1 ∧ NoDup audience.2 ∧
   ∀ r, r ∈ audience.2 → Check_resource r = true ∧ AllowsResource client r = true ∧
     (requested ≠ [] → r ∈ requested) ∧
     (r ∈ granted ∨ granted = [] ∧ AllowedResources client = [r])).

Lemma narrowedAudience_bounded client granted requested w audience w' :
  narrowedAudience client granted requested w = (Ok audience, w') →
  audience_bounded client granted requested audience.
Proof.
  unfold narrowedAudience, audience_bounded. intros Hrun.
  apply ebind_Ok in Hrun as (narrowed & w1 & Hn & Hrun). apply lift_Ok in Hn as [Hn ->].
  apply ebind_Ok in Hrun as (resources & w2 & Hc & Hrun).
  apply narrowResources_Ok in Hn. apply checkRequestedResources_Ok in Hc.
  assert (Hempty : narrowed = [] → requested = [] ∧ granted = []).
  { intros ->. destruct Hn as [[? ?]|(Hne & _ & Helem & _)]; [done|].
    destruct requested as [|x l]; [done|]. specialize (Helem x). set_solver. }
  destruct Hc as [(-> & Hnil & Hall)|(Hne & Hnd & Hok)].
  - left. injection Hrun as <- _. destruct (Hempty Hnil). done.
  - right. destruct resources as [|x l]; [done|]. injection Hrun as <- _. simpl.
    split; [done|]. split; [done|]. intros r Hr.
    destruct (Hok r Hr) as (Hc & Ha & Hfrom). split; [done|]. split; [done|]. split.
    + intros Hreq. destruct Hn as [[? _]|(_ & _ & Helem & _)]; [done|].
      destruct Hfrom as [Hin|[Hnil _]]; [by apply Helem|]. by destruct (Hempty Hnil).
    + destruct Hfrom as [Hin|[Hnil Hall]].
      * left. destruct Hn as [[_ ->]|(_ & _ & _ & Hsub)]; auto.
      * right. destruct (Hempty Hnil). done.
Qed.

(** * Scopes *)

Lemma clientAllowsScope_openid client : OAuthOnly cfg = true → clientAllowsScope client "openid" = false.
Proof. unfold clientAllowsScope. by intros ->. Qed.

(** A refresh asks for its grant's scopes or fewer of them, never none of
    them, and within the client's bound. Scopes hold no white space, as
    strings.Fields left them when the grant was made. *)
Lemma refreshScope_narrows params grant client scope :
  refreshScope params grant client = Ok scope →
  Forall (λ s, is_field s = true) (g_Scope grant) →
  (∀ s, s ∈ scope → s ∈ g_Scope grant) ∧
  (g_Scope grant ≠ [] → scope ≠ []) ∧
  (scope = g_Scope grant ∨ scope = fields (param params "scope") ∧
    String.length (param params "scope") ≤ scopeBound client).
Proof.
  unfold refreshScope. intros Hrun Hf. case_bool_decide; [injection Hrun as <-; auto|].
  destruct (checkScopeLength _ _) as [[]|] eqn:Hlen; [|done].
  unfold checkScopeLength in Hlen. apply guard_err_Ok, negb_true_iff, bool_decide_eq_false in Hlen.
  apply bind_Ok in Hrun as ([] & Hsub & [= <-]). apply guard_err_Ok in Hsub.
  unfold validateGrantedScopeSubset in Hsub. apply andb_true_iff in Hsub as [Hne Hall].
  rewrite fields_join in Hne, Hall by done. split; [|split].
  - intros s Hs. rewrite forallb_forall in Hall. specialize (Hall s).
    rewrite <-list_elem_of_In in Hall. by apply Hall, bool_decide_eq_true in Hs.
  - intros Hg Hnil. rewrite Hnil in Hne. by destruct (g_Scope grant).
  - right. split; [done|lia].
Qed.

(** What checkGrantStillAllowed lets through. *)
Lemma checkGrantStillAllowed_Ok client grant scope :
  checkGrantStillAllowed client grant scope = Ok tt →
  checkGrantSubjectStillIssued grant = Ok tt ∧
  (∀ sc, sc ∈ scope → clientAllowsScope client sc = true) ∧
  (raw_empty (g_AuthorizationDetails grant) = false →
    ∃ registry details, cfg_RAR cfg = Some registry ∧
      is_ok (Parse registry (g_AuthorizationDetails grant)) = true ∧
      unmarshal_slice (g_AuthorizationDetails grant) = Some details ∧
      checkAuthorizationDetailsTypes client (Raw <$> details) = true).
Proof.
  unfold checkGrantStillAllowed. intros Hrun.
  apply bind_Ok in Hrun as ([] & Hsub & Hrun). apply bind_Ok in Hrun as ([] & Hsc & Hrun).
  split; [done|]. split.
  - apply for_all_Ok in Hsc. intros sc Hin. rewrite Forall_forall in Hsc.
    by apply Hsc, guard_err_Ok in Hin.
  - intros He. rewrite He in Hrun. destruct (cfg_RAR cfg) as [registry|]; [|done].
    destruct (Parse _ _) eqn:Hp; [|done]. destruct (unmarshal_slice _) as [details|]; [|done].
    apply guard_err_Ok in Hrun. exists registry, details. by rewrite Hp.
Qed.

(** C32. An access token's authorization_details never exceed its grant's:
    without a request for details they are the grant's own, and otherwise,
    for every type, there is an assignment of the token's objects to pairwise
    different objects of the grant, each accepted by the type's narrowing
    check. Everything else of the grant is kept. *)
Theorem accessTokenGrant_narrows grant requested accessGrant :
  accessTokenGrant grant requested = Ok accessGrant →
  accessGrant = with_details (g_AuthorizationDetails accessGrant) grant ∧
  (present requested = false → g_AuthorizationDetails accessGrant = g_AuthorizationDetails grant) ∧
  (present requested = true → objects requested = [] → g_AuthorizationDetails accessGrant = RawNil) ∧
  (present requested = true → objects requested ≠ [] →
    ∃ registry granted narrowed, cfg_RAR cfg = Some registry ∧
      g_AuthorizationDetails accessGrant = slice_message (objects requested) ∧
      Parse registry (g_AuthorizationDetails grant) = Ok granted ∧
      Parse registry (g_AuthorizationDetails accessGrant) = Ok narrowed ∧
      ∀ typ cs, narrowed !! typ = Some cs →
        ∃ def (idx : list nat), byType registry !! typ = Some def ∧
          length idx = length cs ∧ NoDup idx ∧
          Forall2 (λ c i, ∃ b, default [] (granted !! typ) !! i = Some b ∧
            validateNarrowing def b c = Ok tt) cs idx).
Proof.
  unfold accessTokenGrant. destruct (present requested); simpl; intros Hrun.
  - destruct (_ && _); [done|]. destruct (validateNarrowedAuthorizationDetails _ _) as [n|] eqn:Hv;
      [|done]. injection Hrun as <-. split; [by destruct grant|]. split; [done|].
    unfold validateNarrowedAuthorizationDetails, checkAuthorizationDetailsSubset in Hv.
    case_bool_decide as He; [injection Hv as <-; done|].
    split; [done|]. intros _ _. destruct (raw_empty _); [done|].
    destruct (cfg_RAR cfg) as [registry|]; [|done].
    destruct (Parse registry (g_AuthorizationDetails grant)) as [granted|] eqn:Hg; [|done].
    destruct (Parse registry (slice_message _)) as [narrowed|] eqn:Hn; [|done].
    destruct (RAR_ValidateNarrowing _ _ _) as [u|] eqn:Hm; [|done]. injection Hv as <-.
    exists registry, granted, narrowed. split_and!; try done.
    intros typ cs Hcs. by apply (matchAll_assignment registry granted narrowed true u).
  - injection Hrun as <-. split_and!; try done. by destruct grant.
Qed.
End checks.
