(* ===== verification/HandlerLemmas.v ===== *)
(** Executions of the token server (every call the modelled endpoints and the
    rest of the program make, in any order), and what a successful run of a
    handler's steps establishes, shared by the theorems about each grant. *)
From stdpp Require Import relations.
From S2P Require Import Prelude GoStrings Json GoTime Sha256 Pkce Digests Effects Storage.
From S2P Require Import MemTheorems Platform ServerTypes Rar JsonCodec Nonce Records.
From S2P Require Import Claims Dpop Jose Canonical Extensions Attestation ClientAuth.
From S2P Require Import ServerState TokenChecks Issue CodeExchange.
From S2P Require Import Refresh BackchannelToken Frames.
From S2P Require Import TokenChecksTheorems.
From stdpp Require Import options.

Set Default Proof Using "Type*".

Section steps.
Context {S : Server} `{!GrantStoreLaws GrantsT, !RevocationLaws RevocationT}.

(** One step: a call of a token endpoint method or of RevokeGrant, with any
    request and any outcome; a write the other endpoints make (a code or a
    refresh token stored, a key revoked, a CIBA request made, looked up or
    decided); and any change at all of the environment, the random source,
    the nonce store and the audit log. *)
Inductive server_step : World → World → Prop :=
| step_exchange req w r w' : ExchangeAuthorizationCode req w = (r, w') → server_step w w'
| step_refresh_token req w r w' : RefreshAccessToken req w = (r, w') → server_step w w'
| step_ciba req w r w' : ExchangeBackchannelAuthentication req w = (r, w') → server_step w w'
| step_revoke_token req w r w' : RevokeToken req w = (r, w') → server_step w w'
| step_revoke_grant id w r w' : RevokeGrant id w = (r, w') → server_step w w'
| step_grant_store w g : grant_step (w_grants w) g → server_step w (set_grants g w)
| step_revoke k t w r v : Revoke k t (w_revocation w) = (r, v) → server_step w (set_revocation v w)
| step_backchannel_store w b : server_step w (set_backchannel b w)
| step_transaction_store t w : server_step w (set_transactions t w)
| step_environment s w : server_step w (set_random_env s w)
| step_nonce_store s w : server_step w (set_nonce_state s w)
| step_audit l w : server_step w (set_audit l w).

Lemma server_step_le w w' : server_step w w' → stores_le w w'.
Proof.
  destruct 1.
  - by eapply (respects_ExchangeAuthorizationCode stores_le).
  - by eapply (respects_RefreshAccessToken stores_le).
  - by eapply (respects_ExchangeBackchannelAuthentication stores_le).
  - by eapply (respects_RevokeToken stores_le).
  - by eapply (respects_RevokeGrant stores_le).
  - split; [by apply grant_step_le|done].
  - split; [done|by eapply revoke_le].
  - by split.
  - apply frame_transactions.
  - apply frame_env.
  - apply frame_nonces.
  - apply frame_audit.
Qed.

(** Whatever happens, no redemption and no revocation is forgotten. *)
Lemma server_steps_le w w' : rtc server_step w w' → stores_le w w'.
Proof.
  induction 1 as [|w w1 w2 Hstep _ IH]; [reflexivity|].
  transitivity w1; [by apply server_step_le|done].
Qed.
End steps.

Section handler_lemmas.
Context {S : Server}.

Lemma or_fail_Ok {A} typ client (m : srv A) w a w' :
  or_fail typ client m w = (Ok a, w') ↔ m w = (Ok a, w').
Proof.
  unfold or_fail, try, ebind. destruct (m w) as [[b|e] w1]; [done|].
  split; [|done]. intros Hr. destruct (audit _ _ _ _ w1) as [[] ?]; discriminate.
Qed.

Lemma or_fail_Err {A} typ client (m : srv A) w e w' :
  m w = (Err e, w') → (or_fail typ client m w).1 = Err e.
Proof.
  intros Hm. unfold or_fail, try, ebind. rewrite Hm. unfold audit.
  destruct has_audit; [|done]. unfold ebind, Now, on_env, env_now, zoom. by destruct (Clock _).
Qed.

Lemma attachNextDPoPNonceOnFailure_Ok {A} client (m : srv A) w a w' :
  attachNextDPoPNonceOnFailure client m w = (Ok a, w') ↔ m w = (Ok a, w').
Proof.
  unfold attachNextDPoPNonceOnFailure, try, ebind. destruct (m w) as [[b|e] w1]; [done|].
  split; [|done]. intros Hr. destruct (attachNextDPoPNonce _ _ w1) as [[] ?]; discriminate.
Qed.

Lemma check_Ok b c status desc w u w' : check b c status desc w = (Ok u, w') ↔ b = true ∧ w' = w.
Proof. unfold check. rewrite lift_Ok, guard_err_Ok. done. Qed.

Lemma parseForm_Ok params w m w' :
  parseForm params w = (Ok m, w') ↔ formParametersToMap params = Some m ∧ w' = w.
Proof. unfold parseForm. destruct (formParametersToMap params); unfold ret, fail; naive_solver. Qed.
End handler_lemmas.

(** Taking a successful run of a handler apart. *)
Ltac inv_srv :=
  repeat first
    [ match goal with
      | H : or_fail _ _ _ _ = (Ok _, _) |- _ => apply or_fail_Ok in H
      | H : attachNextDPoPNonceOnFailure _ _ _ = (Ok _, _) |- _ =>
          apply attachNextDPoPNonceOnFailure_Ok in H
      | H : check _ _ _ _ _ = (Ok _, _) |- _ => apply check_Ok in H; destruct H as [H ->]
      | H : parseForm _ _ = (Ok _, _) |- _ => apply parseForm_Ok in H; destruct H as [H ->]
      | H : ret _ _ = (Ok _, _) |- _ => unfold ret in H; simplify_eq
      | H : guard_err _ _ = Ok _ |- _ => apply guard_err_Ok in H
      | H : bool_decide _ = true |- _ => apply bool_decide_eq_true in H
      end
    | progress inv_eff ].

Section steps.
Context {S : Server}.

Lemma Now_same {E} w r w' : @Now S E w = (r, w') → stores_same w w'.
Proof. apply (respects_Now stores_same). Qed.

(** A reading of the server's clock, in some environment its calls meet. *)
Definition clock_reading (t : Time) : Prop := ∃ x, (Clock x).1 = t.

Lemma Now_reading {E} w t w' : @Now S E w = (Ok t, w') → clock_reading t.
Proof.
  unfold Now, on_env, env_now. intros (x & Hx & _)%zoom_run. exists (w_env w). destruct (Clock _) as [t' x'].
  by injection Hx as <- _.
Qed.

(** What a token request's access token is bound to: the thumbprint of the
    client certificate it was sent with, or the key of its one DPoP proof,
    accepted for the token endpoint or its mTLS alias. *)
Definition presented_binding (creds : Credentials) (client : RegisteredClient) (thumbprint : string)
    : Prop :=
  match senderConstrain client with
  | SenderConstrainMTLS =>
    ∃ der, PeerCertificate creds = Some der ∧ thumbprint = mtls_Thumbprint der
  | SenderConstrainDPoP =>
    ∃ proof url now x verified x', DPoPProofs creds = [proof] ∧ clock_reading now ∧
      url ∈ [TokenEndpoint cfg; MTLSTokenEndpoint cfg] ∧
      Verify (token_request_proof proof now url) x = (Ok verified, x') ∧
      thumbprint = vp_Thumbprint verified
  end.

Lemma authenticateRequest_proof params creds e me w client proof ik w' :
  authenticateRequest params creds e me w = (Ok (client, proof, ik), w') →
  proof ≠ "" → DPoPProofs creds = [proof].
Proof.
  unfold authenticateRequest. intros Hrun Hp. apply ebind_Ok in Hrun as (p & w1 & Hproof & Hrun).
  apply ebind_Ok in Hrun as (a & w2 & _ & Hrun). apply ebind_Ok in Hrun as (v & w3 & _ & Hrun).
  injection Hrun as _ -> _ _. unfold resolveDPoPProof, ResolveHeaderValues in Hproof.
  destruct (DPoPProofs creds) as [|d [|]]; simpl in Hproof; inv_srv; done.
Qed.

Lemma verifyDPoPAtEitherEndpoint_Ok req primary alias w v w' :
  verifyDPoPAtEitherEndpoint req primary alias w = (Ok v, w') →
  ∃ url x x', url ∈ [primary; alias] ∧ Verify (req url) x = (Ok v, x').
Proof.
  unfold verifyDPoPAtEitherEndpoint. intros Hrun. apply ebind_Ok in Hrun as (r & w1 & Hr & Hrun).
  apply try_Ok, zoom_run in Hr as (x & Hr & ->).
  assert (Hfirst : r = Ok v → ∃ url x x', url ∈ [primary; alias] ∧ Verify (req url) x = (Ok v, x')).
  { intros ->. exists primary, (w_env w), x. split; [left|done]. }
  destruct r as [v'|[]]; try (apply lift_Ok in Hrun as [Hrun _]; by auto).
  destruct alias as [alias|]; [|by apply lift_Ok in Hrun as [Hrun _]].
  apply zoom_run in Hrun as (x' & Hrun & _). eexists (Some alias), _, x'. split; [|done]. by right; left.
Qed.

Lemma resolveDPoPProof_Ok proofs w proof w' :
  resolveDPoPProof proofs w = (Ok proof, w') → proof ≠ "" → proofs = [proof].
Proof.
  unfold resolveDPoPProof, ResolveHeaderValues. intros Hp Hne.
  destruct proofs as [|d [|]]; simpl in Hp; inv_srv; done.
Qed.

(** What a verified binding is to. *)
Lemma token_request_binding creds client proof w thumbprint w' :
  verifyTokenRequestBinding client proof (PeerCertificate creds) w = (Ok thumbprint, w') →
  (proof ≠ "" → DPoPProofs creds = [proof]) →
  presented_binding creds client thumbprint.
Proof.
  unfold verifyTokenRequestBinding, presented_binding. intros Hb Hone.
  destruct (senderConstrain client) eqn:Hsc.
  - rewrite bool_decide_false in Hb by done. apply ebind_Ok in Hb as (v & w3 & Hv & Hb).
    injection Hb as <- _.
    unfold verifyTokenRequestDPoP in Hv. case_bool_decide as Hp; [done|].
    apply ebind_Ok in Hv as (now & w4 & Hnow & Hv). apply Now_reading in Hnow.
    apply ebind_Ok in Hv as (v' & w5 & Hv & Hn). apply ebind_Ok in Hn as ([] & w6 & _ & Hn).
    injection Hn as -> _. apply map_err_Ok, verifyDPoPAtEitherEndpoint_Ok in Hv as (url & x & x' & Hin & Hv).
    apply Hone in Hp. by exists proof, url, now, x, v, x'.
  - rewrite bool_decide_true in Hb by done.
    destruct (PeerCertificate creds) as [der|]; [|done]. injection Hb as <- _. by exists der.
Qed.

(** The shared head of a token request, once its client is known. *)
Lemma authenticated_binding params creds e me w client proof ik w1 thumbprint w2 :
  authenticateRequest params creds e me w = (Ok (client, proof, ik), w1) →
  verifyTokenRequestBinding client proof (PeerCertificate creds) w1 = (Ok thumbprint, w2) →
  stores_same w w2 ∧ presented_binding creds client thumbprint.
Proof.
  intros Ha Hb. split.
  { transitivity w1; [exact (respects_authenticateRequest stores_same _ _ _ _ _ _ _ Ha)|].
    exact (respects_verifyTokenRequestBinding stores_same _ _ _ _ _ _ Hb). }
  exact (token_request_binding _ _ _ _ _ _ Hb (authenticateRequest_proof _ _ _ _ _ _ _ _ _ Ha)).
Qed.

Lemma first_revoked_false `{!RevocationLaws RevocationT} f keys s s' k :
  IsRevoked = Some f → first_revoked f keys s = (Ok false, s') → k ∈ keys → ¬ revoked s k.
Proof.
  intros Hf. revert s. induction keys as [|k' keys IH]; intros s Hrun Hk;
    [by apply not_elem_of_nil in Hk|].
  simpl in Hrun. unfold ebind in Hrun. destruct (f k' s) as [[[]|] s1] eqn:Hr; try done.
  pose proof (is_revoked_same _ _ _ _ _ Hf Hr) as ->.
  apply elem_of_cons in Hk as [->|Hk]; [|by eapply IH].
  intros Hrev. apply (is_revoked_sound _ _ _ Hf) in Hrev. by rewrite Hr in Hrev.
Qed.

Lemma anyRevoked_false `{!RevocationLaws RevocationT} f keys s s' k :
  grantRevocationReader = Some f → anyRevoked f keys s = (Ok false, s') → k ∈ keys → ¬ revoked s k.
Proof.
  unfold anyRevoked, grantRevocationReader. intros Hf. destruct IsAnyRevoked as [g|] eqn:Hg.
  - intros Hrun Hk Hrev. eapply (is_any_revoked_sound _ _ _ _ Hg) in Hrev; [|done].
    by rewrite Hrun in Hrev.
  - by apply first_revoked_false.
Qed.

(** A grant that passes is under no revoked key, and with a key to check there
    is a store to check it in. *)
Lemma checkGrantNotRevoked_Ok `{!RevocationLaws RevocationT} grant w u w' :
  checkGrantNotRevoked grant w = (Ok u, w') →
  (∀ k, k ∈ revocation_keys grant → ¬ revoked (w_revocation w) k) ∧ stores_same w w'.
Proof.
  intros Hrun. split; [|by eapply respects_checkGrantNotRevoked].
  unfold checkGrantNotRevoked in Hrun. case_bool_decide as Hk.
  { rewrite Hk. intros k []%not_elem_of_nil. }
  destruct grantRevocationReader as [f|] eqn:Hf; [|done].
  apply ebind_Ok in Hrun as (b & w1 & Hb & Hrun). destruct b; [done|].
  apply map_err_Ok, zoom_run in Hb as (t & Hb & _). intros k Hin.
  by eapply (anyRevoked_false f _ _ _ _ Hf Hb).
Qed.

Lemma narrowedAccessGrant_Ok client grant details requested w accessGrant audience w' :
  narrowedAccessGrant client grant details requested w = (Ok (accessGrant, audience), w') →
  accessTokenGrant grant details = Ok accessGrant ∧
  narrowedAudience client (g_Resources grant) requested w = (Ok audience, w').
Proof.
  unfold narrowedAccessGrant. intros Hrun. inv_srv. done.
Qed.

Lemma allowedGrantAudience_Ok client grant scope details requested w accessGrant audience w' :
  allowedGrantAudience client grant scope details requested w = (Ok (accessGrant, audience), w') →
  checkGrantStillAllowed client grant scope = Ok tt ∧ accessTokenGrant grant details = Ok accessGrant ∧
  narrowedAudience client (g_Resources grant) requested w = (Ok audience, w').
Proof.
  unfold allowedGrantAudience. intros Hrun. apply ebind_Ok in Hrun as ([] & w1 & Hc & Hrun).
  apply lift_Ok in Hc as [Hc ->]. by apply narrowedAccessGrant_Ok in Hrun.
Qed.

(** * The refresh token *)

(** What a refresh token's record must satisfy to be redeemed by a client. *)
Definition refresh_redeemable (clientID : ClientID) (instanceKey : string)
    (redeemed : RedeemedRefreshToken) (grant : grantRecord) (now : Time) : Prop :=
  rrt_ClientID redeemed = clientID ∧ clock_reading now ∧ (now < rrt_ExpiresAt redeemed)%Z ∧
  decodeOwnGrantRecord (cfg_Issuer cfg) (rrt_Grant redeemed) = Ok grant ∧
  isKind grant grantKindRefreshToken = true ∧
  issuedWithin (g_IssuedAt grant) (RefreshTokenLifetime (cfg_Limits cfg)) now = true ∧
  g_ClientInstanceKey grant = instanceKey.

Lemma checkRefreshInstance_Ok grant ik : checkRefreshInstance grant ik = Ok tt → g_ClientInstanceKey grant = ik.
Proof.
  unfold checkRefreshInstance. destruct (bool_decide_reflect (g_ClientInstanceKey grant = "")) as [->|];
    simpl.
  - destruct (bool_decide_reflect (ik = "")); [done|done].
  - case_bool_decide; done.
Qed.

Lemma redeemRefreshGrant_Ok `{!RevocationLaws RevocationT, !GrantStoreLaws GrantsT}
    clientID ik token w grant now w' :
  redeemRefreshGrant clientID ik token w = (Ok (grant, now), w') →
  stores_same w w' ∧
  (∃ redeemed, RedeemRefreshToken {| rtr_TokenHash := sha256 token |} (w_grants w) =
      (Ok redeemed, w_grants w) ∧
    refresh_redeemable clientID ik redeemed grant now) ∧
  (∀ k, k ∈ revocation_keys grant → ¬ revoked (w_revocation w) k).
Proof.
  intros Hrun. split; [by eapply respects_redeemRefreshGrant|].
  unfold redeemRefreshGrant in Hrun.
  apply ebind_Ok in Hrun as (redeemed & w1 & Hr & Hrun).
  apply map_err_Ok, zoom_run in Hr as (g & Hr & ->).
  pose proof (redeem_refresh_same _ _ _ _ Hr) as ->.
  apply ebind_Ok in Hrun as ([] & w2 & Hc & Hrun). apply ebind_Ok in Hrun as (t & w3 & Hnow & Hrun).
  pose proof (Now_reading _ _ _ Hnow) as Hread. apply Now_same in Hnow as (_ & Hrev & _). apply ebind_Ok in Hrun as ([] & w4 & Hexp & Hrun).
  inv_srv. destruct (decodeOwnGrantRecord _ _) as [grant'|] eqn:Hd; [|done].
  apply ebind_Ok in Hrun as ([] & w5 & Hkind & Hrun). apply ebind_Ok in Hrun as ([] & w6 & Hwithin & Hrun).
  apply ebind_Ok in Hrun as ([] & w7 & Hik & Hrun). apply ebind_Ok in Hrun as ([] & w8 & Hnr & Hrun).
  inv_srv. apply checkGrantNotRevoked_Ok in Hnr as [Hnr _]. rewrite Hrev in Hnr.
  split; [|done]. exists redeemed. split; [done|]. unfold refresh_redeemable.
  split_and!; auto using checkRefreshInstance_Ok. by apply bool_decide_eq_true in Hexp.
Qed.
(** A run that leaves the stores as they were. *)
Definition keeps_stores {A} (m : srv A) (w : World) : Prop := stores_same w (m w).2.

Lemma keeps_stores_respects {A} (m : srv A) w : respects stores_same m → keeps_stores m w.
Proof. intros Hm. unfold keeps_stores. destruct (m w) eqn:Hr. by eapply Hm. Qed.

Lemma keeps_stores_bind {A B} (m : srv A) (k : A → srv B) w :
  keeps_stores m w → (∀ a w1, m w = (Ok a, w1) → stores_same w w1 → keeps_stores (k a) w1) →
  keeps_stores (ebind m k) w.
Proof.
  unfold keeps_stores, ebind. intros Hm Hk. destruct (m w) as [[a|e] w1]; [|done].
  specialize (Hk a w1 eq_refl Hm). by transitivity w1.
Qed.

End steps.
