(* ===== verification/PushTheorems.v ===== *)
(** A pushed authorization request: what PushAuthorizationRequest has checked
    of the request it stores, and what it stores. *)
From S2P Require Import Prelude GoStrings Json GoTime Sha256 Base64 Platform JsonCodec.
From S2P Require Import Pkce Digests.
From S2P Require Import Effects Storage ServerTypes Rar Nonce Records Claims Dpop.
From S2P Require Import Canonical.
From S2P Require Import Jose.
From S2P Require Import Extensions RequestObject Attestation ClientAuth.
From S2P Require Import ClientAuthTheorems.
From S2P Require Import ServerState.
From S2P Require Import TokenChecks Issue TokenChecksTheorems HandlerLemmas.
From S2P Require Import Parameters ClaimsParameter Subjects Par Frames FrontFrames.
From stdpp Require Import options.

Set Default Proof Using "Type*".

(** * Every parameter is a JSON value *)

Lemma unmarshal_object_raw raw m : unmarshal_object raw = Some m → map_Forall (λ _, raw_ok) m.
Proof.
  destruct raw as [| |[|b|n|s|l|l]]; try done; intros [= <-]; [by apply map_Forall_empty|].
  fold (members_map ∅ l). cut (map_Forall (λ _ : string, raw_ok) (∅ : Params)); [|apply map_Forall_empty].
  generalize (∅ : Params). induction l as [|[k j] l IH]; intros m Hm; [done|]. simpl.
  apply IH, map_Forall_insert_2; [by eexists|done].
Qed.

Section raw.
Context `{Platform}.

Lemma bound_locales_raw name params :
  map_Forall (λ _, raw_ok) params → map_Forall (λ _, raw_ok) (bound_locales name params).
Proof.
  intros Hp. unfold bound_locales. destruct (params !! name); [|done]. case_bool_decide; [|done]. case_bool_decide.
  - by apply map_Forall_delete.
  - apply map_Forall_insert_2; [by eexists|done].
Qed.

Lemma boundPresentationPreferences_raw params :
  map_Forall (λ _, raw_ok) params → map_Forall (λ _, raw_ok) (boundPresentationPreferences params).
Proof.
  intros Hp. unfold boundPresentationPreferences.
  assert (Hb := bound_locales_raw "claims_locales" _ (bound_locales_raw "ui_locales" _ Hp)).
  destruct (_ !! "display"); [|done]. case_bool_decide; [|done]. by apply map_Forall_delete.
Qed.

Lemma bound_locales_lookup name params k :
  k ≠ name → bound_locales name params !! k = params !! k.
Proof.
  intros Hk. unfold bound_locales. destruct (params !! name); [|done].
  case_bool_decide; [case_bool_decide|]; by rewrite ?lookup_delete_ne, ?lookup_insert_ne.
Qed.

(** Only how the pages are presented changes. *)
Lemma boundPresentationPreferences_lookup params k :
  k ∉ ["ui_locales"; "claims_locales"; "display"] →
  boundPresentationPreferences params !! k = params !! k.
Proof.
  intros Hk. unfold boundPresentationPreferences.
  assert (Hb : bound_locales "claims_locales" (bound_locales "ui_locales" params) !! k = params !! k)
    by (rewrite !bound_locales_lookup; set_solver).
  destruct (_ !! "display"); [|done]. case_bool_decide; [|done].
  rewrite lookup_delete_ne by set_solver. done.
Qed.
Lemma bound_locales_dom name params : dom (bound_locales name params) ⊆ dom params.
Proof.
  unfold bound_locales. destruct (params !! name) eqn:Hn; [|done].
  apply elem_of_dom_2 in Hn. case_bool_decide; [case_bool_decide|]; set_solver.
Qed.

Lemma boundPresentationPreferences_dom params :
  dom (boundPresentationPreferences params) ⊆ dom params.
Proof.
  unfold boundPresentationPreferences. trans (dom (bound_locales "ui_locales" params));
    [|apply bound_locales_dom].
  trans (dom (bound_locales "claims_locales" (bound_locales "ui_locales" params)));
    [|apply bound_locales_dom].
  destruct (_ !! "display"); [|done]. case_bool_decide; [set_solver|done].
Qed.

Lemma parse_raw registry raw request values :
  parse registry raw request = Ok values → raw_ok raw.
Proof.
  unfold parse. intros Hp. apply bind_Ok in Hp as (? & _ & Hp). apply bind_Ok in Hp as (? & _ & Hp).
  apply bind_Ok in Hp as (? & _ & Hp). apply bind_Ok in Hp as (l & Hl & _).
  destruct raw; try done. by eexists.
Qed.
End raw.

(** The scope a stored request asks for. *)
Definition pushed_scope (record : requestRecord) : list string :=
  fields (default "" (jsonString (rq_Parameters record) "scope")).

(** * A stored request's parameters *)

Section request.
Context `{FrontServer}.

Lemma of_check_Ok {A} code (r : result string A) a : of_check code r = Ok a ↔ r = Ok a.
Proof. destruct r; naive_solver. Qed.
Lemma or_invalid_Ok {E A} desc (r : result E A) a : or_invalid desc r = Ok a ↔ r = Ok a.
Proof. destruct r; naive_solver. Qed.
Lemma some_or_invalid_Ok {A} desc (o : option A) a : some_or_invalid desc o = Ok a ↔ o = Some a.
Proof. destruct o; naive_solver. Qed.

(** Nothing else than the server's own parameters and registered ones. *)
Definition known_parameters (core : list string) (params : Params) : Prop :=
  ∀ k, is_Some (params !! k) →
    k ∈ core ∨ is_Some (cfg_Extensions cfg !! k).

Lemma checkAuthorizationDetailsSubset_raw base subset check raw :
  checkAuthorizationDetailsSubset base subset check = Some raw → subset ≠ [] → raw_ok raw.
Proof.
  unfold checkAuthorizationDetailsSubset. intros Hr Hne. rewrite bool_decide_false in Hr by done.
  destruct (raw_empty _); [done|]. destruct (cfg_RAR cfg) as [registry|]; [|done].
  destruct (Parse registry base); [|done].
  destruct (Parse registry (slice_message subset)) eqn:Hp; [|done].
  destruct (check _ _ _); [|done]. injection Hr as <-. by eapply parse_raw.
Qed.

(** The details stored are none the client did not ask for, of types it may
    use, and are granted by the deployment's policy. *)
Definition details_granted (policy : option (ClientID → list RawMessage →
    eff Env env_error (list RawMessage))) (client : RegisteredClient) (requested granted : RawMessage)
    : Prop :=
  ∃ objects authorize w w' details,
    unmarshal_slice requested = Some objects ∧
    checkAuthorizationDetailsTypes client (Raw <$> objects) = true ∧
    policy = Some authorize ∧
    authorize (client_id client) (Raw <$> objects) w = (Ok details, w') ∧ details ≠ [] ∧
    validateGrantedAuthorizationDetails requested details = Some granted.

Lemma applyRARPolicy_Ok client policy requested w granted w' :
  applyRARPolicy client policy requested w = (Ok granted, w') →
  details_granted policy client requested granted.
Proof.
  unfold applyRARPolicy. destruct policy as [authorize|] eqn:Hpol; [|done].
  destruct (unmarshal_slice requested) as [objects|] eqn:Hs; [|done]. intros Hrun.
  apply ebind_Ok in Hrun as ([] & w1 & Ht & Hrun). apply lift_Ok in Ht as [Ht%guard_err_Ok ->].
  apply ebind_Ok in Hrun as (details & w2 & Hd & Hrun).
  apply ebind_Ok in Hrun as ([] & w3 & Hne & Hrun). apply lift_Ok in Hne as [Hne%guard_err_Ok ->].
  destruct (validateGrantedAuthorizationDetails _ _) as [v|] eqn:Hv; [|done].
  apply ret_Ok in Hrun as [-> _]. apply zoom_run in Hd as (x & Hd & _).
  apply negb_true_iff, bool_decide_eq_false in Hne.
  exists objects, authorize. eexists _, _, details. done.
Qed.

Lemma checked_extensions_Ok core policy invalid client params source w params' tokenClaims w' :
  authorizationDetailsParameter ∈ core →
  checked_extensions core policy invalid client params source w = (Ok (params', tokenClaims), w') →
  map_Forall (λ _, raw_ok) (delete authorizationDetailsParameter params) →
  map_Forall (λ _, raw_ok) params' ∧ map_Forall (λ _, raw_ok) tokenClaims ∧
  known_parameters core params' ∧
  (∀ k, k ∈ core → k ≠ authorizationDetailsParameter → params' !! k = params !! k) ∧
  (∀ granted, params' !! authorizationDetailsParameter = Some granted →
    ∃ requested, params !! authorizationDetailsParameter = Some requested ∧
      details_granted policy client requested granted).
Proof.
  unfold checked_extensions. intros Had Hrun Hraw.
  destruct (Registry_Parse _ _ _ _) as [[values p1]|] eqn:Hparse; [|done].
  destruct (Registry_Parse_spec _ _ _ _ _ _ Hparse) as [Hv Hp1].
  destruct (parseRequestedAuthorizationDetails p1) as [requested|] eqn:Hreq; [|done].
  apply ebind_Ok in Hrun as (p2 & w1 & Hgr & Hrun). apply ret_Ok in Hrun as [[= -> ->] _].
  assert (Htok : map_Forall (λ _, raw_ok) (AsParameters (cfg_Extensions cfg) values)).
  { intros k raw [Hk _]%map_lookup_filter_Some. apply Hv in Hk as (Hk & Hc & _).
    apply (Hraw k). rewrite lookup_delete_ne; [done|]. intros <-. by apply Hc. }
  assert (Hcore : ∀ k, k ∈ core → p1 !! k = params !! k).
  { intros k Hk. apply option_eq. intros raw. rewrite Hp1. naive_solver. }
  assert (Hknown : known_parameters core p1).
  { intros k [raw Hk]. apply Hp1 in Hk as [_ Hk]. done. }
  assert (Hraw1 : map_Forall (λ _, raw_ok) (delete authorizationDetailsParameter p1)).
  { intros k raw [Hne Hk]%lookup_delete_Some. apply Hp1 in Hk as [Hk _].
    apply (Hraw k). by rewrite lookup_delete_ne. }
  assert (Hreq' : match p1 !! authorizationDetailsParameter with
                  | Some raw => requested = raw ∧ raw_ok raw
                  | None => requested = RawNil
                  end).
  { unfold parseRequestedAuthorizationDetails in Hreq.
    destruct (p1 !! _); [|by injection Hreq as <-]. destruct (cfg_RAR cfg) as [registry|]; [|done].
    destruct (ParseRequest registry r) eqn:Hp; [|done]. injection Hreq as <-.
    split; [done|]. by eapply parse_raw. }
  destruct (raw_empty requested) eqn:Hempty.
  - apply ret_Ok in Hgr as [-> _].
    assert (Hnone : p1 !! authorizationDetailsParameter = None).
    { destruct (p1 !! _); [|done]. destruct Hreq' as [-> [j ->]]. done. }
    split_and!; try done.
    + by rewrite delete_id in Hraw1.
    + intros k Hk _. by apply Hcore.
    + intros granted Hg. congruence.
  - apply ebind_Ok in Hgr as (granted & w2 & Hgr & Hret). apply ret_Ok in Hret as [-> _].
    apply map_err_Ok, applyRARPolicy_Ok in Hgr.
    split_and!; try done.
    + rewrite <-insert_delete_eq. apply map_Forall_insert_2; [|done].
      destruct Hgr as (? & ? & ? & ? & ? & _ & _ & _ & _ & Hne & Hval).
      by eapply checkAuthorizationDetailsSubset_raw.
    + intros k [raw [[<- _]|[_ Hk]]%lookup_insert_Some]; [by left|]. by apply Hknown.
    + intros k Hk Hne. rewrite lookup_insert_ne by done. by apply Hcore.
    + intros g [[_ <-]|[? _]]%lookup_insert_Some; [|done].
      destruct (p1 !! authorizationDetailsParameter) as [raw|] eqn:Hraw1'; [|by subst].
      destruct Hreq' as [<- _]. exists requested. split; [|done]. by rewrite <-Hcore.
Qed.

Lemma checkExtensions_Ok client params source w params' tokenClaims w' :
  checkExtensions client params source w = (Ok (params', tokenClaims), w') →
  map_Forall (λ _, raw_ok) (delete authorizationDetailsParameter params) →
  map_Forall (λ _, raw_ok) params' ∧ map_Forall (λ _, raw_ok) tokenClaims ∧
  known_parameters coreAuthorizationParameters params' ∧
  (∀ k, k ∈ coreAuthorizationParameters → k ≠ authorizationDetailsParameter →
    params' !! k = params !! k) ∧
  (∀ granted, params' !! authorizationDetailsParameter = Some granted →
    ∃ requested, params !! authorizationDetailsParameter = Some requested ∧
      details_granted AuthorizationCodeRARPolicy client requested granted).
Proof. apply checked_extensions_Ok. apply (bool_decide_unpack _). reflexivity. Qed.

(** ** Where the parameters come from *)

(** The parameters stored as they were sent: those but the
    authorization_details, which the policy grants. *)
Definition same_parameters (params sent : Params) : Prop :=
  ∀ k, k ∈ coreAuthorizationParameters → k ≠ authorizationDetailsParameter →
    params !! k = sent !! k.

(** A request without a request object is sent in the form. *)
Definition plain_request (form : gmap string string) (formResources : list string)
    (sent : Params) (resources : list string) : Prop :=
  form !! "request" = None ∧ cfg_Profile cfg ≠ ProfileFAPISecurityWithMessageSigning ∧
  sent = plainParamsToJSON form ∧ resources = formResources.

(** One with a request object is the object, which the client signed: the
    claims but the registered ones. *)
Definition signed_request (client : RegisteredClient) (form : gmap string string)
    (sent : Params) (resources : list string) : Prop :=
  ∃ token alg obj pub now x verified x',
    form !! "request" = Some token ∧ RequestObjectAlgorithm client = (alg, true) ∧
    alg ∈ RequestObjectAlgorithms cfg ∧ Objects.Parse token = Some obj ∧
    client_key (client_id client) RequestObjectVerification alg (Objects.KeyID obj) pub ∧
    clock_reading now ∧
    Objects.Verify (request_object_policy client alg now) obj pub x = (Ok verified, x') ∧
    sent = Objects.vo_Parameters verified ∧ resourcesFromParameters sent = Ok resources.

Lemma Parse_parameters_raw token obj :
  Objects.Parse token = Some obj → map_Forall (λ _, raw_ok) (Objects.c_Parameters (Objects.ob_claims obj)).
Proof.
  unfold Objects.Parse. intros (compact & _ & Hp)%bind_Some. case_match; [done|].
  destruct (Objects.parseClaims _) as [claims|] eqn:Hc; [|done]. injection Hp as <-. simpl.
  unfold Objects.parseClaims in Hc. destruct (unmarshal_object _) as [m|] eqn:Hm; [|done].
  apply Objects.parse_members_parameters in Hc as ->. apply unmarshal_object_raw in Hm.
  intros k raw [Hk _]%map_lookup_filter_Some. by apply (Hm k).
Qed.

Lemma resolveAuthorizationParameters_Ok form formResources client w params tokenClaims resources w' :
  resolveAuthorizationParameters form formResources client w = (Ok (params, tokenClaims, resources), w') →
  ∃ sent,
    (plain_request form formResources sent resources ∨ signed_request client form sent resources) ∧
    map_Forall (λ _, raw_ok) params ∧ map_Forall (λ _, raw_ok) tokenClaims ∧
    known_parameters coreAuthorizationParameters params ∧ same_parameters params sent ∧
    (∀ granted, params !! authorizationDetailsParameter = Some granted →
      ∃ requested, sent !! authorizationDetailsParameter = Some requested ∧
        details_granted AuthorizationCodeRARPolicy client requested granted).
Proof.
  unfold resolveAuthorizationParameters. intros Hrun.
  apply ebind_Ok in Hrun as ([] & w1 & Hcheck & Hrun). apply check_Ok in Hcheck as [_ ->].
  destruct (form !! "request") as [token|] eqn:Hreq.
  - destruct (RequestObjectAlgorithm client) as [alg permitted] eqn:Halg.
    apply ebind_Ok in Hrun as ([] & w2 & Hperm & Hrun). apply lift_Ok in Hperm as [->%guard_err_Ok ->].
    apply ebind_Ok in Hrun as ([] & w2 & Hserver & Hrun).
    apply lift_Ok in Hserver as [Hserver%guard_err_Ok%bool_decide_eq_true ->].
    apply ebind_Ok in Hrun as (verified & w2 & Hv & Hrun).
    do 3 (apply ebind_Ok in Hrun as ([] & ? & Hstep & Hrun); apply lift_Ok in Hstep as [_ ->]).
    apply ebind_Ok in Hrun as (res & w3 & Hres & Hrun). apply lift_Ok in Hres as [Hres ->].
    apply ebind_Ok in Hrun as ([p t] & w3 & Hext & Hrun). apply ret_Ok in Hrun as [[= -> -> ->] _].
    unfold verifiedObject in Hv. destruct (Objects.Parse token) as [obj|] eqn:Hparse; [|done].
    apply ebind_Ok in Hv as (candidates & w4 & Hkeys & Hv).
    apply map_err_Ok, zoom_run in Hkeys as (x & Hkeys & _). apply resolveClientKeys_Ok in Hkeys as [_ Hkeys].
    apply ebind_Ok in Hv as (now & w5 & Hnow%Now_reading & Hv).
    apply map_err_Ok, zoom_run in Hv as (x' & Hv & _).
    apply verifyWithCandidates_Ok in Hv as (pub & x0 & Hpub & Hv).
    assert (Hpar : Objects.vo_Parameters verified = Objects.c_Parameters (Objects.ob_claims obj))
      by (by apply Objects.Verify_Ok in Hv as (_ & _ & _ & _ & _ & ? & _)).
    apply checkExtensions_Ok in Hext as (? & ? & ? & ? & ?);
      [|rewrite Hpar; by eapply map_Forall_delete, Parse_parameters_raw].
    exists (Objects.vo_Parameters verified). split_and!; try done. right.
    exists token, alg, obj, pub, now, x0, verified, x'. split_and!; auto.
  - apply ebind_Ok in Hrun as ([p t] & w2 & Hplain & Hrun). apply ret_Ok in Hrun as [[= -> -> ->] _].
    unfold resolvePlainAuthorizationParameters in Hplain.
    apply ebind_Ok in Hplain as ([] & w3 & Hprof & Hplain).
    apply check_Ok in Hprof as [Hprof%negb_true_iff%bool_decide_eq_false ->].
    apply ebind_Ok in Hplain as ([] & w3 & _ & Hext).
    apply checkExtensions_Ok in Hext as (? & ? & ? & ? & ?).
    + exists (plainParamsToJSON form). split_and!; try done. by left.
    + intros k raw [Hne Hk]%lookup_delete_Some. unfold plainParamsToJSON in Hk.
      rewrite map_lookup_imap in Hk. apply bind_Some in Hk as (v & _ & Hk). case_bool_decide; [done|].
      case_bool_decide; [done|]. injection Hk as <-. by eexists.
Qed.

(** * What is checked of the parameters *)

(** A well-formed authorization request of a client: for a code, to a
    registered redirect URI, with a PKCE S256 challenge, no scope the client
    may not use, and optional parameters within their bounds. *)
Record request_wellformed (client : RegisteredClient) (params : Params) : Prop := {
  wf_grant_type : AllowsAuthorizationCodeGrant client = true;
  wf_response_type : jsonString params "response_type" = Some "code";
  wf_redirect_uri : ∃ uri, jsonString params "redirect_uri" = Some uri ∧
    HasRedirectURI client uri = true ∧ is_Some (parseRedirectURI client uri);
  wf_challenge : ∃ challenge, jsonString params "code_challenge" = Some challenge ∧ challenge ≠ "";
  wf_method : jsonString params "code_challenge_method" = Some "S256";
  wf_scope : ∀ sc, sc ∈ fields (default "" (jsonString params "scope")) →
    clientAllowsScope client sc = true;
  wf_max_age : ∃ age, requestedMaxAge params = Ok age ∧
    ∀ d, age = Some d → (0 ≤ d ≤ maxMaxAge * Second)%Z;
  wf_prompt : ∃ prompts, requestedPrompt params = Ok prompts ∧ NoDup prompts ∧
    length prompts ≤ maxPromptValues ∧ ("none" ∈ prompts → prompts = ["none"]);
  wf_acr : ∃ values, essentialACRValues params = Ok values;
  wf_sizes : ∀ name bound raw, (name, bound) ∈ authorizationParameterSizes → name ≠ "dpop_jkt" →
    params !! name = Some raw → parameterLength raw ≤ bound }.

Lemma prompt_values_Ok values : ∀ p p',
  prompt_values values p = Ok p' → NoDup p → length p ≤ maxPromptValues →
  NoDup p' ∧ length p' ≤ maxPromptValues.
Proof.
  induction values as [|v values IH]; intros p p' Hp Hnd Hlen; simpl in Hp; [by injection Hp as <-|].
  case_bool_decide; [by eapply IH|]. case_bool_decide; [done|]. apply (IH _ _ Hp).
  - apply NoDup_app. split; [done|]. split; [set_solver|apply NoDup_singleton].
  - rewrite length_app. simpl. lia.
Qed.

Lemma requestedPrompt_Ok params prompts :
  requestedPrompt params = Ok prompts →
  NoDup prompts ∧ length prompts ≤ maxPromptValues ∧ ("none" ∈ prompts → prompts = ["none"]).
Proof.
  unfold requestedPrompt. destruct (params !! "prompt") as [raw|].
  - destruct (jsonStringValue raw) as [v|]; [|done]. intros Hp.
    apply bind_Ok in Hp as ([] & _ & Hp). apply bind_Ok in Hp as (p & Hvalues & Hp).
    apply bind_Ok in Hp as ([] & Hnone & Hp). injection Hp as <-.
    apply prompt_values_Ok in Hvalues as [Hnd Hlen]; [|constructor|simpl; unfold maxPromptValues; lia].
    split; [done|]. split; [done|]. intros Hin.
    apply guard_err_Ok, negb_true_iff, andb_false_iff in Hnone as [Hn%bool_decide_eq_false|Hl];
      [done|]. apply bool_decide_eq_false in Hl.
    destruct p as [|x [|y l]]; simpl in Hl; [by apply not_elem_of_nil in Hin| |lia].
    by apply list_elem_of_singleton in Hin as ->.
  - intros [= <-]. split; [constructor|]. split; [simpl; lia|]. by intros ?%not_elem_of_nil.
Qed.

Lemma requestedMaxAge_Ok params age d :
  requestedMaxAge params = Ok age → age = Some d → (0 ≤ d ≤ maxMaxAge * Second)%Z.
Proof.
  unfold requestedMaxAge. intros Hr ->. destruct (params !! "max_age") as [raw|]; [|done].
  cbv zeta in Hr. case_match; [|done]. apply bind_Ok in Hr as ([] & Hrange & Hr).
  injection Hr as <-. apply guard_err_Ok, negb_true_iff, orb_false_iff in Hrange
    as [H1%bool_decide_eq_false H2%bool_decide_eq_false]. unfold Second. lia.
Qed.

Lemma jsonString_ext params params' k :
  params' !! k = params !! k → jsonString params' k = jsonString params k.
Proof. unfold jsonString. by intros ->. Qed.

Lemma checkParameterSizes_Ok params sizes :
  checkParameterSizes params sizes = Ok tt →
  ∀ name bound raw, (name, bound) ∈ sizes → params !! name = Some raw → parameterLength raw ≤ bound.
Proof.
  unfold checkParameterSizes. intros Hs name bound raw Hin Hraw.
  apply for_all_Ok in Hs. rewrite Forall_forall in Hs. specialize (Hs _ Hin). simpl in Hs.
  rewrite Hraw in Hs. apply guard_err_Ok, negb_true_iff, bool_decide_eq_false in Hs. lia.
Qed.

Lemma check_scope_parameter_Ok params client :
  check_scope_parameter params client = Ok tt →
  ∀ sc, sc ∈ fields (default "" (jsonString params "scope")) → clientAllowsScope client sc = true.
Proof.
  unfold check_scope_parameter, jsonString. destruct (params !! "scope") as [raw|]; simpl.
  - intros Hs. apply bind_Ok in Hs as (scope & Hscope%some_or_invalid_Ok & Hs). rewrite Hscope. simpl.
    apply guard_err_Ok in Hs. unfold validateScope in Hs. rewrite forallb_forall in Hs.
    intros sc Hin. by apply Hs, list_elem_of_In.
  - intros _ sc Hsc. by apply not_elem_of_nil in Hsc.
Qed.

Lemma ParseMethod_Ok s m : ParseMethod s = Ok m → s = "S256".
Proof. unfold ParseMethod. by repeat case_decide. Qed.

Lemma size_keys name bound :
  (name, bound) ∈ authorizationParameterSizes → name ∉ ["ui_locales"; "claims_locales"; "display"].
Proof. unfold authorizationParameterSizes. set_solver. Qed.

Lemma validateAuthorizationParameters_Ok params client params' :
  validateAuthorizationParameters params client = Ok params' →
  params' = boundPresentationPreferences params ∧ request_wellformed client params'.
Proof.
  unfold validateAuthorizationParameters. intros Hv.
  apply bind_Ok in Hv as ([] & Hgrant%guard_err_Ok & Hv).
  apply bind_Ok in Hv as ([] & Hsize%of_check_Ok & Hv). cbv zeta in Hv.
  unfold checkAuthorizationParameterSizes in Hsize. apply bind_Ok in Hsize as ([] & Hsize & _).
  set (p := boundPresentationPreferences params) in *.
  apply bind_Ok in Hv as ([] & _ & Hv). apply bind_Ok in Hv as ([] & Hne%guard_err_Ok & Hv).
  apply bind_Ok in Hv as ([] & Hcode%guard_err_Ok & Hv).
  apply bind_Ok in Hv as (uri & Huri%some_or_invalid_Ok & Hv).
  apply bind_Ok in Hv as ([] & Hreg%guard_err_Ok & Hv).
  apply bind_Ok in Hv as (u & Hparse%some_or_invalid_Ok & Hv).
  apply bind_Ok in Hv as (challenge & Hch%some_or_invalid_Ok & Hv).
  apply bind_Ok in Hv as ([] & Hchne%guard_err_Ok & Hv).
  apply bind_Ok in Hv as (method & Hm%some_or_invalid_Ok & Hv).
  apply bind_Ok in Hv as (m & Hmethod%or_invalid_Ok%ParseMethod_Ok & Hv). subst method.
  apply bind_Ok in Hv as (age & Hage%or_invalid_Ok & Hv).
  apply bind_Ok in Hv as (prompts & Hprompt%of_check_Ok & Hv).
  apply bind_Ok in Hv as ([] & _ & Hv).
  apply bind_Ok in Hv as (values & Hacr%of_check_Ok & Hv).
  apply bind_Ok in Hv as ([] & Hscope & Hv). injection Hv as <-. split; [done|].
  apply bool_decide_eq_true in Hcode. apply negb_true_iff, bool_decide_eq_false in Hchne.
  split; try by eauto.
  - destruct (jsonString p "response_type"); [by simpl in Hcode; subst|done].
  - by apply check_scope_parameter_Ok.
  - exists age. split; [done|]. intros d Hd. by eapply requestedMaxAge_Ok.
  - exists prompts. split; [done|]. by eapply requestedPrompt_Ok.
  - intros name bound raw Hin _ Hraw. apply (checkParameterSizes_Ok _ _ Hsize _ _ _ Hin).
    rewrite <-Hraw. symmetry. apply boundPresentationPreferences_lookup. by eapply size_keys.
Qed.

(** ** The DPoP key *)

Lemma wellformed_dpop_jkt client params v :
  request_wellformed client params → request_wellformed client (<["dpop_jkt" := v]> params).
Proof.
  intros [Hg Ht Hr Hc Hm Hs Hage Hp Ha Hsz].
  assert (Hl : ∀ k, k ≠ "dpop_jkt" → (<["dpop_jkt" := v]> params) !! k = params !! k)
    by (intros; by apply lookup_insert_ne).
  assert (Hj : ∀ k, k ≠ "dpop_jkt" → jsonString (<["dpop_jkt" := v]> params) k = jsonString params k)
    by (intros; by apply jsonString_ext, Hl).
  split; rewrite ?Hj by done; try done.
  - unfold requestedMaxAge. by rewrite Hl.
  - unfold requestedPrompt. by rewrite Hl.
  - unfold essentialACRValues, idTokenACREntry, claims_param. by rewrite Hl.
  - intros name bound raw Hin Hne. rewrite Hl by done. by apply Hsz.
Qed.

(** A proof sent to the endpoint was accepted there, and its key is the one
    the request is bound to. *)
Definition bound_to_proof (proof : string) (params : Params) : Prop :=
  proof ≠ "" → ∃ url now x verified x' jkt,
    clock_reading now ∧
    url ∈ [PushedAuthorizationRequestEndpoint cfg; MTLSPushedAuthorizationRequestEndpoint cfg] ∧
    Dpop.Verify (token_request_proof proof now url) x = (Ok verified, x') ∧
    jsonString params "dpop_jkt" = Some jkt ∧
    (jkt = vp_Thumbprint verified ∨ jkt = coerce_utf8 (vp_Thumbprint verified)).

Lemma reconcileParDPoPBinding_Ok proof params w params' w' :
  reconcileParDPoPBinding proof params w = (Ok params', w') →
  (params' = params ∨ ∃ jkt, params' = <["dpop_jkt" := marshal_string jkt]> params) ∧
  bound_to_proof proof params'.
Proof.
  unfold reconcileParDPoPBinding, bound_to_proof. case_bool_decide as Hp.
  { intros Hrun. apply ret_Ok in Hrun as [-> _]. split; [by left|done]. }
  intros Hrun. apply ebind_Ok in Hrun as (now & w1 & Hnow%Now_reading & Hrun).
  apply ebind_Ok in Hrun as (verified & w2 & Hv & Hrun).
  apply map_err_Ok, verifyDPoPAtEitherEndpoint_Ok in Hv as (url & x & x' & Hurl & Hv).
  apply ebind_Ok in Hrun as ([] & w3 & _ & Hrun). case_bool_decide as Hd; simpl in Hrun.
  - apply ret_Ok in Hrun as [-> _]. split; [right; by eexists|]. intros _.
    exists url, now, x, verified, x', (coerce_utf8 (vp_Thumbprint verified)).
    split_and!; try done; [|by right]. unfold jsonString. by rewrite lookup_insert_eq.
  - apply ebind_Ok in Hrun as ([] & w4 & Heq & Hrun). apply check_Ok in Heq as [Heq ->].
    apply bool_decide_eq_true in Heq. apply ret_Ok in Hrun as [-> _]. split; [by left|]. intros _.
    exists url, now, x, verified, x', (vp_Thumbprint verified). split_and!; try done; [|by left].
    by destruct (jsonString params "dpop_jkt"); simpl in *; subst.
Qed.

(** * What is pushed *)

(** What holds of the record of a pushed request: [form] and [formResources]
    are what the client sent, [proof] its DPoP proof and [ik] its Client
    Instance Key. *)
Record pushed_ok (client : RegisteredClient) (form : gmap string string)
    (formResources : list string) (proof ik : string) (r : requestRecord) : Prop := {
  pushed_from : ∃ sent requested,
    (plain_request form formResources sent requested ∨ signed_request client form sent requested) ∧
    (∀ k, k ∈ coreAuthorizationParameters →
      k ∉ [authorizationDetailsParameter; "dpop_jkt"; "ui_locales"; "claims_locales"; "display"] →
      rq_Parameters r !! k = sent !! k) ∧
    (∀ granted, rq_Parameters r !! authorizationDetailsParameter = Some granted →
      ∃ asked, sent !! authorizationDetailsParameter = Some asked ∧
        details_granted AuthorizationCodeRARPolicy client asked granted) ∧
    (∀ x, x ∈ rq_Resources r → Check_resource x = true ∧ AllowsResource client x = true ∧
      (x ∈ requested ∨ requested = [] ∧ AllowedResources client = [x]));
  pushed_wellformed : request_wellformed client (rq_Parameters r);
  pushed_known : known_parameters coreAuthorizationParameters (rq_Parameters r);
  pushed_values : request_claims_ok r;
  pushed_proof : bound_to_proof proof (rq_Parameters r);
  pushed_acr : essentialACRValues (rq_Parameters r) = Ok (rq_EssentialACRValues r);
  pushed_subject : ∃ sub, claimsSubValue (rq_Parameters r) = Ok sub ∧
    (sub = "" ∨ sub = rq_RequiredSubject r);
  pushed_instance : rq_ClientInstanceKey r = ik }.

Lemma requiredSubject_Ok params clientID w required w' :
  requiredSubject params clientID w = (Ok required, w') →
  ∃ sub, claimsSubValue params = Ok sub ∧ (sub = "" ∨ sub = required).
Proof.
  unfold requiredSubject. intros Hrun. apply ebind_Ok in Hrun as (sub & w1 & Hsub & Hrun).
  apply lift_Ok in Hsub as [Hsub%of_check_Ok ->]. exists sub. split; [done|].
  destruct (params !! "id_token_hint") as [raw|]; [|apply ret_Ok in Hrun as [-> _]; by right].
  apply ebind_Ok in Hrun as ([] & w2 & _ & Hrun). apply ebind_Ok in Hrun as (s & w3 & _ & Hrun).
  apply ebind_Ok in Hrun as ([] & w4 & Heq & Hrun). apply check_Ok in Heq as [Heq ->].
  apply ret_Ok in Hrun as [-> _].
  by apply orb_true_iff in Heq as [?%bool_decide_eq_true|?%bool_decide_eq_true]; [left|right].
Qed.

Lemma pushed_parameters_Ok client form formResources proof w params tokenClaims resources required
    internal w' :
  pushed_parameters client form formResources proof w =
    (Ok (params, tokenClaims, resources, required, internal), w') →
  ∀ source now ik, pushed_ok client form formResources proof ik
    (pushed_record params tokenClaims source now required internal resources ik).
Proof.
  unfold pushed_parameters. intros Hrun source now ik.
  apply ebind_Ok in Hrun as ([] & w1 & _ & Hrun).
  apply ebind_Ok in Hrun as ([[p1 t1] requested] & w2 & Hres & Hrun).
  apply ebind_Ok in Hrun as ([p2 res] & w3 & Hval & Hrun).
  apply ebind_Ok in Hrun as (req & w4 & Hsub & Hrun).
  apply ebind_Ok in Hrun as ([int unmapped] & w5 & _ & Hrun).
  apply ebind_Ok in Hrun as (p3 & w6 & Hdpop & Hrun). apply ret_Ok in Hrun as [[= -> -> -> -> ->] _].
  apply resolveAuthorizationParameters_Ok in Hres as (sent & Hfrom & Hraw & Htok & Hknown & Hsame & Hdet).
  unfold validateAuthorizationRequest in Hval. apply ebind_Ok in Hval as (p2' & w7 & Hv & Hval).
  apply lift_Ok in Hv as [Hv ->].
  apply ebind_Ok in Hval as (res' & w8 & Hr & Hval). apply ret_Ok in Hval as [[= -> ->] _].
  apply validateAuthorizationParameters_Ok in Hv as [-> Hwf].
  apply requiredSubject_Ok in Hsub. apply reconcileParDPoPBinding_Ok in Hdpop as [Hp Hproof].
  apply checkRequestedResources_Ok in Hr.
  set (p := boundPresentationPreferences p1) in *.
  assert (Hl : ∀ k, k ≠ "dpop_jkt" → p3 !! k = p !! k).
  { destruct Hp as [->|[jkt ->]]; [done|]. intros k ?. by rewrite lookup_insert_ne. }
  assert (Had : p3 !! authorizationDetailsParameter = p1 !! authorizationDetailsParameter).
  { rewrite Hl by done. apply boundPresentationPreferences_lookup. by vm_compute; set_solver. }
  split; simpl; try done.
  - exists sent, requested. split; [done|]. split_and!.
    + intros k Hk Hne. rewrite Hl by set_solver. unfold p.
      rewrite boundPresentationPreferences_lookup by set_solver. apply Hsame; set_solver.
    + intros granted Hg. apply Hdet. by rewrite <-Had.
    + destruct Hr as [(-> & _)|(_ & _ & Hr)]; [by intros x ?%not_elem_of_nil|done].
  - destruct Hp as [->|[jkt ->]]; [done|]. by apply wellformed_dpop_jkt.
  - intros k Hk. destruct (decide (k = "dpop_jkt")) as [->|Hne]; [left; by apply (bool_decide_unpack _)|].
    rewrite Hl in Hk by done. apply Hknown, elem_of_dom.
    apply elem_of_dom in Hk. by apply boundPresentationPreferences_dom in Hk.
  - split; [|done]. simpl. apply boundPresentationPreferences_raw in Hraw. fold p in Hraw.
    destruct Hp as [->|[jkt ->]]; [done|]. apply map_Forall_insert_2; [by eexists|done].
  - assert (Hacr : ∃ l, essentialACRValues p3 = Ok l).
    { destruct Hp as [->|[jkt ->]]; [by apply Hwf|]. by apply (wellformed_dpop_jkt _ _ (marshal_string jkt)) in Hwf as []. }
    by destruct Hacr as [l ->].
  - destruct Hsub as (sub & Hsub & ?). exists sub. split; [|done]. unfold claimsSubValue, claims_param in *.
    by rewrite Hl.
Qed.

(** What a request authenticates: its client, the DPoP proof it carries and
    the client's Client Instance Key. *)
Definition authenticated_request (req : TokenRequest) (w : World)
    : option (gmap string string * RegisteredClient * string * string) :=
  match formParametersToMap (takeResourceParameters (Parameters req)).1 with
  | None => None
  | Some params =>
    match (authenticateRequest params (credentials req) [] [] w).1 with
    | Ok (client, proof, ik) => Some (params, client, proof, ik)
    | Err _ => None
    end
  end.

(** ** What the endpoint stores *)

(** The one record a successful push writes. *)
Definition stored_push (client : RegisteredClient) (record : requestRecord) (reference : string)
    (now : Time) (p : NewPARRecord) : Prop :=
  par_Reference p = parReferenceKey (client_id client) reference ∧
  par_ClientID p = client_id client ∧
  encodeRequestRecord (cfg_Issuer cfg) record = Some (par_Request p) ∧
  par_ExpiresAt p = Add now (PushedRequestLifetime (cfg_Limits cfg)).

Lemma draw_nonempty n random r random' : draw (S n) random = (Ok r, random') → r ≠ "".
Proof.
  unfold draw, generateRandomToken. destruct (ReadFull _ _) as [[buf rest]|] eqn:Hread; [|done].
  intros [= <- _] Hlen%(f_equal String.length). apply take_bytes_spec in Hread as [_ Hbuf].
  unfold EncodeToString in Hlen. rewrite encode_length, bytes_of_length, Hbuf in Hlen.
  apply Nat.div_small_iff in Hlen; lia.
Qed.

Lemma GenerateRequestURI_Ok w uri w' :
  GenerateRequestURI w = (Ok uri, w') →
  ∃ reference, SplitRequestURI uri = Some reference.
Proof.
  unfold GenerateRequestURI. intros Hrun. apply ebind_Ok in Hrun as (reference & w1 & Hr & Hrun).
  apply ret_Ok in Hrun as [-> _]. exists reference. unfold SplitRequestURI.
  assert (CutPrefix (RequestURIPrefix +:+ reference) RequestURIPrefix = Some reference) as ->
    by (by apply CutPrefix_Some).
  apply zoom_run in Hr as (x & Hr & _). apply zoom_run in Hr as (y & Hr & _).
  apply map_err_Ok, draw_nonempty in Hr. by case_bool_decide.
Qed.

(** C12. A pushed authorization request is stored as it was checked. When the
    endpoint answers with a request_uri, the client was authenticated, and
    exactly one record was written: the client's, under the key of that
    request_uri, expiring with it, holding the request as [pushed_ok] states:
    well-formed, the parameters those of the form or of the request object
    the client signed, the authorization_details and resources no more than
    was asked for and may be used, and the key of the DPoP proof sent. *)
Theorem push_stores_request req w result w' :
  PushAuthorizationRequest req w = (Ok result, w') →
  ∃ form client proof ik record reference now p,
    authenticated_request req w = Some (form, client, proof, ik) ∧
    pushed_ok client form (takeResourceParameters (Parameters req)).2 proof ik record ∧
    clock_reading now ∧ rq_PushedAt record = Some now ∧
    SplitRequestURI (RequestURI result) = Some reference ∧
    stored_push client record reference now p ∧
    CreatePAR p (w_transactions w) = (Ok tt, w_transactions w') ∧ stores_same w w'.
Proof.
  intros Hrun. assert (Hstores := respects_PushAuthorizationRequest stores_same _
    (λ p, respects_on_transactions _ _) _ _ _ Hrun).
  unfold PushAuthorizationRequest, authenticated_request in *.
  destruct (takeResourceParameters (Parameters req)) as [formParams formResources]. simpl.
  apply ebind_Ok in Hrun as (form & w1 & Hform & Hrun).
  apply or_fail_Ok, parseForm_Ok in Hform as [Hform ->]. rewrite Hform.
  apply ebind_Ok in Hrun as ([[client proof] ik] & w1 & Hauth & Hrun). apply or_fail_Ok in Hauth.
  rewrite Hauth. apply (respects_authenticateRequest (same w_transactions)) in Hauth as Ht1.
  apply ebind_Ok in Hrun as (result' & w2 & Hpush & Hrun). apply or_fail_Ok in Hpush.
  apply ebind_Ok in Hrun as ([] & w3 & Haudit & Hrun). apply ret_Ok in Hrun as [-> ->].
  apply (respects_audit (same w_transactions)) in Haudit as Ht3.
  unfold push in Hpush.
  apply ebind_Ok in Hpush as ([[[[params tok] resources] required] internal] & w4 & Hparams & Hpush).
  apply (respects_pushed_parameters (same w_transactions)) in Hparams as Ht4.
  apply ebind_Ok in Hpush as (uri & w5 & Huri & Hpush).
  apply (respects_GenerateRequestURI (same w_transactions)) in Huri as Ht5.
  apply ebind_Ok in Hpush as (now & w6 & Hnow & Hpush).
  apply (respects_Now (same w_transactions)) in Hnow as Ht6.
  apply ebind_Ok in Hpush as ([] & w7 & Hstore & Hpush).
  apply ebind_Ok in Hpush as (nonce & w8 & Hnonce & Hpush). apply ret_Ok in Hpush as [-> ->].
  assert (Ht8 : same w_transactions w7 w8).
  { destruct has_nonces; [|by apply ret_Ok in Hnonce as [_ ->]].
    apply map_err_Ok in Hnonce. by apply (respects_issueDPoPNonce (same w_transactions)) in Hnonce. }
  apply GenerateRequestURI_Ok in Huri as [reference Huri].
  apply pushed_parameters_Ok with (source := if is_Some_bool (form !! "request")
    then SourceRequestObject else SourcePlainParameter) (now := now) (ik := ik) in Hparams.
  unfold store_pushed in Hstore. destruct (encodeRequestRecord _ _) as [request|] eqn:Henc; [|done].
  apply map_err_Ok, zoom_run in Hstore as (t & Hcreate & ->).
  unfold same in *. simpl in Ht8.
  rewrite Ht6, Ht5, Ht4, Ht1 in Hcreate. rewrite <-Ht8, <-Ht3 in Hcreate.
  exists form, client, proof, ik. eexists _, reference, now, _.
  split_and!; [done|exact Hparams|by eapply Now_reading|done|done| |exact Hcreate|done].
  unfold stored_push. simpl. by rewrite Huri.
Qed.

(** What the endpoint writes, whatever it answers: a failure after the
    record was stored leaves it there. *)
Definition push_written (req : TokenRequest) (w : World) (before after : TransactionsT) : Prop :=
  ∃ form client proof ik record reference now p answer,
    authenticated_request req w = Some (form, client, proof, ik) ∧
    pushed_ok client form (takeResourceParameters (Parameters req)).2 proof ik record ∧
    stored_push client record reference now p ∧ CreatePAR p before = (answer, after).

Lemma push_writes client form formResources proof ik :
  writes w_transactions (λ before after, ∃ record reference now p answer,
      pushed_ok client form formResources proof ik record ∧
      stored_push client record reference now p ∧ CreatePAR p before = (answer, after))
    (push client form formResources proof ik).
Proof.
  unfold push.
  apply writes_after; [frame|intros [[[[params tok] resources] required] internal] ? ? Hparams].
  apply writes_after; [frame|intros uri ? ? Huri].
  apply writes_after; [frame|intros now ? ? _].
  apply writes_before; [|intros ?; frame]. unfold store_pushed.
  destruct (encodeRequestRecord _ _) as [request|] eqn:Henc; [|apply writes_same; frame].
  apply writes_map_err. intros wa r wb Hrun. right. apply zoom_run in Hrun as (t & Hcreate & ->).
  eexists _, (default "" (SplitRequestURI uri)), now, _, r.
  split_and!; [by eapply pushed_parameters_Ok| |exact Hcreate].
  unfold stored_push. by split_and!.
Qed.

Lemma PushAuthorizationRequest_writes req w r w' :
  PushAuthorizationRequest req w = (r, w') →
  same w_transactions w w' ∨ push_written req w (w_transactions w) (w_transactions w').
Proof.
  unfold PushAuthorizationRequest, push_written, authenticated_request.
  destruct (takeResourceParameters (Parameters req)) as [formParams formResources]. simpl.
  unfold ebind at 1. destruct (or_fail _ _ (parseForm formParams) w) as [[form|e] w1] eqn:Hform;
    [|intros [= <- <-]; left; revert Hform; apply (respects_or_fail _), (respects_parseForm _)].
  apply or_fail_Ok, parseForm_Ok in Hform as [Hform ->]. rewrite Hform.
  unfold ebind at 1. destruct (or_fail _ _ (authenticateRequest _ _ _ _) w) as [[a|e] w1] eqn:Hauth;
    [|intros [= <- <-]; left; revert Hauth; apply (respects_or_fail _), (respects_authenticateRequest _)].
  apply or_fail_Ok in Hauth. destruct a as [[client proof] ik]. rewrite Hauth.
  apply (respects_authenticateRequest (same w_transactions)) in Hauth. unfold same in Hauth at 1.
  rewrite <-Hauth. intros Hrun. revert Hrun. unfold same at 1. rewrite <-Hauth.
  match goal with |- ?m w1 = (r, w') → _ => enough (Hw : writes w_transactions (λ before after,
    ∃ record reference now p answer, pushed_ok client form formResources proof ik record ∧
      stored_push client record reference now p ∧ CreatePAR p before = (answer, after)) m) end.
  { intros [?|(record & reference & now & p & answer & ? & ? & ?)]%Hw; [by left|right].
    by exists form, client, proof, ik, record, reference, now, p, answer. }
  apply writes_before; [|intros ?; frame]. apply (writes_or_fail _ _), push_writes.
Qed.
End request.
