(* ===== verification/CompletionTheorems.v ===== *)
(** Completing an authorization: a code is stored only for a grant within the
    pushed request, by an authentication that meets it. *)
From S2P Require Import Prelude GoStrings Json GoTime Pkce Digests Platform JsonCodec.
From S2P Require Import Effects.
From S2P Require Import Storage ServerTypes Rar Nonce Records Claims Dpop Jose Canonical.

From S2P Require Import Extensions Attestation ClientAuth ClientAuthTheorems ServerState.
From S2P Require Import TokenChecks TokenChecksTheorems.
From S2P Require Import Issue HandlerLemmas.
From S2P Require Import CodeExchange Parameters ClaimsParameter Subjects Par.
From S2P Require Import Authorization Completion Frames FrontFrames PushTheorems.
From stdpp Require Import options.

Set Default Proof Using "Type*".

Section completion.
Context `{FrontServer}.

Lemma or_local_Ok {A B} typ client (local : Error → B) (m : srv A) (k : A → srv B) w b w' :
  or_local typ client local m k w = (Ok b, w') →
  (∃ a w1, m w = (Ok a, w1) ∧ k a w1 = (Ok b, w')) ∨ ∃ e w1, m w = (Err e, w1) ∧ b = local e.
Proof.
  unfold or_local, try, ebind. destruct (m w) as [[a|e] w1]; [by left; exists a, w1|].
  intros Hrun. right. exists e, w1. split; [done|].
  destruct (audit _ _ _ _ w1) as [[[]|] w2]; [|done]. by apply ret_Ok in Hrun as [-> _].
Qed.

(** * The grant approved *)

(** What an approved grant is, next to the request: nothing the client did
    not ask for. *)
Record within_request (request : requestRecord) (grant : GrantedAuthorization)
    (approved : approvedGrant) : Prop := {
  within_scope : ∀ sc, sc ∈ ga_Scope grant →
    sc ∈ fields (default "" (jsonString (rq_Parameters request) "scope"));
  within_some_scope : fields (default "" (jsonString (rq_Parameters request) "scope")) ≠ [] →
    ga_Scope grant ≠ [];
  within_details : validateGrantedAuthorizationDetails
      (default RawNil (rq_Parameters request !! authorizationDetailsParameter))
      (ga_AuthorizationDetails grant) = Some (ag_authorizationDetails approved);
  within_resources : ∀ x, x ∈ ag_resources approved → x ∈ rq_Resources request;
  within_idToken : ag_idTokenClaims approved ⊆
    rc_IDToken (requestedClaimsFrom (rq_Parameters request));
  within_userinfo : ag_userinfoClaims approved ⊆
    rc_UserInfo (requestedClaimsFrom (rq_Parameters request));
  within_approved : ag_idTokenClaims approved ⊆ ga_ApprovedIdentityClaims grant ∧
    ag_userinfoClaims approved ⊆ ga_ApprovedIdentityClaims grant }.

Lemma requestedClaimValues_raw params location names :
  map_Forall (λ _, Forall raw_ok) (requestedClaimValues params location names).
Proof.
  unfold requestedClaimValues. destruct (claimsMembers _) as [top|]; [|apply map_Forall_empty].
  set (requests := default ∅ _).
  assert (Hout : map_Forall (λ _ : string, Forall raw_ok) (∅ : Acceptable)) by apply map_Forall_empty.
  revert Hout. generalize (∅ : Acceptable). induction names as [|name names IH]; intros out Hout; [done|].
  simpl. apply IH. destruct (FromRequest _) as [l|] eqn:Hf; [|done].
  apply map_Forall_insert_2; [|done]. unfold FromRequest in Hf.
  destruct (default RawNil (requests !! name)) as [| |[]] eqn:Hr; try done.
  destruct (unmarshal_object _) as [mem|] eqn:Hm; [|done]. apply unmarshal_object_raw in Hm.
  destruct (mem !! "values") as [v|]; destruct (mem !! "value") as [x|] eqn:Hx;
    try (injection Hf as <-); try done.
  - destruct (unmarshal_slice v); injection Hf as <-; [|constructor].
    apply Forall_forall. intros y [_ (j & -> & _)%list_elem_of_fmap]%list_elem_of_filter. by eexists.
  - destruct (unmarshal_slice v); injection Hf as <-; [|constructor].
    apply Forall_forall. intros y [_ (j & -> & _)%list_elem_of_fmap]%list_elem_of_filter. by eexists.
  - constructor; [|constructor]. by apply (Hm "value").
Qed.

Lemma checkApprovedGrant_Ok request grant approved :
  checkApprovedGrant request grant = Ok approved →
  within_request request grant approved ∧ map_Forall (λ _, raw_ok) (ga_IDTokenClaims grant) ∧
  map_Forall (λ _, Forall raw_ok) (ag_idTokenClaimValues approved) ∧
  map_Forall (λ _, Forall raw_ok) (ag_userinfoClaimValues approved).
Proof.
  unfold checkApprovedGrant. intros Hc.
  apply bind_Ok in Hc as ([] & Hscope%guard_err_Ok & Hc).
  apply bind_Ok in Hc as (details & Hdetails%some_or_invalid_Ok & Hc).
  apply bind_Ok in Hc as (resources & Hres & Hc).
  apply bind_Ok in Hc as ([] & Hclaims%guard_err_Ok & Hc). apply bind_Ok in Hc as ([] & _ & Hc).
  apply bind_Ok in Hc as ([id ui] & Hnames%some_or_invalid_Ok & Hc). injection Hc as <-.
  apply approvedClaimNames_requested in Hnames as (Hid & Hui & _ & Hida & Huia).
  unfold validateGrantedScopeSubset in Hscope. apply andb_true_iff in Hscope as [Hne Hsub].
  rewrite forallb_forall in Hsub. split; [|split; [|split; apply requestedClaimValues_raw]].
  - split; simpl; try done.
    + intros sc Hsc. apply list_elem_of_In in Hsc. by apply (bool_decide_eq_true _), Hsub.
    + intros Hreq Hnil. rewrite Hnil, bool_decide_true, bool_decide_false in Hne by done. done.
    + unfold grantedResources in Hres. destruct (narrowResources _ _) as [r|] eqn:Hr; [|done].
      injection Hres as <-. apply narrowResources_Ok in Hr as [[_ ->]|(_ & _ & _ & Hsubr)]; done.
  - intros k raw Hk. unfold validateGrantedIDTokenClaims in Hclaims.
    apply andb_true_iff in Hclaims as [_ Hall]. rewrite forallb_forall in Hall.
    specialize (Hall (k, raw)). rewrite <-list_elem_of_In, elem_of_map_to_list in Hall.
    specialize (Hall Hk). simpl in Hall.
    apply andb_true_iff in Hall as [Hall _]. apply andb_true_iff in Hall as [_ Hraw].
    destruct raw; try done. by eexists.
Qed.

(** * The authentication *)

(** The sub a client sees for a user: the user's own subject, or the
    pairwise one derived for the client's sector. *)
Definition client_sees (clientID : ClientID) (subject clientSub sector : string) : Prop :=
  ∃ client w w', resolves_client clientID client ∧
    clientSubjectFor client subject w = (Ok (clientSub, sector), w').

(** The authentication is one of some user, no later than now, and meets
    what the request asked of it. *)
Record authentication_meets (request : requestRecord) (auth : AuthenticationContext)
    (clientSub : string) : Prop := {
  meets_time : ∃ now, clock_reading now ∧ IsZero (ac_authTime auth) = false ∧
    (ac_authTime auth ≤ now + MaxClockSkew (cfg_Limits cfg))%Z;
  meets_max_age : ∀ age, requestedMaxAge (rq_Parameters request) = Ok (Some age) →
    ∃ now, clock_reading now ∧
      (now - age - MaxClockSkew (cfg_Limits cfg) ≤ ac_authTime auth)%Z;
  meets_login : ∀ prompts pushedAt, requestedPrompt (rq_Parameters request) = Ok prompts →
    "login" ∈ prompts → rq_PushedAt request = Some pushedAt →
    (pushedAt - MaxClockSkew (cfg_Limits cfg) ≤ ac_authTime auth)%Z;
  meets_acr : rq_EssentialACRValues request = [] ∨ ac_acr auth ∈ rq_EssentialACRValues request;
  meets_subject : rq_RequiredSubject request = "" ∨ rq_RequiredSubject request = clientSub }.

Lemma checkAuthorizeResult_Ok clientID subject auth w clientSub sector w' :
  checkAuthorizeResult clientID subject auth w = (Ok (clientSub, sector), w') →
  subject ≠ "" ∧ client_sees clientID subject clientSub sector ∧
  ∃ now, clock_reading now ∧ IsZero (ac_authTime auth) = false ∧
    (ac_authTime auth ≤ now + MaxClockSkew (cfg_Limits cfg))%Z.
Proof.
  unfold checkAuthorizeResult. intros Hrun.
  apply ebind_Ok in Hrun as ([] & w1 & Hs & Hrun).
  apply check_Ok in Hs as [Hs%negb_true_iff%bool_decide_eq_false ->].
  apply ebind_Ok in Hrun as (now & w2 & Hnow%Now_reading & Hrun).
  apply ebind_Ok in Hrun as ([] & w3 & Hp & Hrun).
  apply check_Ok in Hp as [Hp%bool_decide_eq_true ->].
  unfold subjectAtClient in Hrun. apply ebind_Ok in Hrun as (client & w4 & Hclient & Hrun).
  apply map_err_Ok, zoom_run in Hclient as (x & Hclient & _).
  split; [done|]. split; [by exists client, w4, w'; split; [eexists _, _|]|].
  exists now. split; [done|]. unfold authTimeProblem in Hp.
  destruct (IsZero _); [done|]. destruct (After _ _) eqn:Ha; [done|].
  apply bool_decide_eq_false in Ha. unfold Add in Ha. split; [done|lia].
Qed.

Lemma loginRequiredProblem_Ok request auth clientSub w w' now0 :
  loginRequiredProblem request auth clientSub w = (Ok "", w') →
  clock_reading now0 → IsZero (ac_authTime auth) = false →
  (ac_authTime auth ≤ now0 + MaxClockSkew (cfg_Limits cfg))%Z →
  authentication_meets request auth clientSub.
Proof.
  unfold loginRequiredProblem. intros Hrun Hnow Hz Hle. apply ebind_Ok in Hrun as (stale & w1 & Hs & Hrun).
  apply ret_Ok in Hrun as [Hrun _]. destruct stale; [done|].
  destruct (bool_decide ("login" ∈ _) && _) eqn:Hlogin; [done|].
  destruct (meetsEssentialACR _ _) eqn:Hacr; [|done].
  destruct (meetsRequiredSubject _ _) eqn:Hsub; [|done]. simpl in Hrun. split.
  - by exists now0.
  - intros age Hage. rewrite Hage in Hs. simpl in Hs.
    apply ebind_Ok in Hs as (now & w2 & Hn%Now_reading & Hs). apply ret_Ok in Hs as [Hb _].
    symmetry in Hb. apply bool_decide_eq_false in Hb. unfold Add in Hb. exists now. split; [done|lia].
  - intros prompts pushedAt Hp Hin Hat. rewrite Hp, Hat in Hlogin. simpl in Hlogin.
    rewrite bool_decide_true in Hlogin by done. apply bool_decide_eq_false in Hlogin.
    unfold Add in Hlogin. lia.
  - unfold meetsEssentialACR in Hacr.
    by apply orb_true_iff in Hacr as [?%bool_decide_eq_true|?%bool_decide_eq_true]; [left|right].
  - unfold meetsRequiredSubject in Hsub.
    apply orb_true_iff in Hsub as [?%bool_decide_eq_true|?%bool_decide_eq_true]; [by left|by right].
Qed.

(** * The code *)

(** The grant a code stands for: the pushed request's redirect URI,
    challenge, nonce, DPoP key and client instance, and a user's
    authentication and approval that meet the request. *)
Record code_granted (clientID : ClientID) (request : requestRecord) (subject : AuthenticatedSubject)
    (auth : AuthenticationContext) (grant : GrantedAuthorization) (g : grantRecord) : Prop := {
  granted_kind : g_Kind g = grantKindAuthorizationCode;
  granted_redirect_uri :
    jsonString (rq_Parameters request) "redirect_uri" = Some (g_RedirectURI g);
  granted_challenge :
    jsonString (rq_Parameters request) "code_challenge" = Some (g_CodeChallenge g);
  granted_nonce : optionalJSONString (rq_Parameters request) "nonce" = Some (g_Nonce g);
  granted_dpop_jkt : optionalJSONString (rq_Parameters request) "dpop_jkt" = Some (g_DPoPJKT g);
  granted_instance : g_ClientInstanceKey g = rq_ClientInstanceKey request;
  granted_token_claims : g_TokenClaims g = rq_TokenClaims request;
  granted_subject : subject ≠ "" ∧ g_Subject g = subject;
  granted_approval : ∃ approved, within_request request grant approved ∧
    g_Scope g = ga_Scope grant ∧ g_AuthorizationDetails g = ag_authorizationDetails approved ∧
    g_Resources g = ag_resources approved ∧
    g_RequestedIDTokenClaims g = ag_idTokenClaims approved ∧
    g_RequestedUserinfoClaims g = ag_userinfoClaims approved;
  granted_authentication : ∃ clientSub sector, client_sees clientID subject clientSub sector ∧
    authentication_meets request auth clientSub ∧
    g_ClientSubject g = distinctClientSubject clientSub subject ∧ g_PairwiseSector g = sector ∧
    g_AuthTime g = ac_authTime auth ∧ g_ACR g = ac_acr auth ∧ g_AMR g = ac_amr auth;
  granted_issued_at : ∃ now, clock_reading now ∧ g_IssuedAt g = Some now;
  granted_values : map_Forall (λ _, raw_ok) (rq_TokenClaims request) → grant_claims_ok g }.

(** ** Writing the grant store *)

(** The code a completion stores: its record and the answer of the store. *)
Definition code_stored (clientID : ClientID) (request : requestRecord) (subject : AuthenticatedSubject)
    (auth : AuthenticationContext) (grant : GrantedAuthorization) (before after : GrantsT) : Prop :=
  ∃ g code nac now answer,
    code_granted clientID request subject auth grant g ∧
    encodeGrantRecord (cfg_Issuer cfg) g = Some (nac_Grant nac) ∧ nac_ClientID nac = clientID ∧
    nac_CodeHash nac = authorizationCodeHash code (rq_ClientInstanceKey request) ∧
    g_IssuedAt g = Some now ∧
    nac_ExpiresAt nac = Add now (AuthorizationCodeLifetime (cfg_Limits cfg)) ∧
    CreateAuthorizationCode nac before = (answer, after).

Lemma some_or_server_Ok {A} desc (o : option A) w a w' :
  some_or_server desc o w = (Ok a, w') → o = Some a ∧ w' = w.
Proof. destruct o; [|done]. simpl. by intros [-> ->]%ret_Ok. Qed.

Lemma issue_code_writes clientID request uri subject clientSub sector auth grant approved :
  jsonString (rq_Parameters request) "redirect_uri" = Some uri → subject ≠ "" →
  client_sees clientID subject clientSub sector → authentication_meets request auth clientSub →
  checkApprovedGrant request grant = Ok approved →
  writes w_grants (code_stored clientID request subject auth grant)
    (issue_code clientID request uri subject clientSub sector auth grant approved).
Proof.
  intros Huri Hne Hsees Hmeets Happ. unfold issue_code.
  apply writes_after; [frame|intros challenge ? ? [Hch _]%some_or_server_Ok].
  apply writes_after; [frame|intros code ? ? _].
  apply writes_after; [frame|intros nonce ? ? [Hnonce _]%some_or_server_Ok].
  apply writes_after; [frame|intros jkt ? ? [Hjkt _]%some_or_server_Ok].
  apply writes_after; [frame|intros now ? ? Hnow%Now_reading].
  apply writes_after; [frame|intros encoded ? ? [Henc _]%some_or_server_Ok].
  apply writes_before; [|intros ?; frame].
  intros wa r wb Hrun. right. apply checkApprovedGrant_Ok in Happ as (Hwithin & Hid & Hv1 & Hv2).
  unfold map_err, on_grants, zoom in Hrun. destruct (CreateAuthorizationCode _ _) as [answer s] eqn:Hcreate.
  assert (wb = set_grants s wa) as -> by (destruct answer; by injection Hrun as _ <-).
  match type of Hcreate with CreateAuthorizationCode ?nac _ = _ =>
    eexists _, code, nac, now, answer end.
  split; [|by split_and!; [exact Henc|..]].
  split; simpl; try done.
  - by exists approved.
  - by exists clientSub, sector.
  - by exists now.
Qed.

Lemma completeAuthorize_writes clientID request uri state subject auth grant :
  jsonString (rq_Parameters request) "redirect_uri" = Some uri →
  writes w_grants (code_stored clientID request subject auth grant)
    (completeAuthorize clientID request uri state subject auth grant).
Proof.
  intros Huri. unfold completeAuthorize.
  apply writes_after; [frame|intros [clientSub sector] ? ? (Hne & Hsees & now & ? & ? & ?)%checkAuthorizeResult_Ok].
  apply writes_after; [frame|intros problem ? ? Hproblem]. case_bool_decide as Hp; simpl;
    [|apply writes_same; frame].
  subst problem. apply loginRequiredProblem_Ok with (now0 := now) in Hproblem; [|done..].
  apply writes_after; [frame|intros approved ? ? [Happ _]%lift_Ok].
  apply writes_before; [|intros ?; frame]. by apply issue_code_writes with (uri := uri).
Qed.

(** The result of an authorization: the user authorized it. *)
Definition authorizes (result : option InteractionResult) (subject : AuthenticatedSubject)
    (auth : AuthenticationContext) (grant : GrantedAuthorization) : Prop :=
  result = Some (authorizeResult subject auth grant).

(** What CompleteAuthorization's completion of an interaction writes. *)
Definition completion_stored (result : option InteractionResult) (completed : CompletedInteraction)
    (before after : GrantsT) : Prop :=
  ∃ request subject auth grant,
    result = Some (authorizeResult subject auth grant) ∧
    decodeOwnRequestRecord (cfg_Issuer cfg) (ci_Request completed) = Ok request ∧
    (∃ now, clock_reading now ∧ (now < ci_ExpiresAt completed)%Z) ∧
    code_stored (ci_ClientID completed) request subject auth grant before after.

Lemma complete_writes result completed :
  writes w_grants (completion_stored result completed) (complete result completed).
Proof.
  unfold complete.
  apply writes_after; [frame|intros now ? ? Hnow%Now_reading].
  apply writes_after; [frame|intros [] ? ? [Hexp%bool_decide_eq_true _]%check_Ok].
  destruct (decodeOwnRequestRecord _ _) as [request|] eqn:Hdec; [|apply writes_same; frame].
  apply writes_after; [frame|intros uri ? ? [Huri _]%some_or_server_Ok].
  apply writes_after; [frame|intros state ? ? _].
  destruct result as [[subject auth grant|reason|reason|reason|need reason]|];
    try solve [apply writes_same; frame].
  apply writes_after; [frame|intros [] ? ? _]. intros wa r wb Hrun.
  destruct (completeAuthorize_writes _ _ _ state subject auth grant Huri _ _ _ Hrun) as [?|Hstored];
    [by left|right].
  exists request, subject, auth, grant. split_and!; [done..|by exists now|done].
Qed.

Lemma completion_writes req w r w' :
  Server_CompleteAuthorization req w = (r, w') →
  w_grants w' = w_grants w ∨
  ∃ completed t, CompleteAuthorization {| cat_Handle := interactionHandleKey (car_Handle req) |}
      (w_transactions w) = (Ok completed, t) ∧
    completion_stored (car_Result req) completed (w_grants w) (w_grants w').
Proof.
  unfold Server_CompleteAuthorization, or_local at 1, map_err, on_transactions, zoom, try.
  unfold ebind at 1. destruct (CompleteAuthorization _ _) as [[completed|e] t] eqn:Hc; intros Hrun.
  - set (w1 := set_transactions t w) in *. change (w_grants w) with (w_grants w1).
    cut ((same w_grants) w1 w' ∨ completion_stored (car_Result req) completed (w_grants w1) (w_grants w')).
    { intros [?|?]; [by left|right]. by exists completed, t. }
    unfold or_local in Hrun. revert Hrun.
    apply (writes_before w_grants (completion_stored (car_Result req) completed));
      [apply writes_try, complete_writes|].
    intros [done'|e]; frame.
  - left. revert Hrun. assert (Hf : respects (same w_grants) (do* audit AuditEventCompleteAuthorization ""
      AuditOutcomeFailure (code_string (code invalid_handle)) in
      (ret (AuthorizationLocalError invalid_handle)) : srv AuthorizationResult)) by frame.
    intros Hrun. apply Hf in Hrun. exact Hrun.
Qed.

(** C11. A code is issued only for what was pushed and approved. Whatever
    CompleteAuthorization returns, it writes the grant store at most once,
    and then one code: for an interaction the transaction store just
    completed, unexpired, whose request this server wrote and which the
    application's user authorized; the code is the request's client's and
    expires after the configured lifetime, and its grant is as [code_granted]
    says: the pushed redirect_uri, code_challenge, nonce, DPoP key and client
    instance, scopes, resources, authorization_details and identity claims
    no more than were asked for, and an authentication that meets the
    request's max_age, prompt=login, essential acr and required subject. *)
Theorem completion_issues_code req w r w' :
  Server_CompleteAuthorization req w = (r, w') →
  w_grants w' = w_grants w ∨
  ∃ completed t, CompleteAuthorization {| cat_Handle := interactionHandleKey (car_Handle req) |}
      (w_transactions w) = (Ok completed, t) ∧
    completion_stored (car_Result req) completed (w_grants w) (w_grants w').
Proof. apply completion_writes. Qed.
End completion.
