(* ===== verification/CibaRequestTheorems.v ===== *)
(** A backchannel authentication request: what BeginBackchannelAuthentication
    has checked of the request it stores, and what it stores. *)
From S2P Require Import Prelude GoStrings Json GoTime Sha256 Pkce Platform JsonCodec.
From S2P Require Import Digests.
From S2P Require Import Effects Storage ServerTypes Rar Nonce Records Claims Dpop.
From S2P Require Import Canonical.
From S2P Require Import Jose Extensions RequestObject Attestation ClientAuth.
From S2P Require Import ClientAuthTheorems ServerState.
From S2P Require Import TokenChecks Issue BackchannelToken TokenChecksTheorems.
From S2P Require Import HandlerLemmas.
From S2P Require Import Parameters ClaimsParameter Subjects Par Authorization Completion.
From S2P Require Import Ciba.
From S2P Require Import Frames FrontFrames PushTheorems.
From S2P Require Import CompletionTheorems.
From stdpp Require Import options.

Set Default Proof Using "Type*".

Section request.
Context `{CibaServer}.

(** * What is checked of the parameters *)

(** The one hint that names the user. *)
Definition one_hint (params : Params) : Prop :=
  ∃ name hint, name ∈ hint_names ∧ jsonString params name = Some hint ∧ hint ≠ "" ∧
    ∀ other, other ∈ hint_names → other ≠ name → params !! other = None.

(** A well-formed backchannel authentication request of a client. *)
Record backchannel_wellformed (client : RegisteredClient) (params : Params) : Prop := {
  bw_scope : ∃ scope, jsonString params "scope" = Some scope ∧ "openid" ∈ fields scope ∧
    ∀ sc, sc ∈ fields scope → clientAllowsScope client sc = true;
  bw_hint : one_hint params;
  bw_binding_message : ∀ raw, params !! "binding_message" = Some raw →
    ∃ msg, jsonStringValue raw = Some msg ∧ isAcceptableBindingMessage msg = true ∧
      (RequireBindingMessage cfg = true → hasVisibleContent msg = true);
  bw_binding_required : RequireBindingMessage cfg = true → is_Some (params !! "binding_message");
  bw_ping : backchannelTokenDeliveryMode client = BackchannelTokenDeliveryModePing →
    ∃ token, jsonString params "client_notification_token" = Some token ∧
      isClientNotificationToken token = true;
  bw_poll : backchannelTokenDeliveryMode client = BackchannelTokenDeliveryModePoll →
    params !! "client_notification_token" = None;
  bw_claims : validateClaimsParameter params = Ok tt;
  bw_acr : ∃ values, essentialACRValues params = Ok values }.

Lemma count_hints_zero params names :
  count_hints params names = Ok 0 → ∀ name, name ∈ names → params !! name = None.
Proof.
  induction names as [|n names IH]; [by intros _ ? ?%not_elem_of_nil|]. simpl.
  destruct (params !! n) eqn:Hn.
  - intros Hc. apply bind_Ok in Hc as ([] & _ & Hc). by apply bind_Ok in Hc as (k & _ & Hc).
  - intros Hc name [->|Hin]%elem_of_cons; [done|by apply IH].
Qed.

Lemma count_hints_one params names :
  NoDup names → count_hints params names = Ok 1 →
  ∃ name hint, name ∈ names ∧ jsonString params name = Some hint ∧ hint ≠ "" ∧
    ∀ other, other ∈ names → other ≠ name → params !! other = None.
Proof.
  induction names as [|n names IH]; [done|]. simpl. intros [Hnotin Hnd]%NoDup_cons.
  destruct (params !! n) as [raw|] eqn:Hn; intros Hc.
  - apply bind_Ok in Hc as ([] & Hne%guard_err_Ok%negb_true_iff%bool_decide_eq_false & Hc).
    apply bind_Ok in Hc as (k & Hk & Hc). injection Hc as ->.
    exists n. unfold jsonString. rewrite Hn. simpl. destruct (jsonStringValue raw) as [hint|]; [|done].
    exists hint. split_and!; [by left|done|done|].
    intros other [->|Hin]%elem_of_cons Hother; [done|]. by apply (count_hints_zero _ _ Hk).
  - destruct (IH Hnd Hc) as (name & hint & Hin & Hj & Hh & Hothers). exists name, hint.
    split_and!; [by right|done|done|]. intros other [->|?]%elem_of_cons ?; auto.
Qed.

Lemma validateBindingMessage_Ok params required :
  validateBindingMessage params required = Ok tt →
  (required = true → is_Some (params !! "binding_message")) ∧
  ∀ raw, params !! "binding_message" = Some raw →
    ∃ msg, jsonStringValue raw = Some msg ∧ isAcceptableBindingMessage msg = true ∧
      (required = true → hasVisibleContent msg = true).
Proof.
  unfold validateBindingMessage. destruct (params !! _) as [raw|].
  - intros Hb. apply bind_Ok in Hb as (msg & Hmsg%some_or_invalid_Ok & Hb).
    apply bind_Ok in Hb as ([] & Hok%guard_err_Ok & Hb). apply guard_err_Ok in Hb.
    split; [by eexists|]. intros ? [= <-]. exists msg. split_and!; [done..|]. by intros ->.
  - intros Hb%guard_err_Ok. by destruct required.
Qed.

Lemma validateClientNotificationToken_Ok params client params' :
  validateClientNotificationToken params client = Ok params' →
  (∀ k, k ≠ "client_notification_token" → params' !! k = params !! k) ∧
  (∀ k raw, params' !! k = Some raw → params !! k = Some raw) ∧
  (backchannelTokenDeliveryMode client = BackchannelTokenDeliveryModePing →
    ∃ token, jsonString params' "client_notification_token" = Some token ∧
      isClientNotificationToken token = true) ∧
  (backchannelTokenDeliveryMode client = BackchannelTokenDeliveryModePoll →
    params' !! "client_notification_token" = None).
Proof.
  unfold validateClientNotificationToken. destruct (backchannelTokenDeliveryMode client); intros Hv.
  - injection Hv as <-. split_and!; try done.
    + intros k Hk. by rewrite lookup_delete_ne.
    + by intros k raw [_ ?]%lookup_delete_Some.
    + intros _. apply lookup_delete_eq.
  - apply bind_Ok in Hv as (raw & Hraw%some_or_invalid_Ok & Hv).
    apply bind_Ok in Hv as (token & Htoken%some_or_invalid_Ok & Hv).
    apply bind_Ok in Hv as ([] & Hok%guard_err_Ok & Hv). injection Hv as <-. split_and!; try done.
    intros _. exists token. split; [|done]. unfold jsonString. by rewrite Hraw.
Qed.

Lemma token_is_no_hint name : name ∈ hint_names → name ≠ "client_notification_token".
Proof. intros Hin ->. unfold hint_names in Hin. set_solver. Qed.

Lemma validateBackchannelParameters_Ok verified client validated :
  validateBackchannelAuthenticationParameters verified client = Ok validated →
  (∀ k, k ≠ "client_notification_token" → vb_params validated !! k = vb_params verified !! k) ∧
  (∀ k raw, vb_params validated !! k = Some raw → vb_params verified !! k = Some raw) ∧
  vb_tokenClaims validated = vb_tokenClaims verified ∧
  backchannel_wellformed client (vb_params validated).
Proof.
  unfold validateBackchannelAuthenticationParameters. cbv zeta. intros Hv.
  apply bind_Ok in Hv as (raw & Hraw%some_or_invalid_Ok & Hv).
  apply bind_Ok in Hv as (scope & Hscope%some_or_invalid_Ok & Hv).
  apply bind_Ok in Hv as ([] & _ & Hv). apply bind_Ok in Hv as ([] & Hallow%guard_err_Ok & Hv).
  apply bind_Ok in Hv as ([] & Hopenid%guard_err_Ok%bool_decide_eq_true & Hv).
  apply bind_Ok in Hv as ([] & Hhints & Hv). apply bind_Ok in Hv as (params & Hparams & Hv).
  apply bind_Ok in Hv as ([] & Hclaims%of_check_Ok & Hv).
  apply bind_Ok in Hv as (values & Hacr%of_check_Ok & Hv).
  apply bind_Ok in Hv as ([] & Hbind & Hv). injection Hv as <-.
  apply validateClientNotificationToken_Ok in Hparams as (Hsame & Hsub & Hping & Hpoll).
  apply validateBindingMessage_Ok in Hbind as [Hreq Hmsg].
  unfold validateBackchannelHints in Hhints. apply bind_Ok in Hhints as (n & Hn & Hone).
  apply guard_err_Ok, bool_decide_eq_true in Hone. subst n.
  apply count_hints_one in Hn as (name & hint & Hin & Hj & Hne & Hothers);
    [|by apply (bool_decide_unpack _)].
  split_and!; try done. split; simpl; try by eauto.
  - exists scope. split; [unfold jsonString; by rewrite Hsame, Hraw|]. split; [done|].
    unfold validateScope in Hallow. rewrite forallb_forall in Hallow.
    intros sc Hsc. by apply Hallow, list_elem_of_In.
  - exists name, hint. rewrite <-Hj. split_and!; try done.
    + by apply jsonString_ext, Hsame, token_is_no_hint.
    + intros other Hother Ho. rewrite Hsame; [by apply Hothers|by apply token_is_no_hint].
Qed.

(** * Where the parameters come from *)

(** The client signed them, for this server: a request object with a jti, an
    iat and an nbf, used once. [granted] is what may be asked for. *)
Definition signed_backchannel (client : RegisteredClient) (form : gmap string string)
    (sent : Params) (resources : list string) : Prop :=
  ∃ token alg obj pub now x verified x',
    form !! "request" = Some token ∧ token ≠ "" ∧
    BackchannelAuthenticationRequestAlgorithm client = (alg, true) ∧
    alg ∈ BackchannelAuthenticationRequestAlgorithms cfg ∧ Objects.Parse token = Some obj ∧
    client_key (client_id client) BackchannelAuthenticationRequestVerification alg
      (Objects.KeyID obj) pub ∧
    clock_reading now ∧
    Objects.Verify (backchannel_object_policy client alg now) obj pub x = (Ok verified, x') ∧
    sent = Objects.vo_Parameters verified ∧ resourcesFromParameters sent = Ok resources.

Lemma resolveBackchannel_Ok form client w verified w' :
  resolveBackchannelAuthenticationParameters form client w = (Ok verified, w') →
  ∃ sent, signed_backchannel client form sent (vb_resources verified) ∧
    map_Forall (λ _, raw_ok) (vb_params verified) ∧
    map_Forall (λ _, raw_ok) (vb_tokenClaims verified) ∧
    known_parameters coreBackchannelAuthenticationParameters (vb_params verified) ∧
    (∀ k, k ∈ coreBackchannelAuthenticationParameters → k ≠ authorizationDetailsParameter →
      vb_params verified !! k = sent !! k) ∧
    (∀ granted, vb_params verified !! authorizationDetailsParameter = Some granted →
      ∃ requested, sent !! authorizationDetailsParameter = Some requested ∧
        details_granted CIBARARPolicy client requested granted).
Proof.
  unfold resolveBackchannelAuthenticationParameters. intros Hrun.
  destruct (BackchannelAuthenticationRequestAlgorithm client) as [alg permitted] eqn:Halg.
  apply ebind_Ok in Hrun as ([] & w1 & Hp & Hrun). apply check_Ok in Hp as [-> ->].
  apply ebind_Ok in Hrun as ([] & w2 & Hping & Hrun). apply check_Ok in Hping as [_ ->].
  apply ebind_Ok in Hrun as ([] & w3 & Htok & Hrun).
  apply check_Ok in Htok as [Htok%negb_true_iff%bool_decide_eq_false ->].
  apply ebind_Ok in Hrun as ([] & w4 & Hserver & Hrun).
  apply check_Ok in Hserver as [Hserver%bool_decide_eq_true ->].
  apply ebind_Ok in Hrun as (object & w5 & Hv & Hrun).
  apply ebind_Ok in Hrun as ([] & w6 & Htypes & Hrun). apply lift_Ok in Htypes as [_ ->].
  apply ebind_Ok in Hrun as (res & w7 & Hres & Hrun). apply lift_Ok in Hres as [Hres ->].
  apply ebind_Ok in Hrun as ([p t] & w8 & Hext & Hrun). apply ret_Ok in Hrun as [-> _].
  destruct (form !! "request") as [token|] eqn:Hreq; [simpl in *|done].
  unfold verifiedBackchannelObject in Hv. destruct (Objects.Parse token) as [obj|] eqn:Hparse; [|done].
  apply ebind_Ok in Hv as (candidates & w9 & Hkeys & Hv).
  apply map_err_Ok, zoom_run in Hkeys as (x & Hkeys & _). apply resolveClientKeys_Ok in Hkeys as [_ Hkeys].
  apply ebind_Ok in Hv as (now & w10 & Hnow%Now_reading & Hv).
  apply map_err_Ok, zoom_run in Hv as (x' & Hv & _).
  apply verifyWithCandidates_Ok in Hv as (pub & x0 & Hpub & Hv).
  assert (Hpar : Objects.vo_Parameters object = Objects.c_Parameters (Objects.ob_claims obj))
    by (by apply Objects.Verify_Ok in Hv as (_ & _ & _ & _ & _ & ? & _)).
  apply checked_extensions_Ok in Hext as (? & ? & ? & ? & ?);
    [|by apply (bool_decide_unpack _)
     |rewrite Hpar; by eapply map_Forall_delete, Parse_parameters_raw].
  exists (Objects.vo_Parameters object). split_and!; try done.
  exists token, alg, obj, pub, now, x0, object, x'. split_and!; auto.
Qed.

(** ** The DPoP key *)

(** The request is bound to the key of the proof sent, or else to the one it
    declares. *)
Definition backchannel_bound (proof : string) (params : Params) (jkt : string) : Prop :=
  if bool_decide (proof = "") then jkt = default "" (jsonString params "dpop_jkt")
  else ∃ url now x verified x',
    clock_reading now ∧
    url ∈ [BackchannelAuthenticationEndpoint cfg; MTLSBackchannelAuthenticationEndpoint cfg] ∧
    Dpop.Verify (token_request_proof proof now url) x = (Ok verified, x') ∧
    jkt = vp_Thumbprint verified ∧
    (default "" (jsonString params "dpop_jkt") = "" ∨
     jsonString params "dpop_jkt" = Some jkt).

Lemma reconcileBackchannel_Ok proof params w jkt w' :
  reconcileBackchannelDPoPBinding proof params w = (Ok jkt, w') → backchannel_bound proof params jkt.
Proof.
  unfold reconcileBackchannelDPoPBinding, backchannel_bound. cbv zeta. case_bool_decide as Hp.
  { by intros [-> _]%ret_Ok. }
  intros Hrun. apply ebind_Ok in Hrun as (now & w1 & Hnow%Now_reading & Hrun).
  apply ebind_Ok in Hrun as (verified & w2 & Hv & Hrun).
  apply map_err_Ok, verifyDPoPAtEitherEndpoint_Ok in Hv as (url & x & x' & Hurl & Hv).
  apply ebind_Ok in Hrun as ([] & w3 & _ & Hrun). apply ebind_Ok in Hrun as ([] & w4 & Heq & Hrun).
  apply check_Ok in Heq as [Heq ->]. apply ret_Ok in Hrun as [-> _].
  exists url, now, x, verified, x'. split_and!; try done.
  apply orb_true_iff in Heq as [Heq%bool_decide_eq_true|Heq%bool_decide_eq_true]; [by left|].
  destruct (jsonString params "dpop_jkt") as [d|]; simpl in Heq; [right; congruence|by left].
Qed.

(** The request expires with the deployment's lifetime or earlier. *)
Lemma backchannelAuthenticationLifetime_bounds params :
  (0 < BackchannelAuthenticationRequestLifetime (cfg_Limits cfg))%Z →
  (0 < backchannelAuthenticationLifetime params ≤
   BackchannelAuthenticationRequestLifetime (cfg_Limits cfg))%Z.
Proof.
  intros Hpos. unfold backchannelAuthenticationLifetime.
  destruct (_ ≫= _) as [seconds|]; [|lia].
  case_bool_decide; simpl; [lia|]. case_bool_decide as Hle; [lia|]. unfold Second in *.
  pose proof (Z.mul_quot_le (BackchannelAuthenticationRequestLifetime (cfg_Limits cfg)) 1000000000).
  lia.
Qed.

(** * What is stored *)

(** What holds of the record of a request: [form] is what the client sent,
    [proof] its DPoP proof and [ik] its Client Instance Key. *)
Record backchannel_ok (client : RegisteredClient) (form : gmap string string) (proof ik : string)
    (r : requestRecord) : Prop := {
  bok_signed : ∃ sent requested, signed_backchannel client form sent requested ∧
    (∀ k, k ∈ coreBackchannelAuthenticationParameters →
      k ∉ [authorizationDetailsParameter; "client_notification_token"] →
      rq_Parameters r !! k = sent !! k) ∧
    (∀ granted, rq_Parameters r !! authorizationDetailsParameter = Some granted →
      ∃ asked, sent !! authorizationDetailsParameter = Some asked ∧
        details_granted CIBARARPolicy client asked granted) ∧
    (∀ x, x ∈ rq_Resources r → Check_resource x = true ∧ AllowsResource client x = true ∧
      (x ∈ requested ∨ requested = [] ∧ AllowedResources client = [x]));
  bok_wellformed : backchannel_wellformed client (rq_Parameters r);
  bok_known : known_parameters coreBackchannelAuthenticationParameters (rq_Parameters r);
  bok_values : request_claims_ok r;
  bok_bound : backchannel_bound proof (rq_Parameters r) (rq_DPoPJKT r);
  bok_acr : essentialACRValues (rq_Parameters r) = Ok (rq_EssentialACRValues r);
  bok_subject : ∃ sub, claimsSubValue (rq_Parameters r) = Ok sub ∧
    (sub = "" ∨ sub = rq_RequiredSubject r);
  bok_instance : rq_ClientInstanceKey r = ik;
  bok_expires : ∃ now, clock_reading now ∧
    rq_ExpiresAt r = Some (Add now (backchannelAuthenticationLifetime (rq_Parameters r))) }.

Lemma backchannel_request_Ok client form proof w validated required internal jkt w' :
  backchannel_request client form proof w = (Ok (validated, required, internal, jkt), w') →
  ∀ now ik, clock_reading now → backchannel_ok client form proof ik
    (backchannel_record (vb_params validated) (vb_tokenClaims validated) jkt
       (Some (Add now (backchannelAuthenticationLifetime (vb_params validated))))
       (or_zero [] (essentialACRValues (vb_params validated))) required internal
       (vb_resources validated) ik).
Proof.
  unfold backchannel_request. intros Hrun now ik Hnow.
  apply ebind_Ok in Hrun as (verified & w1 & Hres & Hrun).
  apply ebind_Ok in Hrun as (v2 & w2 & Hval & Hrun).
  apply ebind_Ok in Hrun as ([req int] & w3 & Hsub & Hrun).
  apply ebind_Ok in Hrun as (j & w4 & Hdpop & Hrun). apply ret_Ok in Hrun as [[= -> -> -> ->] _].
  apply resolveBackchannel_Ok in Hres as (sent & Hsigned & Hraw & Htok & Hknown & Hsame & Hdet).
  unfold validateBackchannelAuthenticationRequest in Hval.
  apply ebind_Ok in Hval as (v1 & w5 & Hv & Hval). apply lift_Ok in Hv as [Hv ->].
  apply ebind_Ok in Hval as (res & w6 & Hr & Hval). apply ret_Ok in Hval as [-> _].
  apply validateBackchannelParameters_Ok in Hv as (Hk & Hksub & Hclaims & Hwf).
  unfold backchannelSubjects in Hsub. apply ebind_Ok in Hsub as ([] & w7 & _ & Hsub).
  apply ebind_Ok in Hsub as (r' & w8 & Hrequired & Hsub). apply requiredSubject_Ok in Hrequired.
  apply ebind_Ok in Hsub as (i' & w9 & _ & Hsub). apply ret_Ok in Hsub as [[= -> ->] _].
  apply reconcileBackchannel_Ok in Hdpop. apply checkRequestedResources_Ok in Hr. simpl in *.
  destruct (bw_acr _ _ Hwf) as [values Hacr].
  split; simpl; try done.
  - exists sent, (vb_resources verified). split_and!; [done|..].
    + intros k Hin Hne. rewrite Hk by set_solver. apply Hsame; set_solver.
    + intros granted Hg. apply Hdet. by apply Hksub.
    + destruct Hr as [(-> & _)|(_ & _ & Hr)]; [by intros x ?%not_elem_of_nil|done].
  - intros k [raw Hin]. apply Hknown. exists raw. by apply Hksub.
  - split; simpl; [|by rewrite Hclaims]. intros k raw Hin. by eapply Hraw, Hksub.
  - by rewrite Hacr.
  - by exists now.
Qed.

(** The record written for a request, whose auth_req_id is [authReqID]. *)
Definition stored_backchannel (client : RegisteredClient) (record : requestRecord)
    (authReqID handle : string) (n : NewBackchannelAuthentication) : Prop :=
  ∃ request expiresAt, encodeRequestRecord (cfg_Issuer cfg) record = Some request ∧
    rq_ExpiresAt record = Some expiresAt ∧
    n = new_backchannel client authReqID handle record request expiresAt.

(** What the endpoint's request authenticates: its form, the client, its DPoP
    proof and Client Instance Key. *)
Definition authenticated_backchannel (req : TokenRequest) (w : World)
    : option (gmap string string * RegisteredClient * string * string) :=
  match (begin_authenticated req w).1 with
  | Ok (params, (client, proof, ik)) => Some (params, client, proof, ik)
  | Err _ => None
  end.

(** What is written for the authenticated client's request. *)
Definition backchannel_stored (client : RegisteredClient) (form : gmap string string)
    (proof ik : string) (before after : BackchannelT) : Prop :=
  ∃ record authReqID handle n answer, backchannel_ok client form proof ik record ∧
    stored_backchannel client record authReqID handle n ∧
    CreateBackchannelAuthentication n before = (answer, after).

Lemma begin_backchannel_writes client form proof ik :
  writes w_backchannel (backchannel_stored client form proof ik)
    (begin_backchannel client form proof ik).
Proof.
  unfold begin_backchannel.
  apply writes_after; [frame|intros [[[validated required] internal] jkt] ? ? Hreq].
  apply writes_after; [frame|intros interaction ? ? _]. apply writes_after; [frame|intros _ ? ? _].
  apply writes_after; [frame|intros authReqID ? ? _]. apply writes_after; [frame|intros handle ? ? _].
  apply writes_after; [frame|intros now ? ? Hnow%Now_reading]. cbv zeta.
  apply writes_before; [|intros ?; frame]. unfold store_backchannel.
  apply writes_after; [frame|intros request ? ? [Henc _]%some_or_server_Ok].
  apply writes_map_err. intros wa r wb Hrun. right. apply zoom_run in Hrun as (b & Hcreate & ->).
  eexists _, authReqID, handle, _, r. split; [by eapply backchannel_request_Ok|].
  split; [|exact Hcreate]. by eexists _, _.
Qed.

Lemma BeginBackchannel_writes req w r w' :
  BeginBackchannelAuthentication req w = (r, w') →
  same w_backchannel w w' ∨
  ∃ form client proof ik, authenticated_backchannel req w = Some (form, client, proof, ik) ∧
    backchannel_stored client form proof ik (w_backchannel w) (w_backchannel w').
Proof.
  unfold BeginBackchannelAuthentication, authenticated_backchannel, or_local at 1, try, ebind at 1.
  destruct (begin_authenticated req w) as [[[form [[client proof] ik]]|e] w1] eqn:Hauth; simpl;
    apply (respects_begin_authenticated (same w_backchannel)) in Hauth; unfold same in Hauth |- * at 1;
    rewrite <-Hauth.
  - intros Hrun. revert Hrun.
    match goal with |- ?m w1 = (r, w') → _ =>
      enough (Hw : writes w_backchannel (backchannel_stored client form proof ik) m) end.
    { intros [?|?]%Hw; [by left|right]. by exists form, client, proof, ik. }
    unfold or_local. apply writes_before; [apply writes_try, begin_backchannel_writes|].
    intros [a|e]; frame.
  - intros Hrun. left. revert Hrun. match goal with |- ?m w1 = _ → _ =>
      assert (Hm : respects (same w_backchannel) m) by frame end. intros Hrun. by apply Hm in Hrun.
Qed.

(** A request the endpoint answers with an auth_req_id. *)
Lemma begin_backchannel_Ok client form proof ik w handle authReqID expiresIn interval interaction w' :
  begin_backchannel client form proof ik w =
    (Ok (BackchannelInteractionRequired handle authReqID expiresIn interval interaction), w') →
  ∃ record n, backchannel_ok client form proof ik record ∧
    stored_backchannel client record authReqID handle n ∧
    CreateBackchannelAuthentication n (w_backchannel w) = (Ok tt, w_backchannel w') ∧
    expiresIn = backchannelAuthenticationLifetime (rq_Parameters record) ∧
    backchannelInteraction client (rq_Parameters record) (rq_Resources record)
      (requiredSubjectForApplication record) = Some interaction.
Proof.
  unfold begin_backchannel. intros Hrun.
  apply ebind_Ok in Hrun as ([[[validated required] internal] jkt] & w1 & Hreq & Hrun).
  pose proof (respects_backchannel_request (same w_backchannel) _ _ _ _ _ _ Hreq) as H1.
  apply ebind_Ok in Hrun as (shown & w2 & [Hshown ->]%some_or_server_Ok & Hrun).
  apply ebind_Ok in Hrun as ([] & w3 & H3%(respects_checkBackchannelHints (same w_backchannel)) & Hrun).
  apply ebind_Ok in Hrun as (a & w4 & H4%(respects_generateAuthReqID (same w_backchannel)) & Hrun).
  apply ebind_Ok in Hrun as (h & w5 & H5%(respects_generateHandle (same w_backchannel)) & Hrun).
  apply ebind_Ok in Hrun as (now & w6 & Hnow & Hrun). pose proof (Now_reading _ _ _ Hnow) as Hread.
  apply (respects_Now (same w_backchannel)) in Hnow. cbv zeta in Hrun.
  apply ebind_Ok in Hrun as ([] & w7 & Hstore & Hrun). apply ret_Ok in Hrun as [[= -> -> -> _ ->] ->].
  unfold store_backchannel in Hstore.
  apply ebind_Ok in Hstore as (request & w8 & [Henc ->]%some_or_server_Ok & Hstore).
  apply map_err_Ok, zoom_run in Hstore as (b & Hcreate & ->). unfold same in *.
  rewrite Hnow, H5, H4, H3, H1 in Hcreate.
  eexists _, _. split; [by eapply backchannel_request_Ok|]. split; [by eexists _, _|].
  split; [exact Hcreate|]. by split.
Qed.

(** C13. A backchannel authentication request is stored as it was checked. When
    the endpoint answers with an auth_req_id, the client was authenticated and
    exactly one record was written, to the backchannel store: the client's,
    under the digest of that auth_req_id, the client's instance and the DPoP
    key, and holding the request as [backchannel_ok] states: signed by a key
    of the client for this server and not seen before, for openid and scopes
    the client may use, with exactly one hint, an acceptable binding message,
    and authorization_details and resources no more than was asked for and
    may be used. The application is shown that request, and the user it
    requires. *)
Theorem backchannel_request_stored req w handle authReqID expiresIn interval interaction w' :
  BeginBackchannelAuthentication req w =
    (Ok (BackchannelInteractionRequired handle authReqID expiresIn interval interaction), w') →
  ∃ form client proof ik record n,
    authenticated_backchannel req w = Some (form, client, proof, ik) ∧
    backchannel_ok client form proof ik record ∧
    stored_backchannel client record authReqID handle n ∧
    CreateBackchannelAuthentication n (w_backchannel w) = (Ok tt, w_backchannel w') ∧
    same w_grants w w' ∧ same w_revocation w w' ∧ same w_transactions w w' ∧
    expiresIn = backchannelAuthenticationLifetime (rq_Parameters record) ∧
    backchannelInteraction client (rq_Parameters record) (rq_Resources record)
      (requiredSubjectForApplication record) = Some interaction.
Proof.
  intros Hrun.
  assert (Hg := respects_BeginBackchannelAuthentication (same w_grants) req
    (λ n, on_backchannel_other w_grants _ (λ b w, eq_refl)) _ _ _ Hrun).
  assert (Hv := respects_BeginBackchannelAuthentication (same w_revocation) req
    (λ n, on_backchannel_other w_revocation _ (λ b w, eq_refl)) _ _ _ Hrun).
  assert (Ht := respects_BeginBackchannelAuthentication (same w_transactions) req
    (λ n, on_backchannel_other w_transactions _ (λ b w, eq_refl)) _ _ _ Hrun).
  unfold BeginBackchannelAuthentication in Hrun. apply or_local_Ok in Hrun
    as [([form [[client proof] ik]] & w1 & Hauth & Hrun)|(e & w1 & _ & Hrun)]; [|by inv_eff].
  apply or_local_Ok in Hrun as [(action & w2 & Hbegin & Hrun)|(e & w2 & _ & Hrun)]; [|by inv_eff].
  apply ebind_Ok in Hrun as ([] & w3 & Haudit%(respects_audit (same w_backchannel)) & Hrun).
  apply ret_Ok in Hrun as [<- ->]. apply begin_backchannel_Ok in Hbegin
    as (record & n & Hok & Hstored & Hcreate & Hexp & Hshown).
  pose proof (respects_begin_authenticated (same w_backchannel) _ _ _ _ Hauth) as H1.
  unfold same in *. rewrite H1, <-Haudit in Hcreate.
  exists form, client, proof, ik, record, n. unfold authenticated_backchannel. rewrite Hauth.
  by split_and!.
Qed.
End request.
