(* ===== verification/InteractionTheorems.v ===== *)
(** Beginning and ending an interaction: how often a request_uri begins one,
    what it shows, and where the browser is sent afterwards. *)
From stdpp Require Import relations.
From S2P Require Import Prelude GoStrings Json GoTime Pkce Digests Platform JsonCodec.
From S2P Require Import Effects MemStore MemTheorems.
From S2P Require Import Storage ServerTypes Rar Nonce Records Claims Dpop Jose Canonical.

From S2P Require Import Extensions Attestation ClientAuth ClientAuthTheorems ServerState.
From S2P Require Import TokenChecks.
From S2P Require Import Issue HandlerLemmas.
From S2P Require Import CodeExchange Parameters ClaimsParameter Subjects Par.
From S2P Require Import Authorization Completion Frames FrontFrames PushTheorems.
From S2P Require Import CompletionTheorems.
From stdpp Require Import options.

Set Default Proof Using "Type*".

(** * At most eight interactions *)

Section slots.
#[local] Existing Instance Replays.replay_store.

Definition slot_digest (referenceKey : string) (slot : nat) : digest := Digest referenceKey (Itoa slot).

Lemma claim_slots_Ok {R} `{ReplayStore R} referenceKey expiresAt slots : ∀ (s s' : R) u,
  claim_slots referenceKey expiresAt slots s = (Ok u, s') →
  ∃ slot s1, slot ∈ slots ∧ UseOnce (slot_use referenceKey expiresAt slot) s1 = (Ok tt, s') ∧
    rtc (λ s s', ∃ u r, UseOnce u s = (r, s')) s s1.
Proof.
  induction slots as [|slot slots IH]; intros s s' u Hrun; [done|]. simpl in Hrun.
  apply ebind_Ok in Hrun as (r & s1 & Hr & Hrun). rewrite try_Ok in Hr. destruct r as [[]|err].
  - apply ret_Ok in Hrun as [_ ->]. exists slot, s. split; [by left|]. split; [done|]. reflexivity.
  - destruct (clientStoreUnavailable err); [done|].
    apply IH in Hrun as (slot' & s2 & Hin & Hu & Hsteps). exists slot', s2. split; [by right|].
    split; [done|]. eapply rtc_l; [|done]. eauto.
Qed.

(** Interactions begun for one request_uri, among other uses of the replay
    store: [begun n s s'] when [n] claims of a slot succeeded. *)
Inductive begun (referenceKey : string) : nat → Replays.ReplayStore → Replays.ReplayStore → Prop :=
| begun_none s : begun referenceKey 0 s s
| begun_other n s s1 s2 : begun referenceKey n s s1 → use_step s1 s2 → begun referenceKey n s s2
| begun_one n s s1 s2 expiresAt :
    begun referenceKey n s s1 →
    claim_slots referenceKey expiresAt (seq 0 maxInteractionsPerRequestURI) s1 = (Ok tt, s2) →
    begun referenceKey (S n) s s2.

#[local] Instance seen_dec s namespace d : Decision (seen s namespace d).
Proof. unfold seen. apply _. Defined.

(** The slots taken. *)
Definition taken (referenceKey : string) (s : Replays.ReplayStore) : list nat :=
  filter (λ slot, seen s interactionSlotReplayNamespace (slot_digest referenceKey slot))
    (seq 0 maxInteractionsPerRequestURI).

Lemma filter_grows {A} (P Q : A → Prop) `{∀ x, Decision (P x), ∀ x, Decision (Q x)} (l : list A) :
  (∀ x, P x → Q x) → length (filter P l) ≤ length (filter Q l) ∧
  ((∃ x, x ∈ l ∧ ¬ P x ∧ Q x) → length (filter P l) < length (filter Q l)).
Proof.
  intros HPQ. induction l as [|x l [IH1 IH2]]; [split; [done|by intros (y & ?%not_elem_of_nil & _)]|].
  rewrite !filter_cons. destruct (decide (P x)) as [HP|HP], (decide (Q x)) as [HQ|HQ]; simpl.
  - split; [lia|]. intros (y & [->|Hy]%elem_of_cons & Hn & Hq); [done|].
    apply -> Nat.succ_lt_mono. apply IH2. by exists y.
  - by apply HPQ in HP.
  - split; [lia|]. intros _. lia.
  - split; [done|]. intros (y & [->|Hy]%elem_of_cons & Hn & Hq); [done|]. apply IH2. by exists y.
Qed.

Lemma use_taken referenceKey u r s s' :
  Replays.UseOnce u s = (r, s') → length (taken referenceKey s) ≤ length (taken referenceKey s').
Proof.
  intros Hu. apply filter_grows. intros slot Hs. pose proof (UseOnce_spec u s) as Hspec.
  rewrite Hu in Hspec. by apply Hspec.
Qed.

Lemma claim_taken referenceKey expiresAt s s' :
  claim_slots referenceKey expiresAt (seq 0 maxInteractionsPerRequestURI) s = (Ok tt, s') →
  S (length (taken referenceKey s)) ≤ length (taken referenceKey s').
Proof.
  intros (slot & s1 & Hin & Hu & Hsteps)%claim_slots_Ok.
  trans (S (length (taken referenceKey s1))).
  { apply le_n_S. clear Hu. revert Hsteps. induction 1 as [|x y z (u & r & Hu) _ IH]; [done|].
    etrans; [by eapply use_taken|exact IH]. }
  pose proof (UseOnce_spec (slot_use referenceKey expiresAt slot) s1) as Hspec. simpl in Hu.
  rewrite Hu in Hspec.
  destruct Hspec as (Hold & _ & Hnew & _ & Hmono). specialize (Hnew eq_refl). simpl in *.
  apply filter_grows; [by intros ? ?%Hmono|]. exists slot. split; [done|]. split; [|done].
  intros Hseen%Hold. done.
Qed.

(** One request_uri begins at most eight interactions. With the in-memory
    replay store, whatever else it is asked to record in between, at most
    [maxInteractionsPerRequestURI] claims of a slot for one request_uri ever
    succeed. *)
Theorem interactions_bounded referenceKey n s s' :
  begun referenceKey n s s' → n ≤ maxInteractionsPerRequestURI.
Proof.
  intros Hb. assert (Hn : n ≤ length (taken referenceKey s')).
  { induction Hb as [s|n s s1 s2 _ IH (u & r & Hu)|n s s1 s2 expiresAt _ IH Hclaim]; [lia|..].
    - apply (use_taken referenceKey) in Hu. lia.
    - apply claim_taken in Hclaim. lia. }
  unfold taken in Hn. etrans; [exact Hn|]. etrans; [apply length_filter|]. by rewrite length_seq.
Qed.
End slots.

Section interactions.
Context `{FrontServer}.

(** * What an interaction shows *)

(** An interaction describes the client's own pushed request. When
    BeginAuthorization asks for an interaction, its request_uri names an
    unexpired request that the transaction store holds for that very client,
    which still resolves; the request is this server's record; and what is
    shown of it, its scope, prompt, max_age, requested claims,
    authorization_details and resources, is what the record says. *)
Theorem begin_shows_pushed_request req w handle interaction expiresAt w' :
  Server_BeginAuthorization req w = (Ok (InteractionRequired handle interaction expiresAt), w') →
  ∃ reference t pushed t' record now client,
    SplitRequestURI (bar_RequestURI req) = Some reference ∧
    BeginAuthorization {| bat_Reference := parReferenceKey (bar_ClientID req) reference;
      bat_Handle := interactionHandleKey handle; bat_HandleExpiresAt := expiresAt; bat_Now := now |} t =
      (Ok pushed, t') ∧
    pushed_ClientID pushed = bar_ClientID req ∧ clock_reading now ∧ (now < pushed_ExpiresAt pushed)%Z ∧
    expiresAt = Add now (InteractionLifetime (cfg_Limits cfg)) ∧
    resolves_client (bar_ClientID req) client ∧
    decodeOwnRequestRecord (cfg_Issuer cfg) (pushed_Request pushed) = Ok record ∧
    ∃ extensions, interaction = interactionRequestFrom (bar_ClientID req) (rq_Parameters record)
      (requiredSubjectForApplication record) (rq_Resources record) extensions.
Proof.
  intros Hrun. unfold Server_BeginAuthorization in Hrun.
  apply or_local_Ok in Hrun as [([[[handle' pushed] now] expires'] & w1 & Hopen & Hrun)|(e & w1 & _ & ?)];
    [|done].
  apply or_local_Ok in Hrun as [(shown & w2 & Hshow & Hrun)|(e & w2 & _ & ?)]; [|done].
  apply ebind_Ok in Hrun as ([] & w3 & _ & Hrun). apply ret_Ok in Hrun as [[= -> -> ->] _].
  unfold open_interaction in Hopen.
  apply ebind_Ok in Hopen as ([] & w4 & _ & Hopen).
  apply ebind_Ok in Hopen as (reference & w5 & Href & Hopen).
  apply lift_Ok in Href as [Href%some_or_invalid_Ok ->].
  apply ebind_Ok in Hopen as ([] & w6 & _ & Hopen).
  apply ebind_Ok in Hopen as (h & w7 & _ & Hopen).
  apply ebind_Ok in Hopen as (now0 & w8 & Hnow%Now_reading & Hopen). cbv zeta in Hopen.
  apply ebind_Ok in Hopen as ([] & w9 & _ & Hopen).
  apply ebind_Ok in Hopen as (pushed0 & w10 & Hbegin & Hopen).
  apply ebind_Ok in Hopen as ([] & w11 & Hid & Hopen). apply check_Ok in Hid as [Hid%bool_decide_eq_true ->].
  apply ret_Ok in Hopen as [[= -> -> -> ->] _].
  apply map_err_Ok, zoom_run in Hbegin as (t' & Hbegin & _).
  unfold describe_interaction in Hshow. apply ebind_Ok in Hshow as ([] & w12 & Hexp & Hshow).
  apply check_Ok in Hexp as [Hexp%bool_decide_eq_true ->].
  apply ebind_Ok in Hshow as (client & w13 & Hclient & Hshow).
  apply map_err_Ok, zoom_run in Hclient as (x & Hclient & _).
  destruct (decodeOwnRequestRecord _ _) as [record|] eqn:Hdec; [|done].
  destruct (interactionExtensions _ _ _) as [extensions|]; [|done]. apply ret_Ok in Hshow as [-> _].
  eexists reference, _, pushed0, t', record, now0, client. split_and!; try done.
  - by eexists _, _.
  - by exists extensions.
Qed.

(** * Where the browser goes *)

(** A redirect of an authorization: to [uri] with [response] added to its
    query, through the parser that refuses a destination it may not have. *)
Definition redirects_to (uri : string) (response : gmap string string) (destination : ParsedURL) : Prop :=
  ∃ base, url_parse uri = Some base ∧
    ParseRedirectURL (url_string (with_query (Append (url_RawQuery base) (encode_map response)) base))
      native_options = Some destination.

(** What a response carries: the parameters with a value and the issuer, or
    these signed. *)
Definition response_of (params response : gmap string string) : Prop :=
  if bool_decide (cfg_Profile cfg = ProfileFAPISecurityWithMessageSigning)
  then ∃ clientID now signer x jwt x' claims, clock_reading now ∧
    jarm_claims clientID now (marshal_string <$> present_values params) = Some claims ∧
    jarm_Sign signer claims x = (Ok jwt, x') ∧ response = {["response" := jwt]}
  else response = <["iss" := cfg_Issuer cfg]> (present_values params).

Lemma buildAuthorizationResponse_Ok clientID uri params w destination w' :
  buildAuthorizationResponse clientID uri params w = (Ok destination, w') →
  ∃ response, response_of params response ∧ redirects_to uri response destination.
Proof.
  unfold buildAuthorizationResponse, response_of, redirects_to.
  destruct (url_parse uri) as [base|]; [|done]. intros Hrun.
  apply ebind_Ok in Hrun as (response & w1 & Hr & Hrun).
  destruct (ParseRedirectURL _ _) as [d|] eqn:Hd; [|done]. apply ret_Ok in Hrun as [-> _].
  exists response. split; [|by exists base]. unfold authorization_response in Hr. case_bool_decide.
  - apply ebind_Ok in Hr as (jwt & w2 & Hs & Hr). apply ret_Ok in Hr as [-> _].
    apply map_err_Ok in Hs. unfold signJARMResponse in Hs.
    apply ebind_Ok in Hs as (signer & w3 & _ & Hs).
    apply ebind_Ok in Hs as (now & w4 & Hnow%Now_reading & Hs).
    destruct (jarm_claims _ _ _) as [claims|] eqn:Hc; [|done]. apply zoom_run in Hs as (x & Hs & _).
    by eexists clientID, now, signer, _, jwt, x, claims.
  - by apply ret_Ok in Hr as [-> _].
Qed.

(** A response is a code or an error, with the request's state. *)
Definition response_params (result : option InteractionResult) (state : string)
    (params : gmap string string) : Prop :=
  params !! "state" = Some state ∧
  ((∃ code subject auth grant, params !! "code" = Some code ∧ params !! "error" = None ∧
      result = Some (authorizeResult subject auth grant)) ∨
   (∃ error, params !! "code" = None ∧ params !! "error" = Some error)).

Definition redirected (result : option InteractionResult) (uri state : string)
    (destination : ParsedURL) : Prop :=
  ∃ params response, response_params result state params ∧ response_of params response ∧
    redirects_to uri response destination.

Lemma completeErrorRedirect_Ok result clientID uri state error desc w done' w' :
  completeErrorRedirect clientID uri state error desc w = (Ok done', w') →
  redirected result uri state (cn_destination done').
Proof.
  unfold completeErrorRedirect. intros Hrun. apply ebind_Ok in Hrun as (d & w1 & Hb & Hrun).
  apply ret_Ok in Hrun as [-> _]. apply buildAuthorizationResponse_Ok in Hb as (response & Hr & Hto).
  eexists _, response. split_and!; [|exact Hr|exact Hto].
  unfold response_params. destruct (IsErrorText desc); simplify_map_eq; split; try done; right;
    by exists error.
Qed.

Lemma completeAuthorize_Ok clientID request uri state subject auth grant w done' w' :
  completeAuthorize clientID request uri state subject auth grant w = (Ok done', w') →
  redirected (Some (authorizeResult subject auth grant)) uri state (cn_destination done').
Proof.
  unfold completeAuthorize. intros Hrun.
  apply ebind_Ok in Hrun as ([clientSub sector] & w1 & _ & Hrun).
  apply ebind_Ok in Hrun as (problem & w2 & _ & Hrun). case_bool_decide; simpl in Hrun;
    [|by eapply completeErrorRedirect_Ok].
  apply ebind_Ok in Hrun as (approved & w3 & _ & Hrun).
  apply ebind_Ok in Hrun as (code & w4 & _ & Hrun).
  apply ebind_Ok in Hrun as (d & w5 & Hb & Hrun). apply ret_Ok in Hrun as [-> _].
  apply buildAuthorizationResponse_Ok in Hb as (response & Hr & Hto).
  eexists _, response. split_and!; [|exact Hr|exact Hto].
  split; [by simplify_map_eq|]. left. exists code, subject, auth, grant. by simplify_map_eq.
Qed.

(** C14. The browser is sent only where the client said. When CompleteAuthorization
    answers with a redirect, it goes to the redirect_uri of the pushed request
    the transaction store just completed, which is still registered for that
    client, with the query extended by the response: the issuer and the
    request's state with either a code, for a user's authorization, or an
    error (under message signing these signed); and the destination passed
    the redirect URI parser. *)
Theorem redirect_only_to_registered req w destination w' :
  Server_CompleteAuthorization req w = (Ok (AuthorizationRedirect destination), w') →
  ∃ completed t request uri state client,
    CompleteAuthorization {| cat_Handle := interactionHandleKey (car_Handle req) |}
      (w_transactions w) = (Ok completed, t) ∧
    decodeOwnRequestRecord (cfg_Issuer cfg) (ci_Request completed) = Ok request ∧
    jsonString (rq_Parameters request) "redirect_uri" = Some uri ∧
    optionalJSONString (rq_Parameters request) "state" = Some state ∧
    resolves_client (ci_ClientID completed) client ∧ HasRedirectURI client uri = true ∧
    redirected (car_Result req) uri state destination.
Proof.
  unfold Server_CompleteAuthorization. intros Hrun.
  apply or_local_Ok in Hrun as [(completed & w1 & Hc & Hrun)|(e & w1 & _ & ?)]; [|done].
  apply or_local_Ok in Hrun as [(done' & w2 & Hcomplete & Hrun)|(e & w2 & _ & ?)]; [|done].
  apply ebind_Ok in Hrun as ([] & w3 & _ & Hrun). apply ret_Ok in Hrun as [[= ->] _].
  apply map_err_Ok, zoom_run in Hc as (t & Hc & _). unfold complete in Hcomplete.
  apply ebind_Ok in Hcomplete as (now & w4 & _ & Hcomplete).
  apply ebind_Ok in Hcomplete as ([] & w5 & _ & Hcomplete).
  destruct (decodeOwnRequestRecord _ _) as [request|] eqn:Hdec; [|done].
  apply ebind_Ok in Hcomplete as (uri & w6 & [Huri ->]%some_or_server_Ok & Hcomplete).
  apply ebind_Ok in Hcomplete as (state & w7 & [Hstate ->]%some_or_server_Ok & Hcomplete).
  assert (Hreg : ∃ w8, checkRedirectURIStillRegistered (ci_ClientID completed) uri w5 = (Ok tt, w8) ∧
    redirected (car_Result req) uri state (cn_destination done')).
  { destruct (car_Result req) as [[]|]; try done;
      apply ebind_Ok in Hcomplete as ([] & w8 & Hreg & Hcomplete); exists w8; (split; [done|]).
    - by eapply completeAuthorize_Ok.
    - by eapply completeErrorRedirect_Ok.
    - by eapply completeErrorRedirect_Ok.
    - case_bool_decide; [done|]. by eapply completeErrorRedirect_Ok.
    - done. }
  destruct Hreg as (w8 & Hreg & Hred).
  unfold checkRedirectURIStillRegistered in Hreg. apply ebind_Ok in Hreg as (client & w10 & Hclient & Hreg).
  apply check_Ok in Hreg as [Hreg _]. apply map_err_Ok, zoom_run in Hclient as (x & Hclient & _).
  exists completed, t, request, uri, state, client. split_and!; try done. by eexists _, _.
Qed.
End interactions.
