(* ===== verification/Provenance.v ===== *)
(** Where a store's records come from: an authorization code redeemed is one
    that was created, and an interaction completed is of a request that was
    pushed. The interfaces' documentation promises both
    (src/storage/grant.go, src/storage/transaction.go); memstore's stores keep
    the promise. *)
From S2P Require Import Prelude Json GoTime Effects Storage MemStore MemTheorems.
From stdpp Require Import options.

(** * Grants *)

Class GrantProvenance (G : Type) `{GrantStore G} := {
  (** The codes held, by digest. *)
  code_record : G → digest → NewAuthorizationCode → Prop;
  no_new_code := λ s s' : G, ∀ h c, code_record s' h c → code_record s h c;
  create_code_record c s r s' :
    CreateAuthorizationCode c s = (r, s') →
    ∀ h c', code_record s' h c' → code_record s h c' ∨ h = nac_CodeHash c ∧ c' = c;
  redeem_code_no_new c : respects no_new_code (RedeemAuthorizationCode c);
  record_access_no_new h k t : respects no_new_code (RecordIssuedAccessToken h k t);
  record_refresh_no_new h r t : respects no_new_code (RecordIssuedRefreshToken h r t);
  create_refresh_no_new t : respects no_new_code (CreateRefreshToken t);
  redeem_refresh_no_new t : respects no_new_code (RedeemRefreshToken t);
  revoke_refresh_no_new h : respects no_new_code (RevokeRefreshToken h);
  record_tokens_no_new f h k t r t' :
    RecordIssuedTokens = Some f → respects no_new_code (f h k t r t');
  (** What is redeemed was created, under the digest presented. *)
  redeem_code_record red s r s' :
    RedeemAuthorizationCode red s = (Ok r, s') →
    ∃ c, code_record s (acr_CodeHash red) c ∧ rac_ClientID r = nac_ClientID c ∧ rac_Grant r = nac_Grant c ∧
      rac_ExpiresAt r = nac_ExpiresAt c }.

#[export] Instance no_new_code_preorder `{GrantProvenance G} : PreOrder no_new_code.
Proof. split; [by intros s h c|]. intros s1 s2 s3 H12 H23 h c Hc. by apply H12, H23. Qed.

(** * Transactions *)

Class TransactionProvenance (T : Type) `{TransactionStore T} := {
  (** The store holds a client's pushed request, or an interaction of it. *)
  push_record : T → ClientID → RawMessage → Prop;
  no_new_push := λ s s' : T, ∀ c raw, push_record s' c raw → push_record s c raw;
  create_par_record p s r s' :
    CreatePAR p s = (r, s') → ∀ c raw, push_record s' c raw →
    push_record s c raw ∨ c = par_ClientID p ∧ raw = par_Request p;
  begin_no_new b : respects no_new_push (BeginAuthorization b);
  complete_no_new c : respects no_new_push (CompleteAuthorization c);
  begin_record b s r s' :
    BeginAuthorization b s = (Ok r, s') → push_record s (pushed_ClientID r) (pushed_Request r);
  complete_record c s r s' :
    CompleteAuthorization c s = (Ok r, s') → push_record s (ci_ClientID r) (ci_Request r) }.

#[export] Instance no_new_push_preorder `{TransactionProvenance T} : PreOrder no_new_push.
Proof. split; [by intros s c raw|]. intros s1 s2 s3 H12 H23 c raw Hc. by apply H12, H23. Qed.

(** * Backchannel authentication requests *)

(** A CIBA request held, and its decision: a status other than pending, with
    the grant. *)
Record BackchannelRequest := {
  br_AuthReqIDHash : digest;
  br_ClientID : ClientID;
  br_Request : RawMessage }.

Definition BackchannelDecision : Type := BackchannelAuthenticationStatus * RawMessage.

Definition request_of (n : NewBackchannelAuthentication) : BackchannelRequest := {|
  br_AuthReqIDHash := nba_AuthReqIDHash n; br_ClientID := nba_ClientID n;
  br_Request := nba_Request n |}.

(** What a poll reports of a decision, none being pending. *)
Definition reported (d : option BackchannelDecision) (p : PolledBackchannelAuthentication) : Prop :=
  match d with
  | None => plb_Status p = BackchannelAuthenticationPending
  | Some (status, grant) => plb_Status p = status ∧ plb_Grant p = grant
  end.

Class BackchannelProvenance (B : Type) `{BackchannelAuthenticationStore B} := {
  bc_wf : B → Prop;
  bc_record : B → BackchannelRequest → option BackchannelDecision → Prop;
  no_new_bc := λ s s' : B,
    bc_wf s → bc_wf s' ∧ ∀ n d, bc_record s' n d → bc_record s n d;
  create_bc n s r s' :
    CreateBackchannelAuthentication n s = (r, s') → bc_wf s →
    bc_wf s' ∧ ∀ m d, bc_record s' m d → bc_record s m d ∨ m = request_of n ∧ d = None;
  lookup_bc_same h s r s' : LookupBackchannelAuthentication h s = (r, s') → s' = s;
  (** A request decided was pending, and is the one the handle looks up. *)
  decide_bc d s r s' :
    DecideBackchannel d s = (r, s') → bc_wf s →
    bc_wf s' ∧ ∀ n d', bc_record s' n d' →
      bc_record s n d' ∨
      d' = Some (dba_Status d, dba_Grant d) ∧ bc_record s n None ∧
      LookupBackchannelAuthentication (dba_HandleHash d) s =
        (Ok {| lba_ClientID := br_ClientID n; lba_Request := br_Request n |}, s);
  poll_bc p : respects no_new_bc (PollBackchannel p);
  poll_bc_record p s r s' :
    PollBackchannel p s = (Ok r, s') →
    ∃ n d, bc_record s n d ∧ br_AuthReqIDHash n = pba_AuthReqIDHash p ∧
      br_ClientID n = plb_ClientID r ∧ br_Request n = plb_Request r ∧ reported d r }.

#[export] Instance no_new_bc_preorder `{BackchannelProvenance B} : PreOrder no_new_bc.
Proof.
  split; [by intros s Hwf|]. intros s1 s2 s3 H12 H23 Hwf. destruct (H12 Hwf) as [Hwf2 Hsub].
  destruct (H23 Hwf2) as [Hwf3 Hsub']. auto.
Qed.

(** * In memory *)

Section grants.
Import Grants.

#[export] Instance grant_provenance : GrantProvenance GrantStore.
Proof.
  refine {| code_record := λ s h c, codes s !! h = Some c |}; unfold respects; simpl.
  - intros c s r s' [= <- <-] h c'. simpl. intros [[<- <-]|[_ ?]]%lookup_insert_Some; auto.
  - intros c s r s' Hr h c'. unfold RedeemAuthorizationCode in Hr.
    repeat case_match; by simplify_eq/=.
  - intros h k t s r s' [= <- <-]. done.
  - intros h k t s r s' [= <- <-]. done.
  - intros t s r s' [= <- <-]. done.
  - intros t s r s' Hr. unfold RedeemRefreshToken in Hr. repeat case_match; by simplify_eq/=.
  - intros h s r s' [= <- <-]. done.
  - done.
  - intros red s r s' Hr. unfold RedeemAuthorizationCode in Hr. repeat case_match; simplify_eq/=.
    by eexists.
Defined.
End grants.

Section transactions.
Import Transactions.

(** By reference, and in the interactions begun. *)
Definition holds_push (s : TransactionStore) (client : ClientID) (raw : RawMessage) : Prop :=
  (∃ ref p, byReference s !! ref = Some p ∧ par_ClientID p = client ∧ par_Request p = raw) ∨
  (∃ h i, byHandle s !! h = Some i ∧ ci_ClientID (interaction i) = client ∧
     ci_Request (interaction i) = raw).

#[export] Instance transaction_provenance : TransactionProvenance TransactionStore.
Proof.
  refine {| push_record := holds_push |}; unfold respects, holds_push; simpl.
  - intros p s r s' [= <- <-] c raw [(ref & p' & Hp & <- & <-)|?]; [|by left; right].
    simpl in Hp. apply lookup_insert_Some in Hp as [[_ <-]|[_ ?]]; [by right|left; left; eauto].
  - intros b s r s' Hr c raw. unfold BeginAuthorization in Hr.
    repeat case_match; simplify_eq/=; try done.
    intros [?|(h & i & Hi & <- & <-)]; [by left|].
    simpl in Hi. apply lookup_insert_Some in Hi as [[_ <-]|[_ ?]]; [left|right; eauto]. simpl. eauto.
  - intros b s r s' Hr c raw. unfold CompleteAuthorization in Hr. repeat case_match; by simplify_eq/=.
  - intros b s r s' Hr. unfold BeginAuthorization in Hr. repeat case_match; simplify_eq/=. left. eauto.
  - intros b s r s' Hr. unfold CompleteAuthorization in Hr. repeat case_match; simplify_eq/=.
    right. eauto.
Defined.
End transactions.

Section backchannel.
Import Backchannel.

Definition decision_of (rec : backchannelRecord) (d : option BackchannelDecision) : Prop :=
  match d with
  | None => status rec = BackchannelAuthenticationPending
  | Some (st, g) => st ≠ BackchannelAuthenticationPending ∧ status rec = st ∧ grant rec = g
  end.

(** By the digest of its auth_req_id. *)
Definition holds_request (s : BackchannelAuthenticationStore) (n : BackchannelRequest)
    (d : option BackchannelDecision) : Prop :=
  ∃ l rec, byAuthReqIDHash s !! br_AuthReqIDHash n = Some l ∧ heap s !! l = Some rec ∧
    clientID rec = br_ClientID n ∧ request rec = br_Request n ∧ decision_of rec d.

(** No digest is of a request yet to come. *)
Definition indexed (s : BackchannelAuthenticationStore) : Prop :=
  ∀ h l, byAuthReqIDHash s !! h = Some l → l < next s.

(** A record changed as [upd] keeps its request. *)
Lemma holds_request_set s l rec rec' n d :
  heap s !! l = Some rec → clientID rec' = clientID rec → request rec' = request rec →
  holds_request (set_record l rec' s) n d →
  holds_request s n d ∨
  clientID rec = br_ClientID n ∧ request rec = br_Request n ∧ decision_of rec' d ∧
  ∀ d0, decision_of rec d0 → holds_request s n d0.
Proof.
  intros Hl Hc Hq (k & r & Hk & Hr & Hrc & Hrq & Hd). simpl in Hk, Hr.
  apply lookup_insert_Some in Hr as [[<- <-]|[_ Hr]].
  - right. split_and!; [congruence..|done|]. intros d0 Hd0. exists l, rec. split_and!; congruence.
  - left. by exists k, r.
Qed.

#[export] Instance backchannel_provenance : BackchannelProvenance BackchannelAuthenticationStore.
Proof.
  refine {| bc_wf := indexed; bc_record := holds_request |}; unfold respects; simpl.
  - intros n s r s' [= <- <-] Hwf. split.
    + intros h l. simpl. intros [[_ <-]|[_ Hl]]%lookup_insert_Some; [lia|]. apply Hwf in Hl. lia.
    + intros [mh mc mq] d (l & rec & Hl & Hrec & Hc & Hq & Hd). simpl in *.
      apply lookup_insert_Some in Hl as [[<- <-]|[Hne Hl]].
      * rewrite lookup_insert_eq in Hrec. injection Hrec as <-. right. simpl in Hc, Hq, Hd.
        unfold request_of. split; [by rewrite Hc, Hq|]. destruct d as [[st g]|]; [|done].
        by destruct Hd as (? & <- & _).
      * pose proof (Hwf _ _ Hl). rewrite lookup_insert_ne in Hrec by lia. left. by exists l, rec.
  - intros h s r s'. unfold LookupBackchannelAuthentication. repeat case_match; congruence.
  - intros d s r s' Hr Hwf. unfold DecideBackchannelAuthentication in Hr.
    destruct (deref _ s) as [[l rec]|] eqn:Hl; [|injection Hr as <- <-; eauto].
    case_bool_decide as Hp; simpl in Hr; injection Hr as <- <-; [|eauto].
    split; [done|]. intros n d' Hn. pose proof (deref_Some _ _ _ _ Hl) as [_ Hrec].
    apply (holds_request_set _ _ _ _ _ _ Hrec) in Hn as [?|(Hc & Hq & Hd & Hold)]; [by left| |done..].
    destruct d' as [[st g]|]; [|left; by apply Hold].
    right. destruct Hd as (_ & <- & <-). split; [done|]. split; [by apply Hold|].
    unfold LookupBackchannelAuthentication. by rewrite Hl, Hc, Hq.
  - intros p s r s' Hr Hwf. unfold PollBackchannelAuthentication in Hr.
    destruct (deref _ s) as [[l rec]|] eqn:Hl; [|injection Hr as <- <-; eauto].
    apply deref_Some in Hl as [_ Hrec].
    repeat (match type of Hr with context [if ?b then _ else _] => destruct b end);
      injection Hr as <- <-; try by eauto.
    all: split; [done|]; intros n d Hn;
      apply (holds_request_set _ _ _ _ _ _ Hrec) in Hn as [?|(_ & _ & Hd & Hold)]; [done| |done..];
      by apply Hold.
  - intros p s r s' Hr. unfold PollBackchannelAuthentication in Hr.
    destruct (deref _ s) as [[l rec]|] eqn:Hl; [|done]. apply deref_Some in Hl as [Hl Hrec].
    repeat (match type of Hr with context [if ?b then _ else _] => destruct b end); try done.
    injection Hr as <- _. simpl.
    destruct (decide (status rec = BackchannelAuthenticationPending)) as [Hp|Hp].
    + exists {| br_AuthReqIDHash := pba_AuthReqIDHash p; br_ClientID := clientID rec;
        br_Request := request rec |}, None. split_and!; try done. by exists l, rec.
    + exists {| br_AuthReqIDHash := pba_AuthReqIDHash p; br_ClientID := clientID rec;
        br_Request := request rec |}, (Some (status rec, grant rec)). split_and!; try done.
      by exists l, rec.
Defined.
End backchannel.
