(* ===== verification/CibaDecisionTheorems.v ===== *)
(** Deciding a backchannel authentication request: it is approved only for a
    user the application authenticated, with a grant within the request. *)
From S2P Require Import Prelude GoStrings Json GoTime Sha256 Pkce Platform JsonCodec.
From S2P Require Import Digests.
From S2P Require Import Effects Storage ServerTypes Rar Nonce Records Claims Dpop.
From S2P Require Import Canonical.
From S2P Require Import Jose Extensions RequestObject Attestation ClientAuth.
From S2P Require Import ClientAuthTheorems ServerState.
From S2P Require Import TokenChecks Issue TokenChecksTheorems.
From S2P Require Import BackchannelToken.
From S2P Require Import Parameters ClaimsParameter Subjects Par HandlerLemmas.
From S2P Require Import Authorization.
From S2P Require Import Completion Ciba Frames FrontFrames PushTheorems.
From S2P Require Import CompletionTheorems Provenance.
From stdpp Require Import options.

Set Default Proof Using "Type*".

Section decision.
Context `{CibaServer} `{!BackchannelProvenance BackchannelT}.

(** * The grant *)

(** The user's authentication is past, and meets the acr and the user the
    request required. *)
Record backchannel_meets (request : requestRecord) (auth : AuthenticationContext)
    (clientSub : string) : Prop := {
  bm_time : ∃ now, clock_reading now ∧ IsZero (ac_authTime auth) = false ∧
    (ac_authTime auth ≤ now + MaxClockSkew (cfg_Limits cfg))%Z;
  bm_acr : rq_EssentialACRValues request = [] ∨ ac_acr auth ∈ rq_EssentialACRValues request;
  bm_subject : rq_RequiredSubject request = "" ∨ rq_RequiredSubject request = clientSub }.

(** The grant an approval stores: a user's authentication and approval that
    meet the request, bound to the request's DPoP key. *)
Record backchannel_granted (clientID : ClientID) (request : requestRecord)
    (subject : AuthenticatedSubject) (auth : AuthenticationContext) (grant : GrantedAuthorization)
    (g : grantRecord) : Prop := {
  bg_kind : g_Kind g = grantKindBackchannel;
  bg_dpop_jkt : g_DPoPJKT g = rq_DPoPJKT request;
  bg_token_claims : g_TokenClaims g = rq_TokenClaims request;
  bg_subject : subject ≠ "" ∧ g_Subject g = subject;
  bg_approval : ∃ approved, within_request request grant approved ∧
    g_Scope g = ga_Scope grant ∧ g_AuthorizationDetails g = ag_authorizationDetails approved ∧
    g_Resources g = ag_resources approved ∧
    g_RequestedIDTokenClaims g = ag_idTokenClaims approved ∧
    g_RequestedUserinfoClaims g = ag_userinfoClaims approved;
  bg_openid : "openid" ∈ fields (default "" (jsonString (rq_Parameters request) "scope")) →
    "openid" ∈ g_Scope g;
  bg_authentication : ∃ clientSub sector, client_sees clientID subject clientSub sector ∧
    backchannel_meets request auth clientSub ∧
    g_ClientSubject g = distinctClientSubject clientSub subject ∧ g_PairwiseSector g = sector ∧
    g_AuthTime g = ac_authTime auth ∧ g_ACR g = ac_acr auth ∧ g_AMR g = ac_amr auth;
  bg_issued_at : ∃ now, clock_reading now ∧ g_IssuedAt g = Some now;
  bg_values : map_Forall (λ _, raw_ok) (rq_TokenClaims request) → grant_claims_ok g }.

Lemma containsScope_spec scopes sc : containsScope scopes sc = true ↔ sc ∈ scopes.
Proof.
  unfold containsScope. rewrite existsb_exists. setoid_rewrite bool_decide_eq_true.
  setoid_rewrite <-list_elem_of_In. naive_solver.
Qed.

(** The approval of a CIBA request passes the checks of an approval at the
    authorization endpoint, in another order, and keeps openid. *)
Lemma backchannel_approved_checks request grant approved :
  backchannel_approved request grant = Ok approved →
  checkApprovedGrant request grant = Ok approved ∧
  ("openid" ∈ fields (default "" (jsonString (rq_Parameters request) "scope")) →
   "openid" ∈ ga_Scope grant).
Proof.
  unfold backchannel_approved, checkApprovedGrant. cbv zeta. intros Ha.
  apply bind_Ok in Ha as ([] & Hscope & Ha). rewrite Hscope.
  apply bind_Ok in Ha as ([] & Hopenid%guard_err_Ok & Ha).
  apply bind_Ok in Ha as (resources & Hres & Ha). rewrite Hres.
  apply bind_Ok in Ha as ([] & Hclaims & Ha). rewrite Hclaims.
  apply bind_Ok in Ha as ([] & Hid & Ha). rewrite Hid.
  apply bind_Ok in Ha as (details & Hdetails & Ha).
  assert (some_or_invalid "granted authorization_details exceeds what was requested"
    (validateGrantedAuthorizationDetails
       (default RawNil (rq_Parameters request !! authorizationDetailsParameter))
       (ga_AuthorizationDetails grant)) = Ok details) as ->.
  { case_bool_decide as Hnil; [|done]. rewrite Hnil. by injection Hdetails as <-. }
  split; [exact Ha|]. rewrite <-!containsScope_spec. intros Hin. by rewrite Hin in Hopenid.
Qed.

(** * The decision *)

(** What a result of the application decides: approval only as the user
    authorized it, and no other decision carries a grant. *)
Definition decision_ok (clientID : ClientID) (request : requestRecord)
    (result : option InteractionResult) (d : DecideBackchannelAuthentication) : Prop :=
  (dba_Status d = BackchannelAuthenticationApproved ∧ ∃ subject auth grant g,
     result = Some (authorizeResult subject auth grant) ∧
     backchannel_granted clientID request subject auth grant g ∧
     encodeGrantRecord (cfg_Issuer cfg) g = Some (dba_Grant d)) ∨
  ((dba_Status d = BackchannelAuthenticationDenied ∨
    dba_Status d = BackchannelAuthenticationAuthenticationFailed) ∧ dba_Grant d = RawNil).

Lemma authTimeProblem_Ok auth now skew :
  authTimeProblem auth now skew = "" →
  IsZero (ac_authTime auth) = false ∧ (ac_authTime auth ≤ now + skew)%Z.
Proof.
  unfold authTimeProblem. destruct (IsZero _); [done|]. destruct (After _ _) eqn:Ha; [done|].
  apply bool_decide_eq_false in Ha. unfold Add in Ha. split; [done|lia].
Qed.

Lemma approve_Ok h clientID request subject auth grant w d w' :
  approveBackchannelAuthentication h clientID request subject auth grant w = (Ok d, w') →
  dba_HandleHash d = h ∧
  decision_ok clientID request (Some (authorizeResult subject auth grant)) d.
Proof.
  unfold approveBackchannelAuthentication. intros Hrun.
  apply ebind_Ok in Hrun as ([] & w1 & Hs & Hrun).
  apply or_fail_Ok, check_Ok in Hs as [Hs%negb_true_iff%bool_decide_eq_false ->].
  apply ebind_Ok in Hrun as (now & w2 & Hnow%Now_reading & Hrun). cbv zeta in Hrun.
  apply ebind_Ok in Hrun as ([] & w3 & Hp & Hrun).
  apply or_fail_Ok, check_Ok in Hp as [Hp%bool_decide_eq_true%authTimeProblem_Ok ->].
  apply ebind_Ok in Hrun as ([clientSub sector] & w4 & Hsub & Hrun). apply or_fail_Ok in Hsub.
  destruct (meetsEssentialACR _ _) eqn:Hacr; simpl in Hrun;
    [|apply ret_Ok in Hrun as [-> _]; split; [done|right; by split; [right|]]].
  destruct (meetsRequiredSubject _ _) eqn:Hreq; simpl in Hrun;
    [|apply ret_Ok in Hrun as [-> _]; split; [done|right; by split; [right|]]].
  apply ebind_Ok in Hrun as (approved & w5 & Ha & Hrun). apply or_fail_Ok, lift_Ok in Ha as [Ha ->].
  apply ebind_Ok in Hrun as (decidedAt & w6 & Hdec%Now_reading & Hrun).
  apply ebind_Ok in Hrun as (encoded & w7 & Henc & Hrun).
  apply or_fail_Ok, some_or_server_Ok in Henc as [Henc ->]. apply ret_Ok in Hrun as [-> _].
  split; [done|]. left. split; [done|]. exists subject, auth, grant. eexists.
  split; [done|]. split; [|exact Henc].
  apply backchannel_approved_checks in Ha as [Ha Hopenid].
  apply checkApprovedGrant_Ok in Ha as (Hwithin & Hid & Hv1 & Hv2).
  split; simpl; try done.
  - by exists approved.
  - exists clientSub, sector. split_and!; try done.
    + unfold subjectAtClient in Hsub. apply ebind_Ok in Hsub as (client & w8 & Hclient & Hsub).
      apply map_err_Ok, zoom_run in Hclient as (x & Hclient & _).
      eexists client, w8, _. split; [by eexists _, _|exact Hsub].
    + split; [by exists now|..].
      * unfold meetsEssentialACR in Hacr.
        by apply orb_true_iff in Hacr as [?%bool_decide_eq_true|?%bool_decide_eq_true]; [left|right].
      * unfold meetsRequiredSubject in Hreq.
        apply orb_true_iff in Hreq as [?%bool_decide_eq_true|?%bool_decide_eq_true]; [by left|by right].
  - by exists decidedAt.
Qed.

Lemma backchannel_decision_Ok h clientID request result w d w' :
  backchannel_decision h clientID request result w = (Ok d, w') →
  dba_HandleHash d = h ∧ decision_ok clientID request result d.
Proof.
  unfold backchannel_decision.
  destruct result as [[subject auth grant|reason|reason|reason|need reason]|]; intros Hrun.
  - by eapply approve_Ok.
  - apply ret_Ok in Hrun as [-> _]. split; [done|right; by split; [left|]].
  - apply ret_Ok in Hrun as [-> _]. split; [done|right; by split; [left|]].
  - apply ret_Ok in Hrun as [-> _]. split; [done|right; by split; [right|]].
  - by apply or_fail_Ok in Hrun.
  - by apply or_fail_Ok in Hrun.
Qed.

(** * What completing writes *)

(** The pending request under the handle, unexpired, is decided as its
    result says. *)
Definition decision_made (h : digest) (result : option InteractionResult)
    (before after : BackchannelT) : Prop :=
  ∃ pending request d answer,
    LookupBackchannelAuthentication h before = (Ok pending, before) ∧
    decodeOwnRequestRecord (cfg_Issuer cfg) (lba_Request pending) = Ok request ∧
    (∀ e, rq_ExpiresAt request = Some e → ∃ now, clock_reading now ∧ (now < e)%Z) ∧
    dba_HandleHash d = h ∧ decision_ok (lba_ClientID pending) request result d ∧
    DecideBackchannel d before = (answer, after).

Lemma lookup_same h {E} (f : store_error → E) :
  respects (same w_backchannel) (map_err f (on_backchannel (LookupBackchannelAuthentication h))).
Proof.
  apply (respects_map_err _), respects_zoom. intros w r b Hr. apply lookup_bc_same in Hr as ->.
  by destruct w.
Qed.

Lemma respects_pending_same h : respects (same w_backchannel) (pending_backchannel h).
Proof.
  unfold pending_backchannel.
  apply (respects_bind _); [apply (respects_or_fail _), lookup_same|intros pending]. frame.
Qed.

Lemma pending_backchannel_Ok h w clientID request w' :
  pending_backchannel h w = (Ok (clientID, request), w') →
  same w_backchannel w w' ∧ ∃ pending,
    LookupBackchannelAuthentication h (w_backchannel w) = (Ok pending, w_backchannel w) ∧
    lba_ClientID pending = clientID ∧
    decodeOwnRequestRecord (cfg_Issuer cfg) (lba_Request pending) = Ok request ∧
    ∀ e, rq_ExpiresAt request = Some e → ∃ now, clock_reading now ∧ (now < e)%Z.
Proof.
  intros Hrun. split; [by apply respects_pending_same in Hrun|].
  unfold pending_backchannel in Hrun.
  apply ebind_Ok in Hrun as (pending & w1 & Hl & Hrun). apply or_fail_Ok, map_err_Ok, zoom_run in Hl
    as (b & Hl & ->). pose proof (lookup_bc_same _ _ _ _ Hl) as ->.
  apply ebind_Ok in Hrun as (r & w2 & Hdec & Hrun).
  apply or_fail_Ok, map_err_Ok, lift_Ok in Hdec as [Hdec ->].
  apply ebind_Ok in Hrun as ([] & w3 & Hexp & Hrun). apply ret_Ok in Hrun as [[= -> ->] _].
  exists pending. split_and!; try done. intros e He. rewrite He in Hexp.
  apply ebind_Ok in Hexp as (now & w4 & Hnow%Now_reading & Hexp).
  apply or_fail_Ok, check_Ok in Hexp as [Hlt%bool_decide_eq_true _]. by exists now.
Qed.

(** The decision and what follows, of a pending request. *)
Lemma decide_writes h pending request result :
  decodeOwnRequestRecord (cfg_Issuer cfg) (lba_Request pending) = Ok request →
  (∀ e, rq_ExpiresAt request = Some e → ∃ now, clock_reading now ∧ (now < e)%Z) →
  writes w_backchannel (λ before after,
      LookupBackchannelAuthentication h before = (Ok pending, before) →
      decision_made h result before after)
    (let* decision := backchannel_decision h (lba_ClientID pending) request result in
     let* decided := or_fail AuditEventCompleteBackchannelAuthentication ""
       (map_err (λ _, invalidBackchannelHandle) (on_backchannel (DecideBackchannel decision))) in
     do* notifyBackchannelPing decided in
     audit AuditEventCompleteBackchannelAuthentication (dcd_ClientID decided) AuditOutcomeSuccess "").
Proof.
  intros Hdec Hexp.
  apply writes_after; [frame|intros d ? ? [Hh Hok]%backchannel_decision_Ok].
  apply writes_before; [|intros ?; frame]. apply (writes_or_fail _ _), writes_map_err.
  intros wa ra wb Hrun. right. intros Hl. apply zoom_run in Hrun as (b & Hrun & ->).
  by exists pending, request, d, ra.
Qed.

Lemma CompleteBackchannel_writes req w r w' :
  CompleteBackchannelAuthentication req w = (r, w') →
  same w_backchannel w w' ∨
  decision_made (backchannelHandleHash (cbr_Handle req)) (cbr_Result req)
    (w_backchannel w) (w_backchannel w').
Proof.
  unfold CompleteBackchannelAuthentication. set (h := backchannelHandleHash (cbr_Handle req)).
  match goal with |- ?m w = (r, w') → _ =>
    enough (Hw : writes w_backchannel (decision_made h (cbr_Result req)) m); [apply Hw|] end.
  apply writes_after; [frame|intros _ ? ? _]. intros wa ra wb Hrun. unfold ebind at 1 in Hrun.
  destruct (pending_backchannel h wa) as [[[clientID request]|e] w1] eqn:Hp.
  - apply pending_backchannel_Ok in Hp as (Hs & pending & Hl & <- & Hdec & Hexp).
    unfold same in Hs |- * at 1. rewrite <-Hs in Hl |- *.
    destruct (decide_writes h pending request (cbr_Result req) Hdec Hexp _ _ _ Hrun);
      [by left|right; auto].
  - injection Hrun as <- <-. left. by apply respects_pending_same in Hp.
Qed.
End decision.
