(* ===== verification/ExchangeTheorems.v ===== *)
(** The authorization code exchange: what a success means, that it happens
    once, and what a reuse of the code does. *)
From stdpp Require Import relations.
From S2P Require Import Prelude GoStrings Json GoTime Sha256 Pkce Platform JsonCodec.
From S2P Require Import Digests Effects Storage ServerTypes Rar Nonce Records Claims Dpop.
From S2P Require Import Jose Canonical Extensions Attestation ClientAuth ServerState.
From S2P Require Import TokenChecks Issue TokenChecksTheorems.
From S2P Require Import CodeExchange Refresh BackchannelToken Frames.
From S2P Require Import HandlerLemmas.
From stdpp Require Import options.

Set Default Proof Using "Type*".

Section exchange.
Context {S : Server} `{!GrantStoreLaws GrantsT, !RevocationLaws RevocationT}.

(** * What a success means *)

(** The conditions under which a redeemed code may be exchanged as it was
    presented; [grant] is its record with the code grant ID. *)
Definition code_redeemable (client : RegisteredClient) (redeemed : RedeemedAuthorizationCode)
    (codeHash : digest) (presented : codeExchange) (now : Time) (grant : grantRecord) : Prop :=
  (∃ stored, decodeOwnGrantRecord (cfg_Issuer cfg) (rac_Grant redeemed) = Ok stored ∧
    isKind stored grantKindAuthorizationCode = true ∧
    grant = match grantRevocationReader with
            | Some _ => with_code_grant_id (CodeGrantID codeHash) stored
            | None => stored
            end) ∧
  rac_ClientID redeemed = client_id client ∧
  (now < rac_ExpiresAt redeemed)%Z ∧
  issuedWithin (g_IssuedAt grant) (AuthorizationCodeLifetime (cfg_Limits cfg)) now = true ∧
  g_RedirectURI grant = ce_redirectURI presented ∧
  HasRedirectURI client (ce_redirectURI presented) = true ∧
  AllowsAuthorizationCodeGrant client = true ∧
  Challenge (ce_codeVerifier presented) S256 = Ok (g_CodeChallenge grant) ∧
  (g_DPoPJKT grant = "" ∨ g_DPoPJKT grant = ce_thumbprint presented) ∧
  g_ClientInstanceKey grant = ce_instanceKey presented.

Lemma redeemedCodeGrant_Ok client redeemed codeHash presented now w grant w' :
  redeemedCodeGrant client redeemed codeHash presented now w = (Ok grant, w') →
  code_redeemable client redeemed codeHash presented now grant ∧
  (∀ k, k ∈ revocation_keys grant → ¬ revoked (w_revocation w) k) ∧ stores_same w w'.
Proof.
  unfold redeemedCodeGrant. intros Hrun.
  destruct (decodeOwnGrantRecord _ _) as [stored|] eqn:Hd; [|done].
  apply ebind_Ok in Hrun as ([] & w1 & Hkind & Hrun). apply lift_Ok in Hkind as [Hkind ->].
  set (grant' := match grantRevocationReader with Some _ => _ | None => _ end) in Hrun.
  apply ebind_Ok in Hrun as ([] & w2 & Hwithin & Hrun).
  apply ebind_Ok in Hrun as ([] & w3 & Hval & Hrun).
  apply ebind_Ok in Hrun as ([] & w4 & Hik & Hrun).
  apply ebind_Ok in Hrun as ([] & w5 & Hnr & Hrun).
  apply ebind_Ok in Hrun as ([] & w6 & Hac & Hrun).
  apply ebind_Ok in Hrun as ([] & w7 & Huri & Hrun).
  unfold checkCodeInstance in Hik. inv_srv. apply checkGrantNotRevoked_Ok in Hnr as [Hnr Hsame].
  split; [|done]. unfold validateRedeemedAuthorizationCode in Hval.
  apply bind_Ok in Hval as ([] & Hexp & Hval). apply bind_Ok in Hval as ([] & Hcl & Hval).
  apply bind_Ok in Hval as ([] & Hru & Hval). apply bind_Ok in Hval as ([] & Hjkt & Hval).
  destruct (Pkce.Verify _ _ _) as [[]|] eqn:Hpkce; [|done]. unfold Pkce.Verify in Hpkce.
  apply bind_Ok in Hpkce as (ch & Hch & Hpkce). inv_srv.
  unfold code_redeemable. split_and!; try done; [by exists stored|..].
  - by apply bool_decide_eq_true in Hexp.
  - by rewrite Hch, Hpkce.
  - apply orb_true_iff in Hjkt as [?%bool_decide_eq_true|?%bool_decide_eq_true]; auto.
Qed.

Lemma redeem_code_Ok client codeHash w redeemed w' :
  redeem_code client codeHash w = (Ok redeemed, w') →
  ∃ g, RedeemAuthorizationCode {| acr_CodeHash := codeHash; acr_ClientID := client_id client |}
    (w_grants w) = (Ok redeemed, g) ∧ w' = set_grants g w.
Proof.
  unfold redeem_code. intros Hrun. apply ebind_Ok in Hrun as (r & w1 & Hr & Hrun).
  apply try_Ok, zoom_run in Hr as (g & Hr & ->). destruct r as [red|err].
  - unfold ret in Hrun. simplify_eq. eauto.
  - apply ebind_Ok in Hrun as ([] & w2 & _ & Hrun).
    + by apply ebind_Ok in Hrun as ([] & w3 & _ & Hrun).
    + by apply or_fail_Ok in Hrun.
Qed.

(** What the exchange issued: an access token from [params], and the other
    tokens only with the scope that asks for them. *)
Definition issued_with (params : AccessTokenParams) (scope : list string) (result : TokenResult)
    : Prop :=
  (∃ w w' key, issueAccessToken params w = (Ok (AccessToken result, key), w')) ∧
  (is_Some (IDToken result) ↔ containsScope scope "openid" = true) ∧
  (is_Some (RefreshToken result) ↔ containsScope scope "offline_access" = true).

Lemma issueOptionalIDToken_Ok client grant token result w result' w' :
  issueOptionalIDToken client grant token result w = (Ok result', w') →
  (containsScope (g_Scope grant) "openid" = false ∧ result' = result) ∨
  (containsScope (g_Scope grant) "openid" = true ∧ ∃ t, result' = set_IDToken t result).
Proof.
  unfold issueOptionalIDToken. destruct (containsScope _ _); simpl; intros Hrun; inv_srv; eauto.
Qed.

Lemma issueOptionalRefreshToken_Ok client grant binding h now result w result' w' :
  issueOptionalRefreshToken client grant binding h now result w = (Ok result', w') →
  (containsScope (g_Scope grant) "offline_access" = false ∧ result' = result) ∨
  (containsScope (g_Scope grant) "offline_access" = true ∧ ∃ t, result' = set_RefreshToken t result).
Proof.
  unfold issueOptionalRefreshToken. destruct (containsScope _ _); simpl; intros Hrun; inv_srv; eauto.
Qed.

Lemma issueCodeExchangeTokens_Ok client grant params binding h result w result' w' :
  issueCodeExchangeTokens client grant params binding h result w = (Ok result', w') →
  IDToken result = None → RefreshToken result = None →
  issued_with params (g_Scope grant) result' ∧
  Scope result' = Scope result ∧ AuthorizationDetails result' = AuthorizationDetails result ∧
  TokenType result' = TokenType result.
Proof.
  intros Hrun Hid Hrt.
  assert (Hsep : ∀ e, issue_separately client grant params binding h e result w = (Ok result', w') →
    issued_with params (g_Scope grant) result' ∧ Scope result' = Scope result ∧
    AuthorizationDetails result' = AuthorizationDetails result ∧ TokenType result' = TokenType result).
  { clear Hrun. intros e Hrun. unfold issue_separately in Hrun.
    apply ebind_Ok in Hrun as ([token key] & w1 & Hiss & Hrun).
    apply ebind_Ok in Hrun as (? & w2 & _ & Hrun). apply ebind_Ok in Hrun as (r1 & w3 & Hopt & Hrun).
    apply issueOptionalIDToken_Ok in Hopt. apply issueOptionalRefreshToken_Ok in Hrun.
    destruct Hopt as [[Hs1 ->]|[Hs1 [t1 ->]]], Hrun as [[Hs2 ->]|[Hs2 [t2 ->]]]; unfold issued_with;
      simpl; rewrite Hs1, Hs2, ?Hid, ?Hrt; split_and!; eauto 6; split; intros; try done; by destruct H. }
  unfold issueCodeExchangeTokens in Hrun.
  destruct RecordIssuedTokens as [record|]; [|by eapply Hsep].
  destruct (bool_decide (g_CodeGrantID grant = "") || _) eqn:Hb; [by eapply Hsep|].
  apply orb_false_iff in Hb as [_ Hs2%negb_false_iff].
  apply ebind_Ok in Hrun as (rt & w1 & _ & Hrun). apply ebind_Ok in Hrun as ([token key] & w2 & Hiss & Hrun).
  apply ebind_Ok in Hrun as (? & w3 & _ & Hrun). apply issueOptionalIDToken_Ok in Hrun.
  destruct Hrun as [[Hs1 ->]|[Hs1 [t1 ->]]]; unfold issued_with; simpl; rewrite Hs1, Hs2, ?Hid;
    split_and!; eauto 6; split; intros; try done; by destruct H.
Qed.
(** The parameters a request's code is exchanged with. *)
Definition exchange_presented (params : gmap string string) (thumbprint ik : string)
    : codeExchange := {|
  ce_redirectURI := param params "redirect_uri"; ce_thumbprint := thumbprint;
  ce_codeVerifier := param params "code_verifier"; ce_instanceKey := ik |}.

(** The client an exchange request authenticates, with its Client Instance
    Key. *)
Definition exchange_request (req : TokenRequest) (w : World)
    : option (gmap string string * RegisteredClient * string) :=
  match formParametersToMap (takeResourceParameters (Parameters req)).1 with
  | None => None
  | Some params =>
    match (authenticateRequest params (credentials req) [] [] w).1 with
    | Ok (client, _, ik) => Some (params, client, ik)
    | Err _ => None
    end
  end.

(** The digest of the code it presents. *)
Definition presented_code (params : gmap string string) (ik : string) : digest :=
  authorizationCodeHash (param params "code") ik.

Lemma ExchangeAuthorizationCode_Ok req w result w' :
  ExchangeAuthorizationCode req w = (Ok result, w') →
  ∃ params client ik details thumbprint w1,
    exchange_request req w = Some (params, client, ik) ∧ stores_same w w1 ∧
    presented_binding (credentials req) client thumbprint ∧
    tokenRequestAuthorizationDetails params = Ok details ∧
    exchange_code client ik (param params "code") (param params "redirect_uri")
      (param params "code_verifier") details (takeResourceParameters (Parameters req)).2
      thumbprint w1 = (Ok result, w').
Proof.
  unfold ExchangeAuthorizationCode, exchange_request. destruct takeResourceParameters as [form res].
  intros Hrun. apply ebind_Ok in Hrun as (params & w1 & Hp & Hrun).
  apply or_fail_Ok, parseForm_Ok in Hp as [Hp ->].
  apply ebind_Ok in Hrun as ([] & w1 & Hg & Hrun). apply or_fail_Ok, check_Ok in Hg as [_ ->].
  apply ebind_Ok in Hrun as ([[client proof] ik] & w1 & Ha & Hrun). apply or_fail_Ok in Ha.
  apply ebind_Ok in Hrun as ([[[code uri] verifier] details] & w2 & Hc & Hrun).
  apply or_fail_Ok, lift_Ok in Hc as [Hc ->].
  apply ebind_Ok in Hrun as (thumbprint & w2 & Hb & Hrun). apply or_fail_Ok in Hb.
  apply attachNextDPoPNonceOnFailure_Ok in Hrun.
  destruct (authenticated_binding _ _ _ _ _ _ _ _ _ _ _ Ha Hb) as [Hsame Hbound].
  unfold codeExchangeParameters in Hc.
  apply bind_Ok in Hc as ([] & _ & Hc). apply bind_Ok in Hc as ([] & _ & Hc).
  apply bind_Ok in Hc as ([] & _ & Hc). apply bind_Ok in Hc as (d & Hd & Hc). injection Hc as <- <- <- <-.
  exists params, client, ik, d, thumbprint, w2. simpl. rewrite Hp, Ha. done.
Qed.

(** What follows a successful exchange, from the redemption to the tokens. *)
Lemma exchange_code_Ok client ik code uri verifier details resources thumbprint w result w' :
  exchange_code client ik code uri verifier details resources thumbprint w = (Ok result, w') →
  ∃ redeemed g now grant accessGrant audience claims w1 w2,
    RedeemAuthorizationCode {| acr_CodeHash := authorizationCodeHash code ik;
      acr_ClientID := client_id client |} (w_grants w) = (Ok redeemed, g) ∧
    code_redeemable client redeemed (authorizationCodeHash code ik)
      {| ce_redirectURI := uri; ce_thumbprint := thumbprint; ce_codeVerifier := verifier;
         ce_instanceKey := ik |} now grant ∧
    clock_reading now ∧
    (∀ k, k ∈ revocation_keys grant → ¬ revoked (w_revocation w) k) ∧
    checkGrantStillAllowed client grant (g_Scope grant) = Ok tt ∧
    accessTokenGrant grant details = Ok accessGrant ∧
    narrowedAudience client (g_Resources grant) resources w1 = (Ok audience, w2) ∧
    accessTokenClaims accessGrant = Some claims ∧
    issued_with (access_token_params client grant (g_Scope grant) thumbprint claims audience now)
      (g_Scope grant) result ∧
    Scope result = join " " (g_Scope grant) ∧
    AuthorizationDetails result = g_AuthorizationDetails accessGrant ∧
    TokenType result = tokenTypeFor (senderConstrain client).
Proof.
  unfold exchange_code. intros Hrun.
  apply ebind_Ok in Hrun as (redeemed & w1 & Hr & Hrun).
  apply redeem_code_Ok in Hr as (g & Hr & ->).
  apply ebind_Ok in Hrun as (now & w2 & Hnow & Hrun). pose proof (Now_reading _ _ _ Hnow) as Hread.
  apply Now_same in Hnow as (_ & Hrev & _).
  apply ebind_Ok in Hrun as (grant & w3 & Hg & Hrun).
  apply or_fail_Ok, redeemedCodeGrant_Ok in Hg as (Hok & Hnr & _). rewrite Hrev in Hnr.
  apply ebind_Ok in Hrun as ([accessGrant audience] & w4 & Ha & Hrun).
  apply or_fail_Ok, allowedGrantAudience_Ok in Ha as (Hallow & Hag & Haud).
  apply ebind_Ok in Hrun as (claims & w5 & Hcl & Hrun). apply or_fail_Ok, lift_Ok in Hcl as [Hcl ->].
  unfold encode_claims in Hcl. destruct (accessTokenClaims accessGrant) as [c|] eqn:Hc; [|done].
  injection Hcl as <-.
  apply ebind_Ok in Hrun as (result1 & w6 & Hi & Hrun). apply or_fail_Ok in Hi.
  apply issueCodeExchangeTokens_Ok in Hi as (Hi & Hs & Hd & Ht); [|done..].
  apply ebind_Ok in Hrun as (result2 & w7 & Hn & Hrun). apply or_fail_Ok in Hn.
  apply ebind_Ok in Hrun as ([] & w8 & _ & Hrun). injection Hrun as <- <-.
  unfold addNextDPoPNonce in Hn. apply ebind_Ok in Hn as (n & w9 & _ & Hn). injection Hn as <- <-.
  exists redeemed, g, now, grant, accessGrant, audience, c, w3, w4. simpl.
  by split_and!.
Qed.

(** C6. An authorization code is exchanged only as it was granted. When the
    exchange returns tokens, the store redeemed the code for the
    authenticated client, and its record is this server's, a code's and
    unexpired by the server's clock, for the request's redirect_uri (still registered), the PKCE
    challenge of the presented code_verifier, the presented DPoP key when it
    was bound to one, and the presenting client instance; no revocation key
    of the grant is revoked, and every scope granted is one the client may
    still use, and the one the response states. *)
Theorem exchange_authorized req w result w' :
  ExchangeAuthorizationCode req w = (Ok result, w') →
  ∃ params client ik thumbprint redeemed g now grant,
    exchange_request req w = Some (params, client, ik) ∧
    presented_binding (credentials req) client thumbprint ∧
    RedeemAuthorizationCode {| acr_CodeHash := presented_code params ik;
      acr_ClientID := client_id client |} (w_grants w) = (Ok redeemed, g) ∧
    code_redeemable client redeemed (presented_code params ik)
      (exchange_presented params thumbprint ik) now grant ∧
    clock_reading now ∧
    (∀ k, k ∈ revocation_keys grant → ¬ revoked (w_revocation w) k) ∧
    (∀ sc, sc ∈ g_Scope grant → clientAllowsScope client sc = true) ∧
    Scope result = join " " (g_Scope grant).
Proof.
  intros Hrun. apply ExchangeAuthorizationCode_Ok in Hrun
    as (params & client & ik & details & thumbprint & w1 & Hreq & (Hg & Hv & _) & Hbound & _ & Hrun).
  apply exchange_code_Ok in Hrun as (redeemed & g & now & grant & accessGrant & audience & claims &
    wa & wb & Hr & Hok & Hread & Hnr & Hallow & _ & _ & _ & _ & Hs & _).
  rewrite Hg in Hr. rewrite Hv in Hnr. apply checkGrantStillAllowed_Ok in Hallow as (_ & Hsc & _).
  by exists params, client, ik, thumbprint, redeemed, g, now, grant.
Qed.


(** * Once only *)

Lemma exchange_code_redeems client ik code uri verifier details resources thumbprint w result w' :
  exchange_code client ik code uri verifier details resources thumbprint w = (Ok result, w') →
  ¬ code_redeemed (w_grants w) (authorizationCodeHash code ik) ∧
  code_redeemed (w_grants w') (authorizationCodeHash code ik).
Proof.
  intros Hrun. unfold exchange_code in Hrun.
  apply ebind_Ok in Hrun as (redeemed & w1 & Hr & Hrun).
  apply redeem_code_Ok in Hr as (g & Hr & ->). apply redeem_code_once in Hr as [Hn Hr]. split; [done|].
  assert (Hle : stores_le (set_grants g w) w').
  { match type of Hrun with ?m _ = _ => assert (Hm : respects stores_le m) end.
    { frame. }
    exact (Hm _ _ _ Hrun). }
  by apply Hle.
Qed.

(** C7. An authorization code yields tokens once. After an exchange returned
    tokens for a code, whatever calls of the token endpoint, RevokeGrant and
    other writers of the stores follow in any order, no exchange presenting
    that code from that client instance, by any client, returns tokens. *)
Theorem code_exchanged_once req req' w result w1 w2 params client ik params' client' ik' :
  ExchangeAuthorizationCode req w = (Ok result, w1) →
  exchange_request req w = Some (params, client, ik) →
  rtc server_step w1 w2 →
  exchange_request req' w2 = Some (params', client', ik') →
  presented_code params' ik' = presented_code params ik →
  ∃ e, (ExchangeAuthorizationCode req' w2).1 = Err e.
Proof.
  intros Hrun Hreq Hsteps Hreq' Hcode.
  apply ExchangeAuthorizationCode_Ok in Hrun
    as (p & c & i & details & thumbprint & w1' & Hreq1 & _ & _ & _ & Hrun).
  rewrite Hreq in Hreq1. injection Hreq1 as <- <- <-.
  apply exchange_code_redeems in Hrun as [_ Hr].
  apply server_steps_le in Hsteps as [[Hle _] _]. apply Hle in Hr.
  destruct (ExchangeAuthorizationCode req' w2) as [[result'|e] w3] eqn:Hrun'; [exfalso|by exists e].
  apply ExchangeAuthorizationCode_Ok in Hrun'
    as (p & c & i & details' & thumbprint' & w2' & Hreq2 & (Hsame & _) & _ & _ & Hrun').
  rewrite Hreq' in Hreq2. injection Hreq2 as <- <- <-.
  apply exchange_code_redeems in Hrun' as [Hn _]. rewrite Hsame in Hn. apply Hn.
  change (code_redeemed (w_grants w2) (presented_code params' ik')). by rewrite Hcode.
Qed.
(** * A code presented again *)

(** The client presenting a code is not the one it was issued to, and the
    store says so. *)
Definition stolen_code (client : RegisteredClient) (h : digest) (w : World) : Prop :=
  client_id client ≠ "" ∧
  (∃ k, code_client (w_grants w) h = Some k ∧ client_id client ≠ k) ∧
  (∀ a g, RedeemAuthorizationCode {| acr_CodeHash := h; acr_ClientID := client_id client |}
    (w_grants w) = (Err (CodeAlreadyRedeemed a), g) → arr_ClientID a ≠ "").

Lemma stolen_code_redemption client h w :
  stolen_code client h w →
  (∃ e, (redeem_code client h w).1 = Err e) ∧ keeps_stores (redeem_code client h) w.
Proof.
  intros (Hne & (k & Hk & Hck) & Hnamed).
  destruct (redeem_code_other_client {| acr_CodeHash := h; acr_ClientID := client_id client |}
    (w_grants w) k Hk Hne Hck) as (e & Hr & Ha). split.
  - destruct (redeem_code client h w) as [[r|e'] w'] eqn:Hrun; [|by exists e'].
    apply redeem_code_Ok in Hrun as (g & Hrun & _). by rewrite Hr in Hrun.
  - apply keeps_stores_bind.
    { unfold keeps_stores, try, on_grants, zoom. rewrite Hr. by split_and!. }
    intros r w1 Htry Hw1. apply try_Ok, zoom_run in Htry as (g & Hr' & ->).
    rewrite Hr in Hr'. injection Hr' as <- <-.
    assert (Hrevoke : ∃ b, revokeTokensForReusedCode e (client_id client) h = ret b).
    { unfold revokeTokensForReusedCode. destruct e; try (eexists; reflexivity).
      specialize (Hnamed _ _ Hr). destruct (Ha _ eq_refl) as [Hak|]; [|done].
      rewrite Hak in *. rewrite !bool_decide_false by congruence. by eexists. }
    destruct Hrevoke as [b ->]. apply keeps_stores_respects. frame.
Qed.

(** A leaked authorization code is useless to another client. When a
    client presents a code issued to another one, whatever else it presents,
    it gets no tokens, and the grant store, the revocation store and the CIBA
    store are left exactly as they were: the code is not spent, and nothing
    issued from it is revoked. *)
Theorem stolen_code_harmless req w params client ik r w' :
  exchange_request req w = Some (params, client, ik) →
  stolen_code client (presented_code params ik) w →
  ExchangeAuthorizationCode req w = (r, w') →
  (∃ e, r = Err e) ∧ stores_same w w'.
Proof.
  intros Hreq Hstolen Hrun.
  assert (Hmoved : ∀ w1, stores_same w w1 → stolen_code client (presented_code params ik) w1).
  { intros w1 (Hg & _). unfold stolen_code. by rewrite Hg. }
  split.
  - destruct r as [result|e]; [exfalso|by exists e].
    apply ExchangeAuthorizationCode_Ok in Hrun
      as (p & c & i & details & thumbprint & w1 & Hreq1 & Hs & _ & _ & Hrun).
    rewrite Hreq in Hreq1. injection Hreq1 as <- <- <-.
    unfold exchange_code in Hrun. apply ebind_Ok in Hrun as (redeemed & w2 & Hr & _).
    destruct (stolen_code_redemption _ _ _ (Hmoved _ Hs)) as [[e He] _].
    unfold presented_code in He. by rewrite Hr in He.
  - change (stores_same w ((r, w').2)). rewrite <-Hrun. clear Hrun.
    change (keeps_stores (ExchangeAuthorizationCode req) w).
    unfold exchange_request in Hreq. unfold ExchangeAuthorizationCode.
    destruct takeResourceParameters as [form res]. simpl in Hreq.
    apply keeps_stores_bind; [apply keeps_stores_respects; frame|]. intros p w1 Hp Hw1.
    apply or_fail_Ok, parseForm_Ok in Hp as [Hp ->]. rewrite Hp in Hreq.
    apply keeps_stores_bind; [apply keeps_stores_respects; frame|]. intros [] w1 Hg _.
    apply or_fail_Ok, check_Ok in Hg as [_ ->].
    apply keeps_stores_bind; [apply keeps_stores_respects; frame|]. intros [[c proof] i] w1 Ha Hw2.
    apply or_fail_Ok in Ha. rewrite Ha in Hreq. simpl in Hreq. injection Hreq as -> -> ->.
    apply keeps_stores_bind; [apply keeps_stores_respects; frame|].
    intros [[[code uri] verifier] details] w2 Hc Hw3. apply or_fail_Ok, lift_Ok in Hc as [Hc ->].
    apply keeps_stores_bind; [apply keeps_stores_respects; frame|]. intros thumbprint w3 _ Hw4.
    apply keeps_stores_bind; [|intros x w4 _ _; apply keeps_stores_respects; frame].
    unfold keeps_stores, try.
    destruct (exchange_code _ _ _ _ _ _ _ _ w3) as [x w4] eqn:Hx. simpl.
    change (stores_same w3 ((x, w4).2)). rewrite <-Hx. clear Hx.
    unfold exchange_code, ebind. assert (code = param params "code") as ->.
    { unfold codeExchangeParameters in Hc. apply bind_Ok in Hc as ([] & _ & Hc).
      apply bind_Ok in Hc as ([] & _ & Hc). apply bind_Ok in Hc as ([] & _ & Hc).
      apply bind_Ok in Hc as (d & _ & Hc). by injection Hc as <- _ _ _. }
    destruct (stolen_code_redemption client (presented_code params ik) w3) as [[e He] Hk].
    { apply Hmoved. by transitivity w1. }
    unfold keeps_stores, presented_code in *. destruct (redeem_code _ _ w3) as [y w5].
    simpl in He. by subst y.
Qed.
(** ** Reuse by the client the code was issued to *)

(** Stores whose writes do not fail. *)
Definition writes_succeed : Prop :=
  (∀ k t v, (Revoke k t v : result store_error unit * RevocationT).1 = Ok tt) ∧
  (∀ h g, (RevokeRefreshToken h g : result store_error unit * GrantsT).1 = Ok tt).

Lemma try_revoke k t w r w' :
  writes_succeed → @try World store_error Error _ (on_revocation (Revoke k t)) w = (r, w') →
  revoked (w_revocation w') k.
Proof.
  intros [Hw _]. unfold try, on_revocation, zoom. specialize (Hw k t (w_revocation w)).
  destruct (Revoke k t (w_revocation w)) as [r1 v] eqn:Hr. simpl in Hw. subst r1.
  intros [= <- <-]. by eapply revoke_done.
Qed.

Lemma try_revoke_refresh h w r w' :
  writes_succeed → @try World store_error Error _ (on_grants (RevokeRefreshToken h)) w = (r, w') →
  refresh_revoked (w_grants w') h.
Proof.
  intros [_ Hw]. unfold try, on_grants, zoom. specialize (Hw h (w_grants w)).
  destruct (RevokeRefreshToken h (w_grants w)) as [r1 g] eqn:Hr. simpl in Hw. subst r1.
  intros [= <- <-]. by eapply revoke_refresh_done.
Qed.

(** What a reuse revokes, [a] being what the store recorded for the code. *)
Definition reuse_revoked (a : AuthorizationCodeAlreadyRedeemedError) (h : digest) (w : World) : Prop :=
  (arr_IssuedAccessTokenKey a ≠ "" → revoked (w_revocation w) (arr_IssuedAccessTokenKey a)) ∧
  (∀ rh, arr_IssuedRefreshTokenHash a = Some rh → refresh_revoked (w_grants w) rh) ∧
  revoked (w_revocation w) (CodeKey (cfg_Issuer cfg) (CodeGrantID h)).

Lemma reuse_revoked_le a h w w' : stores_le w w' → reuse_revoked a h w → reuse_revoked a h w'.
Proof. intros [[_ Hg] Hv] (Ha & Hr & Hc). split_and!; auto. Qed.

(** One of the revocations a reuse makes: it never fails, and is done once it
    ran. *)
Definition achieves (m : srv unit) (P : World → Prop) : Prop :=
  ∀ w, ∃ w', m w = (Ok tt, w') ∧ P w' ∧ stores_le w w'.

Lemma achieves_skip (P : World → Prop) : (∀ w, P w) → achieves (ret tt) P.
Proof. intros HP w. exists w. done. Qed.

Lemma Now_total w : ∃ t w', @Now S Error w = (Ok t, w') ∧ stores_same w w'.
Proof.
  unfold Now, on_env, env_now, zoom. destruct (Clock (w_env w)) as [t x].
  exists t, (set_env x w). split; [done|]. by split_and!.
Qed.

Lemma try_total {E A} (m : eff World E A) w : ∃ r w', @try World E Error A m w = (Ok r, w').
Proof. unfold try. destruct (m w) as [r w']. by exists r, w'. Qed.

Lemma achieves_revoke k (d : Duration) :
  writes_succeed →
  achieves (let* now := Now in do* try (on_revocation (Revoke k (Add now d))) in ret tt)
    (λ w, revoked (w_revocation w) k).
Proof.
  intros Hw w. destruct (Now_total w) as (t & w1 & Hn & Hs).
  destruct (try_total (on_revocation (Revoke k (Add t d))) w1) as (r & w2 & Ht).
  exists w2. unfold ebind. rewrite Hn, Ht. split; [done|]. split; [by eapply try_revoke|].
  transitivity w1; [by apply stores_same_le|].
  eapply (respects_try stores_le), Ht. apply on_revocation_le, revoke_le.
Qed.

Lemma achieves_revoke_refresh h :
  writes_succeed →
  achieves (do* try (on_grants (RevokeRefreshToken h)) in ret tt)
    (λ w, refresh_revoked (w_grants w) h).
Proof.
  intros Hw w. destruct (try_total (on_grants (RevokeRefreshToken h)) w) as (r & w2 & Ht).
  exists w2. unfold ebind. rewrite Ht. split; [done|]. split; [by eapply try_revoke_refresh|].
  eapply (respects_try stores_le), Ht. apply on_grants_le, revoke_refresh_le.
Qed.

Lemma revokeTokensForReusedCode_revokes a client h f :
  writes_succeed → grantRevocationReader = Some f →
  arr_ClientID a = "" ∨ arr_ClientID a = client →
  ∀ w, ∃ w', revokeTokensForReusedCode (CodeAlreadyRedeemed a) client h w = (Ok false, w') ∧
    reuse_revoked a h w'.
Proof.
  intros Hw Hf Hown w. unfold revokeTokensForReusedCode.
  assert (negb (bool_decide (arr_ClientID a = "")) && negb (bool_decide (arr_ClientID a = client)) =
    false) as ->.
  { destruct Hown as [-> | ->]; [done|]. rewrite (bool_decide_true (client = client)) by done.
    by rewrite andb_false_r. }
  rewrite Hf.
  set (m1 := if negb (bool_decide (arr_IssuedAccessTokenKey a = "")) then _ else ret tt).
  set (m2 := match arr_IssuedRefreshTokenHash a with Some _ => _ | None => _ end).
  assert (H1 : achieves m1 (λ w, arr_IssuedAccessTokenKey a ≠ "" →
    revoked (w_revocation w) (arr_IssuedAccessTokenKey a))).
  { subst m1. case_bool_decide as Hk; simpl; [by apply achieves_skip|].
    intros w1. edestruct (achieves_revoke (arr_IssuedAccessTokenKey a)) as (w2 & ? & ? & ?); eauto. }
  assert (H2 : achieves m2 (λ w, ∀ rh, arr_IssuedRefreshTokenHash a = Some rh →
    refresh_revoked (w_grants w) rh)).
  { subst m2. destruct (arr_IssuedRefreshTokenHash a) as [rh|]; [|by apply achieves_skip].
    intros w1. destruct (achieves_revoke_refresh rh Hw w1) as (w2 & ? & ? & ?).
    exists w2. split_and!; try done. by intros ? [= <-]. }
  destruct (H1 w) as (w1 & Hr1 & Ha & _). destruct (H2 w1) as (w2 & Hr2 & Hr & Hle2).
  destruct (achieves_revoke (CodeKey (cfg_Issuer cfg) (CodeGrantID h)) grantRevocationHorizon Hw w2)
    as (w3 & Hr3 & Hc & Hle3).
  exists w3. unfold ebind at 1. rewrite Hr1. unfold ebind at 1. rewrite Hr2. unfold ebind at 1.
  rewrite Hr3. split; [done|]. unfold reuse_revoked. split_and!; [|intros rh Hrh|done].
  - intros Hk. by apply Hle3, Hle2, Ha.
  - by apply Hle3, Hr.
Qed.

Lemma CodeGrantID_nonempty h : CodeGrantID h ≠ "".
Proof.
  intros H%(f_equal String.length). unfold CodeGrantID, Base64.EncodeToString in H.
  by rewrite Base64.encode_length, bytes_of_length, sha256_length in H.
Qed.

Lemma code_reuse_revokes client ik code uri verifier details resources thumbprint f a g w r w1 :
  exchange_code client ik code uri verifier details resources thumbprint w = (r, w1) →
  RedeemAuthorizationCode {| acr_CodeHash := authorizationCodeHash code ik;
    acr_ClientID := client_id client |} (w_grants w) = (Err (CodeAlreadyRedeemed a), g) →
  arr_ClientID a = "" ∨ arr_ClientID a = client_id client →
  grantRevocationReader = Some f → writes_succeed →
  (∃ e, r = Err e) ∧ reuse_revoked a (authorizationCodeHash code ik) w1.
Proof.
  intros Hrun Hred Hown Hf Hw. set (h := authorizationCodeHash code ik) in *.
  unfold exchange_code in Hrun. fold h in Hrun. unfold ebind at 1 in Hrun.
  unfold redeem_code in Hrun. unfold ebind at 1, try at 1, on_grants at 1, zoom at 1 in Hrun.
  rewrite Hred in Hrun.
  destruct (revokeTokensForReusedCode_revokes a (client_id client) h f Hw Hf Hown
    (set_grants g w)) as (w3 & Hrev & Hdone).
  unfold ebind at 1 in Hrun. rewrite Hrev in Hrun.
  set (m := or_fail _ _ _) in Hrun. destruct (m w3) as [x w4] eqn:Hm.
  assert (∃ e, x = Err e) as [e ->].
  { exists (newError ErrorInvalidGrant 400 codeUnknownDescription).
    change x with ((x, w4).1). rewrite <-Hm. by apply (or_fail_Err _ _ _ w3 _ w3). }
  injection Hrun as <- <-. split; [by eexists|]. eapply reuse_revoked_le, Hdone.
  eapply (respects_or_fail stores_le), Hm. frame.
Qed.

End exchange.
