(* ===== verification/OtherGrants.v ===== *)
(** The token endpoint's other grants: the client credentials grant
    (src/server/client_credentials.go), and what an embedder's own grant type
    is served with (src/server/extension_grants.go, embedder_refresh.go,
    embedder_access_token.go): the verification of its request's binding, and
    the tokens issued for it.

    The class GrantServer adds the embedder's authorization_details policy
    for the client credentials grant.

    The theorems say what the tokens are issued on: a client's own token is
    its own, and an embedder's is bound to what the server verified. *)
From stdpp Require Import relations.
From S2P Require Import Prelude GoStrings Json GoTime Digests Effects Platform JsonCodec.
From S2P Require Import Storage ServerTypes Rar Records Claims Dpop Jose Extensions.
From S2P Require Import Attestation.
From S2P Require Import ClientAuth ClientAuthTheorems ServerState TokenChecks Issue.
From S2P Require Import CodeExchange.
From S2P Require Import Subjects Par Resource Frames FrontFrames TokenChecksTheorems.
From S2P Require Import HandlerLemmas PushTheorems ExchangeTheorems.
From stdpp Require Import options.

(** What VerifyTokenRequestBinding found. *)
Record TokenBinding := {
  tb_Thumbprint : string;
  tb_SenderConstrain : SenderConstrain;
  tb_NextDPoPNonce : string;
  tb_verifiedFor : ClientID;
  tb_verifiedThumbprint : string }.

Record DPoPProofBinding := {
  db_Thumbprint : string;
  db_NextDPoPNonce : string }.

(** IssueRefreshTokenRequest and IssueAccessTokenRequest convert to it. *)
Record embedderGrantRequest := {
  eg_GrantType : string;
  eg_Client : AttestedClient;
  eg_Binding : TokenBinding;
  eg_Subject : string;
  eg_Scope : list string;
  eg_AuthorizationDetails : list RawMessage;
  eg_Resources : list string;
  eg_GrantID : string }.

Definition ClientCredentialsGrantType : string := "client_credentials".

Class GrantServer `{FrontServer} := {
  ClientCredentialsRARPolicy :
    option (ClientID → list RawMessage → eff Env env_error (list RawMessage)) }.

Section grants.
Context `{GrantServer}.

(** * Client credentials *)

(** The loop of clientCredentialsScope. *)
Fixpoint check_credentials_scope (client : RegisteredClient) (tokens : list string)
    : result Error unit :=
  match tokens with
  | [] => Ok tt
  | tok :: tokens =>
    if bool_decide (tok = "openid") || bool_decide (tok = "offline_access")
    then Err (newError ErrorInvalidScope 400
      ("the client_credentials grant has no end user: " +:+ tok +:+ " cannot be requested"))
    else if negb (clientAllowsScope client tok)
    then Err (newError ErrorInvalidScope 400 "scope is not valid for this client")
    else check_credentials_scope client tokens
  end.

Definition clientCredentialsScope (client : RegisteredClient) (scope : string)
    : result Error (list string) :=
  of_check ErrorInvalidRequest (checkScopeLength (String.length scope) client) ;;
  let scopeTokens := fields scope in
  guard_err (negb (bool_decide (scopeTokens = [])))
    (newError ErrorInvalidScope 400 "scope is required") ;;
  check_credentials_scope client scopeTokens ;;
  Ok scopeTokens.

Definition clientCredentialsGrant (client : RegisteredClient) (params : gmap string string)
    (requestedResources : list string) : srv (RawMessage * (string * list string)) :=
  match parseRequestedAuthorizationDetails (plainParamsToJSON params) with
  | None => fail (newError ErrorInvalidAuthorizationDetails 400 "authorization_details is invalid")
  | Some requested =>
    let* details :=
      (if raw_empty requested then ret RawNil
       else map_err (λ _, newError ErrorInvalidAuthorizationDetails 400
              "authorization_details is not permitted for this client")
            (applyRARPolicy client ClientCredentialsRARPolicy requested)) in
    let* resources := checkRequestedResources client requestedResources in
    ret (details, accessTokenAudience resources)
  end.

(** The token a client gets in its own name: its subject is the client. *)
Definition client_token_params (client : RegisteredClient) (scope : list string)
    (thumbprint : string) (details : RawMessage) (audience : string * list string) (now : Time)
    : AccessTokenParams := {|
  atp_ClientID := client_id client; atp_Subject := client_id client; atp_InternalSubject := "";
  atp_Scope := scope; atp_Thumbprint := thumbprint;
  atp_SenderConstrain := senderConstrain client;
  atp_Claims := withAuthorizationDetails details
    {[GrantTypeClaim := Raw (JStr ClientCredentialsGrantType)]};
  atp_Issuer := cfg_Issuer cfg; atp_Audience := audience.1; atp_Audiences := audience.2;
  atp_Now := now; atp_Lifetime := AccessTokenLifetime (cfg_Limits cfg) |}.

Abbreviation fails := (or_fail AuditEventRequestClientCredentialsToken).

(** What follows the binding of an authenticated client's request. *)
Definition issue_client_token (client : RegisteredClient) (scope : list string)
    (details : RawMessage) (audience : string * list string) (thumbprint : string)
    : srv TokenResult :=
  let* now := Now in
  let* issued := fails (client_id client)
    (issueAccessToken (client_token_params client scope thumbprint details audience now)) in
  let result := {|
    AccessToken := issued.1; TokenType := tokenTypeFor (senderConstrain client);
    ExpiresIn := AccessTokenLifetime (cfg_Limits cfg); Scope := join " " scope;
    AuthorizationDetails := details; IDToken := None; RefreshToken := None;
    NextDPoPNonce := "" |} in
  let* result := fails (client_id client) (addNextDPoPNonce client now result) in
  do* audit AuditEventRequestClientCredentialsToken (client_id client) AuditOutcomeSuccess "" in
  ret result.

Definition RequestClientCredentialsToken (req : TokenRequest) : srv TokenResult :=
  do* fails "" (check (ClientCredentialsGrant cfg) ErrorUnsupportedGrantType 400
    "the client_credentials grant is not enabled on this server") in
  let '(formParams, requestedResources) := takeResourceParameters (Parameters req) in
  let* params := fails "" (parseForm formParams) in
  do* fails "" (check (bool_decide (param params "grant_type" = "client_credentials"))
    ErrorUnsupportedGrantType 400 "grant_type must be client_credentials") in
  let* authenticated := fails "" (authenticateRequest params (credentials req) [] []) in
  let '(client, dpopProof, _) := authenticated in
  do* fails (client_id client) (check (allowsClientCredentialsGrant client)
    ErrorUnauthorizedClient 400 "this client is not registered for the client_credentials grant") in
  let* scope := fails (client_id client)
    (lift (clientCredentialsScope client (param params "scope"))) in
  let* granted := fails (client_id client)
    (clientCredentialsGrant client params requestedResources) in
  let '(details, audience) := granted in
  let* thumbprint := fails (client_id client)
    (verifyTokenRequestBinding client dpopProof (PeerCertificate (credentials req))) in
  attachNextDPoPNonceOnFailure client
    (issue_client_token client scope details audience thumbprint).

(** * Embedders' grants *)

(** TokenEndpointRequest.Parameters and Resources *)
Definition endpoint_parameters (req : TokenRequest) : result Error (gmap string string) :=
  of_option (newError ErrorInvalidRequest 400
      "the request's parameters are duplicated, too many, or too large")
    (formParametersToMap (splitResourceParameters (Parameters req)).1).
Definition Resources (req : TokenRequest) : list string :=
  (splitResourceParameters (Parameters req)).2.

Definition AttestedClientAuthentication (req : TokenRequest)
    : AttestedClientAuthenticationRequest :=
  let attestations := ClientAttestations (credentials req) in
  let pops := ClientAttestationPoPs (credentials req) in
  match endpoint_parameters req with
  | Err _ => {| aar_ClientAttestations := attestations; aar_ClientAttestationPoPs := pops;
                aar_ClientID := ""; aar_malformed := true; aar_otherClientAuth := false |}
  | Ok params => {|
      aar_ClientAttestations := attestations; aar_ClientAttestationPoPs := pops;
      aar_ClientID := param params "client_id"; aar_malformed := false;
      aar_otherClientAuth := negb (bool_decide (param params "client_assertion" = "")) ||
        negb (bool_decide (param params "client_assertion_type" = "")) |}
  end.

(** verifyExtensionGrantBinding *)
Definition verifyExtensionGrantBinding (client : RegisteredClient) (req : TokenRequest)
    : srv TokenBinding :=
  let* proof := resolveDPoPProof (DPoPProofs (credentials req)) in
  let* thumbprint := verifyTokenRequestBinding client proof (PeerCertificate (credentials req)) in
  let* now := Now in
  let* nextNonce := nextDPoPNonce client now in
  ret {| tb_Thumbprint := thumbprint; tb_SenderConstrain := senderConstrain client;
         tb_NextDPoPNonce := nextNonce; tb_verifiedFor := client_id client;
         tb_verifiedThumbprint := thumbprint |}.

Definition VerifyTokenRequestBinding (client : RegisteredClient) (req : TokenRequest)
    : srv TokenBinding :=
  let* binding := or_fail AuditEventVerifyTokenRequestBinding (client_id client)
    (verifyExtensionGrantBinding client req) in
  do* audit AuditEventVerifyTokenRequestBinding (client_id client) AuditOutcomeSuccess "" in
  ret binding.

Definition verifyClientlessDPoP (req : TokenRequest) : srv DPoPProofBinding :=
  let* proof := resolveDPoPProof (DPoPProofs (credentials req)) in
  let* verified := verifyTokenRequestDPoP proof in
  let* now := Now in
  let* nextNonce := nextTokenEndpointDPoPNonce now in
  ret {| db_Thumbprint := vp_Thumbprint verified; db_NextDPoPNonce := nextNonce |}.

Definition VerifyTokenRequestDPoP (req : TokenRequest) : srv DPoPProofBinding :=
  let* binding := or_fail AuditEventVerifyTokenRequestDPoP "" (verifyClientlessDPoP req) in
  do* audit AuditEventVerifyTokenRequestDPoP "" AuditOutcomeSuccess "" in
  ret binding.

(** The loop of embedderGrant over its scopes. *)
Fixpoint check_embedder_scope (client : RegisteredClient) (scopes : list string)
    : result Error unit :=
  match scopes with
  | [] => Ok tt
  | scope :: scopes =>
    if bool_decide (scope = "openid") then Err (newError ErrorInvalidScope 400
      "openid can't be granted without an authenticated user")
    else if negb (clientAllowsScope client scope)
    then Err (newError ErrorInvalidScope 400 "scope is not valid for this client")
    else check_embedder_scope client scopes
  end.

Definition embedderAuthorizationDetails (req : embedderGrantRequest) : result Error RawMessage :=
  match eg_AuthorizationDetails req with
  | [] => Ok RawNil
  | details =>
    match cfg_RAR cfg with
    | None => Err (newError ErrorInvalidAuthorizationDetails 400
        "authorization_details is not supported by this server")
    | Some registry =>
      let raw := slice_message details in
      guard_err (is_ok (Parse registry raw))
        (newError ErrorInvalidAuthorizationDetails 400 "authorization_details is invalid") ;;
      guard_err (checkAuthorizationDetailsTypes (atc_Client (eg_Client req)) details)
        (newError ErrorInvalidAuthorizationDetails 400
          "authorization_details is not permitted for this client") ;;
      Ok raw
    end
  end.

(** What embedderGrant checks of the request alone, and of the time. *)
Definition check_embedder_request (req : embedderGrantRequest) : srv unit :=
  let c := eg_Client req in
  let client := atc_Client c in
  do* check (bool_decide (eg_GrantType req ∈ AdditionalGrantTypes cfg)) ErrorServerError 500
    "GrantType is not one of Config.AdditionalGrantTypes" in
  do* check (negb (bool_decide (atc_instanceKey c = "")) &&
             bool_decide (atc_authenticatedID c = client_id client) &&
             bool_decide (atc_AttestationExpiresAt c = atc_verifiedExpiresAt c))
    ErrorServerError 500 "Client must be as AuthenticateAttestedClient returned it" in
  let* now := Now in
  do* check (negb (After now (Add (atc_verifiedExpiresAt c) (MaxClockSkew (cfg_Limits cfg)))))
    ErrorServerError 500
    "Client's attestation has expired: authenticate the client for each request" in
  do* check (negb (bool_decide (tb_Thumbprint (eg_Binding req) = "")) &&
             bool_decide (tb_SenderConstrain (eg_Binding req) = senderConstrain client))
    ErrorServerError 500
    "Binding must name a credential of the client's registered sender constraint" in
  do* check (negb (bool_decide (eg_Subject req = ""))) ErrorServerError 500
    "Subject is required" in
  check (negb (bool_decide (eg_Scope req = []) &&
               bool_decide (length (eg_AuthorizationDetails req) = 0))) ErrorServerError 500
    "Scope or AuthorizationDetails is required".

Definition embedder_record (req : embedderGrantRequest) (clientSub sector : string)
    (details : RawMessage) (resources : list string) : grantRecord := {|
  g_Version := 0%Z; g_Kind := ""; g_Issuer := ""; g_RedirectURI := ""; g_CodeChallenge := "";
  g_Nonce := ""; g_DPoPJKT := ""; g_Thumbprint := ""; g_ClientInstanceKey := "";
  g_Subject := eg_Subject req; g_ClientSubject := distinctClientSubject clientSub (eg_Subject req);
  g_PairwiseSector := sector; g_PairwisePrefix := pairwisePrefixOf sector;
  g_Scope := eg_Scope req; g_AuthTime := zero_time; g_ACR := ""; g_AMR := [];
  g_AuthorizationDetails := details; g_Resources := resources; g_TokenClaims := ∅;
  g_RequestedIDTokenClaims := []; g_RequestedUserinfoClaims := [];
  g_RequestedIDTokenClaimValues := ∅; g_RequestedUserinfoClaimValues := ∅;
  g_IDTokenClaims := ∅; g_GrantID := eg_GrantID req; g_CodeGrantID := "";
  g_GrantType := eg_GrantType req; g_IssuedAt := None |}.

Definition embedderGrant (req : embedderGrantRequest) : srv grantRecord :=
  let client := atc_Client (eg_Client req) in
  do* check_embedder_request req in
  do* lift (check_embedder_scope client (eg_Scope req)) in
  let* details := lift (embedderAuthorizationDetails req) in
  let* resources := checkRequestedResources client (eg_Resources req) in
  do* check (validateGrantID (eg_GrantID req)) ErrorServerError 500 "GrantID is invalid" in
  let* subjects := clientSubjectFor client (eg_Subject req) in
  let grant := embedder_record req subjects.1 subjects.2 details resources in
  do* checkGrantNotRevoked grant in
  ret grant.

(** The Server's methods of these names; Issue.v's is the issuer's. *)
Definition Server_IssueRefreshToken (req : embedderGrantRequest) : srv string :=
  let client := atc_Client (eg_Client req) in
  let fails {A} : srv A → srv A := or_fail AuditEventIssueRefreshToken (client_id client) in
  let* grant := fails (embedderGrant req) in
  let* raw := fails (map_err refresh_token_failed
    (issueRefreshToken (client_id client) grant
       {| rb_Thumbprint := tb_Thumbprint (eg_Binding req);
          rb_InstanceKey := atc_instanceKey (eg_Client req) |})) in
  do* audit AuditEventIssueRefreshToken (client_id client) AuditOutcomeSuccess "" in
  ret raw.

Definition Server_IssueAccessToken (req : embedderGrantRequest) : srv TokenResult :=
  let client := atc_Client (eg_Client req) in
  let binding := eg_Binding req in
  let fails {A} : srv A → srv A := or_fail AuditEventIssueAccessToken (client_id client) in
  let* grant := fails (
    let* grant := embedderGrant req in
    do* check (bool_decide (tb_verifiedFor binding = client_id client) &&
               bool_decide (tb_Thumbprint binding = tb_verifiedThumbprint binding))
      ErrorServerError 500
      "Binding must be as VerifyTokenRequestBinding returned it for Client" in
    ret grant) in
  let* claims := fails (lift (of_option
    (newError ErrorServerError 500 "failed to encode access token claims")
    (accessTokenClaims grant))) in
  let* now := Now in
  let* issued := fails (issueAccessToken (access_token_params client grant (g_Scope grant)
    (tb_Thumbprint binding) claims (accessTokenAudience (g_Resources grant)) now)) in
  do* audit AuditEventIssueAccessToken (client_id client) AuditOutcomeSuccess "" in
  ret {| AccessToken := issued.1; TokenType := tokenTypeFor (senderConstrain client);
         ExpiresIn := AccessTokenLifetime (cfg_Limits cfg); Scope := join " " (g_Scope grant);
         AuthorizationDetails := g_AuthorizationDetails grant; IDToken := None;
         RefreshToken := None; NextDPoPNonce := tb_NextDPoPNonce binding |}.
End grants.

(** * What the tokens are issued on *)

(** [token] is an access token made of [p]. *)
Definition minted `{Server} (p : AccessTokenParams) (token : string) : Prop :=
  ∃ w w' key, issueAccessToken p w = (Ok (token, key), w').

Section theorems.
Context `{GrantServer}.

Lemma check_credentials_scope_Ok client tokens :
  check_credentials_scope client tokens = Ok tt →
  ∀ tok, tok ∈ tokens →
    tok ∉ ["openid"; "offline_access"] ∧ clientAllowsScope client tok = true.
Proof.
  induction tokens as [|t tokens IH]; intros Hc tok Hin; [by apply not_elem_of_nil in Hin|].
  simpl in Hc. destruct (_ || _) eqn:Hu; [done|]. destruct (clientAllowsScope client t) eqn:Ha; [|done].
  apply elem_of_cons in Hin as [->|Hin]; [|by apply IH].
  apply orb_false_iff in Hu as [?%bool_decide_eq_false ?%bool_decide_eq_false].
  split; [set_solver|done].
Qed.

Lemma clientCredentialsScope_Ok client scope tokens :
  clientCredentialsScope client scope = Ok tokens →
  tokens = fields scope ∧ tokens ≠ [] ∧
  ∀ tok, tok ∈ tokens →
    tok ∉ ["openid"; "offline_access"] ∧ clientAllowsScope client tok = true.
Proof.
  unfold clientCredentialsScope. intros Hc. apply bind_Ok in Hc as ([] & _ & Hc).
  apply bind_Ok in Hc as ([] & Hne%guard_err_Ok & Hc). apply bind_Ok in Hc as ([] & Hloop & Hc).
  injection Hc as <-. apply negb_true_iff, bool_decide_eq_false in Hne.
  split; [done|]. split; [done|]. by apply check_credentials_scope_Ok.
Qed.

(** A request's authorization_details that the embedder's policy for clients
    grants: none are granted that were not asked for. *)
Definition credentials_details (client : RegisteredClient) (params : gmap string string)
    (details : RawMessage) : Prop :=
  ∃ requested, parseRequestedAuthorizationDetails (plainParamsToJSON params) = Some requested ∧
    (raw_empty requested = true ∧ details = RawNil ∨
     details_granted ClientCredentialsRARPolicy client requested details).

Lemma requested_audience client requested w resources w' :
  checkRequestedResources client requested w = (Ok resources, w') →
  audience_bounded client requested requested (accessTokenAudience resources).
Proof.
  intros Hc. apply checkRequestedResources_Ok in Hc as [(-> & -> & Ha)|(Hne & Hnd & Hok)]; [by left|].
  right. destruct resources as [|r l]; [done|]. split_and!; [done|done|].
  intros x Hx. destruct (Hok x Hx) as (Hch & Hal & Hfrom). split_and!; [done..| |done].
  intros Hreq. by destruct Hfrom as [?|[? _]].
Qed.

Lemma clientCredentialsGrant_Ok client params requested w details audience w' :
  clientCredentialsGrant client params requested w = (Ok (details, audience), w') →
  credentials_details client params details ∧ audience_bounded client requested requested audience.
Proof.
  unfold clientCredentialsGrant, credentials_details. intros Hrun.
  destruct (parseRequestedAuthorizationDetails _) as [r|]; [|done].
  apply ebind_Ok in Hrun as (d & w1 & Hd & Hrun). apply ebind_Ok in Hrun as (res & w2 & Hr & Hrun).
  apply ret_Ok in Hrun as [[= -> ->] _]. apply requested_audience in Hr. split; [|done].
  exists r. split; [done|]. destruct (raw_empty r).
  - apply ret_Ok in Hd as [-> _]. by left.
  - right. apply map_err_Ok in Hd. by eapply applyRARPolicy_Ok.
Qed.

Lemma respects_clientCredentialsGrant client params requested :
  respects stores_same (clientCredentialsGrant client params requested).
Proof. unfold clientCredentialsGrant, applyRARPolicy. frame. Qed.

Lemma respects_issue_client_token client scope details audience thumbprint :
  respects stores_same (issue_client_token client scope details audience thumbprint).
Proof. unfold issue_client_token. frame. Qed.

Lemma issue_client_token_Ok client scope details audience thumbprint w result w' :
  issue_client_token client scope details audience thumbprint w = (Ok result, w') →
  (∃ now, clock_reading now ∧
    minted (client_token_params client scope thumbprint details audience now) (AccessToken result)) ∧
  IDToken result = None ∧ RefreshToken result = None ∧ Scope result = join " " scope ∧
  AuthorizationDetails result = details ∧ TokenType result = tokenTypeFor (senderConstrain client).
Proof.
  unfold issue_client_token. intros Hrun. apply ebind_Ok in Hrun as (now & w1 & Hnow & Hrun).
  apply Now_reading in Hnow. apply ebind_Ok in Hrun as ([token key] & w2 & Hi%or_fail_Ok & Hrun).
  apply ebind_Ok in Hrun as (r & w3 & Hn%or_fail_Ok & Hrun).
  apply ebind_Ok in Hrun as ([] & w4 & _ & Hrun). apply ret_Ok in Hrun as [-> _].
  unfold addNextDPoPNonce in Hn. apply ebind_Ok in Hn as (n & w5 & _ & Hn).
  apply ret_Ok in Hn as [-> _]. split; [|done]. exists now. split; [done|]. by exists w1, w2, key.
Qed.

(** The token says that it has no user. *)
Lemma client_token_kind client scope thumbprint details audience now :
  Resource.subjectKindOf
    (atp_Claims (client_token_params client scope thumbprint details audience now)) =
  Ok Resource.SubjectClient.
Proof.
  unfold Resource.subjectKindOf. simpl. unfold withAuthorizationDetails.
  destruct (raw_empty details); [done|]. by rewrite lookup_insert_ne.
Qed.

(** C26. A client credentials token is the authenticated client's own. It is
    issued only where the grant is enabled, to a client registered for it and
    authenticated by the request; for scopes the client may have, and never
    for openid or offline_access; with authorization_details the policy for
    clients granted of those asked for; for resources the client may reach
    and, when it named any, those it named; bound to the key or certificate
    the request presents. It names the client as its subject and says that it
    has no user, it comes with no ID token and no refresh token, and issuing
    it leaves every grant, CIBA request and revocation as it was. *)
Theorem client_credentials_authorized req w result w' :
  RequestClientCredentialsToken req w = (Ok result, w') →
  ∃ params client ik scope details audience thumbprint now,
    exchange_request req w = Some (params, client, ik) ∧
    param params "grant_type" = "client_credentials" ∧
    ClientCredentialsGrant cfg = true ∧ allowsClientCredentialsGrant client = true ∧
    presented_binding (credentials req) client thumbprint ∧
    scope = fields (param params "scope") ∧ scope ≠ [] ∧
    (∀ tok, tok ∈ scope →
      tok ∉ ["openid"; "offline_access"] ∧ clientAllowsScope client tok = true) ∧
    credentials_details client params details ∧
    (let requested := (takeResourceParameters (Parameters req)).2 in
     audience_bounded client requested requested audience) ∧
    clock_reading now ∧
    (let p := client_token_params client scope thumbprint details audience now in
     minted p (AccessToken result) ∧ atp_Subject p = client_id client ∧
     Resource.subjectKindOf (atp_Claims p) = Ok Resource.SubjectClient) ∧
    IDToken result = None ∧ RefreshToken result = None ∧ Scope result = join " " scope ∧
    AuthorizationDetails result = details ∧ TokenType result = tokenTypeFor (senderConstrain client) ∧
    stores_same w w'.
Proof.
  unfold RequestClientCredentialsToken, exchange_request. intros Hrun.
  apply ebind_Ok in Hrun as ([] & w1 & [Hen ->]%or_fail_Ok%check_Ok & Hrun).
  destruct takeResourceParameters as [form res].
  apply ebind_Ok in Hrun as (params & w1 & [Hp ->]%or_fail_Ok%parseForm_Ok & Hrun).
  apply ebind_Ok in Hrun as ([] & w1 & [Hg%bool_decide_eq_true ->]%or_fail_Ok%check_Ok & Hrun).
  apply ebind_Ok in Hrun as ([[client proof] ik] & w1 & Ha%or_fail_Ok & Hrun).
  apply ebind_Ok in Hrun as ([] & w2 & [Hreg ->]%or_fail_Ok%check_Ok & Hrun).
  apply ebind_Ok in Hrun as (scope & w2 & [Hs ->]%or_fail_Ok%lift_Ok & Hrun).
  apply ebind_Ok in Hrun as ([details audience] & w3 & Hgr%or_fail_Ok & Hrun).
  apply ebind_Ok in Hrun as (thumbprint & w4 & Hb%or_fail_Ok & Hrun).
  apply attachNextDPoPNonceOnFailure_Ok in Hrun.
  apply clientCredentialsScope_Ok in Hs as (-> & Hne & Hs).
  assert (stores_same w w') as Hsame.
  { transitivity w1; [exact (respects_authenticateRequest stores_same _ _ _ _ _ _ _ Ha)|].
    transitivity w3; [exact (respects_clientCredentialsGrant _ _ _ _ _ _ Hgr)|].
    transitivity w4; [exact (respects_verifyTokenRequestBinding stores_same _ _ _ _ _ _ Hb)|].
    exact (respects_issue_client_token _ _ _ _ _ _ _ _ Hrun). }
  apply clientCredentialsGrant_Ok in Hgr as [Hd Haud].
  apply issue_client_token_Ok in Hrun as ((now & Hnow & Hm) & Hid & Hrt & Hsc & Had & Htt).
  apply (token_request_binding (credentials req)) in Hb; [|by eapply authenticateRequest_proof].
  cbn [fst snd]. rewrite Hp, Ha. eexists params, client, ik, _, details, audience, thumbprint, now.
  split_and!; auto. apply client_token_kind.
Qed.

(** * Embedders' grants *)

Lemma check_embedder_scope_Ok client scopes :
  check_embedder_scope client scopes = Ok tt →
  ∀ scope, scope ∈ scopes → scope ≠ "openid" ∧ clientAllowsScope client scope = true.
Proof.
  induction scopes as [|s scopes IH]; intros Hc x Hin; [by apply not_elem_of_nil in Hin|].
  simpl in Hc. destruct (bool_decide_reflect (s = "openid")); [done|].
  destruct (clientAllowsScope client s) eqn:Ha; [|done].
  apply elem_of_cons in Hin as [->|Hin]; [done|by apply IH].
Qed.

Context `{!RevocationLaws RevocationT}.

(** What embedderGrant establishes of a request, and the grant it makes. *)
Record embedder_granted (req : embedderGrantRequest) (w : World) (grant : grantRecord) : Prop := {
  em_type : eg_GrantType req ∈ AdditionalGrantTypes cfg;
  em_attested : atc_instanceKey (eg_Client req) ≠ "" ∧
    atc_authenticatedID (eg_Client req) = client_id (atc_Client (eg_Client req));
  em_fresh : ∃ now, clock_reading now ∧
    (now ≤ Add (atc_verifiedExpiresAt (eg_Client req)) (MaxClockSkew (cfg_Limits cfg)))%Z;
  em_binding : tb_Thumbprint (eg_Binding req) ≠ "" ∧
    tb_SenderConstrain (eg_Binding req) = senderConstrain (atc_Client (eg_Client req));
  em_subject : eg_Subject req ≠ "";
  em_scope : ∀ scope, scope ∈ eg_Scope req →
    scope ≠ "openid" ∧ clientAllowsScope (atc_Client (eg_Client req)) scope = true;
  em_nonempty : eg_Scope req ≠ [] ∨ eg_AuthorizationDetails req ≠ [];
  em_grant : ∃ sub sector details resources,
    embedderAuthorizationDetails req = Ok details ∧
    audience_bounded (atc_Client (eg_Client req)) (eg_Resources req) (eg_Resources req)
      (accessTokenAudience resources) ∧
    grant = embedder_record req sub sector details resources;
  em_unrevoked : ∀ k, k ∈ revocation_keys grant → ¬ revoked (w_revocation w) k }.

Lemma respects_check_embedder_request req : respects stores_same (check_embedder_request req).
Proof. unfold check_embedder_request. frame. Qed.
#[local] Hint Resolve respects_check_embedder_request : frames.

Lemma check_embedder_request_Ok req w u w' :
  check_embedder_request req w = (Ok u, w') →
  eg_GrantType req ∈ AdditionalGrantTypes cfg ∧
  (atc_instanceKey (eg_Client req) ≠ "" ∧
   atc_authenticatedID (eg_Client req) = client_id (atc_Client (eg_Client req))) ∧
  (∃ now, clock_reading now ∧
    (now ≤ Add (atc_verifiedExpiresAt (eg_Client req)) (MaxClockSkew (cfg_Limits cfg)))%Z) ∧
  (tb_Thumbprint (eg_Binding req) ≠ "" ∧
   tb_SenderConstrain (eg_Binding req) = senderConstrain (atc_Client (eg_Client req))) ∧
  eg_Subject req ≠ "" ∧ (eg_Scope req ≠ [] ∨ eg_AuthorizationDetails req ≠ []).
Proof.
  unfold check_embedder_request. intros Hrun.
  apply ebind_Ok in Hrun as ([] & w1 & [Htype%bool_decide_eq_true ->]%check_Ok & Hrun).
  apply ebind_Ok in Hrun as ([] & w1 & [Hc ->]%check_Ok & Hrun).
  apply andb_true_iff in Hc as [[Hik Hid]%andb_true_iff _].
  apply ebind_Ok in Hrun as (now & w1 & Hnow%Now_reading & Hrun).
  apply ebind_Ok in Hrun as ([] & w2 & [Hexp%negb_true_iff ->]%check_Ok & Hrun).
  apply ebind_Ok in Hrun as ([] & w2 & [[Ht Hs]%andb_true_iff ->]%check_Ok & Hrun).
  apply ebind_Ok in Hrun as ([] & w2 & [Hsub ->]%check_Ok & Hrun). apply check_Ok in Hrun as [Hne _].
  apply negb_true_iff, bool_decide_eq_false in Hik, Ht, Hsub.
  apply bool_decide_eq_true in Hid, Hs. apply bool_decide_eq_false in Hexp.
  apply negb_true_iff, andb_false_iff in Hne.
  split_and!; try done; [exists now; split; [done|lia]|].
  destruct Hne as [Hne|Hne]; apply bool_decide_eq_false in Hne; [by left|right].
  intros He. apply Hne. by rewrite He.
Qed.

Lemma embedderGrant_Ok req w grant w' :
  embedderGrant req w = (Ok grant, w') → embedder_granted req w grant ∧ stores_same w w'.
Proof.
  unfold embedderGrant. intros Hrun.
  apply ebind_Ok in Hrun as ([] & w1 & Hc & Hrun).
  pose proof (respects_check_embedder_request _ _ _ _ Hc) as Hs1.
  apply check_embedder_request_Ok in Hc as (Htype & Hatt & Hfresh & Hbind & Hsub & Hne).
  apply ebind_Ok in Hrun as ([] & w2 & [Hscope ->]%lift_Ok & Hrun).
  pose proof (check_embedder_scope_Ok _ _ Hscope) as Hsc.
  apply ebind_Ok in Hrun as (details & w2 & [Hd ->]%lift_Ok & Hrun).
  apply ebind_Ok in Hrun as (resources & w2 & Hr & Hrun).
  pose proof (respects_checkRequestedResources stores_same _ _ _ _ _ Hr) as Hs2.
  apply ebind_Ok in Hrun as ([] & w3 & [_ ->]%check_Ok & Hrun).
  apply ebind_Ok in Hrun as ([sub sector] & w3 & Hcs & Hrun).
  pose proof (respects_clientSubjectFor stores_same _ _ _ _ _ Hcs) as Hs3.
  apply ebind_Ok in Hrun as ([] & w4 & [Hnr Hs4]%checkGrantNotRevoked_Ok & Hrun).
  apply ret_Ok in Hrun as [-> ->].
  assert (stores_same w w3) as Hs by (transitivity w1; [done|by transitivity w2]).
  split; [|by transitivity w3]. split; try done.
  - exists sub, sector, details, resources. split; [done|]. split; [by eapply requested_audience|done].
  - destruct Hs as (_ & Hrev & _). by rewrite Hrev in Hnr.
Qed.

(** What AuthenticateAttestedClient found a request's attestation to be. *)
Definition attested_by (areq : AttestedClientAuthenticationRequest) (attested : AttestedClient)
    : Prop :=
  ∃ attestation pop a p key jwk,
    aar_malformed areq = false ∧ aar_otherClientAuth areq = false ∧
    aar_ClientAttestations areq = [attestation] ∧ aar_ClientAttestationPoPs areq = [pop] ∧
    attestation_authenticates cfg (aar_ClientID areq) attestation pop (atc_Client attested)
      (atc_instanceKey attested) a p key jwk ∧
    atc_authenticatedID attested = client_id (atc_Client attested) ∧
    atc_verifiedExpiresAt attested = Unix (Attestation.c_ExpiresAt (Attestation.at_claims a)).

Lemma attested_headers_Ok areq w attestation pop w' :
  attested_headers areq w = (Ok (attestation, pop), w') →
  aar_malformed areq = false ∧ aar_otherClientAuth areq = false ∧
  aar_ClientAttestations areq = [attestation] ∧ aar_ClientAttestationPoPs areq = [pop].
Proof.
  unfold attested_headers. intros Hh. destruct (aar_malformed areq); [done|].
  destruct (aar_otherClientAuth areq); [done|].
  apply ebind_Ok in Hh as ([att p] & w1 & Hr & Hh). simpl in Hh. case_bool_decide as Hne; [done|].
  apply ret_Ok in Hh as [[= -> ->] _]. unfold resolveAttestationHeaders in Hr.
  destruct (aar_ClientAttestations areq) as [|x [|]], (aar_ClientAttestationPoPs areq) as [|y [|]];
    try done; apply ret_Ok in Hr as [[= -> ->] _]; done.
Qed.

Lemma AuthenticateAttestedClient_Ok areq w attested w' :
  AuthenticateAttestedClient areq w = (Ok attested, w') → attested_by areq attested.
Proof.
  unfold AuthenticateAttestedClient. intros Hrun.
  apply ebind_Ok in Hrun as ([attestation pop] & w1 & Hh%or_fail_Ok & Hrun).
  apply attested_headers_Ok in Hh as (Hm & Ho & Ha & Hp).
  apply ebind_Ok in Hrun as ([client verified] & w2 & Hc%or_fail_Ok & Hrun).
  apply ebind_Ok in Hrun as ([] & w3 & _ & Hrun). apply ret_Ok in Hrun as [-> _].
  apply zoom_run in Hc as (x & Hc & _).
  apply authenticateClientViaAttestation_Ok in Hc as (_ & a & p & key & jwk & Hatt & Hexp).
  by exists attestation, pop, a, p, key, jwk.
Qed.

Lemma VerifyTokenRequestBinding_Ok client treq w binding w' :
  VerifyTokenRequestBinding client treq w = (Ok binding, w') →
  presented_binding (credentials treq) client (tb_verifiedThumbprint binding) ∧
  tb_verifiedFor binding = client_id client.
Proof.
  unfold VerifyTokenRequestBinding, verifyExtensionGrantBinding. intros Hrun.
  apply ebind_Ok in Hrun as (b & w1 & Hb%or_fail_Ok & Hrun).
  apply ebind_Ok in Hrun as ([] & w2 & _ & Hrun). apply ret_Ok in Hrun as [-> _].
  apply ebind_Ok in Hb as (proof & w3 & Hproof & Hb).
  apply ebind_Ok in Hb as (thumbprint & w4 & Ht & Hb). apply ebind_Ok in Hb as (now & w5 & _ & Hb).
  apply ebind_Ok in Hb as (n & w6 & _ & Hb). apply ret_Ok in Hb as [-> _]. split; [|done].
  exact (token_request_binding _ _ _ _ _ _ Ht (resolveDPoPProof_Ok _ _ _ _ Hproof)).
Qed.

Lemma Server_IssueAccessToken_Ok req w result w' :
  Server_IssueAccessToken req w = (Ok result, w') →
  let client := atc_Client (eg_Client req) in let binding := eg_Binding req in
  ∃ grant claims now,
    embedder_granted req w grant ∧
    tb_verifiedFor binding = client_id client ∧
    tb_Thumbprint binding = tb_verifiedThumbprint binding ∧
    accessTokenClaims grant = Some claims ∧ clock_reading now ∧
    minted (access_token_params client grant (g_Scope grant) (tb_Thumbprint binding) claims
      (accessTokenAudience (g_Resources grant)) now) (AccessToken result) ∧
    IDToken result = None ∧ RefreshToken result = None ∧ Scope result = join " " (eg_Scope req).
Proof.
  unfold Server_IssueAccessToken. intros Hrun.
  apply ebind_Ok in Hrun as (grant & w1 & Hg%or_fail_Ok & Hrun).
  apply ebind_Ok in Hg as (grant' & w2 & Hg & Hb). apply embedderGrant_Ok in Hg as [Hg _].
  apply ebind_Ok in Hb as ([] & w3 & [Hb ->]%check_Ok & Hr). apply ret_Ok in Hr as [-> ->].
  apply andb_true_iff in Hb as [Hfor%bool_decide_eq_true Hthumb%bool_decide_eq_true].
  apply ebind_Ok in Hrun as (claims & w4 & [Hcl ->]%or_fail_Ok%lift_Ok & Hrun).
  apply ebind_Ok in Hrun as (now & w5 & Hnow%Now_reading & Hrun).
  apply ebind_Ok in Hrun as ([token key] & w6 & Hi%or_fail_Ok & Hrun).
  apply ebind_Ok in Hrun as ([] & w7 & _ & Hrun). apply ret_Ok in Hrun as [-> _].
  exists grant', claims, now. split_and!; simpl; try done.
  - unfold of_option in Hcl. destruct (accessTokenClaims grant'); [by injection Hcl as ->|done].
  - by exists w5, w6, key.
  - destruct (em_grant _ _ _ Hg) as (? & ? & ? & ? & _ & _ & ->). done.
Qed.

(** C27. An embedder can get an access token only for a client whose attestation
    the server verified, and only bound to a credential it verified for that
    client, whatever the embedder does with the values the two checks gave it
    (it can change their exported fields and combine those of different
    requests, but the unexported ones are as the server made them). The
    attestation is its own attester's and has not expired when the token is
    issued; the token is for a grant type the server is configured to serve
    so, for scopes the client may have without a user, and its grant is under
    no withdrawn one. It is bound to the key of an accepted DPoP proof or to
    a certificate presented under that client's ID. *)
Theorem embedder_token_bound areq w0 attested w1 client treq w2 binding w3 req w result w' :
  AuthenticateAttestedClient areq w0 = (Ok attested, w1) →
  VerifyTokenRequestBinding client treq w2 = (Ok binding, w3) →
  let c := eg_Client req in let b := eg_Binding req in
  atc_instanceKey c = atc_instanceKey attested →
  atc_authenticatedID c = atc_authenticatedID attested →
  atc_verifiedExpiresAt c = atc_verifiedExpiresAt attested →
  tb_verifiedFor b = tb_verifiedFor binding →
  tb_verifiedThumbprint b = tb_verifiedThumbprint binding →
  Server_IssueAccessToken req w = (Ok result, w') →
  attested_by areq attested ∧
  client_id (atc_Client attested) = client_id client ∧
  (∃ now, clock_reading now ∧
    (now ≤ Add (atc_verifiedExpiresAt attested) (MaxClockSkew (cfg_Limits cfg)))%Z) ∧
  ∃ thumbprint grant claims now,
    presented_binding (credentials treq) client thumbprint ∧
    embedder_granted req w grant ∧ accessTokenClaims grant = Some claims ∧ clock_reading now ∧
    (let p := access_token_params (atc_Client c) grant (eg_Scope req) thumbprint claims
        (accessTokenAudience (g_Resources grant)) now in
     minted p (AccessToken result) ∧ atp_ClientID p = client_id client) ∧
    IDToken result = None ∧ RefreshToken result = None.
Proof.
  intros Ha%AuthenticateAttestedClient_Ok Hb. simpl. intros Hik Hid Hexp Hfor Hthumb Hrun.
  apply VerifyTokenRequestBinding_Ok in Hb as [Hb Hbid].
  apply Server_IssueAccessToken_Ok in Hrun
    as (grant & claims & now & Hg & Hfor' & Hth & Hcl & Hnow & Hm & Hidt & Hrt & _).
  pose proof Ha as (? & ? & ? & ? & ? & ? & _ & _ & _ & _ & _ & Haid & _).
  destruct (em_attested _ _ _ Hg) as [_ Heq].
  assert (client_id (atc_Client (eg_Client req)) = client_id client) as Hcid by congruence.
  split; [done|]. split; [congruence|]. split; [rewrite <- Hexp; by apply (em_fresh _ _ _ Hg)|].
  rewrite <- Hthumb, <- Hth in Hb.
  exists (tb_Thumbprint (eg_Binding req)), grant, claims, now. split_and!; try done.
  destruct (em_grant _ _ _ Hg) as (? & ? & ? & ? & _ & _ & ->). done.
Qed.
End theorems.
