(* ===== verification/CibaTheorems.v ===== *)
(** The CIBA token exchange: src/server/backchannel_token.go. *)
From stdpp Require Import relations.
From S2P Require Import Prelude GoStrings Json GoTime Sha256 Pkce Platform JsonCodec.
From S2P Require Import Digests Effects Storage ServerTypes Rar Nonce Records Claims Dpop.
From S2P Require Import Jose Canonical Extensions Attestation ClientAuth ServerState.
From S2P Require Import TokenChecks Issue TokenChecksTheorems.
From S2P Require Import CodeExchange Refresh BackchannelToken Frames.
From S2P Require Import HandlerLemmas ExchangeTheorems.
From stdpp Require Import options.

Set Default Proof Using "Type*".

Section ciba.
Context {S : Server} `{!GrantStoreLaws GrantsT, !RevocationLaws RevocationT}.

(** What a polled request must be to yield tokens; [grant] is the decision's
    grant with the ID it is revoked by. *)
Definition backchannel_redeemable (client : RegisteredClient)
    (polled : PolledBackchannelAuthentication) (hash : digest) (thumbprint ik : string)
    (grant : grantRecord) : Prop :=
  plb_ClientID polled = client_id client ∧
  plb_Status polled = BackchannelAuthenticationApproved ∧
  (∃ request, decodeOwnRequestRecord (cfg_Issuer cfg) (plb_Request polled) = Ok request ∧
    rq_ClientInstanceKey request = ik ∧
    (rq_DPoPJKT request = "" ∨ rq_DPoPJKT request = thumbprint)) ∧
  (∃ stored, decodeOwnGrantRecord (cfg_Issuer cfg) (plb_Grant polled) = Ok stored ∧
    isKind stored grantKindBackchannel = true ∧
    grant = with_code_grant_id (backchannelGrantID hash) stored).

Lemma approvedBackchannelGrant_Ok client polled hash thumbprint ik stored :
  approvedBackchannelGrant polled (client_id client) thumbprint ik = Ok stored →
  backchannel_redeemable client polled hash thumbprint ik
    (with_code_grant_id (backchannelGrantID hash) stored).
Proof.
  unfold approvedBackchannelGrant. intros Hrun.
  apply bind_Ok in Hrun as ([] & Hcl & Hrun). apply guard_err_Ok, bool_decide_eq_true in Hcl.
  destruct (decodeOwnRequestRecord _ _) as [request|] eqn:Hreq; [|done].
  apply bind_Ok in Hrun as ([] & Hik & Hrun). apply guard_err_Ok, bool_decide_eq_true in Hik.
  apply bind_Ok in Hrun as ([] & Hjkt & Hrun). apply guard_err_Ok in Hjkt.
  apply bind_Ok in Hrun as ([] & Hst & Hrun).
  destruct (decodeOwnGrantRecord _ _) as [grant|] eqn:Hg; [|done].
  apply bind_Ok in Hrun as ([] & Hk & Hrun). apply guard_err_Ok in Hk. injection Hrun as ->.
  unfold backchannel_redeemable. split_and!; try done.
  - unfold backchannelStatusError in Hst.
    destruct (bool_decide (plb_Status polled = BackchannelAuthenticationPending)); [done|].
    destruct (bool_decide (plb_Status polled = BackchannelAuthenticationDenied) || _); [done|].
    by destruct (bool_decide_reflect (plb_Status polled = BackchannelAuthenticationApproved)).
  - exists request. split_and!; try done.
    apply orb_true_iff in Hjkt as [?%bool_decide_eq_true|?%bool_decide_eq_true]; auto.
  - by exists stored.
Qed.

(** The digests a request may be stored under, as its poll is presented. *)
Definition presented_request (client : RegisteredClient) (authReqID ik thumbprint : string)
    (h : digest) : Prop :=
  h = backchannelAuthReqIDHash authReqID ik "" ∨
  (senderConstrain client = SenderConstrainDPoP ∧
   h = backchannelAuthReqIDHash authReqID ik thumbprint).

Lemma pollBackchannelAuthentication_Ok client authReqID ik thumbprint now w polled h w' :
  pollBackchannelAuthentication client authReqID ik thumbprint now w = (Ok (Ok polled, h), w') →
  presented_request client authReqID ik thumbprint h ∧
  w_grants w' = w_grants w ∧ w_revocation w' = w_revocation w ∧
  ∃ b, (b = w_backchannel w ∨ ∃ p e, PollBackchannel p (w_backchannel w) = (Err e, b)) ∧
    PollBackchannel {| pba_AuthReqIDHash := h; pba_Now := now; pba_ClientID := client_id client |}
      b = (Ok polled, w_backchannel w').
Proof.
  unfold pollBackchannelAuthentication, presented_request.
  assert (Hunbound : ∀ w, (let* polled := try (on_backchannel (PollBackchannel
      {| pba_AuthReqIDHash := backchannelAuthReqIDHash authReqID ik ""; pba_Now := now;
         pba_ClientID := client_id client |})) in
      ret (polled, backchannelAuthReqIDHash authReqID ik "")) w = (@Ok Error _ (Ok polled, h), w') →
    h = backchannelAuthReqIDHash authReqID ik "" ∧
    w_grants w' = w_grants w ∧ w_revocation w' = w_revocation w ∧
    PollBackchannel {| pba_AuthReqIDHash := h; pba_Now := now; pba_ClientID := client_id client |}
      (w_backchannel w) = (Ok polled, w_backchannel w')).
  { clear w. intros w Hrun. apply ebind_Ok in Hrun as (r & w1 & Hr & Hrun).
    apply try_Ok, zoom_run in Hr as (b & Hr & ->). injection Hrun as -> <- <-. done. }
  destruct (bool_decide_reflect (senderConstrain client = SenderConstrainMTLS)) as [Hm|Hm].
  { intros (-> & Hg & Hv & Hb)%Hunbound. split_and!; eauto 6. }
  assert (Hd : senderConstrain client = SenderConstrainDPoP) by (by destruct (senderConstrain client)).
  intros Hrun. apply ebind_Ok in Hrun as (r & w1 & Hr & Hrun).
  apply try_Ok, zoom_run in Hr as (b & Hr & ->). destruct r as [polled'|err].
  - injection Hrun as -> <- <-. split_and!; eauto 6.
  - destruct (isBackchannelPollOutcome err); [done|].
    apply Hunbound in Hrun as (-> & Hg & Hv & Hb). split_and!; eauto 6.
Qed.

(** The parameters of a CIBA token request, its client and Client Instance
    Key. *)
Definition backchannel_token_request (req : TokenRequest) (w : World)
    : option (gmap string string * RegisteredClient * string) :=
  match formParametersToMap (takeResourceParameters (Parameters req)).1 with
  | None => None
  | Some params =>
    match (authenticateRequest params (credentials req) [TokenEndpoint cfg]
             [MTLSTokenEndpoint cfg] w).1 with
    | Ok (client, _, ik) => Some (params, client, ik)
    | Err _ => None
    end
  end.

Lemma ExchangeBackchannelAuthentication_Ok req w result w' :
  ExchangeBackchannelAuthentication req w = (Ok result, w') →
  ∃ params client ik details thumbprint w1,
    backchannel_token_request req w = Some (params, client, ik) ∧ stores_same w w1 ∧
    presented_binding (credentials req) client thumbprint ∧
    (BackchannelAuthenticationRequestAlgorithm client).2 = true ∧
    tokenRequestAuthorizationDetails params = Ok details ∧
    exchange_backchannel client ik (param params "auth_req_id") details
      (takeResourceParameters (Parameters req)).2 thumbprint w1 = (Ok result, w').
Proof.
  unfold ExchangeBackchannelAuthentication, backchannel_token_request. intros Hrun.
  apply ebind_Ok in Hrun as ([] & w1 & Hg & Hrun). apply or_fail_Ok, check_Ok in Hg as [_ ->].
  destruct takeResourceParameters as [form res].
  apply ebind_Ok in Hrun as (params & w1 & Hp & Hrun).
  apply or_fail_Ok, parseForm_Ok in Hp as [Hp ->].
  apply ebind_Ok in Hrun as ([] & w1 & Hg & Hrun). apply or_fail_Ok, check_Ok in Hg as [_ ->].
  apply ebind_Ok in Hrun as ([[client proof] ik] & w1 & Ha & Hrun). apply or_fail_Ok in Ha.
  apply ebind_Ok in Hrun as ([authReqID details] & w2 & Hc & Hrun).
  apply or_fail_Ok, lift_Ok in Hc as [Hc ->].
  apply ebind_Ok in Hrun as (thumbprint & w2 & Hb & Hrun). apply or_fail_Ok in Hb.
  apply attachNextDPoPNonceOnFailure_Ok in Hrun.
  destruct (authenticated_binding _ _ _ _ _ _ _ _ _ _ _ Ha Hb) as [Hsame Hbound].
  unfold backchannelTokenParameters in Hc. apply bind_Ok in Hc as ([] & Hperm & Hc).
  apply guard_err_Ok in Hperm. apply bind_Ok in Hc as ([] & _ & Hc).
  apply bind_Ok in Hc as (d & Hd & Hc). injection Hc as <- <-.
  exists params, client, ik, d, thumbprint, w2. simpl. rewrite Hp, Ha. done.
Qed.

Lemma issueBackchannelOptionalTokens_Ok client grant token binding result w result' w' :
  issueBackchannelOptionalTokens client grant token binding result w = (Ok result', w') →
  IDToken result = None → RefreshToken result = None →
  (is_Some (IDToken result') ↔ containsScope (g_Scope grant) "openid" = true) ∧
  (is_Some (RefreshToken result') ↔ containsScope (g_Scope grant) "offline_access" = true) ∧
  AccessToken result' = AccessToken result ∧ Scope result' = Scope result ∧
  AuthorizationDetails result' = AuthorizationDetails result.
Proof.
  unfold issueBackchannelOptionalTokens. intros Hrun Hid Hrt.
  apply ebind_Ok in Hrun as (r1 & w1 & Ho & Hrun).
  destruct (containsScope _ "openid") eqn:H1, (containsScope _ "offline_access") eqn:H2; inv_srv;
    simpl; rewrite ?Hid, ?Hrt; split_and!; try done; split; intros; try done; by destruct H.
Qed.

(** What a successful exchange establishes. *)
Lemma backchannel_exchange_Ok req w result w' :
  ExchangeBackchannelAuthentication req w = (Ok result, w') →
  ∃ params client ik thumbprint details polled hash now b b' grant accessGrant audience
      claims,
    backchannel_token_request req w = Some (params, client, ik) ∧
    presented_binding (credentials req) client thumbprint ∧ clock_reading now ∧
    (BackchannelAuthenticationRequestAlgorithm client).2 = true ∧
    presented_request client (param params "auth_req_id") ik thumbprint hash ∧
    (b = w_backchannel w ∨ ∃ p e, PollBackchannel p (w_backchannel w) = (Err e, b)) ∧
    PollBackchannel {| pba_AuthReqIDHash := hash; pba_Now := now; pba_ClientID := client_id client |}
      b = (Ok polled, b') ∧
    backchannel_redeemable client polled hash thumbprint ik grant ∧
    (∃ t, clock_reading t ∧ issuedWithin (g_IssuedAt grant)
      (BackchannelAuthenticationRequestLifetime (cfg_Limits cfg)) t = true) ∧
    (∀ k, k ∈ revocation_keys grant → ¬ revoked (w_revocation w) k) ∧
    (∀ sc, sc ∈ g_Scope grant → clientAllowsScope client sc = true) ∧
    Scope result = join " " (g_Scope grant) ∧
    accessTokenGrant grant details = Ok accessGrant ∧
    AuthorizationDetails result = g_AuthorizationDetails accessGrant ∧
    accessTokenClaims accessGrant = Some claims ∧
    issued_with (access_token_params client grant (g_Scope grant) thumbprint claims
      audience now) (g_Scope grant) result ∧
    audience_bounded client (g_Resources grant) (takeResourceParameters (Parameters req)).2 audience.
Proof.
  intros Hrun. apply ExchangeBackchannelAuthentication_Ok in Hrun
    as (params & client & ik & details & thumbprint & w0 & Hreq & (_ & Hv0 & Hb0) & Hbound & Hperm & Hd & Hrun).
  unfold exchange_backchannel in Hrun.
  apply ebind_Ok in Hrun as (now & w1 & Hnow & Hrun). pose proof (Now_reading _ _ _ Hnow) as Hread.
  apply Now_same in Hnow as (_ & Hv1 & Hb1).
  apply ebind_Ok in Hrun as ([p hash] & w2 & Hpoll & Hrun).
  apply ebind_Ok in Hrun as (polled & w3 & Hp & Hrun).
  apply or_fail_Ok, map_err_Ok, lift_Ok in Hp as [-> ->].
  apply pollBackchannelAuthentication_Ok in Hpoll as (Hpres & _ & Hv2 & b & Hfirst & Hpoll).
  rewrite Hb1, Hb0 in Hfirst.
  apply ebind_Ok in Hrun as (stored & w3 & Hg & Hrun). apply or_fail_Ok, lift_Ok in Hg as [Hg ->].
  apply (approvedBackchannelGrant_Ok _ _ hash) in Hg as Hok.
  set (grant := with_code_grant_id (backchannelGrantID hash) stored) in *.
  apply ebind_Ok in Hrun as ([accessGrant audience] & w3 & Hu & Hrun). apply or_fail_Ok in Hu.
  unfold usableGrantAudience, checkGrantUsable in Hu.
  apply ebind_Ok in Hu as ([] & w4 & Husable & Hu).
  apply narrowedAccessGrant_Ok in Hu as (Hag & Haud).
  apply ebind_Ok in Husable as (t & w5 & Ht & Husable).
  pose proof (Now_reading _ _ _ Ht) as Htread. apply Now_same in Ht as (_ & Hv3 & _).
  apply ebind_Ok in Husable as ([] & w6 & Hw & Husable). apply check_Ok in Hw as [Hw ->].
  apply ebind_Ok in Husable as ([] & w7 & Hnr & Husable). apply checkGrantNotRevoked_Ok in Hnr as [Hnr _].
  apply lift_Ok in Husable as [Hallow ->]. apply checkGrantStillAllowed_Ok in Hallow as (_ & Hsc & _).
  rewrite Hv3, Hv2, Hv1, Hv0 in Hnr.
  apply ebind_Ok in Hrun as (c & w8 & Hcl & Hrun). apply or_fail_Ok, lift_Ok in Hcl as [Hcl ->].
  unfold encode_claims in Hcl. destruct (accessTokenClaims accessGrant) as [claims|] eqn:Hc; [|done].
  injection Hcl as <-.
  apply ebind_Ok in Hrun as ([token key] & w8 & Hi & Hrun). apply or_fail_Ok in Hi.
  apply ebind_Ok in Hrun as (r1 & w9 & Hopt & Hrun). apply or_fail_Ok in Hopt.
  apply issueBackchannelOptionalTokens_Ok in Hopt as (Hid & Hrt & Hat & Hs & Had); [|done..].
  apply ebind_Ok in Hrun as (r2 & w10 & Hn & Hrun). apply or_fail_Ok in Hn.
  apply ebind_Ok in Hrun as ([] & w11 & _ & Hrun). injection Hrun as <- <-.
  unfold addNextDPoPNonce in Hn. apply ebind_Ok in Hn as (n & w12 & _ & Hn). injection Hn as <- <-.
  exists params, client, ik, thumbprint, details, polled, hash, now, b, (w_backchannel w2), grant,
    accessGrant, audience, claims. simpl. split_and!; try done.
  - by exists t.
  - unfold issued_with. simpl. split_and!; try done. rewrite Hat. simpl. eauto.
  - by apply narrowedAudience_bounded in Haud.
Qed.
(** A CIBA request yields tokens only as it was approved. When the
    exchange returns tokens, the store reported the polled request approved
    for the authenticated client, still registered for CIBA, under a digest
    of the presented auth_req_id, client instance and DPoP key; its request
    was made by that instance and, when bound to a key, with that key; its
    decision's grant is a CIBA grant of this server, under no revoked key;
    and the tokens are the grant's: its scopes, all still allowed, an
    audience of its resources, and an ID or refresh token exactly with openid
    or offline_access. *)
Theorem backchannel_exchange_authorized req w result w' :
  ExchangeBackchannelAuthentication req w = (Ok result, w') →
  ∃ params client ik thumbprint details polled hash now b b' grant accessGrant audience
      claims,
    backchannel_token_request req w = Some (params, client, ik) ∧
    presented_binding (credentials req) client thumbprint ∧ clock_reading now ∧
    (BackchannelAuthenticationRequestAlgorithm client).2 = true ∧
    presented_request client (param params "auth_req_id") ik thumbprint hash ∧
    (b = w_backchannel w ∨ ∃ p e, PollBackchannel p (w_backchannel w) = (Err e, b)) ∧
    PollBackchannel {| pba_AuthReqIDHash := hash; pba_Now := now; pba_ClientID := client_id client |}
      b = (Ok polled, b') ∧
    backchannel_redeemable client polled hash thumbprint ik grant ∧
    (∃ t, clock_reading t ∧ issuedWithin (g_IssuedAt grant)
      (BackchannelAuthenticationRequestLifetime (cfg_Limits cfg)) t = true) ∧
    (∀ k, k ∈ revocation_keys grant → ¬ revoked (w_revocation w) k) ∧
    (∀ sc, sc ∈ g_Scope grant → clientAllowsScope client sc = true) ∧
    Scope result = join " " (g_Scope grant) ∧
    accessTokenGrant grant details = Ok accessGrant ∧
    AuthorizationDetails result = g_AuthorizationDetails accessGrant ∧
    accessTokenClaims accessGrant = Some claims ∧
    issued_with (access_token_params client grant (g_Scope grant) thumbprint claims
      audience now) (g_Scope grant) result ∧
    audience_bounded client (g_Resources grant) (takeResourceParameters (Parameters req)).2 audience.
Proof. apply backchannel_exchange_Ok. Qed.
End ciba.
