(* ===== verification/EndToEnd.v ===== *)
(** Executions of the server, as sequences of calls in any order, and the
    authorization code flow from end to end: whatever calls are made, a code
    that is exchanged is one its user authorized, for a request its client
    pushed. *)
From stdpp Require Import relations.
From S2P Require Import Prelude GoStrings Json GoTime Sha256 Pkce Digests Effects Storage.
From S2P Require Import Platform ServerTypes Rar JsonCodec Nonce Records Claims Dpop Jose.
From S2P Require Import Canonical Extensions RequestObject Attestation ClientAuth.
From S2P Require Import ServerState TokenChecks Issue CodeExchange Refresh.
From S2P Require Import BackchannelToken Parameters ClaimsParameter Subjects Par.
From S2P Require Import Authorization Completion Ciba Frames FrontFrames.
From S2P Require Import TokenChecksTheorems HandlerLemmas PushTheorems CompletionTheorems.
From S2P Require Import Provenance ExchangeTheorems.
From stdpp Require Import options.

Set Default Proof Using "Type*".

Section flow.
Context `{CibaServer} `{!GrantStoreLaws GrantsT, !RevocationLaws RevocationT}.
Context `{!GrantProvenance GrantsT, !TransactionProvenance TransactionsT}.
Context `{!BackchannelProvenance BackchannelT}.

(** One call of an endpoint, with any request and any outcome; or anything
    else that creates no code, pushes no request and adds or decides no CIBA
    request: the store's housekeeping, the other endpoints, the
    environment. *)
Inductive flow_step : World → World → Prop :=
| flow_push req w r w' : PushAuthorizationRequest req w = (r, w') → flow_step w w'
| flow_begin req w r w' : Server_BeginAuthorization req w = (r, w') → flow_step w w'
| flow_complete req w r w' : Server_CompleteAuthorization req w = (r, w') → flow_step w w'
| flow_exchange req w r w' : ExchangeAuthorizationCode req w = (r, w') → flow_step w w'
| flow_refresh req w r w' : RefreshAccessToken req w = (r, w') → flow_step w w'
| flow_begin_ciba req w r w' : BeginBackchannelAuthentication req w = (r, w') → flow_step w w'
| flow_lookup_ciba h w r w' : LookupBackchannelInteraction h w = (r, w') → flow_step w w'
| flow_complete_ciba req w r w' :
    CompleteBackchannelAuthentication req w = (r, w') → flow_step w w'
| flow_exchange_ciba req w r w' :
    ExchangeBackchannelAuthentication req w = (r, w') → flow_step w w'
| flow_revoke_token req w r w' : RevokeToken req w = (r, w') → flow_step w w'
| flow_revoke_grant id w r w' : RevokeGrant id w = (r, w') → flow_step w w'
| flow_other w w' : no_new_code (w_grants w) (w_grants w') →
    no_new_push (w_transactions w) (w_transactions w') →
    no_new_bc (w_backchannel w) (w_backchannel w') → flow_step w w'.

(** * Frames *)

(** No code appears. *)
Definition no_code_added (w w' : World) : Prop := no_new_code (w_grants w) (w_grants w').
(** No pushed request appears. *)
Definition no_push_added (w w' : World) : Prop :=
  no_new_push (w_transactions w) (w_transactions w').

(** No CIBA request appears or is decided. *)
Definition no_bc_added (w w' : World) : Prop := no_new_bc (w_backchannel w) (w_backchannel w').

#[export] Instance no_bc_added_preorder : PreOrder no_bc_added.
Proof.
  split; [intros w; unfold no_bc_added; reflexivity|]. intros w1 w2 w3. unfold no_bc_added.
  apply no_new_bc_preorder.
Qed.
#[export] Instance no_code_added_preorder : PreOrder no_code_added.
Proof. split; [by intros w h c|]. intros w1 w2 w3 H12 H23 h c Hc. by apply H12, H23. Qed.
#[export] Instance no_push_added_preorder : PreOrder no_push_added.
Proof. split; [by intros w c raw|]. intros w1 w2 w3 H12 H23 c raw Hc. by apply H12, H23. Qed.

#[export] Instance no_code_added_transactions : TransactionFrame no_code_added.
Proof. split; [split|]; try (by intros; intros ? ?); apply _. Qed.
#[export] Instance no_push_added_frame : Frame no_push_added.
Proof. split; try (by intros; intros ? ?); apply _. Qed.

Lemma on_grants_no_code {E A} (m : eff GrantsT E A) :
  respects no_new_code m → respects no_code_added (on_grants m).
Proof. intros Hm. apply respects_zoom. intros w r t Hr. by apply (Hm _ _ _ Hr). Qed.

#[export] Instance no_code_added_token : TokenFrame no_code_added.
Proof.
  split; try apply _; intros; try apply on_grants_no_code.
  - apply redeem_code_no_new.
  - apply record_access_no_new.
  - apply record_refresh_no_new.
  - by apply record_tokens_no_new.
  - apply create_refresh_no_new.
  - apply redeem_refresh_no_new.
  - apply revoke_refresh_no_new.
  - apply respects_zoom. by intros ? ? ? ? ? ?.
  - apply respects_zoom. by intros ? ? ? ? ? ?.
  - apply respects_zoom. by intros ? ? ? ? ? ?.
Qed.

#[export] Instance no_push_added_token : TokenFrame no_push_added.
Proof. split; try apply _; intros; apply respects_zoom; by intros ? ? ? ? ? ?. Qed.

#[export] Instance no_bc_added_transactions : TransactionFrame no_bc_added.
Proof. split; [split|]; try (intros; unfold no_bc_added; simpl; reflexivity); apply _. Qed.

Lemma on_backchannel_no_bc {E A} (m : eff BackchannelT E A) :
  respects no_new_bc m → respects no_bc_added (on_backchannel m).
Proof. intros Hm. apply respects_zoom. intros w r t Hr. apply (Hm _ _ _ Hr). Qed.

#[export] Instance no_bc_added_token : TokenFrame no_bc_added.
Proof.
  split; try apply _; intros.
  all: try (apply on_backchannel_no_bc, poll_bc).
  all: apply respects_zoom; intros wa ra ta _; unfold no_bc_added; simpl; reflexivity.
Qed.

Lemma lookup_no_bc h : respects no_bc_added (on_backchannel (LookupBackchannelAuthentication h)).
Proof.
  apply on_backchannel_no_bc. intros s r s' Hr. apply lookup_bc_same in Hr as ->. reflexivity.
Qed.

(** ** The steps that add nothing *)

(** A step of no code, other than a completion. *)
Lemma flow_step_code w w' : flow_step w w' →
  no_code_added w w' ∨ ∃ req r, Server_CompleteAuthorization req w = (r, w').
Proof.
  intros Hstep.
  destruct Hstep as [req w r w' Hrun|req w r w' Hrun|req w r w' Hrun|req w r w' Hrun|req w r w' Hrun
    |req w r w' Hrun|h w r w' Hrun|req w r w' Hrun|req w r w' Hrun|req w r w' Hrun|id w r w' Hrun
    |w w' Hc Hp Hb].
  3: by right; eauto.
  all: left.
  - eapply (respects_PushAuthorizationRequest no_code_added); [|exact Hrun].
    intros; apply (respects_on_transactions _).
  - eapply (respects_BeginAuthorization no_code_added); [|exact Hrun].
    intros; apply (respects_on_transactions _).
  - by eapply (respects_ExchangeAuthorizationCode no_code_added).
  - by eapply (respects_RefreshAccessToken no_code_added).
  - eapply (respects_BeginBackchannelAuthentication no_code_added); [|exact Hrun].
    intros. apply respects_zoom. by intros ? ? ? ? ? ?.
  - eapply (respects_LookupBackchannelInteraction no_code_added); [|exact Hrun].
    intros. apply respects_zoom. by intros ? ? ? ? ? ?.
  - eapply (respects_CompleteBackchannelAuthentication no_code_added); [..|exact Hrun];
      intros; apply respects_zoom; by intros ? ? ? ? ? ?.
  - by eapply (respects_ExchangeBackchannelAuthentication no_code_added).
  - by eapply (respects_RevokeToken no_code_added).
  - by eapply (respects_RevokeGrant no_code_added).
  - done.
Qed.

(** A step of no pushed request, other than a push. *)
Lemma flow_step_push w w' : flow_step w w' →
  no_push_added w w' ∨ ∃ req r, PushAuthorizationRequest req w = (r, w').
Proof.
  intros Hstep.
  destruct Hstep as [req w r w' Hrun|req w r w' Hrun|req w r w' Hrun|req w r w' Hrun|req w r w' Hrun
    |req w r w' Hrun|h w r w' Hrun|req w r w' Hrun|req w r w' Hrun|req w r w' Hrun|id w r w' Hrun
    |w w' Hc Hp Hb].
  1: by right; eauto.
  all: left.
  - eapply (respects_BeginAuthorization no_push_added); [|exact Hrun]. intros b.
    apply respects_zoom. intros w1 r1 t Hr. apply (begin_no_new _ _ _ _ Hr).
  - eapply (respects_CompleteAuthorization no_push_added); [..|exact Hrun]; intros.
    + apply respects_zoom. intros w1 r1 t Hr. apply (complete_no_new _ _ _ _ Hr).
    + apply (respects_issue_code _). intros c. apply respects_zoom. by intros ? ? ? ? ? ?.
  - by eapply (respects_ExchangeAuthorizationCode no_push_added).
  - by eapply (respects_RefreshAccessToken no_push_added).
  - eapply (respects_BeginBackchannelAuthentication no_push_added); [|exact Hrun].
    intros. apply respects_zoom. by intros ? ? ? ? ? ?.
  - eapply (respects_LookupBackchannelInteraction no_push_added); [|exact Hrun].
    intros. apply respects_zoom. by intros ? ? ? ? ? ?.
  - eapply (respects_CompleteBackchannelAuthentication no_push_added); [..|exact Hrun];
      intros; apply respects_zoom; by intros ? ? ? ? ? ?.
  - by eapply (respects_ExchangeBackchannelAuthentication no_push_added).
  - by eapply (respects_RevokeToken no_push_added).
  - by eapply (respects_RevokeGrant no_push_added).
  - done.
Qed.

(** A step of no CIBA request or decision, other than one of the CIBA
    endpoints that write them. *)
Lemma flow_step_bc w w' : flow_step w w' →
  no_bc_added w w' ∨
  (∃ req r, BeginBackchannelAuthentication req w = (r, w')) ∨
  (∃ req r, CompleteBackchannelAuthentication req w = (r, w')).
Proof.
  intros Hstep.
  destruct Hstep as [req w r w' Hrun|req w r w' Hrun|req w r w' Hrun|req w r w' Hrun|req w r w' Hrun
    |req w r w' Hrun|h w r w' Hrun|req w r w' Hrun|req w r w' Hrun|req w r w' Hrun|id w r w' Hrun
    |w w' Hc Hp Hb].
  6: by right; left; eauto.
  7: by right; right; eauto.
  all: left.
  - eapply (respects_PushAuthorizationRequest no_bc_added); [|exact Hrun].
    intros; apply (respects_on_transactions _).
  - eapply (respects_BeginAuthorization no_bc_added); [|exact Hrun].
    intros; apply (respects_on_transactions _).
  - eapply (respects_CompleteAuthorization no_bc_added); [..|exact Hrun]; intros.
    + apply (respects_on_transactions _).
    + apply (respects_issue_code _). intros c. apply respects_zoom.
      intros; unfold no_bc_added; simpl; reflexivity.
  - by eapply (respects_ExchangeAuthorizationCode no_bc_added).
  - by eapply (respects_RefreshAccessToken no_bc_added).
  - eapply (respects_LookupBackchannelInteraction no_bc_added); [|exact Hrun]. apply lookup_no_bc.
  - by eapply (respects_ExchangeBackchannelAuthentication no_bc_added).
  - by eapply (respects_RevokeToken no_bc_added).
  - by eapply (respects_RevokeGrant no_bc_added).
  - done.
Qed.
End flow.

Section flow.
Context `{CibaServer} `{!GrantStoreLaws GrantsT, !RevocationLaws RevocationT}.
Context `{!GrantProvenance GrantsT, !TransactionProvenance TransactionsT}.
Context `{!BackchannelProvenance BackchannelT}.

(** * The history of a code *)

Section history.
Context (start : World).

(** Before [w], the client pushed this request, which the server stored. *)
Definition pushed_before (w : World) (clientID : ClientID) (raw : RawMessage)
    (req : TokenRequest) (client : RegisteredClient) (record : requestRecord) : Prop :=
  ∃ w1 r w2 form proof,
    rtc flow_step start w1 ∧ PushAuthorizationRequest req w1 = (r, w2) ∧ rtc flow_step w2 w ∧
    authenticated_request req w1 = Some (form, client, proof, rq_ClientInstanceKey record) ∧
    client_id client = clientID ∧
    pushed_ok client form (takeResourceParameters (Parameters req)).2 proof
      (rq_ClientInstanceKey record) record ∧
    encodeRequestRecord (cfg_Issuer cfg) record = Some raw.

(** Before [w], a user authorized the pushed request, for the code [nac]
    under the digest [h]. *)
Definition authorized_before (w : World) (h : digest) (nac : NewAuthorizationCode)
    (push : TokenRequest) (pusher : RegisteredClient) (request : requestRecord)
    (subject : AuthenticatedSubject) (auth : AuthenticationContext) (grant : GrantedAuthorization)
    (g : grantRecord) : Prop :=
  ∃ creq w1 r w2 raw record code,
    rtc flow_step start w1 ∧ Server_CompleteAuthorization creq w1 = (r, w2) ∧ rtc flow_step w2 w ∧
    car_Result creq = Some (authorizeResult subject auth grant) ∧
    pushed_before w1 (nac_ClientID nac) raw push pusher record ∧
    request = stamped_request (cfg_Issuer cfg) record ∧
    code_granted (nac_ClientID nac) request subject auth grant g ∧
    encodeGrantRecord (cfg_Issuer cfg) g = Some (nac_Grant nac) ∧
    h = authorizationCodeHash code (rq_ClientInstanceKey request).

(** What the stores hold has such a history. *)
Definition history (w : World) : Prop :=
  (∀ clientID raw, push_record (w_transactions w) clientID raw →
    ∃ req client record, pushed_before w clientID raw req client record) ∧
  (∀ h nac, code_record (w_grants w) h nac →
    ∃ push pusher request subject auth grant g,
      authorized_before w h nac push pusher request subject auth grant g).

Lemma pushed_before_step w w' clientID raw req client record :
  flow_step w w' → pushed_before w clientID raw req client record →
  pushed_before w' clientID raw req client record.
Proof.
  intros Hstep (w1 & r & w2 & form & proof & H1 & H2 & H3 & H4).
  exists w1, r, w2, form, proof. split_and!; try done; [by eapply rtc_r|apply H4..].
Qed.

Lemma authorized_before_step w w' h nac push pusher request subject auth grant g :
  flow_step w w' → authorized_before w h nac push pusher request subject auth grant g →
  authorized_before w' h nac push pusher request subject auth grant g.
Proof.
  intros Hstep (creq & w1 & r & w2 & raw & record & code & H1 & H2 & H3 & H4).
  exists creq, w1, r, w2, raw, record, code. split_and!; try done; [by eapply rtc_r|apply H4..].
Qed.

(** A step that adds neither a code nor a pushed request keeps the history. *)
Lemma history_quiet w w' :
  flow_step w w' → history w → no_code_added w w' → no_push_added w w' → history w'.
Proof.
  intros Hstep [Hp Hc] Hcode Hpush. split.
  - intros clientID raw Hr. apply Hpush, Hp in Hr as (req & client & record & Hr).
    exists req, client, record. by apply (pushed_before_step w).
  - intros h nac Hr. apply Hcode, Hc in Hr as (push & pusher & request & subject & auth & grant & g & Hr).
    exists push, pusher, request, subject, auth, grant, g. by apply (authorized_before_step w).
Qed.

Lemma history_push req w r w' :
  rtc flow_step start w → history w → PushAuthorizationRequest req w = (r, w') → history w'.
Proof.
  intros Hstart Hh Hrun. assert (Hstep : flow_step w w') by (by eapply flow_push).
  assert (Hcode : no_code_added w w') by by (eapply (respects_PushAuthorizationRequest no_code_added); [|exact Hrun];
    intros; apply (respects_on_transactions _)).
  destruct (PushAuthorizationRequest_writes _ _ _ _ Hrun) as [Hsame|Hpush].
  { apply (history_quiet w); try done. unfold no_push_added. by rewrite Hsame. }
  split; [|intros h nac Hc; destruct Hh as [_ Hh]; apply Hcode, Hh in Hc
    as (p & pc & rq & su & au & gr & g & Hc); exists p, pc, rq, su, au, gr, g; by apply (authorized_before_step w)].
  destruct Hpush as (form & client & proof & ik & record & reference & now & p & answer & Hauth & Hok &
    (_ & Hid & Henc & _) & Hcreate).
  intros clientID raw Hr. destruct (create_par_record _ _ _ _ Hcreate _ _ Hr) as [Hold|[-> ->]].
  - destruct Hh as [Hh _]. apply Hh in Hold as (req' & client' & record' & Hold).
    exists req', client', record'. by apply (pushed_before_step w).
  - exists req, client, record, w, r, w', form, proof. destruct Hok. subst ik. by split_and!.
Qed.

Lemma history_complete creq w r w' :
  rtc flow_step start w → history w → Server_CompleteAuthorization creq w = (r, w') → history w'.
Proof.
  intros Hstart Hh Hrun. assert (Hstep : flow_step w w') by (by eapply flow_complete).
  assert (Hpush : no_push_added w w').
  { eapply (respects_CompleteAuthorization no_push_added); [..|exact Hrun]; intros.
    - apply respects_zoom. intros w1 r1 t Hr. apply (complete_no_new _ _ _ _ Hr).
    - apply (respects_issue_code _). intros c. apply respects_zoom. by intros ? ? ? ? ? ?. }
  destruct (completion_writes _ _ _ _ Hrun) as [Hsame|(completed & t & Hc & Hstored)].
  { apply (history_quiet w); try done. unfold no_code_added. by rewrite Hsame. }
  split; [intros clientID raw Hr; apply Hpush, Hh in Hr as (req & client & record & Hr);
    exists req, client, record; by apply (pushed_before_step w)|].
  intros h nac Hr. destruct Hstored as (request & subject & auth & grant & Hres & Hdec & _ & Hstored).
  destruct Hstored as (g & code & nac' & now & answer & Hgranted & Henc & Hid & Hhash & _ & _ & Hcreate).
  destruct (create_code_record _ _ _ _ Hcreate _ _ Hr) as [Hold|[-> ->]].
  - apply Hh in Hold as (p & pc & rq & su & au & gr & g' & Hold).
    exists p, pc, rq, su, au, gr, g'. by apply (authorized_before_step w).
  - apply complete_record, Hh in Hc as (req & client & record & Hpushed). rewrite <-Hid in Hpushed, Hgranted.
    exists req, client, request, subject, auth, grant, g, creq, w, r, w', (ci_Request completed), record, code.
    assert (Hrec : request = stamped_request (cfg_Issuer cfg) record).
    { destruct Hpushed as (? & ? & ? & ? & ? & _ & _ & _ & _ & _ & Hok & Hraw).
      unfold decodeOwnRequestRecord in Hdec.
      rewrite (decode_encoded_request _ _ _ Hraw) in Hdec by apply Hok.
      destruct (ownsRecord _ _); [by injection Hdec|done]. }
    by split_and!.
Qed.

Lemma history_step w w' : rtc flow_step start w → history w → flow_step w w' → history w'.
Proof.
  intros Hstart Hh Hstep. destruct (flow_step_code _ _ Hstep) as [Hcode|(req & r & Hrun)];
    [|by eapply history_complete].
  destruct (flow_step_push _ _ Hstep) as [Hpush|(req & r & Hrun)]; [|by eapply history_push].
  by apply (history_quiet w).
Qed.

(** Nothing issued, nothing pushed. *)
Definition fresh (w : World) : Prop :=
  (∀ h c, ¬ code_record (w_grants w) h c) ∧ (∀ c raw, ¬ push_record (w_transactions w) c raw).

Lemma flow_history w : fresh start → rtc flow_step start w → history w.
Proof.
  intros [Hc Hp]. apply (rtc_ind_r (λ w, history w)).
  - split; [intros clientID raw Hr|intros h nac Hr]; exfalso; naive_solver.
  - intros w1 w2 Hstart Hstep Hh. by apply (history_step w1).
Qed.

(** C1. Tokens come only from a code its user authorized, for a request its
    client pushed. From a server that has issued no code and stored no
    request, whatever calls of the endpoints and other changes of the world
    follow, when an exchange returns tokens then earlier the same client,
    authenticated with the same Client Instance Key, pushed an authorization
    request, well-formed and its own; later the application completed an
    interaction for it with a user's authorization, by an authentication
    that meets it; and the exchange named the pushed redirect_uri, had a
    code_verifier for the pushed code_challenge, and was bound to the pushed
    DPoP key if there was one; the tokens' scopes are pushed ones, allowed
    to the client when it pushed them and still at the exchange. *)
Theorem exchanged_code_was_authorized w req result w' :
  fresh start → rtc flow_step start w → ExchangeAuthorizationCode req w = (Ok result, w') →
  ∃ params client ik thumbprint,
    exchange_request req w = Some (params, client, ik) ∧
    presented_binding (credentials req) client thumbprint ∧
  ∃ nac push pusher record subject auth grant g jkt,
    authorized_before w (presented_code params ik) nac push pusher
      (stamped_request (cfg_Issuer cfg) record) subject auth grant g ∧
    client_id pusher = client_id client ∧ request_wellformed pusher (rq_Parameters record) ∧
    rq_ClientInstanceKey record = ik ∧
    jsonString (rq_Parameters record) "redirect_uri" = Some (param params "redirect_uri") ∧
    (∃ challenge, jsonString (rq_Parameters record) "code_challenge" = Some challenge ∧
       Challenge (param params "code_verifier") S256 = Ok challenge) ∧
    optionalJSONString (rq_Parameters record) "dpop_jkt" = Some jkt ∧
    (jkt = "" ∨ jkt = thumbprint) ∧
    (∃ clientSub, authentication_meets (stamped_request (cfg_Issuer cfg) record) auth clientSub) ∧
    Scope result = join " " (g_Scope g) ∧
    ∀ sc, sc ∈ g_Scope g → sc ∈ pushed_scope record ∧
      clientAllowsScope pusher sc = true ∧ clientAllowsScope client sc = true.
Proof.
  intros Hfresh Hsteps Hrun. destruct (flow_history _ Hfresh Hsteps) as [_ Hcodes].
  apply ExchangeAuthorizationCode_Ok in Hrun
    as (params & client & ik & details & thumbprint & w1 & Hreq & (Hg & _) & Hbound & _ & Hrun).
  exists params, client, ik, thumbprint. split; [done|]. split; [done|].
  apply exchange_code_Ok in Hrun as (redeemed & t & now & grant' & accessGrant & audience & claims & wa &
    wb & Hr & Hok & _ & _ & Hallow & _ & _ & _ & _ & Hs & _).
  apply checkGrantStillAllowed_Ok in Hallow as (_ & Hsc & _). rewrite Hg in Hr.
  destruct (redeem_code_record _ _ _ _ Hr) as (nac & Hnac & Hrid & Hrgrant & _).
  apply Hcodes in Hnac as (push & pusher & request & subject & auth & grant & g & Hauth).
  pose proof Hauth as (creq & wc & rc & wd & raw & record & code & _ & _ & _ & _ & Hpushed & -> & Hgr &
    Henc & _).
  destruct Hpushed as (wp & rp & wp' & form & proof & _ & _ & _ & _ & Hpid & Hpok & _).
  destruct Hok as ((stored & Hdec & _ & Hgrant') & Hcid & _ & _ & Huri & _ & _ & Hch & Hjkt & Hik).
  assert (Hst : stored = stamped_grant (cfg_Issuer cfg) g).
  { unfold decodeOwnGrantRecord in Hdec. rewrite Hrgrant in Hdec.
    rewrite (decode_encoded_grant _ _ _ Henc) in Hdec by (apply Hgr, Hpok).
    destruct (ownsRecord _ _); [by injection Hdec|done]. }
  assert (Hfields : g_RedirectURI grant' = g_RedirectURI g ∧ g_CodeChallenge grant' = g_CodeChallenge g ∧
    g_DPoPJKT grant' = g_DPoPJKT g ∧ g_ClientInstanceKey grant' = g_ClientInstanceKey g ∧
    g_Scope grant' = g_Scope g) by (subst stored; destruct grantRevocationReader; by subst grant').
  destruct Hfields as (Hf1 & Hf2 & Hf3 & Hf4 & Hf5). simpl in Hch, Huri, Hjkt, Hik.
  rewrite Hf1 in Huri. rewrite Hf2 in Hch. rewrite Hf3 in Hjkt. rewrite Hf4 in Hik. rewrite Hf5 in Hs, Hsc.
  exists nac, push, pusher, record, subject, auth, grant, g, (g_DPoPJKT g).
  destruct Hgr as [_ Hg1 Hg2 _ Hg3 Hg4 _ _ (approved & Hwithin & Hscope & _) (clientSub & sector & _ & Hm & _) _ _].
  split_and!; try done.
  - congruence.
  - apply Hpok.
  - by rewrite <-Hik, Hg4.
  - rewrite <-Huri. exact Hg1.
  - by exists (g_CodeChallenge g).
  - by exists clientSub.
  - intros sc Hin. assert (Hpin : sc ∈ pushed_scope record) by (apply Hwithin; congruence).
    split; [done|]. split; [|by apply Hsc]. by apply Hpok.
Qed.
End history.
End flow.
