(* ===== verification/CibaEndToEnd.v ===== *)
(** CIBA from end to end: whatever calls are made, a CIBA request that yields
    tokens is one its client signed and sent, and its user approved. *)
From stdpp Require Import relations.
From S2P Require Import Prelude GoStrings Json GoTime Sha256 Pkce Platform JsonCodec.
From S2P Require Import Digests Effects Storage ServerTypes Rar Nonce Records Claims.
From S2P Require Import Canonical.
From S2P Require Import Dpop Jose Extensions RequestObject Attestation.
From S2P Require Import ClientAuth.
From S2P Require Import ServerState TokenChecks Issue TokenChecksTheorems.
From S2P Require Import CodeExchange Refresh BackchannelToken Parameters.
From S2P Require Import ClaimsParameter Subjects Par Authorization Completion Ciba Frames.
From S2P Require Import FrontFrames HandlerLemmas PushTheorems.
From S2P Require Import CompletionTheorems CibaRequestTheorems Provenance.
From S2P Require Import CibaDecisionTheorems.
From S2P Require Import CibaTheorems EndToEnd.
From stdpp Require Import options.

Set Default Proof Using "Type*".

Section ciba_flow.
Context `{CibaServer} `{!GrantStoreLaws GrantsT, !RevocationLaws RevocationT}.
Context `{!GrantProvenance GrantsT, !TransactionProvenance TransactionsT}.
Context `{!BackchannelProvenance BackchannelT}.

Section history.
Context (start : World).

(** Before [w], the client sent this backchannel authentication request,
    which the server stored. *)
Definition asked_before (w : World) (n : BackchannelRequest) (req : TokenRequest)
    (client : RegisteredClient) (record : requestRecord) : Prop :=
  ∃ w1 r w2 form proof authReqID handle m,
    rtc flow_step start w1 ∧ BeginBackchannelAuthentication req w1 = (r, w2) ∧ rtc flow_step w2 w ∧
    authenticated_backchannel req w1 = Some (form, client, proof, rq_ClientInstanceKey record) ∧
    backchannel_ok client form proof (rq_ClientInstanceKey record) record ∧
    stored_backchannel client record authReqID handle m ∧ n = request_of m.

(** Before [w], the application reported that the user approved the request,
    which stored the grant [raw]. *)
Definition approved_before (w : World) (n : BackchannelRequest) (raw : RawMessage)
    (asked : TokenRequest) (asker : RegisteredClient) (record : requestRecord)
    (subject : AuthenticatedSubject) (auth : AuthenticationContext) (grant : GrantedAuthorization)
    (g : grantRecord) : Prop :=
  ∃ creq w1 r w2,
    rtc flow_step start w1 ∧ CompleteBackchannelAuthentication creq w1 = (r, w2) ∧
    rtc flow_step w2 w ∧ cbr_Result creq = Some (authorizeResult subject auth grant) ∧
    asked_before w1 n asked asker record ∧
    backchannel_granted (br_ClientID n) (stamped_request (cfg_Issuer cfg) record) subject auth grant g ∧
    encodeGrantRecord (cfg_Issuer cfg) g = Some raw.

(** What the backchannel store holds has such a history. *)
Definition ciba_history (w : World) : Prop :=
  bc_wf (w_backchannel w) ∧
  ∀ n d, bc_record (w_backchannel w) n d →
    (∃ req client record, asked_before w n req client record) ∧
    ∀ raw, d = Some (BackchannelAuthenticationApproved, raw) →
      ∃ asked asker record subject auth grant g,
        approved_before w n raw asked asker record subject auth grant g.

Lemma asked_before_step w w' n req client record :
  flow_step w w' → asked_before w n req client record → asked_before w' n req client record.
Proof.
  intros Hstep (w1 & r & w2 & form & proof & a & h & m & H1 & H2 & H3 & H4).
  exists w1, r, w2, form, proof, a, h, m. split_and!; try done; [by eapply rtc_r|apply H4..].
Qed.

Lemma approved_before_step w w' n raw asked asker record subject auth grant g :
  flow_step w w' → approved_before w n raw asked asker record subject auth grant g →
  approved_before w' n raw asked asker record subject auth grant g.
Proof.
  intros Hstep (creq & w1 & r & w2 & H1 & H2 & H3 & H4).
  exists creq, w1, r, w2. split_and!; try done; [by eapply rtc_r|apply H4..].
Qed.

(** A record already held keeps its history. *)
Lemma ciba_history_old w w' n d :
  flow_step w w' → ciba_history w → bc_record (w_backchannel w) n d →
  (∃ req client record, asked_before w' n req client record) ∧
  ∀ raw, d = Some (BackchannelAuthenticationApproved, raw) →
    ∃ asked asker record subject auth grant g,
      approved_before w' n raw asked asker record subject auth grant g.
Proof.
  intros Hstep [_ Hh] Hr. apply Hh in Hr as [(req & client & record & Hr) Hd]. split.
  - exists req, client, record. by apply (asked_before_step w).
  - intros raw Hraw. apply Hd in Hraw as (a & ak & rc & su & au & gr & g & Hraw).
    exists a, ak, rc, su, au, gr, g. by apply (approved_before_step w).
Qed.

Lemma ciba_history_quiet w w' :
  flow_step w w' → ciba_history w → no_bc_added w w' → ciba_history w'.
Proof.
  intros Hstep Hh Hbc. pose proof Hh as [Hwf _]. destruct (Hbc Hwf) as [Hwf' Hsub].
  split; [done|]. intros n d Hr. by eapply ciba_history_old, Hsub.
Qed.

Lemma same_no_bc_added w w' : same w_backchannel w w' → no_bc_added w w'.
Proof. unfold same, no_bc_added. intros ->. reflexivity. Qed.

Lemma ciba_history_begin req w r w' :
  rtc flow_step start w → ciba_history w → BeginBackchannelAuthentication req w = (r, w') →
  ciba_history w'.
Proof.
  intros Hstart Hh Hrun. assert (Hstep : flow_step w w') by (by eapply flow_begin_ciba).
  destruct (BeginBackchannel_writes _ _ _ _ Hrun) as [Hsame|(form & client & proof & ik & Hauth & Hst)].
  { by apply (ciba_history_quiet w), same_no_bc_added. }
  destruct Hst as (record & authReqID & handle & m & answer & Hok & Hstored & Hcreate).
  pose proof Hh as [Hwf _]. destruct (create_bc _ _ _ _ Hcreate Hwf) as [Hwf' Hnew].
  split; [done|]. intros n d [Hold|[-> ->]]%Hnew; [by eapply ciba_history_old|].
  split; [|done]. destruct Hok. subst ik.
  exists req, client, record, w, r, w', form, proof, authReqID, handle, m. by split_and!.
Qed.

(** The stored request is the one its record encodes. *)
Lemma asked_request w n req client record request :
  asked_before w n req client record →
  decodeOwnRequestRecord (cfg_Issuer cfg) (br_Request n) = Ok request →
  request = stamped_request (cfg_Issuer cfg) record.
Proof.
  intros (w1 & r & w2 & form & proof & a & h & m & _ & _ & _ & _ & Hok & Hst & ->) Hdec.
  destruct Hst as (raw & expiresAt & Henc & _ & ->). simpl in Hdec.
  unfold decodeOwnRequestRecord in Hdec.
  rewrite (decode_encoded_request _ _ _ Henc) in Hdec by apply Hok.
  destruct (ownsRecord _ _); [by injection Hdec|done].
Qed.

Lemma ciba_history_complete creq w r w' :
  rtc flow_step start w → ciba_history w → CompleteBackchannelAuthentication creq w = (r, w') →
  ciba_history w'.
Proof.
  intros Hstart Hh Hrun. assert (Hstep : flow_step w w') by (by eapply flow_complete_ciba).
  destruct (CompleteBackchannel_writes _ _ _ _ Hrun) as [Hsame|Hmade].
  { by apply (ciba_history_quiet w), same_no_bc_added. }
  destruct Hmade as (pending & request & d & answer & Hl & Hdec & _ & Hhandle & Hok & Hdecide).
  pose proof Hh as [Hwf Hrec]. destruct (decide_bc _ _ _ _ Hdecide Hwf) as [Hwf' Hnew].
  split; [done|]. intros n d' [Hold|(-> & Hnone & Hlook)]%Hnew; [by eapply ciba_history_old|].
  destruct (Hrec _ _ Hnone) as [(req & client & record & Hasked) _].
  rewrite Hhandle, Hl in Hlook. injection Hlook as ->. simpl in *.
  split; [exists req, client, record; by apply (asked_before_step w)|].
  intros raw [= Happ <-]. destruct Hok as [(_ & subject & auth & grant & g & Hres & Hg & Henc)|[[Hno|Hno] _]];
    [|rewrite Happ in Hno; discriminate Hno..].
  rewrite (asked_request _ _ _ _ _ _ Hasked Hdec) in Hg.
  exists req, client, record, subject, auth, grant, g, creq, w, r, w'. by split_and!.
Qed.

(** No CIBA request yet. *)
Definition no_ciba (w : World) : Prop :=
  bc_wf (w_backchannel w) ∧ ∀ n d, ¬ bc_record (w_backchannel w) n d.

Lemma flow_ciba_history w : no_ciba start → rtc flow_step start w → ciba_history w.
Proof.
  intros [Hwf Hnone]. apply (rtc_ind_r (λ w, ciba_history w)).
  - split; [done|]. intros n d Hr. exfalso. by eapply Hnone.
  - intros w1 w2 Hstart Hstep Hh.
    destruct (flow_step_bc _ _ Hstep) as [Hbc|[(req & r & Hrun)|(req & r & Hrun)]].
    + by apply (ciba_history_quiet w1).
    + by eapply ciba_history_begin.
    + by eapply ciba_history_complete.
Qed.

(** A poll of the store, after another that may have failed. *)
Lemma polled_history w b p polled b' :
  ciba_history w →
  (b = w_backchannel w ∨ ∃ p e, PollBackchannel p (w_backchannel w) = (Err e, b)) →
  PollBackchannel p b = (Ok polled, b') → plb_Status polled = BackchannelAuthenticationApproved →
  ∃ n asked asker record subject auth grant g,
    approved_before w n (plb_Grant polled) asked asker record subject auth grant g ∧
    br_AuthReqIDHash n = pba_AuthReqIDHash p ∧ br_ClientID n = plb_ClientID polled ∧
    br_Request n = plb_Request polled.
Proof.
  intros [Hwf Hh] Hb Hpoll Happ.
  destruct (poll_bc_record _ _ _ _ Hpoll) as (n & d & Hr & Hhash & Hid & Hreq & Hrep).
  assert (Hr' : bc_record (w_backchannel w) n d).
  { destruct Hb as [->|(p0 & e & Hb)]; [done|]. by apply (poll_bc _ _ _ _ Hb). }
  destruct d as [[st raw]|]; simpl in Hrep; [|by rewrite Hrep in Happ].
  destruct Hrep as [Hst Hraw]. rewrite Happ in Hst. subst st.
  destruct (Hh _ _ Hr') as [_ Hap]. destruct (Hap _ eq_refl) as (a & ak & rc & su & au & gr & g & Hbefore).
  exists n, a, ak, rc, su, au, gr, g. rewrite Hraw. by split_and!.
Qed.

(** C2. CIBA tokens come only from a request its client signed and its user
    approved. From a server with no CIBA request, whatever calls of the
    endpoints and other changes of the world follow, when a CIBA exchange
    returns tokens then earlier the same client, authenticated with the same
    Client Instance Key, sent a backchannel authentication request, signed by
    a key of its own and well-formed, under the auth_req_id now presented;
    later the application reported a user's approval of it, by an
    authentication that meets the acr and the user it required; the exchange
    is bound to the request's DPoP key if there was one; and the tokens'
    scopes are requested and approved ones, allowed to the client when it
    asked and still at the exchange. *)
Theorem exchanged_auth_req_was_approved w req result w' :
  no_ciba start → rtc flow_step start w →
  ExchangeBackchannelAuthentication req w = (Ok result, w') →
  ∃ params client ik thumbprint,
    backchannel_token_request req w = Some (params, client, ik) ∧
    presented_binding (credentials req) client thumbprint ∧
  ∃ n raw asked asker record subject auth grant g,
    approved_before w n raw asked asker record subject auth grant g ∧
    presented_request client (param params "auth_req_id") ik thumbprint (br_AuthReqIDHash n) ∧
    client_id asker = client_id client ∧ backchannel_wellformed asker (rq_Parameters record) ∧
    rq_ClientInstanceKey record = ik ∧
    (rq_DPoPJKT record = "" ∨ rq_DPoPJKT record = thumbprint) ∧
    (∃ clientSub, backchannel_meets (stamped_request (cfg_Issuer cfg) record) auth clientSub) ∧
    Scope result = join " " (g_Scope g) ∧
    ∀ sc, sc ∈ g_Scope g → sc ∈ ga_Scope grant ∧ sc ∈ pushed_scope record ∧
      clientAllowsScope asker sc = true ∧ clientAllowsScope client sc = true.
Proof.
  intros Hfresh Hsteps Hrun. pose proof (flow_ciba_history _ Hfresh Hsteps) as Hh.
  apply backchannel_exchange_Ok in Hrun as (params & client & ik & thumbprint & details & polled & hash &
    now & b & b' & grant' & accessGrant & audience & claims & Hreq & Hbound & _ & _ & Hpres & Hb & Hpoll &
    Hred & _ & _ & Hallow & Hscope & _).
  exists params, client, ik, thumbprint. split; [done|]. split; [done|].
  destruct Hred as (Hcid & Happ & (request & Hdec & Hik & Hjkt) & (stored & Hgdec & _ & Hgrant)).
  destruct (polled_history _ _ _ _ _ Hh Hb Hpoll Happ) as (n & asked & asker & record & subject & auth &
    grant & g & Hbefore & Hhash & Hid & Hraw).
  exists n, (plb_Grant polled), asked, asker, record, subject, auth, grant, g. split; [done|].
  destruct Hbefore as (creq & w1 & r & w2 & _ & _ & _ & _ & Hasked & Hg & Henc).
  pose proof Hasked as (wa & ra & wb & form & proof & a & h & m & _ & _ & _ & _ & Hok & Hst & Hn).
  rewrite <-Hraw in Hdec. rewrite (asked_request _ _ _ _ _ _ Hasked Hdec) in Hik, Hjkt.
  assert (Hs : g_Scope grant' = g_Scope g).
  { unfold decodeOwnGrantRecord in Hgdec. rewrite (decode_encoded_grant _ _ _ Henc) in Hgdec
      by (apply Hg, Hok). destruct (ownsRecord _ _); [injection Hgdec as <-|done]. by rewrite Hgrant. }
  rewrite Hs in Hallow, Hscope.
  destruct Hg as [_ _ _ _ (approved & Hwithin & Hgs & _) _ (clientSub & sector & _ & Hm & _) _ _].
  split_and!; try done.
  - by rewrite Hhash.
  - destruct Hst as (raw & e & _ & _ & ->). subst n. simpl in Hid. congruence.
  - apply Hok.
  - by exists clientSub.
  - intros sc Hin. rewrite Hgs in Hin. assert (Hreqd : sc ∈ pushed_scope record) by by apply Hwithin.
    split; [done|]. split; [done|]. split; [|apply Hallow; by rewrite Hgs].
    destruct (bw_scope _ _ (bok_wellformed _ _ _ _ _ Hok)) as (scope & Hj & _ & Hsc).
    apply Hsc. unfold pushed_scope in Hreqd. by rewrite Hj in Hreqd.
Qed.
End history.
End ciba_flow.
