(* ===== verification/ResourceEndToEnd.v ===== *)
(** The authorization server and the resource servers beside it: an opaque
    access token means to a resource server what the token endpoint issued it
    for, and what the authorization server revokes no resource server accepts
    again. *)
From stdpp Require Import relations.
From S2P Require Import Prelude GoStrings Json GoTime Sha256 Base64 Pkce Digests Platform.
From S2P Require Import Effects Storage ServerTypes JsonCodec Nonce Records Claims Dpop.
From S2P Require Import Jose.
From S2P Require Import Canonical Extensions Attestation ClientAuth ServerState.
From S2P Require Import TokenChecks.
From S2P Require Import Issue CodeExchange HandlerLemmas.
From S2P Require Import Tokens Subjects Resource ResourceTheorems ExchangeTheorems.
From stdpp Require Import options.

Set Default Proof Using "Type*".

(** * Opaque access tokens *)

Section tokens.
Context {S : Server} `{!AccessTokenLaws Env}.

(** The audience an issued token is for. *)
Definition issued_audiences (p : AccessTokenParams) : list string :=
  if bool_decide (atp_Audiences p = []) && negb (bool_decide (atp_Audience p = ""))
  then [atp_Audience p] else atp_Audiences p.

Definition issued_subject (p : AccessTokenParams) : string :=
  if negb (bool_decide (atp_InternalSubject p = "")) then atp_InternalSubject p
  else atp_Subject p.

(** The claims an issued token carries: its own, with the subject its client
    knows when that is not the internal one. *)
Definition issued_claims (p : AccessTokenParams) : gmap string RawMessage :=
  if negb (bool_decide (atp_InternalSubject p = ""))
  then <[ClientSubjectClaim := Raw (JStr (atp_Subject p))]> (atp_Claims p) else atp_Claims p.

Definition issued_record (p : AccessTokenParams) (raw : string) : NewAccessToken := {|
  nat_TokenHash := sha256 raw; nat_ClientID := atp_ClientID p; nat_Subject := issued_subject p;
  nat_Scope := atp_Scope p; nat_Thumbprint := atp_Thumbprint p;
  nat_SenderConstrain := atp_SenderConstrain p; nat_Claims := opaque_record_claims p;
  nat_ExpiresAt := Add (atp_Now p) (atp_Lifetime p) |}.

(** What a resource server reads of the token. *)
Definition issued_as (p : AccessTokenParams) (raw : string) : Resource.ResolvedAccessToken := {|
  Resource.rt_Subject := issued_subject p; Resource.rt_ClientID := atp_ClientID p;
  Resource.rt_Scopes := atp_Scope p; Resource.rt_Claims := issued_claims p;
  Resource.rt_ExpiresAt := Add (atp_Now p) (atp_Lifetime p);
  Resource.rt_Thumbprint := atp_Thumbprint p;
  Resource.rt_SenderConstrain := atp_SenderConstrain p;
  Resource.rt_Key := hex_encode (sha256 raw); Resource.rt_Issuer := atp_Issuer p;
  Resource.rt_Audience := issued_audiences p; Resource.rt_IssuedAt := zero_time |}.

(** The claims the token server reserves for the record's own use. *)
Definition record_claims_free (p : AccessTokenParams) : Prop :=
  atp_Claims p !! IssuerRecordClaim = None ∧ atp_Claims p !! AudienceRecordClaim = None ∧
  atp_Claims p !! ClientSubjectClaim = None.

Lemma issued_claims_free p name :
  name ≠ ClientSubjectClaim → atp_Claims p !! name = None → issued_claims p !! name = None.
Proof.
  intros Hne Hn. unfold issued_claims. destruct (negb _); [|done]. by rewrite lookup_insert_ne.
Qed.

(** The record's issuer and audience read back, and leave the claims. *)
Lemma recorded_issued p :
  record_claims_free p → atp_Issuer p ≠ "" →
  Resource.recordedIssuerAndAudience (opaque_record_claims p) =
    Some (issued_claims p, atp_Issuer p, issued_audiences p).
Proof.
  intros (Hi & Ha & _) Hne.
  apply (issued_claims_free p IssuerRecordClaim) in Hi; [|done].
  apply (issued_claims_free p AudienceRecordClaim) in Ha; [|done].
  unfold opaque_record_claims. fold (issued_claims p). fold (issued_audiences p).
  set (iss := <[IssuerRecordClaim := _]> _).
  assert (Hiss : iss !! IssuerRecordClaim = Some (Raw (JStr (atp_Issuer p)))) by apply lookup_insert_eq.
  assert (Haud : iss !! AudienceRecordClaim = None) by (unfold iss; by rewrite lookup_insert_ne).
  assert (Hdel : delete IssuerRecordClaim iss = issued_claims p).
  { unfold iss. rewrite delete_insert_eq. by apply delete_id. }
  unfold Resource.recordedIssuerAndAudience. case_bool_decide as Hnil.
  - rewrite Hiss, Haud. simpl. rewrite bool_decide_false by done. simpl.
    rewrite Hnil, Hdel, delete_id by done. done.
  - rewrite lookup_insert_ne, Hiss, lookup_insert_eq by done. simpl.
    rewrite bool_decide_false by done. unfold Tokens.unmarshal_string_slice, marshal_strings.
    cbn [Json.unmarshal_slice mbind option_bind]. rewrite mapM_dec_str. cbn [mbind option_bind].
    rewrite bool_decide_false by done. cbn [mbind option_bind].
    by rewrite delete_insert_ne, Hdel, delete_insert_eq, delete_id by done.
Qed.

Definition opaque_request (raw : string) (now : Time) (skew : Duration)
    : Resource.ResolveAccessTokenRequest :=
  {| Resource.rr_Raw := raw; Resource.rr_Now := now; Resource.rr_MaxClockSkew := skew |}.

(** What an issuance leaves in the store. *)
Lemma issue_opaque_run p r x res r' x' :
  OpaqueAccessTokens_IssueAccessToken p (r, x) = (res, (r', x')) →
  x' = x ∨ ∃ raw u, CreateAccessToken (issued_record p raw) x = (u, x') ∧ atp_Issuer p ≠ "" ∧
    ∀ t, res = Ok t → t = (raw, hex_encode (sha256 raw)) ∧ u = Ok tt.
Proof.
  unfold OpaqueAccessTokens_IssueAccessToken. case_bool_decide as Hi; [intros [= _ _ ->]; by left|].
  unfold ebind, map_err, zoom. cbn [fst snd].
  destruct (draw _ r) as [[raw|e] r1]; [|intros [= _ _ ->]; by left]. cbn [fst snd].
  fold (issued_subject p). fold (issued_record p raw).
  destruct (CreateAccessToken _ x) as [u x1] eqn:Hc. intros Hr. right. exists raw, u.
  destruct u as [[]|e]; cbn in Hr; injection Hr as <- <- <-; (split_and!; [done..|]);
    by intros t [= <-].
Qed.

(** An opaque access token reads back as it was issued: as long as the
    store keeps its record, a resource server configured for its issuer and
    one of its audiences resolves it to exactly the subject, client, scopes,
    claims, key, expiry and audience it was issued for, under the revocation
    key its issuer knows it by. *)
Theorem opaque_token_roundtrip p o r x raw key r' x' now skew x'' :
  OpaqueAccessTokens_IssueAccessToken p (r, x) = (Ok (raw, key), (r', x')) →
  record_claims_free p → Resource.oat_Issuer o = atp_Issuer p →
  Resource.acceptsAudience o (issued_audiences p) = true →
  (∀ t, token_record x' (sha256 raw) t → token_record x'' (sha256 raw) t) →
  Resource.OpaqueAccessTokens_ResolveAccessToken o (opaque_request raw now skew) x'' =
    (Ok (issued_as p raw), x'') ∧ key = hex_encode (sha256 raw).
Proof.
  intros Hrun Hfree Ho Hacc Hkeep.
  assert (Hissue : ∃ raw' u, CreateAccessToken (issued_record p raw') x = (u, x') ∧
    atp_Issuer p ≠ "" ∧ (raw, key) = (raw', hex_encode (sha256 raw')) ∧ u = Ok tt).
  { unfold OpaqueAccessTokens_IssueAccessToken in Hrun. case_bool_decide as Hi; [done|].
    unfold ebind, map_err, zoom in Hrun. cbn [fst snd] in Hrun.
    destruct (draw _ r) as [[raw'|e] r1]; [|done]. cbn [fst snd] in Hrun.
    fold (issued_subject p) in Hrun. fold (issued_record p raw') in Hrun.
    destruct (CreateAccessToken _ x) as [[[]|e] x1] eqn:Hc; cbn in Hrun; [|done].
    injection Hrun as <- <- _ <-. eauto 10. }
  destruct Hissue as (raw' & u & Hc & Hi & [= <- ->] & ->). split; [|done].
  apply create_token_record, Hkeep in Hc.
  unfold Resource.OpaqueAccessTokens_ResolveAccessToken, ebind, map_err. simpl.
  rewrite (lookup_token_found {| atl_TokenHash := sha256 raw |} x'' _ Hc). simpl.
  rewrite (recorded_issued p Hfree Hi), Ho, Hacc, bool_decide_true by done. done.
Qed.

(** The environment as tokens are issued from it: nothing else creates one. *)
Inductive token_step : Env → Env → Prop :=
| token_issue p r x res r' x' :
    record_claims_free p → OpaqueAccessTokens_IssueAccessToken p (r, x) = (res, (r', x')) →
    token_step x x'
| token_other x x' : (∀ h t, token_record x' h t → token_record x h t) → token_step x x'.

(** Before [x], a token was issued with these parameters. *)
Definition issued_before (start x : Env) (p : AccessTokenParams) (raw : string) : Prop :=
  ∃ r x1 res r' x2, rtc token_step start x1 ∧ record_claims_free p ∧ atp_Issuer p ≠ "" ∧
    OpaqueAccessTokens_IssueAccessToken p (r, x1) = (res, (r', x2)) ∧ rtc token_step x2 x ∧
    ∀ t, res = Ok t → t.1 = raw.

Lemma token_history start x :
  (∀ h t, ¬ token_record start h t) → rtc token_step start x →
  ∀ h t, token_record x h t → ∃ p raw, h = sha256 raw ∧ t = issued_record p raw ∧
    issued_before start x p raw.
Proof.
  intros Hfresh. revert x. apply (rtc_ind_r (λ x, ∀ h t, token_record x h t → ∃ p raw,
    h = sha256 raw ∧ t = issued_record p raw ∧ issued_before start x p raw)).
  { by intros h t ?%Hfresh. }
  intros x x' Hsteps Hstep IH.
  assert (Hold : ∀ h t, token_record x h t → ∃ p raw, h = sha256 raw ∧ t = issued_record p raw ∧
    issued_before start x' p raw).
  { intros h t (p & raw & -> & -> & r & x1 & res & r' & x2 & H1 & Hf & Hi & H2 & H3 & H4)%IH.
    exists p, raw. split_and!; try done. exists r, x1, res, r', x2. split_and!; try done.
    by eapply rtc_r. }
  intros h t Ht. destruct Hstep as [p r x res r' x' Hf Hrun|x x' Hq]; [|by apply Hold, Hq].
  destruct (issue_opaque_run _ _ _ _ _ _ Hrun) as [->|(raw & u & Hc & Hi & Hres)]; [by apply Hold|].
  destruct (create_token_new _ _ _ _ Hc h t Ht) as [Hx|[-> ->]]; [by apply Hold|].
  exists p, raw. split_and!; try done. exists r, x, res, r', x'. split_and!; try done.
  intros [raw' key] Ht'. by destruct (Hres _ Ht') as [[= -> _] _].
Qed.

(** Every token an opaque resolver accepts was issued, for what it says. *)
Lemma resolved_token_issued start x o raw now skew resolved x' :
  (∀ h t, ¬ token_record start h t) → rtc token_step start x →
  Resource.OpaqueAccessTokens_ResolveAccessToken o (opaque_request raw now skew) x =
    (Ok resolved, x') →
  ∃ p raw', sha256 raw' = sha256 raw ∧ issued_before start x p raw' ∧ resolved = issued_as p raw' ∧
    atp_Issuer p = Resource.oat_Issuer o ∧
    Resource.acceptsAudience o (issued_audiences p) = true.
Proof.
  intros Hfresh Hsteps Hrun. unfold Resource.OpaqueAccessTokens_ResolveAccessToken in Hrun.
  apply ebind_Ok in Hrun as (looked & x1 & Hl & Hrun). apply map_err_Ok in Hl. simpl in Hl, Hrun.
  destruct (lookup_token_record _ _ _ _ Hl) as (t & Ht & ->). simpl in Ht, Hrun.
  destruct (token_history _ _ Hfresh Hsteps _ _ Ht) as (p & raw' & Hh & -> & Hissued).
  assert (Hb : record_claims_free p ∧ atp_Issuer p ≠ "").
  { by destruct Hissued as (? & ? & ? & ? & ? & _ & ? & ? & _). }
  simpl in Hrun. rewrite (recorded_issued p (proj1 Hb) (proj2 Hb)) in Hrun.
  destruct (bool_decide_reflect (atp_Issuer p = Resource.oat_Issuer o)) as [Hi|]; [|done].
  destruct (Resource.acceptsAudience o _) eqn:Ha; [|done]. simpl in Hrun.
  apply ret_Ok in Hrun as [-> _]. exists p, raw'. split_and!; try done.
  unfold issued_as. by rewrite Hh.
Qed.
End tokens.

(** * A resource server beside its authorization server *)

Section deployment.
Context {S : Server}.

(** A resource server that reads the authorization server's revocation store,
    and its environment: the clock and the access token store. *)
Record Deployment := {
  d_cfg : Resource.Config;
  d_ReplayT : Type;
  d_replay : ReplayStore d_ReplayT;
  d_NoncesT : Type;
  d_has_nonces : bool;
  d_nonces : NonceStore d_NoncesT;
  d_reader : string → eff RevocationT store_error bool;
  d_reads : IsRevoked = Some d_reader;
  d_AccessTokens : Resource.AccessTokenResolver Env;
  d_PairwiseSubjects : option (string → string → string → eff Env lookup_error string);
  d_PairwiseSubjectResolver : option (string → string → string → eff Env lookup_error string) }.

(** The store's reader, and its batch form. *)
Definition sink_checker (D : Deployment) : Resource.RevocationChecker RevocationT := {|
  Resource.rv_IsRevoked := d_reader D; Resource.rv_IsAnyRevoked := IsAnyRevoked;
  Resource.unrevocableLifetime := None |}.

Definition deployed (D : Deployment) : Resource.Verifier := {|
  Resource.v_platform := server_platform; Resource.v_jose := server_jose;
  Resource.v_cfg := d_cfg D; Resource.v_ReplayT := d_ReplayT D;
  Resource.v_replay := d_replay D; Resource.v_RevocationT := RevocationT;
  Resource.v_revocation := sink_checker D; Resource.v_NoncesT := d_NoncesT D;
  Resource.v_has_nonces := d_has_nonces D; Resource.v_nonces := d_nonces D;
  Resource.v_Env := Env; Resource.v_store := env_access_tokens; Resource.v_Clock := Clock;
  Resource.v_AccessTokens := d_AccessTokens D;
  Resource.v_PairwiseSubjects := d_PairwiseSubjects D;
  Resource.v_PairwiseSubjectResolver := d_PairwiseSubjectResolver D |}.

(** The resource server sees the authorization server's stores. *)
Definition beside (D : Deployment) (w : World) (s : @Resource.VState (deployed D)) : Prop :=
  @Resource.vs_revocation (deployed D) s = w_revocation w ∧
  @Resource.vs_env (deployed D) s = w_env w.

#[export] Instance sink_checker_laws (D : Deployment) `{!RevocationLaws RevocationT} :
  @RevocationCheckerLaws RevocationT (sink_checker D).
Proof.
  refine (@Build_RevocationCheckerLaws RevocationT (sink_checker D) revoked _ _ _ _); simpl.
  - intros k s r s'. apply is_revoked_same, d_reads.
  - intros k s. apply is_revoked_sound, d_reads.
  - intros f ks s r s'. apply is_any_revoked_same.
  - intros f ks s k. apply is_any_revoked_sound.
Defined.

#[local] Existing Instance deployed.

Context `{!RevocationLaws RevocationT, !GrantStoreLaws GrantsT}.

(** A key revoked stays revoked at every resource server. *)
Lemma revoked_key_refused (D : Deployment) w1 w2 s req authz s' k :
  revoked (w_revocation w1) k → rtc server_step w1 w2 → beside D w2 s →
  @Resource.Verify (deployed D) req s = (Ok authz, s') →
  k ∉ Resource.ac_Key authz :: grant_keys (Resource.ac_Issuer authz) (Resource.ac_Claims authz).
Proof.
  intros Hrev Hsteps [Hs _] Hv Hin.
  apply (@resource_Verify_Ok (deployed D) (sink_checker_laws D)) in Hv
    as (raw & now & credential & resolved & _ & _ & _ & _ & Hsp & _ & _ & _ & _ & _ & Hlive & _).
  destruct Hsp as (_ & _ & Hclaims & _ & Hkey & Hiss & _).
  rewrite <-Hkey, <-Hiss, <-Hclaims, Forall_forall in Hlive.
  apply (Hlive k Hin). simpl. rewrite Hs. by apply (server_steps_le _ _ Hsteps).
Qed.

Lemma grant_key_in issuer claims :
  Resource.stringClaim claims Claim ≠ "" →
  Key issuer (Resource.stringClaim claims Claim) ∈ grant_keys issuer claims.
Proof. intros Hne. unfold grant_keys. rewrite bool_decide_false by done. left. Qed.

Lemma code_key_in issuer claims :
  Resource.stringClaim claims CodeClaim ≠ "" →
  CodeKey issuer (Resource.stringClaim claims CodeClaim) ∈ grant_keys issuer claims.
Proof.
  intros Hne. unfold grant_keys. apply elem_of_app. right. rewrite bool_decide_false by done. left.
Qed.

(** An audience configured is one the token names. *)
Lemma acceptsAudience_names o audience :
  Resource.acceptsAudience o audience = true → Resource.oat_Audience o ≠ "" →
  ∃ a, a ∈ Resource.oat_Audience o :: Resource.oat_AdditionalAudiences o ∧ a ∈ audience.
Proof.
  unfold Resource.acceptsAudience. intros Ha Hne. rewrite bool_decide_false in Ha by done.
  apply orb_true_iff in Ha as [Ha%bool_decide_eq_true|Ha].
  - exists (Resource.oat_Audience o). split; [left|done].
  - apply existsb_exists in Ha as (a & Hin%list_elem_of_In & Ha%bool_decide_eq_true).
    exists a. split; [by right|done].
Qed.

(** The client knows the subject the token was issued with. *)
Lemma issued_client_subject (D : Deployment) p raw s1 internal sub s2 :
  record_claims_free p →
  @Resource.resolveSubjects (deployed D) (issued_as p raw) s1 = (Ok (internal, sub), s2) →
  sub = atp_Subject p.
Proof.
  intros (_ & _ & Hfree). unfold Resource.resolveSubjects. simpl. unfold issued_claims, issued_subject.
  case_bool_decide as Hi; simpl.
  - rewrite Hfree. destruct (atp_Claims p !! PairwiseSectorClaim).
    + intros Hr. apply ebind_Ok in Hr as (sector & s3 & [_ ->]%lift_Ok & Hr).
      case_bool_decide; [by apply ret_Ok in Hr as [[= _ ->] _]|].
      by apply ebind_Ok in Hr as (i & s3 & _ & [[= _ ->] _]%ret_Ok).
    + by intros [[= _ ->] _]%ret_Ok.
  - rewrite lookup_insert_eq. intros Hr.
    apply ebind_Ok in Hr as (c & s3 & [Hc ->]%lift_Ok & [[= _ ->] _]%ret_Ok).
    unfold Resource.claim_string in Hc. simpl in Hc.
    by destruct (atp_Subject p); [|injection Hc as <-].
Qed.

(** C4. An opaque access token opens a resource only to what the token
    endpoint issued it for. If the authorization server's issuances are all
    that creates access token records, a request verified under an opaque
    token is one whose sender holds the key the token was issued for; the
    client, scopes, expiry, issuer, audience and the subject its client knows
    are those it was issued with, for this issuer and one of the audiences
    accepted here; and it has not expired. *)
Theorem opaque_access_was_issued (D : Deployment) `{!AccessTokenLaws Env} o start s req authz s' :
  d_AccessTokens D = Resource.OpaqueResolver o →
  (∀ h t, ¬ token_record start h t) →
  rtc token_step start (Clock (@Resource.vs_env (deployed D) s)).2 →
  @Resource.Verify (deployed D) req s = (Ok authz, s') →
  ∃ p raw presented now credential,
    issued_before start (Clock (@Resource.vs_env (deployed D) s)).2 p raw ∧
    carries req presented (Resource.usedDPoP authz) ∧ sha256 raw = sha256 presented ∧
    Resource.ac_ClientID authz = atp_ClientID p ∧ Resource.ClientSubject authz = atp_Subject p ∧
    Resource.Scopes authz = atp_Scope p ∧ Resource.ac_Claims authz = issued_claims p ∧
    Resource.ac_ExpiresAt authz = Add (atp_Now p) (atp_Lifetime p) ∧
    Resource.ac_Issuer authz = atp_Issuer p ∧ atp_Issuer p = Resource.oat_Issuer o ∧
    Resource.ac_Audience authz = issued_audiences p ∧
    (Resource.oat_Audience o ≠ "" →
      ∃ a, a ∈ Resource.oat_Audience o :: Resource.oat_AdditionalAudiences o ∧
           a ∈ issued_audiences p) ∧
    @proves (deployed D) req presented now credential ∧
    atp_SenderConstrain p = Resource.constrain_of credential ∧
    atp_Thumbprint p = Resource.presented_of credential ∧ atp_Thumbprint p ≠ "" ∧
    (now ≤ atp_Now p + atp_Lifetime p + Resource.MaxClockSkew (Resource.rc_Limits (d_cfg D)))%Z.
Proof.
  intros Ho Hfresh Hsteps Hv.
  apply (@resource_Verify_Ok (deployed D) (sink_checker_laws D)) in Hv
    as (presented & now & credential & resolved & Hcar & _ & Hnow & (env & Hres) & Hsp & Hproves &
        Hne & Hcon & Hth & Hexp & _ & _).
  simpl in Hres. rewrite Ho in Hres. apply map_err_Ok in Hres.
  destruct (resolved_token_issued _ _ _ _ _ _ _ _ Hfresh Hsteps Hres)
    as (p & raw & Hsha & Hissued & -> & Hi & Ha).
  assert (Hfree : record_claims_free p) by by destruct Hissued as (? & ? & ? & ? & ? & _ & ? & _).
  destruct Hsp as (Hcl & Hsc & Hclm & He & _ & Hiss & Haud & _ & s1 & s2 & Hsub).
  apply (issued_client_subject D p raw _ _ _ _ Hfree) in Hsub.
  exists p, raw, presented, now, credential. simpl in *. unfold Add in Hexp.
  rewrite <-Hth in Hne. split_and!; try done. by apply acceptsAudience_names.
Qed.

(** C25. Withdrawing a grant ends every access token of it. After RevokeGrant
    succeeded, whatever calls the authorization server answers, no resource
    server that reads its revocation store verifies a request under an access
    token of that issuer that names the grant. *)
Theorem withdrawn_grant_refused_by_resource (D : Deployment) id w w1 w2 s req authz s' :
  RevokeGrant id w = (Ok tt, w1) → rtc server_step w1 w2 → beside D w2 s →
  @Resource.Verify (deployed D) req s = (Ok authz, s') →
  ¬ (Resource.ac_Issuer authz = cfg_Issuer cfg ∧ Resource.GrantID authz = id).
Proof.
  intros Hrun Hsteps Hs Hv [Hiss Hid]. unfold RevokeGrant in Hrun.
  case_bool_decide as Hne; [done|]. destruct grantRevocationReader; [|done].
  apply ebind_Ok in Hrun as (now & w0 & _ & Hrun).
  apply map_err_Ok, zoom_run in Hrun as (v & Hr & ->). apply revoke_done in Hr.
  apply (revoked_key_refused D (set_revocation v w0) w2 s req authz s' _ Hr Hsteps Hs Hv).
  right. unfold Resource.GrantID in Hid. rewrite <-Hid, <-Hiss. apply grant_key_in. congruence.
Qed.

(** Reusing an authorization code ends every access token of its grant.
    After a used code was presented again, whatever calls follow, no resource
    server that reads the revocation store verifies a request under the
    access token the code was first exchanged for, nor under any access token
    of that issuer obtained from the code or a refresh token it led to. *)
Theorem reused_code_refused_by_resource (D : Deployment) client ik code uri verifier details
    resources thumbprint f a g w r w1 w2 s req authz s' :
  exchange_code client ik code uri verifier details resources thumbprint w = (r, w1) →
  RedeemAuthorizationCode {| acr_CodeHash := authorizationCodeHash code ik;
    acr_ClientID := client_id client |} (w_grants w) = (Err (CodeAlreadyRedeemed a), g) →
  arr_ClientID a = "" ∨ arr_ClientID a = client_id client →
  grantRevocationReader = Some f → writes_succeed →
  rtc server_step w1 w2 → beside D w2 s →
  @Resource.Verify (deployed D) req s = (Ok authz, s') →
  (arr_IssuedAccessTokenKey a ≠ "" → Resource.ac_Key authz ≠ arr_IssuedAccessTokenKey a) ∧
  ¬ (Resource.ac_Issuer authz = cfg_Issuer cfg ∧
     Resource.CodeGrantID authz = CodeGrantID (authorizationCodeHash code ik)).
Proof.
  intros Hrun Hred Hown Hf Hw Hsteps Hs Hv.
  destruct (code_reuse_revokes _ _ _ _ _ _ _ _ _ _ _ _ _ _ Hrun Hred Hown Hf Hw)
    as [_ (Hkey & _ & Hcode)].
  split.
  - intros Hne Heq. apply (revoked_key_refused D w1 w2 s req authz s' _ (Hkey Hne) Hsteps Hs Hv).
    rewrite Heq. left.
  - intros [Hiss Hid].
    apply (revoked_key_refused D w1 w2 s req authz s' _ Hcode Hsteps Hs Hv).
    right. unfold Resource.CodeGrantID in Hid. rewrite <-Hid, <-Hiss. apply code_key_in.
    rewrite Hid. apply CodeGrantID_nonempty.
Qed.
End deployment.
