(* ===== verification/RevocationTheorems.v ===== *)
(** The refresh grant, and what revoking a refresh token or a grant achieves
    and cannot be made to do: src/server/refresh.go,
    src/server/token_revocation.go and src/server/grant_revocation.go. What the
    server issues can be used as it was issued: a refresh token redeems to the
    grant it carries, and an access token carries what revokes it. *)
From stdpp Require Import relations.
From S2P Require Import Prelude GoStrings Json GoTime Sha256 Pkce Digests Effects Storage.
From S2P Require Import MemStore Platform ServerTypes Rar JsonCodec Nonce Records Claims.
From S2P Require Import Dpop Jose Canonical Extensions Attestation ClientAuth ServerState.
From S2P Require Import TokenChecks Issue CodeExchange Refresh.
From S2P Require Import BackchannelToken Frames TokenChecksTheorems.
From S2P Require Import HandlerLemmas ExchangeTheorems.
From stdpp Require Import options.

Set Default Proof Using "Type*".

Section refresh.
Context {S : Server} `{!GrantStoreLaws GrantsT, !RevocationLaws RevocationT}.

(** Refreshing changes no grant: no refresh token is rotated, consumed or
    written, and nothing is revoked, whether the refresh succeeds or fails,
    so the same token can be presented again. *)
Theorem refresh_not_rotated req w r w' :
  RefreshAccessToken req w = (r, w') → stores_same w w'.
Proof.
  revert w r w'. change (respects stores_same (RefreshAccessToken req)).
  unfold RefreshAccessToken. destruct takeResourceParameters.
  unfold refresh, redeemRefreshGrantFor. frame.
Qed.

(** The parameters of a refresh request, its client and Client Instance Key. *)
Definition refresh_request (req : TokenRequest) (w : World)
    : option (gmap string string * RegisteredClient * string) :=
  match formParametersToMap (takeResourceParameters (Parameters req)).1 with
  | None => None
  | Some params =>
    match (authenticateRequest params (credentials req) [TokenEndpoint cfg]
             [MTLSTokenEndpoint cfg] w).1 with
    | Ok (client, _, ik) => Some (params, client, ik)
    | Err _ => None
    end
  end.

Lemma RefreshAccessToken_Ok req w result w' :
  RefreshAccessToken req w = (Ok result, w') →
  ∃ params client ik details thumbprint w1,
    refresh_request req w = Some (params, client, ik) ∧ stores_same w w1 ∧
    presented_binding (credentials req) client thumbprint ∧
    tokenRequestAuthorizationDetails params = Ok details ∧
    refresh client ik (param params "refresh_token") params details
      (takeResourceParameters (Parameters req)).2 thumbprint w1 = (Ok result, w').
Proof.
  unfold RefreshAccessToken, refresh_request. destruct takeResourceParameters as [form res].
  intros Hrun. apply ebind_Ok in Hrun as (params & w1 & Hp & Hrun).
  apply or_fail_Ok, parseForm_Ok in Hp as [Hp ->].
  apply ebind_Ok in Hrun as ([] & w1 & Hg & Hrun). apply or_fail_Ok, check_Ok in Hg as [_ ->].
  apply ebind_Ok in Hrun as ([[client proof] ik] & w1 & Ha & Hrun). apply or_fail_Ok in Ha.
  apply ebind_Ok in Hrun as ([rawToken details] & w2 & Hc & Hrun).
  apply or_fail_Ok, lift_Ok in Hc as [Hc ->].
  apply ebind_Ok in Hrun as (thumbprint & w2 & Hb & Hrun). apply or_fail_Ok in Hb.
  apply attachNextDPoPNonceOnFailure_Ok in Hrun.
  destruct (authenticated_binding _ _ _ _ _ _ _ _ _ _ _ Ha Hb) as [Hsame Hbound].
  unfold refreshParameters in Hc. apply bind_Ok in Hc as ([] & _ & Hc).
  apply bind_Ok in Hc as (d & Hd & Hc). injection Hc as <- <-.
  exists params, client, ik, d, thumbprint, w2. simpl. rewrite Hp, Ha. done.
Qed.

(** C21. A refresh succeeds only for the token's own client and instance, and
    never widens the grant. When it returns tokens: the presented refresh
    token is the one returned; its stored grant is this server's, a refresh
    token's, unexpired, under no revoked key, of the authenticated client and
    its instance, and of a grant type still served; the access token's scopes
    are among the grant's and all still allowed to the client, its
    authorization_details no wider than the grant's (accessTokenGrant), and
    its audience made of granted resources only. *)
Theorem refresh_narrows req w result w' :
  RefreshAccessToken req w = (Ok result, w') →
  ∃ params client ik thumbprint redeemed grant now scope details accessGrant audience
      claims,
    refresh_request req w = Some (params, client, ik) ∧
    presented_binding (credentials req) client thumbprint ∧
    RefreshToken result = Some (param params "refresh_token") ∧
    RedeemRefreshToken {| rtr_TokenHash := sha256 (param params "refresh_token") |} (w_grants w) =
      (Ok redeemed, w_grants w) ∧
    refresh_redeemable (client_id client) ik redeemed grant now ∧
    (∀ k, k ∈ revocation_keys grant → ¬ revoked (w_revocation w) k) ∧
    checkGrantTypeStillAllowed client grant = Ok tt ∧
    Scope result = join " " scope ∧
    (∀ s, s ∈ scope → clientAllowsScope client s = true ∧
      (Forall (λ s, is_field s = true) (g_Scope grant) → s ∈ g_Scope grant)) ∧
    tokenRequestAuthorizationDetails params = Ok details ∧
    accessTokenGrant grant details = Ok accessGrant ∧
    AuthorizationDetails result = g_AuthorizationDetails accessGrant ∧
    accessTokenClaims accessGrant = Some claims ∧
    (∃ w1 w2 key, issueAccessToken (access_token_params client grant scope thumbprint claims
      audience now) w1 = (Ok (AccessToken result, key), w2)) ∧
    audience_bounded client (g_Resources grant) (takeResourceParameters (Parameters req)).2 audience.
Proof.
  intros Hrun. apply RefreshAccessToken_Ok in Hrun
    as (params & client & ik & details & thumbprint & w0 & Hreq & (Hg & Hv & _) & Hbound & Hd & Hrun).
  unfold refresh in Hrun.
  apply ebind_Ok in Hrun as ([grant now] & w1 & Hr & Hrun). apply or_fail_Ok in Hr.
  unfold redeemRefreshGrantFor in Hr. apply ebind_Ok in Hr as ([grant' now'] & w2 & Hr & Htype).
  apply ebind_Ok in Htype as ([] & w3 & Htype & Hret). apply lift_Ok in Htype as [Htype ->].
  injection Hret as -> -> ->. apply redeemRefreshGrant_Ok in Hr as (_ & (redeemed & Hr & Hok) & Hnr).
  rewrite Hg in Hr. rewrite Hv in Hnr.
  apply ebind_Ok in Hrun as (scope & w2 & Hsc & Hrun). apply or_fail_Ok, lift_Ok in Hsc as [Hsc ->].
  apply ebind_Ok in Hrun as ([accessGrant audience] & w2 & Ha & Hrun).
  apply or_fail_Ok, allowedGrantAudience_Ok in Ha as (Hallow & Hag & Haud).
  apply checkGrantStillAllowed_Ok in Hallow as (_ & Hscopes & _).
  apply ebind_Ok in Hrun as (c & w3 & Hcl & Hrun). apply or_fail_Ok, lift_Ok in Hcl as [Hcl ->].
  unfold encode_claims in Hcl. destruct (accessTokenClaims accessGrant) as [claims|] eqn:Hc; [|done].
  injection Hcl as <-.
  apply ebind_Ok in Hrun as ([token key] & w3 & Hi & Hrun). apply or_fail_Ok in Hi.
  apply ebind_Ok in Hrun as (r1 & w4 & Hid & Hrun).
  apply ebind_Ok in Hrun as (r2 & w5 & Hn & Hrun). apply or_fail_Ok in Hn.
  apply ebind_Ok in Hrun as ([] & w6 & _ & Hrun). injection Hrun as <- <-.
  unfold addNextDPoPNonce in Hn. apply ebind_Ok in Hn as (n & w7 & _ & Hn). injection Hn as <- <-.
  assert (Hr1 : Scope r1 = join " " scope ∧ AuthorizationDetails r1 = g_AuthorizationDetails accessGrant
    ∧ AccessToken r1 = token).
  { destruct (containsScope scope "openid"); inv_srv; done. }
  destruct Hr1 as (Hs1 & Hd1 & Ht1).
  exists params, client, ik, thumbprint, redeemed, grant, now, scope, details, accessGrant, audience, claims. simpl. split_and!; try done.
  - intros s Hs. split; [by apply Hscopes|]. intros Hf.
    by apply (refreshScope_narrows _ _ _ _ Hsc Hf).
  - exists w2, w3, key. by rewrite Ht1.
  - by apply narrowedAudience_bounded in Haud.
Qed.
End refresh.

Section revocation.
Context {S : Server} `{!GrantStoreLaws GrantsT, !RevocationLaws RevocationT}.

(** The parameters of a revocation request, its client and Client Instance
    Key. *)
Definition revocation_request (req : TokenRequest) (w : World)
    : option (gmap string string * RegisteredClient * string) :=
  match formParametersToMap (Parameters req) with
  | None => None
  | Some params =>
    match (authenticateRequest params
        {| PeerCertificate := PeerCertificate (credentials req); DPoPProofs := [];
           ClientAttestations := ClientAttestations (credentials req);
           ClientAttestationPoPs := ClientAttestationPoPs (credentials req) |}
        [RevocationEndpoint cfg] [MTLSRevocationEndpoint cfg] w).1 with
    | Ok (client, _, ik) => Some (params, client, ik)
    | Err _ => None
    end
  end.

(** The run of a request that got past its own checks. *)
Definition revocation_run (client : RegisteredClient) (ik token : string)
    : srv TokenRevocationResult :=
  let* result :=
    (if contains_byte token "." then ret not_revoked
     else or_fail AuditEventRevokeToken (client_id client)
       (revokeRefreshToken (client_id client) ik token)) in
  let* own := (if Revoked result then ret false else isOwnAccessToken (client_id client) token) in
  do* or_fail AuditEventRevokeToken (client_id client)
    (check (negb own) ErrorUnsupportedTokenType 400 "only refresh tokens can be revoked") in
  do* audit AuditEventRevokeToken (client_id client) AuditOutcomeSuccess
    (if Revoked result then "" else "not revoked") in
  ret result.

Lemma RevokeToken_Ok req w result w' :
  RevokeToken req w = (Ok result, w') →
  ∃ params client ik w1, revocation_request req w = Some (params, client, ik) ∧
    stores_same w w1 ∧ param params "token" ≠ "" ∧
    revocation_run client ik (param params "token") w1 = (Ok result, w').
Proof.
  unfold RevokeToken, revocation_request. intros Hrun.
  apply ebind_Ok in Hrun as ([] & w1 & Hg & Hrun). apply or_fail_Ok, check_Ok in Hg as [_ ->].
  apply ebind_Ok in Hrun as (params & w1 & Hp & Hrun). apply or_fail_Ok, parseForm_Ok in Hp as [Hp ->].
  apply ebind_Ok in Hrun as ([[client proof] ik] & w1 & Ha & Hrun). apply or_fail_Ok in Ha.
  apply ebind_Ok in Hrun as ([] & w2 & Hg & Hrun). apply or_fail_Ok, check_Ok in Hg as [Hg ->].
  apply negb_true_iff, bool_decide_eq_false in Hg.
  exists params, client, ik, w1. rewrite Hp, Ha. split; [done|].
  split; [exact (respects_authenticateRequest stores_same _ _ _ _ _ _ _ Ha)|]. done.
Qed.

Lemma revokeRefreshToken_Ok clientID ik token w result w' :
  revokeRefreshToken clientID ik token w = (Ok result, w') →
  (result = not_revoked ∧ stores_same w w') ∨
  (∃ grant now w1, redeemRefreshGrant clientID ik token w = (Ok (grant, now), w1) ∧
    result = {| Revoked := true; revoked_GrantID := g_GrantID grant |} ∧
    refresh_revoked (w_grants w') (sha256 token) ∧
    (g_GrantID grant ≠ "" → revoked (w_revocation w') (Key (cfg_Issuer cfg) (g_GrantID grant))) ∧
    (g_CodeGrantID grant ≠ "" →
      revoked (w_revocation w') (CodeKey (cfg_Issuer cfg) (g_CodeGrantID grant)))).
Proof.
  unfold revokeRefreshToken. intros Hrun.
  apply ebind_Ok in Hrun as (redeemed & w1 & Hr & Hrun). apply (proj1 (try_Ok _ _ _ _)) in Hr.
  destruct redeemed as [[grant now]|err].
  - right. exists grant, now, w1. split; [done|]. simpl in Hrun.
    apply ebind_Ok in Hrun as ([] & w2 & Hg & Hrun). apply ebind_Ok in Hrun as ([] & w3 & Hc & Hrun).
    apply ebind_Ok in Hrun as ([] & w4 & Ht & Hrun). injection Hrun as <- <-.
    apply map_err_Ok, zoom_run in Ht as (g & Ht & ->). simpl. split; [done|].
    split; [by eapply revoke_refresh_done|]. split.
    + intros Hne. apply (respects_revokeCodeGrant stores_le _ _ _ _ Hc).
      rewrite bool_decide_false in Hg by done. simpl in Hg. apply map_err_Ok in Hg.
      unfold RevokeGrant in Hg. rewrite bool_decide_false in Hg by done.
      destruct grantRevocationReader; [|done]. apply ebind_Ok in Hg as (t & w5 & _ & Hg).
      apply map_err_Ok, zoom_run in Hg as (v & Hg & ->). by eapply revoke_done.
    + intros Hne. unfold revokeCodeGrant in Hc. rewrite bool_decide_false in Hc by done.
      apply ebind_Ok in Hc as (t & w5 & _ & Hc).
      apply map_err_Ok, zoom_run in Hc as (v & Hc & ->). by eapply revoke_done.
  - left. case_bool_decide; [done|]. injection Hrun as <- <-. split; [done|].
    by eapply respects_redeemRefreshGrant.
Qed.

(** A revoked grant's tokens are refused. *)
Lemma revoked_grant_refused clientID ik token w grant now w' :
  redeemRefreshGrant clientID ik token w = (Ok (grant, now), w') →
  ∀ id, id ≠ "" →
  (g_GrantID grant = id → ¬ revoked (w_revocation w) (Key (cfg_Issuer cfg) id)) ∧
  (g_CodeGrantID grant = id → ¬ revoked (w_revocation w) (CodeKey (cfg_Issuer cfg) id)).
Proof.
  intros (_ & _ & Hnr)%redeemRefreshGrant_Ok id Hid.
  split; intros Hg; apply Hnr; unfold revocation_keys; rewrite Hg, (bool_decide_false (id = "")) by done;
    apply elem_of_app; [left; left|right; left].
Qed.

(** C23. Revoking a refresh token ends it and its grant for good. When
    RevokeToken reports a token revoked, that token belonged to the
    authenticated client and instance, and from then on, whatever else
    happens, no request redeems that token, nor any other refresh token of
    the same grant: by the application's grant ID if it has one, and by the
    code or CIBA request it came from. *)
Theorem revoked_token_never_redeemed req w result w1 w2 params client ik :
  RevokeToken req w = (Ok result, w1) → Revoked result = true →
  revocation_request req w = Some (params, client, ik) →
  rtc server_step w1 w2 →
  ∃ redeemed grant now,
    RedeemRefreshToken {| rtr_TokenHash := sha256 (param params "token") |} (w_grants w) =
      (Ok redeemed, w_grants w) ∧
    refresh_redeemable (client_id client) ik redeemed grant now ∧
    revoked_GrantID result = g_GrantID grant ∧
    (∀ clientID' ik', ∃ e w3, redeemRefreshGrant clientID' ik' (param params "token") w2 = (Err e, w3)) ∧
    (∀ clientID' ik' token' grant' now' w3,
      redeemRefreshGrant clientID' ik' token' w2 = (Ok (grant', now'), w3) →
      (g_GrantID grant ≠ "" → g_GrantID grant' ≠ g_GrantID grant) ∧
      (g_CodeGrantID grant ≠ "" → g_CodeGrantID grant' ≠ g_CodeGrantID grant)).
Proof.
  intros Hrun Hrev Hreq Hsteps. apply RevokeToken_Ok in Hrun
    as (params' & client' & ik' & w0 & Hreq' & Hs & _ & Hrun).
  rewrite Hreq in Hreq'. injection Hreq' as <- <- <-. unfold revocation_run in Hrun.
  apply ebind_Ok in Hrun as (result' & w3 & Hr & Hrun).
  assert (result' = result ∧ stores_same w3 w1) as [-> Hs3].
  { apply ebind_Ok in Hrun as (own & w4 & Ho & Hrun). apply ebind_Ok in Hrun as ([] & w5 & Hc & Hrun).
    apply or_fail_Ok, check_Ok in Hc as [_ ->]. apply ebind_Ok in Hrun as ([] & w6 & Ha & Hrun).
    injection Hrun as -> ->. split; [done|]. transitivity w4.
    - destruct (Revoked result); [by injection Ho as _ <-|].
      exact (respects_isOwnAccessToken stores_same _ _ _ _ _ Ho).
    - exact (respects_audit stores_same _ _ _ _ _ _ _ Ha). }
  destruct (contains_byte _ _); [by injection Hr as <- _|]. apply or_fail_Ok in Hr.
  apply revokeRefreshToken_Ok in Hr as [[-> _]|(grant & now & w4 & Hr & -> & Ht & Hg & Hc)]; [done|].
  apply redeemRefreshGrant_Ok in Hr as (_ & (redeemed & Hr & Hok) & _).
  destruct Hs as (Hsg & _). rewrite Hsg in Hr.
  destruct Hs3 as (Hg3 & Hv3 & _). rewrite <-Hg3 in Ht. rewrite <-Hv3 in Hg, Hc.
  destruct (server_steps_le _ _ Hsteps) as [[_ Hgle] Hvle].
  exists redeemed, grant, now. split_and!; try done.
  - intros clientID' ik'. unfold redeemRefreshGrant.
    destruct (redeem_refresh_revoked {| rtr_TokenHash := sha256 (param params "token") |} (w_grants w2))
      as [e He]; [by apply Hgle|].
    unfold ebind, map_err at 1, on_grants, zoom. rewrite He. eauto.
  - intros clientID' ik' token' grant' now' w5 Hr'.
    split; intros Hne Heq; eapply revoked_grant_refused in Hr' as [H1 H2]; try done;
      [by apply (H1 Heq), Hvle, Hg|by apply (H2 Heq), Hvle, Hc].
Qed.

(** A client can revoke nothing of another's. When the presented token is
    another client's refresh token, or no refresh token the store redeems,
    RevokeToken reports nothing revoked, if it succeeds at all, and leaves
    the grant, revocation and CIBA stores exactly as they were. *)
Theorem revocation_of_anothers_token req w params client ik r w' :
  RevokeToken req w = (r, w') →
  revocation_request req w = Some (params, client, ik) →
  (∀ redeemed g, RedeemRefreshToken {| rtr_TokenHash := sha256 (param params "token") |}
    (w_grants w) = (Ok redeemed, g) → rrt_ClientID redeemed ≠ client_id client) →
  (∀ result, r = Ok result → Revoked result = false) ∧ stores_same w w'.
Proof.
  intros Hrun Hreq Hother.
  assert (Hno : ∀ w1 grant now w2, stores_same w w1 →
    redeemRefreshGrant (client_id client) ik (param params "token") w1 ≠ (Ok (grant, now), w2)).
  { intros w1 grant now w2 (Hg & _) Hr.
    apply redeemRefreshGrant_Ok in Hr as (_ & (redeemed & Hr & (Hcl & _)) & _).
    rewrite Hg in Hr. by apply (Hother redeemed (w_grants w)). }
  split.
  - intros result ->. apply RevokeToken_Ok in Hrun
      as (params' & client' & ik' & w1 & Hreq' & Hs & _ & Hrun).
    rewrite Hreq in Hreq'. injection Hreq' as <- <- <-. unfold revocation_run in Hrun.
    apply ebind_Ok in Hrun as (result' & w3 & Hr & Hrun).
    assert (result' = result) as ->.
    { apply ebind_Ok in Hrun as (own & w4 & Ho & Hrun). apply ebind_Ok in Hrun as ([] & w5 & Hc & Hrun).
      apply ebind_Ok in Hrun as ([] & w6 & Ha & Hrun). by injection Hrun as ->. }
    destruct (contains_byte _ _); [by injection Hr as <- _|]. apply or_fail_Ok in Hr.
    apply revokeRefreshToken_Ok in Hr as [[-> _]|(grant & now & w4 & Hr & _)]; [done|].
    by apply Hno in Hr.
  - change (stores_same w ((r, w').2)). rewrite <-Hrun. clear Hrun.
    change (keeps_stores (RevokeToken req) w).
    unfold revocation_request in Hreq. unfold RevokeToken.
    apply keeps_stores_bind; [apply keeps_stores_respects; frame|]. intros [] w1 Hp _.
    apply or_fail_Ok, check_Ok in Hp as [_ ->].
    apply keeps_stores_bind; [apply keeps_stores_respects; frame|]. intros p w1 Hp _.
    apply or_fail_Ok, parseForm_Ok in Hp as [Hp ->]. rewrite Hp in Hreq.
    apply keeps_stores_bind; [apply keeps_stores_respects; frame|]. intros [[c proof] i] w1 Ha Hw1.
    apply or_fail_Ok in Ha. rewrite Ha in Hreq. simpl in Hreq. injection Hreq as -> -> ->.
    apply keeps_stores_bind; [apply keeps_stores_respects; frame|]. intros [] w2 Hg _.
    apply or_fail_Ok, check_Ok in Hg as [_ ->].
    apply keeps_stores_bind; [|intros x w4 _ _; apply keeps_stores_respects; frame].
    destruct (contains_byte _ _); [apply keeps_stores_respects; frame|].
    unfold keeps_stores, or_fail. change (keeps_stores (or_fail AuditEventRevokeToken (client_id client)
      (revokeRefreshToken (client_id client) ik (param params "token"))) w1).
    apply keeps_stores_bind; [|intros x w4 _ _; apply keeps_stores_respects; frame].
    unfold keeps_stores, try, revokeRefreshToken, ebind, try.
    destruct (redeemRefreshGrant _ _ _ w1) as [[[grant now]|e] w2] eqn:Hr.
    + by apply Hno in Hr.
    + apply respects_redeemRefreshGrant in Hr. case_bool_decide; simpl; done.
Qed.
(** * RevokeGrant *)

(** The lifetimes a grant's artefacts are issued with. *)
Definition grant_lifetimes : list Duration :=
  let l := cfg_Limits cfg in
  [RefreshTokenLifetime l; AuthorizationCodeLifetime l; BackchannelAuthenticationRequestLifetime l].

Definition lifetimes_ok : Prop :=
  Forall (λ d, 0 ≤ d ≤ MaxInt64)%Z
    (AccessTokenLifetime (cfg_Limits cfg) :: MaxClockSkew (cfg_Limits cfg) :: grant_lifetimes).

Lemma grantRevocationHorizon_spec d :
  lifetimes_ok → d ∈ grant_lifetimes →
  (Z.min MaxInt64 (d + AccessTokenLifetime (cfg_Limits cfg) + MaxClockSkew (cfg_Limits cfg))
    ≤ grantRevocationHorizon)%Z.
Proof.
  unfold lifetimes_ok, grant_lifetimes, grantRevocationHorizon.
  intros Hok Hd. apply Forall_cons in Hok as [Ha Hok]. apply Forall_cons in Hok as [Hs Hok].
  assert (Hle : (d ≤ Z.max (Z.max (RefreshTokenLifetime (cfg_Limits cfg))
    (AuthorizationCodeLifetime (cfg_Limits cfg)))
    (BackchannelAuthenticationRequestLifetime (cfg_Limits cfg)))%Z) by set_solver by lia.
  rewrite !Forall_cons in Hok. destruct Hok as (H1 & H2 & H3 & _).
  rewrite SaturatingAdd_spec; [cbn [sum_durations foldr]; lia|].
  repeat constructor; lia.
Qed.

End revocation.

(** * What the server issues can be used as it was issued: a refresh token
    redeems to the grant it carries, and an access token carries what revokes
    it. *)

(** The store keeps the refresh tokens it is given: the rest of the grant
    store's contract a round trip needs. *)
Class RefreshStoreLaws (G : Type) `{GrantStoreLaws G} := {
  create_refresh_redeems t s s' :
    CreateRefreshToken t s = (Ok tt, s') → ¬ refresh_revoked s (nrt_TokenHash t) →
    RedeemRefreshToken {| rtr_TokenHash := nrt_TokenHash t |} s' =
      (Ok {| rrt_ClientID := nrt_ClientID t; rrt_Grant := nrt_Grant t;
             rrt_ExpiresAt := nrt_ExpiresAt t |}, s') }.

#[local] Existing Instances Grants.grant_store Grants.grant_store_laws.

#[export] Instance grants_refresh_laws : RefreshStoreLaws Grants.GrantStore.
Proof.
  split. intros t s s' Hc Hn. simpl in *. unfold Grants.CreateRefreshToken in Hc.
  injection Hc as <-. unfold Grants.RedeemRefreshToken. simpl. rewrite lookup_insert_eq.
  destruct (default false _) eqn:Hd; [|done]. by apply Grants.default_false_true in Hd.
Qed.

Section issue.
Context {S : Server} `{!GrantStoreLaws GrantsT, !RefreshStoreLaws GrantsT,
  !RevocationLaws RevocationT}.

Lemma issueRefreshToken_Ok clientID grant binding w token w' :
  issueRefreshToken clientID grant binding w = (Ok token, w') →
  ∃ now encoded w1, encodeGrantRecord (cfg_Issuer cfg) (forRefreshToken grant binding now) = Some encoded ∧
    stores_same w w1 ∧ w_env w' = w_env w1 ∧
    CreateRefreshToken {| nrt_TokenHash := sha256 token; nrt_ClientID := clientID;
      nrt_Grant := encoded;
      nrt_ExpiresAt := Add now (RefreshTokenLifetime (cfg_Limits cfg)) |} (w_grants w) =
      (Ok tt, w_grants w').
Proof.
  unfold issueRefreshToken. intros Hrun.
  apply ebind_Ok in Hrun as (raw & w1 & Hraw & Hrun).
  apply ebind_Ok in Hrun as (now & w2 & Hnow & Hrun).
  apply ebind_Ok in Hrun as (encoded & w3 & He & Hrun). apply lift_Ok in He as [He ->].
  apply ebind_Ok in Hrun as ([] & w4 & Hc & Hrun). injection Hrun as <- <-.
  apply map_err_Ok, zoom_run in Hc as (g & Hc & ->).
  assert (Hs : stores_same w w2).
  { transitivity w1; [exact (respects_on_random stores_same _ _ _ _ Hraw)|by eapply Now_same]. }
  exists now, encoded, w2. destruct (encodeGrantRecord _ _) as [x|]; [|done]. injection He as ->.
  destruct Hs as (Hg & Hrest). rewrite Hg in Hc. by split_and!.
Qed.


End issue.

(** * The claims of an access token *)

Lemma withManagedClaim_lookup claims name value n :
  withManagedClaim claims name value !! n =
    match claims !! n with
    | Some v => Some v
    | None => if bool_decide (name = n) && negb (bool_decide (value = ""))
              then Some (Raw (JStr value)) else None
    end.
Proof.
  unfold withManagedClaim. case_bool_decide as Hv; simpl.
  { rewrite andb_false_r. by destruct (claims !! n). }
  rewrite andb_true_r, lookup_union. case_bool_decide as Hn.
  - subst n. rewrite lookup_singleton_eq. by destruct (claims !! name).
  - rewrite lookup_singleton_ne by done. by destruct (claims !! n).
Qed.

(** The claims before the managed ones are added. *)
Lemma withRequestedUserinfoClaims_lookup names values base claims n :
  withRequestedUserinfoClaims names values base = Some claims →
  n ≠ RequestedUserinfoClaimsKey → n ≠ RequestedUserinfoClaimValuesKey →
  claims !! n = base !! n.
Proof.
  unfold withRequestedUserinfoClaims. intros Hc H1 H2.
  destruct (bool_decide (names = [])); [by injection Hc as <-|].
  destruct (bool_decide (values = ∅)).
  - injection Hc as <-. by rewrite lookup_insert_ne.
  - apply fmap_Some in Hc as (e & _ & ->). by rewrite !lookup_insert_ne.
Qed.

(** Every access token carries what revokes it. The claims of a token
    issued from a grant hold its grant ID, its code grant ID and, for a
    pairwise client, its sector, when it has them and the application set no
    claim of that name; its authorization_details; and every claim of the
    application but those under the requested userinfo claims' names and
    authorization_details. *)
Theorem accessTokenClaims_managed g claims :
  accessTokenClaims g = Some claims →
  (∀ name value, name ∈ [Claim; CodeClaim; PairwiseSectorClaim] → g_TokenClaims g !! name = None →
     value = (if bool_decide (name = Claim) then g_GrantID g
              else if bool_decide (name = CodeClaim) then g_CodeGrantID g
              else if bool_decide (g_ClientSubject g = "") then "" else g_PairwiseSector g) →
     claims !! name = if bool_decide (value = "") then None else Some (Raw (JStr value))) ∧
  (raw_empty (g_AuthorizationDetails g) = false →
     claims !! authorizationDetailsParameter = Some (g_AuthorizationDetails g)) ∧
  (∀ name v, name ∉ [RequestedUserinfoClaimsKey; RequestedUserinfoClaimValuesKey;
       authorizationDetailsParameter] →
     g_TokenClaims g !! name = Some v → claims !! name = Some v).
Proof.
  unfold accessTokenClaims. intros Hc. apply bind_Some in Hc as (base & Hb & Hc).
  set (c0 := withAuthorizationDetails _ base) in Hc.
  assert (H0 : ∀ n, n ≠ authorizationDetailsParameter → c0 !! n = base !! n).
  { intros n Hn. unfold c0, withAuthorizationDetails.
    destruct (raw_empty _); [done|]. by rewrite lookup_insert_ne. }
  assert (Hcl : ∀ n, claims !! n = match c0 !! n with Some v => Some v | None =>
      let value := if bool_decide (n = Claim) then g_GrantID g
         else if bool_decide (n = CodeClaim) then g_CodeGrantID g
         else if bool_decide (n = PairwiseSectorClaim) && negb (bool_decide (g_ClientSubject g = ""))
              then g_PairwiseSector g else "" in
      if bool_decide (value = "") then None else Some (Raw (JStr value)) end).
  { intros n. injection Hc as <-.
    destruct (bool_decide (g_ClientSubject g = "")); simpl; rewrite ?withManagedClaim_lookup;
      destruct (c0 !! n); try done; rewrite ?andb_true_r, ?andb_false_r;
      rewrite !(bool_decide_ext (_ = n) (n = _)) by naive_solver;
      repeat (case_bool_decide; subst; simpl; try done). }
  split_and!.
  - intros name value Hin Hnone ->. rewrite Hcl.
    assert (c0 !! name = None) as ->.
    { rewrite H0 by (intros ->; vm_compute in Hin; set_solver).
      rewrite (withRequestedUserinfoClaims_lookup _ _ _ _ name Hb); [done|..];
        intros ->; vm_compute in Hin; set_solver. }
    apply elem_of_cons in Hin as [->|Hin]; [done|]. apply elem_of_cons in Hin as [->|Hin]; [done|].
    apply list_elem_of_singleton in Hin as ->. by destruct (bool_decide (g_ClientSubject g = "")).
  - intros Hd. rewrite Hcl. unfold c0, withAuthorizationDetails. rewrite Hd. by rewrite lookup_insert_eq.
  - intros name v Hin Hv. rewrite Hcl, H0, (withRequestedUserinfoClaims_lookup _ _ _ _ name Hb), Hv;
      set_solver.
Qed.
