(* ===== verification/Examples.v ===== *)
(** A concrete token server: the in-memory stores, two clients bound to their
    certificates, a clock that stands still, and one code, one refresh token
    and one approved CIBA request. The token endpoint's theorems are applied
    to its runs, which the kernel evaluates. *)
From stdpp Require Import relations.
From S2P Require Import Prelude GoStrings Json GoTime Sha256 Pkce Platform JsonCodec.
From S2P Require Import Digests Effects Storage MemStore ServerTypes Rar Nonce Records.
From S2P Require Import Claims Dpop Jose Canonical Extensions Attestation ClientAuth.
From S2P Require Import ServerState TokenChecks TokenChecksTheorems.
From S2P Require Import Issue CodeExchange Refresh.
From S2P Require Import BackchannelToken Frames HandlerLemmas.
From S2P Require Import ExchangeTheorems CibaTheorems RevocationTheorems.

From stdpp Require Import options.

Set Default Proof Using "Type*".

(** * The server *)

Definition token_client (id : ClientID) : RegisteredClient := {|
  client_id := id; redirectURIs := ["https://rp/cb"]; applicationType := ApplicationTypeWeb;
  clientAssertionAlgorithms := [ES256]; requestObjectAlgorithm := 0%N;
  senderConstrain := SenderConstrainMTLS;
  clientAuthMethods := [ClientAuthMethodSelfSignedTLSClientAuth; ClientAuthMethodPrivateKeyJWT;
    ClientAuthMethodAttestation];
  expectedCertificateThumbprint := mtls_Thumbprint "der"; additionalCertificateThumbprints := [];
  certificateKeyThumbprints := []; expectedSubjectDN := ""; expectedSANDNS := "";
  expectedSANURI := ""; expectedSANIP := ""; expectedSANEmail := "";
  expectedAttesterIssuer := "https://attester"; clientAttestationAlgorithm := ES256;
  allowedScopes := {["openid"; "offline_access"; "payments"]}; allowedScopesLength := 30;
  authorizationDetailsTypes := ∅; allowedResources := ∅; idTokenEncryptionKeyManagement := 0%N;
  idTokenEncryptionContentEncryption := 0%N; userInfoEncryptionKeyManagement := 0%N;
  userInfoEncryptionContentEncryption := 0%N; backchannelAuthenticationRequestAlgorithm := ES256;
  backchannelTokenDeliveryMode := BackchannelTokenDeliveryModePoll;
  backchannelClientNotificationEndpoint := None; allowsClientCredentialsGrant := true;
  automaticFederationRegistration := false; subjectType := SubjectTypePublic; sector := "" |}.

(** The clock's time, the replay records and the opaque access tokens. *)
Definition example_env : Type := Time * (Replays.ReplayStore * AccessTokens.AccessTokenStore).

Definition on_replays {A} (m : eff Replays.ReplayStore store_error A) :
  eff example_env store_error A := zoom (λ x, x.2.1) (λ r x, (x.1, (r, x.2.2))) m.
Definition on_tokens {A} (m : eff AccessTokens.AccessTokenStore store_error A) :
  eff example_env store_error A := zoom (λ x, x.2.2) (λ t x, (x.1, (x.2.1, t))) m.

Definition example_limits : Limits := {|
  PushedRequestLifetime := 90 * Second; MaxClientAssertionLifetime := 60 * Second;
  MaxRequestObjectLifetime := 60 * Second; InteractionLifetime := 600 * Second;
  AuthorizationCodeLifetime := 60 * Second; JARMResponseLifetime := 60 * Second;
  AccessTokenLifetime := 300 * Second; IDTokenLifetime := 300 * Second;
  MaxIDTokenClaimsBytes := 65536; MaxAccessTokenClaimsBytes := 65536;
  RefreshTokenLifetime := 86400 * Second; MaxDPoPProofAge := 60 * Second;
  MaxClockSkew := 10 * Second; DPoPNonceLifetime := 300 * Second;
  BackchannelAuthenticationRequestLifetime := 300 * Second;
  MaxBackchannelAuthenticationRequestLifetime := 600 * Second;
  BackchannelAuthenticationPollInterval := 5 * Second;
  MaxClientAttestationLifetime := 300 * Second; MaxClientAttestationPoPAge := 60 * Second |}%Z.

Definition example_config : Config := {|
  cfg_Issuer := "https://op"; cfg_Profile := ProfileFAPISecurity;
  cfg_Assurance := AssuranceDevelopment;
  PushedAuthorizationRequestEndpoint := Some example_target;
  MTLSPushedAuthorizationRequestEndpoint := None; TokenEndpoint := Some example_target;
  MTLSTokenEndpoint := None; BackchannelAuthenticationEndpoint := Some example_target;
  MTLSBackchannelAuthenticationEndpoint := None; RevocationEndpoint := Some example_target;
  MTLSRevocationEndpoint := None; ClientAssertionAlgorithms := [ES256];
  RequestObjectAlgorithms := [ES256]; BackchannelAuthenticationRequestAlgorithms := [ES256];
  cfg_Limits := example_limits;
  cfg_Subjects := PublicSubjects; cfg_Extensions := ∅; cfg_RAR := Some example_registry;
  AdditionalGrantTypes := ["urn:embedder"]; cfg_Resources := []; RequireBindingMessage := false;
  OAuthOnly := false; AttestationBasedClientAuthentication := true;
  ClientAttestationAlgorithms := [ES256]; ClientAttestationPoPAlgorithms := [ES256];
  ClientCredentialsGrant := true |}.

(** Keys are names, and a signature of [input] by [key] is [key ++ input]. *)
Definition example_jose : JoseCrypto := {|
  PublicKey := string;
  verify_signature _ key input sig := bool_decide (sig = key +:+ input);
  ParseJWK _ _ := Some "key"; jwk_Thumbprint key := Some key |}.

Definition example_x509 : @X509 example_jose := {|
  x509 der := {| cert_RDNs := None; cert_Subject := ""; cert_SubjectNames := [];
    cert_DNSNames := []; cert_URIs := []; cert_IPAddresses := []; cert_EmailAddresses := [];
    cert_KeyThumbprint := None; cert_ExtKeyUsage := []; cert_UnknownExtKeyUsage := [];
    cert_IsCA := false; cert_KeyUsage := 0%N; cert_RawIssuer := ""; cert_RawSubject := "";
    cert_RawSubjectPublicKeyInfo := ""; cert_SerialNumber := 0%Z;
    cert_SignedByOwnKey := false |};
  ParseCertificate _ := None; key_material _ := KeyECDSA true true;
  CertPool := unit; NewCertPool _ := tt; x509_Verify _ _ _ _ _ := None |}.

Definition example_client_auth : @ClientAuthEnv example_env example_jose := {|
  Clock x := (x.1, x);
  ResolveClient id := if bool_decide (id ∈ ["c1"; "c2"]) then ret (token_client id)
                      else fail ClientUnknown;
  ResolveVerificationKeys _ _ _ _ :=
    ret [{| vk_KeyID := "k1"; vk_Algorithm := ES256; vk_PublicKey := "key" : @PublicKey example_jose |}];
  env_x509 := example_x509; ip_Equal _ _ := false;
  client_certificate_trust := NoPKIClientAuthentication;
  attester_trust := RegisteredAttesterKeys (λ _ _ _,
    ret [{| vk_KeyID := "a1"; vk_Algorithm := ES256; vk_PublicKey := "attester" : @PublicKey example_jose |}]);
  ClientAttestationStatus := None |}.

Definition server_on (platform : Platform) : Server := {|
  server_platform := platform; server_jose := example_jose; cfg := example_config;
  GrantsT := Grants.GrantStore; server_grants := Grants.grant_store;
  RevocationT := Revocations.RevocationStore; server_revocation := Revocations.revocation_sink;
  BackchannelT := Backchannel.BackchannelAuthenticationStore; has_backchannel := true;
  server_backchannel := Backchannel.backchannel_store;
  TransactionsT := Transactions.TransactionStore;
  server_transactions := Transactions.transaction_store;
  NoncesT := Nonces.NonceStore; has_nonces := false; server_nonces := Nonces.nonce_store;
  Env := example_env;
  env_replay := {| UseOnce u := on_replays (Replays.UseOnce u) |};
  env_access_tokens := {| CreateAccessToken t := on_tokens (AccessTokens.CreateAccessToken t);
                          LookupAccessToken l := on_tokens (AccessTokens.LookupAccessToken l) |};
  env_client_auth := example_client_auth; has_audit := true;
  AllowResources := None; ResolveIdentityClaims := None;
  ServerState.AccessTokens := OpaqueAccessTokens;
  newSigner := ret "signer"; token_IssueIDToken _ _ := ret "id-token";
  encryptIDToken _ _ _ jwt := ret jwt |}.

Definition example_server : Server := server_on example_platform.

#[local] Existing Instances example_server Grants.grant_store_laws Revocations.revocation_laws
  grants_refresh_laws.

(** * A code, a refresh token and a CIBA request *)

Definition example_now : Time := (1700000010 * Second)%Z.
Definition example_verifier : string := "0123456789abcdefghijklmnopqrstuvwxyzABCDEFG".

Definition stored_grant (kind typ : string) : RawMessage :=
  default RawNil (encodeGrantRecord "https://op" {|
    g_Version := 0%Z; g_Kind := kind; g_Issuer := "";
    g_RedirectURI := if bool_decide (kind = grantKindAuthorizationCode) then "https://rp/cb" else "";
    g_CodeChallenge := match Challenge example_verifier S256 with Ok c => c | Err _ => "" end;
    g_Nonce := "n"; g_DPoPJKT := ""; g_Thumbprint := ""; g_ClientInstanceKey := "";
    g_Subject := "alice"; g_ClientSubject := ""; g_PairwiseSector := ""; g_PairwisePrefix := "";
    g_Scope := ["openid"; "offline_access"]; g_AuthTime := (1700000000 * Second)%Z; g_ACR := "";
    g_AMR := []; g_AuthorizationDetails := RawNil; g_Resources := [];
    g_TokenClaims := {["tenant" := Raw (JStr "t1")]}; g_RequestedIDTokenClaims := [];
    g_RequestedUserinfoClaims := []; g_RequestedIDTokenClaimValues := ∅;
    g_RequestedUserinfoClaimValues := ∅; g_IDTokenClaims := ∅; g_GrantID := "grant-1";
    g_CodeGrantID := ""; g_GrantType := typ; g_IssuedAt := Some (1700000001 * Second)%Z |}).

Definition stored_request : RawMessage :=
  default RawNil (encodeRequestRecord "https://op" {|
    rq_Version := 0%Z; rq_Issuer := ""; rq_Parameters := ∅; rq_TokenClaims := ∅; rq_DPoPJKT := "";
    rq_ExtensionSource := 0%Z; rq_ExpiresAt := None; rq_PushedAt := None;
    rq_EssentialACRValues := []; rq_RequiredSubject := ""; rq_RequiredInternalSubject := "";
    rq_Resources := []; rq_ClientInstanceKey := "" |}).

(** The stores after those were written, by the stores' own operations. *)
Definition example_grants : Grants.GrantStore :=
  (Grants.CreateRefreshToken {| nrt_TokenHash := sha256 "rt"; nrt_ClientID := "c1";
     nrt_Grant := stored_grant grantKindRefreshToken "authorization_code";
     nrt_ExpiresAt := (1700086401 * Second)%Z |}
   (Grants.CreateAuthorizationCode {| nac_CodeHash := authorizationCodeHash "the-code" "";
     nac_ClientID := "c1"; nac_Grant := stored_grant grantKindAuthorizationCode "authorization_code";
     nac_ExpiresAt := (1700000061 * Second)%Z |} Grants.NewGrantStore).2).2.

Definition example_backchannel : Backchannel.BackchannelAuthenticationStore :=
  (Backchannel.DecideBackchannelAuthentication {| dba_HandleHash := sha256 "handle";
     dba_Status := BackchannelAuthenticationApproved;
     dba_Grant := stored_grant grantKindBackchannel CIBAGrantType; dba_Reason := "" |}
   (Backchannel.CreateBackchannelAuthentication {|
     nba_AuthReqIDHash := backchannelAuthReqIDHash "req" "" ""; nba_AuthReqID := "req";
     nba_HandleHash := sha256 "handle"; nba_ClientID := "c1"; nba_Request := stored_request;
     nba_DeliveryMode := "poll"; nba_ClientNotificationToken := "";
     nba_PollInterval := (5 * Second)%Z; nba_ExpiresAt := (1700000301 * Second)%Z |}
     Backchannel.NewBackchannelAuthenticationStore).2).2.

Definition example_world : World := {|
  w_grants := example_grants; w_revocation := Revocations.NewRevocationStore;
  w_backchannel := example_backchannel; w_transactions := Transactions.NewTransactionStore;
  w_nonces := Nonces.NewNonceStore;
  w_rotator := zero_rotator;
  w_random := example_random +:+ example_random +:+ example_random +:+ example_random;
  w_env := (example_now, (Replays.NewReplayStore, AccessTokens.NewAccessTokenStore));
  w_audit := [] |}.

Definition form (client : ClientID) (params : list (string * string)) : TokenRequest := {|
  Parameters := (λ p, {| Name := p.1; Value := p.2 |}) <$> ("client_id", client) :: params;
  credentials := {| PeerCertificate := Some "der"; DPoPProofs := []; ClientAttestations := [];
                    ClientAttestationPoPs := [] |} |}.

Definition exchange_form (client : ClientID) : TokenRequest :=
  form client [("grant_type", "authorization_code"); ("code", "the-code");
    ("redirect_uri", "https://rp/cb"); ("code_verifier", example_verifier)].
Definition refresh_form : TokenRequest :=
  form "c1" [("grant_type", "refresh_token"); ("refresh_token", "rt"); ("scope", "openid")].
Definition revoke_form (client : ClientID) : TokenRequest := form client [("token", "rt")].
Definition ciba_form : TokenRequest :=
  form "c1" [("grant_type", CIBAGrantType); ("auth_req_id", "req")].

(** * Their runs *)

Definition succeeds {E A} (m : eff World E A) (w : World) : bool :=
  match (m w).1 with Ok _ => true | Err _ => false end.
Definition after {E A} (m : eff World E A) (w : World) : World := (m w).2.

Lemma succeeds_run {E A} (m : eff World E A) w : succeeds m w = true → ∃ a, m w = (Ok a, after m w).
Proof. unfold succeeds, after. destruct (m w) as [[a|e] w']; [by exists a|done]. Qed.

Definition exchanged : World := after (ExchangeAuthorizationCode (exchange_form "c1")) example_world.

Lemma exchange_authorized_witness :
  ∃ result now grant,
    ExchangeAuthorizationCode (exchange_form "c1") example_world = (Ok result, exchanged) ∧
    clock_reading now ∧ Scope result = join " " (g_Scope grant).
Proof.
  destruct (succeeds_run (ExchangeAuthorizationCode (exchange_form "c1")) example_world)
    as (result & Hrun); [vm_compute; reflexivity|].
  destruct (exchange_authorized _ _ _ _ Hrun)
    as (params & client & ik & thumbprint & redeemed & g & now & grant & _ & _ & _ & _ & Hc & _ & _ & Hs).
  exists result, now, grant. split_and!; done.
Defined.


Definition exchange_params (client : ClientID) : gmap string string :=
  default ∅ (formParametersToMap (takeResourceParameters (Parameters (exchange_form client))).1).

Lemma code_exchanged_once_witness :
  ∃ e, (ExchangeAuthorizationCode (exchange_form "c1") exchanged).1 = Err e.
Proof.
  destruct (succeeds_run (ExchangeAuthorizationCode (exchange_form "c1")) example_world)
    as (result & Hrun); [vm_compute; reflexivity|].
  refine (code_exchanged_once _ (exchange_form "c1") _ _ _ exchanged (exchange_params "c1")
    (token_client "c1") "" (exchange_params "c1") (token_client "c1") "" Hrun _ (rtc_refl _ _) _ _);
    vm_compute; reflexivity.
Defined.

Lemma stolen_code_harmless_witness :
  (∃ e, (ExchangeAuthorizationCode (exchange_form "c2") example_world).1 = Err e) ∧
  stores_same example_world (after (ExchangeAuthorizationCode (exchange_form "c2")) example_world).
Proof.
  refine (stolen_code_harmless (exchange_form "c2") example_world (exchange_params "c2")
    (token_client "c2") "" _ _ _ _ (surjective_pairing _)); [vm_compute; reflexivity|].
  unfold stolen_code. split; [done|]. split.
  - exists "c1". split; [vm_compute; reflexivity|done].
  - intros a g Hr. vm_compute in Hr. discriminate.
Defined.

Lemma example_writes_succeed : writes_succeed.
Proof. split; intros; reflexivity. Qed.

Definition reused_code : AuthorizationCodeAlreadyRedeemedError :=
  match (Grants.RedeemAuthorizationCode {| acr_CodeHash := authorizationCodeHash "the-code" "";
    acr_ClientID := "c1" |} (w_grants exchanged)).1 with
  | Err (CodeAlreadyRedeemed a) => a
  | _ => {| arr_IssuedAccessTokenKey := ""; arr_IssuedRefreshTokenHash := None; arr_ClientID := "" |}
  end.


(** * Refreshing, revoking, polling *)

Lemma refresh_not_rotated_witness :
  stores_same example_world (after (RefreshAccessToken refresh_form) example_world).
Proof. exact (refresh_not_rotated refresh_form example_world _ _ (surjective_pairing _)). Defined.

Lemma refresh_narrows_witness :
  ∃ result, RefreshAccessToken refresh_form example_world =
      (Ok result, after (RefreshAccessToken refresh_form) example_world) ∧
    ∃ params grant redeemed now ik, RefreshToken result = Some (param params "refresh_token") ∧
    refresh_redeemable "c1" ik redeemed grant now.
Proof.
  destruct (succeeds_run (RefreshAccessToken refresh_form) example_world) as (result & Hrun);
    [vm_compute; reflexivity|].
  exists result. split; [done|].
  destruct (refresh_narrows _ _ _ _ Hrun)
    as (params & client & ik & thumbprint & redeemed & grant & now & scope & details & accessGrant &
      audience & claims & Hreq & _ & Ht & _ & Hok & _).
  assert (Some client = Some (token_client "c1")) as [= ->].
  { transitivity ((λ x, x.1.2) <$> refresh_request refresh_form example_world);
      [by rewrite Hreq|vm_compute; reflexivity]. }
  exists params, grant, redeemed, now, ik. by split.
Defined.

Definition revoke_params (client : ClientID) : gmap string string :=
  default ∅ (formParametersToMap (Parameters (revoke_form client))).
Definition revoked_world : World := after (RevokeToken (revoke_form "c1")) example_world.

Lemma revoked_token_never_redeemed_witness :
  ∃ e w, redeemRefreshGrant "c1" "" "rt" revoked_world = (Err e, w).
Proof.
  destruct (succeeds_run (RevokeToken (revoke_form "c1")) example_world) as (result & Hrun);
    [vm_compute; reflexivity|].
  assert (Hrev : Revoked result = true).
  { assert (Ok (E:=Error) (Revoked result) = Ok true) as [= ->]; [|done].
    transitivity (match (RevokeToken (revoke_form "c1") example_world).1 with
                  | Ok r => Ok (Revoked r) | Err e => Err e end);
      [by rewrite Hrun|vm_compute; reflexivity]. }
  destruct (revoked_token_never_redeemed (revoke_form "c1") example_world result revoked_world
    revoked_world (revoke_params "c1") (token_client "c1") "" Hrun Hrev)
    as (redeemed & grant & now & _ & _ & _ & Hnever & _);
    [vm_compute; reflexivity|apply rtc_refl|]. exact (Hnever "c1" "").
Defined.

Definition redemption_client {G} (r : result store_error RedeemedRefreshToken * G) : option ClientID :=
  match r.1 with Ok r => Some (rrt_ClientID r) | Err _ => None end.

Lemma rt_belongs_to_c1 :
  redemption_client (@RedeemRefreshToken GrantsT server_grants
    {| rtr_TokenHash := sha256 (param (revoke_params "c2") "token") |} (w_grants example_world)) =
  Some "c1".
Proof. vm_compute. reflexivity. Qed.

Lemma revocation_of_anothers_token_witness :
  stores_same example_world (after (RevokeToken (revoke_form "c2")) example_world).
Proof.
  refine (proj2 (revocation_of_anothers_token (revoke_form "c2") example_world (revoke_params "c2")
    (token_client "c2") "" _ _ (surjective_pairing _) _ _)).
  - vm_compute. reflexivity.
  - intros redeemed g Hr. pose proof rt_belongs_to_c1 as Hc. rewrite Hr in Hc.
    injection Hc as Hc. simpl in Hc. by rewrite Hc.
Defined.


Lemma backchannel_exchange_authorized_witness :
  ∃ result, ExchangeBackchannelAuthentication ciba_form example_world =
      (Ok result, after (ExchangeBackchannelAuthentication ciba_form) example_world) ∧
    ∃ client polled hash thumbprint ik grant,
      backchannel_redeemable client polled hash thumbprint ik grant ∧
      Scope result = join " " (g_Scope grant).
Proof.
  destruct (succeeds_run (ExchangeBackchannelAuthentication ciba_form) example_world)
    as (result & Hrun); [vm_compute; reflexivity|].
  exists result. split; [done|].
  destruct (backchannel_exchange_authorized _ _ _ _ Hrun)
    as (params & client & ik & thumbprint & details & polled & hash & now & b & b' & grant &
      accessGrant & audience & claims & _ & _ & _ & _ & _ & _ & _ & Hok & _ & _ & _ & Hs & _).
  exists client, polled, hash, thumbprint, ik, grant. by split.
Defined.

(** * Issuing *)

Definition example_binding : refreshBinding := {| rb_Thumbprint := ""; rb_InstanceKey := "" |}.


Lemma accessTokenGrant_narrows_witness :
  ∃ accessGrant, accessTokenGrant
      (with_details (Raw (JArr [example_payment_object 5; example_payment_object 9])) example_grant)
      {| objects := [Raw (example_payment_object 9)]; present := true |} = Ok accessGrant ∧
    g_AuthorizationDetails accessGrant = Raw (JArr [example_payment_object 9]).
Proof.
  eexists. split; [vm_compute; reflexivity|].
  match goal with |- g_AuthorizationDetails ?a = _ =>
    destruct (accessTokenGrant_narrows
      (with_details (Raw (JArr [example_payment_object 5; example_payment_object 9])) example_grant)
      {| objects := [Raw (example_payment_object 9)]; present := true |} a) as (_ & _ & _ & Hd) end;
    [vm_compute; reflexivity|].
  destruct Hd as (registry & granted & narrowed & _ & Hd & _); [done..|]. rewrite Hd.
  vm_compute. reflexivity.
Defined.

Lemma accessTokenClaims_managed_witness :
  ∃ claims, accessTokenClaims (with_code_grant_id "cg" example_grant) = Some claims ∧
    claims !! CodeClaim = Some (Raw (JStr "cg")) ∧ claims !! "tenant" = Some (Raw (JStr "t1")).
Proof.
  destruct (accessTokenClaims (with_code_grant_id "cg" example_grant)) as [claims|] eqn:Hc;
    [|vm_compute in Hc; discriminate].
  exists claims. split; [done|].
  destruct (accessTokenClaims_managed _ _ Hc) as (Hm & _ & Ht). split.
  - rewrite (Hm CodeClaim "cg"); [done|right; left|vm_compute; reflexivity|reflexivity].
  - apply Ht; [|reflexivity]. intros Hin%(bool_decide_eq_true_2 _). vm_compute in Hin. discriminate.
Defined.
