(* ===== verification/FlowExamples.v ===== *)
(** A request through the whole server (pushed, begun, completed and its code
    exchanged, and the same through CIBA) on the concrete server of Examples.v
    with a URL parser that knows one redirect URI; and the theorems about
    client authentication, pushed requests, interactions, the whole flow and
    CIBA applied to those runs. *)
From stdpp Require Import relations.
From S2P Require Import Prelude GoStrings Json GoTime Sha256 Base64 Pkce Digests Effects.
From S2P Require Import Storage MemStore MemTheorems Platform ServerTypes Rar Canonical.
From S2P Require Import JsonCodec Nonce Records Claims Dpop Jose Extensions.
From S2P Require Import RequestObject Attestation ClientAuth ClientAuthTheorems.
From S2P Require Import ServerState.
From S2P Require Import TokenChecks Issue CodeExchange BackchannelToken Parameters.
From S2P Require Import ClaimsParameter Subjects Par Authorization Completion Ciba Frames.
From S2P Require Import OtherGrants.
From S2P Require Import HandlerLemmas PushTheorems CompletionTheorems CibaRequestTheorems.
From S2P Require Import InteractionTheorems Provenance CibaDecisionTheorems.
From S2P Require Import ExchangeTheorems CibaTheorems EndToEnd CibaEndToEnd Registration.
From S2P Require Import Examples.
From stdpp Require Import options.

Definition redirect_query (s : string) : string :=
  match s with String "?" q => q | _ => s end.

(** The JSON the example's JWTs and claims parameters are the text of. *)
Definition example_texts : gmap string json := {[
  "H" := JObj [("alg", JStr "ES256"); ("kid", JStr "k1")];
  "A" := JObj [("iss", JStr "c1"); ("sub", JStr "c1"); ("aud", JStr "https://op");
    ("jti", JStr "j1"); ("exp", JNum (Number false 1700000050 0))];
  "B" := JObj [("iss", JStr "c1"); ("aud", JStr "https://op"); ("jti", JStr "j2");
    ("exp", JNum (Number false 1700000050 0)); ("nbf", JNum (Number false 1699999990 0));
    ("iat", JNum (Number false 1699999990 0)); ("scope", JStr "openid payments");
    ("login_hint", JStr "alice")];
  "T" := JObj [("alg", JStr "ES256"); ("typ", JStr "oauth-client-attestation+jwt")];
  "P" := JObj [("alg", JStr "ES256"); ("typ", JStr "oauth-client-attestation-pop+jwt")];
  "C" := JObj [("sub", JStr "c1"); ("exp", JNum (Number false 1700000050 0));
    ("cnf", JObj [("jwk", JObj [])])];
  "D" := JObj [("aud", JStr "https://op"); ("jti", JStr "j3");
    ("iat", JNum (Number false 1700000005 0))];
  "once" := JObj [("id_token", JObj [("acr", JObj [("essential", JBool true);
    ("value", JStr "gold")])])];
  "twice" := JStr "once" ]}.

(** Parses https://rp/cb with a query, and writes any https URL. *)
Definition front_platform : Platform := {|
  url_parse s :=
    if has_prefix s "https://rp/cb" then Some {|
      url_Scheme := "https"; url_Opaque := ""; url_HasUser := false; url_Host := "rp";
      url_Hostname := "rp"; url_Port := ""; url_Path := "/cb"; url_EscapedPath := "/cb";
      url_RawQuery := redirect_query (drop_bytes 13 s); url_ForceQuery := false;
      url_Fragment := ""; url_RawFragment := "" |}
    else None;
  url_string u := url_Scheme u +:+ "://" +:+ url_Host u +:+ url_EscapedPath u +:+
    (if bool_decide (url_RawQuery u = "") then "" else "?" +:+ url_RawQuery u);
  ip_is_loopback _ := None;
  raw_length r := match r with RawNil => 0 | _ => 2 end;
  fold_key s := s;
  decodes_losslessly _ := true;
  json_text s := match example_texts !! s with Some j => Raw j | None => RawInvalid end;
  unicode_Cf _ := false; unicode_visible _ := true;
  raw_length_nil := ltac:(by intros []);
  raw_length_RawNil := eq_refl |}.

Definition front_server : Server := server_on front_platform.

#[local] Existing Instances front_server.

Definition front_deps : FrontServer := {|
  PairwiseSubjects := None; PairwiseSubjectResolver := None;
  verifyIDTokenHint _ _ := fail (newError ErrorInvalidRequest 400 "");
  AuthorizationCodeRARPolicy := None;
  newJARMSigner := ret "signer"; jarm_Sign _ _ := ret "jwt" |}.

#[local] Existing Instances front_deps.

Definition front_ciba : CibaServer := {|
  CIBARARPolicy := None; BackchannelHints := None; backchannelPingSupported := false;
  Notify _ := ret tt |}.

#[local] Existing Instances front_ciba.

Definition front_world : World := {|
  w_grants := Grants.NewGrantStore; w_revocation := Revocations.NewRevocationStore;
  w_backchannel := Backchannel.NewBackchannelAuthenticationStore;
  w_transactions := Transactions.NewTransactionStore;
  w_nonces := Nonces.NewNonceStore; w_rotator := zero_rotator;
  w_random := example_random +:+ example_random +:+ example_random +:+ example_random +:+
    example_random;
  w_env := (example_now, (Replays.NewReplayStore, AccessTokens.NewAccessTokenStore));
  w_audit := [] |}.

Definition example_challenge : string :=
  match Challenge example_verifier S256 with Ok c => c | Err _ => "" end.

(** The compact JWT of a header and a payload: its signature is the key and
    what is signed. *)
Definition example_jws (header key payload : string) : string :=
  let input := EncodeToString rawURL header +:+ "." +:+ EncodeToString rawURL payload in
  input +:+ "." +:+ EncodeToString rawURL (key +:+ input).
Definition example_jwt : string → string := example_jws "H" "key".

Definition push_form : TokenRequest :=
  form "c1" [("response_type", "code"); ("redirect_uri", "https://rp/cb"); ("state", "s1");
    ("scope", "openid payments"); ("code_challenge", example_challenge);
    ("code_challenge_method", "S256"); ("nonce", "n1"); ("max_age", "600")].

Definition pushed_run := PushAuthorizationRequest push_form front_world.
Definition pushed_uri : string := match pushed_run.1 with Ok r => RequestURI r | Err _ => "" end.
Definition begin_request : BeginAuthorizationRequest :=
  {| bar_RequestURI := pushed_uri; bar_ClientID := "c1"; bar_Request := "" |}.
Definition begun_run := Server_BeginAuthorization begin_request pushed_run.2.
Definition begun_handle : string :=
  match begun_run.1 with Ok (InteractionRequired h _ _) => h | _ => "" end.

Definition example_auth : AuthenticationContext :=
  {| ac_authTime := (1700000000 * Second)%Z; ac_acr := ""; ac_amr := [] |}.
Definition example_granted : GrantedAuthorization := {|
  ga_Scope := ["openid"]; ga_ApprovedIdentityClaims := []; ga_AuthorizationDetails := [];
  ga_Resources := []; ga_IDTokenClaims := ∅; ga_GrantID := "" |}.
Definition complete_request : CompleteAuthorizationRequest := {|
  car_Handle := begun_handle;
  car_Result := Some (authorizeResult "alice" example_auth example_granted) |}.
Definition completed_run := Server_CompleteAuthorization complete_request begun_run.2.

(** A CIBA request: sent, approved, and its auth_req_id exchanged. *)
Definition ciba_request_form : TokenRequest := form "c1" [("request", example_jwt "B")].
Definition asked_run := BeginBackchannelAuthentication ciba_request_form front_world.
Definition asked_handle : string :=
  match asked_run.1 with Ok (BackchannelInteractionRequired h _ _ _ _) => h | _ => "" end.
Definition asked_id : string :=
  match asked_run.1 with Ok (BackchannelInteractionRequired _ i _ _ _) => i | _ => "" end.
Definition ciba_decision : CompleteBackchannelAuthenticationRequest := {|
  cbr_Handle := asked_handle;
  cbr_Result := Some (authorizeResult "alice" example_auth example_granted) |}.
Definition decided_run := CompleteBackchannelAuthentication ciba_decision asked_run.2.
Definition ciba_token_form : TokenRequest :=
  form "c1" [("grant_type", CIBAGrantType); ("auth_req_id", asked_id)].

#[local] Existing Instances front_server front_deps front_ciba backchannel_provenance Grants.grant_store_laws
  Revocations.revocation_laws grant_provenance transaction_provenance.

(** * The flow *)

Definition code_of (destination : ParsedURL) : string :=
  let q := url_RawQuery destination in
  match Split q "&" with
  | first :: _ => match CutPrefix first "code=" with Some code => code | None => "" end
  | [] => ""
  end.

Definition sent_code : string :=
  match completed_run.1 with
  | Ok (AuthorizationRedirect destination) => code_of destination
  | _ => ""
  end.

Definition flow_form : TokenRequest :=
  form "c1" [("grant_type", "authorization_code"); ("code", sent_code);
    ("redirect_uri", "https://rp/cb"); ("code_verifier", example_verifier)].

(** A run that returned. *)
Definition returned {S E A} (run : result E A * S) : bool :=
  match run.1 with Ok _ => true | Err _ => false end.

Lemma returned_run {S E A} (m : eff S E A) s : returned (m s) = true → ∃ a s', m s = (Ok a, s').
Proof. unfold returned. destruct (m s) as [[a|e] s']; [by exists a, s'|done]. Qed.

Lemma front_fresh : fresh front_world.
Proof.
  split; [intros h c Hc; simpl in Hc; by rewrite lookup_empty in Hc|].
  intros c raw [(ref & p & Hp & _)|(h & i & Hi & _)]; simpl in *; by rewrite lookup_empty in *.
Qed.

Lemma pushed_run_eq : PushAuthorizationRequest push_form front_world = (pushed_run.1, pushed_run.2).
Proof. unfold pushed_run. apply surjective_pairing. Qed.
Lemma begun_run_eq :
  Server_BeginAuthorization begin_request pushed_run.2 = (begun_run.1, begun_run.2).
Proof. unfold begun_run. apply surjective_pairing. Qed.
Lemma completed_run_eq :
  Server_CompleteAuthorization complete_request begun_run.2 = (completed_run.1, completed_run.2).
Proof. unfold completed_run. apply surjective_pairing. Qed.

Lemma flow_steps : rtc flow_step front_world completed_run.2.
Proof.
  apply rtc_l with pushed_run.2; [exact (flow_push _ _ _ _ pushed_run_eq)|].
  apply rtc_l with begun_run.2; [exact (flow_begin _ _ _ _ begun_run_eq)|].
  apply rtc_l with completed_run.2; [exact (flow_complete _ _ _ _ completed_run_eq)|].
  apply rtc_refl.
Qed.

Lemma exchanged_code_was_authorized_witness :
  ∃ result pusher record g w',
    ExchangeAuthorizationCode flow_form completed_run.2 = (Ok result, w') ∧
    client_id pusher = "c1" ∧
    jsonString (rq_Parameters record) "redirect_uri" = Some "https://rp/cb" ∧
    Scope result = join " " (g_Scope g) ∧
    ∀ sc, sc ∈ g_Scope g → sc ∈ pushed_scope record.
Proof.
  destruct (returned_run (ExchangeAuthorizationCode flow_form) completed_run.2)
    as (result & w' & Hrun); [vm_compute; reflexivity|].
  destruct (exchanged_code_was_authorized front_world completed_run.2 flow_form result w'
    front_fresh flow_steps Hrun)
    as (params & client & ik & thumbprint & Hreq & _ & nac & push & pusher & record & subject & auth &
      grant & g & jkt & _ & Hid & _ & _ & Huri & _ & _ & _ & _ & Hs & Hsc).
  assert (Hf : option_map (λ p, (client_id p.1.2, param p.1.1 "redirect_uri"))
    (exchange_request flow_form completed_run.2) = Some ("c1", "https://rp/cb"))
    by (vm_compute; reflexivity).
  rewrite Hreq in Hf. injection Hf as Hc Hu. exists result, pusher, record, g, w'.
  rewrite Hid, Hc. rewrite Hu in Huri.
  split; [exact Hrun|]. split; [reflexivity|]. split; [exact Huri|]. split; [exact Hs|].
  intros sc Hin. apply Hsc, Hin.
Defined.

Lemma push_stores_request_witness :
  ∃ result w' form client proof ik record,
    PushAuthorizationRequest push_form front_world = (Ok result, w') ∧
    pushed_ok client form (takeResourceParameters (ServerState.Parameters push_form)).2 proof ik record.
Proof.
  destruct (returned_run (PushAuthorizationRequest push_form) front_world)
    as (result & w' & Hrun); [vm_compute; reflexivity|].
  destruct (push_stores_request _ _ _ _ Hrun)
    as (form & client & proof & ik & record & reference & now & p & _ & Hok & _).
  exists result, w', form, client, proof, ik, record. split; [exact Hrun|exact Hok].
Defined.

Lemma completion_issues_code_witness :
  ∃ completed, completion_stored (car_Result complete_request) completed
    (w_grants begun_run.2) (w_grants completed_run.2).
Proof.
  destruct (completion_issues_code complete_request begun_run.2 completed_run.1 completed_run.2
    completed_run_eq) as [Hsame|(completed & t & _ & Hstored)]; [|exists completed; exact Hstored].
  exfalso. apply (f_equal (λ s, size (Grants.codes s))) in Hsame. vm_compute in Hsame. discriminate.
Defined.

Definition asks_interaction (r : result Error AuthorizationAction) : bool :=
  match r with Ok (InteractionRequired _ _ _) => true | _ => false end.
Lemma asks_interaction_true r :
  asks_interaction r = true → ∃ handle interaction expiresAt,
    r = Ok (InteractionRequired handle interaction expiresAt).
Proof. destruct r as [[]|]; naive_solver. Qed.

Definition redirects (r : result Error AuthorizationResult) : bool :=
  match r with Ok (AuthorizationRedirect _) => true | _ => false end.
Lemma redirects_true r :
  redirects r = true → ∃ destination, r = Ok (AuthorizationRedirect destination).
Proof. destruct r as [[]|]; naive_solver. Qed.

Lemma begin_shows_pushed_request_witness :
  ∃ handle interaction expiresAt record w',
    Server_BeginAuthorization begin_request pushed_run.2 =
      (Ok (InteractionRequired handle interaction expiresAt), w') ∧
    ir_Scope interaction = pushed_scope record.
Proof.
  pose proof begun_run_eq as Hrun.
  destruct (asks_interaction_true begun_run.1) as (handle & interaction & expiresAt & Hr);
    [vm_compute; reflexivity|]. rewrite Hr in Hrun.
  pose proof (begin_shows_pushed_request begin_request pushed_run.2 handle interaction expiresAt
    begun_run.2 Hrun) as Hshown.
  destruct Hshown
    as (reference & t & pushed & t' & record & now & client & _ & _ & _ & _ & _ & _ & _ & _ & ext & Hi).
  exists handle, interaction, expiresAt, record, begun_run.2. split; [exact Hrun|].
  rewrite Hi. reflexivity.
Defined.

Lemma redirect_only_to_registered_witness :
  ∃ destination uri state w',
    Server_CompleteAuthorization complete_request begun_run.2 =
      (Ok (AuthorizationRedirect destination), w') ∧
    redirected (car_Result complete_request) uri state destination.
Proof.
  pose proof completed_run_eq as Hrun.
  destruct (redirects_true completed_run.1) as (destination & Hr); [vm_compute; reflexivity|].
  rewrite Hr in Hrun.
  pose proof (redirect_only_to_registered complete_request begun_run.2 destination completed_run.2
    Hrun) as Hto.
  destruct Hto
    as (completed & t & request & uri & state & client & _ & _ & _ & _ & _ & _ & Hred).
  exists destination, uri, state, completed_run.2. split; [exact Hrun|exact Hred].
Defined.

(** * Slots *)

Definition slot_claim (s : Replays.ReplayStore) : result Error unit * Replays.ReplayStore :=
  @claim_slots _ Replays.replay_store "ref" (Unix 1700000100) (seq 0 maxInteractionsPerRequestURI) s.

Fixpoint claims_run (n : nat) : Replays.ReplayStore :=
  match n with O => Replays.NewReplayStore | S n => (slot_claim (claims_run n)).2 end.

Lemma claims_run_begun n :
  (slot_claim (claims_run n)).1 = Ok tt →
  begun "ref" n Replays.NewReplayStore (claims_run n) →
  begun "ref" (S n) Replays.NewReplayStore (claims_run (S n)).
Proof.
  intros Hok Hb. simpl. eapply begun_one; [exact Hb|].
  destruct (slot_claim (claims_run n)) as [r s] eqn:Hr. simpl in Hok. subst r. exact Hr.
Qed.

(** Eight claims succeed, and the ninth does not. *)
Lemma interactions_bounded_witness :
  (8 ≤ maxInteractionsPerRequestURI ∧ begun "ref" 8 Replays.NewReplayStore (claims_run 8)) ∧
  (slot_claim (claims_run 8)).1 = Err too_many_interactions.
Proof.
  assert (Hb : begun "ref" 8 Replays.NewReplayStore (claims_run 8)).
  { do 8 (apply claims_run_begun; [vm_compute; reflexivity|]). constructor. }
  split; [|vm_compute; reflexivity]. split; [|exact Hb].
  exact (interactions_bounded "ref" 8 _ _ Hb).
Defined.

(** * Client authentication *)

Definition assertion_params : gmap string string :=
  {["client_assertion_type" := ClientAssertion.AssertionType;
    "client_assertion" := example_jwt "A"]}.

Lemma client_assertion_authenticated_witness :
  ∃ client verified x', authenticateClientViaAssertion cfg assertion_params [] [] (w_env front_world) =
      (Ok (client, verified), x') ∧
    ClientAssertion.va_ClientID verified = client_id client.
Proof.
  destruct (returned_run (authenticateClientViaAssertion cfg assertion_params [] []) (w_env front_world))
    as ([client verified] & x' & Hrun); [vm_compute; reflexivity|].
  pose proof (client_assertion_authenticated cfg assertion_params [] [] (w_env front_world) client
    verified x' Hrun) as [Hid _].
  exists client, verified, x'. split; [exact Hrun|exact Hid].
Defined.

Lemma attested_client_authenticated_witness :
  ∃ client verified x', authenticateClientViaAttestation cfg "" (example_jws "T" "attester" "C")
      (example_jws "P" "key" "D") (w_env front_world) = (Ok (client, verified), x') ∧
    ClientAssertion.va_ClientID verified = client_id client.
Proof.
  destruct (returned_run (authenticateClientViaAttestation cfg "" (example_jws "T" "attester" "C")
    (example_jws "P" "key" "D")) (w_env front_world)) as ([client verified] & x' & Hrun);
    [vm_compute; reflexivity|].
  pose proof (attested_client_authenticated cfg "" (example_jws "T" "attester" "C")
    (example_jws "P" "key" "D") (w_env front_world) client verified x' Hrun) as [Hid _].
  exists client, verified, x'. split; [exact Hrun|exact Hid].
Defined.

Lemma client_certificate_authenticated_witness :
  ∃ client verified x', authenticateClientViaCertificate "c1" (Some "der") (w_env front_world) =
      (Ok (client, verified), x') ∧
    ∃ method, certificate_matches client "der" method.
Proof.
  destruct (returned_run (authenticateClientViaCertificate "c1" (Some "der")) (w_env front_world))
    as ([client verified] & x' & Hrun); [vm_compute; reflexivity|].
  pose proof (client_certificate_authenticated "c1" (Some "der") (w_env front_world) client
    verified x' Hrun) as (_ & der & method & Hder & _ & _ & Hm).
  injection Hder as <-. exists client, verified, x'. split; [exact Hrun|]. exists method. exact Hm.
Defined.

Definition example_assertion : ClientAssertion.Assertion := {|
  ClientAssertion.as_compact := {|
    cp_Header := {| hd_Algorithm := ES256; hd_Type := ""; hd_KeyID := "k1"; hd_JWK := None;
                    hd_X5C := RawNil |};
    cp_Payload := "A"; cp_signingInput := "input"; cp_signature := "keyinput" |};
  ClientAssertion.as_claims := {|
    ClientAssertion.c_Issuer := "c1"; ClientAssertion.c_Subject := "c1";
    ClientAssertion.c_Audience := "https://op"; ClientAssertion.c_JTI := "j1";
    ClientAssertion.c_ExpiresAt := 1700000050; ClientAssertion.c_IssuedAt := 0;
    ClientAssertion.c_NotBefore := 0 |}%Z |}.

Definition example_assertion_policy : ClientAssertion.VerifyPolicy Replays.ReplayStore := {|
  ClientAssertion.ExpectedClientID := "c1"; ClientAssertion.ExpectedAudiences := ["https://op"];
  ClientAssertion.Algorithm := ES256; ClientAssertion.Policy_Now := example_now;
  ClientAssertion.MaxLifetime := (60 * Second)%Z;
  ClientAssertion.Policy_MaxClockSkew := (10 * Second)%Z;
  ClientAssertion.Replay :=
    Some (@clientSignedJWTReplayChecker _ Replays.replay_store "c1") |}.

Lemma client_jwt_accepted_once_witness :
  ∃ s, @client_jwt_accepted example_jose _ Replays.replay_store "c1" "j1"
      Replays.NewReplayStore s ∧
    ∀ s', ¬ @client_jwt_accepted example_jose _ Replays.replay_store "c1" "j1" s s'.
Proof.
  destruct (returned_run
    (ClientAssertion.Verify example_assertion_policy example_assertion "key") Replays.NewReplayStore)
    as (v & s & Hrun); [vm_compute; reflexivity|].
  exists s. assert (Ha : @client_jwt_accepted example_jose _ Replays.replay_store "c1"
    "j1" Replays.NewReplayStore s).
  { exact (assertion_jwt _ _ _ _ example_assertion_policy example_assertion _ v eq_refl eq_refl Hrun). }
  split; [exact Ha|]. intros s'.
  exact (client_jwt_accepted_once "c1" "j1" _ s s s' Ha (rtc_refl _ _)).
Defined.

(** * A claims parameter encoded twice *)

Lemma doubly_encoded_claims_ignored_witness :
  validateClaimsParameter {["claims" := Raw (JStr "twice")]} = Ok tt ∧
  essentialACRValues {["claims" := Raw (JStr "once")]} = Ok ["gold"] ∧
  essentialACRValues {["claims" := Raw (JStr "twice")]} = Ok [].
Proof.
  destruct (doubly_encoded_claims_ignored {["claims" := Raw (JStr "twice")]} "twice" "once"
    [("id_token", JObj [("acr", JObj [("essential", JBool true); ("value", JStr "gold")])])])
    as (Hval & _ & Hacr & _); try (vm_compute; reflexivity).
  - apply (bool_decide_unpack _). vm_compute. exact I.
  - split; [exact Hval|]. split; [vm_compute; reflexivity|exact Hacr].
Defined.

(** * The theorems about CIBA, applied to the same runs. *)

#[local] Existing Instances front_server front_deps front_ciba Grants.grant_store_laws
  Revocations.revocation_laws grant_provenance transaction_provenance backchannel_provenance.

Lemma front_no_ciba : no_ciba front_world.
Proof.
  split; [intros h l Hl; simpl in Hl; by rewrite lookup_empty in Hl|].
  intros n d (l & rec & Hl & _). simpl in Hl. by rewrite lookup_empty in Hl.
Qed.

Lemma asked_run_eq : BeginBackchannelAuthentication ciba_request_form front_world = (asked_run.1, asked_run.2).
Proof. unfold asked_run. apply surjective_pairing. Qed.
Lemma decided_run_eq :
  CompleteBackchannelAuthentication ciba_decision asked_run.2 = (decided_run.1, decided_run.2).
Proof. unfold decided_run. apply surjective_pairing. Qed.

Lemma ciba_steps : rtc flow_step front_world decided_run.2.
Proof.
  apply rtc_l with asked_run.2; [exact (flow_begin_ciba _ _ _ _ asked_run_eq)|].
  apply rtc_l with decided_run.2; [exact (flow_complete_ciba _ _ _ _ decided_run_eq)|].
  apply rtc_refl.
Qed.

Lemma exchanged_auth_req_was_approved_witness :
  ∃ result asker record g w',
    ExchangeBackchannelAuthentication ciba_token_form decided_run.2 = (Ok result, w') ∧
    client_id asker = "c1" ∧ backchannel_wellformed asker (rq_Parameters record) ∧
    Scope result = join " " (g_Scope g) ∧ ∀ sc, sc ∈ g_Scope g → sc ∈ pushed_scope record.
Proof.
  destruct (returned_run (ExchangeBackchannelAuthentication ciba_token_form) decided_run.2)
    as (result & w' & Hrun); [vm_compute; reflexivity|].
  destruct (exchanged_auth_req_was_approved front_world decided_run.2 ciba_token_form result w'
    front_no_ciba ciba_steps Hrun)
    as (params & client & ik & thumbprint & Hreq & _ & n & raw & asked & asker & record & subject & auth &
      grant & g & _ & _ & Hid & Hwf & _ & _ & _ & Hs & Hsc).
  assert (Hf : option_map (λ p, client_id p.1.2)
    (backchannel_token_request ciba_token_form decided_run.2) = Some "c1") by (vm_compute; reflexivity).
  rewrite Hreq in Hf. injection Hf as Hc. exists result, asker, record, g, w'.
  rewrite Hid, Hc. split; [exact Hrun|]. split; [reflexivity|]. split; [exact Hwf|]. split; [exact Hs|].
  intros sc Hin. apply Hsc, Hin.
Defined.

Definition answers_ciba (r : result Error BackchannelAuthenticationAction) : bool :=
  match r with Ok (BackchannelInteractionRequired _ _ _ _ _) => true | _ => false end.
Lemma answers_ciba_true r :
  answers_ciba r = true → ∃ handle authReqID expiresIn interval interaction,
    r = Ok (BackchannelInteractionRequired handle authReqID expiresIn interval interaction).
Proof. destruct r as [[]|]; naive_solver. Qed.

Lemma backchannel_request_stored_witness :
  ∃ handle authReqID expiresIn interval interaction record client form proof ik w',
    BeginBackchannelAuthentication ciba_request_form front_world =
      (Ok (BackchannelInteractionRequired handle authReqID expiresIn interval interaction), w') ∧
    backchannel_ok client form proof ik record ∧
    backchannelInteraction client (rq_Parameters record) (rq_Resources record)
      (requiredSubjectForApplication record) = Some interaction.
Proof.
  pose proof asked_run_eq as Hrun.
  destruct (answers_ciba_true asked_run.1) as (handle & authReqID & expiresIn & interval & interaction & Hr);
    [vm_compute; reflexivity|]. rewrite Hr in Hrun.
  destruct (backchannel_request_stored ciba_request_form front_world handle authReqID expiresIn interval
    interaction asked_run.2 Hrun)
    as (f & client & proof & ik & record & n & _ & Hok & _ & _ & _ & _ & _ & _ & Hshown).
  exists handle, authReqID, expiresIn, interval, interaction, record, client, f, proof, ik, asked_run.2.
  split; [exact Hrun|]. split; [exact Hok|exact Hshown].
Defined.

(** * The other grants *)

Definition front_grants : GrantServer := {| ClientCredentialsRARPolicy := None |}.
#[local] Existing Instances front_grants.

Definition credentials_form : TokenRequest :=
  form "c1" [("grant_type", "client_credentials"); ("scope", "payments")].

Lemma client_credentials_authorized_witness :
  ∃ result client,
    (RequestClientCredentialsToken credentials_form front_world).1 = Ok result ∧
    allowsClientCredentialsGrant client = true ∧ RefreshToken result = None.
Proof.
  destruct (returned_run (RequestClientCredentialsToken credentials_form) front_world)
    as (result & w' & Hrun); [vm_compute; reflexivity|].
  destruct (client_credentials_authorized _ _ _ _ Hrun)
    as (params & client & ik & scope & details & audience & thumbprint & now & _ & _ & _ & Hc &
      _ & _ & _ & _ & _ & _ & _ & _ & _ & Hrt & _).
  exists result, client. split_and!; [exact (f_equal fst Hrun)|exact Hc|exact Hrt].
Defined.

(** An embedder's run: its client attested, its binding verified, and a token
    issued for both. *)
Definition embedder_form : TokenRequest := {|
  Parameters := [{| Name := "client_id"; Value := "c1" |}];
  credentials := {| PeerCertificate := Some "der"; DPoPProofs := [];
    ClientAttestations := [example_jws "T" "attester" "C"];
    ClientAttestationPoPs := [example_jws "P" "key" "D"] |} |}.
Definition attested_run :=
  AuthenticateAttestedClient (AttestedClientAuthentication embedder_form) front_world.
Definition bound_run := VerifyTokenRequestBinding (token_client "c1") embedder_form attested_run.2.
Definition embedder_request (c : AttestedClient) (b : TokenBinding) : embedderGrantRequest := {|
  eg_GrantType := "urn:embedder"; eg_Client := c; eg_Binding := b; eg_Subject := "alice";
  eg_Scope := ["payments"]; eg_AuthorizationDetails := []; eg_Resources := []; eg_GrantID := "" |}.

Definition embedder_run : srv TokenResult :=
  let* attested := lift attested_run.1 in
  let* binding := lift bound_run.1 in
  Server_IssueAccessToken (embedder_request attested binding).

Lemma run_eq {S E A} (run : result E A * S) a : run.1 = Ok a → run = (Ok a, run.2).
Proof. destruct run as [r s]. simpl. by intros ->. Qed.

Lemma embedder_token_bound_witness :
  ∃ attested binding result w',
    attested_run.1 = Ok attested ∧ bound_run.1 = Ok binding ∧
    Server_IssueAccessToken (embedder_request attested binding) bound_run.2 = (Ok result, w') ∧
    client_id (atc_Client attested) = "c1" ∧ RefreshToken result = None.
Proof.
  destruct (returned_run embedder_run bound_run.2) as (result & w' & Hrun);
    [vm_compute; reflexivity|].
  apply ebind_Ok in Hrun as (attested & w1 & [Ha ->]%lift_Ok & Hrun).
  apply ebind_Ok in Hrun as (binding & w2 & [Hb ->]%lift_Ok & Hi).
  destruct (embedder_token_bound (AttestedClientAuthentication embedder_form) front_world attested
    attested_run.2 (token_client "c1") embedder_form attested_run.2 binding bound_run.2
    (embedder_request attested binding) bound_run.2 result w' (run_eq _ _ Ha) (run_eq _ _ Hb)
    eq_refl eq_refl eq_refl eq_refl eq_refl Hi)
    as (_ & Hid & _ & thumbprint & grant & claims & now & _ & _ & _ & _ & _ & _ & Hrt).
  exists attested, binding, result, w'.
  split_and!; [exact Ha|exact Hb|exact Hi|exact Hid|exact Hrt].
Defined.

(** * Registration *)

Definition example_registration : RegisteredClientConfig := {|
  rc_ID := "c3"; rc_RedirectURIs := ["https://rp/cb?tenant=1"]; rc_ApplicationType := 0%N;
  rc_ClientAuthMethod := PrivateKeyJWT; rc_ClientAuthMethods := [];
  rc_ClientAssertionAlgorithm := ES256; rc_ClientAssertionAlgorithms := [];
  rc_ExpectedCertificateThumbprint := ""; rc_AdditionalCertificateThumbprints := [];
  rc_CertificateKeyThumbprints := []; rc_ExpectedSubjectDN := ""; rc_ExpectedSANDNS := "";
  rc_ExpectedSANURI := ""; rc_ExpectedSANEmail := ""; rc_ExpectedAttesterIssuer := "";
  rc_ClientAttestationAlgorithm := 0%N; rc_ExpectedSANIP := "";
  rc_RequestObjectAlgorithm := ES256; rc_SenderConstrain := 0%N;
  rc_IDTokenEncryptionKeyManagement := 0%N; rc_IDTokenEncryptionContentEncryption := 0%N;
  rc_UserInfoEncryptionKeyManagement := 0%N; rc_UserInfoEncryptionContentEncryption := 0%N;
  rc_BackchannelAuthenticationRequestAlgorithm := 0%N; rc_BackchannelTokenDeliveryMode := 0%N;
  rc_BackchannelClientNotificationEndpoint := None; rc_AllowedScopes := ["openid"; "payments"];
  rc_AuthorizationDetailsTypes := []; rc_AllowedResources := [];
  rc_AllowsClientCredentialsGrant := false; rc_AutomaticFederationRegistration := false;
  rc_Display := {| cd_Name := "Example"; cd_LogoURI := None; cd_PolicyURI := None;
    cd_TermsOfServiceURI := None |};
  rc_SubjectType := 2%N; rc_Sector := "" |}.

Lemma registers {E A} (r : result E A) : is_ok r = true → ∃ a, r = Ok a.
Proof. destruct r; [by eexists|done]. Qed.

Lemma registered_client_ok_witness :
  ∃ client, NewRegisteredClient example_registration = Ok client ∧ client_id client ≠ "".
Proof.
  destruct (registers (NewRegisteredClient example_registration)) as [client Hreg];
    [vm_compute; reflexivity|].
  exists client. split; [exact Hreg|]. exact (ro_id _ (registered_client_ok _ _ Hreg)).
Defined.

Lemma response_parameters_once_witness :
  ∃ client destination w',
    NewRegisteredClient example_registration = Ok client ∧
    "https://rp/cb?tenant=1" ∈ redirectURIs client ∧
    buildAuthorizationResponse "c3" "https://rp/cb?tenant=1" {["code" := "c"; "state" := "s"]}
      front_world = (Ok destination, w').
Proof.
  destruct (registers (NewRegisteredClient example_registration)) as [client Hreg];
    [vm_compute; reflexivity|].
  destruct (returned_run (buildAuthorizationResponse "c3" "https://rp/cb?tenant=1"
    {["code" := "c"; "state" := "s"]}) front_world) as (destination & w' & Hrun);
    [vm_compute; reflexivity|].
  assert (Huri : "https://rp/cb?tenant=1" ∈ redirectURIs client).
  { revert Hreg. vm_compute. intros [= <-]. by left. }
  destruct (response_parameters_once _ _ _ _ _ _ _ _ Hreg Huri Hrun)
    as (base & response & Hbase & _ & _).
  exists client, destination, w'. split_and!; [exact Hreg|exact Huri|exact Hrun].
Defined.
