(* ===== verification/ResourceExamples.v ===== *)
(** A resource server beside the example's authorization server: an opaque
    access token bound to a DPoP key, two proofs of it, and the runs the
    resource server's theorems are applied to. *)
From stdpp Require Import relations.
From S2P Require Import Prelude GoStrings Json GoTime Sha256 Base64 Platform JsonCodec.
From S2P Require Import Pkce.
From S2P Require Import Digests Effects Storage MemStore MemTheorems ServerTypes Nonce.
From S2P Require Import Records.
From S2P Require Import Claims Dpop Jose Canonical Extensions Attestation ClientAuth.
From S2P Require Import ServerState TokenChecks Issue CodeExchange.
From S2P Require Import HandlerLemmas.
From S2P Require Import Tokens Subjects Resource ExchangeTheorems.
From S2P Require Import ResourceTheorems ResourceEndToEnd Examples.
From stdpp Require Import options.

(** * Its platform: one URL, and the texts of two proofs *)

Definition accounts_text : string := "https://rs.example/accounts".
Definition accounts_url (path : string) : ParsedURL := {|
  url_Scheme := "https"; url_Opaque := ""; url_HasUser := false; url_Host := "rs.example";
  url_Hostname := "rs.example"; url_Port := ""; url_Path := path; url_EscapedPath := path;
  url_RawQuery := ""; url_ForceQuery := false; url_Fragment := ""; url_RawFragment := "" |}.

Definition opaque_token : string := EncodeToString rawURL example_random.

Definition proof_claims (jti : string) : json :=
  JObj [("jti", JStr jti); ("htm", JStr "GET"); ("htu", JStr accounts_text);
    ("iat", JNum (Number false 1700000005 0)); ("ath", JStr (accessTokenHash opaque_token))].

Definition proof_texts : gmap string json := {[
  "H" := JObj [("alg", JStr "ES256"); ("typ", JStr "dpop+jwt"); ("jwk", JObj [("kty", JStr "EC")])];
  "p1" := proof_claims "p1"; "p2" := proof_claims "p2" ]}.

Definition resource_platform : Platform := {|
  url_parse s := if bool_decide (s = accounts_text) then Some (accounts_url "/accounts") else None;
  url_string u := "https://" +:+ url_Host u +:+ url_EscapedPath u;
  ip_is_loopback _ := None;
  raw_length r := match r with RawNil => 0 | _ => 2 end;
  fold_key s := s;
  decodes_losslessly _ := true;
  json_text s := match proof_texts !! s with Some j => Raw j | None => RawInvalid end;
  unicode_Cf _ := false; unicode_visible _ := true;
  raw_length_nil := ltac:(by intros []);
  raw_length_RawNil := eq_refl |}.

Definition resource_op : Server := server_on resource_platform.

#[local] Existing Instances resource_op Grants.grant_store_laws Revocations.revocation_laws.

(** * The access token *)

Definition opaque_params : AccessTokenParams := {|
  atp_ClientID := "c1"; atp_Subject := "alice"; atp_InternalSubject := "";
  atp_Scope := ["payments"]; atp_Thumbprint := "key"; atp_SenderConstrain := SenderConstrainDPoP;
  atp_Claims := {["grant_id" := Raw (JStr "grant-1")]}; atp_Issuer := "https://op";
  atp_Audience := "https://rs.example"; atp_Audiences := []; atp_Now := example_now;
  atp_Lifetime := (300 * Second)%Z |}.

Definition no_tokens : @Env resource_op :=
  (example_now, (Replays.NewReplayStore, AccessTokens.NewAccessTokenStore)).
Definition issue_run := OpaqueAccessTokens_IssueAccessToken opaque_params (example_random, no_tokens).
Definition token_env : @Env resource_op := issue_run.2.2.
Definition opaque_resolver : Resource.OpaqueAccessTokens := {|
  Resource.oat_Issuer := "https://op"; Resource.oat_Audience := "https://rs.example";
  Resource.oat_AdditionalAudiences := [] |}.

Definition env_tokens : Storage.AccessTokenStore example_env := env_access_tokens (Server:=resource_op).

#[export] Instance example_token_laws : @AccessTokenLaws example_env env_tokens.
Proof.
  refine (@Build_AccessTokenLaws example_env env_tokens
    (λ x h t, x.2.2 !! h = Some t) _ _ _ _ _); simpl; unfold on_tokens.
  - intros t x x'. cbn. intros [= <-]. apply lookup_insert_eq.
  - intros t x r x'. cbn. intros [= _ <-] h t'. simpl. rewrite lookup_insert_Some. naive_solver.
  - intros l x r x' (m & Hm & ->)%zoom_run.
    pose proof (lookup_token_same (AccessTokenLaws:=access_token_laws) l _ _ _ Hm) as ->.
    by destruct x as [t [rp m]].
  - intros l x r x' (m & Hm & ->)%zoom_run.
    exact (lookup_token_record (AccessTokenLaws:=access_token_laws) l _ _ _ Hm).
  - intros l x t Hm. apply zoom_run. exists x.2.2. split; [|by destruct x as [? []]].
    exact (lookup_token_found (AccessTokenLaws:=access_token_laws) l _ _ Hm).
Defined.

Lemma opaque_token_roundtrip_witness :
  issue_run.1 = Ok (opaque_token, hex_encode (sha256 opaque_token)) ∧
  (Resource.OpaqueAccessTokens_ResolveAccessToken opaque_resolver
     (opaque_request opaque_token example_now 0%Z) token_env).1 = Ok (issued_as opaque_params opaque_token).
Proof.
  split; [vm_compute; reflexivity|].
  rewrite (proj1 (opaque_token_roundtrip opaque_params opaque_resolver example_random no_tokens
    opaque_token (hex_encode (sha256 opaque_token)) issue_run.2.1 token_env example_now 0%Z token_env
    ltac:(vm_compute; reflexivity) ltac:(by split_and!) eq_refl ltac:(vm_compute; reflexivity)
    (λ t H, H))). reflexivity.
Defined.

(** * The resource server *)

Definition resource_config : Resource.Config := {|
  Resource.rc_Limits := {| Resource.MaxDPoPProofAge := (60 * Second)%Z;
    Resource.MaxClockSkew := (10 * Second)%Z; Resource.DPoPNonceLifetime := 0%Z |};
  Resource.ResourceURLs := [Some (accounts_url "")]; Resource.rc_Assurance := 1%N;
  Resource.rc_Deployment := 0%N; Resource.PairwisePrefix := None;
  Resource.rc_PairwiseResolution := 0%N |}.

Definition example_deployment : Deployment := {|
  d_cfg := resource_config; d_ReplayT := Replays.ReplayStore; d_replay := Replays.replay_store;
  d_NoncesT := Nonces.NonceStore; d_has_nonces := false; d_nonces := Nonces.nonce_store;
  d_reader := Revocations.IsRevoked; d_reads := eq_refl;
  d_AccessTokens := Resource.OpaqueResolver opaque_resolver;
  d_PairwiseSubjects := None; d_PairwiseSubjectResolver := None |}.

Definition example_resource_server : Resource.Verifier := deployed example_deployment.

#[local] Existing Instance example_resource_server.

Definition resource_state (revocation : Revocations.RevocationStore) : Resource.VState := {|
  Resource.vs_replay := Replays.NewReplayStore : Resource.v_ReplayT;
  Resource.vs_revocation := revocation : Resource.v_RevocationT;
  Resource.vs_nonces := Nonces.NewNonceStore : Resource.v_NoncesT;
  Resource.vs_rotator := zero_rotator; Resource.vs_random := "";
  Resource.vs_env := token_env : Resource.v_Env |}.

(** A proof's text: its payload, signed with the key's name. *)
Definition proof_jwt (payload : string) : string :=
  let input := EncodeToString rawURL "H" +:+ "." +:+ EncodeToString rawURL payload in
  input +:+ "." +:+ EncodeToString rawURL ("key" +:+ input).

Definition accounts_request (proof : string) : Resource.VerifyRequest :=
  Resource.VerifyRequestFromHTTP {|
    Resource.hr_Method := "GET"; Resource.hr_Authorization := ["DPoP " +:+ opaque_token];
    Resource.hr_DPoP := [proof_jwt proof]; Resource.hr_EscapedPath := "/accounts";
    Resource.hr_PeerCertificates := [] |}.

Definition fresh_resource : Resource.VState := resource_state Revocations.NewRevocationStore.
Definition first_run := Resource.Verify (accounts_request "p1") fresh_resource.
Definition second_run := Resource.Verify (accounts_request "p2") first_run.2.

Definition authorization {A} (r : result Resource.Error A) (d : A) : A :=
  match r with Ok a => a | Err _ => d end.

Lemma run_Ok {S E A} (m : result E A * S) : is_ok m.1 = true → ∃ a, m = (Ok a, m.2).
Proof. destruct m as [[a|e] s]; [by exists a|done]. Qed.

Lemma verified_request_authorized_witness :
  ∃ authz raw now credential resolved,
    verified_as (accounts_request "p1") fresh_resource authz first_run.2 raw now credential resolved.
Proof.
  destruct (run_Ok first_run) as [authz Hrun]; [vm_compute; reflexivity|].
  exists authz. exact (verified_request_authorized _ _ _ _ Hrun).
Defined.

(** Someone else's certificate in place of the key. *)
Definition stolen_request : Resource.VerifyRequest :=
  Resource.VerifyRequestFromHTTP {|
    Resource.hr_Method := "GET"; Resource.hr_Authorization := ["Bearer " +:+ opaque_token];
    Resource.hr_DPoP := []; Resource.hr_EscapedPath := "/accounts";
    Resource.hr_PeerCertificates := ["der"] |}.

Definition stolen_run := Resource.Verify stolen_request fresh_resource.

Lemma run_Err {S E A} (m : result E A * S) e : m.1 = Err e → m = (Err e, m.2).
Proof. destruct m as [[a|e'] s]; simpl; congruence. Qed.

Lemma stolen_refused : stolen_run.1 = Err Resource.token_invalid.
Proof. vm_compute. reflexivity. Qed.

Lemma refused_token_writes_nothing_witness : reads_only fresh_resource stolen_run.2.
Proof.
  exact (refused_token_writes_nothing stolen_request fresh_resource Resource.token_invalid
    stolen_run.2 (run_Err stolen_run _ stolen_refused) eq_refl).
Defined.

(** * Two proofs *)

Definition decoded_proof (jti : string) : Dpop.claims := {|
  JTI := jti; HTM := "GET"; HTU := accounts_text; IAT := 1700000005%Z; NBF := 0%Z; EXP := 0%Z;
  ATH := accessTokenHash opaque_token; c_Nonce := "" |}.

(** What the text of a proof says. *)
Definition proof_reading (jti : string) : option (bool * bool * bool * option Dpop.claims * option string) :=
  (λ c, (TypeIs (jws_Type c) jwtType, jws_HasJWK c, jws_Verifies c,
         strict_claims (jws_Payload c), jws_Thumbprint c)) <$> ParseCompact (proof_jwt jti).

Lemma proof_reading_signed jti c t :
  proof_reading jti = Some (true, true, true, Some c, Some t) → signed_claims (proof_jwt jti) c t.
Proof.
  unfold proof_reading. intros (compact & Hp & Heq)%fmap_Some. exists compact.
  injection Heq as -> -> -> -> ->. by split_and!.
Qed.

Lemma first_proof_signed : signed_claims (proof_jwt "p1") (decoded_proof "p1") "key".
Proof. apply proof_reading_signed. vm_compute. reflexivity. Qed.
Lemma second_proof_signed : signed_claims (proof_jwt "p2") (decoded_proof "p2") "key".
Proof. apply proof_reading_signed. vm_compute. reflexivity. Qed.

(** Whether a run used DPoP. *)
Definition run_used_dpop (r : result Resource.Error Resource.AuthorizationContext * Resource.VState)
    : option bool :=
  match r.1 with Ok a => Some (Resource.usedDPoP a) | Err _ => None end.

Lemma run_used r : run_used_dpop r = Some true → ∃ a, r = (Ok a, r.2) ∧ Resource.usedDPoP a = true.
Proof. destruct r as [[a|e] s]; [|done]. intros [= Ha]. by exists a. Qed.

Lemma first_used : run_used_dpop first_run = Some true.
Proof. vm_compute. reflexivity. Qed.
Lemma second_used : run_used_dpop second_run = Some true.
Proof. vm_compute. reflexivity. Qed.

Lemma resource_proof_spent_once_witness :
  (∃ a b, verified_proof (accounts_request "p1") fresh_resource a first_run.2 (decoded_proof "p1") "key" ∧
     verified_proof (accounts_request "p2") first_run.2 b second_run.2 (decoded_proof "p2") "key") ∧
  JTI (decoded_proof "p2") ≠ JTI (decoded_proof "p1").
Proof.
  destruct (run_used first_run first_used) as (a & Ha & Hda).
  destruct (run_used second_run second_used) as (b & Hb & Hdb).
  assert (H1 : verified_proof (accounts_request "p1") fresh_resource a first_run.2
    (decoded_proof "p1") "key").
  { split_and!; [exact Ha|exact Hda|]. exists (proof_jwt "p1"). split; [done|exact first_proof_signed]. }
  assert (H2 : verified_proof (accounts_request "p2") first_run.2 b second_run.2
    (decoded_proof "p2") "key").
  { split_and!; [exact Hb|exact Hdb|]. exists (proof_jwt "p2"). split; [done|exact second_proof_signed]. }
  split; [exists a, b; exact (conj H1 H2)|].
  exact (resource_proof_spent_once _ _ _ _ _ _ _ _ _ _ _ H1 (rtc_refl _ _) H2).
Defined.

(** * Beside the authorization server *)

(** * Beside the authorization server *)

Lemma eta_pairs {A B C} (m : A * (B * C)) : m = (m.1, (m.2.1, m.2.2)).
Proof. by destruct m as [? []]. Qed.

Lemma issued_token_step : rtc token_step no_tokens token_env.
Proof.
  apply rtc_once. apply (token_issue opaque_params example_random no_tokens issue_run.1
    issue_run.2.1 token_env); [by split_and!|].
  exact (eta_pairs issue_run).
Qed.

Lemma no_token_record h t : ¬ token_record (AccessTokenLaws:=example_token_laws) no_tokens h t.
Proof. change ((∅ : gmap digest NewAccessToken) !! h = Some t → False). by rewrite lookup_empty. Qed.

Lemma opaque_access_was_issued_witness :
  ∃ authz p, first_run = (Ok authz, first_run.2) ∧
    Resource.ac_ClientID authz = atp_ClientID p ∧ Resource.Scopes authz = atp_Scope p.
Proof.
  destruct (run_Ok first_run) as [authz Hrun]; [vm_compute; reflexivity|].
  destruct (opaque_access_was_issued example_deployment opaque_resolver no_tokens fresh_resource
    (accounts_request "p1") authz first_run.2 eq_refl no_token_record
    issued_token_step Hrun) as (p & raw & presented & now & credential & _ & _ & _ & Hc & _ & Hs & _).
  exists authz, p. exact (conj Hrun (conj Hc Hs)).
Defined.

Definition resource_world : @World resource_op := {|
  w_grants := example_grants : GrantsT; w_revocation := Revocations.NewRevocationStore : RevocationT;
  w_backchannel := example_backchannel : BackchannelT;
  w_transactions := Transactions.NewTransactionStore : TransactionsT;
  w_nonces := Nonces.NewNonceStore : NoncesT; w_rotator := zero_rotator;
  w_random := "x" +:+ example_random +:+ example_random +:+ example_random; w_env := token_env;
  w_audit := [] |}.

(** Another grant withdrawn. *)
Definition withdrawn : World := (RevokeGrant "grant-9" resource_world).2.
Definition state_beside (w : World) : Resource.VState := resource_state (w_revocation w).
Definition kept_run := Resource.Verify (accounts_request "p1") (state_beside withdrawn).

Lemma run_is {S E A} (m : result E A * S) a : m.1 = Ok a → m = (Ok a, m.2).
Proof. destruct m as [[a'|e] s]; simpl; congruence. Qed.

Lemma withdraws : (RevokeGrant "grant-9" resource_world).1 = Ok tt.
Proof. vm_compute. reflexivity. Qed.

Lemma withdrawn_grant_refused_by_resource_witness :
  ∃ authz, kept_run = (Ok authz, kept_run.2) ∧
    ¬ (Resource.ac_Issuer authz = "https://op" ∧ Resource.GrantID authz = "grant-9").
Proof.
  destruct (run_Ok kept_run) as [authz Hrun]; [vm_compute; reflexivity|].
  exists authz. split; [exact Hrun|].
  exact (withdrawn_grant_refused_by_resource example_deployment "grant-9" resource_world withdrawn
    withdrawn (state_beside withdrawn) (accounts_request "p1") authz kept_run.2
    (run_is (RevokeGrant "grant-9" resource_world) tt withdraws) (rtc_refl _ _)
    (conj eq_refl eq_refl) Hrun).
Defined.

(** A code exchanged twice, with another client's token about. *)
Definition once_exchanged : World :=
  (ExchangeAuthorizationCode (exchange_form "c1") resource_world).2.
Definition exchange_again :=
  exchange_code (S:=resource_op) (token_client "c1") "" "the-code" "https://rp/cb" example_verifier
    {| objects := []; present := false |} [] "" once_exchanged.
Definition redeem_again :=
  RedeemAuthorizationCode {| acr_CodeHash := authorizationCodeHash "the-code" "";
    acr_ClientID := client_id (token_client "c1") |} (w_grants once_exchanged).
Definition reused_here : AuthorizationCodeAlreadyRedeemedError :=
  match redeem_again.1 with
  | Err (CodeAlreadyRedeemed a) => a
  | _ => {| arr_IssuedAccessTokenKey := ""; arr_IssuedRefreshTokenHash := None; arr_ClientID := "" |}
  end.
Definition token_world (w : World) : World := set_random_env ("", token_env) w.
Definition reuse_run := Resource.Verify (accounts_request "p1") (state_beside exchange_again.2).

Lemma redeems_again : redeem_again.1 = Err (CodeAlreadyRedeemed reused_here).
Proof. vm_compute. reflexivity. Qed.
Lemma reused_by_c1 : arr_ClientID reused_here = "c1".
Proof. vm_compute. reflexivity. Qed.

Lemma reused_code_refused_by_resource_witness :
  ∃ authz, reuse_run = (Ok authz, reuse_run.2) ∧
    ¬ (Resource.ac_Issuer authz = "https://op" ∧
       Resource.CodeGrantID authz = CodeGrantID (authorizationCodeHash "the-code" "")).
Proof.
  destruct (run_Ok reuse_run) as [authz Hrun]; [vm_compute; reflexivity|].
  exists authz. split; [exact Hrun|].
  destruct (reused_code_refused_by_resource example_deployment (token_client "c1") "" "the-code"
    "https://rp/cb" example_verifier {| objects := []; present := false |} [] "" _ reused_here _
    once_exchanged exchange_again.1 exchange_again.2 (token_world exchange_again.2)
    (state_beside exchange_again.2) (accounts_request "p1") authz reuse_run.2
    (surjective_pairing _) (run_Err redeem_again _ redeems_again)
    (or_intror reused_by_c1) eq_refl example_writes_succeed
    (rtc_once _ _ (step_environment _ _)) (conj eq_refl eq_refl) Hrun) as [_ Hn].
  exact Hn.
Defined.
